(* ===== verification/_CoqProject ===== *)
-Q . S2P
Prelude.v
PyStr.v
PyRe.v
PyNum.v
PyInt.v
Json.v
PyBytes.v
PyDict.v
Recreation.v
UpdaterState.v
StateStore.v
EventHub.v
StateMachine.v
Events.v
Reconciler.v
Quality.v
Release.v
SourceMapping.v
SeasonPack.v
MediaMatch.v
Blocklist.v
PlexVideo.v
Naming.v
LibraryRoots.v
PyOs.v
DecisionEngine.v
SeasonRollup.v
Eviction.v
ImportValidation.v
UpdateRecovery.v
UpdateCoordination.v
UpdateLaws.v
UpdateSchedule.v
UpdatePolicy.v
Transactions.v
RequestStore.v
RequestRepository.v
SeasonRepository.v
SeasonService.v
RequestLaws.v
RequestFacts.v
DownloadRepository.v
EpisodeRepository.v
EpisodeService.v
DownloadLaws.v
DownloadQueries.v
DownloadFacts.v
EpisodeFacts.v
Sessions.v
RequestService.v
RequestServiceFacts.v
GrabService.v
GrabFacts.v
PurgeRegistry.v
Interaction.v
Histories.v
EvictionIO.v
PurgeRun.v
EvictionRun.v
EvictionMonitor.v
EvictionSpecs.v
EvictionSafety.v
EvictionHistory.v
LocalIO.v
LocalFileSystem.v
LocalMonitor.v
LocalSpecs.v
LocalLocks.v
LocalPublish.v
LocalRemove.v
LocalHistory.v
SidecarIO.v
DockerEngine.v
CoordinatorClient.v
Runner.v
RunnerMonitor.v
RunnerSpecs.v
RunnerSteps.v
RunnerSafety.v
RunnerHistory.v
