(* ===== verification/Prelude.v ===== *)
(** * Plex-Management: a verified model of its decision logic

    Plex-Management finds, downloads, checks and files media for a Plex server,
    and replaces its own container when a newer image is published.  Its own
    logic is a set of pure policies under [src/src/plex_manager/domain/], the
    services and repositories that persist them, and the updater sidecar of
    [updater/], a separate process that drives Docker.  This library translates
    the policies, the repositories of requests, seasons, downloads and episode
    states with the services that sequence them, the creation of requests and the
    grab, the eviction of library media, the file system adapter, the coordination
    of updates, the event bus with its fan-out, and the whole of the sidecar's
    protocol from the source, statement by statement, and proves what makes them
    correct.  Paths below are relative to
    [src/src/plex_manager/].

    ** How the parts interact

    A search returns candidates.  [DecisionEngine] parses each one's title
    ([SourceMapping]), tests that it is the wanted title ([MediaMatch]) and of
    the wanted scope ([SeasonPack]), gates its quality ([Quality]), consults the
    blocklist ([Blocklist]) and ranks what is left.  The grabbed download is
    followed by [Reconciler] through the states of [StateMachine]; a poll's
    transitions are persisted by compare-and-swap and published on [Events],
    and [EventHub] fans them out to the open pages.  The finished download is
    validated again, file by file ([ImportValidation], [PlexVideo]), and filed
    under a safe path ([Naming]) below a configured root ([LibraryRoots]).
    [LocalFileSystem] publishes it there, rolls a publication back and deletes.

    What is asked for is kept in the tables of [RequestStore] by
    [RequestRepository] and [SeasonRepository]; [SeasonService] writes the fold
    [SeasonRollup] makes of a show's seasons with every write of one.  The
    torrents, the targets each one satisfies and the seasons it claims are rows
    of the same tables, written by [DownloadRepository]; [EpisodeRepository]
    keeps what is held of each episode, and [EpisodeService] compares it with the
    catalogue and re-arms a season that has grown.  [RequestService] creates the
    requests and [GrabService] hands a release to the download client and records
    it; both run in [Sessions] while other processes commit to the same tables.
    When a disk
    fills, [EvictionRun] selects by the policy of [Eviction], claims a title in
    the tables, deletes its path through [PurgeRun] while the registries of
    [PurgeRegistry] keep imports out of it, records the outcome, and recovers
    what an earlier process left half done.

    The container updates itself in the windows of [UpdateSchedule], subject to
    [UpdatePolicy], coordinated with running work through the leases of
    [UpdateCoordination].  The sidecar ([Runner]) claims an update from that
    coordinator ([CoordinatorClient]), records every step in a state file
    ([UpdaterState], [StateStore]) before it takes it, replaces the container
    ([Recreation]) through the Docker engine ([DockerEngine]) and reports the
    outcome.  It may be stopped between any two of its calls; the next process
    resumes from the state file.

    ** The files

    Foundations:
    - [Prelude]: exceptions as values ([res]), loops that may raise, Python's
      [max], [min], [sorted] and dict comprehensions with their laws, decidable
      membership;
    - [PyStr]: Python [str] as a list of code points, its methods, [repr] and
      [int];
    - [PyRe]: the regular expressions the program uses, as a backtracking
      matcher with Python's priorities and its declarative semantics;
    - [PyNum]: binary64 floats, instants and durations;
    - [PyInt]: [int] of a text, with its limits;
    - [Json]: [json.dumps] and [json.loads] with their round trip;
    - [PyBytes]: UTF-8, strict, and the newlines of text-mode reads;
    - [PyDict]: [get], [pop], [update], truth and equality of JSON values;
    - [PyOs]: system errors by number and class, the lexical part of [os.path];
    - [Interaction]: computations that make calls and may be answered with a
      value or an exception, the worlds that answer them, and the rules by which
      a property of every run is proved ([wp_sound]);
    - [Histories]: monitors that remember every call of a run, which calls a
      program makes, the frame rule, and the replay of a program against a
      scripted world.

    Choosing a release:
    - [Quality]: [domain/quality.py], [quality_profile.py], [quality_service.py];
    - [Release]: the records of [domain/release.py];
    - [SourceMapping]: [domain/source_mapping.py], [adapters/parser/];
    - [SeasonPack]: [domain/season_pack.py], [season_completeness.py];
    - [MediaMatch]: [domain/media_match.py];
    - [Blocklist]: [domain/blocklist.py], [failure_classification.py], and the
      failure texts of [adapters/qbittorrent/adapter.py];
    - [DecisionEngine]: [domain/decision_engine.py].

    Following and importing a download:
    - [StateMachine]: [domain/state_machine.py];
    - [Events]: [domain/events.py];
    - [EventHub]: [web/events.py], the subscribers' bounded queues;
    - [Reconciler]: [domain/reconciler.py], with the persistence of a cycle in
      [services/queue_service.py] and [repositories/downloads.py];
    - [PlexVideo]: [domain/plex_video.py], [payload_validation.py];
    - [Naming]: [domain/naming.py];
    - [LibraryRoots]: [services/library_roots.py];
    - [ImportValidation]: [domain/import_validation.py];
    - [SeasonRollup]: [domain/season_rollup.py].

    The library's files, [adapters/filesystem/local.py]:
    - [LocalIO]: the system calls and the answers they may have;
    - [LocalFileSystem]: the adapter: the publish lock, publication through
      anchored descriptors, rollback, deletion, and the walks;
    - [LocalMonitor]: which descriptors are open, what each denotes, and the
      calls allowed on such facts;
    - [LocalSpecs], [LocalLocks], [LocalPublish], [LocalRemove]: that
      every run stays within the monitor;
    - [LocalHistory]: what that means for runs, with replays, and the listing of videos.

    What was asked for:
    - [Transactions]: computations on a database that keep or raise, savepoints,
      statements as functions on the rows of a table, and the rules by which an
      invariant of the database is proved of a transaction ([keeps]);
    - [RequestStore]: the tables of [models.py] for requests, seasons,
      subscribers, downloads, their scopes and coverage claims, and episode
      states, with keys, unique indexes, references and cascades;
    - [RequestRepository], [SeasonRepository]: [repositories/requests.py] and
      [repositories/season_requests.py];
    - [SeasonService]: [services/season_request_service.py];
    - [DownloadRepository]: [repositories/downloads.py];
    - [EpisodeRepository]: [repositories/season_episode_states.py];
    - [EpisodeService]: [services/season_episode_service.py];
    - [RequestLaws]: that every method keeps the constraints of the request
      tables and touches nothing else; [RequestFacts]: what the methods do;
    - [DownloadLaws]: that every method and service keeps the constraints of all
      tables, and the databases they can reach ([reachable]);
    - [DownloadQueries]: the batch queries against the single ones;
    - [DownloadFacts], [EpisodeFacts]: their theorems;
    - [Sessions]: a transaction of a service among those of others, what it did
      outside the tables, and the rules by which a property of it is proved
      ([always], [triple]);
    - [RequestService], [RequestServiceFacts]: [services/request_service.py];
    - [GrabService], [GrabFacts]: [services/grab_service.py].

    Reclaiming space:
    - [Eviction]: [domain/eviction.py], [disk_usage.py], the policy;
    - [PurgeRegistry]: the registries of [services/purge_service.py], with their
      interleavings; [PurgeRun]: its purge of a path;
    - [EvictionIO]: the calls of an eviction run;
    - [EvictionRun]: [services/eviction_service.py];
    - [EvictionMonitor]: what must have happened before each of its calls;
    - [EvictionSpecs], [EvictionSafety]: that every run is accepted;
    - [EvictionHistory]: what acceptance means, with a replayed eviction.

    When to update, and under which lease:
    - [UpdateSchedule]: [domain/update_schedule.py];
    - [UpdatePolicy]: [services/update_policy.py];
    - [UpdateRecovery]: [domain/update_recovery.py];
    - [UpdateCoordination]: [repositories/update_coordination.py] (the row and
      the lease table of [models.py], every repository method as a computation
      on them, and the transactions of
      [services/update_coordination_service.py]);
    - [UpdateLaws]: its theorems.

    The updater sidecar:
    - [UpdaterState]: [updater/state.py], the record, its parser and printer;
    - [StateStore]: [updater/state.py], the file behind it, as steps of a file
      system that may lose power between any two;
    - [Recreation]: [updater/recreation.py], the container to create from the
      one that runs;
    - [SidecarIO]: the calls of the sidecar and the answers they may have;
    - [DockerEngine], [CoordinatorClient]: [updater/engine.py] and
      [updater/coordinator.py], requests built and answers checked;
    - [Runner]: [updater/runner.py], every phase, the rollback, the lease
      heartbeat and the main loop;
    - [RunnerMonitor]: what a run must have seen before each call is allowed;
    - [RunnerSpecs], [RunnerSteps], [RunnerSafety]: that every run of the loop
      is accepted by the monitor;
    - [RunnerHistory]: a complete update executed against a scripted world, what
      acceptance means for the calls of a run, and for a
      sequence of processes that crash and restart on one state file.

    ** What is shown

    - No theatrical recording: under the default profile a release whose title
      carries a reject word is never accepted, whatever the title library, the
      request and the search return ([DecisionEngine], [SourceMapping]), and is
      not imported either ([ImportValidation]); the nets can only demote.
    - Decisions: exactly which candidates are accepted, that they are sorted
      best first with ties in order, which season packs are taken, which titles
      match, which releases are blocked and stay blocked.
    - Downloads: transitions stay in the legal graph, a second reconcile of the
      same snapshot changes nothing, an absent download fails only after the
      full grace window, a concurrent writer's row is not overwritten, a stall
      is reported no earlier than its deadline.
    - Events: a subscriber of the hub receives what was published since it
      joined, in order, or is told to reload; the bounded queue refines that
      specification.
    - Files: optical-disc trees and dangerous payloads are never candidates,
      library paths never leave their directory, exactly the files that pass
      every gate are imported and no file is lost.
    - Publication and deletion: every name is looked up in a directory reached
      from its root one component at a time without following a link, through
      descriptors that are all closed in the end; nothing is overwritten and
      nothing removed but what the call made or was asked to remove, seen a
      moment before; what a publication returns was found by a fresh walk; a
      failed delete that may have lost something says so; a listing of videos is
      complete and stays in its tree.
    - Requests: the schema holds in every database the repositories can produce;
      a claim succeeds exactly on a free title; a show follows its seasons.
    - Creating requests, whatever other processes commit meanwhile and whatever
      the catalogue and the library answer: who asks is subscribed to the request
      that is returned, and it is for the title asked; an active request is
      joined; merging an intent neither loses nor invents an episode.
    - Grabbing, under the same conditions and whatever the download client
      answers: nothing is removed from the client but what this grab added; the
      tables stay among those the repositories can produce, with claims only of
      live torrents; a grab that returns has committed.
    - Torrents: a season has at most one live torrent and one active claim, and
      the claim is of a live torrent; a compare-and-swap decides on the row as it
      is; a batch query answers what the single ones would.
    - Episodes: what is imported stays so whatever another transaction commits
      between a read and a write, save under one race that is shown
      ([grab_overwrites_a_concurrent_import]); a season is re-armed only for an
      aired episode that is missing.
    - Eviction: only watched, unprotected, idle titles are selected, stalest
      first; every delete is justified by checks made under its registration and
      permit; a row becomes available again only while its media are intact, and
      is forgotten only when they are gone; nothing is leaked, and a sweep ends.
    - Updates: the lease table refines a small lease protocol
      ([UpdateCoordination.lease_step]); no critical work starts under a drain
      that was told it may proceed, leases are not stolen, generations are
      monotone, a fenced worker is ignored for good, an unknown phase is frozen,
      and a wedged coordinator is recoverable in bounded time.  Windows resolve
      to existing wall times and, in a zone with a fixed offset, mean what the
      clock reads.
    - The sidecar's record: what is written is read back, a stop during a save
      leaves the old record or the new one, and a record that is read satisfies
      what its phase requires.
    - The sidecar's container: every volume of the running container is carried
      to its successor, and its environment is the operator's over the new
      image's.
    - The sidecar's runs, whatever Docker, the coordinator and the file system
      answer and wherever the process stops: the old container is not removed
      before the update has been decided, removal is justified by a health check
      that was seen, no container is touched before the intent is on disk,
      reports of success and of rollback are true, and a claim that has to wait
      installs nothing.

    ** Conventions

    A call that may raise returns [res]; the coordinator's operations, which
    keep their writes until commit or rollback, are state-passing functions that
    return [Done] or [Throw] with the store, as are the repositories', which
    return a [res] with the tables; a service's session adds the tables a rollback
    restores and the calls made so far ([Sessions.session]): the database is
    SQLite, so that the first write of a transaction holds back every other
    writer until it ends, and before it each statement may find what others have
    committed; the
    sidecar, the eviction service and the file system adapter are programs of
    [Interaction], trees of calls whose answers come from outside.  These answers
    are arbitrary but for what [fits] says of each ([SidecarIO], [EvictionIO],
    [LocalIO]); the theorems of [LocalHistory] are about runs in which the kernel
    does not hand out a descriptor that is open ([LocalMonitor.sane]).  Records,
    constants and functions keep their names; a local helper without a name in
    the code says what it stands for.  Strings built for operators are modelled
    too.

    Parameters: the Unicode tables beyond ASCII ([UnicodeDB]), guessit (a
    function from a name to its fields, or an exception), SHA-256, the working
    directory and the capabilities of the platform, where the database sorts a
    NULL ([nulls_first]), what other transactions commit between a read and a
    write ([meanwhile]) or between the statements of a session ([others]), the
    clock, the answers of the catalogue, of Plex, of the download client and of
    the in-process registry of removals, whether a release is blocklisted, the season a torrent's name
    parses to, the timezone database
    ([ZoneInfo], with the one law [ZoneLaw]), the text of a float in JSON
    ([FloatText]), and the hooks the code itself takes as arguments.  Every
    theorem holds for all of them.

    Bounds: [PyRe.scan] runs with fuel above the length of the text
    ([scan_exhausts] shows that a pattern which consumes text then leaves
    nothing unscanned); the JSON reader runs with twice the length of its text,
    and [Json.loads_total] shows that this is never exhausted; the probing of a
    wall time has the code's own bound of two days.  The sidecar's loops take
    any number of rounds: its theorems quantify over the number, and a run that
    reaches it is one that has not stopped yet ([Interaction.Hang]), not one
    that has returned.  So do the loops of [LocalFileSystem] whose length the file
    system decides: retries of a lock, chunks of a file, directories of a tree.
    The loops of [GrabService] over a row that keeps changing under them, and the
    recursion of its attachment, take [rounds] in the same way and raise
    [GrabService.Unfinished] when these are spent: that run is one that has not
    ended; what its theorems say of a run that raises holds of it too.
    An eviction run needs no fuel.  Integers are Python's, unbounded, hence [Z].  A date
    outside years 1 to 9999 raises in [PyNum]; [UpdateSchedule] and
    [UpdateCoordination] take instants well within that range.

    ** What is not modelled

    The adapters' network calls, the database engine and its migrations,
    authentication and encryption, the web layer beyond its event hub, logging
    and the single-page application: input and output, or glue around the
    policies.  The other services that sequence adapter calls (import, queue,
    correction, the search and its schedule) are represented by the policies they
    call and by the part of the queue service that persists a reconcile cycle.  Of
    the purge
    service: the gates of its threads and the wait for a torrent's content to go.
    Below the file system adapter: the copy of the bytes, [os.fwalk] and
    [shutil.rmtree] on a directory held open are single calls.
    Of the sidecar: its environment parsing, the process lock, and the HTTP
    transport and URL quoting below a request.  A transaction of the coordinator
    is atomic here because each one starts by locking the singleton row. *)

From Stdlib Require Import ZArith Lia Bool Sorted Permutation.
From stdpp Require Export base tactics option list numbers sorting gmap strings.

Declare Scope plex_scope.
Delimit Scope plex_scope with plex.

(** ** Exceptions and the error monad

    A Python call that may raise is a value of [res A]: [Ok] for a normal
    return, [Raise] for an exception that propagates.  Only the exception
    class and, where the source formats one, its message are kept. *)

Inductive exn : Type :=
  | ValueError (msg : list N)
  | TypeError
  | OverflowError
  | YearOutOfRange            (** the [ValueError] of a date outside years 1 to 9999 *)
  | KeyError
  | IndexError
  | OSError
  | FileNotFoundError
  | UnicodeError
  | JSONDecodeError
  | ProgramError (cls : string) (msg : list N).   (** a class the program declares *)

Inductive res (A : Type) : Type :=
  | Ok (x : A)
  | Raise (e : exn).
Arguments Ok {A} _.
Arguments Raise {A} _.

#[export] Instance res_ret : MRet res := fun A x => Ok x.
#[export] Instance res_bind : MBind res := fun A B f m =>
  match m with Ok x => f x | Raise e => Raise e end.
#[export] Instance res_fmap : FMap res := fun A B f m =>
  match m with Ok x => Ok (f x) | Raise e => Raise e end.

Definition is_ok {A} (r : res A) : bool :=
  match r with Ok _ => true | Raise _ => false end.

Definition catch {A} (r : res A) (h : exn -> A) : A :=
  match r with Ok x => x | Raise e => h e end.

(** Left-to-right loop over a list whose body may raise. *)
Fixpoint res_foldl {A B} (f : B -> A -> res B) (acc : B) (l : list A) : res B :=
  match l with
  | [] => Ok acc
  | x :: l' => acc' ← f acc x; res_foldl f acc' l'
  end.

Lemma Ok_inj {A} (x y : A) : Ok x = Ok y -> x = y.
Proof. by intros [= ->]. Qed.

Lemma bind_Ok {A B} (m : res A) (f : A -> res B) (y : B) :
  (m ≫= f) = Ok y -> exists x, m = Ok x /\ f x = Ok y.
Proof. destruct m; [eauto | discriminate]. Qed.

Lemma res_foldl_app {A B} (f : B -> A -> res B) acc l1 l2 :
  res_foldl f acc (l1 ++ l2) =
  (acc' ← res_foldl f acc l1; res_foldl f acc' l2).
Proof.
  revert acc; induction l1 as [|x l1 IH]; intros acc; [done|].
  simpl. destruct (f acc x); simpl; [apply IH | done].
Qed.

Lemma res_foldl_ext {A B} (f g : B -> A -> res B) acc l :
  (forall b x, x ∈ l -> f b x = g b x) -> res_foldl f acc l = res_foldl g acc l.
Proof.
  revert acc; induction l as [|x l IH]; intros acc H; [done|]. simpl.
  rewrite H by left. destruct (g acc x); simpl; [|done].
  apply IH. intros b y Hy. apply H. by right.
Qed.

(** A body that appends the optional result of [g x] to the accumulator is a
    [mapM]-like traversal: the result is the concatenation of the parts. *)
Lemma res_foldl_collect {A B} (g : A -> res (list B)) acc l out :
  res_foldl (fun acc x => ys ← g x; Ok (acc ++ ys)) acc l = Ok out <->
  exists parts, Forall2 (fun x ys => g x = Ok ys) l parts /\ out = acc ++ concat parts.
Proof.
  revert acc out; induction l as [|x l IH]; intros acc out; simpl.
  - split.
    + intros [= <-]. exists []. by rewrite app_nil_r.
    + intros (parts & Hf & ->). inversion Hf; subst. simpl. by rewrite app_nil_r.
  - destruct (g x) as [ys|e] eqn:Hg; simpl.
    + rewrite IH. split.
      * intros (parts & Hf & ->). exists (ys :: parts). split; [by constructor|].
        simpl. by rewrite app_assoc.
      * intros (parts & Hf & ->). inversion Hf as [|? ys' ? parts' Hg' Hf']; subst.
        rewrite Hg in Hg'. injection Hg' as <-. exists parts'. split; [done|].
        simpl. by rewrite app_assoc.
    + split; [done|]. intros (parts & Hf & _). inversion Hf; congruence.
Qed.

Lemma res_foldl_map {A B} (g : A -> res B) l out :
  res_foldl (fun acc x => y ← g x; Ok (acc ++ [y])) [] l = Ok out ->
  Forall2 (fun x y => g x = Ok y) l out.
Proof.
  rewrite (res_foldl_ext _ (fun acc x => ys ← ((fun y => [y]) <$> g x); Ok (acc ++ ys)))
    by (intros b x _; by destruct (g x)).
  intros H. apply res_foldl_collect in H as (parts & Hp & ->). simpl.
  induction Hp as [|x ys l parts Hx Hp IH]; [constructor|]. simpl.
  destruct (g x) as [y|] eqn:Hg; simpl in Hx; [|done].
  injection Hx as <-. simpl. by constructor.
Qed.

(** ** Options and booleans *)

Definition opt_eqb {A} (eqb : A -> A -> bool) (x y : option A) : bool :=
  match x, y with
  | Some a, Some b => eqb a b
  | None, None => true
  | _, _ => false
  end.

(** [x or d] on an optional integer: Python's [0] is falsy too. *)
Definition or_zero (x : option Z) : Z := default 0%Z x.

Lemma existsb_exists_iff {A} (f : A -> bool) (l : list A) :
  existsb f l = true <-> exists x, x ∈ l /\ f x = true.
Proof.
  rewrite existsb_exists. by setoid_rewrite list_elem_of_In.
Qed.

Lemma forallb_forall_iff {A} (f : A -> bool) (l : list A) :
  forallb f l = true <-> forall x, x ∈ l -> f x = true.
Proof.
  rewrite forallb_forall. by setoid_rewrite list_elem_of_In.
Qed.

(** [x in xs] for a list or tuple, by decidable equality. *)
Definition mem {A} `{EqDecision A} (x : A) (xs : list A) : bool :=
  bool_decide (x ∈ xs).

Lemma mem_true {A} `{EqDecision A} (x : A) xs : mem x xs = true <-> x ∈ xs.
Proof. apply bool_decide_eq_true. Qed.
Lemma mem_false {A} `{EqDecision A} (x : A) xs : mem x xs = false <-> x ∉ xs.
Proof. apply bool_decide_eq_false. Qed.

(** A dict comprehension [{k: v for ...}]: a later pair overwrites an earlier
    one with the same key. *)
Definition dict_of {K V} `{Countable K} (l : list (K * V)) : gmap K V :=
  list_to_map (reverse l).

Lemma dict_of_Some {K V} `{Countable K} (l : list (K * V)) k v :
  dict_of l !! k = Some v -> (k, v) ∈ l.
Proof.
  unfold dict_of. intros Hk. apply elem_of_list_to_map_2 in Hk.
  by apply elem_of_reverse.
Qed.

Lemma dict_of_None {K V} `{Countable K} (l : list (K * V)) k :
  dict_of l !! k = None <-> k ∉ l.*1.
Proof.
  unfold dict_of. rewrite <- not_elem_of_list_to_map.
  by rewrite fmap_reverse, elem_of_reverse.
Qed.

(** With distinct keys the order is irrelevant: every pair is found. *)
Lemma dict_of_NoDup {K V} `{Countable K} (l : list (K * V)) k v :
  NoDup l.*1 -> (k, v) ∈ l -> dict_of l !! k = Some v.
Proof.
  intros Hnd Hin. unfold dict_of. apply elem_of_list_to_map_1.
  - by rewrite fmap_reverse, reverse_Permutation.
  - by apply elem_of_reverse.
Qed.

(** Lookup in a dict literal (distinct keys). *)
Fixpoint assoc {K V} `{EqDecision K} (k : K) (l : list (K * V)) : option V :=
  match l with
  | [] => None
  | (k', v) :: l' => if bool_decide (k = k') then Some v else assoc k l'
  end.

Lemma assoc_Some_in {K V} `{EqDecision K} (k : K) (l : list (K * V)) v :
  assoc k l = Some v -> (k, v) ∈ l.
Proof.
  induction l as [|[k' v'] l IH]; simpl; [done|].
  case_bool_decide as Hk; [intros [= ->]; subst; left | right; auto].
Qed.

(** ** Python's [max]/[min] with a key: the first extremal element wins *)

Definition py_max_by {A} (key : A -> Z) (x : A) (l : list A) : A :=
  foldl (fun best y => if (key best <? key y)%Z then y else best) x l.

Definition py_min_by {A} (key : A -> Z) (x : A) (l : list A) : A :=
  foldl (fun best y => if (key y <? key best)%Z then y else best) x l.

Lemma py_max_by_spec {A} (key : A -> Z) l x :
  py_max_by key x l ∈ x :: l /\ Forall (fun y => (key y <= key (py_max_by key x l))%Z) (x :: l).
Proof.
  unfold py_max_by. revert x; induction l as [|y l IH]; intros x; simpl.
  - split; [left | by repeat constructor].
  - destruct (IH (if (key x <? key y)%Z then y else x)) as [Hin Hall].
    inversion Hall as [|? ? Hb Hr]; subst.
    destruct (Z.ltb_spec (key x) (key y)); split.
    + right. exact Hin.
    + repeat constructor; [lia | lia | done].
    + apply elem_of_cons in Hin as [->|Hin]; [left | by do 2 right].
    + repeat constructor; [lia | lia | done].
Qed.

Lemma py_min_by_spec {A} (key : A -> Z) l x :
  py_min_by key x l ∈ x :: l /\ Forall (fun y => (key (py_min_by key x l) <= key y)%Z) (x :: l).
Proof.
  unfold py_min_by. revert x; induction l as [|y l IH]; intros x; simpl.
  - split; [left | by repeat constructor].
  - destruct (IH (if (key y <? key x)%Z then y else x)) as [Hin Hall].
    inversion Hall as [|? ? Hb Hr]; subst.
    destruct (Z.ltb_spec (key y) (key x)); split.
    + right. exact Hin.
    + repeat constructor; [lia | lia | done].
    + apply elem_of_cons in Hin as [->|Hin]; [left | by do 2 right].
    + repeat constructor; [lia | lia | done].
Qed.

(** ** Python's stable sort

    [list.sort] only asks whether one element is less than another and keeps
    the input order of elements that compare equal.  [py_sort lt] is that sort
    for a strict weak order [lt]; [reverse=True] is the sort by the flipped
    order, which also keeps the input order of equal elements. *)

Class WeakOrder {A} (ltb : A -> A -> bool) : Prop := {
  weak_asym : forall x y, ltb x y = true -> ltb y x = false;
  weak_neg_trans : forall x y z, ltb x y = false -> ltb y z = false -> ltb x z = false;
}.

Section sort.
Context {A : Type} (ltb : A -> A -> bool).

Fixpoint py_insert (x : A) (l : list A) : list A :=
  match l with
  | [] => [x]
  | y :: l' => if ltb y x then y :: py_insert x l' else x :: l
  end.

Definition py_sort (l : list A) : list A := foldr py_insert [] l.

(** [le x y]: [x] may stand before [y] in a sorted list. *)
Definition sort_le (x y : A) : Prop := ltb y x = false.

Lemma py_insert_perm x l : py_insert x l ≡ₚ x :: l.
Proof.
  induction l as [|y l IH]; simpl; [done|].
  destruct (ltb y x); [|done]. rewrite IH. apply Permutation_swap.
Qed.

Lemma py_sort_perm l : py_sort l ≡ₚ l.
Proof.
  induction l as [|x l IH]; simpl; [done|].
  rewrite py_insert_perm. by rewrite IH.
Qed.

Lemma elem_of_py_sort x l : x ∈ py_sort l <-> x ∈ l.
Proof. by rewrite py_sort_perm. Qed.

Lemma length_py_sort l : length (py_sort l) = length l.
Proof. by rewrite py_sort_perm. Qed.

Lemma py_insert_sorted `{!WeakOrder ltb} x l :
  StronglySorted sort_le l -> StronglySorted sort_le (py_insert x l).
Proof.
  induction 1 as [|y l Hs IH Hall]; simpl; [by repeat constructor|].
  destruct (ltb y x) eqn:Hyx.
  - constructor; [done|]. rewrite py_insert_perm.
    constructor; [|done]. by apply weak_asym.
  - constructor; [by constructor|]. constructor; [done|].
    eapply Forall_impl; [exact Hall|]. intros z Hz. simpl in Hz.
    by eapply weak_neg_trans.
Qed.

Lemma py_sort_sorted `{!WeakOrder ltb} l : StronglySorted sort_le (py_sort l).
Proof. induction l as [|x l IH]; simpl; [constructor | by apply py_insert_sorted]. Qed.

(** Stability: restricted to the elements that compare equal to [a], sorting
    changes nothing. *)
Definition tied (a x : A) : bool := negb (ltb a x) && negb (ltb x a).

Lemma py_insert_tied `{!WeakOrder ltb} a x l :
  List.filter (tied a) (py_insert x l) = List.filter (tied a) (x :: l).
Proof.
  induction l as [|y l IH]; [done|]. simpl py_insert.
  destruct (ltb y x) eqn:Hyx; [|done].
  simpl List.filter in *. rewrite IH.
  destruct (tied a y) eqn:Hy; [|done]. destruct (tied a x) eqn:Hx; [|done].
  exfalso. unfold tied in *. apply andb_true_iff in Hy as [_ Hya], Hx as [Hax _].
  apply negb_true_iff in Hya, Hax.
  rewrite (weak_neg_trans _ _ _ Hya Hax) in Hyx. discriminate.
Qed.

Lemma py_sort_stable `{!WeakOrder ltb} a l :
  List.filter (tied a) (py_sort l) = List.filter (tied a) l.
Proof.
  induction l as [|x l IH]; [done|]. simpl py_sort.
  rewrite py_insert_tied. simpl. by rewrite IH.
Qed.
End sort.

Definition flip_lt {A} (ltb : A -> A -> bool) : A -> A -> bool := fun x y => ltb y x.

#[export] Instance flip_lt_weak {A} (ltb : A -> A -> bool) :
  WeakOrder ltb -> WeakOrder (flip_lt ltb).
Proof.
  intros [Ha Ht]. unfold flip_lt. split.
  - intros x y. apply Ha.
  - intros x y z H1 H2. by eapply Ht.
Qed.

(** Sorting by an integer key. *)
Definition key_lt {A} (key : A -> Z) : A -> A -> bool := fun x y => (key x <? key y)%Z.

#[export] Instance key_lt_weak {A} (key : A -> Z) : WeakOrder (key_lt key).
Proof.
  unfold key_lt. split; intros *; rewrite ?Z.ltb_lt, ?Z.ltb_ge; lia.
Qed.

(** ** [sorted(set(xs))] on integers *)

Definition py_sorted_ints (l : list Z) : list Z := py_sort Z.ltb l.

Definition sorted_set (l : list Z) : list Z := py_sorted_ints (remove_dups l).

#[export] Instance Zltb_weak : WeakOrder Z.ltb := key_lt_weak (fun z => z).

Lemma elem_of_sorted_set x l : x ∈ sorted_set l <-> x ∈ l.
Proof.
  unfold sorted_set, py_sorted_ints. rewrite elem_of_py_sort. apply elem_of_remove_dups.
Qed.

Lemma NoDup_sorted_set l : NoDup (sorted_set l).
Proof.
  unfold sorted_set, py_sorted_ints. rewrite py_sort_perm. apply NoDup_remove_dups.
Qed.

Lemma sorted_set_nil l : sorted_set l = [] <-> l = [].
Proof.
  split; [|by intros ->]. intros Hs. destruct l as [|x l]; [done|].
  assert (x ∈ sorted_set (x :: l)) as Hx by (apply elem_of_sorted_set; left).
  rewrite Hs in Hx. inversion Hx.
Qed.

Lemma sorted_set_increasing l : StronglySorted Z.lt (sorted_set l).
Proof.
  pose proof (NoDup_sorted_set l) as Hnd. revert Hnd. unfold sorted_set, py_sorted_ints.
  generalize (py_sort_sorted Z.ltb (remove_dups l)).
  induction 1 as [|x r Hs IH Hall]; intros Hnd; [constructor|].
  apply NoDup_cons in Hnd as [Hx Hnd]. constructor; [by apply IH|].
  rewrite Forall_forall in *. intros y Hy. specialize (Hall y Hy).
  unfold sort_le in Hall. apply Z.ltb_ge in Hall.
  assert (x <> y) by (intros ->; contradiction). lia.
Qed.

(** The order of the input does not matter. *)
Lemma py_sorted_ints_sorted l : StronglySorted Z.le (py_sorted_ints l).
Proof.
  unfold py_sorted_ints. generalize (py_sort_sorted Z.ltb l).
  induction 1 as [|x r Hs IH Hall]; constructor; [done|].
  eapply Forall_impl; [exact Hall|]. intros y Hy. unfold sort_le in Hy. by apply Z.ltb_ge.
Qed.

Lemma py_sorted_ints_perm l l' : l ≡ₚ l' -> py_sorted_ints l = py_sorted_ints l'.
Proof.
  intros Hp. apply (StronglySorted_unique Z.le); [apply py_sorted_ints_sorted..|].
  unfold py_sorted_ints. by rewrite !py_sort_perm.
Qed.

(** ** Subset and disjointness tests on integer sets given as lists *)

Definition subsetb (xs ys : list Z) : bool := forallb (fun x => mem x ys) xs.
Definition disjointb (xs ys : list Z) : bool := forallb (fun x => negb (mem x ys)) xs.

Lemma subsetb_true xs ys : subsetb xs ys = true <-> xs ⊆ ys.
Proof.
  unfold subsetb. rewrite forallb_forall_iff. by setoid_rewrite mem_true.
Qed.

Lemma disjointb_true xs ys : disjointb xs ys = true <-> xs ## ys.
Proof.
  unfold disjointb. rewrite forallb_forall_iff. setoid_rewrite negb_true_iff.
  setoid_rewrite mem_false. rewrite elem_of_disjoint. naive_solver.
Qed.

(** ** Hint databases and tactics shared by the components *)

Create HintDb plex discriminated.
#[export] Hint Resolve list_elem_of_here list_elem_of_further : plex.

(** Turn boolean tests in hypotheses and goal into propositions. *)
Ltac boolify :=
  repeat match goal with
  | H : _ && _ = true |- _ => apply andb_true_iff in H; destruct H
  | H : negb _ = true |- _ => apply negb_true_iff in H
  | H : negb _ = false |- _ => apply negb_false_iff in H
  | H : _ || _ = false |- _ => apply orb_false_iff in H; destruct H
  | H : bool_decide _ = true |- _ => apply bool_decide_eq_true in H
  | H : bool_decide _ = false |- _ => apply bool_decide_eq_false in H
  | H : mem _ _ = true |- _ => apply mem_true in H
  | H : mem _ _ = false |- _ => apply mem_false in H
  | H : (_ <? _)%Z = true |- _ => apply Z.ltb_lt in H
  | H : (_ <? _)%Z = false |- _ => apply Z.ltb_ge in H
  | H : (_ <=? _)%Z = true |- _ => apply Z.leb_le in H
  | H : (_ <=? _)%Z = false |- _ => apply Z.leb_gt in H
  | H : (_ =? _)%Z = true |- _ => apply Z.eqb_eq in H
  | H : (_ =? _)%Z = false |- _ => apply Z.eqb_neq in H
  end.

(** Decide a finite statement by computation. *)
Ltac by_compute := vm_compute; reflexivity.

(** Split every [match]/[if] scrutinee of the goal. *)
Ltac case_matches := repeat (case_match; simpl in *; simplify_eq; try done).
