(* ===== verification/PyStr.v ===== *)
(** * Python strings, integers as text and pure POSIX paths

    A Python [str] is the list of its code points.  What Python defines by the
    ASCII part of the Unicode tables is written out here; the rest of those
    tables (data that ships with the interpreter) is the class [UnicodeDB],
    consulted for code points outside ASCII only.  Every statement about ASCII
    text therefore holds for every [UnicodeDB]. *)

From Stdlib Require Import ZArith Lia Bool Ascii String Decimal.
From S2P Require Import Prelude.

#[local] Open Scope N_scope.
#[local] Open Scope bool_scope.

Abbreviation char := N (only parsing).
Abbreviation str := (list N) (only parsing).

(** A source literal. *)
Definition lit (s : string) : list N := N_of_ascii <$> list_ascii_of_string s.

#[global] Arguments lit : simpl never.

(** The code points outside ASCII: [str.lower] of a string that has some,
    [str.casefold] of one character, NFKD normalization of a string that has
    some, the combining test, and the word, decimal and printable classes. *)
Class UnicodeDB := {
  u_lower : list N -> list N;
  u_casefold : N -> list N;
  u_nfkd : list N -> list N;
  u_combining : N -> bool;
  u_word : N -> bool;
  u_decimal : N -> option Z;
  u_printable : N -> bool;
}.

(** ** Characters *)

Definition is_ascii (c : N) : bool := c <? 128.
Definition between (lo hi c : N) : bool := (lo <=? c) && (c <=? hi).
Definition is_upper (c : N) : bool := between 65 90 c.
Definition is_lower (c : N) : bool := between 97 122 c.
Definition is_digit (c : N) : bool := between 48 57 c.
Definition ascii_lower (c : N) : N := if is_upper c then c + 32 else c.

(** [str.isspace] and the regular-expression class [\s]. *)
Definition is_space (c : N) : bool :=
  between 9 13 c || between 28 32 c || (c =? 133) || (c =? 160) || (c =? 5760)
  || between 8192 8202 c || between 8232 8233 c || (c =? 8239) || (c =? 8287) || (c =? 12288).

Definition all_ascii (s : list N) : bool := forallb is_ascii s.

(** The tables with no entry outside ASCII (used by the witnesses). *)
Definition ascii_db : UnicodeDB := {|
  u_lower s := ascii_lower <$> s; u_casefold c := [c]; u_nfkd s := s; u_combining _ := false;
  u_word _ := false; u_decimal _ := None; u_printable _ := true |}.

Section unicode.
Context {DB : UnicodeDB}.

(** The regular-expression class [\w]. *)
Definition is_word (c : N) : bool :=
  if is_ascii c then is_upper c || is_lower c || is_digit c || (c =? 95) else u_word c.

(** The value of a decimal digit; [\d] is the class of characters that have one. *)
Definition digit_val (c : N) : option Z :=
  if is_digit c then Some (Z.of_N (c - 48)) else if is_ascii c then None else u_decimal c.

Definition py_lower (s : list N) : list N :=
  if all_ascii s then ascii_lower <$> s else u_lower s.

Definition casefold_char (c : N) : list N :=
  if is_ascii c then [ascii_lower c] else u_casefold c.
Definition py_casefold (s : list N) : list N := s ≫= casefold_char.

Definition nfkd (s : list N) : list N := if all_ascii s then s else u_nfkd s.
Definition combining (c : N) : bool := if is_ascii c then false else u_combining c.

(** *** [repr] *)

Definition hex_digit (n : N) : N := if n <? 10 then n + 48 else n + 87.
Fixpoint hex (width : nat) (n : N) : list N :=
  match width with
  | O => []
  | S w => hex w (n / 16) ++ [hex_digit (n mod 16)]
  end.

Definition repr_char (quote c : N) : list N :=
  if (c =? quote) || (c =? 92) then [92; c]
  else if c =? 9 then lit "\t" else if c =? 10 then lit "\n" else if c =? 13 then lit "\r"
  else if (c <? 32) || (c =? 127) then lit "\x" ++ hex 2 c
  else if is_ascii c then [c]
  else if u_printable c then [c]
  else if c <? 256 then lit "\x" ++ hex 2 c
  else if c <? 65536 then lit "\u" ++ hex 4 c
  else lit "\U" ++ hex 8 c.

Definition py_repr (s : list N) : list N :=
  let quote := if mem 39 s && negb (mem 34 s) then 34 else 39 in
  [quote] ++ (s ≫= repr_char quote) ++ [quote].
End unicode.

(** ** Integers as text *)

Fixpoint uint_codes (u : Decimal.uint) : list N :=
  match u with
  | Nil => []
  | D0 u => 48 :: uint_codes u | D1 u => 49 :: uint_codes u
  | D2 u => 50 :: uint_codes u | D3 u => 51 :: uint_codes u
  | D4 u => 52 :: uint_codes u | D5 u => 53 :: uint_codes u
  | D6 u => 54 :: uint_codes u | D7 u => 55 :: uint_codes u
  | D8 u => 56 :: uint_codes u | D9 u => 57 :: uint_codes u
  end.

Definition str_of_N (n : N) : list N := uint_codes (N.to_uint n).

Definition str_of_int (z : Z) : list N :=
  match z with
  | Zneg p => 45 :: str_of_N (Npos p)
  | _ => str_of_N (Z.to_N z)
  end.

(** [f"{z:02d}"]. *)
Definition str_02d (z : Z) : list N :=
  match str_of_int z with
  | [c] => [48; c]
  | s => s
  end.

Definition repr_opt (z : option Z) : list N :=
  match z with Some n => str_of_int n | None => lit "None" end.

(** [repr] of a list of integers. *)
Fixpoint join (sep : list N) (parts : list (list N)) : list N :=
  match parts with
  | [] => []
  | [s] => s
  | s :: rest => s ++ sep ++ join sep rest
  end.
Definition repr_int_list (l : list Z) : list N :=
  lit "[" ++ join (lit ", ") (str_of_int <$> l) ++ lit "]".

(** ** Searching, replacing, splitting, stripping *)

Fixpoint prefixb (p s : list N) : bool :=
  match p, s with
  | [], _ => true
  | a :: p', b :: s' => (a =? b) && prefixb p' s'
  | _, [] => false
  end.

Fixpoint contains (p s : list N) : bool :=
  prefixb p s || match s with [] => false | _ :: s' => contains p s' end.

(** [s.replace(old, new)] for a non-empty [old]; [skip] counts the characters
    of a replaced occurrence that are still to be dropped. *)
Fixpoint replace_from (old new : list N) (skip : nat) (s : list N) : list N :=
  match s with
  | [] => []
  | c :: s' =>
      match skip with
      | S k => replace_from old new k s'
      | O => if prefixb old s then new ++ replace_from old new (length old - 1) s'
             else c :: replace_from old new 0 s'
      end
  end.
Definition py_replace (old new s : list N) : list N := replace_from old new 0 s.

(** [s.replace(c, d)] for single characters. *)
Definition replace_char (c d : N) (s : list N) : list N :=
  (fun x => if x =? c then d else x) <$> s.

Fixpoint split_on (sep : N) (s : list N) : list (list N) :=
  match s with
  | [] => [[]]
  | c :: s' =>
      if c =? sep then [] :: split_on sep s'
      else match split_on sep s' with
           | part :: rest => (c :: part) :: rest
           | [] => [[c]]
           end
  end.

Fixpoint lstrip (p : N -> bool) (s : list N) : list N :=
  match s with
  | c :: s' => if p c then lstrip p s' else s
  | [] => []
  end.
Definition rstrip (p : N -> bool) (s : list N) : list N := reverse (lstrip p (reverse s)).
Definition strip (p : N -> bool) (s : list N) : list N := rstrip p (lstrip p s).
Definition py_strip (s : list N) : list N := strip is_space s.

(** [s.find(p)]. *)
Fixpoint find_from (p : list N) (i : nat) (s : list N) : option nat :=
  if prefixb p s then Some i
  else match s with [] => None | _ :: s' => find_from p (S i) s' end.
Definition py_find (p s : list N) : option nat := find_from p 0 s.

(** [s.rfind(c)] for one character. *)
Fixpoint rfind_from (c : N) (i : nat) (s : list N) : option nat :=
  match s with
  | [] => None
  | x :: s' =>
      match rfind_from c (S i) s' with
      | Some j => Some j
      | None => if x =? c then Some i else None
      end
  end.
Definition rfind (c : N) (s : list N) : option nat := rfind_from c 0 s.

(** ** [pathlib.PurePosixPath] *)

Definition slash : N := 47.
Definition dot : N := 46.
Definition backslash : N := 92.

Record path := Path { path_root : list N; path_tail : list (list N) }.

Definition is_component (part : list N) : bool :=
  negb (bool_decide (part = [])) && negb (bool_decide (part = [dot])).

(** [posixpath.splitroot]: one slash, or exactly two, make a root. *)
Definition is_slash (c : option N) : bool :=
  match c with Some x => x =? slash | None => false end.
Definition splitroot (s : list N) : list N * list N :=
  if negb (is_slash (s !! 0%nat)) then ([], s)
  else if negb (is_slash (s !! 1%nat)) || is_slash (s !! 2%nat) then ([slash], drop 1 s)
  else ([slash; slash], drop 2 s).

Definition posix_path (s : list N) : path :=
  let '(root, rel) := splitroot s in
  Path root (List.filter is_component (split_on slash rel)).

Definition path_parts (p : path) : list (list N) :=
  match path_root p with
  | [] => path_tail p
  | r => r :: path_tail p
  end.

Definition path_name (p : path) : list N := List.last (path_tail p) [].

(** [PurePath.suffix] as of Python 3.14, the interpreter of the Docker image
    (posixpath's [splitext]): from the last dot, unless only dots precede it. *)
Definition suffix_of_name (name : list N) : list N :=
  match rfind dot name with
  | Some i => if forallb (fun c => c =? dot) (take i name) then [] else drop i name
  | None => []
  end.
Definition path_suffix (p : path) : list N := suffix_of_name (path_name p).

(** [p / other] for a string on the right. *)
Definition path_join (p : path) (other : list N) : path :=
  let q := posix_path other in
  match path_root q with
  | [] => Path (path_root p) (path_tail p ++ path_tail q)
  | _ => q
  end.

(** [str(p)]. *)
Definition path_str (p : path) : list N :=
  match path_root p, path_tail p with
  | [], [] => [dot]
  | r, t => r ++ join [slash] t
  end.

(** ** Lemmas *)

Lemma is_ascii_lower c : is_ascii (ascii_lower c) = is_ascii c.
Proof.
  unfold ascii_lower, is_upper, between, is_ascii.
  destruct (65 <=? c) eqn:H1; simpl; [|done].
  destruct (c <=? 90) eqn:H2; simpl; [|done].
  apply N.leb_le in H1, H2.
  transitivity true; [|symmetry]; apply N.ltb_lt; lia.
Qed.

Lemma ascii_lower_idemp c : ascii_lower (ascii_lower c) = ascii_lower c.
Proof.
  unfold ascii_lower, is_upper, between.
  destruct ((65 <=? c) && (c <=? 90)) eqn:H1; [|by rewrite H1].
  apply andb_true_iff in H1 as [H1 H2]. apply N.leb_le in H1, H2.
  destruct ((65 <=? c + 32) && (c + 32 <=? 90)) eqn:H3; [|done].
  apply andb_true_iff in H3 as [H3 H4]. apply N.leb_le in H3, H4. lia.
Qed.

Lemma all_ascii_app s t : all_ascii (s ++ t) = all_ascii s && all_ascii t.
Proof. apply forallb_app. Qed.

Lemma all_ascii_cons c s : all_ascii (c :: s) = is_ascii c && all_ascii s.
Proof. done. Qed.

Section unicode_lemmas.
Context {DB : UnicodeDB}.

Lemma casefold_app s t : py_casefold (s ++ t) = py_casefold s ++ py_casefold t.
Proof. apply bind_app. Qed.

Lemma casefold_ascii s : all_ascii s = true -> py_casefold s = ascii_lower <$> s.
Proof.
  induction s as [|c s IH]; [done|]. rewrite all_ascii_cons.
  intros Hs. apply andb_true_iff in Hs as [Hc Hs].
  change (py_casefold (c :: s)) with (casefold_char c ++ py_casefold s).
  unfold casefold_char. rewrite Hc, IH by done. done.
Qed.

Lemma lower_ascii s : all_ascii s = true -> py_lower s = ascii_lower <$> s.
Proof. unfold py_lower. by intros ->. Qed.

Lemma nfkd_ascii s : all_ascii s = true -> nfkd s = s.
Proof. unfold nfkd. by intros ->. Qed.
End unicode_lemmas.

Lemma prefixb_app p s : prefixb p (p ++ s) = true.
Proof. induction p as [|c p IH]; simpl; [done|]. by rewrite N.eqb_refl. Qed.

Lemma prefixb_true p s : prefixb p s = true <-> exists t, s = p ++ t.
Proof.
  split; [|intros [t ->]; apply prefixb_app].
  revert s; induction p as [|a p IH]; intros s H; [by exists s|].
  destruct s as [|b s]; [done|]. simpl in H. apply andb_true_iff in H as [Hab H].
  apply N.eqb_eq in Hab as ->. destruct (IH _ H) as [t ->]. by exists t.
Qed.

Lemma contains_true p s : contains p s = true <-> exists a b, s = a ++ p ++ b.
Proof.
  split.
  - induction s as [|c s IH]; simpl; intros H.
    + rewrite orb_false_r in H. apply prefixb_true in H as [t H]. exists [], t. done.
    + apply orb_true_iff in H as [H|H].
      * apply prefixb_true in H as [t H]. exists [], t. done.
      * destruct (IH H) as (a & b & ->). by exists (c :: a), b.
  - intros (a & b & ->). induction a as [|c a IH]; simpl.
    + pose proof (prefixb_app p b) as Hp. destruct (p ++ b); simpl; by rewrite Hp.
    + by rewrite IH, orb_true_r.
Qed.

Lemma find_from_spec p i s :
  match find_from p i s with
  | Some k => exists j, k = i + j /\ take (length p) (drop j s) = p
  | None => contains p s = false
  end%nat.
Proof.
  revert i; induction s as [|c s IH]; intros i; cbn [find_from contains].
  - destruct (prefixb p []) eqn:Hp; [|done]. exists 0%nat. split; [lia|].
    apply prefixb_true in Hp as [t Ht]. symmetry in Ht. apply app_nil in Ht as [-> ->]. done.
  - destruct (prefixb p (c :: s)) eqn:Hp.
    + exists 0%nat. split; [lia|]. apply prefixb_true in Hp as [t ->].
      rewrite drop_0. apply take_app_length.
    + specialize (IH (S i)). destruct (find_from p (S i) s); [|done].
      destruct IH as (j & -> & H). exists (S j). split; [lia|done].
Qed.

Lemma contains_extend p a s b : contains p s = true -> contains p (a ++ s ++ b) = true.
Proof.
  rewrite !contains_true. intros (x & y & ->). exists (a ++ x), (y ++ b).
  by rewrite <- !app_assoc.
Qed.

Lemma replace_char_id c d s : (forall x, x ∈ s -> x <> c) -> replace_char c d s = s.
Proof.
  intros H. unfold replace_char. induction s as [|x s IH]; [done|]. simpl.
  destruct (N.eqb_spec x c) as [->|]; [by destruct (H c); [left|]|].
  f_equal. apply IH. intros y Hy. apply H. by right.
Qed.

Lemma replace_char_not_in c d s : d <> c -> c ∉ replace_char c d s.
Proof.
  intros Hd Hin. apply list_elem_of_fmap in Hin as (x & Hx & _).
  destruct (N.eqb_spec x c); congruence.
Qed.

Lemma replace_char_idemp c d s : d <> c ->
  replace_char c d (replace_char c d s) = replace_char c d s.
Proof.
  intros Hd. apply replace_char_id. intros x Hx ->. by eapply replace_char_not_in.
Qed.

(** Replacing one character by a string that does not have it removes it. *)
Lemma replace_from_incl old new x k s :
  x ∈ replace_from old new k s -> x ∈ new \/ x ∈ s.
Proof.
  revert k; induction s as [|c s IH]; intros k; simpl; [by right|].
  destruct k as [|k].
  - destruct (prefixb old (c :: s)).
    + rewrite elem_of_app. intros [H|H]; [by left|].
      destruct (IH _ H); [by left | right; by right].
    + rewrite elem_of_cons. intros [->|H]; [right; left|].
      destruct (IH _ H); [by left | right; by right].
  - intros H. destruct (IH _ H); [by left | right; by right].
Qed.

Lemma py_replace_incl old new x s : x ∈ py_replace old new s -> x ∈ new \/ x ∈ s.
Proof. apply replace_from_incl. Qed.

Lemma py_replace_gone c new s : c ∉ new -> c ∉ py_replace [c] new s.
Proof.
  unfold py_replace. induction s as [|x s IH]; intros Hnew; [apply not_elem_of_nil|].
  simpl. rewrite andb_true_r. destruct (N.eqb_spec c x) as [->|Hne].
  - rewrite not_elem_of_app. split; [done|]. by apply IH.
  - rewrite not_elem_of_cons. split; [congruence|]. by apply IH.
Qed.

Lemma lstrip_suffix p s : exists a, s = a ++ lstrip p s.
Proof.
  induction s as [|c s [a IH]]; [by exists []|]. simpl.
  destruct (p c); [|by exists []]. exists (c :: a). simpl. by rewrite <- IH.
Qed.

Lemma rstrip_prefix p s : exists b, s = rstrip p s ++ b.
Proof.
  unfold rstrip. destruct (lstrip_suffix p (reverse s)) as [a Ha].
  exists (reverse a). rewrite <- reverse_app, <- Ha. by rewrite reverse_involutive.
Qed.

Lemma strip_infix p s : exists a b, s = a ++ strip p s ++ b.
Proof.
  destruct (lstrip_suffix p s) as [a Ha]. destruct (rstrip_prefix p (lstrip p s)) as [b Hb].
  exists a, b. unfold strip. by rewrite <- Hb.
Qed.

Lemma strip_incl p s x : x ∈ strip p s -> x ∈ s.
Proof.
  destruct (strip_infix p s) as (a & b & Hs). intros Hx. rewrite Hs.
  rewrite !elem_of_app. auto.
Qed.

Lemma lstrip_head p s c t : lstrip p s = c :: t -> p c = false.
Proof.
  induction s as [|x s IH]; simpl; [done|]. destruct (p x) eqn:Hx; [done|].
  by intros [= <- <-].
Qed.

(** Neither end of a stripped string is a stripped character. *)
Lemma strip_last p s c t : strip p s = t ++ [c] -> p c = false.
Proof.
  unfold strip, rstrip. intros H. apply (f_equal reverse) in H.
  rewrite reverse_involutive, reverse_app in H. simpl in H.
  by eapply lstrip_head.
Qed.

Lemma strip_head p s c t : strip p s = c :: t -> p c = false.
Proof.
  unfold strip. intros H. destruct (rstrip_prefix p (lstrip p s)) as [b Hb].
  rewrite H in Hb. simpl in Hb. by eapply lstrip_head.
Qed.

Lemma rstrip_snoc p s c : p c = false -> rstrip p (s ++ [c]) = s ++ [c].
Proof.
  intros Hc. unfold rstrip. rewrite reverse_app. simpl. rewrite Hc.
  change (c :: reverse s) with (reverse [c] ++ reverse s).
  rewrite <- reverse_app. apply reverse_involutive.
Qed.

(** Stripping a text whose core neither starts nor ends with a stripped
    character. *)
Lemma lstrip_all p a s : (forall x, x ∈ a -> p x = true) -> lstrip p (a ++ s) = lstrip p s.
Proof.
  induction a as [|x a IH]; intros H; [done|]. simpl. rewrite (H x) by left.
  apply IH. intros y Hy. apply H. by right.
Qed.

Lemma lstrip_stop p s : match s with [] => True | c :: _ => p c = false end -> lstrip p s = s.
Proof. destruct s; simpl; [done|]. by intros ->. Qed.

Lemma strip_core p a s b :
  (forall x, x ∈ a -> p x = true) -> (forall x, x ∈ b -> p x = true) ->
  match s with [] => True | c :: _ => p c = false end ->
  match last s with None => True | Some c => p c = false end ->
  strip p (a ++ s ++ b) = s.
Proof.
  intros Ha Hb Hhead Hlast. unfold strip, rstrip. rewrite lstrip_all by done.
  destruct s as [|c s].
  - pose proof (lstrip_all p b [] Hb) as Hn. rewrite app_nil_r in Hn. simpl. by rewrite Hn.
  - rewrite (lstrip_stop p ((c :: s) ++ b)) by done. rewrite reverse_app, lstrip_all.
    + rewrite lstrip_stop; [apply reverse_involutive|].
      rewrite <- head_reverse in Hlast. revert Hlast. by destruct (reverse (c :: s)).
    + intros x Hx. apply Hb. by rewrite elem_of_reverse in Hx.
Qed.

Lemma split_on_no_sep sep s part : part ∈ split_on sep s -> sep ∉ part.
Proof.
  revert part; induction s as [|c s IH]; intros part; simpl.
  - rewrite list_elem_of_singleton. intros ->. apply not_elem_of_nil.
  - destruct (N.eqb_spec c sep) as [->|Hne].
    + rewrite elem_of_cons. intros [->|H]; [apply not_elem_of_nil | auto].
    + destruct (split_on sep s) as [|p rest] eqn:Hs.
      * rewrite list_elem_of_singleton. intros ->. rewrite list_elem_of_singleton. congruence.
      * rewrite elem_of_cons. intros [->|H].
        -- rewrite not_elem_of_cons. split; [congruence|]. apply IH. left.
        -- apply IH. by right.
Qed.

Lemma split_on_nonempty sep s : split_on sep s <> [].
Proof.
  destruct s as [|c s]; simpl; [done|]. destruct (c =? sep); [done|].
  by destruct (split_on sep s).
Qed.

(** Splitting and joining at the same separator is the identity. *)
Lemma join_split_on sep s : join [sep] (split_on sep s) = s.
Proof.
  induction s as [|c s IH]; [done|]. simpl.
  pose proof (split_on_nonempty sep s) as Hne.
  destruct (N.eqb_spec c sep) as [->|Hc].
  - simpl. destruct (split_on sep s) as [|p rest]; [done|]. by rewrite IH.
  - destruct (split_on sep s) as [|p rest]; [done|].
    destruct rest; simpl in *; by rewrite IH.
Qed.

(** ** The order of strings, by code point *)

Fixpoint str_ltb (s t : list N) : bool :=
  match s, t with
  | _, [] => false
  | [], _ :: _ => true
  | a :: s', b :: t' => (a <? b) || ((a =? b) && str_ltb s' t')
  end.

Lemma str_ltb_trichotomy s t :
  str_ltb s t = true /\ str_ltb t s = false \/ s = t /\ str_ltb s t = false \/
  str_ltb t s = true /\ str_ltb s t = false.
Proof.
  revert t; induction s as [|a s IH]; intros [|b t]; simpl; auto.
  destruct (N.compare_spec a b) as [->|Hlt|Hgt].
  - rewrite N.ltb_irrefl, N.eqb_refl. simpl.
    destruct (IH t) as [?|[[-> ?]|?]]; auto.
  - left. destruct (N.ltb_spec a b), (N.ltb_spec b a), (N.eqb_spec b a); (lia || done).
  - right. right. destruct (N.ltb_spec b a), (N.ltb_spec a b), (N.eqb_spec a b); (lia || done).
Qed.

Lemma str_ltb_trans s t u : str_ltb s t = true -> str_ltb t u = true -> str_ltb s u = true.
Proof.
  revert t u; induction s as [|a s IH]; intros [|b t] [|c u]; simpl; try done.
  rewrite !orb_true_iff, !andb_true_iff, !N.ltb_lt, !N.eqb_eq.
  intros [H1|[-> H1]] [H2|[-> H2]]; [left; lia|left; lia|left; lia|right; split; [done|by eapply IH]].
Qed.

#[export] Instance str_ltb_weak : WeakOrder str_ltb.
Proof.
  split.
  - intros x y Hxy. destruct (str_ltb_trichotomy x y) as [[? ?]|[[? ?]|[? ?]]]; congruence.
  - intros x y z Hxy Hyz.
    destruct (str_ltb_trichotomy x y) as [[? ?]|[[-> ?]|[Hyx ?]]]; [congruence|done|].
    destruct (str_ltb_trichotomy y z) as [[? ?]|[[-> ?]|[Hzy ?]]]; [congruence|done|].
    pose proof (str_ltb_trans _ _ _ Hzy Hyx) as Hzx.
    destruct (str_ltb_trichotomy x z) as [[? ?]|[[-> ?]|[? ?]]]; congruence.
Qed.

(** [sorted] of a set of strings: the order it was built in does not matter. *)
Definition sorted_strs (l : list (list N)) : list (list N) := py_sort str_ltb (remove_dups l).

Lemma sorted_strs_ext l l' : (forall x, x ∈ l <-> x ∈ l') -> sorted_strs l = sorted_strs l'.
Proof.
  intros Hiff. unfold sorted_strs.
  apply (StronglySorted_unique_strong (sort_le str_ltb)); [|apply py_sort_sorted, _..|].
  - intros x y _ _ Hxy Hyx. unfold sort_le in *.
    destruct (str_ltb_trichotomy x y) as [[? ?]|[[? ?]|[? ?]]]; congruence.
  - rewrite !py_sort_perm. apply NoDup_Permutation; [apply NoDup_remove_dups..|].
    intros x. by rewrite !elem_of_remove_dups.
Qed.
