(* ===== verification/PyRe.v ===== *)
(** * The fragment of Python's [re] the program uses

    Backtracking matching with Python's priorities: [run r st] lists every way
    [r] can match at [st], in the order the engine would try them, so its head
    is the match the engine reports.  [search], [finditer] and [sub] follow
    [re.Pattern.search], [finditer] and [sub]; [Matches] is the declarative
    semantics, and [run_spec] says the engine explores exactly it.

    Every pattern of the program that is given to [finditer] or [sub] consumes
    at least one character ([min_len]), so the empty-match rules of [re] are
    never reached; [scan] stops at an empty match. *)

From Stdlib Require Import ZArith Lia Bool Ascii String.
From S2P Require Import Prelude PyStr.

#[local] Open Scope bool_scope.

Inductive re : Type :=
  | Eps
  | Chr (p : N -> bool)
  | Cat (r1 r2 : re)
  | Alt (r1 r2 : re)
  | Rep (p : N -> bool) (lo : nat) (hi : option nat)  (** [[class]{lo,hi}], greedy *)
  | Bol                                               (** [^] *)
  | Eol                                               (** [$] *)
  | WordB                                             (** [\b] *)
  | Look (r : re)                                     (** [(?=...)] *)
  | Grp (r : re)                                      (** the capturing group *)
  | BackPlus.                                         (** [\1+] *)

(** The scanner's position: the character before it, the text after it, and
    the text captured so far. *)
Record mstate := MState { m_prev : option N; m_rest : list N; m_grp : option (list N) }.

Definition advance (k : nat) (st : mstate) : mstate :=
  match k with
  | O => st
  | S j => MState (m_rest st !! j) (drop k (m_rest st)) (m_grp st)
  end.

#[global] Arguments advance : simpl never.

Fixpoint count_while (p : N -> bool) (s : list N) : nat :=
  match s with
  | c :: s' => if p c then S (count_while p s') else 0
  | [] => 0
  end.

(** How many consecutive copies of [g] start [s] (looking at [fuel] at most). *)
Fixpoint count_copies (fuel : nat) (g s : list N) : nat :=
  match fuel with
  | O => 0
  | S f => if prefixb g s then S (count_copies f g (drop (length g) s)) else 0
  end.

(** [hi, hi - 1, ..., lo]. *)
Definition down_to (lo hi : nat) : list nat := reverse (seq lo (S hi - lo)).

Section re.
Context {DB : UnicodeDB}.

Definition word_opt (c : option N) : bool :=
  match c with Some x => is_word x | None => false end.

Definition at_eol (s : list N) : bool :=
  match s with [] => true | [10%N] => true | _ => false end.

Fixpoint run (r : re) (st : mstate) : list mstate :=
  match r with
  | Eps => [st]
  | Chr p =>
      match m_rest st with
      | c :: _ => if p c then [advance 1 st] else []
      | [] => []
      end
  | Cat r1 r2 => run r1 st ≫= run r2
  | Alt r1 r2 => run r1 st ++ run r2 st
  | Rep p lo hi =>
      let n := count_while p (m_rest st) in
      let n := match hi with Some h => Nat.min n h | None => n end in
      (fun k => advance k st) <$> down_to lo n
  | Bol => match m_prev st with None => [st] | Some _ => [] end
  | Eol => if at_eol (m_rest st) then [st] else []
  | WordB => if xorb (word_opt (m_prev st)) (word_opt (head (m_rest st))) then [st] else []
  | Look r => match run r st with [] => [] | _ => [st] end
  | Grp r =>
      (fun st' => MState (m_prev st') (m_rest st')
         (Some (take (length (m_rest st) - length (m_rest st')) (m_rest st)))) <$> run r st
  | BackPlus =>
      match m_grp st with
      | Some (c :: g) =>
          let n := count_copies (length (m_rest st)) (c :: g) (m_rest st) in
          (fun k => advance (k * length (c :: g)) st) <$> down_to 1 n
      | _ => []
      end
  end.

(** The characters every match of [r] consumes. *)
Fixpoint min_len (r : re) : nat :=
  match r with
  | Chr _ => 1
  | Cat r1 r2 => min_len r1 + min_len r2
  | Alt r1 r2 => Nat.min (min_len r1) (min_len r2)
  | Rep _ lo _ => lo
  | Grp r => min_len r
  | BackPlus => 1
  | _ => 0
  end.

(** First match at or after the current position: the text skipped, and the
    state after the match. *)
Fixpoint search_from (r : re) (prev : option N) (s : list N) : option (list N * mstate) :=
  match run r (MState prev s None) with
  | st :: _ => Some ([], st)
  | [] =>
      match s with
      | [] => None
      | c :: s' =>
          match search_from r (Some c) s' with
          | Some (gap, st) => Some (c :: gap, st)
          | None => None
          end
      end
  end.

Definition search (r : re) (s : list N) : bool :=
  match search_from r None s with Some _ => true | None => false end.

(** One found match: the text before it, its own text, its group. *)
Record found := Found { f_gap : list N; f_text : list N; f_group : option (list N) }.

Fixpoint scan (fuel : nat) (r : re) (prev : option N) (s : list N) : list found * list N :=
  match fuel with
  | O => ([], s)
  | S f =>
      match search_from r prev s with
      | None => ([], s)
      | Some (gap, st) =>
          let from := drop (length gap) s in
          let text := take (length from - length (m_rest st)) from in
          match text with
          | [] => ([], s)
          | _ =>
              let '(ms, tl) := scan f r (m_prev st) (m_rest st) in
              (Found gap text (m_grp st) :: ms, tl)
          end
      end
  end.

Definition finditer (r : re) (s : list N) : list found := fst (scan (S (length s)) r None s).

Definition sub (r : re) (by_ : found -> list N) (s : list N) : list N :=
  let '(ms, tl) := scan (S (length s)) r None s in
  (ms ≫= (fun m => f_gap m ++ by_ m)) ++ tl.

(** ** Declarative semantics *)

Inductive Matches : re -> mstate -> mstate -> Prop :=
  | M_Eps st : Matches Eps st st
  | M_Chr p c st s : m_rest st = c :: s -> p c = true -> Matches (Chr p) st (advance 1 st)
  | M_Cat r1 r2 st st1 st2 :
      Matches r1 st st1 -> Matches r2 st1 st2 -> Matches (Cat r1 r2) st st2
  | M_AltL r1 r2 st st' : Matches r1 st st' -> Matches (Alt r1 r2) st st'
  | M_AltR r1 r2 st st' : Matches r2 st st' -> Matches (Alt r1 r2) st st'
  | M_Rep p lo hi st k :
      lo <= k -> k <= count_while p (m_rest st) ->
      (match hi with Some h => k <= h | None => True end) ->
      Matches (Rep p lo hi) st (advance k st)
  | M_Bol st : m_prev st = None -> Matches Bol st st
  | M_Eol st : at_eol (m_rest st) = true -> Matches Eol st st
  | M_WordB st :
      xorb (word_opt (m_prev st)) (word_opt (head (m_rest st))) = true -> Matches WordB st st
  | M_Look r st st' : Matches r st st' -> Matches (Look r) st st
  | M_Grp r st st' :
      Matches r st st' ->
      Matches (Grp r) st (MState (m_prev st') (m_rest st')
        (Some (take (length (m_rest st) - length (m_rest st')) (m_rest st))))
  | M_Back c g st k :
      m_grp st = Some (c :: g) -> 1 <= k ->
      k <= count_copies (length (m_rest st)) (c :: g) (m_rest st) ->
      Matches BackPlus st (advance (k * length (c :: g)) st).

Lemma elem_of_down_to k lo hi : k ∈ down_to lo hi <-> lo <= k <= hi.
Proof.
  unfold down_to. rewrite elem_of_reverse, list_elem_of_In, in_seq. lia.
Qed.

Lemma run_spec r st st' : st' ∈ run r st <-> Matches r st st'.
Proof.
  revert st st'; induction r as [|p|r1 IH1 r2 IH2|r1 IH1 r2 IH2|p lo hi| | | |r IH|r IH|];
    intros st st'; simpl.
  - rewrite list_elem_of_singleton. split; [intros ->; constructor | by inversion 1].
  - destruct (m_rest st) as [|c s] eqn:Hr.
    + split; [inversion 1 | inversion 1; congruence].
    + destruct (p c) eqn:Hp.
      * rewrite list_elem_of_singleton. split; [intros ->; by eapply M_Chr | by inversion 1].
      * split; [inversion 1 | inversion 1; congruence].
  - rewrite list_elem_of_bind. split.
    + intros (m & H2 & H1). apply IH1 in H1. apply IH2 in H2. by eapply M_Cat.
    + inversion 1; subst. eexists. by rewrite IH1, IH2.
  - rewrite elem_of_app, IH1, IH2. split.
    + intros []; [by apply M_AltL | by apply M_AltR].
    + inversion 1; auto.
  - rewrite list_elem_of_fmap. setoid_rewrite elem_of_down_to. split.
    + intros (k & -> & Hk). constructor; destruct hi; lia.
    + inversion 1; subst. eexists. split; [done|]. destruct hi; lia.
  - destruct (m_prev st) eqn:Hp.
    + split; [inversion 1 | inversion 1; congruence].
    + rewrite list_elem_of_singleton. split; [intros ->; by constructor | by inversion 1].
  - destruct (at_eol (m_rest st)) eqn:Hp.
    + rewrite list_elem_of_singleton. split; [intros ->; by constructor | by inversion 1].
    + split; [inversion 1 | inversion 1; congruence].
  - destruct (xorb _ _) eqn:Hp.
    + rewrite list_elem_of_singleton. split; [intros ->; by constructor | by inversion 1].
    + split; [inversion 1 | inversion 1; congruence].
  - destruct (run r st) as [|st1 l] eqn:Hrun.
    + split; [inversion 1|]. inversion 1 as [| | | | | | | | |? ? ? Hm| |]; subst.
      apply IH in Hm. rewrite Hrun in Hm. inversion Hm.
    + rewrite list_elem_of_singleton. split; [|by inversion 1].
      intros ->. eapply M_Look. apply IH. rewrite Hrun. left.
  - rewrite list_elem_of_fmap. split.
    + intros (m & -> & Hm). constructor. by apply IH.
    + inversion 1; subst. eexists. by rewrite IH.
  - destruct (m_grp st) as [[|c g]|] eqn:Hg.
    + split; [inversion 1 | inversion 1; congruence].
    + rewrite list_elem_of_fmap. setoid_rewrite elem_of_down_to. split.
      * intros (k & -> & Hk). apply (M_Back c g); [done|lia|lia].
      * inversion 1 as [| | | | | | | | | | |c' g' ? k Hg' Hk1 Hk2]; subst.
        rewrite Hg in Hg'. injection Hg' as <- <-. exists k. by split; [|split].
    + split; [inversion 1 | inversion 1; congruence].
Qed.

Lemma run_nonempty r st st' : Matches r st st' -> run r st <> [].
Proof. rewrite <- run_spec. intros H Hn. rewrite Hn in H. inversion H. Qed.

(** ** Searching *)

Lemma last_cons_snoc {A} (l : list A) c : last (l ++ [c]) = Some c.
Proof. by rewrite last_snoc. Qed.

Definition prev_of (prev : option N) (before : list N) : option N :=
  match last before with Some c => Some c | None => prev end.

Lemma prev_of_cons prev c before : prev_of prev (c :: before) = prev_of (Some c) before.
Proof. unfold prev_of. rewrite last_cons. by destruct (last before). Qed.

(** The search finds a match whenever one exists at some position ... *)
Lemma search_from_complete r prev before s st :
  Matches r (MState (prev_of prev before) s None) st ->
  search_from r prev (before ++ s) <> None.
Proof.
  revert prev; induction before as [|c before IH]; intros prev Hm.
  - cbn in *. apply run_nonempty in Hm.
    destruct s; cbn; by destruct (run _ _).
  - rewrite prev_of_cons in Hm. cbn.
    destruct (run r (MState prev (c :: before ++ s) None)); [|done].
    specialize (IH (Some c) Hm). by destruct (search_from _ _ _) as [[]|].
Qed.

(** ... and only then. *)
Lemma search_from_sound r prev s gap st :
  search_from r prev s = Some (gap, st) ->
  exists s', s = gap ++ s' /\ Matches r (MState (prev_of prev gap) s' None) st.
Proof.
  revert prev gap; induction s as [|c s IH]; intros prev gap; cbn.
  - destruct (run r _) as [|st1 l] eqn:Hr; [done|]. intros [= <- <-].
    exists []. split; [done|]. apply run_spec. cbn. rewrite Hr. left.
  - destruct (run r _) as [|st1 l] eqn:Hr.
    + destruct (search_from r (Some c) s) as [[gap1 st1]|] eqn:Hs; [|done].
      intros [= <- <-]. destruct (IH _ _ Hs) as (s' & -> & Hm).
      exists s'. split; [done|]. by rewrite prev_of_cons.
    + intros [= <- <-]. exists (c :: s). split; [done|].
      apply run_spec. cbn. rewrite Hr. left.
Qed.

Lemma search_true r s :
  search r s = true <->
  exists before after st, s = before ++ after /\ Matches r (MState (last before) after None) st.
Proof.
  unfold search. split.
  - destruct (search_from r None s) as [[gap st]|] eqn:Hs; [|done]. intros _.
    destruct (search_from_sound _ _ _ _ _ Hs) as (s' & -> & Hm).
    exists gap, s', st. split; [done|]. unfold prev_of in Hm. by destruct (last gap).
  - intros (before & after & st & -> & Hm).
    assert (Hm' : Matches r (MState (prev_of None before) after None) st).
    { unfold prev_of. by destruct (last before). }
    apply search_from_complete in Hm'. by destruct (search_from _ _ _).
Qed.

(** ** Matching only moves forward *)

Lemma count_while_le p s : count_while p s <= length s.
Proof. induction s as [|c s IH]; cbn; [lia|]. destruct (p c); lia. Qed.

Lemma prefixb_length p s : prefixb p s = true -> length p <= length s.
Proof. rewrite prefixb_true. intros [t ->]. rewrite length_app. lia. Qed.

Lemma count_copies_le fuel g s : count_copies fuel g s * length g <= length s.
Proof.
  revert s; induction fuel as [|f IH]; intros s; cbn; [lia|].
  destruct (prefixb g s) eqn:Hp; cbn; [|lia].
  apply prefixb_length in Hp. specialize (IH (drop (length g) s)).
  rewrite length_drop in IH. lia.
Qed.

Lemma advance_rest k st : m_rest (advance k st) = drop k (m_rest st).
Proof. by destruct k. Qed.

Lemma Matches_suffix r st st' :
  Matches r st st' ->
  exists k, m_rest st' = drop k (m_rest st) /\ k <= length (m_rest st) /\ min_len r <= k.
Proof.
  induction 1 as [st|p c st s Hr Hp|r1 r2 st st1 st2 H1 (k1 & E1 & L1 & M1) H2 (k2 & E2 & L2 & M2)
    |r1 r2 st st' H (k & E & L & M)|r1 r2 st st' H (k & E & L & M)|p lo hi st k Hlo Hc Hhi
    |st H|st H|st H|r st st' H (k & E & L & M)|r st st' H (k & E & L & M)|c g st k Hg H1 H2];
    cbn [min_len].
  - exists 0. split; [done|lia].
  - exists 1. rewrite advance_rest, Hr. split; [done|]. cbn. lia.
  - exists (k1 + k2). rewrite E2, E1, drop_drop. rewrite E1, length_drop in L2.
    split; [done|]. lia.
  - exists k. split; [done|]. lia.
  - exists k. split; [done|]. lia.
  - exists k. rewrite advance_rest. pose proof (count_while_le p (m_rest st)).
    split; [done|]. lia.
  - exists 0. split; [done|lia].
  - exists 0. split; [done|lia].
  - exists 0. split; [done|lia].
  - exists 0. split; [done|lia].
  - exists k. split; [done|lia].
  - exists (k * length (c :: g)). rewrite advance_rest. split; [done|].
    pose proof (count_copies_le (length (m_rest st)) (c :: g) (m_rest st)).
    cbn [length] in *. nia.
Qed.

(** A found match, its gap and what follows are the scanned text. *)
Lemma search_from_split r prev s gap st :
  search_from r prev s = Some (gap, st) ->
  let from := drop (length gap) s in
  let text := take (length from - length (m_rest st)) from in
  s = gap ++ text ++ m_rest st /\ min_len r <= length text.
Proof.
  intros Hs from text. destruct (search_from_sound _ _ _ _ _ Hs) as (s' & -> & Hm).
  destruct (Matches_suffix _ _ _ Hm) as (k & E & L & M). cbn in E, L.
  assert (from = s') as Hfrom by (unfold from; by rewrite drop_app_length).
  assert (text = take k s') as Htext.
  { unfold text. rewrite Hfrom, E, length_drop. f_equal. lia. }
  rewrite Htext, E, take_drop. split; [done|]. rewrite length_take. lia.
Qed.

Definition rebuild (ms : list found) (tl : list N) : list N :=
  (ms ≫= (fun m => f_gap m ++ f_text m)) ++ tl.

Lemma scan_rebuild fuel r prev s ms tl : scan fuel r prev s = (ms, tl) -> rebuild ms tl = s.
Proof.
  revert prev s ms tl; induction fuel as [|f IH]; intros prev s ms tl; cbn.
  - by intros [= <- <-].
  - destruct (search_from r prev s) as [[gap st]|] eqn:Hs; [|by intros [= <- <-]].
    destruct (search_from_split _ _ _ _ _ Hs) as [Hsplit _].
    destruct (take _ _) as [|c text] eqn:Ht; [by intros [= <- <-]|].
    destruct (scan f r (m_prev st) (m_rest st)) as [ms1 tl1] eqn:Hrec.
    intros [= <- <-]. unfold rebuild. cbn [mbind list_bind f_gap f_text].
    rewrite <- !app_assoc. apply IH in Hrec. unfold rebuild in Hrec.
    rewrite Hrec. by rewrite <- Hsplit.
Qed.

(** With a pattern that consumes characters the fuel is enough: nothing the
    search would still find is left in the tail. *)
Lemma scan_exhausts fuel r prev s ms tl :
  0 < min_len r -> length s < fuel -> scan fuel r prev s = (ms, tl) ->
  exists prev', search_from r prev' tl = None.
Proof.
  intros Hmin. revert prev s ms tl; induction fuel as [|f IH]; intros prev s ms tl Hlen; cbn; [lia|].
  destruct (search_from r prev s) as [[gap st]|] eqn:Hs; [|intros [= <- <-]; eauto].
  destruct (search_from_split _ _ _ _ _ Hs) as [Hsplit Htl].
  destruct (take _ _) as [|c text] eqn:Ht; [cbn in Htl; lia|].
  destruct (scan f r (m_prev st) (m_rest st)) as [ms1 tl1] eqn:Hrec.
  intros [= <- <-]. eapply IH; [|done].
  rewrite Hsplit in Hlen. rewrite !length_app in Hlen. cbn in Hlen. lia.
Qed.

(** A substitution whose replacement only uses the matched characters adds
    no character. *)
Lemma sub_incl r by_ s (P : N -> Prop) :
  (forall m x, x ∈ by_ m -> x ∈ f_text m \/ P x) ->
  forall x, x ∈ sub r by_ s -> x ∈ s \/ P x.
Proof.
  intros Hby x. unfold sub.
  destruct (scan (S (length s)) r None s) as [ms tl] eqn:Hs.
  apply scan_rebuild in Hs. subst s. unfold rebuild.
  rewrite !elem_of_app, !list_elem_of_bind.
  intros [(m & Hx & Hm)|Hx]; [|by left; right].
  apply elem_of_app in Hx as [Hx|Hx].
  - left. left. exists m. rewrite elem_of_app. auto.
  - destruct (Hby _ _ Hx); [|by right]. left. left. exists m. rewrite elem_of_app. auto.
Qed.
(** Every match found by the scan is a match of the pattern somewhere. *)
Lemma scan_found fuel r prev s ms tl :
  scan fuel r prev s = (ms, tl) ->
  Forall (fun m => exists p s' st, Matches r (MState p s' None) st /\ f_group m = m_grp st /\
    f_text m = take (length s' - length (m_rest st)) s') ms.
Proof.
  revert prev s ms tl; induction fuel as [|f IH]; intros prev s ms tl; cbn.
  - intros [= <- <-]. constructor.
  - destruct (search_from r prev s) as [[gap st]|] eqn:Hs; [|intros [= <- <-]; constructor].
    destruct (take _ _) as [|c text] eqn:Ht; [intros [= <- <-]; constructor|].
    destruct (scan f r (m_prev st) (m_rest st)) as [ms1 tl1] eqn:Hrec.
    intros [= <- <-]. constructor; [|by eapply IH].
    destruct (search_from_sound _ _ _ _ _ Hs) as (s' & -> & Hm).
    exists (prev_of prev gap), s', st. split; [done|]. split; [done|]. cbn.
    by rewrite <- Ht, drop_app_length.
Qed.

Lemma sub_incl_found r by_ s (P : N -> Prop) :
  (forall m p s' st, Matches r (MState p s' None) st -> f_group m = m_grp st ->
     f_text m = take (length s' - length (m_rest st)) s' ->
     forall x, x ∈ by_ m -> x ∈ f_text m \/ P x) ->
  forall x, x ∈ sub r by_ s -> x ∈ s \/ P x.
Proof.
  intros Hby x. unfold sub.
  destruct (scan (S (length s)) r None s) as [ms tl] eqn:Hs.
  pose proof (scan_found _ _ _ _ _ _ Hs) as Hf. rewrite Forall_forall in Hf.
  apply scan_rebuild in Hs. subst s. unfold rebuild.
  rewrite !elem_of_app, !list_elem_of_bind.
  intros [(m & Hx & Hm)|Hx]; [|by left; right].
  apply elem_of_app in Hx as [Hx|Hx].
  - left. left. exists m. rewrite elem_of_app. auto.
  - destruct (Hf m Hm) as (p & s' & st & HM & Hg & Ht).
    destruct (Hby m p s' st HM Hg Ht x Hx); [|by right].
    left. left. exists m. rewrite elem_of_app. auto.
Qed.

(** *** A class repeated: [[class]+] *)

(** Replacing every maximal run of a class by [r]; [in_run] tells that the
    previous character was in the class. *)
Fixpoint collapse (p : N -> bool) (r : list N) (in_run : bool) (s : list N) : list N :=
  match s with
  | [] => []
  | c :: s' =>
      if p c then (if in_run then [] else r) ++ collapse p r true s'
      else c :: collapse p r false s'
  end.

Lemma run_class p st :
  run (Rep p 1 None) st =
  match count_while p (m_rest st) with
  | O => []
  | S n => advance (S n) st :: ((fun k => advance k st) <$> reverse (seq 1 n))
  end.
Proof.
  cbn [run]. destruct (count_while p (m_rest st)) as [|n]; [done|].
  unfold down_to. replace (S (S n) - 1) with (S n) by lia.
  rewrite seq_S, reverse_snoc. done.
Qed.

(** The search stops at the first character of the class and takes the run. *)
Lemma search_class p prev s :
  match search_from (Rep p 1 None) prev s with
  | None => forall c, c ∈ s -> p c = false
  | Some (gap, st) =>
      exists c text, s = gap ++ c :: text ++ m_rest st /\ (forall x, x ∈ gap -> p x = false) /\
        (forall x, x ∈ c :: text -> p x = true) /\
        match m_rest st with [] => True | x :: _ => p x = false end
  end.
Proof.
  revert prev; induction s as [|c s IH]; intros prev; [cbn; by intros c ?%not_elem_of_nil|].
  cbn [search_from]. rewrite run_class. cbn [m_rest count_while].
  destruct (p c) eqn:Hc.
  - exists c, (take (count_while p s) s). rewrite advance_rest. cbn [m_rest drop app].
    rewrite take_drop. split; [done|]. split; [by intros x ?%not_elem_of_nil|].
    assert (Htake : forall x, x ∈ take (count_while p s) s -> p x = true).
    { clear. induction s as [|y s IH]; [by intros x ?%not_elem_of_nil|]. cbn.
      destruct (p y) eqn:Hy; [|by intros x ?%not_elem_of_nil].
      intros x [->|Hx]%elem_of_cons; [done|by apply IH]. }
    split; [by intros x [->|Hx]%elem_of_cons; [|apply Htake]|].
    clear. induction s as [|y s IH]; [done|]. cbn. destruct (p y) eqn:Hy; [done|]. by cbn.
  - specialize (IH (Some c)).
    destruct (search_from (Rep p 1 None) (Some c) s) as [[gap st]|].
    + destruct IH as (d & text & Hs & Hgap & Htext & Hrest).
      exists d, text. split; [by rewrite Hs|]. split; [|done].
      intros x [->|Hx]%elem_of_cons; [done|by apply Hgap].
    + intros x [->|Hx]%elem_of_cons; [done|by apply IH].
Qed.

Lemma collapse_outside p r b s : (forall c, c ∈ s -> p c = false) -> collapse p r b s = s.
Proof.
  revert b; induction s as [|c s IH]; intros b H; [done|]. cbn.
  rewrite (H c) by left. f_equal. apply IH. intros x Hx. apply H. by right.
Qed.

Lemma collapse_gap p r b gap c s :
  (forall x, x ∈ gap -> p x = false) -> p c = true -> b = false \/ gap <> [] ->
  collapse p r b (gap ++ c :: s) = gap ++ r ++ collapse p r true s.
Proof.
  revert b; induction gap as [|x gap IH]; intros b Hg Hc Hb; cbn.
  - rewrite Hc. by destruct Hb as [->|].
  - rewrite (Hg x) by left. f_equal. apply IH; [|done|by left].
    intros y Hy. apply Hg. by right.
Qed.

Lemma collapse_run p r text rest :
  (forall x, x ∈ text -> p x = true) ->
  match rest with [] => True | x :: _ => p x = false end ->
  collapse p r true (text ++ rest) = collapse p r false rest.
Proof.
  induction text as [|x text IH]; intros Ht Hr; cbn.
  - destruct rest as [|y rest]; [done|]. cbn. by rewrite Hr.
  - rewrite (Ht x) by left. cbn. apply IH; [|done]. intros y Hy. apply Ht. by right.
Qed.

Lemma scan_class p r fuel prev s :
  length s < fuel ->
  let '(ms, tl) := scan fuel (Rep p 1 None) prev s in
  (ms ≫= (fun m => f_gap m ++ r)) ++ tl = collapse p r false s.
Proof.
  revert prev s; induction fuel as [|f IH]; intros prev s Hlen; [lia|].
  cbn [scan]. pose proof (search_class p prev s) as Hs.
  destruct (search_from (Rep p 1 None) prev s) as [[gap st]|];
    [|cbn; by rewrite collapse_outside].
  destruct Hs as (c & text & -> & Hgap & Htext & Hrest).
  rewrite drop_app_length.
  replace (length (c :: text ++ m_rest st) - length (m_rest st)) with (length (c :: text))
    by (cbn; rewrite length_app; lia).
  change (c :: text ++ m_rest st) with ((c :: text) ++ m_rest st). rewrite take_app_length.
  specialize (IH (m_prev st) (m_rest st)).
  destruct (scan f (Rep p 1 None) (m_prev st) (m_rest st)) as [ms tl].
  change ((c :: text) ++ m_rest st) with (c :: text ++ m_rest st).
  rewrite (collapse_gap p r false) by (done || (apply Htext; left) || by left).
  rewrite collapse_run; [|intros x Hx; apply Htext; by right|done].
  rewrite <- IH; [cbn [mbind list_bind f_gap]; by rewrite <- !app_assoc|].
  rewrite length_app in Hlen. cbn in Hlen. rewrite length_app in Hlen. lia.
Qed.

Lemma sub_class p r s : sub (Rep p 1 None) (fun _ => r) s = collapse p r false s.
Proof.
  unfold sub. pose proof (scan_class p r (S (length s)) None s ltac:(lia)) as H.
  by destruct (scan _ _ _ _).
Qed.

(** Deleting the runs is filtering. *)
Lemma sub_class_delete p s : sub (Rep p 1 None) (fun _ => []) s = List.filter (fun c => negb (p c)) s.
Proof.
  rewrite sub_class. generalize false as b. induction s as [|c s IH]; intros b; [done|].
  cbn. destruct (p c); cbn; [destruct b; apply IH | by rewrite IH].
Qed.
End re.

(** ** Pattern building blocks *)

(** A case-insensitive ASCII letter: under [re.IGNORECASE] the letters [i],
    [s] and [k] also match the characters Unicode folds to them. *)
Definition ci (c : N) (x : N) : bool :=
  (ascii_lower x =? c)%N
  || ((c =? 105)%N && ((x =? 304)%N || (x =? 305)%N))
  || ((c =? 115)%N && (x =? 383)%N)
  || ((c =? 107)%N && (x =? 8490)%N).

Fixpoint word_re (w : list N) : re :=
  match w with
  | [] => Eps
  | c :: w' => Cat (Chr (ci (ascii_lower c))) (word_re w')
  end.

Fixpoint alts (l : list re) : re :=
  match l with
  | [] => Chr (fun _ => false)
  | [r] => r
  | r :: l' => Alt r (alts l')
  end.

Fixpoint cats (l : list re) : re :=
  match l with
  | [] => Eps
  | [r] => r
  | r :: l' => Cat r (cats l')
  end.

Definition opt_chr (p : N -> bool) : re := Rep p 0 (Some 1).

(** The class [[\s._-]]. *)
Definition sep_char (c : N) : bool :=
  is_space c || (c =? 46)%N || (c =? 95)%N || (c =? 45)%N.

(** The class [[\s._\-/\\]]. *)
Definition path_sep_char (c : N) : bool := sep_char c || (c =? 47)%N || (c =? 92)%N.

(** [text] is a spelling of the word [w], whatever the case. *)
Fixpoint spells (w text : list N) : bool :=
  match w, text with
  | [], [] => true
  | c :: w', x :: t' => ci (ascii_lower c) x && spells w' t'
  | _, _ => false
  end.

Section word.
Context {DB : UnicodeDB}.

Lemma word_re_matches w text rest prev g :
  spells w text = true ->
  Matches (word_re w) (MState prev (text ++ rest) g)
    (MState (match last text with Some c => Some c | None => prev end) rest g).
Proof.
  revert text prev; induction w as [|c w IH]; intros text prev; destruct text as [|x text]; simpl;
    try done.
  - intros _. constructor.
  - intros H. apply andb_true_iff in H as [Hc H].
    eapply M_Cat; [by eapply M_Chr|]. cbn.
    specialize (IH text (Some x) H).
    rewrite last_cons. by destruct (last text).
Qed.

Lemma spells_lower_refl w : spells w w = true.
Proof.
  induction w as [|c w IH]; [done|]. simpl. rewrite IH, andb_true_r.
  unfold ci. rewrite N.eqb_refl. done.
Qed.
End word.
