(* ===== verification/PyNum.v ===== *)
(** * Python floats, instants and durations

    [float] is IEEE binary64 as the Standard Library specifies it
    ([SpecFloat]), so every rounding of the source's arithmetic is computed.
    A [datetime] in UTC is its number of microseconds since the Unix epoch and
    a [timedelta] a number of microseconds; a result outside years 1 to 9999
    raises, as in Python. *)

From Stdlib Require Import ZArith Lia Bool SpecFloat.
From S2P Require Import Prelude.

#[local] Open Scope Z_scope.

(** ** Floats *)

Abbreviation float := spec_float (only parsing).

Definition f_prec : Z := 53.
Definition f_emax : Z := 1024.

Definition float_of_int (z : Z) : spec_float := binary_normalize f_prec f_emax z 0 false.
Definition fadd : spec_float -> spec_float -> spec_float := SFadd f_prec f_emax.
Definition fsub : spec_float -> spec_float -> spec_float := SFsub f_prec f_emax.
Definition fmul : spec_float -> spec_float -> spec_float := SFmul f_prec f_emax.
Definition fle (x y : spec_float) : bool := SFleb x y.
Definition flt (x y : spec_float) : bool := SFltb x y.
Definition feq (x y : spec_float) : bool := SFeqb x y.

Definition f_zero : spec_float := S754_zero false.

(** [a / b] on integers, [b > 0]: the quotient rounded once.  [SFdiv] on the
    unrounded mantissas computes exactly that; a quotient too large for a float
    raises. *)
Definition exact_of_int (z : Z) : spec_float :=
  match z with
  | Z0 => S754_zero false
  | Zpos p => S754_finite false p 0
  | Zneg p => S754_finite true p 0
  end.

Definition int_div (a b : Z) : res spec_float :=
  match SFdiv f_prec f_emax (exact_of_int a) (exact_of_int b) with
  | S754_infinity _ => Raise OverflowError
  | q => Ok q
  end.

#[export] Instance spec_float_eq_dec : EqDecision spec_float.
Proof. solve_decision. Defined.

(** ** Instants *)

Definition microsecond : Z := 1.
Definition second : Z := 1000000.
Definition minutes (n : Z) : Z := n * 60 * second.
Definition hours (n : Z) : Z := n * 3600 * second.
Definition days (n : Z) : Z := n * 86400 * second.

(** [datetime.min] and [datetime.max] in UTC. *)
Definition datetime_min : Z := -62135596800 * second.
Definition datetime_max : Z := 253402300800 * second - 1.

Definition in_range (t : Z) : bool := (datetime_min <=? t) && (t <=? datetime_max).

(** [t + d]. *)
Definition dt_add (t d : Z) : res Z :=
  if in_range (t + d) then Ok (t + d) else Raise OverflowError.

(** [datetime.fromtimestamp(n, tz=UTC)] for an integer [n]. *)
Definition fromtimestamp (n : Z) : res Z :=
  if in_range (n * second) then Ok (n * second)
  else if (-(2 ^ 63) <=? n) && (n <? 2 ^ 63) then Raise YearOutOfRange
  else Raise OverflowError.

Lemma dt_add_ok t d : in_range (t + d) = true -> dt_add t d = Ok (t + d).
Proof. unfold dt_add. by intros ->. Qed.

Lemma fromtimestamp_ok n : in_range (n * second) = true -> fromtimestamp n = Ok (n * second).
Proof. unfold fromtimestamp. by intros ->. Qed.

Lemma fromtimestamp_inv n t : fromtimestamp n = Ok t -> t = n * second /\ in_range t = true.
Proof.
  unfold fromtimestamp. destruct (in_range _) eqn:Hr; [by intros [= <-]|].
  by destruct (_ && _).
Qed.

Lemma dt_add_inv t d u : dt_add t d = Ok u -> u = t + d /\ in_range u = true.
Proof. unfold dt_add. destruct (in_range (t + d)) eqn:Hr; [by intros [= <-] | done]. Qed.

(** Differences order like the instants themselves. *)
Example int_div_third : int_div 1 3 = Ok (S754_finite false 6004799503160661 (-54)).
Proof. by_compute. Qed.
Example int_div_two : int_div 10 5 = Ok (float_of_int 2).
Proof. by_compute. Qed.
