(* ===== verification/PyInt.v ===== *)
(** * Python integers as text

    [int(text)] for base ten, with what the interpreter adds to it: white
    space around, a sign, single underscores between digits, decimal digits of
    any script, and the limit of 4300 digits.  The inverse is [PyStr.str_of_int]. *)

From Stdlib Require Import ZArith Lia Bool String Decimal DecimalFacts DecimalPos DecimalN.
From S2P Require Import Prelude PyStr.

#[local] Open Scope bool_scope.

(** [sys.int_info.default_max_str_digits]. *)
Definition max_str_digits : nat := N.to_nat 4300.

Definition digits_value (ds : list Z) : Z := foldl (fun acc d => acc * 10 + d)%Z 0%Z ds.

Section int.
Context {DB : UnicodeDB}.

(** A digit string with single underscores between digits. *)
Definition digits_of (s : list N) : option (list Z) :=
  let parts := split_on 95%N s in
  if existsb (fun part => bool_decide (part = [])) parts then None
  else mapM digit_val (concat parts).

(** An all-ASCII text is only stripped of the six C white-space characters. *)
Definition int_space (s : list N) (c : N) : bool :=
  if all_ascii s then between 9 13 c || (c =? 32)%N else is_space c.

Definition split_sign (s : list N) : Z * list N :=
  match s with
  | c :: t => if (c =? 43)%N then (1%Z, t) else if (c =? 45)%N then ((-1)%Z, t) else (1%Z, s)
  | [] => (1%Z, s)
  end.

(** [None] stands for the [ValueError]. *)
Definition int_of_str (s : list N) : option Z :=
  let '(sign, digits) := split_sign (strip (int_space s) s) in
  ds ← digits_of digits;
  if (max_str_digits <? length ds)%nat then None else Some (sign * digits_value ds)%Z.

(** ** Reading back what [str] writes *)

Lemma uint_codes_digit u c : c ∈ uint_codes u -> is_digit c = true.
Proof.
  induction u; simpl; rewrite ?elem_of_nil, ?elem_of_cons; try done;
    intros [->|H]; auto.
Qed.

Lemma uint_codes_length u : length (uint_codes u) = nb_digits u.
Proof. induction u; simpl; congruence. Qed.

(** The value of a digit list, most significant first, in the standard
    library's accumulating reading. *)
Lemma digits_value_uint u acc :
  exists ds, mapM digit_val (uint_codes u) = Some ds /\
    length ds = nb_digits u /\
    foldl (fun acc d => acc * 10 + d)%Z (Z.of_N acc) ds =
      Z.of_N (match acc with N0 => Pos.of_uint u | Npos p => Npos (Pos.of_uint_acc u p) end).
Proof.
  revert acc; induction u as [|u IH|u IH|u IH|u IH|u IH|u IH|u IH|u IH|u IH|u IH]; intros acc.
  1: exists []; repeat split; by destruct acc.
  all: cbn [uint_codes];
    match goal with
    | IH : context [uint_codes] |- context [?c :: uint_codes ?v] =>
      let d := eval vm_compute in (Z.of_N (c - 48)) in
      let n := eval vm_compute in (Z.to_N d) in
      destruct (IH (acc * 10 + n)%N) as (ds & Hm & Hlen & Hv);
      exists (d :: ds); split; [cbn; by rewrite Hm | split; [cbn; congruence|]];
      cbn [foldl]; replace (Z.of_N acc * 10 + d)%Z with (Z.of_N (acc * 10 + n)) by lia;
      rewrite Hv; clear; destruct acc as [|p]; [done|]
    end.
  all: cbn [Pos.of_uint_acc]; f_equal;
    match goal with |- context [(Npos ?p * 10 + ?n)%N] =>
      change (Npos p * 10)%N with (Npos (p * 10)) end.
  all: rewrite ?N.add_0_r; cbn [N.add]; f_equal; f_equal; lia.
Qed.

Lemma mapM_uint u : exists ds, mapM digit_val (uint_codes u) = Some ds /\
  length ds = nb_digits u /\ digits_value ds = Z.of_N (Pos.of_uint u).
Proof. destruct (digits_value_uint u 0) as (ds & ? & ? & ?). by exists ds. Qed.

Lemma split_on_absent sep s : sep ∉ s -> split_on sep s = [s].
Proof.
  induction s as [|c s IH]; [done|]. rewrite not_elem_of_cons. intros [Hne H]. simpl.
  destruct (N.eqb_spec c sep); [congruence|]. by rewrite IH.
Qed.

Lemma digits_of_uint u : uint_codes u <> [] ->
  digits_of (uint_codes u) = mapM digit_val (uint_codes u).
Proof.
  intros Hne. unfold digits_of. rewrite split_on_absent.
  - simpl. rewrite app_nil_r. by rewrite bool_decide_false by done.
  - intros H. by apply uint_codes_digit in H.
Qed.

Lemma to_uint_nonempty n : uint_codes (N.to_uint n) <> [].
Proof.
  destruct n as [|p]; [done|]. simpl. pose proof (DecimalPos.Unsigned.to_uint_nonzero p) as H0.
  intros H. apply (DecimalPos.Unsigned.to_uint_nonnil p). by destruct (Pos.to_uint p).
Qed.

Lemma digits_not_stripped s : s <> [] -> (forall c, c ∈ s -> is_digit c = true \/ c = 45%N) ->
  strip (int_space s) s = s.
Proof.
  intros Hne H. assert (all_ascii s = true) as Ha.
  { apply forallb_forall_iff. intros c Hc. apply H in Hc as [Hc| ->]; [|done].
    unfold is_digit, between in Hc. unfold is_ascii. apply N.ltb_lt.
    apply andb_true_iff in Hc as [_ Hc]. apply N.leb_le in Hc. lia. }
  assert (forall c, c ∈ s -> int_space s c = false) as Hs.
  { intros c Hc. unfold int_space. rewrite Ha. apply H in Hc as [Hc| ->]; [|done].
    unfold is_digit, between in *. apply andb_true_iff in Hc as [Hc _]. apply N.leb_le in Hc.
    destruct (N.leb_spec c 13), (N.eqb_spec c 32); lia || by rewrite andb_false_r. }
  pose proof (strip_core (int_space s) [] s []) as Hcore. simpl in Hcore.
  rewrite app_nil_r in Hcore. apply Hcore.
  - intros c Hc. by apply not_elem_of_nil in Hc.
  - intros c Hc. by apply not_elem_of_nil in Hc.
  - destruct s as [|c s]; [done|]. apply Hs. left.
  - destruct (last s) as [c|] eqn:Hl; [|done]. apply Hs.
    apply last_Some in Hl as [l ->]. apply elem_of_app. right. left.
Qed.

Lemma int_of_str_of_N n : (length (str_of_N n) <= max_str_digits)%nat ->
  int_of_str (str_of_N n) = Some (Z.of_N n).
Proof.
  intros Hlen. unfold int_of_str, str_of_N in *.
  rewrite digits_not_stripped.
  2: apply to_uint_nonempty.
  2: intros c Hc; left; by eapply uint_codes_digit.
  pose proof (to_uint_nonempty n) as Hne.
  destruct (mapM_uint (N.to_uint n)) as (ds & Hm & Hl & Hv).
  rewrite <- (digits_of_uint _ Hne) in Hm. rewrite uint_codes_length in Hlen.
  assert (digits_value ds = Z.of_N n) as Hval.
  { rewrite Hv. f_equal. apply (DecimalN.Unsigned.of_to n). }
  assert (split_sign (uint_codes (N.to_uint n)) = (1%Z, uint_codes (N.to_uint n))) as ->.
  { destruct (uint_codes (N.to_uint n)) as [|c s] eqn:Hs; [done|].
    assert (is_digit c = true) as Hc by (apply (uint_codes_digit (N.to_uint n)); rewrite Hs; left).
    simpl. destruct (N.eqb_spec c 43) as [->|]; [done|]. by destruct (N.eqb_spec c 45) as [->|]. }
  rewrite Hm. simpl. rewrite Hl.
  destruct (Nat.ltb_spec max_str_digits (nb_digits (N.to_uint n))); [lia|].
  f_equal. lia.
Qed.

(** [int(str(z)) == z]; beyond the limit both directions raise. *)
Lemma int_of_str_of_int z : (length (str_of_N (Z.abs_N z)) <= max_str_digits)%nat ->
  int_of_str (str_of_int z) = Some z.
Proof.
  destruct z as [|p|p]; intros Hlen.
  - by vm_compute.
  - apply (int_of_str_of_N (Npos p)). exact Hlen.
  - cbn [str_of_int Z.abs_N] in *.
    unfold int_of_str in *.
    assert (forall c, c ∈ str_of_N (Npos p) -> is_digit c = true) as Hd
      by (intros c; apply uint_codes_digit).
    assert (str_of_N (Npos p) <> []) as Hne by apply to_uint_nonempty.
    rewrite (digits_not_stripped (45%N :: _)).
    2: done.
    2: intros c Hc; apply elem_of_cons in Hc as [->|Hc]; [by right | left; auto].
    destruct (mapM_uint (N.to_uint (Npos p))) as (ds & Hm & Hl & Hv).
    rewrite <- digits_of_uint in Hm by done.
    change (uint_codes (N.to_uint (Npos p))) with (str_of_N (Npos p)) in Hm.
    change (split_sign (45%N :: str_of_N (Npos p))) with ((-1)%Z, str_of_N (Npos p)). cbv beta iota.
    rewrite Hm. cbn [mbind option_bind]. rewrite Hl. unfold str_of_N in Hlen.
    rewrite uint_codes_length in Hlen.
    destruct (Nat.ltb_spec max_str_digits (nb_digits (N.to_uint (Npos p)))); [lia|].
    rewrite Hv. change (Pos.of_uint (N.to_uint (Npos p))) with (N.of_uint (N.to_uint (Npos p))).
    by rewrite DecimalN.Unsigned.of_to.
Qed.
End int.
