(* ===== verification/Json.v ===== *)
(** * JSON ([json.dumps] and [json.loads] of the standard library)

    The codec under the updater's state file, the persisted update policy and
    the coordinator's outcome fingerprint.  A JSON object is the list of its
    pairs in the order of the Python dict.  [loads] is CPython's scanner:
    the last of two equal keys wins, [NaN] and the infinities are accepted,
    surrogate escapes are joined.  What [float.__repr__] prints is a parameter
    ([FloatText]); reading a float literal rounds once, exactly. *)

From Stdlib Require Import ZArith Lia Bool String SpecFloat.
From S2P Require Import Prelude PyStr PyNum PyInt.

#[local] Open Scope bool_scope.

(** ** Values *)

#[local] Unset Elimination Schemes.
Inductive json : Type :=
  | JNull
  | JBool (b : bool)
  | JInt (z : Z)
  | JFloat (f : spec_float)
  | JStr (s : list N)
  | JArr (l : list json)
  | JObj (l : list (list N * json)).
#[local] Set Elimination Schemes.

(** The nested lists carry the induction hypothesis of each of their members. *)
Fixpoint json_ind (P : json -> Prop)
    (Pnull : P JNull) (Pbool : forall b, P (JBool b)) (Pint : forall z, P (JInt z))
    (Pfloat : forall f, P (JFloat f)) (Pstr : forall s, P (JStr s))
    (Parr : forall l, Forall P l -> P (JArr l))
    (Pobj : forall l, Forall (fun kv => P kv.2) l -> P (JObj l)) (v : json) : P v :=
  match v with
  | JNull => Pnull
  | JBool b => Pbool b
  | JInt z => Pint z
  | JFloat f => Pfloat f
  | JStr s => Pstr s
  | JArr l => Parr l
      ((fix all (l : list json) : Forall P l :=
          match l with
          | [] => Forall_nil_2 P
          | x :: l' => Forall_cons_2 P x l'
              (json_ind P Pnull Pbool Pint Pfloat Pstr Parr Pobj x) (all l')
          end) l)
  | JObj l => Pobj l
      ((fix all (l : list (list N * json)) : Forall (fun kv => P kv.2) l :=
          match l with
          | [] => Forall_nil_2 _
          | x :: l' => Forall_cons_2 (fun kv => P kv.2) x l'
              (json_ind P Pnull Pbool Pint Pfloat Pstr Parr Pobj x.2) (all l')
          end) l)
  end.

(** [d[k] = v] on a dict: an existing key keeps its place. *)
Fixpoint dict_set (k : list N) (v : json) (d : list (list N * json)) : list (list N * json) :=
  match d with
  | [] => [(k, v)]
  | (k', v') :: d' => if bool_decide (k = k') then (k', v) :: d' else (k', v') :: dict_set k v d'
  end.

(** ** [json.dumps] *)

(** [float.__repr__]: the shortest literal that reads back, an interpreter's
    service. *)
Class FloatText := { float_repr : spec_float -> list N }.

Definition is_high (c : N) : bool := between 55296 56319 c.
Definition is_low (c : N) : bool := between 56320 57343 c.

Definition u_escape (n : N) : list N := lit "\u" ++ hex 4 n.

(** [ensure_ascii]: a character above 0xFFFF is its surrogate pair. *)
Definition escape_char (c : N) : list N :=
  if (c =? 34)%N then [92; 34]%N
  else if (c =? 92)%N then [92; 92]%N
  else if (c =? 10)%N then lit "\n"
  else if (c =? 13)%N then lit "\r"
  else if (c =? 9)%N then lit "\t"
  else if (c =? 12)%N then lit "\f"
  else if (c =? 8)%N then lit "\b"
  else if between 32 126 c then [c]
  else if (c <? 65536)%N then u_escape c
  else u_escape (55296 + (c - 65536) / 1024) ++ u_escape (56320 + (c - 65536) mod 1024).

Definition dump_str (s : list N) : list N := [34%N] ++ (s ≫= escape_char) ++ [34%N].

(** A finite float prints its [repr]. *)
Definition dump_float `{FloatText} (f : spec_float) : list N :=
  match f with
  | S754_nan => lit "NaN"
  | S754_infinity false => lit "Infinity"
  | S754_infinity true => lit "-Infinity"
  | _ => float_repr f
  end.

Definition key_ltb {A} (x y : list N * A) : bool := str_ltb x.1 y.1.

Record dump_opts := DumpOpts { sort_keys : bool; item_sep : list N; key_sep : list N }.

(** [separators=(',', ':')]. *)
Definition compact (sort : bool) : dump_opts := DumpOpts sort (lit ",") (lit ":").

Section dumps.
Context `{FloatText}.
Variable o : dump_opts.

Definition dump_pair (kv : list N * list N) : list N := dump_str kv.1 ++ key_sep o ++ kv.2.

Fixpoint dumps (v : json) : list N :=
  match v with
  | JNull => lit "null"
  | JBool b => if b then lit "true" else lit "false"
  | JInt z => str_of_int z
  | JFloat f => dump_float f
  | JStr s => dump_str s
  | JArr l => lit "[" ++ join (item_sep o) (dumps <$> l) ++ lit "]"
  | JObj l =>
      let items := (fun kv => (kv.1, dumps kv.2)) <$> l in
      let items := if sort_keys o then py_sort key_ltb items else items in
      lit "{" ++ join (item_sep o) (dump_pair <$> items) ++ lit "}"
  end.
End dumps.

(** ** [json.loads] *)

(** [JDecodeError] is [JSONDecodeError], [JIntLimit] the plain [ValueError] of
    an integer literal above 4300 digits; [JFuel] is not an outcome
    ([loads_total]). *)
Inductive jerr := JDecodeError | JIntLimit | JFuel.
Inductive jres (A : Type) := JOk (x : A) | JErr (e : jerr).
Arguments JOk {A} _.
Arguments JErr {A} _.

#[export] Instance jres_ret : MRet jres := fun A x => JOk x.
#[export] Instance jres_bind : MBind jres := fun A B f m =>
  match m with JOk x => f x | JErr e => JErr e end.

Definition is_ws (c : N) : bool := mem c [32; 9; 10; 13]%N.
Definition skip_ws (s : list N) : list N := lstrip is_ws s.

Definition hex_val (c : N) : option N :=
  if between 48 57 c then Some (c - 48)%N
  else if between 97 102 c then Some (c - 87)%N
  else if between 65 70 c then Some (c - 55)%N
  else None.

Definition hex4 (a b c d : N) : option N :=
  a ← hex_val a; b ← hex_val b; c ← hex_val c; d ← hex_val d;
  Some (((a * 16 + b) * 16 + c) * 16 + d)%N.

Definition simple_escape (c : N) : option N :=
  assoc c [(34, 34); (92, 92); (47, 47); (98, 8); (102, 12); (110, 10); (114, 13); (116, 9)]%N.

(** The text after the opening quote, up to the closing one.  A high surrogate
    escape directly followed by a low one is one character. *)
Fixpoint scan_string (s : list N) : jres (list N * list N) :=
  match s with
  | [] => JErr JDecodeError
  | c :: s' =>
      if (c =? 34)%N then JOk ([], s')
      else if (c =? 92)%N then
        match s' with
        | [] => JErr JDecodeError
        | e :: s1 =>
            if (e =? 117)%N then
              match s1 with
              | x1 :: x2 :: x3 :: x4 :: s2 =>
                  match hex4 x1 x2 x3 x4 with
                  | None => JErr JDecodeError
                  | Some u =>
                      let single := '(t, r) ← scan_string s2; JOk (u :: t, r) in
                      match s2 with
                      | b :: w :: y1 :: y2 :: y3 :: y4 :: s3 =>
                          if is_high u && (b =? 92)%N && (w =? 117)%N then
                            match hex4 y1 y2 y3 y4 with
                            | None => JErr JDecodeError
                            | Some u2 =>
                                if is_low u2 then
                                  '(t, r) ← scan_string s3;
                                  JOk ((65536 + (u - 55296) * 1024 + (u2 - 56320))%N :: t, r)
                                else single
                            end
                          else single
                      | _ => single
                      end
                  end
              | _ => JErr JDecodeError
              end
            else
              match simple_escape e with
              | None => JErr JDecodeError
              | Some u => '(t, r) ← scan_string s1; JOk (u :: t, r)
              end
        end
      else if (c <? 32)%N then JErr JDecodeError
      else '(t, r) ← scan_string s'; JOk (c :: t, r)
  end.

(** *** Numbers *)

Definition span (p : N -> bool) (s : list N) : list N * list N :=
  let rest := lstrip p s in (take (length s - length rest) s, rest).

#[global] Arguments span : simpl never.

Definition dec_digits (s : list N) : list Z := (fun c => Z.of_N (c - 48)) <$> s.

(** [(-1)^neg * m * 10^e], rounded once. *)
Definition float_of_decimal (neg : bool) (m e : Z) : spec_float :=
  if (m =? 0)%Z then S754_zero neg
  else
    let f := if (0 <=? e)%Z then float_of_int (m * 10 ^ e)
             else SFdiv f_prec f_emax (exact_of_int m) (exact_of_int (10 ^ (- e))) in
    if neg then SFopp f else f.

(** A fraction part: a dot with at least one digit after it. *)
Definition scan_frac (s : list N) : list N * list N :=
  match s with
  | d :: s' => let '(ds, r) := span is_digit s' in
      if (d =? 46)%N && negb (bool_decide (ds = [])) then (ds, r) else ([], s)
  | [] => ([], s)
  end.

(** An exponent part: its value, when there is one. *)
Definition scan_exp (s : list N) : option Z * list N :=
  match s with
  | x :: s' =>
      if (x =? 101)%N || (x =? 69)%N then
        let '(sign, t) := split_sign s' in
        let '(ds, r) := span is_digit t in
        if bool_decide (ds = []) then (None, s) else (Some (sign * digits_value (dec_digits ds))%Z, r)
      else (None, s)
  | [] => (None, s)
  end.

(** [_match_number]: a literal without fraction and exponent is an [int]. *)
Definition scan_number (s : list N) : jres (json * list N) :=
  let '(neg, t) :=
    match s with c :: s' => if (c =? 45)%N then (true, s') else (false, s) | [] => (false, s) end in
  let '(ints, r) :=
    match t with
    | c :: t' => if (c =? 48)%N then ([c], t') else span is_digit t
    | [] => ([], t)
    end in
  if bool_decide (ints = []) then JErr JDecodeError
  else
    let '(frac, r1) := scan_frac r in
    let '(ex, r2) := scan_exp r1 in
    if bool_decide (frac = []) && bool_decide (ex = None) then
      if (max_str_digits <? length ints)%nat then JErr JIntLimit
      else let n := digits_value (dec_digits ints) in JOk (JInt (if neg then - n else n)%Z, r)
    else
      let m := digits_value (dec_digits (ints ++ frac)) in
      JOk (JFloat (float_of_decimal neg m (default 0 ex - Z.of_nat (length frac))%Z), r2).

(** *** Values *)

(** Drop [w] from the front of [s]. *)
Definition literal (w s : list N) (v : json) (other : jres (json * list N)) : jres (json * list N) :=
  if prefixb w s then JOk (v, drop (length w) s) else other.

Definition starts (c : N) (s : list N) : bool :=
  match s with x :: _ => (x =? c)%N | [] => false end.

Fixpoint parse_value (fuel : nat) (s : list N) {struct fuel} : jres (json * list N) :=
  match fuel with
  | O => JErr JFuel
  | S f =>
      match s with
      | [] => JErr JDecodeError
      | c :: s' =>
          if (c =? 34)%N then '(t, r) ← scan_string s'; JOk (JStr t, r)
          else if (c =? 123)%N then
            let s1 := skip_ws s' in
            if starts 125 s1 then JOk (JObj [], drop 1 s1) else parse_members f [] s1
          else if (c =? 91)%N then
            let s1 := skip_ws s' in
            if starts 93 s1 then JOk (JArr [], drop 1 s1) else parse_items f [] s1
          else
            literal (lit "null") s JNull
            (literal (lit "true") s (JBool true)
            (literal (lit "false") s (JBool false)
            (literal (lit "NaN") s (JFloat S754_nan)
            (literal (lit "Infinity") s (JFloat (S754_infinity false))
            (literal (lit "-Infinity") s (JFloat (S754_infinity true))
            (scan_number s))))))
      end
  end
(** After the bracket or a comma: one item and what follows it. *)
with parse_items (fuel : nat) (acc : list json) (s : list N) {struct fuel} : jres (json * list N) :=
  match fuel with
  | O => JErr JFuel
  | S f =>
      '(v, r) ← parse_value f s;
      let r := skip_ws r in
      if starts 93 r then JOk (JArr (acc ++ [v]), drop 1 r)
      else if starts 44 r then parse_items f (acc ++ [v]) (skip_ws (drop 1 r))
      else JErr JDecodeError
  end
(** After the brace or a comma: one key, its value and what follows. *)
with parse_members (fuel : nat) (acc : list (list N * json)) (s : list N) {struct fuel}
    : jres (json * list N) :=
  match fuel with
  | O => JErr JFuel
  | S f =>
      if starts 34 s then
        '(k, r) ← scan_string (drop 1 s);
        let r := skip_ws r in
        if starts 58 r then
          '(v, r) ← parse_value f (skip_ws (drop 1 r));
          let r := skip_ws r in
          let acc := dict_set k v acc in
          if starts 125 r then JOk (JObj acc, drop 1 r)
          else if starts 44 r then parse_members f acc (skip_ws (drop 1 r))
          else JErr JDecodeError
        else JErr JDecodeError
      else JErr JDecodeError
  end.

(** A byte-order mark is refused before anything else. *)
Definition loads (s : list N) : jres json :=
  if starts 65279 s then JErr JDecodeError
  else
    '(v, r) ← parse_value (2 * S (length s)) (skip_ws s);
    if bool_decide (skip_ws r = []) then JOk v else JErr JDecodeError.

(** ** The scanner consumes text and needs no more fuel than that *)

Definition consumes {A} (n : nat) (r : jres (A * list N)) : Prop :=
  match r with
  | JOk (_, rest) => (length rest < n)%nat
  | JErr JFuel => False
  | JErr _ => True
  end.

Lemma consumes_mono {A} n m (r : jres (A * list N)) : (n <= m)%nat -> consumes n r -> consumes m r.
Proof. destruct r as [[x rest]|[]]; simpl; lia. Qed.

Lemma consumes_bind {A B} n (r : jres (A * list N)) (f : A * list N -> jres (B * list N)) :
  consumes n r -> (forall x rest, (length rest < n)%nat -> consumes n (f (x, rest))) ->
  consumes n (r ≫= f).
Proof. destruct r as [[x rest]|[]]; simpl; auto. Qed.

(** A step that keeps the rest of the text. *)
Lemma consumes_map {A B} n m (r : jres (A * list N)) (g : A -> B) :
  (n <= m)%nat -> consumes n r -> consumes m ('(t, rest) ← r; JOk (g t, rest)).
Proof. destruct r as [[x rest]|[]]; simpl; lia. Qed.

Lemma lstrip_length p s : (length (lstrip p s) <= length s)%nat.
Proof. induction s as [|c s IH]; simpl; [lia|]. destruct (p c); simpl; lia. Qed.

Lemma skip_ws_length s : (length (skip_ws s) <= length s)%nat.
Proof. apply lstrip_length. Qed.

Lemma span_length p s : (length (span p s).1 + length (span p s).2 = length s)%nat.
Proof. unfold span; simpl. rewrite length_take. pose proof (lstrip_length p s). lia. Qed.

Lemma scan_string_consumes s : consumes (length s) (scan_string s).
Proof.
  induction s as [s IH] using (induction_ltof1 _ length); unfold ltof in IH.
  assert (forall (g : list N -> list N) s', (length s' < length s)%nat ->
    consumes (length s) ('(t, r) ← scan_string s'; JOk (g t, r))) as Hstep.
  { intros g s' Hlt. apply (consumes_map (length s')); [lia | by apply IH]. }
  destruct s as [|c s]; [done|]. cbn [scan_string].
  destruct (c =? 34)%N; [simpl; lia|].
  destruct (c =? 92)%N.
  2: destruct (c <? 32)%N; [done|]; apply (Hstep (cons c)); simpl; lia.
  destruct s as [|e s1]; [done|]. destruct (e =? 117)%N.
  2: { destruct (simple_escape e) as [u|]; [|done]. apply (Hstep (cons u)); simpl; lia. }
  destruct s1 as [|x1 [|x2 [|x3 [|x4 s2]]]]; try done.
  destruct (hex4 x1 x2 x3 x4) as [u|]; [|done].
  assert (consumes (length (c :: e :: x1 :: x2 :: x3 :: x4 :: s2))
            ('(t, r) ← scan_string s2; JOk (u :: t, r))) as Hsingle
    by (apply (Hstep (cons u)); simpl; lia).
  destruct s2 as [|b [|w [|y1 [|y2 [|y3 [|y4 s3]]]]]]; try exact Hsingle.
  destruct (is_high u && (b =? 92)%N && (w =? 117)%N); [|exact Hsingle].
  destruct (hex4 y1 y2 y3 y4) as [u2|]; [|done]. destruct (is_low u2); [|exact Hsingle].
  apply (Hstep (cons (65536 + (u - 55296) * 1024 + (u2 - 56320))%N)); simpl; lia.
Qed.

Lemma scan_frac_length s : (length (scan_frac s).2 <= length s)%nat.
Proof.
  destruct s as [|d s]; [done|]. unfold scan_frac.
  generalize (span_length is_digit s). destruct (span is_digit s) as [ds r]. simpl. intros ?.
  destruct (_ && _); simpl; lia.
Qed.

Lemma split_sign_length s : (length (split_sign s).2 <= length s)%nat.
Proof. destruct s as [|c s]; [done|]. simpl. by repeat case_match; simpl; lia. Qed.

Lemma scan_exp_length s : (length (scan_exp s).2 <= length s)%nat.
Proof.
  destruct s as [|x s]; [done|]. unfold scan_exp. destruct (_ || _); [|done].
  generalize (split_sign_length s). destruct (split_sign s) as [sg t]. cbn [fst snd]. intros ?.
  generalize (span_length is_digit t). destruct (span is_digit t) as [ds r]. simpl. intros ?.
  case_bool_decide; simpl; lia.
Qed.

Lemma scan_number_consumes s : consumes (length s) (scan_number s).
Proof.
  unfold scan_number.
  set (nt := match s with c :: s' => if (c =? 45)%N then (true, s') else (false, s) | [] => _ end).
  assert (length nt.2 <= length s)%nat as Ht
    by (subst nt; destruct s as [|c s]; [done|]; destruct (c =? 45)%N; simpl; lia).
  destruct nt as [neg t]. simpl in Ht.
  set (ir := match t with c :: t' => if (c =? 48)%N then ([c], t') else span is_digit t | [] => _ end).
  assert (ir.1 <> [] -> (length ir.2 < length s)%nat) as Hr.
  { subst ir. destruct t as [|c t]; [done|]. destruct (c =? 48)%N; [simpl in *; lia|].
    generalize (span_length is_digit (c :: t)). destruct (span is_digit (c :: t)) as [i r]. simpl. intros Hl. intros Hne. destruct i; [done|]. simpl in *. lia. }
  destruct ir as [ints r]. simpl in Hr. case_bool_decide as Hi; [done|]. specialize (Hr Hi).
  generalize (scan_frac_length r). destruct (scan_frac r) as [frac r1]. simpl. intros Hf.
  generalize (scan_exp_length r1). destruct (scan_exp r1) as [ex r2]. simpl. intros He.
  destruct (_ && _); [destruct (_ <? _)%nat; [done|]|]; simpl; lia.
Qed.

Lemma literal_consumes w s v other : w <> [] ->
  consumes (length s) other -> consumes (length s) (literal w s v other).
Proof.
  intros Hw Ho. unfold literal. destruct (prefixb w s) eqn:Hp; [|done]. simpl.
  apply prefixb_true in Hp as [t ->]. rewrite drop_app_length, length_app.
  destruct w; [done|]. simpl. lia.
Qed.

Lemma starts_length c s : starts c s = true -> (length (drop 1 s) < length s)%nat.
Proof. destruct s; simpl; [done|]. rewrite drop_0. lia. Qed.

Lemma parse_consumes fuel :
  (forall s, (2 * length s < fuel)%nat -> consumes (length s) (parse_value fuel s)) /\
  (forall acc s, (2 * length s + 1 < fuel)%nat -> consumes (length s) (parse_items fuel acc s)) /\
  (forall acc s, (2 * length s + 1 < fuel)%nat -> consumes (length s) (parse_members fuel acc s)).
Proof.
  induction fuel as [|f (IHv & IHi & IHm)]; [repeat split; intros; lia|].
  repeat split.
  - intros [|c s] Hf; [done|]. cbn [parse_value].
    assert (length (skip_ws s) <= length s)%nat as Hws by apply skip_ws_length.
    destruct (c =? 34)%N.
    { apply (consumes_map (length s) _ _ JStr); [simpl; lia | apply scan_string_consumes]. }
    destruct (c =? 123)%N.
    { destruct (starts 125 (skip_ws s)) eqn:Hst; [apply starts_length in Hst; simpl; lia|].
      eapply consumes_mono; [|apply IHm; simpl in Hf; lia]. simpl. lia. }
    destruct (c =? 91)%N.
    { destruct (starts 93 (skip_ws s)) eqn:Hst; [apply starts_length in Hst; simpl; lia|].
      eapply consumes_mono; [|apply IHi; simpl in Hf; lia]. simpl. lia. }
    repeat (apply literal_consumes; [done|]). apply scan_number_consumes.
  - intros acc s Hf. cbn [parse_items]. apply consumes_bind; [apply IHv; lia|].
    intros v r Hr. pose proof (skip_ws_length r).
    destruct (starts 93 (skip_ws r)) eqn:H93; [apply starts_length in H93; simpl; lia|].
    destruct (starts 44 (skip_ws r)) eqn:H44; [|done]. apply starts_length in H44.
    pose proof (skip_ws_length (drop 1 (skip_ws r))).
    eapply consumes_mono; [|apply IHi; lia]. lia.
  - intros acc s Hf. cbn [parse_members]. destruct (starts 34 s) eqn:H34; [|done].
    apply starts_length in H34. apply consumes_bind.
    { eapply consumes_mono; [|apply scan_string_consumes]. lia. }
    intros k r Hr. pose proof (skip_ws_length r).
    destruct (starts 58 (skip_ws r)) eqn:H58; [|done]. apply starts_length in H58.
    pose proof (skip_ws_length (drop 1 (skip_ws r))). apply consumes_bind.
    { eapply consumes_mono; [|apply IHv; lia]. lia. }
    intros v r' Hr'. pose proof (skip_ws_length r').
    destruct (starts 125 (skip_ws r')) eqn:H125; [apply starts_length in H125; simpl; lia|].
    destruct (starts 44 (skip_ws r')) eqn:H44; [|done]. apply starts_length in H44.
    pose proof (skip_ws_length (drop 1 (skip_ws r'))).
    eapply consumes_mono; [|apply IHm; lia]. lia.
Qed.

(** [json.loads] terminates on every text: the fuel, twice the length of the
    text, is never what stops the scanner. *)
Lemma loads_total s : loads s <> JErr JFuel.
Proof.
  unfold loads. destruct (starts 65279 s); [done|].
  destruct (parse_consumes (2 * S (length s))) as (Hv & _ & _).
  pose proof (skip_ws_length s). specialize (Hv (skip_ws s) ltac:(lia)).
  destruct (parse_value _ _) as [[v r]|[]]; simpl in *; try done. by case_bool_decide.
Qed.

(** ** Round trip *)

(** *** Strings *)

Definition starts_low (s : list N) : bool :=
  match s with c :: _ => is_low c | [] => false end.

(** A Python string whose surrogates, if any, do not form a pair. *)
Fixpoint str_ok (s : list N) : bool :=
  match s with
  | [] => true
  | c :: s' => (c <? 1114112)%N && negb (is_high c && starts_low s') && str_ok s'
  end.

Lemma hex_val_digit n : (n < 16)%N -> hex_val (hex_digit n) = Some n.
Proof.
  intros Hn. unfold hex_digit, hex_val, between.
  destruct (N.ltb_spec n 10).
  - destruct (N.leb_spec 48 (n + 48)), (N.leb_spec (n + 48) 57); try lia. simpl. f_equal. lia.
  - destruct (N.leb_spec 48 (n + 87)), (N.leb_spec (n + 87) 57); try lia. simpl.
    destruct (N.leb_spec 97 (n + 87)), (N.leb_spec (n + 87) 102); try lia. simpl. f_equal. lia.
Qed.

Lemma u_escape_hex n : (n < 65536)%N ->
  exists a b c d, u_escape n = [92; 117; a; b; c; d]%N /\ hex4 a b c d = Some n.
Proof.
  intros Hn. exists (hex_digit (n / 16 / 16 / 16 mod 16)), (hex_digit (n / 16 / 16 mod 16)),
    (hex_digit (n / 16 mod 16)), (hex_digit (n mod 16)). split; [done|].
  unfold hex4. rewrite !hex_val_digit by (apply N.mod_lt; done). simpl. f_equal.
  pose proof (N.div_mod n 16). pose proof (N.div_mod (n / 16) 16).
  pose proof (N.div_mod (n / 16 / 16) 16).
  rewrite (N.mod_small (n / 16 / 16 / 16)); [lia|].
  rewrite !N.Div0.div_div. apply N.Div0.div_lt_upper_bound. lia.
Qed.

Inductive EscapeView (c : N) : list N -> Prop :=
  | EV_plain : c <> 34%N -> c <> 92%N -> (32 <= c)%N -> EscapeView c [c]
  | EV_simple e : e <> 117%N -> simple_escape e = Some c -> EscapeView c [92%N; e]
  | EV_bmp : (c < 65536)%N -> EscapeView c (u_escape c)
  | EV_astral : (65536 <= c < 1114112)%N ->
      EscapeView c (u_escape (55296 + (c - 65536) / 1024) ++ u_escape (56320 + (c - 65536) mod 1024)).

Lemma escape_view c : (c < 1114112)%N -> EscapeView c (escape_char c).
Proof.
  intros Hc. unfold escape_char.
  repeat match goal with
  | |- EscapeView _ (if (?x =? ?y)%N then _ else _) =>
      destruct (N.eqb_spec x y) as [->|]; [by apply EV_simple|]
  end.
  unfold between. destruct (N.leb_spec 32 c), (N.leb_spec c 126); simpl.
  1: by apply EV_plain.
  all: destruct (N.ltb_spec c 65536); [by apply EV_bmp | apply EV_astral; lia].
Qed.

Lemma scan_u a b c d u s : hex4 a b c d = Some u ->
  (forall y1 y2 y3 y4 s3, s = 92%N :: 117%N :: y1 :: y2 :: y3 :: y4 :: s3 ->
     is_high u = true -> exists u2, hex4 y1 y2 y3 y4 = Some u2 /\ is_low u2 = false) ->
  scan_string (92%N :: 117%N :: a :: b :: c :: d :: s) =
  ('(t, r) ← scan_string s; JOk (u :: t, r)).
Proof.
  intros Hx Hpair. cbn [scan_string]. change (92 =? 34)%N with false.
  change (92 =? 92)%N with true. change (117 =? 117)%N with true. cbv beta iota.
  rewrite Hx. destruct s as [|b1 [|w [|y1 [|y2 [|y3 [|y4 s3]]]]]]; try done.
  destruct (is_high u) eqn:Hh; [|done].
  destruct (N.eqb_spec b1 92) as [->|]; [|done]. destruct (N.eqb_spec w 117) as [->|]; [|done].
  destruct (Hpair _ _ _ _ _ eq_refl eq_refl) as (u2 & -> & ->). done.
Qed.

Lemma is_high_bound u : (55296 <= u <= 56319)%N -> is_high u = true /\ is_low u = false.
Proof.
  intros Hu. unfold is_high, is_low, between.
  destruct (N.leb_spec 55296 u), (N.leb_spec u 56319), (N.leb_spec 56320 u); simpl; lia || done.
Qed.

Lemma scan_astral c s : (65536 <= c < 1114112)%N ->
  scan_string (u_escape (55296 + (c - 65536) / 1024) ++ u_escape (56320 + (c - 65536) mod 1024) ++ s)
  = ('(t, r) ← scan_string s; JOk (c :: t, r)).
Proof.
  intros Hc. pose proof (N.mod_lt (c - 65536) 1024 ltac:(done)) as Hmod.
  pose proof (N.div_mod (c - 65536) 1024 ltac:(done)) as Hdm.
  assert ((c - 65536) / 1024 < 1024)%N as Hdiv by (apply N.Div0.div_lt_upper_bound; lia).
  revert Hmod Hdm Hdiv. generalize ((c - 65536) / 1024)%N ((c - 65536) mod 1024)%N.
  intros q m Hm Hdm Hq. set (hi := (55296 + q)%N). set (lo := (56320 + m)%N).
  assert (55296 <= hi <= 56319 /\ 56320 <= lo <= 57343)%N as [? ?] by (subst hi lo; lia).
  destruct (u_escape_hex hi) as (a1 & b1 & c1 & d1 & -> & Hx1); [lia|].
  destruct (u_escape_hex lo) as (a2 & b2 & c2 & d2 & -> & Hx2); [lia|].
  simpl app. cbn [scan_string]. change (92 =? 34)%N with false.
  change (92 =? 92)%N with true. change (117 =? 117)%N with true. cbv beta iota.
  rewrite Hx1, Hx2. destruct (is_high_bound hi) as [-> _]; [lia|].
  assert (is_low lo = true) as ->.
  { unfold is_low, between. destruct (N.leb_spec 56320 lo), (N.leb_spec lo 57343); (lia || done). }
  simpl andb. cbv iota.
  by replace (65536 + (hi - 55296) * 1024 + (lo - 56320))%N with c by (unfold hi, lo; lia).
Qed.

Lemma scan_string_escaped s rest : str_ok s = true ->
  scan_string ((s ≫= escape_char) ++ 34%N :: rest) = JOk (s, rest).
Proof.
  induction s as [|c s IH]; [done|]. cbn [str_ok]. rewrite !andb_true_iff.
  intros [[Hc Hp] Hs]. apply N.ltb_lt in Hc. specialize (IH Hs).
  change ((c :: s) ≫= escape_char) with (escape_char c ++ (s ≫= escape_char)).
  rewrite <- app_assoc.
  assert (('(t, r) ← scan_string ((s ≫= escape_char) ++ 34%N :: rest); JOk (c :: t, r))
          = JOk (c :: s, rest)) as Hgo by (by rewrite IH).
  destruct (escape_view c Hc) as [H34 H92 H32|e He Hsim|Hb|Ha].
  - cbn [app scan_string]. destruct (N.eqb_spec c 34); [done|].
    destruct (N.eqb_spec c 92); [done|]. destruct (N.ltb_spec c 32); [lia|]. exact Hgo.
  - cbn [app scan_string]. change (92 =? 34)%N with false. change (92 =? 92)%N with true.
    cbv beta iota. destruct (N.eqb_spec e 117); [done|]. rewrite Hsim. exact Hgo.
  - destruct (u_escape_hex c Hb) as (x1 & x2 & x3 & x4 & -> & Hx). simpl app.
    rewrite (scan_u _ _ _ _ c); [exact Hgo|done|].
    intros y1 y2 y3 y4 s3 Hs3 Hh. destruct s as [|c' s]; [done|].
    cbn [str_ok starts_low] in *. rewrite Hh in Hp. simpl in Hp.
    apply negb_true_iff in Hp. rewrite !andb_true_iff in Hs.
    destruct Hs as [[Hc' _] _]. apply N.ltb_lt in Hc'.
    change ((c' :: s) ≫= escape_char) with (escape_char c' ++ (s ≫= escape_char)) in Hs3.
    destruct (escape_view c' Hc') as [? ? ?|e He _|Hb'|Ha'].
    + injection Hs3 as -> _. done.
    + injection Hs3 as -> _. done.
    + destruct (u_escape_hex c' Hb') as (z1 & z2 & z3 & z4 & Hz & Hx'). rewrite Hz in Hs3.
      injection Hs3 as <- <- <- <- _. eauto.
    + assert ((c' - 65536) / 1024 < 1024)%N as Hdiv by (apply N.Div0.div_lt_upper_bound; lia).
      revert Hdiv Hs3. generalize ((c' - 65536) / 1024)%N. intros q Hq Hs3.
      destruct (u_escape_hex (55296 + q)) as (z1 & z2 & z3 & z4 & Hz & Hx'); [lia|].
      rewrite Hz in Hs3. injection Hs3 as <- <- <- <- _. eexists. split; [done|].
      apply is_high_bound. lia.
  - rewrite <- app_assoc. rewrite scan_astral by done. exact Hgo.
Qed.

(** *** Numbers *)

(** What may follow a number without becoming part of it. *)
Definition stops (s : list N) : bool :=
  match s with
  | [] => true
  | c :: _ => negb (is_digit c || (c =? 46)%N || (c =? 101)%N || (c =? 69)%N)
  end.

Lemma span_all p ds s : (forall c, c ∈ ds -> p c = true) ->
  match s with [] => True | c :: _ => p c = false end -> span p (ds ++ s) = (ds, s).
Proof.
  intros Hd Hs. unfold span. rewrite (lstrip_all p ds s Hd), (lstrip_stop p s Hs).
  rewrite length_app, Nat.add_sub. by rewrite take_app_length.
Qed.

Lemma stops_split s : stops s = true ->
  match s with [] => True | c :: _ => is_digit c = false end /\ scan_frac s = ([], s) /\
  scan_exp s = (None, s).
Proof.
  destruct s as [|c s]; [done|]. simpl. rewrite negb_true_iff, !orb_false_iff.
  intros [[[H1 H2] H3] H4]. rewrite H2, H3, H4. simpl. by destruct (span is_digit s).
Qed.

Lemma dec_digits_uint u : mapM (digit_val (DB := ascii_db)) (uint_codes u) =
  Some (dec_digits (uint_codes u)).
Proof.
  pose proof (uint_codes_digit u) as Hd. induction (uint_codes u) as [|c s IH]; [done|].
  assert (digit_val (DB := ascii_db) c = Some (Z.of_N (c - 48))) as Hc.
  { unfold digit_val. by rewrite (Hd c) by left. }
  cbn [mapM]. rewrite Hc, IH; [done|]. intros x Hx. apply Hd. by right.
Qed.

Lemma str_of_N_facts n : exists c s, str_of_N n = c :: s /\
  (forall x, x ∈ str_of_N n -> is_digit x = true) /\
  digits_value (dec_digits (str_of_N n)) = Z.of_N n /\
  ((c =? 48)%N = true -> n = 0%N).
Proof.
  unfold str_of_N. pose proof (uint_codes_digit (N.to_uint n)) as Hd.
  destruct (mapM_uint (DB := ascii_db) (N.to_uint n)) as (ds & Hm & _ & Hv).
  rewrite dec_digits_uint in Hm. injection Hm as <-.
  assert (Pos.of_uint (N.to_uint n) = n) as Hn by apply (DecimalN.Unsigned.of_to n).
  rewrite Hn in Hv. pose proof (to_uint_nonempty n) as Hne.
  destruct (uint_codes (N.to_uint n)) as [|c s] eqn:Hs; [done|].
  exists c, s. repeat split; auto. intros Hc. apply N.eqb_eq in Hc as ->.
  destruct n as [|p]; [done|]. exfalso.
  change (N.to_uint (Npos p)) with (Pos.to_uint p) in *.
  pose proof (DecimalPos.Unsigned.to_uint_nonzero p).
  assert (Pos.to_uint p = Decimal.unorm (Pos.to_uint p)) as Hnorm.
  { rewrite <- DecimalPos.Unsigned.to_of, DecimalPos.Unsigned.of_to. done. }
  destruct (Pos.to_uint p) as [|u| | | | | | | | |] eqn:Hp; try done.
  pose proof (DecimalFacts.nzhead_nonzero (Decimal.D0 u) u) as Hz.
  unfold Decimal.unorm in Hnorm.
  destruct (Decimal.nzhead (Decimal.D0 u)); congruence.
Qed.

Lemma literal_skip w s v other : prefixb w s = false -> literal w s v other = other.
Proof. unfold literal. by intros ->. Qed.

(** A text that starts with a digit or a minus sign and a digit is scanned as a
    number. *)
Lemma parse_number_text f c s : is_digit c = true \/ (c = 45%N /\ exists d t, s = d :: t /\ is_digit d = true) ->
  parse_value (S f) (c :: s) = scan_number (c :: s).
Proof.
  intros H. assert (c <> 34 /\ c <> 123 /\ c <> 91 /\ c <> 110 /\ c <> 116 /\ c <> 102 /\ c <> 78 /\ c <> 73)%N
    as (H34 & H123 & H91 & H110 & H116 & H102 & H78 & H73).
  { destruct H as [H|[-> _]]; [|done]. unfold is_digit, between in H.
    apply andb_true_iff in H as [? ?]. rewrite N.leb_le in *. repeat split; lia. }
  assert (prefixb (lit "-Infinity") (c :: s) = false) as Hinf.
  { destruct H as [H|(-> & d & t & -> & Hd)].
    - change (prefixb (lit "-Infinity") (c :: s)) with ((45 =? c)%N && prefixb (lit "Infinity") s).
      by destruct (N.eqb_spec 45 c) as [<-|].
    - change (prefixb (lit "-Infinity") (45%N :: d :: t)) with ((73 =? d)%N && prefixb (lit "nfinity") t).
      by destruct (N.eqb_spec 73 d) as [<-|]. }
  cbn [parse_value].
  destruct (N.eqb_spec c 34), (N.eqb_spec c 123), (N.eqb_spec c 91); try done.
  assert (forall x w, c <> x -> prefixb (x :: w) (c :: s) = false) as Hskip
    by (intros x w Hx; cbn [prefixb]; by destruct (N.eqb_spec x c)).
  rewrite !literal_skip; try done; by apply Hskip.
Qed.

Lemma parse_int f z rest : (length (str_of_N (Z.abs_N z)) <= max_str_digits)%nat ->
  stops rest = true -> parse_value (S f) (str_of_int z ++ rest) = JOk (JInt z, rest).
Proof.
  intros Hlim Hr. destruct (stops_split rest Hr) as (Hnd & Hfrac & Hexp).
  destruct (str_of_N_facts (Z.abs_N z)) as (c & s & Hs & Hd & Hv & H0).
  assert (is_digit c = true) as Hc by (apply Hd; rewrite Hs; left).
  assert (str_of_int z = (if (z <? 0)%Z then [45%N] else []) ++ c :: s) as ->.
  { rewrite <- Hs. by destruct z. }
  assert (parse_value (S f) (((if (z <? 0)%Z then [45%N] else []) ++ c :: s) ++ rest) =
          scan_number (((if (z <? 0)%Z then [45%N] else []) ++ c :: s) ++ rest)) as ->.
  { destruct (z <? 0)%Z; simpl app; apply parse_number_text; [right|by left].
    split; [done|]. by exists c, (s ++ rest). }
  assert (forall r, (if (c =? 48)%N then ([c], s ++ r) else span is_digit (c :: s ++ r)) =
    if (c =? 48)%N then ([c], s ++ r) else span is_digit (str_of_N (Z.abs_N z) ++ r)) as Hspan
    by (intros; by rewrite Hs).
  assert (s = [] \/ (c =? 48)%N = false) as Hlead.
  { destruct (c =? 48)%N eqn:E; [|by right]. left. rewrite (H0 eq_refl) in Hs. by injection Hs. }
  unfold scan_number.
  assert (match ((if (z <? 0)%Z then [45%N] else []) ++ c :: s) ++ rest with
          | c0 :: s' => if (c0 =? 45)%N then (true, s') else
              (false, ((if (z <? 0)%Z then [45%N] else []) ++ c :: s) ++ rest)
          | [] => (false, ((if (z <? 0)%Z then [45%N] else []) ++ c :: s) ++ rest) end
          = ((z <? 0)%Z, c :: s ++ rest)) as ->.
  { destruct (z <? 0)%Z; simpl; [done|]. by destruct (N.eqb_spec c 45) as [->|]. }
  assert ((if (c =? 48)%N then ([c], s ++ rest) else span is_digit (c :: s ++ rest)) = (c :: s, rest)) as ->.
  { rewrite Hspan. destruct Hlead as [->| ->].
    - destruct (c =? 48)%N; [done|]. rewrite Hs. apply (span_all is_digit [c]); [|done].
      intros x Hx. apply list_elem_of_singleton in Hx as ->. done.
    - rewrite span_all by done. by rewrite Hs. }
  cbn [bool_decide]. rewrite bool_decide_false by done. rewrite Hfrac, Hexp.
  rewrite !bool_decide_true by done. simpl andb. cbv iota. rewrite <- Hs, Hv.
  destruct (Nat.ltb_spec max_str_digits (length (str_of_N (Z.abs_N z)))); [lia|].
  do 3 f_equal. destruct (Z.ltb_spec z 0); lia.
Qed.

(** *** Sorting members does not look at their values *)

Lemma py_insert_fmap {A B} (f : A -> B) lt lt' x l :
  (forall x y, lt (f x) (f y) = lt' x y) -> py_insert lt (f x) (f <$> l) = f <$> py_insert lt' x l.
Proof.
  intros Hlt. induction l as [|y l IH]; [done|]. simpl. rewrite Hlt.
  destruct (lt' y x); [|done]. simpl. f_equal. exact IH.
Qed.

Lemma py_sort_fmap {A B} (f : A -> B) lt lt' l :
  (forall x y, lt (f x) (f y) = lt' x y) -> py_sort lt (f <$> l) = f <$> py_sort lt' l.
Proof.
  intros Hlt. unfold py_sort. induction l as [|x l IH]; [done|]. cbn [fmap list_fmap foldr].
  change (list_fmap A B f l) with (f <$> l). rewrite IH. by apply py_insert_fmap.
Qed.

(** The members in the order they are written. *)
Definition ordered {A} (sort : bool) (l : list (list N * A)) : list (list N * A) :=
  if sort then py_sort key_ltb l else l.

Lemma ordered_fmap {A B} sort (f : A -> B) (l : list (list N * A)) :
  ordered sort ((fun kv => (kv.1, f kv.2)) <$> l) = (fun kv => (kv.1, f kv.2)) <$> ordered sort l.
Proof. destruct sort; [|done]. by apply py_sort_fmap. Qed.

Lemma ordered_perm {A} sort (l : list (list N * A)) : ordered sort l ≡ₚ l.
Proof. destruct sort; [apply py_sort_perm|done]. Qed.

(** The value [loads] returns for a written one: equal to it as a Python
    value, its dicts in the order they were written. *)
Fixpoint norm (sort : bool) (v : json) : json :=
  match v with
  | JArr l => JArr (norm sort <$> l)
  | JObj l => JObj (ordered sort ((fun kv => (kv.1, norm sort kv.2)) <$> l))
  | _ => v
  end.

(** *** The separators *)

Definition sep_ok (c : N) (sep : list N) : Prop :=
  exists w, sep = c :: w /\ forall x, x ∈ w -> is_ws x = true.

Lemma sep_ok_single c : sep_ok c [c].
Proof. exists []. split; [done|]. by intros x ?%not_elem_of_nil. Qed.

Lemma skip_sep c sep s : sep_ok c sep ->
  match s with [] => True | x :: _ => is_ws x = false end ->
  exists r, sep ++ s = c :: r /\ skip_ws r = s.
Proof.
  intros (w & -> & Hw) Hs. exists (w ++ s). split; [done|].
  unfold skip_ws. rewrite lstrip_all by done. by apply lstrip_stop.
Qed.

Section roundtrip.
Context `{FloatText}.
Variable o : dump_opts.
Hypothesis Hitem : sep_ok 44 (item_sep o).
Hypothesis Hkey : sep_ok 58 (key_sep o).

(** Written text starts with neither white space, a closing bracket nor a
    byte-order mark. *)
Definition opens (s : list N) : bool :=
  match s with c :: _ => negb (is_ws c) && negb (mem c [93; 125; 65279]%N) | [] => false end.

(** The printed form of [f] reads back, whatever ends the number. *)
Definition float_ok (f : spec_float) : Prop :=
  opens (dump_float f) = true /\
  forall fuel rest, stops rest = true ->
    parse_value (S fuel) (dump_float f ++ rest) = JOk (JFloat f, rest).

Fixpoint json_ok (v : json) : Prop :=
  match v with
  | JNull | JBool _ => True
  | JInt z => (length (str_of_N (Z.abs_N z)) <= max_str_digits)%nat
  | JFloat f => float_ok f
  | JStr s => str_ok s = true
  | JArr l => foldr (fun v P => json_ok v /\ P) True l
  | JObj l => NoDup l.*1 /\ foldr (fun kv P => (str_ok kv.1 = true /\ json_ok kv.2) /\ P) True l
  end.

Lemma foldr_and {A} (P : A -> Prop) l : foldr (fun x Q => P x /\ Q) True l <-> Forall P l.
Proof.
  induction l as [|x l IH]; simpl; [by split|]. rewrite IH, Forall_cons. done.
Qed.

Lemma dumps_opens v : json_ok v -> opens (dumps o v) = true.
Proof.
  destruct v as [|[]|z|f|s|l|l]; try done.
  - intros _. destruct (str_of_N_facts (Z.abs_N z)) as (c & s & Hs & Hd & _).
    assert (is_digit c = true) as Hc by (apply Hd; rewrite Hs; left).
    unfold is_digit, between in Hc. apply andb_true_iff in Hc as [Hc1 Hc2].
    rewrite N.leb_le in *. destruct z; cbn [dumps str_of_int Z.to_N Z.abs_N] in *; [done| |done].
    rewrite Hs. unfold opens, is_ws. rewrite !(proj2 (mem_false _ _)); [done|..];
      rewrite !not_elem_of_cons; repeat split; try lia; apply not_elem_of_nil.
  - by intros [Ho _].
Qed.

Lemma opens_inv s : opens s = true ->
  exists c t, s = c :: t /\ is_ws c = false /\ c <> 93%N /\ c <> 65279%N.
Proof.
  destruct s as [|c t]; [done|]. simpl. rewrite andb_true_iff, !negb_true_iff, mem_false.
  rewrite !not_elem_of_cons. intros [? (? & ? & ? & _)]. by exists c, t.
Qed.

Lemma opens_app_ws s t : opens s = true ->
  match s ++ t with [] => True | x :: _ => is_ws x = false end.
Proof. intros Ho. apply opens_inv in Ho as (c & t' & -> & Hws & _). done. Qed.

(** A value that opens is found after a separator. *)
Lemma skip_to_value c sep s t : sep_ok c sep -> opens s = true ->
  exists r, sep ++ s ++ t = c :: r /\ skip_ws r = s ++ t.
Proof. intros Hsep Ho. apply (skip_sep c sep (s ++ t) Hsep). by apply opens_app_ws. Qed.

Lemma sep_stops c sep s : sep_ok c sep -> c = 44%N \/ c = 58%N -> stops (sep ++ s) = true.
Proof. by intros (w & -> & _) [-> | ->]. Qed.

Definition reads (v : json) : Prop :=
  json_ok v -> forall fuel rest, stops rest = true ->
    (2 * length (dumps o v ++ rest) < fuel)%nat ->
    parse_value fuel (dumps o v ++ rest) = JOk (norm (sort_keys o) v, rest).

Lemma json_join_cons sep x (l : list (list N)) :
  join sep (x :: l) = x ++ match l with [] => [] | _ => sep ++ join sep l end.
Proof. destruct l; [by rewrite app_nil_r|done]. Qed.

Lemma parse_items_reads x l fuel acc rest :
  Forall reads (x :: l) -> Forall json_ok (x :: l) ->
  (2 * length (join (item_sep o) (dumps o <$> x :: l) ++ lit "]" ++ rest) + 1 < fuel)%nat ->
  parse_items fuel acc (join (item_sep o) (dumps o <$> x :: l) ++ lit "]" ++ rest) =
  JOk (JArr (acc ++ (norm (sort_keys o) <$> x :: l)), rest).
Proof.
  revert x fuel acc. induction l as [|y l IH]; intros x fuel acc Hr Hok Hf;
    inversion Hr as [|? ? Hx Hl]; inversion Hok as [|? ? Hxo Hlo]; subst;
    destruct fuel as [|fuel]; try lia; cbn [parse_items].
  - cbn [fmap list_fmap join] in *. rewrite (Hx Hxo) by (done || lia). done.
  - assert (opens (dumps o y) = true) as Hy by (apply dumps_opens; by inversion Hlo).
    set (tl := lit "]" ++ rest) in *.
    rewrite fmap_cons, json_join_cons, <- app_assoc in Hf |- *.
    change (dumps o <$> y :: l) with (dumps o y :: (dumps o <$> l)) in Hf |- *. cbv iota in Hf |- *.
    rewrite <- app_assoc in Hf |- *. rewrite (Hx Hxo); [|by eapply sep_stops; eauto|lia].
    cbn [mbind jres_bind]. rewrite json_join_cons, <- app_assoc.
    destruct (skip_to_value 44 (item_sep o) (dumps o y)
      (match dumps o <$> l with [] => [] | _ => item_sep o ++ join (item_sep o) (dumps o <$> l) end ++ tl)
      Hitem Hy) as (r & Hr1 & Hr2).
    assert (skip_ws (44%N :: r) = 44%N :: r) as Hws by done.
    rewrite Hr1, Hws. change (starts 93 (44%N :: r)) with false.
    change (starts 44 (44%N :: r)) with true. cbv iota. cbn [drop]. rewrite drop_0, Hr2.
    rewrite app_assoc, <- json_join_cons.
    change (dumps o y :: (dumps o <$> l)) with (dumps o <$> y :: l). unfold tl in *.
    rewrite IH; [by rewrite <- app_assoc|done|done|].
    apply (f_equal length) in Hr1.
    pose proof (json_join_cons (item_sep o) (dumps o y) (dumps o <$> l)) as Hj.
    rewrite fmap_cons. rewrite !length_app in *. rewrite Hj in *. rewrite !length_app in *. simpl in *.
    destruct (opens_inv (dumps o x)) as (? & ? & Hdx & _); [by apply dumps_opens|].
    rewrite Hdx in Hf. simpl in Hf. lia.
Qed.

Definition member_text (kv : list N * json) : list N := dump_pair o (kv.1, dumps o kv.2).
Definition member_norm (kv : list N * json) : list N * json := (kv.1, norm (sort_keys o) kv.2).
Definition member_ok (kv : list N * json) : Prop := str_ok kv.1 = true /\ json_ok kv.2.

Lemma dict_set_fresh k v d : k ∉ d.*1 -> dict_set k v d = d ++ [(k, v)].
Proof.
  induction d as [|[k' v'] d IH]; [done|]. rewrite fmap_cons, not_elem_of_cons. intros [Hne Hk].
  simpl in *. rewrite bool_decide_false by done. by rewrite IH.
Qed.

(** One member: the key, the separator and the value are read, and the loop
    goes on with what follows. *)
Lemma parse_member kv fuel acc tl :
  member_ok kv -> reads kv.2 -> kv.1 ∉ acc.*1 -> stops tl = true ->
  (2 * length (member_text kv ++ tl) + 1 < S fuel)%nat ->
  parse_members (S fuel) acc (member_text kv ++ tl) =
  (let r := skip_ws tl in let acc := acc ++ [member_norm kv] in
   if starts 125 r then JOk (JObj acc, drop 1 r)
   else if starts 44 r then parse_members fuel acc (skip_ws (drop 1 r))
   else JErr JDecodeError).
Proof.
  destruct kv as [k v]. intros [Hk Hv] Hr Hfresh Htl Hf. cbn [fst snd] in *.
  assert (member_text (k, v) ++ tl =
    34%N :: ((k ≫= escape_char) ++ 34%N :: key_sep o ++ dumps o v ++ tl)) as Htext.
  { unfold member_text, dump_pair, dump_str. cbn [fst snd]. cbn [app].
    by rewrite <- !app_assoc. }
  rewrite Htext in Hf |- *. cbn [parse_members starts].
  change (34 =? 34)%N with true. cbv iota. cbn [drop]. rewrite drop_0, scan_string_escaped by done.
  cbn [mbind jres_bind].
  destruct (skip_to_value 58 (key_sep o) (dumps o v) tl Hkey (dumps_opens v Hv)) as (r & Hr1 & Hr2).
  rewrite Hr1. assert (skip_ws (58%N :: r) = 58%N :: r) as -> by done.
  change (starts 58 (58%N :: r)) with true. cbv iota. cbn [drop]. rewrite drop_0, Hr2.
  rewrite (Hr Hv); [|done|].
  - cbn [mbind jres_bind]. by rewrite dict_set_fresh.
  - simpl in Hf. rewrite !length_app in *. simpl in Hf. rewrite !length_app in Hf. lia.
Qed.

Lemma member_text_nonempty kv : (0 < length (member_text kv))%nat.
Proof. unfold member_text, dump_pair, dump_str. rewrite !length_app. simpl. lia. Qed.

Lemma parse_members_reads x l fuel acc rest :
  Forall (fun kv => reads kv.2) (x :: l) -> Forall member_ok (x :: l) ->
  NoDup (acc.*1 ++ (x :: l).*1) ->
  (2 * length (join (item_sep o) (member_text <$> x :: l) ++ lit "}" ++ rest) + 1 < fuel)%nat ->
  parse_members fuel acc (join (item_sep o) (member_text <$> x :: l) ++ lit "}" ++ rest) =
  JOk (JObj (acc ++ (member_norm <$> x :: l)), rest).
Proof.
  revert x fuel acc. induction l as [|y l IH]; intros x fuel acc Hr Hok Hnd Hf;
    inversion Hr as [|? ? Hx Hl]; inversion Hok as [|? ? Hxo Hlo]; subst;
    (assert (x.1 ∉ acc.*1) as Hfresh
      by (intros Hin; apply NoDup_app in Hnd as (_ & Hnd & _); apply (Hnd _ Hin); left));
    destruct fuel as [|fuel]; try lia.
  - cbn [fmap list_fmap join] in *. by rewrite parse_member.
  - rewrite fmap_cons, json_join_cons, <- app_assoc in Hf |- *.
    change (member_text <$> y :: l) with (member_text y :: (member_text <$> l)) in Hf |- *.
    cbv iota in Hf |- *. rewrite <- app_assoc in Hf |- *.
    rewrite parse_member; [|done..|by eapply sep_stops; eauto|done]. cbv zeta.
    change (member_text y :: (member_text <$> l)) with (member_text <$> y :: l) in Hf |- *.
    pose proof (member_text_nonempty x) as Hpos. rewrite !length_app in Hf.
    destruct (skip_sep 44 (item_sep o) (join (item_sep o) (member_text <$> y :: l) ++ lit "}" ++ rest) Hitem)
      as (r & Hr1 & Hr2).
    { rewrite fmap_cons, json_join_cons. done. }
    rewrite Hr1. assert (skip_ws (44%N :: r) = 44%N :: r) as -> by done.
    change (starts 125 (44%N :: r)) with false. change (starts 44 (44%N :: r)) with true.
    cbv iota. cbn [drop]. rewrite drop_0, Hr2. rewrite IH; [by rewrite <- app_assoc|done|done| |].
    + rewrite fmap_app. cbn [fmap list_fmap]. rewrite <- app_assoc. exact Hnd.
    + rewrite !length_app. lia.
Qed.

Lemma Forall_reads_all (l : list json) : Forall reads l -> foldr (fun v P => json_ok v /\ P) True l ->
  Forall reads l /\ Forall json_ok l.
Proof. intros H1 H2. split; [done|]. by apply foldr_and. Qed.

Lemma dumps_obj l : dumps o (JObj l) =
  lit "{" ++ join (item_sep o) (member_text <$> ordered (sort_keys o) l) ++ lit "}".
Proof.
  cbn [dumps]. do 2 f_equal. unfold member_text.
  change (if sort_keys o then py_sort key_ltb ((fun kv => (kv.1, dumps o kv.2)) <$> l)
          else (fun kv => (kv.1, dumps o kv.2)) <$> l)
    with (ordered (sort_keys o) ((fun kv => (kv.1, dumps o kv.2)) <$> l)).
  rewrite ordered_fmap. f_equal. rewrite <- list_fmap_compose. done.
Qed.

Lemma dumps_reads v : reads v.
Proof.
  induction v as [|[]|z|f|s|l IH|l IH] using json_ind; intros Hok fuel rest Hs Hf;
    (destruct fuel as [|fuel]; [lia|]).
  1-3: done.
  - by apply parse_int.
  - by apply Hok.
  - cbn [dumps]. unfold dump_str. rewrite <- !app_assoc. cbn [app parse_value].
    change (34 =? 34)%N with true. cbv iota. by rewrite scan_string_escaped.
  - apply foldr_and in Hok. cbn [dumps] in *. rewrite <- !app_assoc in *. cbn [app lit] in *.
    destruct l as [|x l]; [done|].
    assert (opens (dumps o x) = true) as Hx by (apply dumps_opens; by inversion Hok).
    pose proof (parse_items_reads x l fuel [] rest IH Hok) as Hitems.
    change (lit "[" ++ ?s) with (91%N :: s) in *. cbn [parse_value].
    change (91 =? 34)%N with false. change (91 =? 123)%N with false. change (91 =? 91)%N with true.
    cbv iota.
    assert (exists c t, join (item_sep o) (dumps o <$> x :: l) ++ lit "]" ++ rest = c :: t /\
      is_ws c = false /\ c <> 93%N) as (c & t & Htext & Hws & Hne).
    { apply opens_inv in Hx as (c & t & Hx & ? & ? & _). rewrite fmap_cons, json_join_cons, Hx.
      simpl. eauto. }
    unfold skip_ws. rewrite lstrip_stop by (by rewrite Htext). rewrite Htext.
    cbn [starts]. destruct (N.eqb_spec c 93); [done|]. rewrite <- Htext. apply Hitems.
    rewrite length_cons in Hf. lia.
  - destruct Hok as [Hnd Hok]. rewrite dumps_obj in *. cbn [norm].
    assert (Forall member_ok l) as Hmem by (by apply foldr_and).
    clear Hok. rewrite ordered_fmap. change (fun kv => (kv.1, norm _ kv.2)) with member_norm.
    rewrite <- (ordered_perm (sort_keys o)) in Hnd, Hmem, IH.
    destruct (ordered (sort_keys o) l) as [|x l'] eqn:El; [done|].
    rewrite <- !app_assoc in *. change (lit "{" ++ ?s) with (123%N :: s) in *.
    pose proof (parse_members_reads x l' fuel [] rest IH Hmem Hnd) as Hmembers.
    cbn [parse_value]. change (123 =? 34)%N with false. change (123 =? 123)%N with true. cbv iota.
    assert (exists t, join (item_sep o) (member_text <$> x :: l') ++ lit "}" ++ rest = 34%N :: t)
      as (t & Htext) by (rewrite fmap_cons, json_join_cons; simpl; eauto).
    unfold skip_ws. rewrite lstrip_stop by (by rewrite Htext). rewrite Htext.
    change (starts 125 (34%N :: t)) with false. cbv iota. rewrite <- Htext. apply Hmembers.
    rewrite length_cons in Hf. lia.
Qed.

(** [loads(dumps(v) + end)] for trailing white space. *)
Lemma loads_dumps_ws v w : json_ok v -> (forall c, c ∈ w -> is_ws c = true) ->
  loads (dumps o v ++ w) = JOk (norm (sort_keys o) v).
Proof.
  intros Hok Hw. pose proof (opens_inv _ (dumps_opens v Hok)) as (c & t & Ht & Hws & _ & Hbom).
  assert (stops w = true) as Hst.
  { destruct w as [|x w]; [done|]. pose proof (Hw x ltac:(left)) as Hx.
    apply mem_true in Hx. rewrite !elem_of_cons in Hx.
    destruct Hx as [->|[->|[->|[->|Hx]]]]; try done. by apply not_elem_of_nil in Hx. }
  unfold loads. assert (starts 65279 (dumps o v ++ w) = false) as ->.
  { rewrite Ht. simpl. by apply N.eqb_neq. }
  assert (skip_ws (dumps o v ++ w) = dumps o v ++ w) as ->
    by (unfold skip_ws; apply lstrip_stop; by rewrite Ht).
  rewrite (dumps_reads v Hok) by (done || lia). cbn [mbind jres_bind].
  unfold skip_ws. pose proof (lstrip_all is_ws w [] Hw) as Hn. rewrite app_nil_r in Hn. by rewrite Hn.
Qed.
End roundtrip.

(** ** [ensure_ascii] *)

Lemma hex_digit_ascii n : (n < 16)%N -> is_ascii (hex_digit n) = true /\ hex_digit n <> 13%N.
Proof.
  intros Hn. unfold hex_digit, is_ascii.
  destruct (N.ltb_spec n 10); split; try (apply N.ltb_lt); lia.
Qed.

(** Printable ASCII, hence without carriage returns. *)
Definition plain (s : list N) : Prop := Forall (fun c => is_ascii c = true /\ c <> 13%N) s.

Lemma plain_app s t : plain (s ++ t) <-> plain s /\ plain t.
Proof. apply Forall_app. Qed.

Lemma u_escape_plain n : plain (u_escape n).
Proof.
  unfold u_escape, plain. apply Forall_app. split; [by repeat constructor|].
  cbn [hex]. rewrite !Forall_app, !Forall_singleton.
  repeat split; try apply hex_digit_ascii; try (apply N.mod_lt; done).
  all: try constructor.
Qed.

Lemma escape_char_plain c : plain (escape_char c).
Proof.
  unfold escape_char.
  repeat match goal with
  | |- plain (if (?x =? ?y)%N then _ else _) =>
      destruct (N.eqb_spec x y) as [->|]; [by repeat constructor|]
  end.
  assert (plain (if (c <? 65536)%N then u_escape c
    else u_escape (55296 + (c - 65536) / 1024) ++ u_escape (56320 + (c - 65536) mod 1024))).
  { destruct (c <? 65536)%N; [|apply plain_app; split]; apply u_escape_plain. }
  unfold between. destruct (N.leb_spec 32 c), (N.leb_spec c 126); try done.
  constructor; [split; [apply N.ltb_lt|]; lia | constructor].
Qed.

Lemma dump_str_plain s : plain (dump_str s).
Proof.
  unfold dump_str. rewrite !plain_app. repeat split; try by repeat constructor.
  induction s as [|c s IH]; [constructor|].
  change ((c :: s) ≫= escape_char) with (escape_char c ++ (s ≫= escape_char)).
  apply plain_app. auto using escape_char_plain.
Qed.

Lemma str_of_int_plain z : plain (str_of_int z).
Proof.
  assert (forall n, plain (str_of_N n)) as Hn.
  { intros n. apply Forall_forall. intros c Hc. apply uint_codes_digit in Hc.
    unfold is_digit, between in Hc. apply andb_true_iff in Hc as [H1 H2].
    rewrite N.leb_le in *. split; [apply N.ltb_lt|]; lia. }
  destruct z; try apply Hn. constructor; [done|apply Hn].
Qed.

Lemma join_plain sep l : plain sep -> Forall plain l -> plain (join sep l).
Proof.
  intros Hs. induction 1 as [|x l Hx Hl IH]; [constructor|]. simpl.
  destruct l; [done|]. rewrite !plain_app. auto.
Qed.

Fixpoint float_free (v : json) : bool :=
  match v with
  | JFloat _ => false
  | JArr l => forallb float_free l
  | JObj l => forallb (fun kv => float_free kv.2) l
  | _ => true
  end.

(** What [dumps] writes is ASCII without carriage returns, when no float is
    printed (a float's [repr] is the interpreter's). *)
Lemma dumps_plain `{FloatText} o v : plain (item_sep o) -> plain (key_sep o) ->
  float_free v = true -> plain (dumps o v).
Proof.
  intros Hi Hk. induction v as [|[]|z|f|s|l IH|l IH] using json_ind; intros Hf; try done;
    try by repeat constructor.
  - apply str_of_int_plain.
  - apply dump_str_plain.
  - cbn [dumps]. rewrite !plain_app. repeat split; try by repeat constructor.
    apply join_plain; [done|]. apply Forall_fmap. cbn [float_free] in Hf.
    rewrite forallb_forall_iff in Hf. apply Forall_forall. intros x Hx.
    rewrite Forall_forall in IH. by apply IH, Hf.
  - rewrite dumps_obj, !plain_app. repeat split; try by repeat constructor.
    apply join_plain; [done|]. apply Forall_fmap. cbn [float_free] in Hf.
    rewrite forallb_forall_iff in Hf. apply Forall_forall. intros kv Hkv.
    rewrite ordered_perm in Hkv. unfold compose, member_text, dump_pair. rewrite !plain_app.
    repeat split; [apply dump_str_plain | done |]. rewrite Forall_forall in IH. by apply IH, Hf.
Qed.
