(* ===== verification/PyBytes.v ===== *)
(** * Text and bytes

    UTF-8 as Python's strict codec has it (no overlong form, no surrogate,
    nothing above U+10FFFF), and the newline translation of text-mode reads. *)

From Stdlib Require Import ZArith Lia Bool.
From S2P Require Import Prelude PyStr.

#[local] Open Scope N_scope.
#[local] Open Scope bool_scope.

(** A continuation byte's six bits. *)
Definition cont (b : N) : option N := if between 128 191 b then Some (b - 128) else None.

(** [bytes.decode("utf-8")]; [None] is the [UnicodeDecodeError]. *)
Fixpoint utf8_decode (bs : list N) : option (list N) :=
  match bs with
  | [] => Some []
  | b :: rest =>
      if b <? 128 then t ← utf8_decode rest; Some (b :: t)
      else if between 194 223 b then
        match rest with
        | b1 :: rest1 =>
            x1 ← cont b1; t ← utf8_decode rest1; Some ((b - 192) * 64 + x1 :: t)
        | [] => None
        end
      else if between 224 239 b then
        match rest with
        | b1 :: b2 :: rest2 =>
            x1 ← cont b1; x2 ← cont b2;
            let c := ((b - 224) * 64 + x1) * 64 + x2 in
            if (c <? 2048) || between 55296 57343 c then None
            else t ← utf8_decode rest2; Some (c :: t)
        | _ => None
        end
      else if between 240 244 b then
        match rest with
        | b1 :: b2 :: b3 :: rest3 =>
            x1 ← cont b1; x2 ← cont b2; x3 ← cont b3;
            let c := (((b - 240) * 64 + x1) * 64 + x2) * 64 + x3 in
            if (c <? 65536) || (1114111 <? c) then None
            else t ← utf8_decode rest3; Some (c :: t)
        | _ => None
        end
      else None
  end.

(** One character's bytes; [None] is the [UnicodeEncodeError] of a surrogate. *)
Definition utf8_encode_char (c : N) : option (list N) :=
  if c <? 128 then Some [c]
  else if c <? 2048 then Some [192 + c / 64; 128 + c mod 64]
  else if between 55296 57343 c then None
  else if c <? 65536 then Some [224 + c / 4096; 128 + c / 64 mod 64; 128 + c mod 64]
  else if c <? 1114112 then
    Some [240 + c / 262144; 128 + c / 4096 mod 64; 128 + c / 64 mod 64; 128 + c mod 64]
  else None.

(** [str.encode("utf-8")]. *)
Definition utf8_encode (s : list N) : option (list N) :=
  parts ← mapM utf8_encode_char s; Some (concat parts).

(** Universal newlines: a read in text mode turns [\r\n] and a lone [\r] into
    [\n]. *)
Fixpoint universal_newlines (s : list N) : list N :=
  match s with
  | [] => []
  | c :: s' =>
      if c =? 13 then
        match s' with
        | d :: s2 => if d =? 10 then 10 :: universal_newlines s2 else 10 :: universal_newlines s'
        | [] => [10]
        end
      else c :: universal_newlines s'
  end.

Lemma utf8_encode_ascii s : all_ascii s = true -> utf8_encode s = Some s.
Proof.
  unfold utf8_encode. induction s as [|c s IH]; [done|]. rewrite all_ascii_cons.
  intros H. apply andb_true_iff in H as [Hc Hs]. specialize (IH Hs).
  assert (utf8_encode_char c = Some [c]) as Hone by (unfold is_ascii in Hc; unfold utf8_encode_char; by rewrite Hc).
  cbn [mapM]. rewrite Hone.
  destruct (mapM utf8_encode_char s) as [parts|]; simpl in *; [|done]. congruence.
Qed.

Lemma utf8_decode_ascii s : all_ascii s = true -> utf8_decode s = Some s.
Proof.
  induction s as [|c s IH]; [done|]. rewrite all_ascii_cons.
  intros H. apply andb_true_iff in H as [Hc Hs]. unfold is_ascii in Hc.
  cbn [utf8_decode]. by rewrite Hc, IH.
Qed.

Lemma universal_newlines_id s : (13 ∉ s) -> universal_newlines s = s.
Proof.
  induction s as [|c s IH]; [done|]. rewrite not_elem_of_cons. intros [Hne H].
  cbn [universal_newlines]. destruct (N.eqb_spec c 13); [congruence|]. by rewrite IH.
Qed.
