(* ===== verification/PyDict.v ===== *)
(** * Python operations on JSON values

    [dict.get], [pop], [update], truth and equality on the values [json.loads]
    yields.  Equality is Python's: [True], [1] and [1.0] are equal, dicts are
    compared without their order. *)

From Stdlib Require Import ZArith Lia Bool SpecFloat String.
From S2P Require Import Prelude PyStr PyNum Json.

#[local] Open Scope bool_scope.

Abbreviation dict := (list (list N * json)) (only parsing).

(** [d.get(key)]. *)
Definition dget (key : list N) (d : list (list N * json)) : json := default JNull (assoc key d).
Definition has_key (key : list N) (d : list (list N * json)) : bool :=
  bool_decide (is_Some (assoc key d)).

(** [d.pop(key, None)]. *)
Definition dpop (key : list N) (d : list (list N * json)) : list (list N * json) :=
  List.filter (fun kv => negb (bool_decide (kv.1 = key))) d.

(** [d.update(e)]. *)
Definition dupdate (d e : list (list N * json)) : list (list N * json) :=
  foldl (fun d kv => dict_set kv.1 kv.2 d) d e.

(** A number equal to another as Python compares an [int] with a [float]:
    exactly. *)
Definition float_eq_int (f : spec_float) (z : Z) : bool :=
  match f with
  | S754_zero _ => (z =? 0)%Z
  | S754_finite s m e =>
      let v := (if s then Z.neg m else Z.pos m) in
      if (0 <=? e)%Z then (v * 2 ^ e =? z)%Z else (v =? z * 2 ^ (- e))%Z
  | _ => false
  end.

Definition num_eq (x y : json) : bool :=
  let int (v : json) : option Z :=
    match v with JInt z => Some z | JBool b => Some (if b then 1 else 0)%Z | _ => None end in
  match int x, int y, x, y with
  | Some a, Some b, _, _ => (a =? b)%Z
  | Some a, None, _, JFloat g => float_eq_int g a
  | None, Some b, JFloat f, _ => float_eq_int f b
  | None, None, JFloat f, JFloat g => feq f g
  | _, _, _, _ => false
  end.

(** [x == y]. *)
Fixpoint json_eq (x y : json) : bool :=
  match x, y with
  | JNull, JNull => true
  | JStr s, JStr t => bool_decide (s = t)
  | JArr l, JArr m =>
      (fix all (l m : list json) : bool :=
         match l, m with
         | [], [] => true
         | x :: l', y :: m' => json_eq x y && all l' m'
         | _, _ => false
         end) l m
  | JObj l, JObj m =>
      (length l =? length m)%nat &&
      (fix all (l : list (list N * json)) : bool :=
         match l with
         | [] => true
         | (k, v) :: l' =>
             match assoc k m with Some w => json_eq v w | None => false end && all l'
         end) l
  | JNull, _ | JStr _, _ | JArr _, _ | JObj _, _ => false
  | _, _ => num_eq x y
  end.

(** [bool(v)]. *)
Definition json_truthy (v : json) : bool :=
  match v with
  | JNull => false
  | JBool b => b
  | JInt z => negb (z =? 0)%Z
  | JFloat f => negb (feq f f_zero)
  | JStr s => negb (bool_decide (s = []))
  | JArr l => negb (length l =? 0)%nat
  | JObj l => negb (length l =? 0)%nat
  end.

(** [v in {...}] for a set of strings, possibly with [None]: a list or a dict
    is not hashable, which raises [TypeError]. *)
Definition in_str_set (strs : list (list N)) (with_none : bool) (v : json) : res bool :=
  match v with
  | JArr _ | JObj _ => Raise TypeError
  | JStr s => Ok (mem s strs)
  | JNull => Ok with_none
  | _ => Ok false
  end.

(** ** Lemmas *)

Lemma assoc_dict_set k k' v d :
  assoc k (dict_set k' v d) = if bool_decide (k = k') then Some v else assoc k d.
Proof.
  induction d as [|[k2 v2] d IH]; simpl.
  - done.
  - destruct (bool_decide (k' = k2)) eqn:E2; simpl.
    + apply bool_decide_eq_true in E2 as ->. by destruct (bool_decide (k = k2)).
    + rewrite IH. destruct (bool_decide (k = k2)) eqn:E; [|done].
      apply bool_decide_eq_true in E as ->. apply bool_decide_eq_false in E2.
      by rewrite bool_decide_false by congruence.
Qed.

Lemma assoc_dpop k k' d : assoc k (dpop k' d) = if bool_decide (k = k') then None else assoc k d.
Proof.
  induction d as [|[k2 v2] d IH]; simpl; [by destruct (bool_decide (k = k'))|].
  destruct (bool_decide (k2 = k')) eqn:E2; simpl.
  - apply bool_decide_eq_true in E2 as ->. rewrite IH. by destruct (bool_decide (k = k')).
  - rewrite IH. destruct (bool_decide (k = k2)) eqn:E; [|done].
    apply bool_decide_eq_true in E as ->. by rewrite E2.
Qed.

Lemma assoc_None_iff {V} (d : list (list N * V)) k : assoc k d = None <-> k ∉ d.*1.
Proof.
  induction d as [|[k' v'] d IH]; simpl.
  - split; [intros _; apply not_elem_of_nil | done].
  - rewrite not_elem_of_cons. case_bool_decide as E; simpl; [|rewrite IH]; naive_solver.
Qed.

Lemma assoc_dupdate k d e :
  assoc k (dupdate d e) = match assoc k (reverse e) with Some v => Some v | None => assoc k d end.
Proof.
  unfold dupdate. revert d; induction e as [|[k' v'] e IH] using rev_ind; intros d; [done|].
  rewrite foldl_app, reverse_app. simpl. rewrite assoc_dict_set. rewrite IH.
  by destruct (bool_decide (k = k')).
Qed.

Lemma assoc_reverse {V} (d : list (list N * V)) k : NoDup d.*1 -> assoc k (reverse d) = assoc k d.
Proof.
  intros Hnd. induction d as [|[k' v'] d IH]; [done|]. rewrite reverse_cons.
  inversion Hnd as [|? ? Hk' Hnd']; subst. specialize (IH Hnd').
  assert (forall (l m : list (list N * V)), assoc k (l ++ m) = match assoc k l with Some v => Some v | None => assoc k m end) as Happ.
  { induction l as [|[k2 v2] l IHl]; intros m; [done|]. simpl. by destruct (bool_decide (k = k2)). }
  rewrite Happ, IH. simpl. case_bool_decide as E; [subst k'|by destruct (assoc k d)].
  apply assoc_None_iff in Hk'. simpl in Hk'. by rewrite Hk'.
Qed.

Lemma dict_set_keys k v d : NoDup d.*1 -> NoDup (dict_set k v d).*1.
Proof.
  induction d as [|[k' v'] d IH]; simpl.
  - intros _. constructor; [apply not_elem_of_nil | constructor].
  - intros Hnd. inversion Hnd as [|? ? Hk' Hnd']; subst. case_bool_decide as E; [done|].
    rewrite fmap_cons. constructor; [|by apply IH]. simpl.
    rewrite <- assoc_None_iff, assoc_dict_set. rewrite bool_decide_false by congruence.
    by apply assoc_None_iff.
Qed.

Lemma dupdate_keys d e : NoDup d.*1 -> NoDup (dupdate d e).*1.
Proof.
  unfold dupdate. revert d; induction e as [|kv e IH]; intros d Hd; [done|].
  apply IH. by apply dict_set_keys.
Qed.

Lemma dpop_keys k d : NoDup d.*1 -> NoDup (dpop k d).*1.
Proof.
  induction d as [|[k' v'] d IH]; intros Hnd; [done|]. inversion Hnd as [|? ? Hk' Hnd']; subst.
  simpl. destruct (negb _); [|by apply IH]. rewrite fmap_cons. constructor; [|by apply IH].
  rewrite <- assoc_None_iff, assoc_dpop. case_bool_decide; [done|]. by apply assoc_None_iff.
Qed.

Lemma dget_dict_set k k' v d : dget k (dict_set k' v d) = if bool_decide (k = k') then v else dget k d.
Proof. unfold dget. rewrite assoc_dict_set. by destruct (bool_decide (k = k')). Qed.

Lemma dget_dpop k k' d : dget k (dpop k' d) = if bool_decide (k = k') then JNull else dget k d.
Proof. unfold dget. rewrite assoc_dpop. by destruct (bool_decide (k = k')). Qed.
