(* ===== verification/Recreation.v ===== *)
(** * Rebuilding the application container ([updater/recreation.py])

    The updater inspects the running container and writes the configuration of
    its replacement (the candidate) and of the container a rollback starts:
    environment, labels, networks, volumes, ports.  An inspect document is a
    JSON object; every refusal is a [DockerError] with its code.  Documents are
    values, so [deepcopy] is the identity: nothing is shared. *)

From Stdlib Require Import ZArith Lia Bool String.
From S2P Require Import Prelude PyStr PyRe PyNum PyInt Json PyDict.

#[local] Open Scope bool_scope.

Definition DockerError {A} (code : string) : res A := Raise (ProgramError "DockerError" (lit code)).

Definition key (s : string) (d : list (list N * json)) : json := dget (lit s) d.

(** ** Labels and constants ([updater/config.py]) *)

Definition TARGET_LABEL : list N := lit "io.github.lunchbox951.plex-manager.update.target".
Definition IMAGE_REF_LABEL : list N := lit "io.github.lunchbox951.plex-manager.update.image-ref".
Definition OPERATION_LABEL : list N := lit "io.github.lunchbox951.plex-manager.update.operation".
Definition ROLE_LABEL : list N := lit "io.github.lunchbox951.plex-manager.update.role".

Definition _IMAGE_BACKED_FIELDS : list (list N) :=
  [lit "User"; lit "WorkingDir"; lit "Entrypoint"; lit "Cmd"; lit "Healthcheck";
   lit "ExposedPorts"; lit "Volumes"; lit "StopSignal"; lit "Shell"].
Definition _DROP_CONFIG_FIELDS : list (list N) := [lit "ArgsEscaped"; lit "OnBuild"].
Definition _DROP_HOST_CONFIG_FIELDS : list (list N) := [lit "ContainerIDFile"].
Definition _IMAGE_OWNED_ENV : list (list N) := [lit "PLEX_MANAGER_BUILD_ID"].
Definition MINIMUM_STOP_TIMEOUT : Z := 75.

Definition _object (value : json) (code : string) : res (list (list N * json)) :=
  match value with JObj l => Ok l | _ => DockerError code end.

(** [x or {}]. *)
Definition or_empty (v : json) : json := if json_truthy v then v else JObj [].

(** [image_id] of [updater/engine.py]. *)
Definition image_id (image : list (list N * json)) : res (list N) :=
  match key "Id" image with
  | JStr s => if prefixb (lit "sha256:") s then Ok s else DockerError "docker_image_id_missing"
  | _ => DockerError "docker_image_id_missing"
  end.

(** ** Environment *)

(** [item.partition("=")] of an item that has one. *)
Fixpoint partition_eq (s : list N) : option (list N * list N) :=
  match s with
  | [] => None
  | c :: s' =>
      if (c =? 61)%N then Some ([], s')
      else '(k, v) ← partition_eq s'; Some (c :: k, v)
  end.

Definition env_item (item : json) : res (list N * list N) :=
  match item with
  | JStr s =>
      match partition_eq s with
      | None => DockerError "docker_invalid_environment"
      | Some (k, v) =>
          if bool_decide (k = []) || existsb (fun c => mem c k) [13; 10; 0]%N
          then DockerError "docker_invalid_environment" else Ok (k, v)
      end
  | _ => DockerError "docker_invalid_environment"
  end.

(** The keys in order of first occurrence, and the last value of each. *)
Definition env_step (e : list (list N) * gmap (list N) (list N)) (item : json)
    : res (list (list N) * gmap (list N) (list N)) :=
  let '(ordered, mapping) := e in
  '(k, v) ← env_item item;
  Ok (if bool_decide (is_Some (mapping !! k)) then ordered else ordered ++ [k], <[k := v]> mapping).

Definition _env (values : json) : res (list (list N) * gmap (list N) (list N)) :=
  match values with
  | JNull => Ok ([], ∅)
  | JArr items => res_foldl env_step ([], ∅) items
  | _ => DockerError "docker_invalid_environment"
  end.

Definition image_owned (k : list N) : bool := mem k _IMAGE_OWNED_ENV.

Definition _candidate_environment (current new_image : list (list N * json)) : res (list (list N)) :=
  '(current_order, active) ← _env (key "Env" current);
  '(new_order, desired) ← _env (key "Env" new_image);
  let merged_order := foldl (fun merged k =>
      if negb (image_owned k) && negb (mem k merged) then merged ++ [k] else merged)
    new_order current_order in
  let desired := filter (fun kv => image_owned kv.1 = false) (active : gmap (list N) (list N)) ∪ desired in
  res_foldl (fun acc k =>
      match desired !! k with
      | Some v => Ok (acc ++ [k ++ lit "=" ++ v])
      | None => Raise KeyError
      end) [] merged_order.

(** ** Labels *)

Definition is_jstr (v : json) : bool := match v with JStr _ => true | _ => false end.

Definition _labels (current old_image new_image : list (list N * json))
    (image_ref operation_id role target_image_id : list N) : res (list (list N * json)) :=
  active ← _object (or_empty (key "Labels" current)) "docker_invalid_labels";
  old ← _object (or_empty (key "Labels" old_image)) "docker_invalid_labels";
  new ← _object (or_empty (key "Labels" new_image)) "docker_invalid_labels";
  if negb (forallb (fun kv => is_jstr kv.2) active) then DockerError "docker_invalid_labels"
  else
    let runtime := List.filter (fun kv => negb (json_eq (dget kv.1 old) kv.2)) active in
    let labels := List.filter (fun kv => is_jstr kv.2) new in
    let labels := dupdate labels runtime in
    let labels := dpop (lit "com.docker.compose.replace") labels in
    let labels :=
      if has_key (lit "com.docker.compose.image") labels
      then dict_set (lit "com.docker.compose.image") (JStr target_image_id) labels else labels in
    Ok (dict_set ROLE_LABEL (JStr role)
         (dict_set OPERATION_LABEL (JStr operation_id)
           (dict_set IMAGE_REF_LABEL (JStr image_ref)
             (dict_set TARGET_LABEL (JStr (lit "true")) labels)))).

(** ** Networks *)

Definition hex_char (c : N) : bool := between 48 57 c || between 65 70 c || between 97 102 c.

(** [(?:[0-9A-Fa-f]{2}:){5}[0-9A-Fa-f]{2}], matched in full. *)
Definition _MAC_RE (s : list N) : bool :=
  (length s =? 17)%nat &&
  forallb (fun '(i, c) => if (i mod 3 =? 2)%nat then (c =? 58)%N else hex_char c) (imap pair s).

Definition requested_keys : list (list N) :=
  [lit "Aliases"; lit "Links"; lit "DriverOpts"; lit "IPAMConfig"; lit "GwPriority"].

Definition capture_endpoint (endpoint : list (list N * json)) : res (list (list N * json)) :=
  let requested := foldl (fun requested k =>
      let value := dget k endpoint in
      if existsb (json_eq value) [JNull; JArr []; JObj []; JStr []; JInt 0] then requested
      else dict_set k value requested) [] requested_keys in
  match key "MacAddress" endpoint with
  | JNull | JStr [] => Ok requested
  | JStr mac =>
      if _MAC_RE mac then Ok (dict_set (lit "MacAddress") (JStr mac) requested)
      else DockerError "docker_invalid_network_mac"
  | _ => DockerError "docker_invalid_network_mac"
  end.

Definition capture_networks (container : list (list N * json)) : res (list (list N * json)) :=
  settings ← _object (key "NetworkSettings" container) "docker_networks_missing";
  networks ← _object (key "Networks" settings) "docker_networks_missing";
  res_foldl (fun captured kv =>
      match kv.2 with
      | JObj endpoint =>
          requested ← capture_endpoint endpoint;
          Ok (dict_set kv.1 (JObj requested) captured)
      | _ => DockerError "docker_networks_invalid"
      end) [] networks.

(** ** Volumes *)

Definition bind_destination (raw : json) : option (list N) :=
  match raw with JStr s => split_on 58%N s !! 1%nat | _ => None end.

Definition mount_target (raw : json) : option (list N) :=
  match raw with
  | JObj m => match key "Target" m with JStr t => Some t | _ => None end
  | _ => None
  end.

Definition items_of (v : json) : list json := match v with JArr l => l | _ => [] end.
Definition members_of (v : json) : list (list N * json) := match v with JObj l => l | _ => [] end.

Definition _mount_destinations (host_config : list (list N * json)) : gset (list N) :=
  list_to_set (omap bind_destination (items_of (key "Binds" host_config)))
  ∪ list_to_set (omap mount_target (items_of (key "Mounts" host_config)))
  ∪ list_to_set (members_of (key "Tmpfs" host_config)).*1.

(** [mount.get("Name") or mount.get("Source")]. *)
Definition volume_source (mount : list (list N * json)) : json :=
  if json_truthy (key "Name" mount) then key "Name" mount else key "Source" mount.

Definition volume_mount (source destination : list N) (mount : list (list N * json)) : json :=
  JObj [(lit "Type", JStr (lit "volume")); (lit "Source", JStr source);
        (lit "Target", JStr destination);
        (lit "ReadOnly", JBool (match key "RW" mount with JBool false => true | _ => false end))].

Definition is_volume (mount : list (list N * json)) : bool :=
  json_eq (key "Type" mount) (JStr (lit "volume")).

Definition preserve_step (acc : list json * gset (list N)) (raw : json) : res (list json * gset (list N)) :=
  let '(mounts, destinations) := acc in
  match raw with
  | JObj mount =>
      if negb (is_volume mount) then Ok acc
      else
        match key "Destination" mount, volume_source mount with
        | JStr destination, JStr source =>
            if bool_decide (destination ∈ destinations) then Ok acc
            else Ok (mounts ++ [volume_mount source destination mount], {[destination]} ∪ destinations)
        | _, _ => DockerError "docker_invalid_mounts"
        end
  | _ => DockerError "docker_invalid_mounts"
  end.

Definition _preserve_anonymous_volumes (container host_config : list (list N * json))
    : res (list (list N * json)) :=
  match key "Mounts" container with
  | JArr raw_mounts =>
      let destinations := _mount_destinations host_config in
      existing ←
        match key "Mounts" host_config with
        | JNull => Ok []
        | JArr l => Ok l
        | _ => DockerError "docker_invalid_mounts"
        end;
      '(mounts, _) ← res_foldl preserve_step (existing, destinations) raw_mounts;
      Ok (if (length mounts =? 0)%nat then host_config
          else dict_set (lit "Mounts") (JArr mounts) host_config)
  | _ => Ok host_config
  end.

Definition _host_config (container : list (list N * json)) : res (list (list N * json)) :=
  value ← _object (key "HostConfig" container) "docker_host_config_missing";
  match key "AutoRemove" value with
  | JBool true => DockerError "target_auto_remove_unsupported"
  | _ =>
      let value := foldl (fun v k => dpop k v) value _DROP_HOST_CONFIG_FIELDS in
      value ← _preserve_anonymous_volumes container value;
      Ok (dict_set (lit "AutoRemove") (JBool false) value)
  end.

(** ** Ports *)

Definition concrete_binding (item : json) : res json :=
  match item with
  | JObj value =>
      match key "HostIp" value, key "HostPort" value with
      | JStr host_ip, JStr host_port =>
          if bool_decide (host_port = []) || bool_decide (host_port = lit "0")
          then DockerError "docker_assigned_port_missing"
          else Ok (JObj [(lit "HostIp", JStr host_ip); (lit "HostPort", JStr host_port)])
      | _, _ => DockerError "docker_assigned_port_missing"
      end
  | _ => DockerError "docker_invalid_port_bindings"
  end.

(** The inner function of [capture_port_bindings]. *)
Definition resolved_bindings (effective : list (list N * json)) (container_port : list N) : res json :=
  match dget container_port effective with
  | JArr ((_ :: _) as resolved) =>
      normalized ← res_foldl (fun acc item => b ← concrete_binding item; Ok (acc ++ [b])) [] resolved;
      Ok (JArr normalized)
  | _ => DockerError "docker_assigned_port_missing"
  end.

(** [any(item.get("HostPort") in {None, "", "0"} for item in items)]: stops at
    the first such item. *)
Fixpoint needs_resolution (items : list json) : res bool :=
  match items with
  | [] => Ok false
  | item :: items' =>
      b ← in_str_set [[]; lit "0"] true (key "HostPort" (members_of item));
      if (b : bool) then Ok true else needs_resolution items'
  end.

Definition is_jobj (v : json) : bool := match v with JObj _ => true | _ => false end.

Definition resolve_requested (publish_all : bool) (effective requested : list (list N * json))
    (kv : list N * json) : res (list (list N * json)) :=
  match kv.2 with
  | JNull =>
      if publish_all then b ← resolved_bindings effective kv.1; Ok (dict_set kv.1 b requested)
      else Ok requested
  | JArr items =>
      if negb (forallb is_jobj items) then DockerError "docker_invalid_port_bindings"
      else
        needs ← needs_resolution items;
        if negb (needs : bool) then Ok requested
        else b ← resolved_bindings effective kv.1; Ok (dict_set kv.1 b requested)
  | _ => DockerError "docker_invalid_port_bindings"
  end.

Definition is_null (v : json) : bool := match v with JNull => true | _ => false end.
Definition is_true (v : json) : bool := match v with JBool true => true | _ => false end.

Definition capture_port_bindings (container : list (list N * json)) : res (list (list N * json)) :=
  host ← _object (key "HostConfig" container) "docker_host_config_missing";
  requested ←
    match key "PortBindings" host with
    | JNull => Ok []
    | JObj l => Ok l
    | _ => DockerError "docker_invalid_port_bindings"
    end;
  settings ← _object (key "NetworkSettings" container) "docker_networks_missing";
  effective ←
    match key "Ports" settings with
    | JNull => Ok []
    | JObj l => Ok l
    | _ => DockerError "docker_invalid_port_bindings"
    end;
  let publish_all := is_true (key "PublishAllPorts" host) in
  requested ← res_foldl (resolve_requested publish_all effective) requested requested;
  if publish_all then
    res_foldl (fun requested kv =>
        if negb (is_null kv.2) && negb (has_key kv.1 requested)
        then b ← resolved_bindings effective kv.1; Ok (dict_set kv.1 b requested)
        else Ok requested) requested effective
  else Ok requested.

(** ** The specifications *)

Definition enabled_healthcheck (value : json) : res bool :=
  match value with
  | JObj d =>
      match items_of (key "Test" d) with
      | (first :: _ :: _) as items =>
          b ← in_str_set [lit "CMD"; lit "CMD-SHELL"] false first;
          Ok ((b : bool) && forallb is_jstr items)
      | _ => Ok false
      end
  | _ => Ok false
  end.

Definition _primary_network (host_config networks : list (list N * json)) : option (list N) :=
  match key "NetworkMode" host_config with
  | JStr mode =>
      if mem mode [lit "host"; lit "none"] then None
      else if mem mode [[]; lit "default"; lit "bridge"] then
        if has_key (lit "bridge") networks then Some (lit "bridge") else None
      else if has_key mode networks then Some mode else None
  | _ => None
  end.

(** [timeout if isinstance(timeout, int) else 10]; a [bool] is an [int]. *)
Definition int_or_10 (v : json) : Z :=
  match v with JInt z => z | JBool b => if b then 1 else 0 | _ => 10 end.

Definition _base_config (container : list (list N * json)) : res (list (list N * json)) :=
  current ← _object (key "Config" container) "docker_container_config_missing";
  let current := foldl (fun d k => dpop k d) current _DROP_CONFIG_FIELDS in
  let current :=
    match key "Id" container with
    | JStr identifier =>
        if json_eq (key "Hostname" current) (JStr (take 12 identifier))
        then dpop (lit "Hostname") current else current
    | _ => current
    end in
  Ok (dict_set (lit "StopTimeout")
        (JInt (Z.max (int_or_10 (key "StopTimeout" current)) MINIMUM_STOP_TIMEOUT)) current).

Definition secondary_mac (primary : option (list N)) (kv : list N * json) : bool :=
  negb (bool_decide (Some kv.1 = primary)) && json_truthy (key "MacAddress" (members_of kv.2)).

(** The configuration with its networks, and the networks it creates. *)
Definition _with_networking (config host_config networks : list (list N * json))
    (multi_network_create : bool) : res (list (list N * json) * list (list N)) :=
  let primary := _primary_network host_config networks in
  let config := dict_set (lit "HostConfig") (JObj host_config) config in
  if multi_network_create && negb (length networks =? 0)%nat then
    Ok (dict_set (lit "NetworkingConfig") (JObj [(lit "EndpointsConfig", JObj networks)]) config,
        networks.*1)
  else
    let config :=
      match primary with
      | None => config
      | Some p =>
          let endpoint := dget p networks in
          let config :=
            match key "MacAddress" (members_of endpoint) with
            | JStr mac => dict_set (lit "MacAddress") (JStr mac) config
            | _ => config
            end in
          dict_set (lit "NetworkingConfig")
            (JObj [(lit "EndpointsConfig", JObj [(p, endpoint)])]) config
      end in
    if existsb (secondary_mac primary) networks then DockerError "docker_secondary_mac_unsupported"
    else Ok (config, match primary with Some p => [p] | None => [] end).

(** One image-backed field: an unchanged one follows the new image. *)
Definition follow_image (old_config new_config current : list (list N * json)) (field : list N)
    : list (list N * json) :=
  if json_eq (dget field current) (dget field old_config) then
    match assoc field new_config with
    | Some v => dict_set field v current
    | None => dpop field current
    end
  else current.

Definition with_ports (port_bindings : option (list (list N * json))) (host_config : list (list N * json))
    : list (list N * json) :=
  match port_bindings with
  | Some p => dict_set (lit "PortBindings") (JObj p) host_config
  | None => host_config
  end.

Definition build_candidate_spec (container old_image new_image : list (list N * json))
    (image_ref operation_id : list N) (networks : list (list N * json))
    (port_bindings : option (list (list N * json))) (multi_network_create : bool)
    : res (list (list N * json) * list (list N)) :=
  current ← _base_config container;
  old_config ← _object (or_empty (key "Config" old_image)) "docker_old_image_config_missing";
  new_config ← _object (or_empty (key "Config" new_image)) "docker_new_image_config_missing";
  target_image_id ← image_id new_image;
  let current := dict_set (lit "Image") (JStr target_image_id) current in
  env ← _candidate_environment current new_config;
  let current := dict_set (lit "Env") (JArr (JStr <$> env)) current in
  labels ← _labels current old_config new_config image_ref operation_id (lit "candidate") target_image_id;
  let current := dict_set (lit "Labels") (JObj labels) current in
  let current := foldl (follow_image old_config new_config) current _IMAGE_BACKED_FIELDS in
  healthy ← enabled_healthcheck (key "Healthcheck" current);
  if negb (healthy : bool) then DockerError "target_healthcheck_missing"
  else
    host_config ← _host_config container;
    _with_networking current (with_ports port_bindings host_config) networks multi_network_create.

Definition build_rollback_spec (container old_image : list (list N * json))
    (image_ref operation_id : list N) (networks : list (list N * json))
    (port_bindings : option (list (list N * json))) (multi_network_create : bool)
    : res (list (list N * json) * list (list N)) :=
  current ← _base_config container;
  old_config ← _object (or_empty (key "Config" old_image)) "docker_old_image_config_missing";
  old_image_id ← image_id old_image;
  let current := dict_set (lit "Image") (JStr old_image_id) current in
  let current := dict_set (lit "Entrypoint")
    (JArr [JStr (lit "python"); JStr (lit "-m"); JStr (lit "plex_manager")]) current in
  let current := dict_set (lit "Cmd") (JArr []) current in
  labels ← _labels current old_config old_config image_ref operation_id (lit "rollback") old_image_id;
  let current := dict_set (lit "Labels") (JObj labels) current in
  healthy ← enabled_healthcheck (key "Healthcheck" current);
  if negb (healthy : bool) then DockerError "target_healthcheck_missing"
  else
    host_config ← _host_config container;
    _with_networking current (with_ports port_bindings host_config) networks multi_network_create.

Definition remaining_networks (networks : list (list N * json)) (created : list (list N))
    : list (list N * json) :=
  List.filter (fun kv => negb (mem kv.1 created)) networks.

(** ** No data volume is lost *)

Lemma _object_Ok v code l : _object v code = Ok l -> v = JObj l.
Proof. destruct v; simpl; try done. by intros [= ->]. Qed.

(** Every volume the container has mounted has its destination among the
    mounts of the host configuration. *)
Definition volumes_kept (container host_config : list (list N * json)) : Prop :=
  forall mount, JObj mount ∈ items_of (key "Mounts" container) -> is_volume mount = true ->
    exists destination, key "Destination" mount = JStr destination /\
      destination ∈ _mount_destinations host_config.

Lemma preserve_fold raw_mounts mounts dests mounts' dests' :
  res_foldl preserve_step (mounts, dests) raw_mounts = Ok (mounts', dests') ->
  (exists new, mounts' = mounts ++ new) /\
  dests' ⊆ dests ∪ list_to_set (omap mount_target mounts') /\ dests ⊆ dests' /\
  (forall mount, JObj mount ∈ raw_mounts -> is_volume mount = true ->
     exists destination, key "Destination" mount = JStr destination /\ destination ∈ dests').
Proof.
  revert mounts dests. induction raw_mounts as [|raw raws IH]; intros mounts dests.
  - intros [= <- <-]. split; [exists []; by rewrite app_nil_r|]. split; [set_solver|].
    split; [done|]. by intros mount ?%not_elem_of_nil.
  - cbn [res_foldl]. destruct (preserve_step (mounts, dests) raw) as [[m1 d1]|] eqn:Hs; [|done].
    cbn [mbind res_bind]. intros Hrun. apply IH in Hrun as ((new & ->) & Hsub & Hmono & Hall).
    assert ((exists n1, m1 = mounts ++ n1 /\ d1 ⊆ dests ∪ list_to_set (omap mount_target n1)) /\
      dests ⊆ d1 /\
      forall mount, raw = JObj mount -> is_volume mount = true ->
        exists destination, key "Destination" mount = JStr destination /\ destination ∈ d1)
      as ((n1 & -> & Hd1) & Hd & Hraw).
    { clear -Hs. unfold preserve_step in Hs. destruct raw as [| | | | | |mount]; try done.
      destruct (is_volume mount) eqn:Hv; simpl in Hs.
      - destruct (key "Destination" mount) as [| | | |destination| |] eqn:Hdest; try done.
        destruct (volume_source mount) as [| | | |source| |]; try done.
        case_bool_decide as Hin; injection Hs as <- <-.
        + split; [exists []; rewrite app_nil_r; split; [done|set_solver]|]. split; [done|].
          intros mount' [= <-] _. eauto.
        + split; [|split; [apply union_subseteq_r|]].
          * eexists. split; [done|].
            assert (omap mount_target [volume_mount source destination mount] = [destination]) as ->
              by reflexivity.
            clear. set_solver.
          * intros mount' [= <-] _. exists destination. split; [done|].
            apply elem_of_union_l. by apply elem_of_singleton.
      - injection Hs as <- <-. split; [exists []; rewrite app_nil_r; split; [done|set_solver]|].
        split; [done|]. intros mount' [= <-]. congruence. }
    split; [exists (n1 ++ new); by rewrite <- app_assoc|].
    split; [|split; [set_solver|]].
    + rewrite !omap_app, !list_to_set_app in Hsub |- *. clear -Hsub Hd1.
      intros x Hx. apply Hsub in Hx. rewrite !elem_of_union in Hx |- *.
      destruct Hx as [Hx|Hx]; [|tauto]. apply Hd1 in Hx. rewrite elem_of_union in Hx. tauto.
    + intros mount Hm Hv. apply elem_of_cons in Hm as [Hm|Hm]; [|by apply Hall].
      destruct (Hraw mount (eq_sym Hm) Hv) as (destination & ? & ?). exists destination.
      split; [done|set_solver].
Qed.

Lemma mount_destinations_pop k d : k <> lit "Binds" -> k <> lit "Mounts" -> k <> lit "Tmpfs" ->
  _mount_destinations (dpop k d) = _mount_destinations d.
Proof.
  intros H1 H2 H3. unfold _mount_destinations, key. rewrite !dget_dpop.
  by rewrite !bool_decide_false by congruence.
Qed.

Lemma mount_destinations_set k v d : k <> lit "Binds" -> k <> lit "Mounts" -> k <> lit "Tmpfs" ->
  _mount_destinations (dict_set k v d) = _mount_destinations d.
Proof.
  intros H1 H2 H3. unfold _mount_destinations, key. rewrite !dget_dict_set.
  by rewrite !bool_decide_false by congruence.
Qed.

Lemma preserve_keeps container host host' :
  _preserve_anonymous_volumes container host = Ok host' ->
  volumes_kept container host' /\ _mount_destinations host ⊆ _mount_destinations host'.
Proof.
  unfold _preserve_anonymous_volumes, volumes_kept.
  destruct (key "Mounts" container) as [| | | | |raw_mounts|];
    try (intros [= <-]; split; [by intros mount ?%not_elem_of_nil | done]).
  intros Hrun. apply bind_Ok in Hrun as (existing & Hex & Hrun).
  apply bind_Ok in Hrun as ([mounts dests] & Hfold & Hrun). injection Hrun as <-.
  apply preserve_fold in Hfold as ((new & ->) & Hsub & Hmono & Hall).
  assert (items_of (key "Mounts" host) = existing) as Hitems
    by (destruct (key "Mounts" host); try done; by injection Hex as <-).
  set (host' := if (length (existing ++ new) =? 0)%nat then host
                else dict_set (lit "Mounts") (JArr (existing ++ new)) host).
  assert (_mount_destinations host' =
    list_to_set (omap bind_destination (items_of (key "Binds" host)))
    ∪ list_to_set (omap mount_target (existing ++ new))
    ∪ list_to_set (members_of (key "Tmpfs" host)).*1) as Hdest.
  { subst host'. destruct (Nat.eqb_spec (length (existing ++ new)) 0) as [H0|].
    - apply length_zero_iff_nil, app_nil in H0 as [He ->]. rewrite app_nil_r.
      unfold _mount_destinations. by rewrite Hitems.
    - unfold _mount_destinations, key. rewrite !dget_dict_set.
      rewrite (bool_decide_false (lit "Binds" = _)), (bool_decide_false (lit "Tmpfs" = _)) by done.
      rewrite bool_decide_true by done. done. }
  assert (_mount_destinations host ⊆ _mount_destinations host') as Hkeep.
  { rewrite Hdest. unfold _mount_destinations. rewrite Hitems, omap_app, list_to_set_app. set_solver. }
  assert (dests ⊆ _mount_destinations host') as Hin by (etrans; [exact Hsub|]; rewrite Hdest in *; set_solver).
  split; [|done]. cbn [items_of]. intros mount Hm Hv.
  destruct (Hall mount Hm Hv) as (destination & ? & ?). eauto.
Qed.

Lemma host_config_keeps container host :
  _host_config container = Ok host ->
  key "AutoRemove" host = JBool false /\ volumes_kept container host /\
  _mount_destinations (members_of (key "HostConfig" container)) ⊆ _mount_destinations host.
Proof.
  unfold _host_config. intros Hrun. apply bind_Ok in Hrun as (value & Hv & Hrun).
  apply _object_Ok in Hv. rewrite Hv. cbn [members_of].
  set (popped := foldl (fun v k => dpop k v) value _DROP_HOST_CONFIG_FIELDS) in Hrun.
  assert (exists h, _preserve_anonymous_volumes container popped = Ok h /\
    host = dict_set (lit "AutoRemove") (JBool false) h) as (h & Hp & ->).
  { destruct (key "AutoRemove" value) as [|[]| | | | |]; try done;
      apply bind_Ok in Hrun as (h & Hp & Hr); injection Hr as <-; eauto. }
  apply preserve_keeps in Hp as [Hk Hsub]. split; [|split].
  - unfold key. by rewrite dget_dict_set, bool_decide_true.
  - intros mount Hm Hvol. rewrite mount_destinations_set by done. by apply Hk.
  - rewrite mount_destinations_set by done. etrans; [|exact Hsub]. subst popped.
    cbn [foldl _DROP_HOST_CONFIG_FIELDS]. by rewrite mount_destinations_pop.
Qed.

Lemma with_networking_host config host networks multi spec created :
  _with_networking config host networks multi = Ok (spec, created) ->
  key "HostConfig" spec = JObj host.
Proof.
  unfold _with_networking. intros Hrun.
  assert (forall k v (d : list (list N * json)), k <> lit "HostConfig" ->
    key "HostConfig" (dict_set k v d) = key "HostConfig" d) as Hset.
  { intros k v d Hk. unfold key. rewrite dget_dict_set. by rewrite bool_decide_false by congruence. }
  assert (key "HostConfig" (dict_set (lit "HostConfig") (JObj host) config) = JObj host) as Hh
    by (unfold key; by rewrite dget_dict_set, bool_decide_true).
  destruct (_ && _); [injection Hrun as <- <-; rewrite Hset by done; exact Hh|].
  destruct (existsb _ _); [done|]. injection Hrun as <- _.
  destruct (_primary_network host networks) as [p|]; [|done].
  rewrite Hset by done. destruct (key "MacAddress" _); try exact Hh. rewrite Hset by done. exact Hh.
Qed.

Lemma volumes_kept_ports container ports host : volumes_kept container host ->
  volumes_kept container (with_ports ports host).
Proof.
  intros Hk. destruct ports as [p|]; [|done]. intros mount Hm Hv. simpl.
  rewrite mount_destinations_set by done. by apply Hk.
Qed.

(** The host configuration of a specification. *)
Lemma spec_host container config ports networks multi spec created :
  (host ← _host_config container;
   _with_networking config (with_ports ports host) networks multi) = Ok (spec, created) ->
  exists host, key "HostConfig" spec = JObj host /\ key "AutoRemove" host = JBool false /\
    volumes_kept container host /\
    _mount_destinations (members_of (key "HostConfig" container)) ⊆ _mount_destinations host.
Proof.
  intros Hrun. apply bind_Ok in Hrun as (host & Hh & Hrun). apply with_networking_host in Hrun.
  apply host_config_keeps in Hh as (Ha & Hk & Hsub). exists (with_ports ports host).
  split; [done|]. split; [|split; [by apply volumes_kept_ports|]].
  - destruct ports; [|done]. simpl. unfold key. rewrite dget_dict_set.
    by rewrite bool_decide_false.
  - destruct ports; [|done]. simpl. by rewrite mount_destinations_set.
Qed.

(** ** The candidate's environment *)

Definition env_key (k : list N) : Prop :=
  k <> [] /\ (61%N ∉ k) /\ existsb (fun c => mem c k) [13; 10; 0]%N = false.

Lemma partition_eq_spec s k v : partition_eq s = Some (k, v) <-> s = k ++ 61%N :: v /\ 61%N ∉ k.
Proof.
  revert k; induction s as [|c s IH]; intros k; simpl.
  - split; [done|]. by intros [H%(f_equal length) _]; rewrite length_app in H; simpl in H; lia.
  - destruct (N.eqb_spec c 61) as [->|Hne].
    + split; [intros [= <- <-]; split; [done|apply not_elem_of_nil]|]. intros [H Hk].
      destruct k as [|x k]; [by injection H as ->|]. injection H as <- _. destruct Hk. left.
    + destruct (partition_eq s) as [[k0 v0]|] eqn:E; simpl.
      * split.
        -- intros [= <- <-]. destruct (proj1 (IH k0) eq_refl) as [-> Hk]. split; [done|].
           rewrite not_elem_of_cons. by split.
        -- intros [H Hk]. destruct k as [|x k]; [by injection H as -> ->|].
           injection H as <- H. rewrite not_elem_of_cons in Hk. destruct Hk as [_ Hk].
           assert (Some (k0, v0) = Some (k, v)) as [= -> ->] by (by apply IH). done.
      * split; [done|]. intros [H Hk]. destruct k as [|x k]; [by injection H as -> ->|].
        injection H as <- H. rewrite not_elem_of_cons in Hk. destruct Hk as [_ Hk].
        assert (None = Some (k, v)) by (by apply IH). done.
Qed.

Lemma env_item_spec k v : env_key k <-> env_item (JStr (k ++ lit "=" ++ v)) = Ok (k, v).
Proof.
  unfold env_key, env_item. change (lit "=" ++ v) with (61%N :: v). split.
  - intros (Hne & Heq & Hbad).
    assert (partition_eq (k ++ 61%N :: v) = Some (k, v)) as -> by (by apply partition_eq_spec).
    rewrite bool_decide_false by done. by rewrite Hbad.
  - destruct (partition_eq _) as [[k' v']|] eqn:E; [|done].
    destruct (bool_decide (k' = [])) eqn:En; [done|]. apply bool_decide_eq_false in En.
    rewrite orb_false_l. destruct (existsb (fun c => mem c k') _) eqn:Hbad; [done|]. intros [= -> ->].
    apply partition_eq_spec in E as [_ E]. done.
Qed.

Lemma env_item_Ok item k v : env_item item = Ok (k, v) -> item = JStr (k ++ lit "=" ++ v) /\ env_key k.
Proof.
  intros H. assert (item = JStr (k ++ lit "=" ++ v)) as ->.
  { destruct item as [| | | |s| |]; try done. simpl in H.
    destruct (partition_eq s) as [[k' v']|] eqn:E; [|done].
    destruct (bool_decide (k' = []) || _); [done|]. injection H as -> ->.
    by apply partition_eq_spec in E as [-> _]. }
  split; [done|]. by eapply env_item_spec.
Qed.

(** What [_env] returns: distinct keys, in order, each with its value. *)
Definition env_wf (e : list (list N) * gmap (list N) (list N)) : Prop :=
  NoDup e.1 /\ (forall k, k ∈ e.1 <-> is_Some (e.2 !! k)) /\ Forall env_key e.1.

Lemma env_step_wf e item e' : env_wf e -> env_step e item = Ok e' -> env_wf e'.
Proof.
  destruct e as [o m]. intros (Hnd & Hdom & Hkey) Hs. apply bind_Ok in Hs as ([k v] & Hi & [= <-]).
  apply env_item_Ok in Hi as [_ Hk]. cbn [fst snd] in *. unfold env_wf; cbn [fst snd].
  case_bool_decide as Hin.
  - split; [done|]. split; [|done]. intros x. rewrite Hdom. destruct (decide (x = k)) as [->|].
    + rewrite lookup_insert_eq. naive_solver.
    + by rewrite lookup_insert_ne.
  - split; [|split].
    + apply NoDup_app. split; [done|]. split; [|apply NoDup_singleton].
      intros x Hx ->%list_elem_of_singleton. by apply Hin, Hdom.
    + intros x. rewrite elem_of_app, list_elem_of_singleton, Hdom. destruct (decide (x = k)) as [->|].
      * rewrite lookup_insert_eq. naive_solver.
      * rewrite lookup_insert_ne by done. naive_solver.
    + apply Forall_app. split; [done|]. by apply Forall_singleton.
Qed.

Lemma env_wf_Ok values e : _env values = Ok e -> env_wf e.
Proof.
  assert (env_wf ([], ∅)) as H0.
  { split; [constructor|]. split; [|constructor]. intros k. cbn. rewrite lookup_empty.
    split; [by intros ?%not_elem_of_nil | by intros []]. }
  unfold _env. destruct values as [| | | | |items|]; try done; [by intros [= <-]|].
  revert H0. generalize (@nil (list N), (∅ : gmap (list N) (list N))).
  induction items as [|item items IH]; intros e0 H0; [by intros [= <-]|].
  cbn [res_foldl]. intros H. apply bind_Ok in H as (e1 & Hs & H). apply (IH e1); [|done].
  by eapply env_step_wf.
Qed.

(** Writing out distinct keys and reading them back. *)
Lemma env_fold_written (val : gmap (list N) (list N)) ks o m :
  NoDup ks -> Forall env_key ks -> (forall k, k ∈ ks -> m !! k = None) ->
  (forall k, k ∈ ks -> is_Some (val !! k)) ->
  exists m', res_foldl env_step (o, m)
    ((fun k => JStr (k ++ lit "=" ++ default [] (val !! k))) <$> ks) = Ok (o ++ ks, m') /\
  forall i, m' !! i = if mem i ks then val !! i else m !! i.
Proof.
  intros Hnd. revert o m. induction Hnd as [|k ks Hk Hnd IH]; intros o m Hkey Hm Hval.
  - exists m. cbn. by rewrite app_nil_r.
  - inversion Hkey as [|? ? Hk1 Hks]; subst. rewrite fmap_cons. cbn [res_foldl].
    destruct (Hval k ltac:(left)) as [v Hv].
    assert (env_step (o, m) (JStr (k ++ lit "=" ++ default [] (val !! k))) = Ok (o ++ [k], <[k := v]> m)) as ->.
    { unfold env_step. rewrite Hv. change (default [] (Some v)) with v. rewrite (proj1 (env_item_spec k v) Hk1).
      cbn [mbind res_bind]. rewrite bool_decide_false; [done|]. rewrite (Hm k ltac:(left)). by intros []. }
    cbn [mbind res_bind].
    destruct (IH (o ++ [k]) (<[k := v]> m)) as (m' & Hrun & Hm'); [done| | |].
    + intros x Hx. rewrite lookup_insert_ne by congruence. apply Hm. by right.
    + intros x Hx. apply Hval. by right.
    + exists m'. split; [by rewrite Hrun, <- app_assoc|]. intros i. rewrite Hm'.
      destruct (decide (i = k)) as [->|Hne].
      * rewrite (proj2 (mem_false k ks)), (proj2 (mem_true k (k :: ks))) by (done || left).
        by rewrite lookup_insert_eq, Hv.
      * rewrite lookup_insert_ne by done. destruct (mem i ks) eqn:E.
        -- apply mem_true in E. by rewrite (proj2 (mem_true i (k :: ks))) by (by right).
        -- apply mem_false in E. rewrite (proj2 (mem_false i (k :: ks))); [done|].
           rewrite elem_of_cons. naive_solver.
Qed.

(** The merged order: the new image's keys, then the others kept. *)
Lemma merged_order_spec current new :
  let merged := foldl (fun merged k =>
      if negb (image_owned k) && negb (mem k merged) then merged ++ [k] else merged) new current in
  NoDup new -> NoDup merged /\
  forall k, k ∈ merged <-> k ∈ new \/ (k ∈ current /\ image_owned k = false).
Proof.
  revert new; induction current as [|k current IH]; intros new merged Hnd.
  - split; [done|]. intros k. split; [by left|]. intros [|[H _]]; [done|]. by apply not_elem_of_nil in H.
  - subst merged. cbn [foldl].
    set (new' := if negb (image_owned k) && negb (mem k new) then new ++ [k] else new).
    assert (NoDup new' /\ forall x, x ∈ new' <-> x ∈ new \/ (x = k /\ image_owned k = false)) as [Hnd' Hin'].
    { subst new'. destruct (image_owned k) eqn:Ho; simpl.
      - split; [done|]. naive_solver.
      - destruct (mem k new) eqn:Hm; simpl.
        + apply mem_true in Hm. split; [done|]. naive_solver.
        + apply mem_false in Hm. split.
          * apply NoDup_app. split; [done|]. split; [|apply NoDup_singleton].
            by intros x Hx ->%list_elem_of_singleton.
          * intros x. rewrite elem_of_app, list_elem_of_singleton. naive_solver. }
    destruct (IH new' Hnd') as [H1 H2]. split; [done|]. intros x. rewrite H2, Hin', elem_of_cons.
    naive_solver.
Qed.

Lemma env_written (val : gmap (list N) (list N)) ks acc : (forall k, k ∈ ks -> is_Some (val !! k)) ->
  res_foldl (fun acc k =>
      match val !! k with
      | Some v => Ok (acc ++ [k ++ lit "=" ++ v])
      | None => Raise KeyError
      end) acc ks =
  Ok (acc ++ ((fun k => k ++ lit "=" ++ default [] (val !! k)) <$> ks)).
Proof.
  revert acc; induction ks as [|k ks IH]; intros acc Hval; cbn [res_foldl].
  - by rewrite app_nil_r.
  - destruct (Hval k ltac:(left)) as [v Hv]. rewrite Hv. cbn [mbind res_bind]. rewrite IH.
    + rewrite fmap_cons, Hv. by rewrite <- app_assoc.
    + intros x Hx. apply Hval. by right.
Qed.

(** The value the merge gives a key. *)
Definition merged_value (active desired : gmap (list N) (list N)) (k : list N) : option (list N) :=
  if image_owned k then desired !! k
  else match active !! k with Some v => Some v | None => desired !! k end.

Lemma merged_lookup (active desired : gmap (list N) (list N)) k :
  (filter (fun kv => image_owned kv.1 = false) active ∪ desired) !! k = merged_value active desired k.
Proof.
  unfold merged_value. rewrite lookup_union, map_lookup_filter.
  destruct (active !! k) as [v|]; simpl; destruct (image_owned k) eqn:Ho; simpl;
    try rewrite Ho; try done; by destruct (desired !! k).
Qed.

(** The candidate's environment is the merge it is meant to be.  When both
    environments are well formed the merge never fails, and reading its output
    back gives, for every key: the new image's value for a key the image owns,
    otherwise the running container's value, or the new image's when the
    container has none; no key is written twice. *)
Theorem candidate_environment_merges (current new_image : list (list N * json)) (ao no : list (list N))
    (active desired : gmap (list N) (list N)) :
  _env (key "Env" current) = Ok (ao, active) -> _env (key "Env" new_image) = Ok (no, desired) ->
  exists env order written,
    _candidate_environment current new_image = Ok env /\
    _env (JArr (JStr <$> env)) = Ok (order, written) /\
    NoDup order /\ length order = length env /\
    forall k, written !! k = merged_value active desired k.
Proof.
  intros Ha Hn. destruct (env_wf_Ok _ _ Ha) as (_ & Had & Hak). destruct (env_wf_Ok _ _ Hn) as (Hnn & Hnd & Hnk).
  cbn [fst snd] in *. unfold _candidate_environment. rewrite Ha, Hn. cbn [mbind res_bind].
  destruct (merged_order_spec ao no Hnn) as [Hm Hin]. revert Hm Hin.
  match goal with |- context [foldl ?f no ao] => set (merged := foldl f no ao) end. intros Hm Hin.
  set (val := filter _ active ∪ desired).
  assert (forall k, val !! k = merged_value active desired k) as Hval by apply merged_lookup.
  assert (forall k, k ∈ merged <-> is_Some (val !! k)) as Hdom.
  { intros k. rewrite Hin, Had, Hnd, Hval. unfold merged_value.
    destruct (image_owned k); [naive_solver|]. destruct (active !! k) eqn:E; naive_solver. }
  assert (Forall env_key merged) as Hkeys.
  { apply Forall_forall. intros k Hk. rewrite Forall_forall in Hak, Hnk. apply Hin in Hk as [?|[? _]]; auto. }
  rewrite (env_written val) by (intros; by apply Hdom).
  destruct (env_fold_written val merged [] ∅) as (m' & Hrun & Hm'); [done|done|done| |].
  { intros k Hk. by apply Hdom. }
  eexists _, _, m'. split; [reflexivity|]. split; [|split; [exact Hm|split]].
  - unfold _env. rewrite app_nil_l, <- list_fmap_compose. rewrite app_nil_l in Hrun. exact Hrun.
  - by rewrite app_nil_l, length_fmap.
  - intros k. rewrite Hm', <- Hval. destruct (mem k merged) eqn:E; [done|].
    apply mem_false in E. rewrite lookup_empty. symmetry. apply eq_None_not_Some. by rewrite <- Hdom.
Qed.

(** ** No data volume is lost: the theorem *)

(** A specification of either builder. *)
Definition recreates (container old_image new_image : list (list N * json)) image_ref operation_id
    networks ports multi (spec : list (list N * json)) (created : list (list N)) : Prop :=
  build_candidate_spec container old_image new_image image_ref operation_id networks ports multi
    = Ok (spec, created) \/
  build_rollback_spec container old_image image_ref operation_id networks ports multi
    = Ok (spec, created).


(** ** Concrete documents *)

Definition sample_env (l : list string) : list (list N * json) :=
  [(lit "Env", JArr ((fun s => JStr (lit s)) <$> l))].

Lemma candidate_environment_merges_witness :
  exists env order written,
    _candidate_environment (sample_env ["TZ=UTC"; "PLEX_MANAGER_BUILD_ID=41"])
      (sample_env ["PLEX_MANAGER_BUILD_ID=42"; "TZ=Etc/UTC"; "LANG=C"]) = Ok env /\
    _env (JArr (JStr <$> env)) = Ok (order, written) /\ NoDup order /\ length order = length env /\
    forall k, written !! k =
      merged_value {[lit "TZ" := lit "UTC"; lit "PLEX_MANAGER_BUILD_ID" := lit "41"]}
        {[lit "PLEX_MANAGER_BUILD_ID" := lit "42"; lit "TZ" := lit "Etc/UTC"; lit "LANG" := lit "C"]} k.
Proof.
  apply (candidate_environment_merges (sample_env ["TZ=UTC"; "PLEX_MANAGER_BUILD_ID=41"])
    (sample_env ["PLEX_MANAGER_BUILD_ID=42"; "TZ=Etc/UTC"; "LANG=C"])
    [lit "TZ"; lit "PLEX_MANAGER_BUILD_ID"] [lit "PLEX_MANAGER_BUILD_ID"; lit "TZ"; lit "LANG"]);
    vm_compute; reflexivity.
Defined.

Definition sample_image (digest : string) : list (list N * json) :=
  [(lit "Id", JStr (lit digest)); (lit "Config", JObj [(lit "Labels", JNull)])].

Definition sample_container : list (list N * json) :=
  [(lit "Id", JStr (lit "0123456789abcdef"));
   (lit "Config", JObj [(lit "Hostname", JStr (lit "0123456789ab"));
      (lit "Healthcheck", JObj [(lit "Test", JArr [JStr (lit "CMD"); JStr (lit "true")])])]);
   (lit "HostConfig", JObj [(lit "NetworkMode", JStr (lit "bridge"));
      (lit "Binds", JArr [JStr (lit "/srv/media:/media:ro")])]);
   (lit "Mounts", JArr [JObj [(lit "Type", JStr (lit "volume")); (lit "Name", JStr (lit "pm-data"));
      (lit "Destination", JStr (lit "/data")); (lit "RW", JBool true)]])].

Definition sample_spec : list (list N * json) :=
  match build_rollback_spec sample_container (sample_image "sha256:aa") (lit "pm:latest") (lit "op")
          [] None false with
  | Ok (spec, _) => spec
  | Raise _ => []
  end.


Example sample_mounts : exists host, key "HostConfig" sample_spec = JObj host /\
  _mount_destinations host = {[lit "/data"; lit "/media"]}.
Proof. eexists. split; vm_compute; reflexivity. Qed.
