(* ===== verification/UpdaterState.v ===== *)
(** * The updater's state file ([updater/state.py])

    The write-ahead record of one install attempt: its fields, the validation
    of a record read back ([from_json], every [StateError]), and the text [save]
    writes and [load] reads.  The file itself is in [StateStore]. *)

From Stdlib Require Import ZArith Lia Bool String SpecFloat.
From S2P Require Import Prelude PyStr PyNum PyInt PyBytes Json.

#[local] Open Scope bool_scope.

(** ** The record *)

Inductive UpdateStage : Type :=
  | prepared | stop_requested | old_stopped | old_disconnected | candidate_created
  | candidate_started | candidate_healthy | old_renamed | candidate_renamed
  | outcome_acknowledged | rollback_requested | rollback_created | rollback_networked
  | rollback_started | rollback_healthy | rollback_acknowledged.

#[export] Instance UpdateStage_eq_dec : EqDecision UpdateStage.
Proof. solve_decision. Defined.

Definition stage_str (s : UpdateStage) : list N :=
  lit match s with
  | prepared => "prepared" | stop_requested => "stop_requested" | old_stopped => "old_stopped"
  | old_disconnected => "old_disconnected" | candidate_created => "candidate_created"
  | candidate_started => "candidate_started" | candidate_healthy => "candidate_healthy"
  | old_renamed => "old_renamed" | candidate_renamed => "candidate_renamed"
  | outcome_acknowledged => "outcome_acknowledged" | rollback_requested => "rollback_requested"
  | rollback_created => "rollback_created" | rollback_networked => "rollback_networked"
  | rollback_started => "rollback_started" | rollback_healthy => "rollback_healthy"
  | rollback_acknowledged => "rollback_acknowledged"
  end.

Definition _STAGES : list UpdateStage :=
  [prepared; stop_requested; old_stopped; old_disconnected; candidate_created; candidate_started;
   candidate_healthy; old_renamed; candidate_renamed; outcome_acknowledged; rollback_requested;
   rollback_created; rollback_networked; rollback_started; rollback_healthy; rollback_acknowledged].

Definition _CANDIDATE_STAGES : list UpdateStage :=
  [candidate_created; candidate_started; candidate_healthy; old_renamed; candidate_renamed;
   outcome_acknowledged].

Definition _ROLLBACK_STAGES : list UpdateStage :=
  [rollback_created; rollback_networked; rollback_started; rollback_healthy; rollback_acknowledged].

(** [stage in _STAGES], with the member found. *)
Definition stage_of_str (s : list N) : option UpdateStage :=
  list_find (fun st => stage_str st = s) _STAGES ≫= fun p => Some p.2.

(** [version] is always 1 and [operation] always ["install"]. *)
Record UpdateState := {
  operation_id : list N;
  stage : UpdateStage;
  lease_token : list N;
  action_generation : Z;
  target_id : list N;
  old_image_id : list N;
  old_digest : option (list N);
  old_build : option (list N);
  desired_image_id : list N;
  desired_digest : list N;
  desired_build : option (list N);
  networks : list (list N * json);
  port_bindings : list (list N * json);
  stop_timeout_seconds : Z;
  candidate_id : option (list N);
  rollback_id : option (list N);
  detail_code : option (list N);
}.

(** ** [UpdateState.from_json] *)

(** [data.get(key)]: an absent key and [null] are both [None]. *)
Definition get (key : string) (data : list (list N * json)) : json :=
  default JNull (assoc (lit key) data).

(** [value == 1]: [True] and [1.0] equal 1 too. *)
Definition eq_one (v : json) : bool :=
  match v with
  | JInt z => (z =? 1)%Z
  | JBool b => b
  | JFloat f => feq f (float_of_int 1)
  | _ => false
  end.

Definition eq_str (s : string) (v : json) : bool :=
  match v with JStr t => bool_decide (t = lit s) | _ => false end.

(** [isinstance(v, str)] and [not v]. *)
Definition is_str (v : json) : bool := match v with JStr _ => true | _ => false end.
Definition nonempty_str (v : json) : bool :=
  match v with JStr s => negb (bool_decide (s = [])) | _ => false end.

(** The value of a field already known to be a string, an optional one, ... *)
Definition as_str (v : json) : list N := match v with JStr s => s | _ => [] end.
Definition as_opt_str (v : json) : option (list N) := match v with JStr s => Some s | _ => None end.
Definition optional_str (v : json) : bool := match v with JNull | JStr _ => true | _ => false end.

(** An [int] that is not a [bool] and lies in the range. *)
Definition int_where (p : Z -> bool) (v : json) : option Z :=
  match v with JInt z => if p z then Some z else None | _ => None end.

Definition StateError {A} (msg : list N) : res A := Raise (ProgramError "StateError" msg).

Definition required_strings : list string :=
  ["operation_id"; "stage"; "lease_token"; "target_id"; "old_image_id"; "desired_image_id";
   "desired_digest"]%string.

Definition optional_strings : list string :=
  ["old_digest"; "old_build"; "desired_build"; "candidate_id"; "rollback_id"; "detail_code"]%string.

(** [data.get("stop_timeout_seconds", 10)]: a stored [null] stays [None]. *)
Definition get_stop_timeout (data : list (list N * json)) : json :=
  default (JInt 10) (assoc (lit "stop_timeout_seconds") data).

Definition from_json (value : json) : res UpdateState :=
  match value with
  | JObj data =>
    if negb (eq_one (get "version" data)) || negb (eq_str "install" (get "operation" data)) then
      StateError (lit "unsupported updater state version or operation")
    else if existsb (fun key => negb (nonempty_str (get key data))) required_strings then
      StateError (lit "updater state is missing required identifiers")
    else
    match get "networks" data with
    | JObj networks =>
      match int_where (fun g => 0 <=? g)%Z (get "action_generation" data) with
      | None => StateError (lit "updater state has invalid action generation")
      | Some generation =>
        match get "port_bindings" data with
        | JObj port_bindings =>
          match int_where (fun t => (0 <=? t) && (t <=? 300))%Z (get_stop_timeout data) with
          | None => StateError (lit "updater state has invalid stop timeout")
          | Some stop_timeout =>
            match stage_of_str (as_str (get "stage" data)) with
            | None => StateError (lit "updater state has an unknown stage")
            | Some stage =>
              match List.find (fun key => negb (optional_str (get key data))) optional_strings with
              | Some key => StateError (lit "updater state field " ++ lit key ++ lit " is invalid")
              | None =>
                if mem stage _CANDIDATE_STAGES && negb (is_str (get "candidate_id" data)) then
                  StateError (lit "updater state stage requires a candidate container")
                else if mem stage _ROLLBACK_STAGES && negb (is_str (get "rollback_id" data)) then
                  StateError (lit "updater state stage requires a rollback container")
                else Ok {|
                  operation_id := as_str (get "operation_id" data);
                  stage := stage;
                  lease_token := as_str (get "lease_token" data);
                  action_generation := generation;
                  target_id := as_str (get "target_id" data);
                  old_image_id := as_str (get "old_image_id" data);
                  old_digest := as_opt_str (get "old_digest" data);
                  old_build := as_opt_str (get "old_build" data);
                  desired_image_id := as_str (get "desired_image_id" data);
                  desired_digest := as_str (get "desired_digest" data);
                  desired_build := as_opt_str (get "desired_build" data);
                  networks := networks;
                  port_bindings := port_bindings;
                  stop_timeout_seconds := stop_timeout;
                  candidate_id := as_opt_str (get "candidate_id" data);
                  rollback_id := as_opt_str (get "rollback_id" data);
                  detail_code := as_opt_str (get "detail_code" data) |}
              end
            end
          end
        | _ => StateError (lit "updater state has invalid port bindings")
        end
      end
    | _ => StateError (lit "updater state has invalid network data")
    end
  | _ => StateError (lit "updater state must be a JSON object")
  end.

(** ** [asdict] *)

Definition jopt (s : option (list N)) : json := match s with Some s => JStr s | None => JNull end.

Definition asdict (st : UpdateState) : list (list N * json) :=
  [(lit "version", JInt 1);
   (lit "operation_id", JStr (operation_id st));
   (lit "operation", JStr (lit "install"));
   (lit "stage", JStr (stage_str (stage st)));
   (lit "lease_token", JStr (lease_token st));
   (lit "action_generation", JInt (action_generation st));
   (lit "target_id", JStr (target_id st));
   (lit "old_image_id", JStr (old_image_id st));
   (lit "old_digest", jopt (old_digest st));
   (lit "old_build", jopt (old_build st));
   (lit "desired_image_id", JStr (desired_image_id st));
   (lit "desired_digest", JStr (desired_digest st));
   (lit "desired_build", jopt (desired_build st));
   (lit "networks", JObj (networks st));
   (lit "port_bindings", JObj (port_bindings st));
   (lit "stop_timeout_seconds", JInt (stop_timeout_seconds st));
   (lit "candidate_id", jopt (candidate_id st));
   (lit "rollback_id", jopt (rollback_id st));
   (lit "detail_code", jopt (detail_code st))].

(** ** [StateStore.save] and [load], as texts *)

Section codec.
Context {FT : FloatText}.

(** The payload [save] writes. *)
Definition encode_state (st : UpdateState) : list N :=
  dumps (compact true) (JObj (asdict st)) ++ [10%N].

(** [UpdateState.from_json(json.loads(raw))] under its [except]: the digit
    limit is a plain [ValueError], which that clause does not catch. *)
Definition parse_state (raw : list N) : res UpdateState :=
  match loads raw with
  | JOk v => from_json v
  | JErr JDecodeError => StateError (lit "updater state is corrupt")
  | JErr _ => Raise (ValueError (lit "Exceeds the limit for integer string conversion"))
  end.

(** [load], given what reading the file yields: its bytes, or an [OSError].
    [read_text] decodes outside the clause that catches [UnicodeError]. *)
Definition load (file : res (list N)) : res (option UpdateState) :=
  match file with
  | Raise FileNotFoundError => Ok None
  | Raise OSError => StateError (lit "updater state could not be read")
  | Raise e => Raise e
  | Ok bytes =>
      match utf8_decode bytes with
      | None => Raise UnicodeError
      | Some raw => st ← parse_state (universal_newlines raw); Ok (Some st)
      end
  end.

(** ** What [from_json] accepts *)

Definition state_ok (st : UpdateState) : bool :=
  forallb (fun s : list N => negb (bool_decide (s = [])))
    [operation_id st; lease_token st; target_id st; old_image_id st; desired_image_id st;
     desired_digest st]
  && (0 <=? action_generation st)%Z
  && ((0 <=? stop_timeout_seconds st) && (stop_timeout_seconds st <=? 300))%Z
  && (negb (mem (stage st) _CANDIDATE_STAGES) || bool_decide (is_Some (candidate_id st)))
  && (negb (mem (stage st) _ROLLBACK_STAGES) || bool_decide (is_Some (rollback_id st))).

Lemma stage_of_str_str s : stage_of_str (stage_str s) = Some s.
Proof. by destruct s. Qed.

Lemma stage_of_str_Some t s : stage_of_str t = Some s -> stage_str s = t.
Proof.
  unfold stage_of_str. destruct (list_find _ _) as [[i s']|] eqn:Hf; simpl; [|done].
  intros [= <-]. by apply list_find_Some in Hf as (_ & ? & _).
Qed.

Lemma existsb_ext {A} (f g : A -> bool) l : (forall x, f x = g x) -> existsb f l = existsb g l.
Proof. intros Hfg. induction l as [|x l IH]; simpl; [done|]. by rewrite Hfg, IH. Qed.

Lemma find_ext {A} (f g : A -> bool) l : (forall x, f x = g x) -> List.find f l = List.find g l.
Proof. intros Hfg. induction l as [|x l IH]; simpl; [done|]. by rewrite Hfg, IH. Qed.

(** Only the lookups matter: the order of the keys does not. *)
Lemma get_ext d d' key : (forall k, assoc k d = assoc k d') -> get key d = get key d'.
Proof. intros He. unfold get. by rewrite He. Qed.

Lemma from_json_ext d d' : (forall k, assoc k d = assoc k d') ->
  from_json (JObj d) = from_json (JObj d').
Proof.
  intros He. unfold from_json.
  rewrite !(fun key => get_ext d d' key He).
  assert (get_stop_timeout d = get_stop_timeout d') as -> by (unfold get_stop_timeout; by rewrite He).
  assert (existsb (fun key => negb (nonempty_str (get key d))) required_strings =
          existsb (fun key => negb (nonempty_str (get key d'))) required_strings) as ->.
  { apply existsb_ext. intros key. by rewrite (get_ext d d' key He). }
  assert (List.find (fun key => negb (optional_str (get key d))) optional_strings =
          List.find (fun key => negb (optional_str (get key d'))) optional_strings) as ->.
  { apply find_ext. intros key. by rewrite (get_ext d d' key He). }
  done.
Qed.

Lemma assoc_perm {V} (d d' : list (list N * V)) k : NoDup d.*1 -> d ≡ₚ d' -> assoc k d = assoc k d'.
Proof.
  intros Hnd Hp. assert (NoDup d'.*1) as Hnd' by (by rewrite <- Hp).
  assert (forall (e : list (list N * V)) v, NoDup e.*1 -> assoc k e = Some v <-> (k, v) ∈ e) as Hin.
  { intros e v. induction e as [|[k' v'] e IH]; intros He; simpl.
    - split; [done|]. by intros ?%not_elem_of_nil.
    - inversion He as [|? ? Hk' He']; subst. rewrite elem_of_cons. case_bool_decide as Hk.
      + subst k'. split; [by intros [= ->]; left|]. intros [[= ->]|Hv]; [done|].
        destruct Hk'. apply list_elem_of_fmap. by exists (k, v).
      + rewrite IH by done. split; [by right|]. intros [[= -> _]|]; done. }
  destruct (assoc k d) as [v|] eqn:E.
  - symmetry. apply Hin; [done|]. rewrite <- Hp. by apply Hin.
  - destruct (assoc k d') as [v|] eqn:E'; [|done]. apply Hin in E'; [|done].
    rewrite <- Hp in E'. apply Hin in E'; [|done]. congruence.
Qed.

(** The record [load] returns for a saved one: the same, with the keys inside
    [networks] and [port_bindings] sorted (the order of a dict is not compared
    by Python). *)
Definition sort_members (d : list (list N * json)) : list (list N * json) :=
  ordered true ((fun kv => (kv.1, norm true kv.2)) <$> d).

Definition sort_state (st : UpdateState) : UpdateState := {|
  operation_id := operation_id st; stage := stage st; lease_token := lease_token st;
  action_generation := action_generation st; target_id := target_id st;
  old_image_id := old_image_id st; old_digest := old_digest st; old_build := old_build st;
  desired_image_id := desired_image_id st; desired_digest := desired_digest st;
  desired_build := desired_build st; networks := sort_members (networks st);
  port_bindings := sort_members (port_bindings st);
  stop_timeout_seconds := stop_timeout_seconds st; candidate_id := candidate_id st;
  rollback_id := rollback_id st; detail_code := detail_code st |}.

Lemma asdict_sort_state st : (fun kv => (kv.1, norm true kv.2)) <$> asdict st = asdict (sort_state st).
Proof. destruct st as [? ? ? ? ? ? [] [] ? ? [] ? ? ? [] [] []]; reflexivity. Qed.

Lemma asdict_NoDup st : NoDup (asdict st).*1.
Proof. apply (bool_decide_unpack _). vm_compute. exact I. Qed.

Lemma as_opt_str_jopt s : as_opt_str (jopt s) = s.
Proof. by destruct s. Qed.
Lemma optional_str_jopt s : optional_str (jopt s) = true.
Proof. by destruct s. Qed.
Lemma is_str_jopt s : is_str (jopt s) = bool_decide (is_Some s).
Proof. destruct s; symmetry; [by apply bool_decide_eq_true; eauto | apply bool_decide_eq_false]. by intros []. Qed.

Lemma find_none_forallb {A} (f : A -> bool) l : forallb f l = true ->
  List.find (fun x => negb (f x)) l = None.
Proof.
  induction l as [|x l IH]; simpl; [done|]. intros H. apply andb_true_iff in H as [-> H].
  by apply IH.
Qed.

Lemma required_asdict st :
  existsb (fun key => negb (nonempty_str (get key (asdict st)))) required_strings =
  negb (forallb (fun s : list N => negb (bool_decide (s = [])))
    [operation_id st; lease_token st; target_id st; old_image_id st; desired_image_id st;
     desired_digest st]).
Proof.
  transitivity (existsb (fun s : list N => negb (negb (bool_decide (s = []))))
    [operation_id st; stage_str (stage st); lease_token st; target_id st; old_image_id st;
     desired_image_id st; desired_digest st]); [reflexivity|].
  cbn [existsb forallb]. rewrite !negb_involutive, !negb_andb, !negb_involutive.
  assert (bool_decide (stage_str (stage st) = []) = false) as -> by (by destruct (stage st)).
  done.
Qed.

Lemma optional_asdict st :
  List.find (fun key => negb (optional_str (get key (asdict st)))) optional_strings = None.
Proof.
  apply find_none_forallb. unfold optional_strings. cbn [forallb].
  repeat match goal with |- context [get ?k (asdict st)] =>
    let v := eval cbv -[old_digest old_build desired_build candidate_id rollback_id detail_code jopt]
      in (get k (asdict st)) in change (get k (asdict st)) with v end.
  by rewrite !optional_str_jopt.
Qed.

(** Reading a record back gives it, exactly when it is well formed. *)
Lemma from_json_asdict st :
  from_json (JObj (asdict st)) = Ok st <-> state_ok st = true.
Proof.
  unfold from_json. rewrite required_asdict, optional_asdict.
  assert (get "version" (asdict st) = JInt 1) as -> by reflexivity.
  assert (get "operation" (asdict st) = JStr (lit "install")) as -> by reflexivity.
  assert (get "stage" (asdict st) = JStr (stage_str (stage st))) as -> by reflexivity.
  assert (get "networks" (asdict st) = JObj (networks st)) as -> by reflexivity.
  assert (get "port_bindings" (asdict st) = JObj (port_bindings st)) as -> by reflexivity.
  assert (get "action_generation" (asdict st) = JInt (action_generation st)) as -> by reflexivity.
  assert (get_stop_timeout (asdict st) = JInt (stop_timeout_seconds st)) as -> by reflexivity.
  assert (get "candidate_id" (asdict st) = jopt (candidate_id st)) as -> by reflexivity.
  assert (get "rollback_id" (asdict st) = jopt (rollback_id st)) as -> by reflexivity.
  assert (get "old_digest" (asdict st) = jopt (old_digest st)) as -> by reflexivity.
  assert (get "old_build" (asdict st) = jopt (old_build st)) as -> by reflexivity.
  assert (get "desired_build" (asdict st) = jopt (desired_build st)) as -> by reflexivity.
  assert (get "detail_code" (asdict st) = jopt (detail_code st)) as -> by reflexivity.
  cbn [as_str]. rewrite stage_of_str_str, !as_opt_str_jopt, !is_str_jopt.
  change (negb (eq_one (JInt 1)) || negb (eq_str "install" (JStr (lit "install")))) with false.
  cbv iota. unfold state_ok.
  destruct (forallb _ _); [|done]. cbn [negb andb int_where]. cbv beta.
  destruct (0 <=? action_generation st)%Z; [|done]. cbn [andb].
  destruct ((0 <=? stop_timeout_seconds st) && (stop_timeout_seconds st <=? 300))%Z; [|done].
  destruct (mem (stage st) _CANDIDATE_STAGES), (bool_decide (is_Some (candidate_id st))),
    (mem (stage st) _ROLLBACK_STAGES), (bool_decide (is_Some (rollback_id st)));
    cbn [negb andb orb]; (split; [try done|done || intros _]); by destruct st.
Qed.

(** A record the codec can carry: its texts have no split surrogate pair, its
    integers are printable, its dicts have distinct keys and no float. *)
Definition storable (st : UpdateState) : Prop :=
  json_ok (JObj (asdict st)) /\ float_free (JObj (asdict st)) = true.

Lemma is_str_Some v : is_str v = true -> is_Some (as_opt_str v).
Proof. destruct v; simpl; done || eauto. Qed.

(** [from_json] has two outcomes only. *)
Lemma from_json_cases v :
  (exists st, from_json v = Ok st /\ state_ok st = true) \/
  (exists msg, from_json v = StateError msg).
Proof.
  destruct v as [| | | | | |d]; try (right; by eexists). unfold from_json.
  destruct (_ || _); [right; by eexists|].
  destruct (existsb _ _) eqn:Hreq; [right; by eexists|].
  destruct (get "networks" d); try (right; by eexists).
  destruct (int_where _ (get "action_generation" d)) as [g|] eqn:Hg; [|right; by eexists].
  destruct (get "port_bindings" d); try (right; by eexists).
  destruct (int_where _ (get_stop_timeout d)) as [sto|] eqn:Hsto; [|right; by eexists].
  destruct (stage_of_str _) as [stg|]; [|right; by eexists].
  destruct (List.find _ _); [right; by eexists|].
  destruct (mem stg _CANDIDATE_STAGES && _) eqn:Hc; [right; by eexists|].
  destruct (mem stg _ROLLBACK_STAGES && _) eqn:Hr; [right; by eexists|].
  left. eexists. split; [done|]. unfold state_ok. cbn [operation_id lease_token target_id
    old_image_id desired_image_id desired_digest action_generation stop_timeout_seconds stage
    candidate_id rollback_id].
  assert (forall p v z, int_where p v = Some z -> p z = true) as Hint.
  { intros p0 v z. destruct v as [| |n| | | |]; simpl; try done.
    destruct (p0 n) eqn:E; [|done]. by intros [= ->]. }
  apply Hint in Hg, Hsto. rewrite Hg, Hsto.
  assert (forall key, key ∈ required_strings -> as_str (get key d) <> []) as Hne.
  { intros key Hk Hn. assert (existsb (fun key => negb (nonempty_str (get key d))) required_strings = true);
      [|congruence]. apply existsb_exists_iff. exists key. split; [done|].
    destruct (get key d) as [| | | |s| |]; try done. simpl in *. by subst. }
  rewrite !andb_true_iff. repeat split; [| |].
  - apply forallb_forall_iff. intros s Hs. apply negb_true_iff, bool_decide_eq_false.
    rewrite !elem_of_cons in Hs. destruct Hs as [->|[->|[->|[->|[->|[->|Hs]]]]]].
    7: by apply not_elem_of_nil in Hs.
    all: apply Hne; unfold required_strings; rewrite !elem_of_cons; auto 10.
  - destruct (mem stg _CANDIDATE_STAGES); [|done]. simpl in *. apply bool_decide_eq_true.
    by apply is_str_Some, negb_false_iff.
  - destruct (mem stg _ROLLBACK_STAGES); [|done]. simpl in *. apply bool_decide_eq_true.
    by apply is_str_Some, negb_false_iff.
Qed.

Lemma state_ok_sort st : state_ok (sort_state st) = state_ok st.
Proof. by destruct st. Qed.

Lemma load_encoded st : storable st -> state_ok st = true ->
  utf8_encode (encode_state st) = Some (encode_state st) /\
  load (Ok (encode_state st)) = Ok (Some (sort_state st)).
Proof.
  intros [Hok Hfree] Hst.
  assert (plain (encode_state st)) as Hp.
  { unfold encode_state. apply plain_app. split; [|by repeat constructor].
    by apply dumps_plain; [repeat constructor..|]. }
  assert (all_ascii (encode_state st) = true) as Ha.
  { apply forallb_forall_iff. intros c Hc. unfold plain in Hp. rewrite Forall_forall in Hp.
    by apply Hp. }
  split; [by apply utf8_encode_ascii|]. unfold load.
  rewrite utf8_decode_ascii, universal_newlines_id; [|intros H13|done].
  2: { unfold plain in Hp. rewrite Forall_forall in Hp. by apply Hp in H13 as []. }
  unfold parse_state, encode_state.
  rewrite (loads_dumps_ws (compact true)); [| | |done|].
  - cbn [norm compact sort_keys].
    rewrite asdict_sort_state.
    rewrite (from_json_ext _ (asdict (sort_state st))).
    + assert (from_json (JObj (asdict (sort_state st))) = Ok (sort_state st)) as ->; [|done].
      apply from_json_asdict. by rewrite state_ok_sort.
    + intros k. apply assoc_perm; [rewrite ordered_perm; apply asdict_NoDup | apply ordered_perm].
  - apply sep_ok_single.
  - apply sep_ok_single.
  - intros c Hc. by apply list_elem_of_singleton in Hc as ->.
Qed.

(** C34: a record saved by the updater is loaded back: the payload is plain
    ASCII, so it is the file's bytes, and [load] of those bytes returns the
    record (its nested dicts with sorted keys, which Python compares equal). *)
Theorem load_save_roundtrip st :
  storable st -> state_ok st = true ->
  utf8_encode (encode_state st) = Some (encode_state st) /\
  load (Ok (encode_state st)) = Ok (Some (sort_state st)).
Proof. apply load_encoded. Qed.

(** Whatever the file holds, [load] answers in one of five ways: no file,
    no record; a record it returns is well formed (identifiers present,
    generation and timeout in range, the container its stage needs); an
    unreadable, corrupt or unsupported file is a [StateError]; and only bytes
    that are not UTF-8, or an integer literal beyond the interpreter's digit
    limit, escape as another error. *)
Theorem load_outcomes file :
  match load file with
  | Ok None => file = Raise FileNotFoundError
  | Ok (Some st) => state_ok st = true
  | Raise (ProgramError cls _) => cls = "StateError"%string \/ exists msg, file = Raise (ProgramError cls msg)
  | Raise e =>
      file = Raise e \/
      exists bytes, file = Ok bytes /\
        (utf8_decode bytes = None \/
         exists raw, utf8_decode bytes = Some raw /\ loads (universal_newlines raw) = JErr JIntLimit)
  end.
Proof.
  destruct file as [bytes|e].
  - cbn [load]. destruct (utf8_decode bytes) as [raw|] eqn:Hd; [|right; by eauto].
    unfold parse_state. destruct (loads (universal_newlines raw)) as [v|[]] eqn:Hl.
    + destruct (from_json_cases v) as [(st & -> & Hst)|(msg & ->)]; simpl; auto.
    + simpl. by left.
    + right. eauto 10.
    + by destruct (loads_total (universal_newlines raw)).
  - destruct e; simpl; auto. right. eauto.
Qed.
End codec.

(** A file that is not UTF-8 is not reported as corrupt. *)
Example undecodable_file_is_not_a_state_error `{FloatText} : load (Ok [255%N]) = Raise UnicodeError.
Proof. reflexivity. Qed.

(** A record with a network of one key, for the witness. *)
Definition sample_state : UpdateState := {|
  operation_id := lit "a1b2c3d4e5f6a7b8"; stage := candidate_started; lease_token := lit "t0k";
  action_generation := 7; target_id := lit "old"; old_image_id := lit "sha256:1";
  old_digest := Some (lit "sha256:aa"); old_build := None; desired_image_id := lit "sha256:2";
  desired_digest := lit "sha256:bb"; desired_build := Some (lit "42");
  networks := [(lit "media", JObj [(lit "MacAddress", JStr (lit "02:42")); (lit "Aliases", JArr [JStr [233%N; 128512%N]])])];
  port_bindings := [(lit "80/tcp", JArr [JObj [(lit "HostPort", JStr (lit "8080"))]])];
  stop_timeout_seconds := 30; candidate_id := Some (lit "new"); rollback_id := None;
  detail_code := None |}.

Definition no_floats : FloatText := {| float_repr _ := [] |}.

Lemma load_save_roundtrip_witness :
  utf8_encode (encode_state (FT := no_floats) sample_state) = Some (encode_state (FT := no_floats) sample_state) /\
  load (Ok (encode_state (FT := no_floats) sample_state)) = Ok (Some (sort_state sample_state)).
Proof.
  apply (load_save_roundtrip (FT := no_floats) sample_state); [|reflexivity].
  split; [|reflexivity]. cbn [json_ok foldr].
  split; [apply (bool_decide_unpack _); vm_compute; exact I|].
  repeat split; try (apply (bool_decide_unpack _); vm_compute; exact I);
    apply Nat.leb_le; vm_compute; reflexivity.
Defined.
