(* ===== verification/StateStore.v ===== *)
(** * The state file across failures and crashes ([updater/state.py], [StateStore])

    [save] writes a temporary file, forces it to disk, renames it over the
    state file and forces the directory; [clear] unlinks the state file.  Every
    system call may fail, a write may be cut short, the process may be killed
    between two calls and the machine may lose power: the theorems say what a
    later [load] then finds.

    A directory is the inodes its two names have.  The live directory is what
    system calls see; [durable] lists the directories a power loss may leave,
    any change since the last directory [fsync] being on disk or not.  A power
    loss keeps the bytes of an inode that was forced to disk and leaves
    arbitrary bytes in any other. *)

From Stdlib Require Import Bool.
From S2P Require Import Prelude.

#[local] Open Scope bool_scope.

Record inode := Inode { data : list N; synced : bool }.
Record directory := Directory { at_path : option nat; at_tmp : option nat }.
Record fs := Fs { inodes : gmap nat inode; dir : directory; durable : list directory }.

(** How one system call ends: done, failed with an [OSError] (a write after
    writing the first [n] bytes), or not reached because the process died. *)
Inductive outcome := Done | Failed (n : nat) | Killed.

(** How a method ends. *)
Inductive ending := Returned | Raised | Dead.

(** ** System calls that touch the state directory *)

(** A new directory entry is live at once and on disk at some later time. *)
Definition set_dir (d : directory) (s : fs) : fs := Fs (inodes s) d (d :: durable s).

(** [os.open(temporary, O_CREAT | O_TRUNC | O_WRONLY)]. *)
Definition open_tmp (s : fs) : nat * fs :=
  match at_tmp (dir s) with
  | Some i => (i, Fs (<[i := Inode [] false]> (inodes s)) (dir s) (durable s))
  | None =>
      let i := fresh (dom (inodes s)) in
      (i, set_dir (Directory (at_path (dir s)) (Some i)) (Fs (<[i := Inode [] false]> (inodes s)) (dir s) (durable s)))
  end.

Definition write (i : nat) (bytes : list N) (s : fs) : fs :=
  Fs (<[i := Inode bytes false]> (inodes s)) (dir s) (durable s).

Definition fsync (i : nat) (bytes : list N) (s : fs) : fs :=
  Fs (<[i := Inode bytes true]> (inodes s)) (dir s) (durable s).

(** [os.replace(temporary, self.path)]: one atomic directory change. *)
Definition replace (i : nat) (s : fs) : fs := set_dir (Directory (Some i) None) s.

(** [temporary.unlink()], a missing file being fine. *)
Definition unlink_tmp (s : fs) : fs :=
  match at_tmp (dir s) with
  | Some _ => set_dir (Directory (at_path (dir s)) None) s
  | None => s
  end.

Definition unlink_path (s : fs) : fs := set_dir (Directory None (at_tmp (dir s))) s.

Definition fsync_parent (s : fs) : fs := Fs (inodes s) (dir s) [dir s].

(** A power loss: one of the possible directories, and arbitrary bytes in what
    was not forced to disk. *)
Definition power_loss (d : directory) (junk : nat -> list N) (s : fs) : fs :=
  Fs (map_imap (fun i ino => Some (Inode (if synced ino then data ino else junk i) true)) (inodes s))
     d [d].

(** What [read_text] finds: [None] when there is no file. *)
Definition contents (s : fs) : option (list N) :=
  i ← at_path (dir s); data <$> inodes s !! i.

(** ** [save] and [clear] *)

(** Consume the next outcome; a schedule that has run out kills the process. *)
Definition next (o : list outcome) : outcome * list outcome :=
  match o with [] => (Killed, []) | x :: o' => (x, o') end.

(** A call with the given effect, then the rest; [failed] is the handler. *)
Definition call (effect : fs -> fs) (k failed : fs -> list outcome -> ending * fs)
    (s : fs) (o : list outcome) : ending * fs :=
  match next o with
  | (Done, o') => k (effect s) o'
  | (Failed _, o') => failed s o'
  | (Killed, _) => (Dead, s)
  end.

Definition raised (s : fs) (o : list outcome) : ending * fs := (Raised, s).
Definition returned (s : fs) (o : list outcome) : ending * fs := (Returned, s).

(** [except BaseException]: remove the temporary file, raise again. *)
Definition cleanup : fs -> list outcome -> ending * fs := call unlink_tmp raised raised.

(** [stream.write] and [flush]: a failure may leave a prefix behind. *)
Definition write_call (i : nat) (bytes : list N) (k failed : fs -> list outcome -> ending * fs)
    (s : fs) (o : list outcome) : ending * fs :=
  match next o with
  | (Done, o') => k (write i bytes s) o'
  | (Failed n, o') => failed (write i (take n bytes) s) o'
  | (Killed, _) => (Dead, s)
  end.

(** [mkdir] and the [chmod]s change no name and no byte. *)
Definition no_effect (s : fs) : fs := s.

Definition save_tmp (payload : list N) (i : nat) : fs -> list outcome -> ending * fs :=
  call no_effect                                         (* os.chmod(temporary, 0o600) *)
    (write_call i payload                                (* stream.write, stream.flush *)
      (call (fsync i payload)                            (* os.fsync(stream.fileno()) *)
        (call (replace i)                                (* os.replace(temporary, path) *)
          (call no_effect                                (* os.chmod(path, 0o600) *)
            (call fsync_parent returned cleanup)         (* _fsync_parent *)
            cleanup) cleanup) cleanup) cleanup) cleanup.

Definition save (payload : list N) : fs -> list outcome -> ending * fs :=
  call no_effect                                         (* parent.mkdir *)
    (call no_effect                                      (* os.chmod(parent, 0o700) *)
      (fun s o =>
        match next o with                                (* os.open(temporary, ...) *)
        | (Done, o') => let '(i, s') := open_tmp s in save_tmp payload i s' o'
        | (Failed _, _) => (Raised, s)
        | (Killed, _) => (Dead, s)
        end) raised) raised.

Definition clear (s : fs) (o : list outcome) : ending * fs :=
  match at_path (dir s) with
  | None => (Returned, s)
  | Some _ => call unlink_path (call fsync_parent returned raised) raised s o
  end.

(** ** The invariant

    [P] holds of what the state file contains in the live directory and in
    every directory a power loss may leave; the inode it lives in is on disk
    and is not the temporary file's. *)

Definition whole (P : option (list N) -> Prop) (s : fs) (d : directory) : Prop :=
  match at_path d with
  | None => P None
  | Some i =>
      (exists bytes, inodes s !! i = Some (Inode bytes true) /\ P (Some bytes)) /\
      at_tmp d <> Some i /\ at_tmp (dir s) <> Some i
  end.

Definition inv (P : option (list N) -> Prop) (s : fs) : Prop :=
  whole P s (dir s) /\ Forall (whole P s) (durable s).

Lemma whole_mono (P Q : option (list N) -> Prop) s d :
  (forall t, P t -> Q t) -> whole P s d -> whole Q s d.
Proof.
  intros HPQ. unfold whole. destruct (at_path d) as [i|]; [|apply HPQ].
  intros [(bytes & Hi & HP) H]. eauto.
Qed.

Lemma inv_mono (P Q : option (list N) -> Prop) s : (forall t, P t -> Q t) -> inv P s -> inv Q s.
Proof.
  intros HPQ [Hd Hs]. split; [by eapply whole_mono|].
  eapply Forall_impl; [exact Hs|]. intros d. by apply whole_mono.
Qed.

Lemma inv_contents P s : inv P s -> P (contents s).
Proof.
  intros [Hd _]. unfold whole in Hd. unfold contents. destruct (at_path (dir s)) as [i|]; [|done].
  destruct Hd as [(bytes & Hi & HP) _]. simpl. by rewrite Hi.
Qed.

(** The temporary file's bytes may change freely. *)
Lemma inv_touch P s i x : inv P s -> at_tmp (dir s) = Some i ->
  inv P (Fs (<[i := x]> (inodes s)) (dir s) (durable s)).
Proof.
  intros [Hd Hs] Hi.
  assert (forall d, whole P s d -> whole P (Fs (<[i := x]> (inodes s)) (dir s) (durable s)) d) as Hw.
  { intros d. unfold whole. destruct (at_path d) as [j|]; [|done]. cbn [inodes dir].
    intros [(bytes & Hj & HP) [Ht1 Ht2]]. split; [|done]. exists bytes.
    rewrite lookup_insert_ne; [done|]. congruence. }
  split; [by apply Hw|]. eapply Forall_impl; [exact Hs|]. apply Hw.
Qed.

Lemma inv_set_dir P s d : inv P s -> whole P (set_dir d s) d ->
  (forall i, at_tmp d = Some i -> at_tmp (dir s) = Some i) -> inv P (set_dir d s).
Proof.
  intros [Hd Hs] Hnew Htmp. split; [done|]. constructor; [done|].
  eapply Forall_impl; [exact Hs|]. intros d'. unfold whole. cbn [set_dir inodes dir].
  destruct (at_path d') as [j|]; [|done]. intros [Hj [Ht1 Ht2]]. repeat split; try done.
  intros Hj'. by apply Htmp in Hj'.
Qed.

Lemma inv_open P s i s' : inv P s -> open_tmp s = (i, s') -> inv P s' /\ at_tmp (dir s') = Some i.
Proof.
  intros Hinv. unfold open_tmp. destruct (at_tmp (dir s)) as [j|] eqn:Hj; intros [= <- <-].
  - split; [by apply inv_touch | done].
  - split; [|done]. set (n := fresh (dom (inodes s))).
    assert (forall k bytes, inodes s !! k = Some bytes -> k <> n) as Hne.
    { intros k bytes Hk ->. apply (is_fresh (dom (inodes s))). by apply elem_of_dom. }
    assert (forall d, whole P s d -> at_tmp d <> None \/ True ->
      whole P (set_dir (Directory (at_path (dir s)) (Some n))
        (Fs (<[n := Inode [] false]> (inodes s)) (dir s) (durable s))) d) as Hw.
    { intros d. unfold whole. cbn [set_dir inodes dir at_tmp].
      destruct (at_path d) as [k|]; [|done]. intros [(bytes & Hk & HP) [Ht1 Ht2]] _.
      pose proof (Hne _ _ Hk). split; [|split; [done|congruence]]. exists bytes.
      by rewrite lookup_insert_ne. }
    destruct Hinv as [Hd Hs].
    assert (whole P (set_dir (Directory (at_path (dir s)) (Some n))
      (Fs (<[n := Inode [] false]> (inodes s)) (dir s) (durable s)))
      (Directory (at_path (dir s)) (Some n))) as Hnew.
    { specialize (Hw _ Hd (or_intror I)). unfold whole in *. cbn [set_dir inodes dir at_tmp at_path] in *.
      destruct (at_path (dir s)) as [k|]; [|done]. tauto. }
    split; [done|]. constructor; [done|]. eapply Forall_impl; [exact Hs|]. auto.
Qed.

Lemma inv_replace P s i bytes : inv P s -> at_tmp (dir s) = Some i ->
  inodes s !! i = Some (Inode bytes true) -> P (Some bytes) -> inv P (replace i s).
Proof.
  intros Hinv Hi Hb HP. apply inv_set_dir; [done| |done].
  unfold whole. cbn [at_path set_dir inodes dir at_tmp]. eauto.
Qed.

Lemma inv_unlink_tmp P s : inv P s -> inv P (unlink_tmp s).
Proof.
  intros Hinv. unfold unlink_tmp. destruct (at_tmp (dir s)); [|done].
  apply inv_set_dir; [done| |done]. destruct Hinv as [Hd _]. unfold whole in *.
  cbn [set_dir inodes dir at_tmp at_path]. destruct (at_path (dir s)); [|done]. naive_solver.
Qed.

Lemma inv_unlink_path P s : inv P s -> P None -> inv P (unlink_path s).
Proof. intros Hinv HP. apply inv_set_dir; done. Qed.

(** Forcing the directory settles what a power loss leaves. *)
Lemma inv_fsync_parent P Q s : inv P s -> whole Q s (dir s) -> inv Q (fsync_parent s).
Proof. intros _ HQ. split; [done|]. by constructor. Qed.

Lemma inv_power_loss P s d junk : inv P s -> d ∈ durable s -> inv P (power_loss d junk s).
Proof.
  intros [_ Hs] Hd. rewrite Forall_forall in Hs. specialize (Hs d Hd).
  assert (whole P (power_loss d junk s) d) as Hw.
  { unfold whole in *. cbn [power_loss inodes dir]. destruct (at_path d) as [i|]; [|done].
    destruct Hs as [(bytes & Hi & HP) [Ht _]]. split; [|done]. exists bytes.
    split; [|done]. rewrite map_lookup_imap, Hi. done. }
  split; [done|]. by constructor.
Qed.

#[local] Hint Resolve inv_touch inv_unlink_tmp : core.

(** ** [save] *)

(** What a method must leave: [P] whatever happens, and once it has returned
    nothing but [t], even on disk. *)
Definition leaves (P : option (list N) -> Prop) (t : option (list N)) (r : ending * fs) : Prop :=
  inv P r.2 /\ (r.1 = Returned -> inv (eq t) r.2).

Lemma leaves_not_returned P t e s : inv P s -> e <> Returned -> leaves P t (e, s).
Proof. by split. Qed.

Lemma leaves_call P t effect k failed s o :
  inv P s -> (forall o', leaves P t (k (effect s) o')) -> (forall o', leaves P t (failed s o')) ->
  leaves P t (call effect k failed s o).
Proof.
  intros Hinv Hk Hf. unfold call. destruct (next o) as [[|n|] o'].
  - apply Hk.
  - apply Hf.
  - by apply leaves_not_returned.
Qed.

Lemma leaves_raised P t s o : inv P s -> leaves P t (raised s o).
Proof. intros. by apply leaves_not_returned. Qed.

Lemma leaves_cleanup P t s o : inv P s -> leaves P t (cleanup s o).
Proof. intros Hinv. apply leaves_call; auto using leaves_raised. Qed.
#[local] Hint Resolve leaves_raised leaves_cleanup : core.

Lemma leaves_save_tmp P payload i s o : inv P s -> P (Some payload) -> at_tmp (dir s) = Some i ->
  leaves P (Some payload) (save_tmp payload i s o).
Proof.
  intros Hinv HP Hi. unfold save_tmp. apply leaves_call; auto. intros o1. unfold no_effect.
  unfold write_call. destruct (next o1) as [[|n|] o2].
  2: apply leaves_cleanup; unfold write; auto.
  2: by apply leaves_not_returned.
  set (s1 := write i payload s). assert (inv P s1) as H1 by (unfold s1, write; auto).
  apply leaves_call; auto. intros o3. set (s2 := fsync i payload s1).
  assert (inv P s2) as H2 by (unfold s2, fsync; auto).
  apply leaves_call; auto. intros o4. set (s3 := replace i s2).
  assert (inodes s2 !! i = Some (Inode payload true)) as Hb by (unfold s2, fsync; cbn [inodes]; by rewrite lookup_insert_eq).
  assert (inv P s3) as H3 by (by apply (inv_replace P s2 i payload)).
  apply leaves_call; auto. intros o5. apply leaves_call; auto. intros o6.
  assert (forall Q : option (list N) -> Prop, Q (Some payload) -> inv Q (fsync_parent s3)) as Hlast.
  { intros Q HQ. apply (inv_fsync_parent P); [done|]. unfold whole. cbn. eauto. }
  split; [by apply Hlast | intros _; by apply Hlast].
Qed.

Lemma leaves_save P payload s o : inv P s -> P (Some payload) -> leaves P (Some payload) (save payload s o).
Proof.
  intros Hinv HP. unfold save. apply leaves_call; auto. intros o1. apply leaves_call; auto.
  intros o2. unfold no_effect. destruct (next o2) as [[|n|] o3].
  - destruct (open_tmp s) as [i s'] eqn:Ho. destruct (inv_open P s i s' Hinv Ho).
    by apply leaves_save_tmp.
  - by apply leaves_not_returned.
  - by apply leaves_not_returned.
Qed.

Lemma leaves_clear P s o : inv P s -> P None -> at_path (dir s) <> None ->
  leaves P None (clear s o).
Proof.
  intros Hinv HP Hp. unfold clear. destruct (at_path (dir s)); [|done].
  assert (inv P (unlink_path s)) as H1 by (by apply inv_unlink_path).
  apply leaves_call; auto. intros o1. apply leaves_call; auto. intros o2.
  split; [|intros _]; (apply (inv_fsync_parent P); [done|]); done.
Qed.

(** ** Histories *)

Inductive event : Type :=
  | ESave (payload : list N) (o : list outcome)
  | EClear (o : list outcome)
  | EPowerLoss (n : nat) (junk : nat -> list N).   (** the [n]th possible directory *)

(** One event: the file system after it, and what the state file may then
    contain, given what it might contain before. *)
Definition step (ev : event) (x : list (option (list N)) * fs) : list (option (list N)) * fs :=
  let '(ts, s) := x in
  match ev with
  | ESave payload o =>
      let '(e, s') := save payload s o in
      (match e with Returned => [Some payload] | _ => Some payload :: ts end, s')
  | EClear o =>
      let '(e, s') := clear s o in
      (match e, at_path (dir s) with Returned, Some _ => [None] | _, _ => None :: ts end, s')
  | EPowerLoss n junk =>
      (ts, match durable s !! n with Some d => power_loss d junk s | None => s end)
  end.

Definition run (h : list event) (x : list (option (list N)) * fs) : list (option (list N)) * fs :=
  foldl (fun x ev => step ev x) x h.

(** A new volume. *)
Definition empty_fs : fs := Fs ∅ (Directory None None) [Directory None None].

Lemma step_inv ev ts s : inv (fun t => t ∈ ts) s ->
  inv (fun t => t ∈ (step ev (ts, s)).1) (step ev (ts, s)).2.
Proof.
  intros Hinv. destruct ev as [p o|o|n junk]; simpl.
  - assert (inv (fun t => t ∈ Some p :: ts) s) as Hinv'
      by (eapply inv_mono; [|exact Hinv]; intros t Ht; by right).
    pose proof (leaves_save _ p s o Hinv' ltac:(left)) as [Hany Hret].
    destruct (save p s o) as [e s']. simpl in *. destruct e; try done.
    eapply inv_mono; [|by apply Hret]. intros t <-. left.
  - assert (inv (fun t => t ∈ None :: ts) s) as Hinv'
      by (eapply inv_mono; [|exact Hinv]; intros t Ht; by right).
    destruct (at_path (dir s)) as [i|] eqn:Hp.
    + pose proof (leaves_clear _ s o Hinv' ltac:(left) ltac:(congruence)) as [Hany Hret].
      destruct (clear s o) as [e s']. simpl in *. destruct e; try done.
      eapply inv_mono; [|by apply Hret]. intros t <-. left.
    + unfold clear. rewrite Hp. done.
  - destruct (durable s !! n) as [d|] eqn:Hd; [|done].
    apply inv_power_loss; [done|]. by eapply list_elem_of_lookup_2.
Qed.

Lemma run_inv h x : inv (fun t => t ∈ x.1) x.2 -> inv (fun t => t ∈ (run h x).1) (run h x).2.
Proof.
  revert x; induction h as [|ev h IH]; intros [ts s] Hinv; [done|].
  apply IH. by apply step_inv.
Qed.

(** C33: the state file is never torn: after any history of saves and clears in
    which every system call may fail, writes may be cut short, the process may
    be killed anywhere and power may be lost at any moment with unforced bytes
    turned to garbage, the file holds exactly one of the payloads that could
    have survived, whole - the last one whose [save] returned or one attempted
    after it, or nothing where nothing or a clear could have survived. *)
Theorem state_file_is_never_torn h :
  contents (run h ([None], empty_fs)).2 ∈ (run h ([None], empty_fs)).1.
Proof.
  apply (inv_contents (fun t => t ∈ (run h ([None], empty_fs)).1)). apply run_inv. split.
  - by left.
  - constructor; [by left | constructor].
Qed.

(** Once [save] has returned, the record is durable: whatever happened
    before, what is read afterwards is that payload, and it still is after a
    power loss, whichever directory survives. *)
Theorem returned_save_is_durable h payload o e s :
  save payload (run h ([None], empty_fs)).2 o = (e, s) -> e = Returned ->
  contents s = Some payload /\
  forall d junk, d ∈ durable s -> contents (power_loss d junk s) = Some payload.
Proof.
  intros Hs He.
  assert (inv (fun t => t ∈ (run h ([None], empty_fs)).1) (run h ([None], empty_fs)).2) as Hinv.
  { apply run_inv. split; [by left|]. constructor; [by left | constructor]. }
  assert (inv (fun _ => True) (run h ([None], empty_fs)).2) as Hinv'
    by (eapply inv_mono; [|exact Hinv]; done).
  pose proof (leaves_save _ payload _ o Hinv' I) as [_ Hret]. rewrite Hs in Hret.
  specialize (Hret He). split; [symmetry; by apply (inv_contents (eq (Some payload)))|].
  intros d junk Hd. symmetry. apply (inv_contents (eq (Some payload))). by apply inv_power_loss.
Qed.

Lemma returned_save_is_durable_witness :
  let s := (save [49%N] (run [ESave [48%N] [Done; Done; Done; Done; Failed 0]] ([None], empty_fs)).2
              (repeat Done 9)).2 in
  contents s = Some [49%N] /\
  forall d junk, d ∈ durable s -> contents (power_loss d junk s) = Some [49%N].
Proof.
  apply (returned_save_is_durable [ESave [48%N] [Done; Done; Done; Done; Failed 0]] [49%N]
    (repeat Done 9) Returned); vm_compute; reflexivity.
Defined.
