(* ===== verification/EventHub.v ===== *)
(** * The realtime event hub ([web/events.py])

    A hub fans invalidation events out to the bounded queues of its
    subscriptions.  Subscriptions are objects shared by the hub and by the
    streams that read them, so they live in a store and are named by their
    address; the hub holds the set of the addresses subscribed.  A queue's
    [put_nowait] on a full queue raises [QueueFull] ([None] here).

    The refinement: each stream is told, in order and without a gap, of every
    event published since it subscribed, a [sync] event standing for all up to
    its number; this is what an unbounded log with a cursor promises
    ([ChannelStep]). *)

From Stdlib Require Import ZArith Lia Bool String.
From S2P Require Import Prelude PyStr PyRe PyInt Json.

#[local] Open Scope Z_scope.
#[local] Open Scope bool_scope.

(** ** Events *)

Record RealtimeEvent := {
  seq : Z;
  topics : list (list N);
  reason : list N;
  app_version : option (list N);
}.

#[export] Instance RealtimeEvent_eq_dec : EqDecision RealtimeEvent.
Proof. solve_decision. Defined.

(** What a queue holds: an event, or the sentinel [_StreamClosed(reason)]. *)
Inductive item : Type := IEvent (e : RealtimeEvent) | IClosed (reason : option (list N)).

Definition payload (e : RealtimeEvent) : json :=
  JObj ([(lit "seq", JInt (seq e)); (lit "topics", JArr (JStr <$> topics e));
         (lit "reason", JStr (reason e))]
        ++ match app_version e with Some v => [(lit "app_version", JStr v)] | None => [] end).

(** ** Subscriptions and the hub *)

Record EventSubscription := {
  queue : list item;
  auth_method : option (list N);
  user_id : option Z;
  closed : bool;
}.

Record EventHub := {
  max_queue_size : nat;
  hub_app_version : option (list N);
  next_seq : Z;
  subscribers : gset nat;
  store : gmap nat EventSubscription;    (** every subscription object *)
}.

Definition set_subscribers (ss : gset nat) (h : EventHub) : EventHub :=
  {| max_queue_size := max_queue_size h; hub_app_version := hub_app_version h;
     next_seq := next_seq h; subscribers := ss; store := store h |}.
Definition set_store (m : gmap nat EventSubscription) (h : EventHub) : EventHub :=
  {| max_queue_size := max_queue_size h; hub_app_version := hub_app_version h;
     next_seq := next_seq h; subscribers := subscribers h; store := m |}.
Definition set_next_seq (n : Z) (h : EventHub) : EventHub :=
  {| max_queue_size := max_queue_size h; hub_app_version := hub_app_version h;
     next_seq := n; subscribers := subscribers h; store := store h |}.
Definition set_queue (q : list item) (s : EventSubscription) : EventSubscription :=
  {| queue := q; auth_method := auth_method s; user_id := user_id s; closed := closed s |}.
Definition set_closed (s : EventSubscription) : EventSubscription :=
  {| queue := queue s; auth_method := auth_method s; user_id := user_id s; closed := true |}.

(** [EventHub.__init__]. *)
Definition new_hub (max_queue_size : Z) (app_version : option (list N)) : res EventHub :=
  if max_queue_size <? 1 then Raise (ValueError (lit "max_queue_size must be at least 1"))
  else Ok {| max_queue_size := Z.to_nat max_queue_size; hub_app_version := app_version;
             next_seq := 1; subscribers := ∅; store := ∅ |}.

Definition subscriber_count (h : EventHub) : nat := size (subscribers h).

(** [asyncio.Queue.put_nowait]; [None] is [QueueFull]. *)
Definition put_nowait (size : nat) (q : list item) (x : item) : option (list item) :=
  if (length q <? size)%nat then Some (q ++ [x]) else None.

(** [_clear_queue]: [get_nowait] until the queue is empty. *)
Fixpoint _clear_queue (q : list item) : list item :=
  match q with [] => [] | _ :: q' => _clear_queue q' end.

Definition overflow_event (e : RealtimeEvent) : RealtimeEvent :=
  {| seq := seq e; topics := [lit "sync"]; reason := lit "overflow"; app_version := None |}.

Definition _replace_with (size : nat) (q : list item) (e : RealtimeEvent) : option (list item) :=
  put_nowait size (_clear_queue q) (IEvent e).

(** [EventSubscription.enqueue] on the subscription alone. *)
Definition enqueue (size : nat) (e : RealtimeEvent) (s : EventSubscription)
    : option EventSubscription :=
  if closed s then Some s
  else
    match put_nowait size (queue s) (IEvent e) with
    | Some q => Some (set_queue q s)
    | None => q ← _replace_with size (queue s) (overflow_event e); Some (set_queue q s)
    end.

Definition unsubscribe (i : nat) (h : EventHub) : EventHub :=
  set_subscribers (subscribers h ∖ {[i]}) h.

(** [EventSubscription.close] of the object at [i]. *)
Definition close (why : option (list N)) (i : nat) (h : EventHub) : option EventHub :=
  s ← store h !! i;
  if closed s then Some h
  else
    let h := unsubscribe i h in
    q ← put_nowait (max_queue_size h) (_clear_queue (queue s)) (IClosed why);
    Some (set_store (<[i := set_queue q (set_closed s)]> (store h)) h).

(** [EventHub.subscribe]: the new subscription's address, and the hub. *)
Definition subscribe (auth : option (list N)) (user : option Z) (h : EventHub)
    : option (nat * EventHub) :=
  let i := fresh (dom (store h)) in
  let s := {| queue := []; auth_method := auth; user_id := user; closed := false |} in
  s ← enqueue (max_queue_size h)
        {| seq := Z.max 0 (next_seq h - 1); topics := [lit "sync"]; reason := lit "connected";
           app_version := hub_app_version h |} s;
  Some (i, set_subscribers ({[i]} ∪ subscribers h) (set_store (<[i := s]> (store h)) h)).

(** [enqueue] through the store. *)
Definition enqueue_at (e : RealtimeEvent) (h : EventHub) (i : nat) : option EventHub :=
  s ← store h !! i;
  s ← enqueue (max_queue_size h) e s;
  Some (set_store (<[i := s]> (store h)) h).

(** A loop over a snapshot whose body may raise. *)
Fixpoint for_each (f : EventHub -> nat -> option EventHub) (h : EventHub) (l : list nat)
    : option EventHub :=
  match l with
  | [] => Some h
  | i :: l' => h' ← f h i; for_each f h' l'
  end.

(** [tuple(dict.fromkeys(topics))]: the first occurrence keeps its place. *)
Definition dedupe (l : list (list N)) : list (list N) :=
  foldl (fun acc t => if mem t acc then acc else acc ++ [t]) [] l.

(** What a call gives back: a value, an exception of the interface, or an
    exception nothing catches. *)
Inductive result (A : Type) := Returns (x : A) | Raises (e : exn).
Arguments Returns {A} _.
Arguments Raises {A} _.

(** [EventHub.publish]. *)
Definition publish (tps : list (list N)) (why : list N) (h : EventHub)
    : option (result RealtimeEvent * EventHub) :=
  match dedupe tps with
  | [] => Some (Raises (ValueError (lit "publish requires at least one topic")), h)
  | topic_tuple =>
      let e := {| seq := next_seq h; topics := topic_tuple; reason := why; app_version := None |} in
      let h := set_next_seq (next_seq h + 1) h in
      if bool_decide (subscribers h = ∅) then Some (Returns e, h)
      else h ← for_each (enqueue_at e) h (elements (subscribers h)); Some (Returns e, h)
  end.

(** The filter of [close_matching]: an absent criterion matches all. *)
Definition matches (auth : option (list N)) (user : option Z) (s : EventSubscription) : bool :=
  match auth with None => true | Some _ => bool_decide (auth_method s = auth) end &&
  match user with None => true | Some _ => bool_decide (user_id s = user) end.

Definition close_matching (why : list N) (auth : option (list N)) (user : option Z) (h : EventHub)
    : option EventHub :=
  for_each (fun h i =>
    s ← store h !! i;
    if matches auth user s then close (Some why) i h else Some h) h (elements (subscribers h)).

Definition close_all (why : list N) (h : EventHub) : option EventHub :=
  close_matching why None None h.

(** [EventSubscription.get], one resumption: [None] in the result is a wait on
    an empty queue; the sentinel closes the subscription again and raises
    [StreamClosed] with its reason. *)
Inductive got : Type := Waits | Gets (e : RealtimeEvent) | StreamClosed (reason : option (list N)).

Definition get (i : nat) (h : EventHub) : option (got * EventHub) :=
  s ← store h !! i;
  match queue s with
  | [] => Some (Waits, h)
  | x :: q =>
      let h := set_store (<[i := set_queue q s]> (store h)) h in
      match x with
      | IEvent e => Some (Gets e, h)
      | IClosed why => h ← close None i h; Some (StreamClosed why, h)
      end
  end.

(** ** Calls as a client sees them *)

Inductive op : Type :=
  | OSubscribe (auth : option (list N)) (user : option Z)
  | OPublish (tps : list (list N)) (why : list N)
  | OClose (i : nat) (why : option (list N))
  | OCloseMatching (why : list N) (auth : option (list N)) (user : option Z)
  | OCloseAll (why : list N)
  | OGet (i : nat).

Inductive label : Type :=
  | LSubscribe (auth : option (list N)) (user : option Z) (i : nat)
  | LPublish (tps : list (list N)) (why : list N) (r : result RealtimeEvent)
  | LClose (i : nat) (why : option (list N))
  | LCloseMatching (why : list N) (auth : option (list N)) (user : option Z)
  | LGet (i : nat) (g : got).

Definition perform (o : op) (h : EventHub) : option (label * EventHub) :=
  match o with
  | OSubscribe auth user => '(i, h) ← subscribe auth user h; Some (LSubscribe auth user i, h)
  | OPublish tps why => '(r, h) ← publish tps why h; Some (LPublish tps why r, h)
  | OClose i why => h ← close why i h; Some (LClose i why, h)
  | OCloseMatching why auth user =>
      h ← close_matching why auth user h; Some (LCloseMatching why auth user, h)
  | OCloseAll why => h ← close_all why h; Some (LCloseMatching why None None, h)
  | OGet i => '(g, h) ← get i h; Some (LGet i g, h)
  end.

(** A call names a subscription that exists. *)
Definition names (o : op) (h : EventHub) : bool :=
  match o with
  | OClose i _ | OGet i => bool_decide (is_Some (store h !! i))
  | _ => true
  end.

(** The observable history of a sequence of calls; [None] would be an
    exception the interface does not have. *)
Fixpoint run (ops : list op) (h : EventHub) : option (list label * EventHub) :=
  match ops with
  | [] => Some ([], h)
  | o :: ops' =>
      if names o h then
        '(l, h) ← perform o h; '(ls, h) ← run ops' h; Some (l :: ls, h)
      else run ops' h
  end.

(** ** The abstract channel

    A log of the published events, the [n]th numbered [n], and per client the
    number it has been told up to (-1 before the first). *)

Record Client := {
  c_auth : option (list N);
  c_user : option Z;
  cursor : Z;
  c_open : bool;
  farewell : option (option (list N));   (** the close reason not yet read *)
}.

Record Channel := { log : list RealtimeEvent; clients : gmap nat Client }.

Definition told (log : list RealtimeEvent) (cur : Z) (e : RealtimeEvent) : Prop :=
  (topics e = [lit "sync"] /\ cur < seq e <= Z.of_nat (length log)) \/
  (0 <= cur /\ seq e = cur + 1 /\ log !! Z.to_nat cur = Some e).

Definition set_cursor (n : Z) (c : Client) : Client :=
  {| c_auth := c_auth c; c_user := c_user c; cursor := n; c_open := c_open c; farewell := farewell c |}.
Definition set_farewell (w : option (option (list N))) (c : Client) : Client :=
  {| c_auth := c_auth c; c_user := c_user c; cursor := cursor c; c_open := false; farewell := w |}.
Definition part (why : option (list N)) (c : Client) : Client :=
  if c_open c then set_farewell (Some why) c else c.
Definition c_matches (auth : option (list N)) (user : option Z) (c : Client) : bool :=
  match auth with None => true | Some _ => bool_decide (c_auth c = auth) end &&
  match user with None => true | Some _ => bool_decide (c_user c = user) end.

Inductive ChannelStep : Channel -> label -> Channel -> Prop :=
  | CS_subscribe ch auth user i : clients ch !! i = None ->
      ChannelStep ch (LSubscribe auth user i)
        {| log := log ch; clients := <[i := {| c_auth := auth; c_user := user; cursor := -1;
             c_open := true; farewell := None |}]> (clients ch) |}
  | CS_publish_nothing ch tps why : dedupe tps = [] ->
      ChannelStep ch (LPublish tps why (Raises (ValueError (lit "publish requires at least one topic")))) ch
  | CS_publish ch tps why e : dedupe tps <> [] ->
      e = {| seq := Z.of_nat (length (log ch)) + 1; topics := dedupe tps; reason := why;
             app_version := None |} ->
      ChannelStep ch (LPublish tps why (Returns e))
        {| log := log ch ++ [e]; clients := clients ch |}
  | CS_close ch i why c : clients ch !! i = Some c ->
      ChannelStep ch (LClose i why) {| log := log ch; clients := <[i := part why c]> (clients ch) |}
  | CS_close_matching ch why auth user :
      ChannelStep ch (LCloseMatching why auth user)
        {| log := log ch;
           clients := (fun c => if c_matches auth user c then part (Some why) c else c) <$> clients ch |}
  | CS_told ch i c e : clients ch !! i = Some c -> c_open c = true -> told (log ch) (cursor c) e ->
      ChannelStep ch (LGet i (Gets e))
        {| log := log ch; clients := <[i := set_cursor (seq e) c]> (clients ch) |}
  | CS_up_to_date ch i c : clients ch !! i = Some c -> c_open c = true ->
      cursor c = Z.of_nat (length (log ch)) ->
      ChannelStep ch (LGet i Waits) ch
  | CS_farewell ch i c why : clients ch !! i = Some c -> c_open c = false ->
      farewell c = Some why ->
      ChannelStep ch (LGet i (StreamClosed why))
        {| log := log ch; clients := <[i := set_farewell None c]> (clients ch) |}
  | CS_silent ch i c : clients ch !! i = Some c -> c_open c = false -> farewell c = None ->
      ChannelStep ch (LGet i Waits) ch.

Inductive ChannelTrace : Channel -> list label -> Channel -> Prop :=
  | CT_nil ch : ChannelTrace ch [] ch
  | CT_cons ch l ch1 ls ch2 : ChannelStep ch l ch1 -> ChannelTrace ch1 ls ch2 ->
      ChannelTrace ch (l :: ls) ch2.

Definition empty_channel : Channel := {| log := []; clients := ∅ |}.

(** ** The simulation relation *)

(** What a queue will tell a client at [cur], up to the end of the log. *)
Fixpoint chain (log : list RealtimeEvent) (cur : Z) (q : list item) : Prop :=
  match q with
  | [] => cur = Z.of_nat (length log)
  | IEvent e :: q' => told log cur e /\ chain log (seq e) q'
  | IClosed _ :: _ => False
  end.

Record Rsub (size : nat) (log : list RealtimeEvent) (s : EventSubscription) (c : Client) : Prop := {
  R_auth : auth_method s = c_auth c;
  R_user : user_id s = c_user c;
  R_open : closed s = negb (c_open c);
  R_bound : (length (queue s) <= size)%nat;
  R_cursor : -1 <= cursor c;
  R_queue : if closed s then queue s = match farewell c with Some w => [IClosed w] | None => [] end
            else chain log (cursor c) (queue s);
}.

Record R (h : EventHub) (ch : Channel) : Prop := {
  R_size : (1 <= max_queue_size h)%nat;
  R_seq : next_seq h = Z.of_nat (length (log ch)) + 1;
  R_subs : forall i, option_Forall2 (Rsub (max_queue_size h) (log ch)) (store h !! i) (clients ch !! i);
  R_set : forall i, i ∈ subscribers h <-> exists s, store h !! i = Some s /\ closed s = false;
}.

Lemma chain_le log cur q : chain log cur q -> cur <= Z.of_nat (length log).
Proof.
  revert cur; induction q as [|[e|] q IH]; intros cur; simpl; [lia| |done].
  intros [Ht Hq]. apply IH in Hq. destruct Ht as [[_ ?]|[? [? _]]]; lia.
Qed.

Lemma told_app log cur e e' : told log cur e -> told (log ++ [e']) cur e.
Proof.
  intros [[Ht Hs]|[H0 [Hs Hl]]]; [left|right].
  - rewrite length_app. simpl. split; [done|lia].
  - split; [done|]. split; [done|]. by apply lookup_app_l_Some.
Qed.

Lemma told_gt log cur e : told log cur e -> cur < seq e.
Proof. intros [[_ ?]|[? [? _]]]; lia. Qed.

(** A published event is appended to what a client will be told. *)
Lemma chain_app log cur q e : chain log cur q -> -1 <= cur ->
  seq e = Z.of_nat (length log) + 1 -> chain (log ++ [e]) cur (q ++ [IEvent e]).
Proof.
  intros Hc H0 He. revert cur Hc H0; induction q as [|[e'|] q IH]; intros cur; simpl; [| |done].
  - intros Hcur H0. rewrite length_app. simpl. split; [|lia]. right.
    split; [lia|]. split; [lia|]. rewrite Hcur, Nat2Z.id. by apply list_lookup_middle.
  - intros [Ht Hq] H0. split; [by apply told_app|]. apply told_gt in Ht. apply IH; [done|lia].
Qed.

(** A full queue becomes one [sync] event with the number of the event. *)
Lemma chain_overflow log cur q e : chain log cur q ->
  seq e = Z.of_nat (length log) + 1 -> chain (log ++ [e]) cur [IEvent (overflow_event e)].
Proof.
  intros Hc He. apply chain_le in Hc. simpl. rewrite length_app. simpl.
  split; [|lia]. left. rewrite length_app. simpl. split; [done|lia].
Qed.

Lemma clear_queue_nil q : _clear_queue q = [].
Proof. by induction q. Qed.

Lemma put_nowait_nil size x : (1 <= size)%nat -> put_nowait size [] x = Some [x].
Proof. intros Hs. unfold put_nowait. simpl. by destruct size; [lia|]. Qed.

(** [enqueue] never raises, and keeps the relation with the longer log. *)
Lemma enqueue_spec size log s c e : (1 <= size)%nat -> Rsub size log s c ->
  seq e = Z.of_nat (length log) + 1 ->
  exists s', enqueue size e s = Some s' /\ Rsub size (log ++ [e]) s' c /\ closed s' = closed s.
Proof.
  intros Hsize [Ha Hu Ho Hb Hcur Hq] He. unfold enqueue.
  destruct (closed s) eqn:Hcl; [eexists; split; [done|]; split; [|done]; by constructor; rewrite ?Hcl|].
  unfold put_nowait at 1. destruct (Nat.ltb_spec (length (queue s)) size).
  - eexists. split; [done|]. split; [|done]. constructor; simpl; try done; rewrite ?Hcl; try done.
    + rewrite length_app. simpl. lia.
    + by apply chain_app.
  - unfold _replace_with. rewrite clear_queue_nil, put_nowait_nil by done. simpl.
    eexists. split; [done|]. split; [|done]. constructor; simpl; try done; rewrite ?Hcl; try done.
    by eapply chain_overflow.
Qed.

(** The publishing loop: every address of the snapshot once, in any order. *)
Lemma for_each_enqueue e l h ch :
  NoDup l -> (1 <= max_queue_size h)%nat -> seq e = Z.of_nat (length (log ch)) + 1 ->
  (forall i, (i ∈ l) -> exists s c, store h !! i = Some s /\ Rsub (max_queue_size h) (log ch) s c /\
                       clients ch !! i = Some c) ->
  exists m, for_each (enqueue_at e) h l = Some (set_store m h) /\
    (forall i, (i ∉ l) -> m !! i = store h !! i) /\
    (forall i, (i ∈ l) -> exists s s' c, store h !! i = Some s /\ m !! i = Some s' /\
       clients ch !! i = Some c /\ closed s' = closed s /\
       Rsub (max_queue_size h) (log ch ++ [e]) s' c).
Proof.
  intros Hnd Hsize He. revert h Hsize. induction Hnd as [|i l Hi Hnd IH]; intros h Hsize Hall.
  - exists (store h). split; [by destruct h|]. split; [done|]. by intros i ?%not_elem_of_nil.
  - destruct (Hall i ltac:(left)) as (s & c & Hs & HR & Hc).
    destruct (enqueue_spec _ _ s c e Hsize HR He) as (s' & Hen & HR' & Hcl).
    cbn [for_each].
    assert (enqueue_at e h i = Some (set_store (<[i:=s']> (store h)) h)) as ->
      by (unfold enqueue_at; rewrite Hs; cbn; by rewrite Hen).
    cbn [mbind option_bind]. set (h1 := set_store (<[i:=s']> (store h)) h).
    destruct (IH h1) as (m & Hrun & Hother & Hin); [done| |].
    { intros j Hj. destruct (Hall j ltac:(by right)) as (sj & cj & Hsj & HRj & Hcj).
      exists sj, cj. split; [|done]. unfold h1. cbn [set_store store].
      rewrite lookup_insert_ne; [done|]. intros ->. done. }
    exists m. rewrite Hrun. split; [by destruct h|]. split.
    + intros j Hj. rewrite not_elem_of_cons in Hj. destruct Hj as [Hne Hj].
      rewrite (Hother j Hj). unfold h1. cbn [set_store store]. by rewrite lookup_insert_ne.
    + intros j Hj. apply elem_of_cons in Hj as [->|Hj].
      * exists s, s', c. rewrite (Hother i Hi). unfold h1. cbn [set_store store].
        by rewrite lookup_insert_eq.
      * destruct (Hin j Hj) as (sj & sj' & cj & Hsj & H'). exists sj, sj', cj.
        split; [|done]. unfold h1 in Hsj. cbn [set_store store] in Hsj.
        rewrite lookup_insert_ne in Hsj; [done|]. by intros ->.
Qed.

Definition closed_sub (why : option (list N)) (s : EventSubscription) : EventSubscription :=
  set_queue [IClosed why] (set_closed s).

Lemma close_open why i h s : (1 <= max_queue_size h)%nat -> store h !! i = Some s ->
  closed s = false ->
  close why i h = Some (set_store (<[i := closed_sub why s]> (store h)) (unsubscribe i h)).
Proof.
  intros Hsize Hs Hcl. unfold close. rewrite Hs. cbn [mbind option_bind].
  rewrite Hcl, clear_queue_nil. by rewrite put_nowait_nil.
Qed.

Lemma close_closed why i h s : store h !! i = Some s -> closed s = true -> close why i h = Some h.
Proof. intros Hs Hcl. unfold close. rewrite Hs. cbn. by rewrite Hcl. Qed.

Lemma Rsub_close size log s c why : (1 <= size)%nat -> Rsub size log s c -> closed s = false ->
  Rsub size log (closed_sub why s) (part why c).
Proof.
  intros Hsize [Ha Hu Ho Hb Hcur Hq] Hcl. rewrite Hcl in Ho. symmetry in Ho.
  apply negb_false_iff in Ho. unfold part. rewrite Ho. by constructor.
Qed.

Lemma part_closed size log s c why : Rsub size log s c -> closed s = true -> part why c = c.
Proof. intros HR Hcl. rewrite (R_open _ _ _ _ HR) in Hcl. unfold part. by destruct (c_open c). Qed.

Lemma Rsub_matches size log s c auth user : Rsub size log s c ->
  matches auth user s = c_matches auth user c.
Proof. intros HR. unfold matches, c_matches. by rewrite (R_auth _ _ _ _ HR), (R_user _ _ _ _ HR). Qed.

Lemma R_lookup h ch i s : R h ch -> store h !! i = Some s ->
  exists c, clients ch !! i = Some c /\ Rsub (max_queue_size h) (log ch) s c.
Proof.
  intros HR Hs. pose proof (R_subs _ _ HR i) as Hi. rewrite Hs in Hi. inversion Hi; subst. eauto.
Qed.

(** Closing one subscription, open or not. *)
Lemma R_close h ch i s c why : R h ch -> store h !! i = Some s -> clients ch !! i = Some c ->
  exists h', close why i h = Some h' /\ max_queue_size h' = max_queue_size h /\
    (forall j, j <> i -> store h' !! j = store h !! j) /\
    R h' {| log := log ch; clients := <[i := part why c]> (clients ch) |}.
Proof.
  intros HR Hs Hc. destruct (R_lookup h ch i s HR Hs) as (c' & Hc' & HRi).
  rewrite Hc in Hc'. injection Hc' as <-. pose proof (R_size _ _ HR) as Hsize.
  destruct (closed s) eqn:Hcl.
  - exists h. rewrite (close_closed _ _ _ s) by done. repeat split; try done; try apply HR.
    cbn [clients]. rewrite (part_closed _ _ _ _ _ HRi Hcl), insert_id; [|done]. apply HR.
  - rewrite (close_open _ _ _ s) by done. eexists. split; [done|]. split; [done|]. split.
    { intros j Hj. cbn [set_store store]. by rewrite lookup_insert_ne. }
    constructor; [done|apply HR| |].
    + intros j. cbn [set_store store unsubscribe set_subscribers max_queue_size log clients].
      destruct (decide (j = i)) as [->|Hne].
      * rewrite !lookup_insert_eq. constructor. by apply Rsub_close.
      * rewrite !lookup_insert_ne by done. apply HR.
    + intros j. cbn [set_store store unsubscribe set_subscribers subscribers].
      rewrite elem_of_difference, elem_of_singleton, (R_set _ _ HR).
      destruct (decide (j = i)) as [->|Hne].
      * rewrite lookup_insert_eq. split; [naive_solver|]. by intros (s' & [= <-] & ?).
      * rewrite lookup_insert_ne by done. naive_solver.
Qed.

(** The closing loop over a snapshot of open subscriptions. *)
Lemma R_close_loop why auth user l h ch :
  NoDup l -> R h ch -> (forall i, (i ∈ l) -> is_Some (store h !! i)) ->
  exists h', for_each (fun h i => s ← store h !! i;
      if matches auth user s then close (Some why) i h else Some h) h l = Some h' /\
    R h' {| log := log ch; clients := map_imap (fun i c => Some
       (if bool_decide (i ∈ l) && c_matches auth user c then part (Some why) c else c)) (clients ch) |}.
Proof.
  intros Hnd. revert h ch. induction Hnd as [|i l Hi Hnd IH]; intros h ch HR Hall.
  - exists h. split; [done|]. destruct ch as [lg cl]. cbn [log clients] in *.
    replace (map_imap _ cl) with cl; [done|]. apply map_eq. intros j. rewrite map_lookup_imap.
    by destruct (cl !! j).
  - destruct (Hall i ltac:(left)) as [s Hs].
    destruct (R_lookup h ch i s HR Hs) as (c & Hc & HRi).
    set (c1 := if c_matches auth user c then part (Some why) c else c).
    assert (exists h1, (s ← store h !! i; if matches auth user s then close (Some why) i h else Some h)
        = Some h1 /\ (forall j, j <> i -> store h1 !! j = store h !! j) /\
      R h1 {| log := log ch; clients := <[i := c1]> (clients ch) |}) as (h1 & Hrun & Hoth & HR1).
    { rewrite Hs. cbn [mbind option_bind]. rewrite (Rsub_matches _ _ _ _ _ _ HRi). unfold c1.
      destruct (c_matches auth user c).
      - destruct (R_close h ch i s c (Some why) HR Hs Hc) as (h1 & ? & _ & ? & ?). eauto.
      - exists h. repeat split; try done; try apply HR. cbn [clients].
        rewrite insert_id; [|done]. apply HR. }
    cbn [for_each]. rewrite Hrun. cbn [mbind option_bind].
    destruct (IH h1 _ HR1) as (h' & Hrun' & HR').
    { intros j Hj. rewrite Hoth by congruence. apply Hall. by right. }
    exists h'. split; [done|]. cbn [log clients] in HR'.
    match type of HR' with R _ {| log := _; clients := ?m1 |} =>
      match goal with |- R _ {| log := _; clients := ?m2 |} => replace m2 with m1; [done|] end end.
    apply map_eq. intros j. rewrite !map_lookup_imap. destruct (decide (j = i)) as [->|Hne].
    + rewrite lookup_insert_eq, Hc. cbn [mbind option_bind]. f_equal.
      rewrite (bool_decide_false (i ∈ l)) by done. rewrite bool_decide_true by left. done.
    + rewrite lookup_insert_ne by done. destruct (clients ch !! j); [|done].
      cbn [mbind option_bind]. f_equal.
      assert (bool_decide (j ∈ i :: l) = bool_decide (j ∈ l)) as ->; [|done].
      apply bool_decide_ext. rewrite elem_of_cons. naive_solver.
Qed.

(** ** Each call is a step of the channel, and none raises [QueueFull] *)

Definition simulates (h : EventHub) (ch : Channel) (o : op) : Prop :=
  exists l h' ch', perform o h = Some (l, h') /\ ChannelStep ch l ch' /\ R h' ch'.

Lemma simulates_subscribe h ch auth user : R h ch -> simulates h ch (OSubscribe auth user).
Proof.
  intros HR. pose proof (R_size _ _ HR) as Hsize. pose proof (R_seq _ _ HR) as Hseq.
  unfold simulates. cbn [perform].
  unfold subscribe, enqueue. cbn [closed queue]. rewrite put_nowait_nil by done.
  cbn [mbind option_bind]. set (i := fresh (dom (store h))).
  assert (store h !! i = None) as Hi by (apply not_elem_of_dom, is_fresh).
  assert (clients ch !! i = None) as Hci.
  { pose proof (R_subs _ _ HR i) as Hs. rewrite Hi in Hs. by inversion Hs. }
  do 3 eexists. split; [done|]. split; [by constructor|]. constructor; try done.
  + intros j. cbn [set_subscribers set_store store max_queue_size log clients].
    destruct (decide (i = j)) as [<-|Hne].
    * rewrite !lookup_insert_eq. constructor. constructor; simpl; try done.
      split; [left; simpl; split; [done|lia] | lia].
    * rewrite !lookup_insert_ne by done. apply HR.
  + intros j. cbn [set_subscribers set_store store subscribers].
    rewrite elem_of_union, elem_of_singleton, (R_set _ _ HR).
    destruct (decide (i = j)) as [<-|Hne].
    * rewrite lookup_insert_eq. split; [|auto]. intros _. by eexists.
    * rewrite lookup_insert_ne by done. naive_solver.
Qed.

Lemma simulates_publish h ch tps why : R h ch -> simulates h ch (OPublish tps why).
Proof.
  intros HR. pose proof (R_size _ _ HR) as Hsize. pose proof (R_seq _ _ HR) as Hseq.
  unfold simulates. cbn [perform].
  unfold publish. destruct (dedupe tps) as [|t ts] eqn:Hd.
  { do 3 eexists. split; [done|]. split; [by constructor | done]. }
  set (e := {| seq := next_seq h; topics := t :: ts; reason := why; app_version := None |}).
  assert (ChannelStep ch (LPublish tps why (Returns e)) {| log := log ch ++ [e]; clients := clients ch |})
    as Hstep by (apply CS_publish; [congruence | unfold e; rewrite Hd; by f_equal]).
  destruct (for_each_enqueue e (elements (subscribers h)) (set_next_seq (next_seq h + 1) h) ch)
    as (m & Hrun & Hother & Hin); [apply NoDup_elements|done|done| |].
  { intros i Hi. apply elem_of_elements, (R_set _ _ HR) in Hi as (s & Hs & _).
    destruct (R_lookup h ch i s HR Hs) as (c & Hc & HRi). by exists s, c. }
  assert (R (set_store m (set_next_seq (next_seq h + 1) h)) {| log := log ch ++ [e]; clients := clients ch |})
    as HR'.
  { constructor; [done| | |].
    - cbn [set_store set_next_seq next_seq log]. rewrite length_app. simpl. lia.
    - intros i. cbn [set_store set_next_seq store max_queue_size log clients].
      destruct (decide (i ∈ elements (subscribers h))) as [Hi|Hi].
      + destruct (Hin i Hi) as (s & s' & c & _ & -> & -> & _ & HRi). by constructor.
      + rewrite (Hother i Hi). cbn [set_next_seq store].
        pose proof (R_subs _ _ HR i) as Hs. inversion Hs as [s c HRi Hsi Hci|]; [|constructor].
        constructor. rewrite elem_of_elements, (R_set _ _ HR) in Hi. destruct HRi as [? ? ? ? ? Hq].
        destruct (closed s) eqn:Hcl; [|destruct Hi; eauto]. by constructor; rewrite ?Hcl.
    - intros i. cbn [set_store set_next_seq store subscribers].
      destruct (decide (i ∈ elements (subscribers h))) as [Hi|Hi].
      + destruct (Hin i Hi) as (s & s' & c & Hs & Hs' & _ & Hcl & _).
        rewrite elem_of_elements in Hi. pose proof Hi as Hi'. apply (R_set _ _ HR) in Hi' as (s0 & Hs0 & Hcl0).
        cbn [set_next_seq store] in Hs. split; [|done]. intros _. exists s'. split; [done|]. congruence.
      + rewrite (Hother i Hi). apply (R_set _ _ HR). }
  case_bool_decide as Hempty.
  + exists (LPublish tps why (Returns e)), (set_next_seq (next_seq h + 1) h). eexists.
    split; [done|]. split; [done|].
    replace (set_next_seq (next_seq h + 1) h) with (set_store m (set_next_seq (next_seq h + 1) h)); [done|].
    cbn [set_next_seq subscribers] in Hempty. rewrite Hempty, elements_empty in Hrun.
    cbn [for_each] in Hrun. by injection Hrun as <-.
  + cbn [set_next_seq subscribers]. rewrite Hrun. cbn [mbind option_bind]. eauto 10.
Qed.

Lemma simulates_close h ch i why s : R h ch -> store h !! i = Some s -> simulates h ch (OClose i why).
Proof.
  intros HR Hs. unfold simulates. cbn [perform].
  destruct (R_lookup h ch i s HR Hs) as (c & Hc & HRi).
  destruct (R_close h ch i s c why HR Hs Hc) as (h' & Hrun & _ & _ & HR').
  rewrite Hrun. cbn [mbind option_bind]. do 3 eexists. split; [done|]. split; [by constructor|done].
Qed.

Lemma R_close_matching h ch why auth user : R h ch ->
  exists h', close_matching why auth user h = Some h' /\
    R h' {| log := log ch; clients := (fun c => if c_matches auth user c then part (Some why) c else c)
              <$> clients ch |}.
Proof.
  intros HR.
  destruct (R_close_loop why auth user (elements (subscribers h)) h ch)
    as (h' & Hrun & HR'); [apply NoDup_elements|done| |].
  { intros i Hi. apply elem_of_elements, (R_set _ _ HR) in Hi as (s & ? & _). eauto. }
  exists h'. split; [done|].
  match type of HR' with R _ {| log := _; clients := ?m1 |} =>
    match goal with |- R _ {| log := _; clients := ?m2 |} => replace m2 with m1; [done|] end end.
  apply map_eq. intros j. rewrite map_lookup_imap, lookup_fmap.
  destruct (clients ch !! j) as [c|] eqn:Hc; [|done]. simpl. f_equal.
  case_bool_decide as Hj; [done|]. simpl. rewrite elem_of_elements, (R_set _ _ HR) in Hj.
  pose proof (R_subs _ _ HR j) as Hsub. rewrite Hc in Hsub. inversion Hsub as [s c' HRj Hsj|]; subst.
  assert (closed s = true) as Hcl by (destruct (closed s) eqn:E; [done|]; destruct Hj; eauto).
  rewrite (part_closed _ _ _ _ _ HRj Hcl). by destruct (c_matches auth user c).
Qed.

Lemma simulates_close_matching h ch why auth user : R h ch ->
  simulates h ch (OCloseMatching why auth user).
Proof.
  intros HR. unfold simulates. cbn [perform].
  destruct (R_close_matching h ch why auth user HR) as (h' & Hrun & HR'). rewrite Hrun.
  cbn [mbind option_bind]. do 3 eexists. split; [done|]. split; [constructor|done].
Qed.

Lemma simulates_get h ch i s : R h ch -> store h !! i = Some s -> simulates h ch (OGet i).
Proof.
  intros HR Hs. pose proof (R_size _ _ HR) as Hsize. unfold simulates. cbn [perform].
  destruct (R_lookup h ch i s HR Hs) as (c & Hc & HRi). pose proof HRi as [Ha Hu Ho Hb Hcur Hq].
  unfold get. rewrite Hs. cbn [mbind option_bind].
  destruct (closed s) eqn:Hcl.
  + symmetry in Ho. apply negb_true_iff in Ho. destruct (farewell c) as [w|] eqn:Hf.
    * rewrite Hq. rewrite (close_closed None i _ (set_queue [] s)); [|cbn; by rewrite lookup_insert_eq|done].
      cbn [mbind option_bind]. do 3 eexists. split; [done|]. split; [by eapply CS_farewell|].
      constructor; try done; try apply HR.
      -- intros j. cbn [set_store store max_queue_size log clients]. destruct (decide (i = j)) as [<-|Hne].
         ++ rewrite !lookup_insert_eq. constructor. constructor; simpl; try done; try lia.
            by rewrite Hcl.
         ++ rewrite !lookup_insert_ne by done. apply HR.
      -- intros j. cbn [set_store store subscribers]. rewrite (R_set _ _ HR).
         destruct (decide (i = j)) as [<-|Hne]; [|by rewrite lookup_insert_ne].
         rewrite lookup_insert_eq. split; [|]; intros (s' & Hs' & Hcl'); exfalso.
         ++ congruence.
         ++ injection Hs' as <-. simpl in Hcl'. congruence.
    * rewrite Hq. do 3 eexists. split; [done|]. split; [by eapply CS_silent|done].
  + symmetry in Ho. apply negb_false_iff in Ho.
    destruct (queue s) as [|[e|w] q] eqn:Hqu; [| |done].
    * do 3 eexists. split; [done|]. split; [by eapply CS_up_to_date|done].
    * destruct Hq as [Ht Hq]. do 3 eexists. split; [done|]. split; [by eapply CS_told|].
      constructor; try done; try apply HR.
      -- intros j. cbn [set_store store max_queue_size log clients]. destruct (decide (i = j)) as [<-|Hne].
         ++ rewrite !lookup_insert_eq. constructor. apply told_gt in Ht.
            constructor; simpl in *; try done; try lia; by rewrite ?Hcl, ?Ho.
         ++ rewrite !lookup_insert_ne by done. apply HR.
      -- intros j. cbn [set_store store subscribers]. rewrite (R_set _ _ HR).
         destruct (decide (i = j)) as [<-|Hne]; [|by rewrite lookup_insert_ne].
         rewrite lookup_insert_eq, Hs. naive_solver.
Qed.

Lemma perform_simulates h ch o : R h ch -> names o h = true -> simulates h ch o.
Proof.
  intros HR Hn. destruct o as [auth user|tps why|i why|why auth user|why|i].
  - by apply simulates_subscribe.
  - by apply simulates_publish.
  - cbn [names] in Hn. apply bool_decide_eq_true in Hn as [s Hs]. by eapply simulates_close.
  - by apply simulates_close_matching.
  - exact (simulates_close_matching h ch why None None HR).
  - cbn [names] in Hn. apply bool_decide_eq_true in Hn as [s Hs]. by eapply simulates_get.
Qed.

Lemma R_new n v h : new_hub n v = Ok h -> R h empty_channel.
Proof.
  unfold new_hub. destruct (Z.ltb_spec n 1); [done|]. intros [= <-]. constructor; simpl.
  - lia.
  - done.
  - intros i. constructor.
  - intros i. rewrite lookup_empty. split; [set_solver|]. by intros (s & ? & _).
Qed.

Lemma run_simulates ops h ch : R h ch ->
  exists ls h' ch', run ops h = Some (ls, h') /\ ChannelTrace ch ls ch' /\ R h' ch'.
Proof.
  revert h ch; induction ops as [|o ops IH]; intros h ch HR.
  - exists [], h, ch. repeat split; try done; try apply HR. constructor.
  - simpl. destruct (names o h) eqn:Hn; [|by apply IH].
    destruct (perform_simulates h ch o HR Hn) as (l & h1 & ch1 & -> & Hstep & HR1).
    cbn [mbind option_bind]. destruct (IH h1 ch1 HR1) as (ls & h' & ch' & -> & Htr & HR').
    cbn [mbind option_bind]. do 3 eexists. split; [done|]. split; [by econstructor|done].
Qed.

(** C25: the hub refines the channel: from a new hub, any sequence of
    subscriptions, publications, closes and reads has exactly the observable
    history of an unbounded numbered log with one cursor per client - every
    read tells the next event, or a [sync] that stands for all up to its
    number, a read waits only when the client is up to date, a closed stream
    yields its reason once and nothing else - and no call ever fails on a full
    queue although every queue stays within its bound. *)
Theorem hub_refines_channel size version ops h :
  new_hub size version = Ok h ->
  exists ls h' ch, run ops h = Some (ls, h') /\ ChannelTrace empty_channel ls ch /\
    forall i s, store h' !! i = Some s -> (length (queue s) <= max_queue_size h')%nat.
Proof.
  intros Hnew. destruct (run_simulates ops h empty_channel) as (ls & h' & ch & Hrun & Htr & HR).
  { by eapply R_new. }
  exists ls, h', ch. split; [done|]. split; [done|]. intros i s Hs.
  destruct (R_lookup h' ch i s HR Hs) as (c & _ & HRi). apply HRi.
Qed.

Lemma hub_refines_channel_witness :
  exists h ls h' ch, new_hub 2 (Some (lit "v1")) = Ok h /\
    run [OSubscribe None (Some 7); OPublish [lit "queue"; lit "queue"] (lit "a"); OPublish [lit "requests"] (lit "b");
         OGet 0; OGet 0; OCloseAll (lit "shutdown"); OGet 0; OGet 0] h = Some (ls, h') /\
    ChannelTrace empty_channel ls ch.
Proof.
  eexists. destruct (hub_refines_channel 2 (Some (lit "v1"))
    [OSubscribe None (Some 7); OPublish [lit "queue"; lit "queue"] (lit "a"); OPublish [lit "requests"] (lit "b");
     OGet 0; OGet 0; OCloseAll (lit "shutdown"); OGet 0; OGet 0] _ eq_refl)
    as (ls & h' & ch & Hrun & Htr & _).
  exists ls, h', ch. split; [reflexivity|]. split; [exact Hrun | exact Htr].
Defined.

(** ** Nothing published is lost *)

(** Cursors do not pass the end of the log, and the log is numbered. *)
Record ChannelOk (ch : Channel) : Prop := {
  ok_cursor : forall i c, clients ch !! i = Some c -> cursor c <= Z.of_nat (length (log ch));
  ok_log : forall k e, log ch !! k = Some e -> seq e = Z.of_nat k + 1;
}.

Lemma ok_clients ch m : ChannelOk ch ->
  (forall i c, m !! i = Some c -> cursor c <= Z.of_nat (length (log ch))) ->
  ChannelOk {| log := log ch; clients := m |}.
Proof. intros [Hc Hl] Hm. by constructor. Qed.

Lemma cursor_part why c : cursor (part why c) = cursor c.
Proof. unfold part. by destruct (c_open c). Qed.

Lemma ChannelStep_ok ch l ch' : ChannelStep ch l ch' -> ChannelOk ch -> ChannelOk ch'.
Proof.
  intros Hstep Hok. pose proof Hok as [Hc Hl]. destruct Hstep; try done.
  - apply ok_clients; [done|]. intros j c Hj. destruct (decide (i = j)) as [<-|Hne].
    + rewrite lookup_insert_eq in Hj. injection Hj as <-. simpl. lia.
    + rewrite lookup_insert_ne in Hj by done. eauto.
  - constructor; simpl; rewrite ?length_app; simpl.
    + intros i c Hi. specialize (Hc i c Hi). lia.
    + intros k e'. rewrite lookup_app_Some. intros [Hk|[Hk He]]; [eauto|].
      apply list_lookup_singleton_Some in He as [Hk' <-]. subst e. simpl. lia.
  - apply ok_clients; [done|]. intros j c' Hj. destruct (decide (i = j)) as [<-|Hne].
    + rewrite lookup_insert_eq in Hj. injection Hj as <-. rewrite cursor_part. eauto.
    + rewrite lookup_insert_ne in Hj by done. eauto.
  - apply ok_clients; [done|]. intros j c' Hj. rewrite lookup_fmap in Hj.
    destruct (clients ch !! j) as [c|] eqn:Hj'; [|done]. injection Hj as <-.
    destruct (c_matches auth user c); rewrite ?cursor_part; eauto.
  - apply ok_clients; [done|]. intros j c' Hj. destruct (decide (i = j)) as [<-|Hne].
    + rewrite lookup_insert_eq in Hj. injection Hj as <-. simpl.
      match goal with H : told _ _ _ |- _ => destruct H as [[_ ?]|(? & ? & Hlk)]; [lia|] end.
      apply lookup_lt_Some in Hlk. lia.
    + rewrite lookup_insert_ne in Hj by done. eauto.
  - apply ok_clients; [done|]. intros j c' Hj. destruct (decide (i = j)) as [<-|Hne].
    + rewrite lookup_insert_eq in Hj. injection Hj as <-. simpl. eauto.
    + rewrite lookup_insert_ne in Hj by done. eauto.
Qed.

(** The read that takes a client past an event tells it of the event. *)
Definition tells (e e' : RealtimeEvent) : Prop :=
  e' = e \/ (topics e' = [lit "sync"] /\ seq e <= seq e').

(** One step keeps the client, and its cursor or tells it. *)
Lemma ChannelStep_client ch l ch' i c e : ChannelStep ch l ch' -> clients ch !! i = Some c ->
  log ch !! Z.to_nat (seq e - 1) = Some e -> 0 < seq e -> cursor c < seq e ->
  exists c', clients ch' !! i = Some c' /\ log ch' !! Z.to_nat (seq e - 1) = Some e /\
    (cursor c' < seq e \/ exists e', l = LGet i (Gets e') /\ tells e e').
Proof.
  intros Hstep Hi Hlog Hpos Hcur.
  destruct Hstep as [ch auth user j Hfresh| |ch tps why e0 Hd He0|ch j why cj Hj|ch why auth user
    |ch j cj e' Hj Ho Ht| |ch j cj why Hj Ho Hf|]; cbn [clients log]; eauto.
  - rewrite lookup_insert_ne by congruence. eauto.
  - exists c. split; [done|]. split; [by apply lookup_app_l_Some|]. by left.
  - destruct (decide (j = i)) as [->|]; [rewrite lookup_insert_eq | rewrite lookup_insert_ne by done; eauto].
    eexists. split; [done|]. split; [done|]. left. rewrite cursor_part. congruence.
  - rewrite lookup_fmap, Hi. eexists. split; [done|]. split; [done|]. left.
    destruct (c_matches auth user c); by rewrite ?cursor_part.
  - destruct (decide (j = i)) as [->|]; [rewrite lookup_insert_eq | rewrite lookup_insert_ne by done; eauto].
    eexists. split; [done|]. split; [done|]. cbn [set_cursor cursor].
    rewrite Hi in Hj. injection Hj as <-.
    destruct (Z.ltb_spec (seq e') (seq e)); [by left|]. right. exists e'. split; [done|].
    destruct Ht as [[Htop _]|(H0 & Hs & Hl)]; [by right|]. left.
    replace (Z.to_nat (seq e - 1)) with (Z.to_nat (cursor c)) in Hlog by lia. congruence.
  - destruct (decide (j = i)) as [->|]; [rewrite lookup_insert_eq | rewrite lookup_insert_ne by done; eauto].
    eexists. split; [done|]. split; [done|]. left. simpl. congruence.
Qed.

Lemma ChannelTrace_tells ch ls ch' i c c' e : ChannelTrace ch ls ch' -> clients ch !! i = Some c ->
  log ch !! Z.to_nat (seq e - 1) = Some e -> 0 < seq e -> cursor c < seq e ->
  clients ch' !! i = Some c' -> seq e <= cursor c' ->
  exists e', LGet i (Gets e') ∈ ls /\ tells e e'.
Proof.
  intros Htr. revert c. induction Htr as [ch|ch l ch1 ls ch2 Hstep Htr IH]; intros c Hi Hlog Hpos Hcur Hi' Hle.
  - rewrite Hi in Hi'. injection Hi' as <-. lia.
  - destruct (ChannelStep_client _ _ _ i c e Hstep Hi Hlog Hpos Hcur) as (c1 & Hi1 & Hlog1 & [Hc1|Ht]).
    + destruct (IH c1 Hi1 Hlog1 Hpos Hc1 Hi' Hle) as (e' & Hin & Ht). exists e'. split; [by right|done].
    + destruct Ht as (e' & -> & Ht). exists e'. split; [left|done].
Qed.

Lemma ChannelTrace_app ch ls1 ls2 ch' : ChannelTrace ch (ls1 ++ ls2) ch' <->
  exists ch1, ChannelTrace ch ls1 ch1 /\ ChannelTrace ch1 ls2 ch'.
Proof.
  revert ch; induction ls1 as [|l ls1 IH]; intros ch; simpl.
  - split; [intros H; exists ch; split; [constructor|done]|]. intros (ch1 & H1 & H2). by inversion H1; subst.
  - split.
    + intros H. inversion H as [|? ? ch0 ? ? Hs Ht]; subst. apply IH in Ht as (ch1 & H1 & H2).
      exists ch1. split; [by econstructor|done].
    + intros (ch1 & H1 & H2). inversion H1 as [|? ? ch0 ? ? Hs Ht]; subst.
      econstructor; [done|]. apply IH. eauto.
Qed.

Lemma ChannelTrace_ok ch ls ch' : ChannelTrace ch ls ch' -> ChannelOk ch -> ChannelOk ch'.
Proof. induction 1; eauto using ChannelStep_ok. Qed.

Lemma empty_channel_ok : ChannelOk empty_channel.
Proof. constructor; simpl; [intros i c; by rewrite lookup_empty | done]. Qed.

(** A client stays known, and one that has not read its close reason is open
    or will read it. *)
Lemma ChannelTrace_known ch ls ch' i c : ChannelTrace ch ls ch' -> clients ch !! i = Some c ->
  (forall why, LGet i (StreamClosed why) ∉ ls) -> (c_open c = false -> farewell c <> None) ->
  exists c', clients ch' !! i = Some c' /\ (c_open c' = false -> farewell c' <> None).
Proof.
  intros Htr. revert c. induction Htr as [ch|ch l ch1 ls ch2 Hstep Htr IH]; intros c Hi Hno Hf; [eauto|].
  assert (exists c1, clients ch1 !! i = Some c1 /\ (c_open c1 = false -> farewell c1 <> None))
    as (c1 & Hi1 & Hf1).
  { destruct Hstep as [ch auth user j Hfresh| |ch tps why e0 Hd He0|ch j why cj Hj|ch why auth user
      |ch j cj e' Hj Ho Ht| |ch j cj why Hj Ho Hfw|]; cbn [clients]; eauto.
    - rewrite lookup_insert_ne by congruence. eauto.
    - destruct (decide (j = i)) as [->|]; [rewrite lookup_insert_eq | rewrite lookup_insert_ne by done; eauto].
      eexists. split; [done|]. rewrite Hi in Hj. injection Hj as <-. unfold part.
      by destruct (c_open c) eqn:E; [|rewrite E].
    - rewrite lookup_fmap, Hi. eexists. split; [done|].
      destruct (c_matches auth user c); [|done]. unfold part. by destruct (c_open c) eqn:E; [|rewrite E].
    - destruct (decide (j = i)) as [->|]; [rewrite lookup_insert_eq | rewrite lookup_insert_ne by done; eauto].
      eexists. split; [done|]. rewrite Hi in Hj. injection Hj as <-. done.
    - destruct (decide (j = i)) as [->|]; [|rewrite lookup_insert_ne by done; eauto].
      destruct (Hno why). left. }
  apply (IH c1 Hi1); [|done]. intros why Hin. apply (Hno why). by right.
Qed.

(** No invalidation is lost: in any history of the hub, when a stream that
    has not been told it was closed finds its queue empty, every event
    published since it subscribed has been delivered to it since, as itself or
    as a [sync] numbered no lower. *)
Theorem no_event_is_lost size version ops h ls h' i auth user before mid tps why e after :
  new_hub size version = Ok h -> run ops h = Some (ls, h') ->
  ls = before ++ [LSubscribe auth user i] ++ mid ++ [LPublish tps why (Returns e)] ++ after ++ [LGet i Waits] ->
  (forall w, LGet i (StreamClosed w) ∉ mid ++ [LPublish tps why (Returns e)] ++ after) ->
  exists e', LGet i (Gets e') ∈ after /\ tells e e'.
Proof.
  intros Hnew Hrun Hls Hno.
  destruct (run_simulates ops h empty_channel) as (ls' & h'' & ch & Hrun' & Htr & _); [by eapply R_new|].
  rewrite Hrun in Hrun'. injection Hrun' as <- <-. rewrite Hls in Htr.
  apply ChannelTrace_app in Htr as (ch0 & Hbefore & Htr).
  apply ChannelTrace_app in Htr as (ch1 & Hsub & Htr).
  inversion Hsub as [|? ? x ? ? Hs Hnil]; subst. inversion Hnil; subst. clear Hsub Hnil.
  apply ChannelTrace_app in Htr as (ch2 & Hmid & Htr).
  apply ChannelTrace_app in Htr as (ch3 & Hpub & Htr).
  inversion Hpub as [|? ? x ? ? Hp Hnil]; subst. inversion Hnil; subst. clear Hnil.
  apply ChannelTrace_app in Htr as (ch4 & Hafter & Hget).
  inversion Hget as [|? ? x ? ? Hg Hnil]; subst. inversion Hnil; subst. clear Hget Hnil.
  assert (ChannelOk ch2) as Hok2.
  { apply (ChannelTrace_ok _ _ _ Hmid), (ChannelStep_ok _ _ _ Hs), (ChannelTrace_ok _ _ _ Hbefore).
    apply empty_channel_ok. }
  assert (exists c1, clients ch1 !! i = Some c1 /\ (c_open c1 = false -> farewell c1 <> None))
    as (c1 & Hc1 & Hf1) by (inversion Hs; subst; eexists; cbn [clients]; by rewrite lookup_insert_eq).
  assert (forall w, LGet i (StreamClosed w) ∉ mid) as Hno1 by (intros w; specialize (Hno w); set_solver).
  assert (forall w, LGet i (StreamClosed w) ∉ after) as Hno2 by (intros w; specialize (Hno w); set_solver).
  destruct (ChannelTrace_known _ _ _ i c1 Hmid Hc1 Hno1 Hf1) as (c2 & Hc2 & Hf2).
  pose proof (ok_cursor _ Hok2 i c2 Hc2) as Hcur2.
  assert (log ch3 !! Z.to_nat (seq e - 1) = Some e /\ seq e = Z.of_nat (length (log ch2)) + 1 /\
          clients ch3 = clients ch2) as (Hlog3 & Hseq & Hcl3).
  { inversion Hp as [| |? ? ? ? Hd He| | | | | |]; subst. cbn [log clients seq]. split; [|done].
    rewrite Z.add_simpl_r, Nat2Z.id. by apply list_lookup_middle. }
  assert (clients ch3 !! i = Some c2) as Hc3 by congruence.
  destruct (ChannelTrace_known _ _ _ i c2 Hafter Hc3 Hno2 Hf2) as (c4 & Hc4 & Hf4).
  assert (ChannelOk ch3) as Hok3 by (by apply (ChannelStep_ok _ _ _ Hp)).
  apply (ChannelTrace_tells ch3 after ch4 i c2 c4 e Hafter Hc3 Hlog3); [lia|lia|done|].
  assert (length (log ch3) <= length (log ch4))%nat.
  { clear -Hafter. induction Hafter as [|? ? ? ? ? Hstep _ IH]; [done|].
    etrans; [|exact IH]. destruct Hstep; cbn [log]; rewrite ?length_app; lia. }
  apply lookup_lt_Some in Hlog3.
  inversion Hg as [| | | | | |? ? c Hc Ho Hcur| |? ? c Hc Ho Hf]; subst; rewrite Hc4 in Hc; injection Hc as <-.
  - lia.
  - by destruct (Hf4 Ho).
Qed.

Lemma no_event_is_lost_witness :
  exists e', LGet 0 (Gets e') ∈ [LPublish [lit "requests"] (lit "b") (Returns
      {| seq := 2; topics := [lit "requests"]; reason := lit "b"; app_version := None |});
      LGet 0 (Gets (overflow_event {| seq := 2; topics := [lit "requests"]; reason := lit "b"; app_version := None |}))] /\
    tells {| seq := 1; topics := [lit "queue"]; reason := lit "a"; app_version := None |} e'.
Proof.
  eapply (no_event_is_lost 1 None
    [OSubscribe None None; OPublish [lit "queue"] (lit "a"); OPublish [lit "requests"] (lit "b"); OGet 0; OGet 0]
    _ _ _ 0 None None [] [] [lit "queue"] (lit "a")).
  - reflexivity.
  - vm_compute. reflexivity.
  - vm_compute. reflexivity.
  - intros w. cbn [app]. rewrite !not_elem_of_cons. repeat split; try done. apply not_elem_of_nil.
Defined.

(** ** Lemmas on the remaining operations *)

(** The topics of a published event: those given, each once. *)
Lemma dedupe_spec (l : list (list N)) : NoDup (dedupe l) /\ forall t, t ∈ dedupe l <-> t ∈ l.
Proof.
  unfold dedupe. induction l as [|t l IH] using rev_ind; [split; [constructor|done]|].
  rewrite foldl_snoc. destruct IH as [Hnd Hin]. cbv beta.
  destruct (mem t _) eqn:Hm.
  - apply mem_true in Hm. split; [done|]. intros x. rewrite elem_of_app, list_elem_of_singleton, Hin.
    apply Hin in Hm. naive_solver.
  - apply mem_false in Hm. split.
    + apply NoDup_app. split; [done|]. split; [|by repeat constructor; intros ?%not_elem_of_nil].
      intros x Hx Hx'. apply list_elem_of_singleton in Hx' as ->. done.
    + intros x. rewrite !elem_of_app, Hin. done.
Qed.

(** ** Multi-worker detection *)

Section env.
Context {DB : UnicodeDB}.

Abbreviation env := (gmap (list N) (list N)).

Definition _BUILD_ID_ENV : list N := lit "PLEX_MANAGER_BUILD_ID".

(** [os.environ.get(_BUILD_ID_ENV) or __version__]. *)
Definition current_build_id (version : list N) (e : env) : list N :=
  match e !! _BUILD_ID_ENV with
  | Some ((_ :: _) as v) => v
  | _ => version
  end.

Definition text_re (w : list N) : re := cats ((fun c => Chr (fun x => (x =? c)%N)) <$> w).
Definition is_dec (c : N) : bool := bool_decide (is_Some (digit_val c)).

Definition _GUNICORN_WORKERS_RE : re :=
  cats [alts [Bol; Chr is_space];
        alts [text_re (lit "--workers"); text_re (lit "-w")];
        alts [Chr (fun c => (c =? 61)%N); Rep is_space 1 None];
        Grp (Rep is_dec 1 None);
        alts [Chr is_space; Eol]].

(** A value that is no integer is no signal; a matched digit run beyond the
    interpreter's limit raises. *)
Definition detect_multiworker_signals (e : env) : res (gset (list N)) :=
  let plain : gset (list N) := foldl (fun (signals : gset (list N)) var =>
      match e !! var with
      | None => signals
      | Some raw =>
          match int_of_str raw with
          | Some n => if 1 <? n then {[var]} ∪ signals else signals
          | None => signals
          end
      end) ∅ [lit "WEB_CONCURRENCY"; lit "UVICORN_WORKERS"; lit "WORKERS"] in
  match search_from _GUNICORN_WORKERS_RE None (default [] (e !! lit "GUNICORN_CMD_ARGS")) with
  | Some (_, st) =>
      match int_of_str (default [] (m_grp st)) with
      | Some n => Ok (if 1 <? n then {[lit "GUNICORN_CMD_ARGS"]} ∪ plain else plain)
      | None => Raise (ValueError (lit "Exceeds the limit for integer string conversion"))
      end
  | None => Ok plain
  end.
End env.

Example detects_gunicorn_flag :
  elements <$> detect_multiworker_signals (DB := ascii_db)
    (<[lit "GUNICORN_CMD_ARGS" := lit "--bind 0:80 -w 4"]> (<[lit "WORKERS" := lit "auto"]> ∅))
  = Ok [lit "GUNICORN_CMD_ARGS"].
Proof. vm_compute. reflexivity. Qed.
