(* ===== verification/StateMachine.v ===== *)
(** * The download lifecycle ([domain/state_machine.py])

    The states persisted in [downloads.status], the legal graph and the two
    sets of states the rest of the program tests. *)

From Stdlib Require Import ZArith Bool String.
From stdpp Require Import relations.
From S2P Require Import Prelude PyStr.

Inductive DownloadState : Type :=
  | Searching | Downloading | MetadataFetching | ImportPending | ImportBlocked
  | Importing | Imported | FailedPending | Failed | NoAcceptableRelease | ClientMissing.

#[export] Instance DownloadState_eq_dec : EqDecision DownloadState.
Proof. solve_decision. Defined.

(** The enum's string value. *)
Definition value (s : DownloadState) : list N :=
  match s with
  | Searching => lit "searching"
  | Downloading => lit "downloading"
  | MetadataFetching => lit "metadata_fetching"
  | ImportPending => lit "import_pending"
  | ImportBlocked => lit "import_blocked"
  | Importing => lit "importing"
  | Imported => lit "imported"
  | FailedPending => lit "failed_pending"
  | Failed => lit "failed"
  | NoAcceptableRelease => lit "no_acceptable_release"
  | ClientMissing => lit "client_missing"
  end.

#[global] Arguments value : simpl never.

Definition all_states : list DownloadState :=
  [Searching; Downloading; MetadataFetching; ImportPending; ImportBlocked; Importing;
   Imported; FailedPending; Failed; NoAcceptableRelease; ClientMissing].

Definition TRANSITIONS : list (DownloadState * list DownloadState) :=
  [ (Searching, [Downloading; NoAcceptableRelease]);
    (Downloading, [MetadataFetching; ImportPending; FailedPending; ClientMissing; Downloading]);
    (MetadataFetching, [Downloading; FailedPending; ClientMissing]);
    (ImportPending, [Importing; ImportBlocked; FailedPending]);
    (Importing, [Imported; ImportBlocked]);
    (ImportBlocked, [Importing; FailedPending]);
    (FailedPending, [Failed]);
    (ClientMissing, [Downloading; FailedPending]);
    (Failed, []);
    (Imported, []);
    (NoAcceptableRelease, []) ].

Definition TERMINAL_STATES : list DownloadState := [Imported; Failed; NoAcceptableRelease].

Definition ACTIVE_STATES : list DownloadState :=
  [Downloading; MetadataFetching; ImportPending; ClientMissing].

Definition is_legal_transition (frm to : DownloadState) : bool :=
  mem to (default [] (assoc frm TRANSITIONS)).

(** ** The graph as a step relation *)

Definition legal (frm to : DownloadState) : Prop := is_legal_transition frm to = true.

#[export] Instance legal_dec frm to : Decision (legal frm to).
Proof. unfold legal. apply _. Defined.

Lemma all_states_complete s : s ∈ all_states.
Proof. destruct s; apply mem_true; reflexivity. Qed.

Lemma value_inj s t : value s = value t -> s = t.
Proof.
  intros H.
  assert (forallb (fun a => forallb (fun b =>
    bool_decide (value a = value b -> a = b)) all_states) all_states = true) as Hall
    by by_compute.
  rewrite forallb_forall_iff in Hall. specialize (Hall s (all_states_complete s)).
  rewrite forallb_forall_iff in Hall. specialize (Hall t (all_states_complete t)).
  apply bool_decide_eq_true in Hall. auto.
Qed.

#[export] Instance value_Inj : Inj (=) (=) value := value_inj.

(** [DownloadState(value)]: the state a stored string names. *)
Definition of_value (s : list N) : option DownloadState :=
  List.find (fun st => bool_decide (value st = s)) all_states.

Lemma of_value_value s : of_value (value s) = Some s.
Proof. by destruct s; vm_compute. Qed.

Lemma legal_decide_all (P : DownloadState -> bool) :
  forallb P all_states = true -> forall s, P s = true.
Proof. rewrite forallb_forall_iff. intros H s. apply H, all_states_complete. Qed.

(** No legal move leaves [s]. *)
Definition no_exit (s : DownloadState) : Prop := forall t, ~ legal s t.

Lemma last_move s t : rtc legal s t -> s <> t -> exists u, rtc legal s u /\ legal u t.
Proof.
  intros Hst Hne. apply rtc_inv_r in Hst as [->|(u & Hsu & Hut)]; [done|eauto].
Qed.

Lemma enters_Imported u : legal u Imported -> u = Importing.
Proof. by destruct u; vm_compute. Qed.

Lemma enters_Failed u : legal u Failed -> u = FailedPending.
Proof. by destruct u; vm_compute. Qed.

(** A state is one of [TERMINAL_STATES] exactly when no legal move leaves
    it, and every state is either terminal or has a legal route to a terminal
    state: no download can be stuck outside the terminal states. *)
Theorem terminal_states_are_the_exits s :
  (s ∈ TERMINAL_STATES <-> no_exit s) /\
  exists t, rtc legal s t /\ t ∈ TERMINAL_STATES.
Proof.
  split.
  - split.
    + intros Hs t Ht. destruct s, t; try (vm_compute in Ht; discriminate);
        apply mem_true in Hs; discriminate Hs.
    + intros Hs. destruct (decide (s ∈ TERMINAL_STATES)) as [|Hn]; [done|].
      destruct s; try (exfalso; apply Hn, mem_true; reflexivity); exfalso;
        first [ by apply (Hs Downloading) | by apply (Hs FailedPending)
              | by apply (Hs Imported) | by apply (Hs Failed) ].
  - assert (Hfp : forall u, legal u FailedPending -> rtc legal u Failed).
    { intros u Hu. eapply rtc_l; [done|]. by apply rtc_once. }
    destruct s;
      first [ exists Imported; split; [apply rtc_refl | by apply mem_true]
            | exists Failed; split; [apply rtc_refl | by apply mem_true]
            | exists NoAcceptableRelease; split; [apply rtc_refl | by apply mem_true]
            | exists Failed; split; [by apply rtc_once | by apply mem_true]
            | exists Failed; split; [by apply Hfp | by apply mem_true]
            | exists Imported; split; [by apply rtc_once | by apply mem_true]
            | exists NoAcceptableRelease; split; [by apply rtc_once | by apply mem_true] ].
Qed.

(** Whatever legal route a download takes, it is imported only out of
    [Importing] and failed only out of [FailedPending] (the pause in which the
    failure is recorded before the release is blocklisted). *)
Theorem outcomes_are_gated s t :
  rtc legal s t -> s <> t ->
  (t = Imported -> rtc legal s Importing /\ legal Importing t) /\
  (t = Failed -> rtc legal s FailedPending /\ legal FailedPending t).
Proof.
  intros Hst Hne. destruct (last_move s t Hst Hne) as (u & Hsu & Hut).
  split; intros ->.
  - by rewrite (enters_Imported u Hut) in *.
  - by rewrite (enters_Failed u Hut) in *.
Qed.

Lemma outcomes_are_gated_witness :
  rtc legal Downloading Imported /\ Downloading <> Imported /\ rtc legal Downloading Importing.
Proof.
  assert (rtc legal Downloading Imported) as H.
  { apply rtc_l with ImportPending; [reflexivity|].
    apply rtc_l with Importing; [reflexivity|]. apply rtc_once. reflexivity. }
  split; [done|]. split; [done|].
  exact (proj1 (proj1 (outcomes_are_gated Downloading Imported H ltac:(discriminate)) eq_refl)).
Defined.
