(* ===== verification/Events.v ===== *)
(** * The in-process event bus ([domain/events.py])

    A handler is any computation on the bus and the rest of the world that may
    raise; it may subscribe further handlers, or publish, while it runs. *)

From Stdlib Require Import ZArith.
From S2P Require Import Prelude.

Record DownloadFailed := {
  df_torrent_hash : list N;
  df_source_title : list N;
  df_reason : list N;
  df_tmdb_id : option Z;
  df_indexer : option (list N);
  df_occurred_at : option Z;
}.

(** [Event] is a base class with no field; [DownloadFailed] its one subclass. *)
Inductive Event : Type :=
  | BaseEvent
  | DownloadFailedEvent (e : DownloadFailed).

Inductive EventType : Type := TEvent | TDownloadFailed.

#[export] Instance EventType_eq_dec : EqDecision EventType.
Proof. solve_decision. Defined.
#[export] Program Instance EventType_countable : Countable EventType :=
  inj_countable' (fun t => match t with TEvent => true | TDownloadFailed => false end)
    (fun b => if (b : bool) then TEvent else TDownloadFailed) _.
Next Obligation. by intros []. Qed.

(** [type(event)]. *)
Definition type_of (ev : Event) : EventType :=
  match ev with BaseEvent => TEvent | DownloadFailedEvent _ => TDownloadFailed end.

Section EventBus.
Context {Handler W : Type}.

(** [EventBus._subscribers]. *)
Abbreviation bus := (gmap EventType (list Handler)).

(** Calling a handler. *)
Variable call : Handler -> Event -> bus * W -> res (bus * W).

Definition new_bus : bus := ∅.

Definition subscribe (ty : EventType) (h : Handler) (b : bus) : bus :=
  let handlers := default [] (b !! ty) in
  <[ty := handlers ++ [h]]> b.

(** The handler list is copied before the first handler runs. *)
Definition publish (ev : Event) (st : bus * W) : res (bus * W) :=
  res_foldl (fun st h => call h ev st) st (default [] (fst st !! type_of ev)).

Lemma subscribe_lookup ty h b :
  default [] (subscribe ty h b !! ty) = default [] (b !! ty) ++ [h].
Proof. unfold subscribe. by rewrite lookup_insert_eq. Qed.

Lemma subscribe_other ty ty' h b : ty <> ty' -> subscribe ty h b !! ty' = b !! ty'.
Proof. unfold subscribe. intros. by rewrite lookup_insert_ne. Qed.
End EventBus.

(** ** Order and snapshot

    Handlers that record that they ran (in the world) and then do anything to
    the bus. *)
Section dispatch.
Context {Handler : Type}.
Abbreviation bus := (gmap EventType (list Handler)).

(** What a handler does to the bus: it may raise. *)
Variable effect : Handler -> Event -> bus -> res bus.

Definition traced_call (h : Handler) (ev : Event) (st : bus * list Handler)
    : res (bus * list Handler) :=
  b ← effect h ev (fst st); Ok (b, snd st ++ [h]).

Lemma traced_fold ev hs st st' :
  res_foldl (fun st h => traced_call h ev st) st hs = Ok st' -> snd st' = snd st ++ hs.
Proof.
  revert st; induction hs as [|h hs IH]; intros [b log]; cbn.
  - intros [= <-]. by rewrite app_nil_r.
  - intros H. apply bind_Ok in H as ([b1 log1] & H1 & H).
    apply bind_Ok in H1 as (b2 & H1 & [= -> <-]).
    apply IH in H. cbn in *. by rewrite H, <- app_assoc.
Qed.

(** One [publish] runs exactly the handlers that were registered for the
    event's type when it started, in registration order, whatever the handlers
    do to the bus while it runs (subscribing included). *)
Theorem publish_runs_the_snapshot ev b log b' log' :
  publish traced_call ev (b, log) = Ok (b', log') ->
  log' = log ++ default [] (b !! type_of ev).
Proof. intros H. by apply traced_fold in H. Qed.
End dispatch.

(** A handler that subscribes another one for the same event while it runs. *)
Definition self_subscribing (h : nat) (ev : Event) (b : gmap EventType (list nat))
    : res (gmap EventType (list nat)) :=
  Ok (if decide (h = 1) then subscribe (type_of ev) 9 b else b).

Definition two_handlers : gmap EventType (list nat) :=
  subscribe TEvent 2 (subscribe TEvent 1 new_bus).

Lemma publish_runs_the_snapshot_witness :
  exists b', publish (traced_call self_subscribing) BaseEvent (two_handlers, []) = Ok (b', [1; 2])
    /\ [1; 2] = [] ++ default [] (two_handlers !! TEvent) /\ b' !! TEvent = Some [1; 2; 9].
Proof.
  exists (subscribe TEvent 9 two_handlers). split; [reflexivity|]. split; [|reflexivity].
  exact (publish_runs_the_snapshot self_subscribing BaseEvent two_handlers []
    (subscribe TEvent 9 two_handlers) [1; 2] eq_refl).
Defined.
