(* ===== verification/Reconciler.v ===== *)
(** * The download reconciler ([domain/reconciler.py])

    Diffing the download rows against the download client's snapshot, the two
    stall detectors, and the part of [services/queue_service.py] that persists
    a cycle's transitions through the compare-and-swap of
    [repositories/downloads.py]. *)

From Stdlib Require Import ZArith Lia Bool String SpecFloat.
From S2P Require Import Prelude PyStr PyNum StateMachine Events.

#[local] Open Scope bool_scope.

(** The fields of the read-models the reconciler and its caller use. *)
Record DownloadRecord := {
  dr_id : Z;
  dr_torrent_hash : list N;
  dr_status : list N;
  dr_progress : spec_float;
  dr_seed_ratio : spec_float;
  dr_tmdb_id : option Z;
  dr_first_seen_at : option Z;
  dr_added_at : option Z;
  dr_timeout_at : option Z;
}.

Record DownloadStatus := {
  ds_info_hash : list N;
  ds_raw_state : list N;
  ds_progress : spec_float;
  ds_ratio : spec_float;
  ds_last_activity_unix : Z;
}.

Definition _RAW_STATE_MAP : list (list N * DownloadState) :=
  [ (lit "downloading", Downloading); (lit "forcedDL", Downloading);
    (lit "stalledDL", Downloading); (lit "queuedDL", Downloading);
    (lit "checkingDL", Downloading); (lit "checkingResumeData", Downloading);
    (lit "pausedDL", Downloading); (lit "stoppedDL", Downloading);
    (lit "metaDL", MetadataFetching); (lit "forcedMetaDL", MetadataFetching);
    (lit "uploading", ImportPending); (lit "stalledUP", ImportPending);
    (lit "pausedUP", ImportPending); (lit "stoppedUP", ImportPending);
    (lit "queuedUP", ImportPending); (lit "checkingUP", ImportPending);
    (lit "forcedUP", ImportPending); (lit "moving", Downloading);
    (lit "error", FailedPending); (lit "missingFiles", FailedPending) ].

Definition _UNKNOWN_FALLBACK : DownloadState := Downloading.

Definition _ACTIVE_STATUS_VALUES : list (list N) := value <$> ACTIVE_STATES.

Record StateTransition := {
  st_download_id : Z;
  st_torrent_hash : list N;
  st_from_state : list N;
  st_to_state : DownloadState;
  st_reason : option (list N);
  st_set_first_seen_at : bool;
  st_clear_first_seen_at : bool;
}.

Definition _METADATA_STALL_MINUTES : Z := 45.
Definition _STALLED_PROGRESS_HOURS : Z := 3.
Definition METADATA_STALL_WINDOW : Z := minutes _METADATA_STALL_MINUTES.
Definition STALLED_PROGRESS_WINDOW : Z := hours _STALLED_PROGRESS_HOURS.

Definition _STALLED_PROGRESS_RAW_STATES : list (list N) :=
  [lit "downloading"; lit "forcedDL"; lit "stalledDL"].

Definition _DELIBERATELY_IDLE_RAW_STATES : list (list N) :=
  [lit "pausedDL"; lit "stoppedDL"; lit "queuedDL"; lit "checkingDL";
   lit "checkingResumeData"; lit "moving"].

Definition _STALL_ELIGIBLE_STATUS_VALUES : list (list N) :=
  [value Downloading; value MetadataFetching].

Inductive StallShape : Type := metadata_stall | stalled_progress.

Record StallDetection := {
  sd_download_id : Z;
  sd_torrent_hash : list N;
  sd_shape : StallShape;
}.

Section reconciler.
Context {DB : UnicodeDB}.

(** [{status.info_hash.lower(): status for status in client}]. *)
Definition snapshot_of (client : list DownloadStatus) : gmap (list N) DownloadStatus :=
  dict_of ((fun st => (py_lower (ds_info_hash st), st)) <$> client).

Definition live_of (client : list DownloadStatus) (row : DownloadRecord) : option DownloadStatus :=
  snapshot_of client !! py_lower (dr_torrent_hash row).

Definition unmapped_client_states (rows : list DownloadRecord) (client : list DownloadStatus)
    : list (list N * list N) :=
  let tracked := (fun row => py_lower (dr_torrent_hash row)) <$> rows in
  (fun st => (ds_info_hash st, ds_raw_state st)) <$>
    List.filter (fun st =>
      mem (py_lower (ds_info_hash st)) tracked
      && match assoc (ds_raw_state st) _RAW_STATE_MAP with Some _ => false | None => true end)
      client.

Definition _map_raw_state (raw_state : list N) : DownloadState * option (list N) :=
  match assoc raw_state _RAW_STATE_MAP with
  | None =>
      (_UNKNOWN_FALLBACK,
       Some (lit "unknown client state " ++ py_repr raw_state ++ lit "; tracking as downloading"))
  | Some mapped => (mapped, Some (lit "client reports " ++ py_repr raw_state))
  end.

Definition _reconcile_absent (row : DownloadRecord) (now missing_grace : Z)
    : option StateTransition :=
  match dr_first_seen_at row with
  | None =>
      Some {| st_download_id := dr_id row; st_torrent_hash := dr_torrent_hash row;
              st_from_state := dr_status row; st_to_state := ClientMissing;
              st_reason := Some (lit "absent from client snapshot (grace window started)");
              st_set_first_seen_at := true; st_clear_first_seen_at := false |}
  | Some first_seen_at =>
      if (missing_grace <=? now - first_seen_at)%Z then
        Some {| st_download_id := dr_id row; st_torrent_hash := dr_torrent_hash row;
                st_from_state := dr_status row; st_to_state := FailedPending;
                st_reason := Some (lit "absent from client snapshot beyond missing grace");
                st_set_first_seen_at := false; st_clear_first_seen_at := false |}
      else if bool_decide (dr_status row = value ClientMissing) then None
      else
        Some {| st_download_id := dr_id row; st_torrent_hash := dr_torrent_hash row;
                st_from_state := dr_status row; st_to_state := ClientMissing;
                st_reason := Some (lit "absent from client snapshot (within missing grace)");
                st_set_first_seen_at := false; st_clear_first_seen_at := false |}
  end.

(** The body of [reconcile]'s loop: [None] is a [continue] with no append. *)
Definition reconcile_row (client : list DownloadStatus) (now missing_grace : Z)
    (row : DownloadRecord) : option StateTransition :=
  if negb (mem (dr_status row) _ACTIVE_STATUS_VALUES) then None
  else
    match live_of client row with
    | Some present =>
        let '(target, reason) := _map_raw_state (ds_raw_state present) in
        if bool_decide (value target <> dr_status row) then
          let recovered := bool_decide (dr_status row = value ClientMissing) in
          Some {| st_download_id := dr_id row; st_torrent_hash := dr_torrent_hash row;
                  st_from_state := dr_status row; st_to_state := target; st_reason := reason;
                  st_set_first_seen_at := false; st_clear_first_seen_at := recovered |}
        else None
    | None => _reconcile_absent row now missing_grace
    end.

Definition reconcile (rows : list DownloadRecord) (client : list DownloadStatus)
    (now missing_grace : Z) : list StateTransition :=
  omap (reconcile_row client now missing_grace) rows.

Definition failed_download_events (transitions : list StateTransition)
    (records : list DownloadRecord) (occurred_at : option Z) : list DownloadFailed :=
  let by_id : gmap Z DownloadRecord := dict_of ((fun r => (dr_id r, r)) <$> records) in
  omap (fun t =>
    if bool_decide (st_to_state t = FailedPending) then
      Some {| df_torrent_hash := st_torrent_hash t; df_source_title := st_torrent_hash t;
              df_reason := match st_reason t with
                           | Some (c :: r) => c :: r
                           | _ => lit "download failed"
                           end;
              df_tmdb_id := by_id !! st_download_id t ≫= dr_tmdb_id;
              df_indexer := None; df_occurred_at := occurred_at |}
    else None) transitions.

(** *** Stalls *)

Definition is_metadata_state (raw_state : list N) : bool :=
  mem raw_state [lit "metaDL"; lit "forcedMetaDL"].

(** No activity and no progress ever reported, in a state that is not
    deliberately idle. *)
Definition never_had_activity (st : DownloadStatus) : bool :=
  negb (mem (ds_raw_state st) _DELIBERATELY_IDLE_RAW_STATES)
  && (ds_last_activity_unix st <=? 0)%Z
  && fle (ds_progress st) f_zero.

Definition detect_stall_row (client : list DownloadStatus) (now metadata_window progress_window : Z)
    (row : DownloadRecord) : res (list StallDetection) :=
  let found shape :=
    [{| sd_download_id := dr_id row; sd_torrent_hash := dr_torrent_hash row; sd_shape := shape |}] in
  if negb (mem (dr_status row) _STALL_ELIGIBLE_STATUS_VALUES) then Ok []
  else
    match dr_added_at row, live_of client row with
    | Some added_at, Some st =>
        let elapsed := (now - added_at)%Z in
        if is_metadata_state (ds_raw_state st) then
          Ok (if (metadata_window <=? elapsed)%Z then found metadata_stall else [])
        else if never_had_activity st && (metadata_window <=? elapsed)%Z then
          Ok (found metadata_stall)
        else if (elapsed <? progress_window)%Z then Ok []
        else if mem (ds_raw_state st) _STALLED_PROGRESS_RAW_STATES
                && (0 <? ds_last_activity_unix st)%Z then
          last_activity ← fromtimestamp (ds_last_activity_unix st);
          Ok (if (progress_window <? now - last_activity)%Z then found stalled_progress else [])
        else Ok []
    | _, _ => Ok []
    end.

Definition detect_stalls (rows : list DownloadRecord) (client : list DownloadStatus)
    (now metadata_window progress_window : Z) : res (list StallDetection) :=
  res_foldl (fun acc row =>
    found ← detect_stall_row client now metadata_window progress_window row;
    Ok (acc ++ found)) [] rows.

Definition download_deadline (st : DownloadStatus) (added_at : Z) : res (option Z) :=
  if is_metadata_state (ds_raw_state st) then Some <$> dt_add added_at METADATA_STALL_WINDOW
  else if bool_decide
            (default _UNKNOWN_FALLBACK (assoc (ds_raw_state st) _RAW_STATE_MAP) <> Downloading)
  then Ok None
  else if never_had_activity st then Some <$> dt_add added_at METADATA_STALL_WINDOW
  else if (0 <? ds_last_activity_unix st)%Z then
    last_activity ← fromtimestamp (ds_last_activity_unix st);
    Some <$> dt_add (Z.max added_at last_activity) STALLED_PROGRESS_WINDOW
  else Some <$> dt_add added_at STALLED_PROGRESS_WINDOW.

(** *** Persisting a cycle *)

(** [update_status_if_in] with the columns the reconcile loop passes: the
    database row [cur] moves only if its status is still [allowed_from]. *)
Definition update_status_if_in (status allowed_from : list N)
    (progress seed_ratio : option spec_float)
    (first_seen_at : option Z) (clear_first_seen_at : bool)
    (timeout_at : option Z) (clear_timeout_at : bool)
    (cur : DownloadRecord) : DownloadRecord * bool :=
  if bool_decide (dr_status cur = allowed_from) then
    ({| dr_id := dr_id cur; dr_torrent_hash := dr_torrent_hash cur;
        dr_status := status;
        dr_progress := default (dr_progress cur) progress;
        dr_seed_ratio := default (dr_seed_ratio cur) seed_ratio;
        dr_tmdb_id := dr_tmdb_id cur;
        dr_first_seen_at :=
          if clear_first_seen_at then None
          else match first_seen_at with Some t => Some t | None => dr_first_seen_at cur end;
        dr_added_at := dr_added_at cur;
        dr_timeout_at :=
          if clear_timeout_at then None
          else match timeout_at with Some t => Some t | None => dr_timeout_at cur end |}, true)
  else (cur, false).

Definition refresh_progress (progress seed_ratio : option spec_float)
    (timeout_at : option Z) (clear_timeout_at : bool) (cur : DownloadRecord) : DownloadRecord :=
  {| dr_id := dr_id cur; dr_torrent_hash := dr_torrent_hash cur; dr_status := dr_status cur;
     dr_progress := default (dr_progress cur) progress;
     dr_seed_ratio := default (dr_seed_ratio cur) seed_ratio; dr_tmdb_id := dr_tmdb_id cur;
     dr_first_seen_at := dr_first_seen_at cur; dr_added_at := dr_added_at cur;
     dr_timeout_at :=
       if clear_timeout_at then None
       else match timeout_at with Some t => Some t | None => dr_timeout_at cur end |}.

(** One row of the cycle's update loop: [row] as the cycle read it, [cur] the
    database row when the statement runs. *)
Definition persist_row (operator_claimed : bool) (live : option DownloadStatus)
    (transition : option StateTransition) (now : Z) (row cur : DownloadRecord)
    : res DownloadRecord :=
  if operator_claimed then Ok cur
  else
    new_timeout ← match live, dr_added_at row with
                  | Some st, Some added_at => download_deadline st added_at
                  | _, _ => Ok None
                  end;
    let clear_new_timeout :=
      match live, dr_added_at row, new_timeout with
      | Some _, Some _, None => true
      | _, _, _ => false
      end in
    match transition with
    | Some t =>
        Ok (fst (update_status_if_in (value (st_to_state t)) (st_from_state t)
                   (ds_progress <$> live) (ds_ratio <$> live)
                   (if st_set_first_seen_at t then Some now else None)
                   (st_clear_first_seen_at t) new_timeout clear_new_timeout cur))
    | None =>
        match live with
        | None => Ok cur
        | Some st =>
            let timeout_changed :=
              (clear_new_timeout && match dr_timeout_at row with Some _ => true | None => false end)
              || match new_timeout with
                 | Some t => negb (bool_decide (dr_timeout_at row = Some t))
                 | None => false
                 end in
            if negb (feq (dr_progress row) (ds_progress st))
               || negb (feq (dr_seed_ratio row) (ds_ratio st)) || timeout_changed
            then Ok (refresh_progress (Some (ds_progress st)) (Some (ds_ratio st)) new_timeout
                       clear_new_timeout cur)
            else Ok cur
        end
    end.

(** The whole cycle with no concurrent writer: reconcile, then persist. *)
Definition run_cycle (claimed : Z -> bool) (rows : list DownloadRecord)
    (client : list DownloadStatus) (now missing_grace : Z) : res (list DownloadRecord) :=
  let by_id : gmap Z StateTransition :=
    dict_of ((fun t => (st_download_id t, t)) <$> reconcile rows client now missing_grace) in
  res_foldl (fun acc row =>
    row' ← persist_row (claimed (dr_id row)) (live_of client row) (by_id !! dr_id row) now row row;
    Ok (acc ++ [row'])) [] rows.
End reconciler.

(** ** Lemmas *)

Section lemmas.
Context {DB : UnicodeDB}.

Lemma map_raw_state_range raw target reason :
  _map_raw_state raw = (target, reason) ->
  target ∈ [Downloading; MetadataFetching; ImportPending; FailedPending].
Proof.
  unfold _map_raw_state. destruct (assoc raw _RAW_STATE_MAP) as [m|] eqn:Ha.
  - intros [= <- <-]. apply assoc_Some_in in Ha.
    assert (forallb (fun p => mem (snd p) [Downloading; MetadataFetching; ImportPending; FailedPending])
              _RAW_STATE_MAP = true) as Hall by by_compute.
    rewrite forallb_forall_iff in Hall. apply Hall in Ha. by apply mem_true in Ha.
  - intros [= <- <-]. left.
Qed.

(** The moves of an absent row. *)
Lemma reconcile_absent_spec row now g t :
  _reconcile_absent row now g = Some t ->
  st_download_id t = dr_id row /\ st_from_state t = dr_status row /\
  st_clear_first_seen_at t = false /\
  ((dr_first_seen_at row = None /\ st_to_state t = ClientMissing /\ st_set_first_seen_at t = true) \/
   (exists a, dr_first_seen_at row = Some a /\ st_set_first_seen_at t = false /\
      ((g <= now - a)%Z /\ st_to_state t = FailedPending \/
       (now - a < g)%Z /\ st_to_state t = ClientMissing /\ dr_status row <> value ClientMissing))).
Proof.
  unfold _reconcile_absent. intros H.
  destruct (dr_first_seen_at row) as [a|]; [|injection H as <-; naive_solver].
  destruct (Z.leb_spec g (now - a)); [injection H as <-; naive_solver|].
  case_bool_decide; [done|]. injection H as <-. naive_solver.
Qed.

Lemma reconcile_row_from client now g row t :
  reconcile_row client now g row = Some t ->
  st_download_id t = dr_id row /\ st_from_state t = dr_status row /\
  dr_status row ∈ _ACTIVE_STATUS_VALUES.
Proof.
  unfold reconcile_row. destruct (mem (dr_status row) _) eqn:Hm; cbn; [|done].
  apply mem_true in Hm. destruct (live_of client row) as [st|].
  - destruct (_map_raw_state _) as [target reason]. case_bool_decide; [|done].
    intros [= <-]. done.
  - intros H. apply reconcile_absent_spec in H as (? & ? & _). done.
Qed.

Lemma active_values s : s ∈ _ACTIVE_STATUS_VALUES <-> exists st, s = value st /\ st ∈ ACTIVE_STATES.
Proof. unfold _ACTIVE_STATUS_VALUES. rewrite list_elem_of_fmap. done. Qed.

Lemma value_active st : value st ∈ _ACTIVE_STATUS_VALUES <-> st ∈ ACTIVE_STATES.
Proof.
  rewrite active_values. split; [|eauto].
  intros (st' & H & Hin). apply value_inj in H. by subst.
Qed.

(** What one persisted row looks like when nothing else wrote it. *)
Lemma persist_row_status live t now row row' :
  persist_row false live (Some t) now row row = Ok row' ->
  st_from_state t = dr_status row ->
  dr_id row' = dr_id row /\ dr_torrent_hash row' = dr_torrent_hash row /\
  dr_added_at row' = dr_added_at row /\
  dr_status row' = value (st_to_state t) /\
  dr_first_seen_at row' =
    (if st_clear_first_seen_at t then None
     else if st_set_first_seen_at t then Some now else dr_first_seen_at row).
Proof.
  unfold persist_row. intros H Hfrom. apply bind_Ok in H as (nt & _ & [= <-]).
  unfold update_status_if_in. rewrite bool_decide_true by done. cbn.
  destruct (st_clear_first_seen_at t), (st_set_first_seen_at t); done.
Qed.

Lemma persist_row_same live now row row' :
  persist_row false live None now row row = Ok row' ->
  dr_id row' = dr_id row /\ dr_torrent_hash row' = dr_torrent_hash row /\
  dr_added_at row' = dr_added_at row /\
  dr_status row' = dr_status row /\ dr_first_seen_at row' = dr_first_seen_at row.
Proof.
  unfold persist_row. intros H. apply bind_Ok in H as (nt & _ & H).
  destruct live as [st|]; [|by injection H as <-].
  match type of H with context [if ?c then _ else _] => destruct c end; by injection H as <-.
Qed.

(** One poll of one row: the reconciler's move, persisted. *)
Definition poll_row (client : list DownloadStatus) (now g : Z) (row : DownloadRecord)
    : res DownloadRecord :=
  persist_row false (live_of client row) (reconcile_row client now g row) now row row.

Lemma live_of_hash client row row' :
  dr_torrent_hash row' = dr_torrent_hash row -> live_of client row' = live_of client row.
Proof. unfold live_of. by intros ->. Qed.

(** After a poll, polling again at the same instant with the same snapshot
    finds nothing to move. *)
Lemma poll_row_settled client now g row row' :
  (0 < g)%Z -> poll_row client now g row = Ok row' -> reconcile_row client now g row' = None.
Proof.
  intros Hg. unfold poll_row. destruct (reconcile_row client now g row) as [t|] eqn:Ht.
  - intros Hp. destruct (reconcile_row_from _ _ _ _ _ Ht) as (_ & Hfrom & Hact).
    destruct (persist_row_status _ _ _ _ _ Hp Hfrom) as (_ & Hh & _ & Hs & Hf).
    revert Ht. unfold reconcile_row. rewrite (live_of_hash client row row') by done.
    destruct (mem (dr_status row) _) eqn:Hm; cbn; [|done].
    destruct (live_of client row) as [st|].
    + destruct (_map_raw_state (ds_raw_state st)) as [target reason].
      case_bool_decide as Hd; [|done]. intros [= <-]. cbn in *. rewrite Hs.
      destruct (mem (value target) _); cbn; [|done]. by rewrite bool_decide_false by auto.
    + intros Ht. apply reconcile_absent_spec in Ht as (_ & _ & Hcl & Hcase).
      rewrite Hcl in Hf. unfold _reconcile_absent. rewrite Hs, Hf.
      destruct Hcase as [(Ha & Hto & Hset)|(a & Ha & Hset & [(Hel & Hto)|(Hel & Hto & _)])];
        rewrite Hset, Hto; cbn [negb].
      * destruct (Z.leb_spec g (now - now)); [lia|].
        rewrite bool_decide_true by done. by destruct (mem _ _).
      * done.
      * rewrite Ha. destruct (Z.leb_spec g (now - a)); [lia|].
        rewrite bool_decide_true by done. by destruct (mem _ _).
  - intros Hp. destruct (persist_row_same _ _ _ _ Hp) as (_ & Hh & _ & Hs & Hf).
    revert Ht. unfold reconcile_row, _reconcile_absent.
    rewrite (live_of_hash client row row'), Hs, Hf by done.
    destruct (mem (dr_status row) _); cbn; [|done]. destruct (live_of client row) as [st|].
    + destruct (_map_raw_state _). by case_bool_decide.
    + destruct (dr_first_seen_at row) as [a|]; [|done].
      destruct (g <=? now - a)%Z; [done|]. by case_bool_decide.
Qed.

Lemma by_id_lookup client now g rows row :
  NoDup (dr_id <$> rows) -> row ∈ rows ->
  (dict_of ((fun t => (st_download_id t, t)) <$> reconcile rows client now g)
     : gmap Z StateTransition) !! dr_id row = reconcile_row client now g row.
Proof.
  intros Hnd Hin.
  assert (Huniq : forall r, r ∈ rows -> dr_id r = dr_id row -> r = row).
  { intros r Hr Hid. apply list_elem_of_lookup in Hr as [i Hi], Hin as [j Hj].
    assert (i = j) as ->; [|congruence]. eapply NoDup_lookup; [done| |].
    - rewrite list_lookup_fmap, Hi. done.
    - rewrite list_lookup_fmap, Hj. cbn. by rewrite Hid. }
  assert (Hfst : ((fun t => (st_download_id t, t)) <$> reconcile rows client now g).*1
                 = st_download_id <$> reconcile rows client now g).
  { rewrite <- list_fmap_compose. done. }
  destruct (reconcile_row client now g row) as [t|] eqn:Ht.
  - apply dict_of_NoDup.
    + rewrite Hfst. clear -Hnd. unfold reconcile.
      induction rows as [|r rows IH]; [apply NoDup_nil_2|].
      apply NoDup_cons in Hnd as [Hr Hnd]. cbn.
      destruct (reconcile_row client now g r) as [t|] eqn:Ht; [|auto].
      cbn. apply NoDup_cons. split; [|auto].
      destruct (reconcile_row_from _ _ _ _ _ Ht) as (-> & _).
      intros Hin. apply Hr. apply list_elem_of_fmap in Hin as (t' & Hid & Hin).
      apply list_elem_of_omap in Hin as (r' & Hr' & Ht').
      destruct (reconcile_row_from _ _ _ _ _ Ht') as (Hid' & _).
      apply list_elem_of_fmap. exists r'. split; [congruence|done].
    + apply list_elem_of_fmap. exists t.
      destruct (reconcile_row_from _ _ _ _ _ Ht) as (-> & _). split; [done|].
      apply list_elem_of_omap. eauto.
  - apply dict_of_None. rewrite Hfst. intros Hk.
    apply list_elem_of_fmap in Hk as (t & Hid & Hk).
    apply list_elem_of_omap in Hk as (r & Hr & Hrt).
    destruct (reconcile_row_from _ _ _ _ _ Hrt) as (Hid' & _).
    rewrite (Huniq r) in Hrt by congruence. congruence.
Qed.

(** With distinct ids a cycle is the rows polled one by one. *)
Lemma run_cycle_rows claimed rows client now g rows' :
  NoDup (dr_id <$> rows) -> (forall i, claimed i = false) ->
  run_cycle claimed rows client now g = Ok rows' ->
  Forall2 (fun row row' => poll_row client now g row = Ok row') rows rows'.
Proof.
  intros Hnd Hcl H. unfold run_cycle in H. apply res_foldl_map.
  rewrite <- H. apply res_foldl_ext. intros acc row Hrow.
  by rewrite Hcl, by_id_lookup.
Qed.

(** The reconciler is idempotent: when a cycle's transitions have been
    persisted, running it again on the same client snapshot at the same time
    finds nothing to do (for a positive missing-grace window and rows with
    distinct ids). *)
Theorem reconcile_idempotent rows client now g rows' :
  NoDup (dr_id <$> rows) -> (0 < g)%Z ->
  run_cycle (fun _ => false) rows client now g = Ok rows' ->
  reconcile rows' client now g = [].
Proof.
  intros Hnd Hg H. apply run_cycle_rows in H; [|done|done].
  unfold reconcile. clear Hnd. induction H as [|r r' rows rows' Hr Hrest IH]; [done|].
  cbn. by rewrite (poll_row_settled _ _ _ _ _ Hg Hr).
Qed.

(** Persisting is a compare-and-swap on the status the cycle read: if
    another writer moved the row meanwhile, the cycle leaves that writer's
    status and the missing-grace anchor as they are. *)
Theorem persist_respects_concurrent_writer client now g row cur cur' :
  dr_status cur <> dr_status row ->
  persist_row false (live_of client row) (reconcile_row client now g row) now row cur = Ok cur' ->
  dr_status cur' = dr_status cur /\ dr_first_seen_at cur' = dr_first_seen_at cur.
Proof.
  intros Hne H. unfold persist_row in H. apply bind_Ok in H as (nt & _ & H).
  destruct (reconcile_row client now g row) as [t|] eqn:Ht.
  - injection H as <-. destruct (reconcile_row_from _ _ _ _ _ Ht) as (_ & -> & _).
    unfold update_status_if_in. by rewrite bool_decide_false.
  - destruct (live_of client row); [|by injection H as <-].
    match type of H with context [if ?c then _ else _] => destruct c end; by injection H as <-.
Qed.
End lemmas.

(** ** The missing grace over a run of polls *)

Record Poll := { p_now : Z; p_client : list DownloadStatus }.

Section runs.
Context {DB : UnicodeDB}.

(** The torrent of [row] is not in the poll's snapshot. *)
Definition absent (row : DownloadRecord) (p : Poll) : Prop := live_of (p_client p) row = None.

(** The row after a history of polls (oldest first). *)
Inductive Runs (g : Z) (row0 : DownloadRecord) : list Poll -> DownloadRecord -> Prop :=
  | Runs_start : Runs g row0 [] row0
  | Runs_poll hist row p row' :
      Runs g row0 hist row -> poll_row (p_client p) (p_now p) g row = Ok row' ->
      Runs g row0 (hist ++ [p]) row'.

(** A row anchored at [a] was first seen absent by a poll at [a], and every
    poll since then found it absent. *)
Definition absent_since (row : DownloadRecord) (a : Z) (hist : list Poll) : Prop :=
  exists older p0 recent, hist = older ++ p0 :: recent /\ p_now p0 = a /\
    absent row p0 /\ Forall (absent row) recent.

Definition anchor_ok (hist : list Poll) (row : DownloadRecord) : Prop :=
  forall a, dr_first_seen_at row = Some a ->
    dr_status row = value FailedPending \/
    (dr_status row = value ClientMissing /\ absent_since row a hist).

Lemma absent_hash row row' p :
  dr_torrent_hash row' = dr_torrent_hash row -> absent row p -> absent row' p.
Proof. unfold absent. intros H. by rewrite (live_of_hash _ row row'). Qed.

Lemma absent_since_snoc row row' a hist p :
  dr_torrent_hash row' = dr_torrent_hash row ->
  absent_since row a hist -> absent row p -> absent_since row' a (hist ++ [p]).
Proof.
  intros Hh (older & p0 & recent & -> & Ha & H0 & Hr) Hp.
  exists older, p0, (recent ++ [p]). rewrite <- app_assoc. split; [done|]. split; [done|].
  split; [by eapply absent_hash|]. apply Forall_app. split.
  - eapply Forall_impl; [exact Hr|]. intros q Hq. by eapply absent_hash.
  - constructor; [by eapply absent_hash | constructor].
Qed.

Lemma poll_keeps_anchor_ok g hist row p row' :
  anchor_ok hist row -> poll_row (p_client p) (p_now p) g row = Ok row' ->
  anchor_ok (hist ++ [p]) row'.
Proof.
  intros Hok Hpoll a. unfold poll_row in Hpoll.
  destruct (reconcile_row (p_client p) (p_now p) g row) as [t|] eqn:Ht.
  - destruct (reconcile_row_from _ _ _ _ _ Ht) as (_ & Hfrom & Hact).
    destruct (persist_row_status _ _ _ _ _ Hpoll Hfrom) as (_ & Hh & _ & Hs & Hf).
    rewrite Hf, Hs. revert Ht. unfold reconcile_row. destruct (negb _); [done|].
    destruct (live_of (p_client p) row) as [st|] eqn:Hlive.
    + destruct (_map_raw_state _) as [target reason]. case_bool_decide; [|done].
      intros [= <-]. cbn [st_clear_first_seen_at st_set_first_seen_at st_to_state].
      case_bool_decide as Hcm; [done|].
      intros Ha. destruct (Hok a Ha) as [Hs0|[Hs0 _]]; [|done].
      rewrite Hs0, value_active in Hact. apply mem_true in Hact. discriminate.
    + intros Habs. apply reconcile_absent_spec in Habs as (_ & _ & Hcl & Hcase).
      rewrite Hcl. destruct Hcase as [(Hn & Hto & ->)|(b & Hb & -> & [(_ & Hto)|(_ & Hto & Hne)])].
      * intros [= <-]. right. rewrite Hto. split; [done|].
        exists hist, p, []. split; [done|]. split; [done|].
        split; [|constructor]. by eapply absent_hash.
      * intros _. left. by rewrite Hto.
      * intros Ha. rewrite Hto. right. split; [done|].
        destruct (Hok a Ha) as [Hs0|[Hs0 Hsince]]; [|by eapply absent_since_snoc].
        rewrite Hs0, value_active in Hact. apply mem_true in Hact. discriminate.
  - destruct (persist_row_same _ _ _ _ Hpoll) as (_ & Hh & _ & Hs & Hf).
    rewrite Hf, Hs. intros Ha. destruct (Hok a Ha) as [|[Hs0 Hsince]]; [by left|].
    right. split; [done|]. eapply absent_since_snoc; [done|done|].
    revert Ht. unfold reconcile_row, absent. rewrite Hs0.
    destruct (live_of (p_client p) row) as [st|]; [|done].
    change (mem (value ClientMissing) _ACTIVE_STATUS_VALUES) with true. cbn [negb].
    destruct (_map_raw_state (ds_raw_state st)) as [target reason] eqn:Hmap.
    case_bool_decide as Hd; [done|]. exfalso.
    apply value_inj in Hd as ->. apply map_raw_state_range in Hmap.
    apply mem_true in Hmap. discriminate.
Qed.

Lemma Runs_anchor_ok g row0 hist row :
  dr_first_seen_at row0 = None -> Runs g row0 hist row -> anchor_ok hist row.
Proof.
  intros H0. induction 1 as [|hist row p row' Hr IH Hp].
  - intros a Ha. congruence.
  - by eapply poll_keeps_anchor_ok.
Qed.

End runs.

(** ** Stalls and the deadline shown to the user *)

Section stalls.
Context {DB : UnicodeDB}.

Definition flagged (client : list DownloadStatus) (now : Z) (row : DownloadRecord) : Prop :=
  exists d, detect_stall_row client now METADATA_STALL_WINDOW STALLED_PROGRESS_WINDOW row = Ok [d].

(** The live state maps to a download phase. *)
Definition downloading_phase (st : DownloadStatus) : bool :=
  is_metadata_state (ds_raw_state st)
  || bool_decide (default _UNKNOWN_FALLBACK (assoc (ds_raw_state st) _RAW_STATE_MAP) = Downloading).

(** The live state is one the self-heal may act on. *)
Definition healable (st : DownloadStatus) : bool :=
  is_metadata_state (ds_raw_state st) || never_had_activity st
  || (mem (ds_raw_state st) _STALLED_PROGRESS_RAW_STATES && (0 <? ds_last_activity_unix st)%Z).

Lemma windows_nonneg : (0 <= METADATA_STALL_WINDOW)%Z /\ (0 <= STALLED_PROGRESS_WINDOW)%Z.
Proof. split; vm_compute; discriminate. Qed.

(** When the self-heal is due, in terms of the live status and the times. *)
Definition stall_due (st : DownloadStatus) (added now : Z) : bool :=
  if is_metadata_state (ds_raw_state st) then (METADATA_STALL_WINDOW <=? now - added)%Z
  else if never_had_activity st then (METADATA_STALL_WINDOW <=? now - added)%Z
  else (STALLED_PROGRESS_WINDOW <=? now - added)%Z
       && (mem (ds_raw_state st) _STALLED_PROGRESS_RAW_STATES && (0 <? ds_last_activity_unix st)%Z)
       && (STALLED_PROGRESS_WINDOW <? now - ds_last_activity_unix st * second)%Z.

Lemma flagged_due client now row added st :
  dr_status row ∈ _STALL_ELIGIBLE_STATUS_VALUES ->
  dr_added_at row = Some added -> live_of client row = Some st ->
  in_range (ds_last_activity_unix st * second) = true ->
  flagged client now row <-> stall_due st added now = true.
Proof.
  intros Hst Hadd Hlive Hr. apply mem_true in Hst.
  assert (Hsing : forall b : bool, (exists d, Ok (if b then [{| sd_download_id := dr_id row;
      sd_torrent_hash := dr_torrent_hash row; sd_shape := metadata_stall |}] else []) = Ok [d])
    <-> b = true) by (intros []; split; [done|eauto|intros [? HX]; discriminate HX|done]).
  unfold flagged, detect_stall_row, stall_due. rewrite Hst, Hadd, Hlive, fromtimestamp_ok by done.
  cbn [negb mbind res_bind]. generalize METADATA_STALL_WINDOW STALLED_PROGRESS_WINDOW.
  intros M P. destruct (is_metadata_state _); [apply Hsing|].
  pose proof (Hsing true) as Ht. pose proof (Hsing false) as Hf. cbn beta iota in Ht, Hf.
  destruct (never_had_activity st) eqn:Hn; cbn [andb].
  - destruct (M <=? _)%Z; [exact Ht|].
    assert ((0 <? ds_last_activity_unix st)%Z = false) as ->.
    { unfold never_had_activity in Hn. boolify. apply Z.ltb_ge. lia. }
    rewrite andb_false_r. by destruct (_ <? P)%Z.
  - rewrite Z.leb_antisym. destruct (now - added <? P)%Z; cbn [negb andb]; [exact Hf|].
    destruct (mem _ _ && _); cbn [andb]; [|exact Hf].
    destruct (P <? _)%Z; [split; [done|eauto]|exact Hf].
Qed.

(** The instant [download_deadline] reports, before Python's range check. *)
Definition deadline_instant (st : DownloadStatus) (added : Z) : Z :=
  if is_metadata_state (ds_raw_state st) || never_had_activity st
  then (added + METADATA_STALL_WINDOW)%Z
  else if (0 <? ds_last_activity_unix st)%Z
  then (Z.max added (ds_last_activity_unix st * second) + STALLED_PROGRESS_WINDOW)%Z
  else (added + STALLED_PROGRESS_WINDOW)%Z.

Lemma download_deadline_eq st added :
  in_range (ds_last_activity_unix st * second) = true ->
  download_deadline st added =
  if downloading_phase st then
    if in_range (deadline_instant st added) then Ok (Some (deadline_instant st added))
    else Raise OverflowError
  else Ok None.
Proof.
  intros Hr. unfold download_deadline, downloading_phase, deadline_instant, dt_add.
  rewrite fromtimestamp_ok by done. clear Hr.
  destruct (is_metadata_state _); cbn [orb]; [destruct (in_range _); reflexivity|].
  repeat case_bool_decide; [done|reflexivity| |done].
  destruct (never_had_activity st); [destruct (in_range _); reflexivity|].
  destruct (0 <? _)%Z; cbn [mbind res_bind]; destruct (in_range _); reflexivity.
Qed.

Lemma due_after_deadline st added now :
  stall_due st added now = true -> (deadline_instant st added <= now)%Z.
Proof.
  unfold stall_due, deadline_instant.
  generalize METADATA_STALL_WINDOW STALLED_PROGRESS_WINDOW. intros M P.
  destruct (is_metadata_state _); cbn [orb]; [rewrite Z.leb_le; lia|].
  destruct (never_had_activity st); [rewrite Z.leb_le; lia|].
  intros H. boolify. rewrite (proj2 (Z.ltb_lt _ _)) by lia. lia.
Qed.

Lemma deadline_then_due st added now :
  healable st = true -> (deadline_instant st added < now)%Z -> stall_due st added now = true.
Proof.
  unfold stall_due, deadline_instant, healable.
  generalize METADATA_STALL_WINDOW STALLED_PROGRESS_WINDOW. intros M P.
  destruct (is_metadata_state _); cbn [orb]; [rewrite Z.leb_le; lia|].
  destruct (never_had_activity st); cbn [orb]; [rewrite Z.leb_le; lia|].
  intros H. rewrite H. apply andb_true_iff in H as [_ ->]. intros Hlt.
  rewrite (proj2 (Z.leb_le _ _)), (proj2 (Z.ltb_lt _ _)) by lia. done.
Qed.

Lemma deadline_instant_ge st added : (added <= deadline_instant st added)%Z.
Proof.
  pose proof windows_nonneg. unfold deadline_instant.
  destruct (_ || _); [lia|]. destruct (0 <? _)%Z; lia.
Qed.

(** The deadline shown for a download in a download phase is honest.  If
    the self-heal flags the row, the deadline is set and has passed; and once
    the deadline of a healable row has passed, the self-heal flags it. *)
Theorem stall_deadline_is_honest client now row added st :
  dr_status row ∈ _STALL_ELIGIBLE_STATUS_VALUES ->
  dr_added_at row = Some added -> live_of client row = Some st ->
  in_range now = true -> in_range added = true ->
  in_range (ds_last_activity_unix st * second) = true ->
  (downloading_phase st = true -> flagged client now row ->
     exists dl, download_deadline st added = Ok (Some dl) /\ (dl <= now)%Z) /\
  (forall dl, healable st = true -> download_deadline st added = Ok (Some dl) -> (dl < now)%Z ->
     flagged client now row).
Proof.
  intros Hst Hadd Hlive Hnow Hra Hrl.
  pose proof (flagged_due client now row added st Hst Hadd Hlive Hrl) as Hiff.
  pose proof (download_deadline_eq st added Hrl) as ->. split.
  - intros -> Hdue. apply Hiff, due_after_deadline in Hdue.
    assert (in_range (deadline_instant st added) = true) as ->; [|eauto].
    pose proof (deadline_instant_ge st added). unfold in_range in *. boolify.
    apply andb_true_iff. rewrite !Z.leb_le. lia.
  - intros dl Hheal. destruct (downloading_phase st); [|done].
    destruct (in_range (deadline_instant st added)); [|done]. intros [= <-] Hlt.
    by apply Hiff, deadline_then_due.
Qed.
End stalls.

(** ** Concrete runs *)

Section examples.
#[local] Existing Instance ascii_db.

Definition ex_row : DownloadRecord :=
  {| dr_id := 1; dr_torrent_hash := lit "ABC"; dr_status := value Downloading;
     dr_progress := f_zero; dr_seed_ratio := f_zero; dr_tmdb_id := None;
     dr_first_seen_at := None; dr_added_at := Some 0%Z; dr_timeout_at := None |}.

Definition ex_status (raw : string) (activity : Z) : DownloadStatus :=
  {| ds_info_hash := lit "abc"; ds_raw_state := lit raw; ds_progress := f_zero;
     ds_ratio := f_zero; ds_last_activity_unix := activity |}.

Lemma reconcile_idempotent_witness :
  exists rows', run_cycle (fun _ => false) [ex_row] [] 0 (minutes 10) = Ok rows' /\
    reconcile [ex_row] [] 0 (minutes 10) <> [] /\ reconcile rows' [] 0 (minutes 10) = [].
Proof.
  eexists. split; [vm_compute; reflexivity|]. split; [vm_compute; discriminate|].
  apply (reconcile_idempotent [ex_row] [] 0 (minutes 10)).
  - apply NoDup_singleton.
  - reflexivity.
  - vm_compute. reflexivity.
Defined.

Definition ex_importing : DownloadRecord :=
  {| dr_id := 1; dr_torrent_hash := lit "ABC"; dr_status := value Importing;
     dr_progress := f_zero; dr_seed_ratio := f_zero; dr_tmdb_id := None;
     dr_first_seen_at := None; dr_added_at := Some 0%Z; dr_timeout_at := None |}.

Lemma persist_respects_concurrent_writer_witness :
  exists cur', persist_row false (live_of [ex_status "error" 0] ex_row)
      (reconcile_row [ex_status "error" 0] 0 (minutes 10) ex_row) 0 ex_row ex_importing = Ok cur'
    /\ dr_status cur' = value Importing.
Proof.
  eexists. split; [vm_compute; reflexivity|].
  apply (persist_respects_concurrent_writer [ex_status "error" 0] 0 (minutes 10) ex_row ex_importing).
  - vm_compute. discriminate.
  - vm_compute. reflexivity.
Defined.

Definition poll_at (t : Z) : Poll := {| p_now := t; p_client := [] |}.

(** [ex_row] after a poll at time 0 that does not report its torrent. *)
Definition ex_missing : DownloadRecord :=
  {| dr_id := 1; dr_torrent_hash := lit "ABC"; dr_status := value ClientMissing;
     dr_progress := f_zero; dr_seed_ratio := f_zero; dr_tmdb_id := None;
     dr_first_seen_at := Some 0%Z; dr_added_at := Some 0%Z; dr_timeout_at := None |}.


Lemma stall_deadline_is_honest_witness :
  (exists dl, download_deadline (ex_status "metaDL" 0) 0 = Ok (Some dl) /\ (dl <= minutes 46)%Z) /\
  flagged [ex_status "metaDL" 0] (minutes 46) ex_row.
Proof.
  pose proof (stall_deadline_is_honest [ex_status "metaDL" 0] (minutes 46) ex_row 0
    (ex_status "metaDL" 0) ltac:(apply mem_true; reflexivity) eq_refl
    ltac:(vm_compute; reflexivity) eq_refl eq_refl eq_refl) as [H1 H2].
  assert (flagged [ex_status "metaDL" 0] (minutes 46) ex_row) as Hf.
  { apply (H2 (minutes 45)); vm_compute; reflexivity. }
  split; [|exact Hf]. apply H1; [reflexivity|exact Hf].
Defined.

(** [detect_stalls] flags a row whose live state is a settled one (here
    [uploading], which [download_deadline] gives no deadline) when the client
    reports no progress and no activity. *)
Lemma detect_stalls_flags_settled_state :
  flagged [ex_status "uploading" 0] (minutes 46) ex_row /\
  download_deadline (ex_status "uploading" 0) 0 = Ok None.
Proof. split; [eexists|]; vm_compute; reflexivity. Qed.
End examples.
