(* ===== verification/Quality.v ===== *)
(** * The quality model ([domain/quality.py], [quality_profile.py], [quality_service.py])

    The registry of named qualities with Radarr's ids and weights, the ordered
    profile with its allow flags, the hard gate [check_quality] and the
    comparison by profile position. *)

From Stdlib Require Import ZArith Lia Bool String Sorted.
From S2P Require Import Prelude PyStr.

#[local] Open Scope bool_scope.

Inductive QualitySource : Type :=
  | SRC_UNKNOWN | SRC_CAM | SRC_TELESYNC | SRC_TELECINE | SRC_WORKPRINT
  | SRC_DVD | SRC_TV | SRC_WEBDL | SRC_WEBRIP | SRC_BLURAY.

Inductive Resolution : Type :=
  | RES_UNKNOWN | R360P | R480P | R540P | R576P | R720P | R1080P | R2160P.

Inductive Modifier : Type :=
  | MOD_NONE | MOD_REGIONAL | MOD_SCREENER | MOD_RAWHD | MOD_BRDISK | MOD_REMUX.

#[export] Instance QualitySource_eq_dec : EqDecision QualitySource.
Proof. solve_decision. Defined.
#[export] Instance Resolution_eq_dec : EqDecision Resolution.
Proof. solve_decision. Defined.
#[export] Instance Modifier_eq_dec : EqDecision Modifier.
Proof. solve_decision. Defined.

Definition all_sources : list QualitySource :=
  [SRC_UNKNOWN; SRC_CAM; SRC_TELESYNC; SRC_TELECINE; SRC_WORKPRINT;
   SRC_DVD; SRC_TV; SRC_WEBDL; SRC_WEBRIP; SRC_BLURAY].
Definition all_resolutions : list Resolution :=
  [RES_UNKNOWN; R360P; R480P; R540P; R576P; R720P; R1080P; R2160P].
Definition all_modifiers : list Modifier :=
  [MOD_NONE; MOD_REGIONAL; MOD_SCREENER; MOD_RAWHD; MOD_BRDISK; MOD_REMUX].

Lemma all_sources_complete s : s ∈ all_sources.
Proof. destruct s; apply mem_true; reflexivity. Qed.
Lemma all_resolutions_complete r : r ∈ all_resolutions.
Proof. destruct r; apply mem_true; reflexivity. Qed.
Lemma all_modifiers_complete m : m ∈ all_modifiers.
Proof. destruct m; apply mem_true; reflexivity. Qed.

Record Quality := mkQuality {
  q_id : Z;
  q_name : list N;
  q_source : QualitySource;
  q_resolution : Resolution;
  q_modifier : Modifier;
  q_weight : Z;
}.

#[export] Instance Quality_eq_dec : EqDecision Quality.
Proof. solve_decision. Defined.

Definition UNKNOWN := mkQuality 0 (lit "Unknown") SRC_UNKNOWN RES_UNKNOWN MOD_NONE 1.
Definition WORKPRINT := mkQuality 24 (lit "WORKPRINT") SRC_WORKPRINT RES_UNKNOWN MOD_NONE 2.
Definition CAM := mkQuality 25 (lit "CAM") SRC_CAM RES_UNKNOWN MOD_NONE 3.
Definition TELESYNC := mkQuality 26 (lit "TELESYNC") SRC_TELESYNC RES_UNKNOWN MOD_NONE 4.
Definition TELECINE := mkQuality 27 (lit "TELECINE") SRC_TELECINE RES_UNKNOWN MOD_NONE 5.
Definition REGIONAL := mkQuality 29 (lit "REGIONAL") SRC_DVD R480P MOD_REGIONAL 6.
Definition DVDSCR := mkQuality 28 (lit "DVDSCR") SRC_DVD R480P MOD_SCREENER 7.
Definition SDTV := mkQuality 1 (lit "SDTV") SRC_TV R480P MOD_NONE 8.
Definition DVD := mkQuality 2 (lit "DVD") SRC_DVD RES_UNKNOWN MOD_NONE 9.
Definition DVDR := mkQuality 23 (lit "DVD-R") SRC_DVD R480P MOD_REMUX 10.
Definition WEBDL480P := mkQuality 8 (lit "WEBDL-480p") SRC_WEBDL R480P MOD_NONE 11.
Definition WEBRIP480P := mkQuality 12 (lit "WEBRip-480p") SRC_WEBRIP R480P MOD_NONE 11.
Definition BLURAY480P := mkQuality 20 (lit "Bluray-480p") SRC_BLURAY R480P MOD_NONE 12.
Definition BLURAY576P := mkQuality 21 (lit "Bluray-576p") SRC_BLURAY R576P MOD_NONE 13.
Definition HDTV720P := mkQuality 4 (lit "HDTV-720p") SRC_TV R720P MOD_NONE 14.
Definition WEBDL720P := mkQuality 5 (lit "WEBDL-720p") SRC_WEBDL R720P MOD_NONE 15.
Definition WEBRIP720P := mkQuality 14 (lit "WEBRip-720p") SRC_WEBRIP R720P MOD_NONE 15.
Definition BLURAY720P := mkQuality 6 (lit "Bluray-720p") SRC_BLURAY R720P MOD_NONE 16.
Definition HDTV1080P := mkQuality 9 (lit "HDTV-1080p") SRC_TV R1080P MOD_NONE 17.
Definition WEBDL1080P := mkQuality 3 (lit "WEBDL-1080p") SRC_WEBDL R1080P MOD_NONE 18.
Definition WEBRIP1080P := mkQuality 15 (lit "WEBRip-1080p") SRC_WEBRIP R1080P MOD_NONE 18.
Definition BLURAY1080P := mkQuality 7 (lit "Bluray-1080p") SRC_BLURAY R1080P MOD_NONE 19.
Definition REMUX1080P := mkQuality 30 (lit "Remux-1080p") SRC_BLURAY R1080P MOD_REMUX 20.
Definition HDTV2160P := mkQuality 16 (lit "HDTV-2160p") SRC_TV R2160P MOD_NONE 21.
Definition WEBDL2160P := mkQuality 18 (lit "WEBDL-2160p") SRC_WEBDL R2160P MOD_NONE 22.
Definition WEBRIP2160P := mkQuality 17 (lit "WEBRip-2160p") SRC_WEBRIP R2160P MOD_NONE 22.
Definition BLURAY2160P := mkQuality 19 (lit "Bluray-2160p") SRC_BLURAY R2160P MOD_NONE 23.
Definition REMUX2160P := mkQuality 31 (lit "Remux-2160p") SRC_BLURAY R2160P MOD_REMUX 24.
Definition BRDISK := mkQuality 22 (lit "BR-DISK") SRC_BLURAY R1080P MOD_BRDISK 25.
Definition RAWHD := mkQuality 10 (lit "Raw-HD") SRC_TV R1080P MOD_RAWHD 26.

Definition ALL_QUALITIES : list Quality :=
  [ UNKNOWN; WORKPRINT; CAM; TELESYNC; TELECINE; REGIONAL; DVDSCR; SDTV; DVD; DVDR;
    WEBRIP480P; WEBDL480P; BLURAY480P; BLURAY576P; HDTV720P; WEBRIP720P; WEBDL720P;
    BLURAY720P; HDTV1080P; WEBRIP1080P; WEBDL1080P; BLURAY1080P; REMUX1080P; HDTV2160P;
    WEBRIP2160P; WEBDL2160P; BLURAY2160P; REMUX2160P; BRDISK; RAWHD ].

Definition QUALITY_BY_ID : gmap Z Quality := dict_of ((fun q => (q_id q, q)) <$> ALL_QUALITIES).

(** ** Profiles *)

Definition DISALLOWED_BY_DEFAULT_IDS : list Z :=
  q_id <$> List.filter (fun q => (q_weight q <? q_weight SDTV)%Z) ALL_QUALITIES.

Record QualityProfileItem := { qi_quality_id : Z; qi_allowed : bool }.

Record QualityProfile := {
  qp_id : Z;
  qp_name : list N;
  qp_cutoff_quality_id : Z;
  qp_items : list QualityProfileItem;
  qp_min_format_score : Z;
  qp_upgrade_allowed : bool;
}.

(** The position of the first item with the id. *)
Fixpoint index_of (quality_id : Z) (items : list QualityProfileItem) : option nat :=
  match items with
  | [] => None
  | item :: rest =>
      if (qi_quality_id item =? quality_id)%Z then Some 0 else S <$> index_of quality_id rest
  end.

Definition get_index (profile : QualityProfile) (quality_id : Z) : option nat :=
  index_of quality_id (qp_items profile).

Definition default_profile : QualityProfile :=
  {| qp_id := 1; qp_name := lit "Default"; qp_cutoff_quality_id := q_id WEBDL1080P;
     qp_items := (fun q => {| qi_quality_id := q_id q;
                              qi_allowed := negb (mem (q_id q) DISALLOWED_BY_DEFAULT_IDS) |})
                   <$> ALL_QUALITIES;
     qp_min_format_score := 0; qp_upgrade_allowed := true |}.

(** ** The gate and the comparison *)

Inductive RejectionReason : Type :=
  | QUALITY_NOT_WANTED | FORMAT_SCORE_TOO_LOW | NO_QUALITY_DETECTED | BLOCKLISTED
  | WRONG_MEDIA | MULTI_SEASON_PACK | NOT_SEASON_PACK | EPISODE_NOT_NEEDED.

#[export] Instance RejectionReason_eq_dec : EqDecision RejectionReason.
Proof. solve_decision. Defined.

Record QualityVerdict := {
  qv_accepted : bool;
  qv_reason : option RejectionReason;
  qv_quality : Quality;
}.

Definition check_quality (quality : Quality) (profile : QualityProfile) : QualityVerdict :=
  let allowed :=
    match get_index profile (q_id quality) with
    | None => false
    | Some index => default false (qi_allowed <$> qp_items profile !! index)
    end in
  if allowed then {| qv_accepted := true; qv_reason := None; qv_quality := quality |}
  else {| qv_accepted := false; qv_reason := Some QUALITY_NOT_WANTED; qv_quality := quality |}.

(** [(x > y) - (x < y)] on positions. *)
Definition sign_of (x y : nat) : Z := (Z.b2z (y <? x)%nat - Z.b2z (x <? y)%nat)%Z.

Definition compare_by_profile (a b : Quality) (profile : QualityProfile) : Z :=
  match get_index profile (q_id a), get_index profile (q_id b) with
  | None, None => 0
  | None, Some _ => -1
  | Some _, None => 1
  | Some ia, Some ib => sign_of ia ib
  end%Z.

(** ** Lemmas *)

Lemma index_of_Some id items i :
  index_of id items = Some i <->
  (exists item, items !! i = Some item /\ qi_quality_id item = id) /\
  (forall j item, (j < i)%nat -> items !! j = Some item -> qi_quality_id item <> id).
Proof.
  revert i; induction items as [|it items IH]; intros i; simpl.
  { split; [done|]. intros [(item & H & _) _]. done. }
  destruct (Z.eqb_spec (qi_quality_id it) id) as [He|He].
  - split.
    + intros [= <-]. split; [by exists it|]. intros; lia.
    + intros [_ Hmin]. destruct i as [|i]; [done|]. exfalso. by apply (Hmin 0%nat it); [lia| |].
  - split.
    + intros H. apply fmap_Some in H as (k & Hk & ->). apply IH in Hk as [Hat Hmin].
      split; [done|]. intros [|j] item Hj Hl; [by simplify_eq/=|].
      apply (Hmin j); [lia|done].
    + intros [Hat Hmin]. destruct i as [|i].
      { destruct Hat as (item & [= ->] & ?). done. }
      assert (index_of id items = Some i) as ->; [|done].
      apply IH. split; [done|]. intros j item Hj Hl. apply (Hmin (S j)); [lia|done].
Qed.

Lemma index_of_None id items :
  index_of id items = None <-> id ∉ qi_quality_id <$> items.
Proof.
  induction items as [|it items IH]; simpl; [split; [intros _; apply not_elem_of_nil|done]|].
  rewrite not_elem_of_cons. destruct (Z.eqb_spec (qi_quality_id it) id) as [He|He].
  - split; [done|]. intros [H _]. congruence.
  - rewrite <- IH. destruct (index_of id items); split; [done|by intros [_ ?]|intros _; split; congruence|done].
Qed.

(** The comparison is the order of a rank in which an absent quality is 0. *)
Definition profile_rank (profile : QualityProfile) (q : Quality) : nat :=
  match get_index profile (q_id q) with None => 0 | Some i => S i end.

Lemma compare_by_profile_rank a b p :
  compare_by_profile a b p = sign_of (profile_rank p a) (profile_rank p b).
Proof.
  unfold compare_by_profile, profile_rank.
  by destruct (get_index p (q_id a)), (get_index p (q_id b)).
Qed.

Lemma sign_of_spec x y :
  (sign_of x y = (-1)%Z /\ (x < y)%nat) \/ (sign_of x y = 0%Z /\ x = y) \/
  (sign_of x y = 1%Z /\ (y < x)%nat).
Proof.
  unfold sign_of. destruct (Nat.ltb_spec y x), (Nat.ltb_spec x y); simpl; lia.
Qed.

(** [check_quality] looks only at the first item with the quality's id. *)
Lemma check_quality_accepted q p :
  qv_accepted (check_quality q p) = true <->
  exists i item, get_index p (q_id q) = Some i /\ qp_items p !! i = Some item /\
    qi_allowed item = true.
Proof.
  unfold check_quality. destruct (get_index p (q_id q)) as [i|]; simpl.
  - destruct (qp_items p !! i) as [item|] eqn:Hl; simpl.
    + destruct (qi_allowed item) eqn:Ha; simpl; split; try done; [eauto|].
      intros (j & it & [= <-] & Hj & Hall). simplify_eq. congruence.
    + split; [done|]. intros (j & it & [= <-] & Hj & _). congruence.
  - split; [done|]. intros (? & ? & ? & _). done.
Qed.

Lemma accepted_has_index q p :
  qv_accepted (check_quality q p) = true -> is_Some (get_index p (q_id q)).
Proof. rewrite check_quality_accepted. intros (i & _ & -> & _). eauto. Qed.

(** ** Properties *)

(** The quality gate is exactly the profile's allow list: in a profile that
    lists each id once, a quality is accepted when its id is listed as allowed
    and rejected (with the reason [QUALITY_NOT_WANTED]) in every other case. *)
Theorem check_quality_is_the_allow_list q p :
  NoDup (qi_quality_id <$> qp_items p) ->
  (qv_accepted (check_quality q p) = true <->
     {| qi_quality_id := q_id q; qi_allowed := true |} ∈ qp_items p) /\
  (qv_reason (check_quality q p) =
     if qv_accepted (check_quality q p) then None else Some QUALITY_NOT_WANTED) /\
  qv_quality (check_quality q p) = q.
Proof.
  intros Hnd. split; [|unfold check_quality; by case_match].
  rewrite check_quality_accepted. split.
  - intros (i & item & Hi & Hl & Ha). apply index_of_Some in Hi as [(it & Hl' & Hid) _].
    simplify_eq. destruct it as [id al]; simpl in *. subst.
    by eapply list_elem_of_lookup_2.
  - intros Hin. apply list_elem_of_lookup in Hin as [i Hi].
    exists i, {| qi_quality_id := q_id q; qi_allowed := true |}. split; [|done].
    apply index_of_Some. split; [eauto|]. intros j item Hj Hl Hid.
    enough (j = i) by lia. eapply NoDup_lookup; [done| |].
    + rewrite list_lookup_fmap, Hl. simpl. by rewrite Hid.
    + by rewrite list_lookup_fmap, Hi.
Qed.

(** Comparing by profile is a total preorder given by profile position, in
    which a quality the profile does not list is below every listed one: the
    comparison is antisymmetric, transitive, and equal only for equal ranks. *)
Theorem compare_by_profile_total_preorder p a b c :
  compare_by_profile b a p = (- compare_by_profile a b p)%Z /\
  (compare_by_profile a b p = 0%Z <-> get_index p (q_id a) = get_index p (q_id b)) /\
  ((compare_by_profile a b p <= 0)%Z -> (compare_by_profile b c p <= 0)%Z ->
   (compare_by_profile a c p <= 0)%Z).
Proof.
  rewrite !compare_by_profile_rank.
  pose proof (sign_of_spec (profile_rank p a) (profile_rank p b)) as Hab.
  pose proof (sign_of_spec (profile_rank p b) (profile_rank p a)) as Hba.
  pose proof (sign_of_spec (profile_rank p b) (profile_rank p c)) as Hbc.
  pose proof (sign_of_spec (profile_rank p a) (profile_rank p c)) as Hac.
  split; [lia|]. split; [|lia].
  assert (get_index p (q_id a) = get_index p (q_id b) <-> profile_rank p a = profile_rank p b) as ->.
  { unfold profile_rank. destruct (get_index p (q_id a)), (get_index p (q_id b));
      split; intros; try done; try lia; congruence. }
  lia.
Qed.

(** The default profile is the SDTV weight floor: a registered quality is
    accepted exactly when its weight is at least SDTV's, the profile order never
    goes against the weights, and an unregistered id is rejected. *)
Theorem default_profile_is_weight_floor :
  (forall q, q ∈ ALL_QUALITIES ->
     qv_accepted (check_quality q default_profile) = (q_weight SDTV <=? q_weight q)%Z) /\
  (forall a b, a ∈ ALL_QUALITIES -> b ∈ ALL_QUALITIES -> (q_weight a < q_weight b)%Z ->
     compare_by_profile a b default_profile = (-1)%Z) /\
  (forall q, q_id q ∉ q_id <$> ALL_QUALITIES ->
     qv_accepted (check_quality q default_profile) = false).
Proof.
  split; [|split].
  - intros q Hq.
    assert (forallb (fun q => Bool.eqb (qv_accepted (check_quality q default_profile))
      (q_weight SDTV <=? q_weight q)%Z) ALL_QUALITIES = true) as Hall by by_compute.
    rewrite forallb_forall_iff in Hall. by apply eqb_prop, Hall.
  - intros a b Ha Hb Hw.
    assert (forallb (fun a => forallb (fun b => implb (q_weight a <? q_weight b)%Z
      (compare_by_profile a b default_profile =? -1)%Z) ALL_QUALITIES) ALL_QUALITIES = true)
      as Hall by by_compute.
    rewrite forallb_forall_iff in Hall. specialize (Hall a Ha).
    rewrite forallb_forall_iff in Hall. specialize (Hall b Hb).
    rewrite (proj2 (Z.ltb_lt _ _) Hw) in Hall. by apply Z.eqb_eq.
  - intros q Hq. destruct (qv_accepted _) eqn:Ha; [|done].
    apply accepted_has_index in Ha as [i Hi]. exfalso. apply Hq.
    assert (index_of (q_id q) (qp_items default_profile) <> None) as Hn
      by (unfold get_index in Hi; congruence).
    rewrite index_of_None in Hn. apply dec_stable in Hn. exact Hn.
Qed.

(** ** Witnesses *)

Definition one_item_profile : QualityProfile :=
  {| qp_id := 2; qp_name := lit "One"; qp_cutoff_quality_id := q_id DVD;
     qp_items := [{| qi_quality_id := q_id DVD; qi_allowed := true |}];
     qp_min_format_score := 0; qp_upgrade_allowed := true |}.

Lemma check_quality_is_the_allow_list_witness :
  qv_accepted (check_quality DVD one_item_profile) = true /\
  {| qi_quality_id := q_id DVD; qi_allowed := true |} ∈ qp_items one_item_profile.
Proof.
  split; [reflexivity|].
  apply (check_quality_is_the_allow_list DVD one_item_profile); [|reflexivity].
  apply NoDup_singleton.
Defined.

Lemma compare_by_profile_total_preorder_witness :
  (compare_by_profile CAM RAWHD default_profile <= 0)%Z.
Proof.
  apply (compare_by_profile_total_preorder default_profile CAM WEBDL1080P RAWHD);
    vm_compute; discriminate.
Defined.

Lemma default_profile_is_weight_floor_witness :
  qv_accepted (check_quality TELESYNC default_profile) = false.
Proof.
  rewrite (proj1 default_profile_is_weight_floor TELESYNC); [reflexivity|].
  apply mem_true. reflexivity.
Defined.
