(* ===== verification/Release.v ===== *)
(** * The release read-models ([domain/release.py])

    The parser's output, the indexer's candidate and the decision engine's
    ranked result, with the fields the program computes on. *)

From Stdlib Require Import ZArith Bool String.
From S2P Require Import Prelude PyStr Quality.

(** [int | list[int] | None]: a season or episode field. *)
Inductive numbers : Type :=
  | NoNumber
  | OneNumber (n : Z)
  | Numbers (l : list Z).

#[export] Instance numbers_eq_dec : EqDecision numbers.
Proof. solve_decision. Defined.

(** The numbers a field names, as a list. *)
Definition numbers_list (n : numbers) : list Z :=
  match n with NoNumber => [] | OneNumber x => [x] | Numbers l => l end.

Record Revision := { rv_version : Z; rv_is_repack : bool; rv_real : Z }.

Record ParsedRelease := {
  pr_raw_title : list N;
  pr_clean_title : list N;
  pr_year : option Z;
  pr_season : numbers;
  pr_episode : numbers;
  pr_source : QualitySource;
  pr_resolution : Resolution;
  pr_modifier : Modifier;
  pr_revision : Revision;
  pr_release_group : option (list N);
  pr_languages : list (list N);
  pr_edition : option (list N);
  pr_hardcoded_subs : option (list N);
}.

Definition is_cam_or_prerelease (p : ParsedRelease) : bool :=
  mem (pr_source p) [SRC_CAM; SRC_TELESYNC; SRC_TELECINE; SRC_WORKPRINT].

Record CandidateRelease := {
  cr_guid : list N;
  cr_title : list N;
  cr_size_bytes : Z;
  cr_download_url : option (list N);
  cr_magnet_url : option (list N);
  cr_info_hash : option (list N);
  cr_seeders : option Z;
  cr_leechers : option Z;
  cr_indexer_id : Z;
  cr_indexer_name : list N;
  cr_indexer_priority : Z;
  cr_publish_date : Z;
  cr_imdb_id : Z;
  cr_tmdb_id : Z;
  cr_categories : list Z;
  cr_protocol : list N;
}.
