(* ===== verification/SourceMapping.v ===== *)
(** * From parsed fields to a quality ([domain/source_mapping.py], [adapters/parser])

    The mapping of guessit's field dictionary and the raw title to source,
    resolution, modifier and revision; the two reject nets; the resolution of a
    named quality.  guessit itself is a parameter. *)

From Stdlib Require Import ZArith Lia Bool String.
From S2P Require Import Prelude PyStr PyRe Quality Release.

#[local] Open Scope bool_scope.

(** A value of guessit's dictionary.  [ObjOther] is any other object, with its
    [str] and its [repr]. *)
Inductive obj : Type :=
  | ObjNone
  | ObjBool (b : bool)
  | ObjInt (z : Z)
  | ObjStr (s : list N)
  | ObjList (l : list obj)
  | ObjTuple (l : list obj)
  | ObjOther (text repr : list N).

Abbreviation fields := (gmap (list N) obj) (only parsing).

(** [fields.get(k)]. *)
Definition get (k : string) (f : gmap (list N) obj) : obj := default ObjNone (f !! lit k).

Section source_mapping.
Context {DB : UnicodeDB}.

(** *** [str] and [repr] of a value *)

Definition bool_text (b : bool) : list N := if b then lit "True" else lit "False".

Fixpoint obj_repr (o : obj) : list N :=
  match o with
  | ObjNone => lit "None"
  | ObjBool b => bool_text b
  | ObjInt z => str_of_int z
  | ObjStr s => py_repr s
  | ObjList l => lit "[" ++ join (lit ", ") (List.map obj_repr l) ++ lit "]"
  | ObjTuple [x] => lit "(" ++ obj_repr x ++ lit ",)"
  | ObjTuple l => lit "(" ++ join (lit ", ") (List.map obj_repr l) ++ lit ")"
  | ObjOther _ r => r
  end.

Definition obj_str (o : obj) : list N :=
  match o with ObjStr s => s | ObjOther t _ => t | _ => obj_repr o end.

Definition _as_str_list (value : obj) : list (list N) :=
  match value with
  | ObjNone => []
  | ObjStr s => [s]
  | ObjList l | ObjTuple l => obj_str <$> l
  | _ => [obj_str value]
  end.

(** *** [int(text)] *)

Definition int_space (c : N) : bool :=
  if (c <? 127)%N then between 9 13 c || (c =? 32)%N else is_space c.

(** The digits, with single underscores between them; [None] is [ValueError]. *)
Fixpoint int_digits (acc : Z) (after_digit : bool) (s : list N) : option Z :=
  match s with
  | [] => if after_digit then Some acc else None
  | c :: s' =>
      match digit_val c with
      | Some d => int_digits (10 * acc + d)%Z true s'
      | None => if (c =? 95)%N && after_digit then int_digits acc false s' else None
      end
  end.

Definition digit_count (s : list N) : nat :=
  length (List.filter (fun c => match digit_val c with Some _ => true | None => false end) s).

Definition py_int (s : list N) : option Z :=
  let body := strip int_space s in
  if (4300 <? digit_count body)%nat then None
  else
    match body with
    | 43%N :: r => int_digits 0 false r
    | 45%N :: r => Z.opp <$> int_digits 0 false r
    | r => int_digits 0 false r
    end.

(** *** The tables *)

Definition _SOURCE_MAP : list (list N * QualitySource) :=
  [ (lit "Camera", SRC_CAM); (lit "HD Camera", SRC_CAM);
    (lit "Telesync", SRC_TELESYNC); (lit "HD Telesync", SRC_TELESYNC);
    (lit "Telecine", SRC_TELECINE); (lit "HD Telecine", SRC_TELECINE);
    (lit "Workprint", SRC_WORKPRINT); (lit "DVD", SRC_DVD);
    (lit "HDTV", SRC_TV); (lit "Analog HDTV", SRC_TV); (lit "Satellite", SRC_TV);
    (lit "Digital TV", SRC_TV); (lit "Blu-ray", SRC_BLURAY);
    (lit "Ultra HD Blu-ray", SRC_BLURAY) ].

(** [\bW\b] and [\bV[\s._-]?W\b]. *)
Definition keyword (w : string) : re := cats [WordB; word_re (lit w); WordB].
Definition keyword2 (v w : string) : re :=
  cats [WordB; word_re (lit v); opt_chr sep_char; word_re (lit w); WordB].

Definition _REJECT_NET : list (re * QualitySource) :=
  [ (keyword2 "HD" "TS", SRC_TELESYNC); (keyword2 "TS" "RIP", SRC_TELESYNC);
    (keyword "TELESYNC", SRC_TELESYNC); (keyword2 "HD" "TC", SRC_TELECINE);
    (keyword2 "TC" "RIP", SRC_TELECINE); (keyword "TELECINE", SRC_TELECINE);
    (keyword2 "WORK" "PRINT", SRC_WORKPRINT); (keyword2 "HQ" "CAM", SRC_CAM);
    (keyword2 "HD" "CAM", SRC_CAM); (keyword2 "CAM" "RIP", SRC_CAM);
    (keyword2 "PRE" "DVD", SRC_CAM); (keyword "PDVD", SRC_CAM);
    (keyword "CAMERA", SRC_CAM) ].

Definition _REJECT_SOURCES : list QualitySource :=
  [SRC_CAM; SRC_TELESYNC; SRC_TELECINE; SRC_WORKPRINT].

Definition _REJECT_MODIFIER_NET : list (re * Modifier) :=
  [ (keyword2 "DVD" "SCR", MOD_SCREENER); (keyword2 "BD" "SCR", MOD_SCREENER);
    (keyword "SCREENER", MOD_SCREENER); (keyword "SCR", MOD_SCREENER);
    (keyword "R5", MOD_REGIONAL); (keyword "R6", MOD_REGIONAL) ].

Definition _REJECT_MODIFIERS : list Modifier := [MOD_SCREENER; MOD_REGIONAL].

Definition _RESOLUTION_BY_HEIGHT : list (Z * Resolution) :=
  [ (360%Z, R360P); (480%Z, R480P); (540%Z, R540P); (576%Z, R576P); (720%Z, R720P);
    (1080%Z, R1080P); (2160%Z, R2160P) ].

Definition _REJECT_QUALITY_BY_SOURCE : list (QualitySource * Quality) :=
  [ (SRC_CAM, CAM); (SRC_TELESYNC, TELESYNC); (SRC_TELECINE, TELECINE);
    (SRC_WORKPRINT, WORKPRINT) ].

(** The first pattern of a net found in the title. *)
Fixpoint first_hit {A} (net : list (re * A)) (raw_title : list N) : option A :=
  match net with
  | [] => None
  | (pattern, a) :: rest => if search pattern raw_title then Some a else first_hit rest raw_title
  end.

Definition _reject_net (raw_title : list N) : option QualitySource :=
  first_hit _REJECT_NET raw_title.
Definition _reject_modifier_net (raw_title : list N) : option Modifier :=
  first_hit _REJECT_MODIFIER_NET raw_title.

(** *** The mapping *)

Definition others_of (f : gmap (list N) obj) : list (list N) :=
  py_casefold <$> _as_str_list (get "other" f).

Definition map_source (f : gmap (list N) obj) (raw_title : list N) : QualitySource :=
  let others := others_of f in
  let base :=
    match get "source" f with
    | ObjStr raw_source =>
        if bool_decide (raw_source = lit "Web") then
          if mem (lit "rip") others then SRC_WEBRIP else SRC_WEBDL
        else default SRC_UNKNOWN (assoc raw_source _SOURCE_MAP)
    | _ => SRC_UNKNOWN
    end in
  match _reject_net raw_title with Some forced => forced | None => base end.

Definition is_decimal (c : N) : bool :=
  match digit_val c with Some _ => true | None => false end.

Definition map_resolution (f : gmap (list N) obj) : Resolution :=
  match get "screen_size" f with
  | ObjStr screen_size =>
      match search_from (Grp (Rep is_decimal 3 (Some 4))) None screen_size with
      | Some (_, st) =>
          match m_grp st ≫= py_int with
          | Some height => default RES_UNKNOWN (assoc height _RESOLUTION_BY_HEIGHT)
          | None => RES_UNKNOWN
          end
      | None => RES_UNKNOWN
      end
  | _ => RES_UNKNOWN
  end.

Definition map_modifier (f : gmap (list N) obj) (raw_title : list N) : Modifier :=
  let others := others_of f in
  if mem (lit "screener") others then MOD_SCREENER
  else if existsb (contains (lit "region")) others then MOD_REGIONAL
  else
    match _reject_modifier_net raw_title with
    | Some forced => forced
    | None => if mem (lit "remux") others then MOD_REMUX else MOD_NONE
    end.

Definition map_revision (f : gmap (list N) obj) (raw_title : list N) : Revision :=
  let version :=
    match get "proper_count" f with
    | ObjStr s => match py_int s with Some n => (n + 1)%Z | None => 1%Z end
    | ObjInt n => (n + 1)%Z
    | ObjBool b => (Z.b2z b + 1)%Z
    | _ => 1%Z
    end in
  {| rv_version := version;
     rv_is_repack := search (keyword "REPACK") raw_title;
     rv_real := Z.of_nat (length (finditer (keyword "REAL") raw_title)) |}.

Definition map_fields (f : gmap (list N) obj) (raw_title : list N)
    : QualitySource * Resolution * Modifier * Revision :=
  (map_source f raw_title, map_resolution f, map_modifier f raw_title, map_revision f raw_title).

Definition _coerce_year (value : obj) : option Z :=
  match value with
  | ObjInt n => Some n
  | ObjBool b => Some (Z.b2z b)
  | ObjStr s => py_int s
  | _ => None
  end.

Definition _coerce_str (value : obj) : option (list N) :=
  match value with ObjStr s => Some s | _ => None end.

Definition int_items (l : list obj) : list Z :=
  omap (fun o => match o with ObjInt n => Some n | _ => None end) l.

Definition list_or_none (l : list Z) : numbers :=
  match l with [] => NoNumber | _ => Numbers l end.

Definition _coerce_season (value : obj) : numbers :=
  match value with
  | ObjInt n => OneNumber n
  | ObjList l | ObjTuple l => list_or_none (int_items l)
  | _ => NoNumber
  end.

Definition _coerce_episode (value : obj) : numbers :=
  match value with
  | ObjInt n => OneNumber n
  | ObjList l | ObjTuple l => list_or_none (int_items l)
  | _ => NoNumber
  end.

Definition to_parsed_release (f : gmap (list N) obj) (raw_title : list N) : ParsedRelease :=
  let '(source, resolution, modifier, revision) := map_fields f raw_title in
  {| pr_raw_title := raw_title;
     pr_clean_title := match _coerce_str (get "title" f) with
                       | Some (c :: s) => c :: s
                       | _ => raw_title
                       end;
     pr_year := _coerce_year (get "year" f);
     pr_season := _coerce_season (get "season" f);
     pr_episode := _coerce_episode (get "episode" f);
     pr_source := source; pr_resolution := resolution; pr_modifier := modifier;
     pr_revision := revision;
     pr_release_group := _coerce_str (get "release_group" f);
     pr_languages := _as_str_list (get "language" f);
     pr_edition := _coerce_str (get "edition" f);
     pr_hardcoded_subs := None |}.

(** [GuessitParser.parse]: an exception of guessit degrades to no field. *)
Definition parse (guessit : list N -> res (gmap (list N) obj)) (release_name : list N)
    : ParsedRelease :=
  to_parsed_release (catch (guessit release_name) (fun _ => ∅)) release_name.
End source_mapping.

(** *** The named quality *)

Definition lookup_exact (source : QualitySource) (resolution : Resolution) : option Quality :=
  List.find (fun q => bool_decide (q_source q = source) && bool_decide (q_resolution q = resolution)
                      && bool_decide (q_modifier q = MOD_NONE)) ALL_QUALITIES.

Definition source_candidates (source : QualitySource) : list Quality :=
  List.filter (fun q => bool_decide (q_source q = source) && bool_decide (q_modifier q = MOD_NONE))
    ALL_QUALITIES.

(** The REMUX arm; [None] falls through. *)
Definition resolve_remux (source : QualitySource) (resolution : Resolution) : option Quality :=
  match source with
  | SRC_BLURAY | SRC_UNKNOWN =>
      match resolution with
      | R2160P => Some REMUX2160P
      | R1080P => Some REMUX1080P
      | R720P => Some BLURAY720P
      | R480P => Some BLURAY480P
      | RES_UNKNOWN => if bool_decide (source = SRC_BLURAY) then Some REMUX1080P else None
      | _ => None
      end
  | SRC_DVD => Some DVDR
  | _ => None
  end.

Definition resolve_quality (source : QualitySource) (resolution : Resolution) (modifier : Modifier)
    : Quality :=
  match assoc source _REJECT_QUALITY_BY_SOURCE with
  | Some reject => reject
  | None =>
      let rest :=
        if bool_decide (source = SRC_UNKNOWN) then UNKNOWN
        else
          match lookup_exact source resolution with
          | Some q => q
          | None =>
              match source_candidates source with
              | q :: qs => py_min_by q_weight q qs
              | [] => UNKNOWN
              end
          end in
      match modifier with
      | MOD_SCREENER => DVDSCR
      | MOD_REGIONAL => REGIONAL
      | MOD_REMUX => default rest (resolve_remux source resolution)
      | MOD_BRDISK => BRDISK
      | MOD_RAWHD => RAWHD
      | MOD_NONE => rest
      end
  end.

Definition quality_of (p : ParsedRelease) : Quality :=
  resolve_quality (pr_source p) (pr_resolution p) (pr_modifier p).

(** ** Lemmas *)

(** Enumerating the cells of [resolve_quality]. *)
Definition cells (P : QualitySource -> Resolution -> Modifier -> bool) : bool :=
  forallb (fun s => forallb (fun r => forallb (P s r) all_modifiers) all_resolutions) all_sources.

Lemma cells_all P s r m : cells P = true -> P s r m = true.
Proof.
  unfold cells. intros H.
  rewrite forallb_forall_iff in H. specialize (H s (all_sources_complete s)). cbn beta in H.
  rewrite forallb_forall_iff in H. specialize (H r (all_resolutions_complete r)). cbn beta in H.
  rewrite forallb_forall_iff in H. apply (H m (all_modifiers_complete m)).
Qed.

Definition default_accepts (q : Quality) : bool := qv_accepted (check_quality q default_profile).

(** A reject-tier source or modifier resolves to a quality the default profile
    rejects. *)
Definition reject_cell (s : QualitySource) (r : Resolution) (m : Modifier) : bool :=
  implb (mem s _REJECT_SOURCES || mem m _REJECT_MODIFIERS)
    (negb (default_accepts (resolve_quality s r m))).

Lemma reject_cells : cells reject_cell = true.
Proof. by_compute. Qed.

Section lemmas.
Context {DB : UnicodeDB}.

Lemma first_hit_in {A} (net : list (re * A)) title a :
  first_hit net title = Some a -> exists p, (p, a) ∈ net /\ search p title = true.
Proof.
  induction net as [|[p b] net IH]; [done|]. simpl.
  destruct (search p title) eqn:Hs.
  - intros [= ->]. exists p. split; [left|done].
  - intros H. destruct (IH H) as (p' & Hin & ?). exists p'. split; [by right|done].
Qed.

Lemma first_hit_some {A} (net : list (re * A)) title p a :
  (p, a) ∈ net -> search p title = true -> first_hit net title <> None.
Proof.
  induction net as [|[p' b] net IH]; [by intros ?%not_elem_of_nil|]. simpl.
  intros [[= <- <-]|Hin]%elem_of_cons Hs; [by rewrite Hs|].
  destruct (search p' title); [done|auto].
Qed.

Lemma net_targets {A} `{EqDecision A} (net : list (re * A)) (targets : list A) title a :
  forallb (fun p => mem (snd p) targets) net = true ->
  first_hit net title = Some a -> a ∈ targets.
Proof.
  intros Hall H. apply first_hit_in in H as (p & Hin & _).
  rewrite forallb_forall_iff in Hall. by apply Hall, mem_true in Hin.
Qed.

Lemma reject_net_range title s : _reject_net title = Some s -> s ∈ _REJECT_SOURCES.
Proof. apply net_targets. reflexivity. Qed.

Lemma reject_modifier_net_range title m :
  _reject_modifier_net title = Some m -> m ∈ _REJECT_MODIFIERS.
Proof. apply net_targets. reflexivity. Qed.

Lemma reject_source_rejected s r m :
  s ∈ _REJECT_SOURCES -> default_accepts (resolve_quality s r m) = false.
Proof.
  intros Hs. apply mem_true in Hs.
  pose proof (cells_all _ s r m reject_cells) as H. unfold reject_cell in H.
  rewrite Hs in H. by apply negb_true_iff.
Qed.

Lemma reject_modifier_rejected s r m :
  m ∈ _REJECT_MODIFIERS -> default_accepts (resolve_quality s r m) = false.
Proof.
  intros Hm. apply mem_true in Hm.
  pose proof (cells_all _ s r m reject_cells) as H. unfold reject_cell in H.
  rewrite Hm, orb_true_r in H. by apply negb_true_iff.
Qed.

Lemma map_source_forced f title s : _reject_net title = Some s -> map_source f title = s.
Proof. unfold map_source. by intros ->. Qed.

Lemma map_modifier_forced f title m :
  _reject_modifier_net title = Some m -> map_modifier f title ∈ _REJECT_MODIFIERS.
Proof.
  unfold map_modifier. intros Hm. rewrite Hm. apply reject_modifier_net_range in Hm.
  destruct (mem _ _); [apply mem_true; reflexivity|].
  destruct (existsb _ _); [apply mem_true; reflexivity|]. done.
Qed.

Lemma quality_of_to_parsed f title :
  quality_of (to_parsed_release f title) =
  resolve_quality (map_source f title) (map_resolution f) (map_modifier f title).
Proof. done. Qed.

(** A title that either net matches is rejected whatever the fields say. *)
Lemma net_hit_rejected f title :
  _reject_net title <> None \/ _reject_modifier_net title <> None ->
  default_accepts (quality_of (to_parsed_release f title)) = false.
Proof.
  rewrite quality_of_to_parsed. intros [H|H].
  - destruct (_reject_net title) as [s|] eqn:Hs; [|done].
    rewrite (map_source_forced _ _ _ Hs). apply reject_source_rejected.
    by eapply reject_net_range.
  - destruct (_reject_modifier_net title) as [m|] eqn:Hm; [|done].
    apply reject_modifier_rejected. by eapply map_modifier_forced.
Qed.
End lemmas.

(** ** Reject words as a reader of a title sees them *)

Section keywords.
Context {DB : UnicodeDB}.

(** A word boundary between two texts. *)
Definition boundary (before after : list N) : bool :=
  xorb (word_opt (last before)) (word_opt (head after)).

(** [w] in any case, with word boundaries around. *)
Definition spelled (w title : list N) : Prop :=
  exists before t after,
    title = before ++ t ++ after /\ spells w t = true /\
    boundary before (t ++ after) = true /\ boundary (before ++ t) after = true.

(** [v] then [w], in any case, with at most one separator between them and
    with word boundaries around. *)
Definition spelled2 (v w title : list N) : Prop :=
  exists before tv sep tw after,
    title = before ++ tv ++ sep ++ tw ++ after /\
    spells v tv = true /\ spells w tw = true /\
    (sep = [] \/ exists c, sep = [c] /\ sep_char c = true) /\
    boundary before (tv ++ sep ++ tw ++ after) = true /\
    boundary (before ++ tv ++ sep ++ tw) after = true.

Lemma last_prev_of prev t : prev_of (last prev) t = last (prev ++ t).
Proof.
  unfold prev_of. induction t as [|x t _] using rev_ind; [by rewrite app_nil_r|].
  by rewrite app_assoc, !last_snoc.
Qed.

Lemma word_re_step w t before after :
  spells w t = true ->
  Matches (word_re w) (MState (last before) (t ++ after) None)
                      (MState (last (before ++ t)) after None).
Proof. rewrite <- last_prev_of. apply word_re_matches. Qed.

Lemma opt_sep_step sep before after :
  (sep = [] \/ exists c, sep = [c] /\ sep_char c = true) ->
  Matches (opt_chr sep_char) (MState (last before) (sep ++ after) None)
                             (MState (last (before ++ sep)) after None).
Proof.
  intros [->|(c & -> & Hc)].
  - rewrite app_nil_r. simpl. apply (M_Rep sep_char 0 (Some 1) (MState (last before) after None) 0); lia.
  - rewrite last_snoc.
    apply (M_Rep sep_char 0 (Some 1) (MState (last before) (c :: after) None) 1); simpl;
      rewrite ?Hc; lia.
Qed.

Lemma keyword_found w title : spelled (lit w) title -> search (keyword w) title = true.
Proof.
  intros (before & t & after & -> & Hw & Hb1 & Hb2). apply search_true.
  exists before, (t ++ after), (MState (last (before ++ t)) after None). split; [done|].
  eapply M_Cat; [by apply M_WordB|].
  eapply M_Cat; [by apply word_re_step | by apply M_WordB].
Qed.

Lemma keyword2_found v w title : spelled2 (lit v) (lit w) title -> search (keyword2 v w) title = true.
Proof.
  intros (before & tv & sep & tw & after & -> & Hv & Hw & Hsep & Hb1 & Hb2). apply search_true.
  exists before, (tv ++ sep ++ tw ++ after), (MState (last (before ++ tv ++ sep ++ tw)) after None).
  split; [done|].
  eapply M_Cat; [by apply M_WordB|]. eapply M_Cat; [by apply word_re_step|].
  eapply M_Cat; [by apply opt_sep_step|].
  eapply M_Cat; [by apply word_re_step|]. rewrite <- !app_assoc. by apply M_WordB.
Qed.

(** The words of the two nets. *)
Definition reject_words : list string :=
  ["TELESYNC"; "TELECINE"; "PDVD"; "CAMERA"; "SCREENER"; "SCR"; "R5"; "R6"]%string.
Definition reject_pairs : list (string * string) :=
  [("HD", "TS"); ("TS", "RIP"); ("HD", "TC"); ("TC", "RIP"); ("WORK", "PRINT"); ("HQ", "CAM");
   ("HD", "CAM"); ("CAM", "RIP"); ("PRE", "DVD"); ("DVD", "SCR"); ("BD", "SCR")]%string.

Definition carries_reject_word (title : list N) : Prop :=
  (exists w, w ∈ reject_words /\ spelled (lit w) title) \/
  (exists v w, (v, w) ∈ reject_pairs /\ spelled2 (lit v) (lit w) title).

Definition net_patterns : list re := (_REJECT_NET.*1) ++ (_REJECT_MODIFIER_NET.*1).

Lemma net_pattern_hits p title :
  p ∈ net_patterns -> search p title = true ->
  _reject_net title <> None \/ _reject_modifier_net title <> None.
Proof.
  unfold net_patterns. intros [Hp|Hp]%elem_of_app Hs;
    apply list_elem_of_fmap in Hp as ([q a] & -> & Hin); [left|right];
    by eapply first_hit_some.
Qed.

Ltac pick := repeat (apply list_elem_of_here || apply list_elem_of_further).

Lemma reject_word_hits title :
  carries_reject_word title ->
  _reject_net title <> None \/ _reject_modifier_net title <> None.
Proof.
  intros [(w & Hw & Hs)|(v & w & Hw & Hs)].
  - apply (net_pattern_hits (keyword w)); [|by apply keyword_found].
    repeat (apply elem_of_cons in Hw as [->|Hw]; [pick|]). by apply not_elem_of_nil in Hw.
  - apply (net_pattern_hits (keyword2 v w)); [|by apply keyword2_found].
    repeat (apply elem_of_cons in Hw as [[= -> ->]|Hw]; [pick|]). by apply not_elem_of_nil in Hw.
Qed.
End keywords.

(** ** Properties *)

(** The CAM/TS hard cutoff: a release whose title carries a bounded reject
    word (in any case, [HD-CAM] as well as [HDCAM]) is rejected by the default
    profile, whatever the title parser returns or raises. *)
Theorem reject_word_is_never_grabbed {DB : UnicodeDB} guessit title :
  carries_reject_word title ->
  qv_accepted (check_quality (quality_of (parse guessit title)) default_profile) = false.
Proof. intros H. by apply net_hit_rejected, reject_word_hits. Qed.

(** The nets can never promote: next to the same fields with a title no net
    matches, a title either leaves source and modifier as they are, or makes
    the release one the default profile rejects. *)
Theorem nets_never_promote {DB : UnicodeDB} f title :
  (map_source f title = map_source f [] /\ map_modifier f title = map_modifier f []) \/
  qv_accepted (check_quality (quality_of (to_parsed_release f title)) default_profile) = false.
Proof.
  destruct (_reject_net title) eqn:H1.
  { right. apply net_hit_rejected. left. congruence. }
  destruct (_reject_modifier_net title) eqn:H2.
  { right. apply net_hit_rejected. right. congruence. }
  left. unfold map_source, map_modifier. rewrite H1, H2. split; reflexivity.
Qed.

(** The cell is an accepted one. *)
Definition acceptable (s : QualitySource) (r : Resolution) (m : Modifier) : bool :=
  negb (mem s _REJECT_SOURCES) && negb (mem m _REJECT_MODIFIERS)
  && (negb (bool_decide (s = SRC_UNKNOWN)) || mem m [MOD_RAWHD; MOD_BRDISK]
      || (bool_decide (m = MOD_REMUX) && mem r [R480P; R720P; R1080P; R2160P])).

(** Which combinations the default profile accepts: exactly those with no
    reject-tier source or modifier whose source is known, or told by a disc,
    raw or (from 480p up, where the remux table has an entry) remux modifier. *)
Theorem resolve_quality_accepted_cells s r m :
  qv_accepted (check_quality (resolve_quality s r m) default_profile) = acceptable s r m.
Proof.
  apply eqb_prop.
  apply (cells_all (fun s r m => Bool.eqb (default_accepts (resolve_quality s r m))
    (acceptable s r m)) s r m). by_compute.
Qed.

Definition conservative_cell (s : QualitySource) (r : Resolution) (m : Modifier) : bool :=
  implb (negb (mem s _REJECT_SOURCES) && negb (bool_decide (s = SRC_UNKNOWN))
         && bool_decide (m = MOD_NONE))
    (let q := resolve_quality s r m in
     mem q ALL_QUALITIES && bool_decide (q_source q = s) && bool_decide (q_modifier q = MOD_NONE)
     && (bool_decide (q_resolution q = r)
         || (negb (mem r (q_resolution <$> source_candidates s))
             && forallb (fun q' => (q_weight q <=? q_weight q')%Z) (source_candidates s)))).

Lemma conservative_cells : cells conservative_cell = true.
Proof. by_compute. Qed.

(** An unmodified release of a known source resolves to a registered
    quality of that source, at its exact resolution when the registry has one,
    and otherwise to the source's lowest-weight quality: an ambiguous parse is
    never promoted. *)
Theorem resolve_quality_conservative s r :
  s ∉ _REJECT_SOURCES -> s <> SRC_UNKNOWN ->
  let q := resolve_quality s r MOD_NONE in
  q ∈ ALL_QUALITIES /\ q_source q = s /\ q_modifier q = MOD_NONE /\
  (q_resolution q = r \/
   (r ∉ (q_resolution <$> source_candidates s)) /\
   Forall (fun q' => (q_weight q <= q_weight q')%Z) (source_candidates s)).
Proof.
  intros Hs Hu. pose proof (cells_all _ s r MOD_NONE conservative_cells) as H.
  unfold conservative_cell in H. apply mem_false in Hs. rewrite Hs in H.
  rewrite bool_decide_false in H by done. rewrite bool_decide_true in H by done.
  cbn [negb andb implb] in H. cbv zeta in *. revert H.
  generalize (resolve_quality s r MOD_NONE). intros q H. boolify.
  do 3 (split; [done|]). apply orb_true_iff in H0 as [H0|H0]; boolify; [by left|].
  right. split; [done|]. apply Forall_forall. intros q' Hq'.
  match goal with Hf : forallb _ _ = true |- _ => rewrite forallb_forall_iff in Hf; by apply Z.leb_le, Hf end.
Qed.

(** The parser never raises and never guesses: when guessit fails, or finds
    no source and no marker, the release is rejected by the default profile. *)
Theorem unparsable_release_is_rejected {DB : UnicodeDB} guessit title :
  (forall f, guessit title = Ok f -> get "source" f = ObjNone /\ get "other" f = ObjNone) ->
  qv_accepted (check_quality (quality_of (parse guessit title)) default_profile) = false.
Proof.
  intros Hg. unfold parse.
  assert (exists f, catch (guessit title) (fun _ => ∅) = f /\
    get "source" f = ObjNone /\ get "other" f = ObjNone) as (f & -> & Hs & Ho).
  { eexists. split; [done|]. destruct (guessit title) as [f|e]; simpl; [by apply Hg|].
    unfold get. by rewrite !lookup_empty. }
  destruct (_reject_net title) as [s|] eqn:H1.
  { apply net_hit_rejected. left. congruence. }
  destruct (_reject_modifier_net title) as [m|] eqn:H2.
  { apply net_hit_rejected. right. congruence. }
  rewrite quality_of_to_parsed. unfold map_source, map_modifier, others_of.
  rewrite H1, H2, Hs, Ho. cbn [_as_str_list fmap list_fmap existsb].
  by destruct (map_resolution f).
Qed.

(** ** Witnesses *)

Section examples.
#[local] Existing Instance ascii_db.

(** A parser that calls every title a 1080p WEB-DL. *)
Definition web_parser (_ : list N) : res (gmap (list N) obj) :=
  Ok (dict_of [(lit "source", ObjStr (lit "Web")); (lit "screen_size", ObjStr (lit "1080p"))]).

Definition broken_parser (_ : list N) : res (gmap (list N) obj) := Raise TypeError.

Lemma reject_word_is_never_grabbed_witness :
  qv_accepted (check_quality
    (quality_of (parse web_parser (lit "Film.2024.hq-Cam.1080p"))) default_profile) = false /\
  qv_accepted (check_quality
    (quality_of (parse web_parser (lit "Film.2024.1080p"))) default_profile) = true.
Proof.
  split; [|vm_compute; reflexivity].
  apply reject_word_is_never_grabbed. right. exists "HQ"%string, "CAM"%string.
  split; [apply mem_true; reflexivity|].
  exists (lit "Film.2024."), (lit "hq"), (lit "-"), (lit "Cam"), (lit ".1080p").
  do 3 (split; [reflexivity|]). split; [|split; reflexivity].
  right. exists 45%N. split; reflexivity.
Defined.

Lemma resolve_quality_conservative_witness :
  let q := resolve_quality SRC_TV R576P MOD_NONE in q_source q = SRC_TV /\ q = SDTV.
Proof.
  split; [|reflexivity].
  apply (resolve_quality_conservative SRC_TV R576P);
    [apply mem_false; reflexivity | discriminate].
Defined.

Lemma unparsable_release_is_rejected_witness :
  qv_accepted (check_quality
    (quality_of (parse broken_parser (lit "Film.2160p"))) default_profile) = false.
Proof. apply unparsable_release_is_rejected. discriminate. Defined.
End examples.
