(* ===== verification/SeasonPack.v ===== *)
(** * Season scope and packs ([domain/season_pack.py], [season_completeness.py])

    What portion of a show a parsed release covers, the policy for physical
    packs that span several seasons, and the arithmetic of a complete season. *)

From Stdlib Require Import ZArith Lia Bool String Permutation Sorted.
From stdpp Require Import gmap sets.
From S2P Require Import Prelude PyStr Quality Release.

#[local] Open Scope bool_scope.

Inductive ReleaseScope : Type := single_episode | season_pack | multi_season_pack | unknown.

#[export] Instance ReleaseScope_eq_dec : EqDecision ReleaseScope.
Proof. solve_decision. Defined.

Definition _INSTALLED_STATUSES : list (list N) := [lit "completed"; lit "available"].
Definition _SEARCHABLE_STATUSES : list (list N) :=
  [lit "pending"; lit "searching"; lit "no_acceptable_release"; lit "failed"].
Definition _IN_FLIGHT_STATUSES : list (list N) := [lit "downloading"; lit "import_blocked"].

Inductive MultiSeasonRequestMode : Type := whole_show | explicit_seasons.

#[export] Instance MultiSeasonRequestMode_eq_dec : EqDecision MultiSeasonRequestMode.
Proof. solve_decision. Defined.

Record SeasonPackSeasonState := {
  ss_season_number : Z;
  ss_status : list N;
  ss_installed_quality_id : option Z;
  ss_installed_profile_index : option Z;
}.

Record MultiSeasonRequestIntent := {
  mi_mode : MultiSeasonRequestMode;
  mi_requested_seasons : list Z;
  mi_seasons : list SeasonPackSeasonState;
}.

Inductive PackReason : Type :=
  | explicit_season_set_mismatch | covered_season_in_flight
  | no_useful_seasons | useful_seasons_not_majority.

Record MultiSeasonPackPlan := {
  mp_accepted : bool;
  mp_reason : option PackReason;
  mp_covered_seasons : list Z;
  mp_target_seasons : list Z;
  mp_upgrade_seasons : list Z;
  mp_waste_seasons : list Z;
  mp_ignored_seasons : list Z;
  mp_in_flight_seasons : list Z;
}.

Definition classify_release_scope (parsed : ParsedRelease) : ReleaseScope :=
  let single :=
    match pr_episode parsed with NoNumber => season_pack | _ => single_episode end in
  match pr_season parsed with
  | Numbers (_ :: _ :: _) => multi_season_pack
  | Numbers [] => unknown
  | Numbers [_] => single
  | OneNumber _ => single
  | NoNumber => unknown
  end.

Definition episode_numbers (episode : numbers) : list Z :=
  match episode with
  | NoNumber => []
  | OneNumber e => [e]
  | Numbers l => sorted_set l
  end.

Definition covers_requested_episodes (parsed : ParsedRelease) (requested : list Z) : bool :=
  match classify_release_scope parsed with
  | season_pack | multi_season_pack => true
  | single_episode => subsetb requested (episode_numbers (pr_episode parsed))
  | unknown => false
  end.

Definition _profile_index (profile : QualityProfile) (quality_id : option Z)
    (fallback_index : option Z) : option Z :=
  match quality_id with
  | None => None
  | Some id =>
      match get_index profile id with
      | Some i => Some (Z.of_nat i)
      | None => fallback_index
      end
  end.

(** The loop's accumulators. *)
Record PlanAcc := {
  pa_target : list Z;
  pa_upgrades : list Z;
  pa_waste : list Z;
  pa_in_flight : list Z;
  pa_ignored : list Z;
}.

Definition state_by_season (intent : MultiSeasonRequestIntent) : gmap Z SeasonPackSeasonState :=
  dict_of ((fun st => (ss_season_number st, st)) <$> mi_seasons intent).

(** Membership in [(requested or tracked) & tracked]. *)
Definition eligible (intent : MultiSeasonRequestIntent) (season_number : Z) : bool :=
  (match mi_requested_seasons intent with
   | [] => true
   | requested => mem season_number requested
   end)
  && match state_by_season intent !! season_number with Some _ => true | None => false end.

(** One turn of the loop over the covered seasons. *)
Definition plan_step (profile : QualityProfile) (candidate_index : option nat)
    (intent : MultiSeasonRequestIntent) (acc : PlanAcc) (season_number : Z) : PlanAcc :=
  if negb (eligible intent season_number) then acc
  else
    match state_by_season intent !! season_number with
    | None => acc
    | Some st =>
        if mem (ss_status st) _SEARCHABLE_STATUSES then
          {| pa_target := pa_target acc ++ [season_number]; pa_upgrades := pa_upgrades acc;
             pa_waste := pa_waste acc; pa_in_flight := pa_in_flight acc;
             pa_ignored := pa_ignored acc |}
        else if mem (ss_status st) _IN_FLIGHT_STATUSES then
          {| pa_target := pa_target acc; pa_upgrades := pa_upgrades acc;
             pa_waste := pa_waste acc; pa_in_flight := pa_in_flight acc ++ [season_number];
             pa_ignored := pa_ignored acc |}
        else if negb (mem (ss_status st) _INSTALLED_STATUSES) then
          {| pa_target := pa_target acc; pa_upgrades := pa_upgrades acc;
             pa_waste := pa_waste acc; pa_in_flight := pa_in_flight acc;
             pa_ignored := pa_ignored acc ++ [season_number] |}
        else
          let installed_index :=
            _profile_index profile (ss_installed_quality_id st) (ss_installed_profile_index st) in
          let wasted :=
            {| pa_target := pa_target acc; pa_upgrades := pa_upgrades acc;
               pa_waste := pa_waste acc ++ [season_number]; pa_in_flight := pa_in_flight acc;
               pa_ignored := pa_ignored acc |} in
          match candidate_index, installed_index with
          | Some c, Some i =>
              if qp_upgrade_allowed profile && (i <? Z.of_nat c)%Z then wasted else wasted
          | _, _ => wasted
          end
    end.

Definition plan_multi_season_pack (pack_seasons : list Z) (candidate_quality_id : Z)
    (profile : QualityProfile) (intent : MultiSeasonRequestIntent) : MultiSeasonPackPlan :=
  let covered := sorted_set pack_seasons in
  let requested := mi_requested_seasons intent in
  if bool_decide (mi_mode intent = explicit_seasons)
     && negb (subsetb covered requested && subsetb requested covered) then
    {| mp_accepted := false; mp_reason := Some explicit_season_set_mismatch;
       mp_covered_seasons := covered; mp_target_seasons := []; mp_upgrade_seasons := [];
       mp_waste_seasons := [];
       mp_ignored_seasons := sorted_set (List.filter (fun s => negb (mem s requested)) covered);
       mp_in_flight_seasons := [] |}
  else
    let candidate_index := get_index profile candidate_quality_id in
    let acc :=
      foldl (plan_step profile candidate_index intent)
        {| pa_target := []; pa_upgrades := []; pa_waste := []; pa_in_flight := [];
           pa_ignored := List.filter (fun s => negb (eligible intent s)) covered |}
        covered in
    let '(accepted, reason) :=
      if negb (bool_decide (pa_in_flight acc = [])) then (false, Some covered_season_in_flight)
      else if bool_decide (pa_target acc = []) then (false, Some no_useful_seasons)
      else if negb (bool_decide (pa_waste acc = []))
              && (length (pa_target acc) <=? length (pa_waste acc))%nat
      then (false, Some useful_seasons_not_majority)
      else (true, None) in
    {| mp_accepted := accepted; mp_reason := reason; mp_covered_seasons := covered;
       mp_target_seasons := pa_target acc; mp_upgrade_seasons := pa_upgrades acc;
       mp_waste_seasons := pa_waste acc; mp_ignored_seasons := sorted_set (pa_ignored acc);
       mp_in_flight_seasons := pa_in_flight acc |}.

(** ** A complete season *)

Definition aired (today : Z) (air_date : option Z) : bool :=
  match air_date with Some d => (d <=? today)%Z | None => false end.

Definition aired_target (episodes : gmap Z (option Z)) (today : Z) : gset Z :=
  dom (filter (fun p : Z * option Z => aired today (snd p) = true) episodes).

Definition compute_missing (target imported downloading : gset Z) : gset Z :=
  target ∖ imported ∖ downloading.

Definition season_is_complete (target imported : gset Z) : bool :=
  negb (bool_decide (target = ∅)) && bool_decide (target ⊆ imported).

(** ** Lemmas *)

Lemma elem_of_episode_numbers e n : e ∈ episode_numbers n <-> e ∈ numbers_list n.
Proof. destruct n; simpl; [done|done|apply elem_of_sorted_set]. Qed.

(** The five outcomes of the loop body. *)
Inductive role : Type := RTarget | RInFlight | RWaste | RIgnored.

#[export] Instance role_eq_dec : EqDecision role.
Proof. solve_decision. Defined.

(** The role of a season, from its tracked status alone. *)
Definition role_of (intent : MultiSeasonRequestIntent) (s : Z) : role :=
  match state_by_season intent !! s with
  | Some st =>
      if negb (eligible intent s) then RIgnored
      else if mem (ss_status st) _SEARCHABLE_STATUSES then RTarget
      else if mem (ss_status st) _IN_FLIGHT_STATUSES then RInFlight
      else if mem (ss_status st) _INSTALLED_STATUSES then RWaste
      else RIgnored
  | None => RIgnored
  end.

Definition with_role (intent : MultiSeasonRequestIntent) (r : role) (l : list Z) : list Z :=
  List.filter (fun s => bool_decide (role_of intent s = r)) l.

(** Ignored although eligible: a tracked status outside the three sets. *)
Definition late_ignored (intent : MultiSeasonRequestIntent) (l : list Z) : list Z :=
  List.filter (fun s => eligible intent s && bool_decide (role_of intent s = RIgnored)) l.

Lemma with_role_snoc intent r l s :
  with_role intent r (l ++ [s]) =
  with_role intent r l ++ (if bool_decide (role_of intent s = r) then [s] else []).
Proof. unfold with_role. by rewrite List.filter_app. Qed.

Lemma late_ignored_snoc intent l s :
  late_ignored intent (l ++ [s]) =
  late_ignored intent l ++
    (if eligible intent s && bool_decide (role_of intent s = RIgnored) then [s] else []).
Proof. unfold late_ignored. by rewrite List.filter_app. Qed.

(** The fold computes the roles. *)
Lemma plan_fold profile c intent l ign :
  foldl (plan_step profile c intent)
    {| pa_target := []; pa_upgrades := []; pa_waste := []; pa_in_flight := [];
       pa_ignored := ign |} l =
  {| pa_target := with_role intent RTarget l; pa_upgrades := [];
     pa_waste := with_role intent RWaste l;
     pa_in_flight := with_role intent RInFlight l;
     pa_ignored := ign ++ late_ignored intent l |}.
Proof.
  induction l as [|s l IH] using rev_ind; [by rewrite app_nil_r|].
  rewrite foldl_snoc, IH, !with_role_snoc, late_ignored_snoc. unfold plan_step, role_of.
  destruct (state_by_season intent !! s) as [st|] eqn:Hst.
  - destruct (eligible intent s); cbn [negb andb]; [|by rewrite !app_nil_r].
    destruct (mem _ _SEARCHABLE_STATUSES); [cbn; by rewrite !app_nil_r|].
    destruct (mem _ _IN_FLIGHT_STATUSES); [cbn; by rewrite !app_nil_r|].
    destruct (mem _ _INSTALLED_STATUSES); cbn [negb]; [|cbn; by rewrite !app_nil_r, app_assoc].
    cbn. rewrite !app_nil_r. repeat case_match; done.
  - assert (eligible intent s = false) as ->
      by (unfold eligible; rewrite Hst; apply andb_false_r).
    cbn. by rewrite !app_nil_r.
Qed.

Lemma elem_of_with_role intent r s l : s ∈ with_role intent r l <-> s ∈ l /\ role_of intent s = r.
Proof.
  unfold with_role. rewrite list_elem_of_In, filter_In, <- list_elem_of_In.
  by rewrite bool_decide_eq_true.
Qed.

(** The final ignored set is the covered seasons of role [RIgnored]. *)
Lemma plan_ignored intent l s :
  s ∈ List.filter (fun s => negb (eligible intent s)) l ++ late_ignored intent l <->
  s ∈ l /\ role_of intent s = RIgnored.
Proof.
  unfold late_ignored. rewrite elem_of_app, !list_elem_of_In, !filter_In, <- !list_elem_of_In.
  rewrite negb_true_iff, andb_true_iff, bool_decide_eq_true.
  assert (eligible intent s = false -> role_of intent s = RIgnored).
  { unfold role_of. intros ->. by destruct (state_by_season intent !! s). }
  destruct (eligible intent s); naive_solver.
Qed.

(** The seasons of a list split by role. *)
Lemma roles_partition intent l :
  with_role intent RTarget l ++ with_role intent RInFlight l ++ with_role intent RWaste l
    ++ with_role intent RIgnored l ≡ₚ l.
Proof.
  induction l as [|s l IH]; [done|]. unfold with_role in *. simpl.
  destruct (role_of intent s); cbn [bool_decide]; simpl;
    rewrite <- ?Permutation_middle, ?app_assoc, <- ?Permutation_middle;
    rewrite <- !app_assoc; by rewrite IH.
Qed.

Definition set_mismatch (intent : MultiSeasonRequestIntent) (pack_seasons : list Z) : Prop :=
  mi_mode intent = explicit_seasons /\
  ~ (pack_seasons ⊆ mi_requested_seasons intent /\ mi_requested_seasons intent ⊆ pack_seasons).

Lemma set_mismatch_test intent pack :
  bool_decide (mi_mode intent = explicit_seasons)
    && negb (subsetb (sorted_set pack) (mi_requested_seasons intent)
             && subsetb (mi_requested_seasons intent) (sorted_set pack)) = true
  <-> set_mismatch intent pack.
Proof.
  unfold set_mismatch. rewrite andb_true_iff, bool_decide_eq_true, negb_true_iff.
  rewrite <- not_true_iff_false, andb_true_iff, !subsetb_true.
  assert (forall l, (sorted_set pack ⊆ l <-> pack ⊆ l) /\ (l ⊆ sorted_set pack <-> l ⊆ pack)) as H.
  { intros l. split; split; intros Hs x Hx; (apply Hs, elem_of_sorted_set, Hx
      || (apply elem_of_sorted_set, Hs, Hx) || (apply elem_of_sorted_set in Hx; by apply Hs)
      || (apply elem_of_sorted_set; by apply Hs)
      || (rewrite <- elem_of_sorted_set; by apply Hs)). }
  destruct (H (mi_requested_seasons intent)) as [-> ->]. done.
Qed.

(** A plan without a set mismatch, in terms of roles. *)
Lemma plan_eq pack q profile intent :
  ~ set_mismatch intent pack ->
  let covered := sorted_set pack in
  let p := plan_multi_season_pack pack q profile intent in
  mp_covered_seasons p = covered /\
  mp_target_seasons p = with_role intent RTarget covered /\
  mp_waste_seasons p = with_role intent RWaste covered /\
  mp_in_flight_seasons p = with_role intent RInFlight covered /\
  mp_upgrade_seasons p = [] /\
  (forall s, s ∈ mp_ignored_seasons p <-> s ∈ pack /\ role_of intent s = RIgnored) /\
  NoDup (mp_ignored_seasons p) /\
  mp_accepted p =
    bool_decide (with_role intent RInFlight covered = [])
    && (length (with_role intent RWaste covered) <? length (with_role intent RTarget covered))%nat /\
  (mp_reason p = None <-> mp_accepted p = true).
Proof.
  intros Hm covered p. unfold p, plan_multi_season_pack.
  rewrite <- set_mismatch_test, not_true_iff_false in Hm. rewrite Hm, plan_fold.
  fold covered. cbn [pa_target pa_waste pa_in_flight pa_ignored pa_upgrades].
  assert (Hign : forall s, s ∈ sorted_set (List.filter (fun s => negb (eligible intent s)) covered
      ++ late_ignored intent covered) <-> s ∈ pack /\ role_of intent s = RIgnored).
  { intros s. rewrite elem_of_sorted_set, plan_ignored. unfold covered.
    by rewrite elem_of_sorted_set. }
  generalize (with_role intent RTarget covered) (with_role intent RWaste covered)
    (with_role intent RInFlight covered). intros tg ws fl.
  pose proof NoDup_sorted_set as Hnd. rewrite Nat.ltb_antisym.
  destruct fl as [|f fl]; cbn -[sorted_set]; [|naive_solver].
  destruct tg as [|t tg]; cbn -[sorted_set]; [naive_solver|].
  destruct ws as [|w ws]; cbn -[sorted_set]; [naive_solver|].
  destruct (length tg <=? length ws)%nat; cbn -[sorted_set]; naive_solver.
Qed.

(** ** Properties *)

(** A pack's plan sorts out every season the pack would download, exactly
    once: the target, in-flight, waste and ignored seasons together are the
    covered ones, which are the pack's seasons without duplicates; a target is
    always a requested, tracked season still to be searched. *)
Theorem plan_partitions_the_pack pack q profile intent :
  ~ set_mismatch intent pack ->
  let p := plan_multi_season_pack pack q profile intent in
  mp_target_seasons p ++ mp_in_flight_seasons p ++ mp_waste_seasons p ++ mp_ignored_seasons p
    ≡ₚ mp_covered_seasons p /\
  StronglySorted Z.lt (mp_covered_seasons p) /\
  (forall s, s ∈ mp_covered_seasons p <-> s ∈ pack) /\
  (forall s, s ∈ mp_target_seasons p <->
     s ∈ pack /\ eligible intent s = true /\
     exists st, state_by_season intent !! s = Some st /\ ss_status st ∈ _SEARCHABLE_STATUSES).
Proof.
  intros Hm p. destruct (plan_eq pack q profile intent Hm)
    as (Hc & Ht & Hw & Hf & _ & Hi & Hind & _). fold p in Hc, Ht, Hw, Hf, Hi, Hind.
  rewrite Hc, Ht, Hw, Hf. split; [|split; [apply sorted_set_increasing|split]].
  - rewrite <- (roles_partition intent (sorted_set pack)) at 4.
    do 3 apply Permutation_app_head. apply NoDup_Permutation; [done| |].
    + apply NoDup_ListNoDup, List.NoDup_filter, NoDup_ListNoDup, NoDup_sorted_set.
    + intros s. by rewrite Hi, elem_of_with_role, elem_of_sorted_set.
  - intros s. apply elem_of_sorted_set.
  - intros s. rewrite elem_of_with_role, elem_of_sorted_set. unfold role_of.
    destruct (state_by_season intent !! s) as [st|] eqn:Hst; [|naive_solver].
    destruct (eligible intent s); cbn [negb]; [|naive_solver].
    destruct (mem (ss_status st) _SEARCHABLE_STATUSES) eqn:Hs; boolify; [naive_solver|].
    split; [|naive_solver]. repeat case_match; naive_solver.
Qed.

(** When a pack is worth grabbing: the request's season set is met (for an
    explicit request), no season of the pack is already in flight under its own
    torrent, and strictly more of its seasons are useful than wasted; a reason
    is given exactly when it is refused. *)
Theorem plan_accepts_iff pack q profile intent :
  let p := plan_multi_season_pack pack q profile intent in
  (mp_accepted p = true <->
     ~ set_mismatch intent pack /\
     (forall s, s ∈ pack -> role_of intent s <> RInFlight) /\
     (length (with_role intent RWaste (sorted_set pack)) <
      length (with_role intent RTarget (sorted_set pack)))%nat) /\
  (mp_reason p = None <-> mp_accepted p = true).
Proof.
  intros p. destruct (set_mismatch_test intent pack) as [Hm1 Hm2].
  destruct (_ && negb _) eqn:Htest.
  - assert (mp_accepted p = false /\ mp_reason p <> None) as [-> Hr]
      by (unfold p, plan_multi_season_pack; by rewrite Htest).
    split; [|naive_solver]. split; [done|]. intros [[] _]. auto.
  - assert (~ set_mismatch intent pack) as Hm by (intros H; by apply Hm2 in H).
    destruct (plan_eq pack q profile intent Hm) as (_ & _ & _ & _ & _ & _ & _ & Ha & Hr).
    fold p in Ha, Hr. split; [|done].
    rewrite Ha, andb_true_iff, bool_decide_eq_true, Nat.ltb_lt.
    assert (with_role intent RInFlight (sorted_set pack) = [] <->
      (forall s, s ∈ pack -> role_of intent s <> RInFlight)) as ->; [|naive_solver].
    split.
    + intros He s Hs Hrole. apply (not_elem_of_nil s). rewrite <- He, elem_of_with_role.
      by rewrite elem_of_sorted_set.
    + intros H. apply elem_of_nil_inv. intros s. rewrite elem_of_with_role, elem_of_sorted_set.
      naive_solver.
Qed.

(** A season request is complete exactly when its aired target is known and
    nothing of it is missing with nothing in flight; an episode is part of the
    target exactly when its air date is known and not in the future, so the
    target only grows with time. *)
Theorem season_complete_iff_nothing_missing episodes today imported :
  (season_is_complete (aired_target episodes today) imported = true <->
     aired_target episodes today <> ∅ /\
     compute_missing (aired_target episodes today) imported ∅ = ∅) /\
  (forall e, e ∈ aired_target episodes today <->
     exists d, episodes !! e = Some (Some d) /\ (d <= today)%Z) /\
  (forall later, (today <= later)%Z -> aired_target episodes today ⊆ aired_target episodes later).
Proof.
  assert (Hel : forall t e, e ∈ aired_target episodes t <->
    exists d, episodes !! e = Some (Some d) /\ (d <= t)%Z).
  { intros t e. unfold aired_target. rewrite elem_of_dom. unfold is_Some.
    setoid_rewrite map_lookup_filter_Some. unfold aired. split.
    - intros ([d|] & He & Ha); [|done]. apply Z.leb_le in Ha. eauto.
    - intros (d & He & Ha). exists (Some d). split; [done|]. by apply Z.leb_le. }
  split; [|split; [apply Hel|]].
  - unfold season_is_complete, compute_missing.
    rewrite andb_true_iff, negb_true_iff, bool_decide_eq_false, bool_decide_eq_true.
    generalize (aired_target episodes today). intros target.
    assert (target ⊆ imported <-> target ∖ imported ∖ ∅ = ∅) as ->; [|done].
    rewrite difference_empty_L.
    split; [apply subseteq_empty_difference_L | apply empty_difference_subseteq_L].
  - intros later Hlt e. rewrite !Hel. intros (d & He & Ha). exists d. split; [done|lia].
Qed.

(** ** Witnesses *)

Definition ex_state (n : Z) (status : string) : SeasonPackSeasonState :=
  {| ss_season_number := n; ss_status := lit status; ss_installed_quality_id := None;
     ss_installed_profile_index := None |}.

Definition ex_intent : MultiSeasonRequestIntent :=
  {| mi_mode := whole_show; mi_requested_seasons := [];
     mi_seasons := [ex_state 1 "pending"; ex_state 2 "available"; ex_state 3 "failed"] |}.

Lemma plan_partitions_the_pack_witness :
  let p := plan_multi_season_pack [3; 1; 2; 4; 1]%Z 3 default_profile ex_intent in
  mp_target_seasons p = [1; 3]%Z /\ mp_ignored_seasons p = [4]%Z /\
  mp_target_seasons p ++ mp_in_flight_seasons p ++ mp_waste_seasons p ++ mp_ignored_seasons p
    ≡ₚ mp_covered_seasons p.
Proof.
  split; [vm_compute; reflexivity|]. split; [vm_compute; reflexivity|].
  apply (plan_partitions_the_pack [3; 1; 2; 4; 1]%Z 3 default_profile ex_intent).
  intros [H _]. discriminate H.
Defined.

Lemma season_complete_iff_nothing_missing_witness :
  season_is_complete (aired_target {[1%Z := Some 5%Z; 2%Z := None]} 7) {[1%Z]} = true.
Proof.
  apply (season_complete_iff_nothing_missing {[1%Z := Some 5%Z; 2%Z := None]} 7 {[1%Z]}).
  split; vm_compute; [discriminate | reflexivity].
Defined.
