(* ===== verification/MediaMatch.v ===== *)
(** * The media identity gate ([domain/media_match.py])

    Title normalization and the conservative test that a parsed release names
    the wanted title, year and season. *)

From Stdlib Require Import ZArith Lia Bool String.
From S2P Require Import Prelude PyStr PyRe Quality Release SeasonPack.

#[local] Open Scope bool_scope.

(** The Latin letters NFKD leaves whole, by code point, with their
    transliterations. *)
Definition _TRANSLITERATION : list (N * list N) :=
  [ (230%N, lit "ae"); (248%N, lit "o"); (322%N, lit "l"); (273%N, lit "d"); (254%N, lit "th");
    (339%N, lit "oe"); (240%N, lit "d"); (295%N, lit "h"); (331%N, lit "n"); (359%N, lit "t");
    (305%N, lit "i") ].

Definition _YEAR_TOLERANCE : Z := 1.

(** The complement of the class of [_NON_ALNUM]. *)
Definition alnum (c : N) : bool := is_lower c || is_digit c.
Definition _NON_ALNUM : re := Rep (fun c => negb (alnum c)) 1 None.

Section media_match.
Context {DB : UnicodeDB}.

Definition translate_char (c : N) : list N := default [c] (assoc c _TRANSLITERATION).

Definition normalize_title (title : list N) : list N :=
  let folded := nfkd (py_casefold title ≫= translate_char) in
  let stripped := List.filter (fun c => negb (combining c)) folded in
  sub _NON_ALNUM (fun _ => []) stripped.

Definition _season_covers (parsed_season : numbers) (expected_season : Z) : bool :=
  match parsed_season with
  | NoNumber => false
  | OneNumber s => (s =? expected_season)%Z
  | Numbers l => mem expected_season l
  end.

Definition matches_media (parsed : ParsedRelease) (expected_title : list N)
    (expected_year : option Z) (candidate_tmdb_id expected_tmdb_id : Z)
    (expected_season : option Z) : bool :=
  if match expected_season with
     | Some s => negb (_season_covers (pr_season parsed) s)
     | None => false
     end then false
  else if negb (candidate_tmdb_id =? 0)%Z && negb (expected_tmdb_id =? 0)%Z then
    (candidate_tmdb_id =? expected_tmdb_id)%Z
  else
    let expected_key := normalize_title expected_title in
    if bool_decide (expected_key = [])
       || negb (bool_decide (normalize_title (pr_clean_title parsed) = expected_key)) then false
    else
      match expected_year, pr_year parsed with
      | None, _ => true
      | Some _, None => false
      | Some ey, Some py => (Z.abs (py - ey) <=? _YEAR_TOLERANCE)%Z
      end.

(** ** Lemmas *)

Lemma alnum_ascii c : alnum c = true -> is_ascii c = true /\ ascii_lower c = c.
Proof.
  unfold alnum, is_lower, is_digit, between, is_ascii, ascii_lower, is_upper, between.
  rewrite orb_true_iff, !andb_true_iff, !N.leb_le. intros H.
  split; [apply N.ltb_lt; lia|].
  destruct ((65 <=? c)%N && (c <=? 90)%N) eqn:Hu; [|done].
  rewrite andb_true_iff, !N.leb_le in Hu. lia.
Qed.

Lemma ascii_not_transliterated c : is_ascii c = true -> translate_char c = [c].
Proof.
  unfold translate_char. intros Hc. destruct (assoc c _TRANSLITERATION) as [t|] eqn:Ha; [|done].
  apply assoc_Some_in in Ha.
  assert (forallb (fun p => negb (is_ascii (fst p))) _TRANSLITERATION = true) as Hall by by_compute.
  rewrite forallb_forall_iff in Hall. apply Hall in Ha. simpl in Ha. by rewrite Hc in Ha.
Qed.

Lemma translate_ascii s : all_ascii s = true -> s ≫= translate_char = s.
Proof.
  induction s as [|c s IH]; [done|]. rewrite all_ascii_cons.
  intros [Hc Hs]%andb_true_iff.
  change ((c :: s) ≫= translate_char) with (translate_char c ++ (s ≫= translate_char)).
  by rewrite ascii_not_transliterated, IH.
Qed.

Lemma filter_all {A} (f : A -> bool) l : (forall x, x ∈ l -> f x = true) -> List.filter f l = l.
Proof.
  induction l as [|x l IH]; [done|]. intros H. simpl. rewrite (H x) by left.
  f_equal. apply IH. intros y Hy. apply H. by right.
Qed.

Lemma all_ascii_lower s : all_ascii (ascii_lower <$> s) = all_ascii s.
Proof.
  induction s as [|c s IH]; [done|]. rewrite fmap_cons, !all_ascii_cons, is_ascii_lower.
  by rewrite IH.
Qed.

Lemma sub_non_alnum s : sub _NON_ALNUM (fun _ => []) s = List.filter alnum s.
Proof.
  unfold _NON_ALNUM. rewrite sub_class_delete. apply List.filter_ext.
  intros c. apply negb_involutive.
Qed.

(** On ASCII text no Unicode table is consulted. *)
Lemma normalize_ascii s : all_ascii s = true -> normalize_title s = List.filter alnum (ascii_lower <$> s).
Proof.
  intros Hs. unfold normalize_title. rewrite sub_non_alnum, casefold_ascii by done.
  assert (all_ascii (ascii_lower <$> s) = true) as Hl by by rewrite all_ascii_lower.
  rewrite translate_ascii, nfkd_ascii by done.
  rewrite (filter_all (fun c => negb (combining c))); [done|].
  intros c Hc. unfold all_ascii in Hl. rewrite forallb_forall_iff in Hl.
  unfold combining. by rewrite (Hl c Hc).
Qed.

Lemma normalize_alnum t c : c ∈ normalize_title t -> alnum c = true.
Proof.
  unfold normalize_title. cbv zeta. rewrite sub_non_alnum, list_elem_of_In, filter_In. by intros [_ ?].
Qed.

Lemma alnum_text_fixed s :
  (forall c, c ∈ s -> alnum c = true) -> normalize_title s = s.
Proof.
  intros H. rewrite normalize_ascii.
  - assert (ascii_lower <$> s = s) as ->.
    { clear -H. induction s as [|c s IH]; [done|]. rewrite fmap_cons.
      rewrite (proj2 (alnum_ascii c (H c ltac:(left)))). f_equal. apply IH.
      intros x Hx. apply H. by right. }
    by apply filter_all.
  - apply forallb_forall_iff. intros c Hc. by apply alnum_ascii, H.
Qed.

Lemma season_covers_iff n s : _season_covers n s = true <-> s ∈ numbers_list n.
Proof.
  destruct n as [|x|l]; simpl.
  - split; [done | by intros ?%not_elem_of_nil].
  - rewrite Z.eqb_eq, list_elem_of_singleton. naive_solver.
  - apply mem_true.
Qed.

(** ** Properties *)

(** A normalized title is a canonical key: it has only ASCII lower-case
    letters and digits, normalizing it again changes nothing, and for ASCII
    titles neither letter case nor any punctuation or spacing matters. *)
Theorem normalize_title_canonical t :
  (forall c, c ∈ normalize_title t -> alnum c = true) /\
  normalize_title (normalize_title t) = normalize_title t /\
  (forall u, all_ascii t = true -> all_ascii u = true ->
     (normalize_title t = normalize_title u <->
      List.filter alnum (ascii_lower <$> t) = List.filter alnum (ascii_lower <$> u))).
Proof.
  split; [apply normalize_alnum|]. split; [apply alnum_text_fixed, normalize_alnum|].
  intros u Ht Hu. by rewrite !normalize_ascii.
Qed.

(** When the identity gate lets a release through.  A wrong or missing
    season always stops it; a known id on both sides decides alone; otherwise
    the titles must have the same non-empty key and, when the request has a
    year, the release must name one at most one year away. *)
Theorem matches_media_iff parsed title year cid eid season :
  matches_media parsed title year cid eid season = true <->
  (forall s, season = Some s -> s ∈ numbers_list (pr_season parsed)) /\
  ((cid <> 0 /\ eid <> 0 /\ cid = eid)%Z \/
   ((cid = 0 \/ eid = 0)%Z /\
    normalize_title title <> [] /\
    normalize_title (pr_clean_title parsed) = normalize_title title /\
    forall y, year = Some y ->
      exists py, pr_year parsed = Some py /\ (y - 1 <= py <= y + 1)%Z)).
Proof.
  unfold matches_media.
  assert (Hseason : match season with
    | Some s => negb (_season_covers (pr_season parsed) s) | None => false end = false <->
    (forall s, season = Some s -> s ∈ numbers_list (pr_season parsed))).
  { destruct season as [s|]; [|naive_solver].
    rewrite negb_false_iff, season_covers_iff. naive_solver. }
  destruct (match season with Some _ => _ | None => _ end).
  { split; [done|]. intros [Hs _]. apply Hseason in Hs. done. }
  rewrite <- Hseason. clear Hseason.
  destruct (Z.eqb_spec cid 0) as [Hc|Hc], (Z.eqb_spec eid 0) as [He|He]; cbn [negb andb];
    [| | |rewrite Z.eqb_eq; naive_solver];
  (case_bool_decide as Hk; cbn [orb]; [naive_solver|]);
  (case_bool_decide as Ht; cbn [negb]; [|naive_solver]);
  (destruct year as [y|]; [|naive_solver]);
  (destruct (pr_year parsed) as [py|];
    [rewrite Z.leb_le; unfold _YEAR_TOLERANCE | naive_solver]);
  (split; [intros Hy; split; [done|]; right; do 3 (split; [tauto|]);
           intros y' [= <-]; exists py; split; [done|lia]
          | intros [_ [?|(_ & _ & _ & Hy)]]; [tauto|];
            destruct (Hy y eq_refl) as (py' & [= <-] & ?); lia]).
Qed.

(** The scope classification agrees with the season gate: a release has a
    known scope exactly when the gate lets it through for some season, it is a
    multi-season pack exactly when it lists two or more, and a pack is never
    turned away by the episode test. *)
Theorem scope_agrees_with_season_gate parsed :
  (classify_release_scope parsed <> unknown <->
     exists s, _season_covers (pr_season parsed) s = true) /\
  (classify_release_scope parsed = multi_season_pack <->
     (2 <= length (numbers_list (pr_season parsed)))%nat) /\
  (forall requested,
     covers_requested_episodes parsed requested = true <->
     classify_release_scope parsed = season_pack \/
     classify_release_scope parsed = multi_season_pack \/
     (classify_release_scope parsed = single_episode /\
      requested ⊆ numbers_list (pr_episode parsed))).
Proof.
  setoid_rewrite season_covers_iff.
  split; [|split].
  - unfold classify_release_scope. destruct (pr_season parsed) as [|n|[|x [|y l]]]; cbn [numbers_list].
    + split; [done|]. by intros [s ?%not_elem_of_nil].
    + split; [exists n; left | by destruct (pr_episode parsed)].
    + split; [done|]. by intros [s ?%not_elem_of_nil].
    + split; [exists x; left | by destruct (pr_episode parsed)].
    + split; [exists x; left | done].
  - unfold classify_release_scope. destruct (pr_season parsed) as [|n|[|x [|y l]]]; simpl;
      (split; [destruct (pr_episode parsed); intros; (lia || discriminate) | intros; (lia || done)]).
  - intros requested. unfold covers_requested_episodes.
    destruct (classify_release_scope parsed); [|naive_solver..].
    rewrite subsetb_true. unfold subseteq, list_subseteq.
    setoid_rewrite elem_of_episode_numbers. naive_solver.
Qed.
End media_match.

(** ** Witness *)

Section examples.
#[local] Existing Instance ascii_db.

Lemma normalize_title_canonical_witness :
  normalize_title (lit "Spider-Man: No Way Home") = normalize_title (lit "spider man.no_way home").
Proof.
  apply (normalize_title_canonical (lit "Spider-Man: No Way Home")); vm_compute; reflexivity.
Defined.
End examples.
