(* ===== verification/Blocklist.v ===== *)
(** * Blocklisting ([domain/blocklist.py], [failure_classification.py], [adapters/qbittorrent])

    The two-tier "same release" rule, the judgment whether a failure was the
    host's or the release's fault, and the cap that keeps that judgment. *)

From Stdlib Require Import ZArith Lia Bool String.
From S2P Require Import Prelude PyStr PyRe.

#[local] Open Scope bool_scope.

Record BlocklistedRelease := {
  bl_source_title : list N;
  bl_info_hash : option (list N);
  bl_indexer : option (list N);
}.

(** A non-empty optional string (Python truthiness). *)
Definition truthy (s : option (list N)) : bool :=
  match s with Some (_ :: _) => true | _ => false end.

Section blocklist.
Context {DB : UnicodeDB}.

Definition _normalize_title (title : list N) : list N :=
  py_casefold (py_strip (sub (Rep sep_char 1 None) (fun _ => lit " ") title)).

Definition _same_indexer (left right : option (list N)) : bool :=
  match left, right with
  | Some l, Some r => bool_decide (py_casefold (py_strip l) = py_casefold (py_strip r))
  | None, None => true
  | _, _ => false
  end.

Definition _same_title (left right : list N) : bool :=
  bool_decide (_normalize_title left = _normalize_title right).

Definition _matches (entry : BlocklistedRelease) (info_hash : option (list N))
    (source_title : list N) (indexer : option (list N)) : bool :=
  if truthy info_hash && truthy (bl_info_hash entry) then
    bool_decide (py_casefold (default [] (bl_info_hash entry)) =
                 py_casefold (default [] info_hash))
  else if negb (_same_title source_title (bl_source_title entry)) then false
  else _same_indexer indexer (bl_indexer entry).

Definition is_blocklisted (info_hash : option (list N)) (source_title : list N)
    (indexer : option (list N)) (entries : list BlocklistedRelease) : bool :=
  existsb (fun entry => _matches entry info_hash source_title indexer) entries.
End blocklist.

(** ** Whose fault a failure is *)

Inductive FailureClass : Type := environmental | release_fault.

#[export] Instance FailureClass_eq_dec : EqDecision FailureClass.
Proof. solve_decision. Defined.

Definition ENVIRONMENTAL_FAILURE_PATTERNS : list (list N) :=
  [ lit "permission denied"; lit "read-only file system"; lit "no space left on device";
    lit "disk quota exceeded"; lit "no such file or directory"; lit "input/output error";
    lit "i/o error"; lit "missingfiles" ].

Definition _MAX_FAILURE_DETAIL_CHARS : nat := 300.

(** The ellipsis character. *)
Definition marker : list N := [8230%N].

Section classification.
Context {DB : UnicodeDB}.

Definition classify_failure_detail (detail : option (list N)) : FailureClass :=
  match detail with
  | None | Some [] => release_fault
  | Some d =>
      let lowered := py_lower d in
      if existsb (fun pattern => contains pattern lowered) ENVIRONMENTAL_FAILURE_PATTERNS
      then environmental else release_fault
  end.

(** The loop of [_cap_failure_detail]: the first pattern the head would lose. *)
Fixpoint cap_with (patterns : list (list N)) (text lowered : list N) : list N :=
  match patterns with
  | [] => take _MAX_FAILURE_DETAIL_CHARS text
  | pattern :: rest =>
      if contains pattern (take _MAX_FAILURE_DETAIL_CHARS lowered)
         || negb (contains pattern lowered)
      then cap_with rest text lowered
      else
        let index := default 0 (py_find pattern lowered) in
        let preserved := take (length pattern) (drop index text) in
        let head_room := (Z.of_nat _MAX_FAILURE_DETAIL_CHARS - Z.of_nat (length marker)
                          - Z.of_nat (length preserved))%Z in
        if (head_room <=? 0)%Z then take _MAX_FAILURE_DETAIL_CHARS preserved
        else take (Z.to_nat head_room) text ++ marker ++ preserved
  end.

Definition _cap_failure_detail (text : list N) : list N :=
  if (length text <=? _MAX_FAILURE_DETAIL_CHARS)%nat then text
  else cap_with ENVIRONMENTAL_FAILURE_PATTERNS text (py_lower text).
End classification.

(** ** The words of a title *)

Definition flush_word (w : list N) : list (list N) :=
  match w with [] => [] | _ => [w] end.

(** The maximal separator-free parts of a text; [cur] is the word being read. *)
Fixpoint words_from (cur s : list N) : list (list N) :=
  match s with
  | [] => flush_word cur
  | c :: s' => if sep_char c then flush_word cur ++ words_from [] s' else words_from (cur ++ [c]) s'
  end.
Definition words (s : list N) : list (list N) := words_from [] s.

Lemma words_from_nonempty cur s : cur <> [] -> words_from cur s <> [].
Proof.
  revert cur; induction s as [|c s IH]; intros cur Hc; simpl; [by destruct cur|].
  destruct (sep_char c); [by destruct cur|]. apply IH. by destruct cur.
Qed.

Lemma join_cons sep w ws :
  join sep (w :: ws) = w ++ match ws with [] => [] | _ => sep ++ join sep ws end.
Proof. destruct ws; simpl; [by rewrite app_nil_r | done]. Qed.

(** What collapsing the separators leaves: the words joined by single spaces,
    and a trailing space at most. *)
Definition spaced (ws : list (list N)) (text : list N) : Prop :=
  exists trail, text = join [32%N] ws ++ trail /\ (trail = [] \/ trail = [32%N]).

Lemma collapse_words s :
  (forall cur, cur <> [] ->
     spaced (words_from cur s) (cur ++ collapse sep_char [32%N] false s)) /\
  (words s = [] /\ collapse sep_char [32%N] true s = [] \/
   words s <> [] /\ spaced (words s) (collapse sep_char [32%N] true s)).
Proof.
  induction s as [|c s [IHA IHB]].
  { split; [|by left]. intros cur Hc. exists []. simpl. split; [|by left].
    destruct cur; [done|]. simpl. by rewrite !app_nil_r. }
  unfold words in *. simpl. destruct (sep_char c) eqn:Hsep.
  - split; [|exact IHB]. intros cur Hc. destruct cur as [|x cur]; [done|].
    cbn [flush_word]. change ([x :: cur] ++ words_from [] s) with ((x :: cur) :: words_from [] s).
    destruct IHB as [[-> ->]|[Hne (trail & -> & Ht)]].
    + exists [32%N]. split; [done|by right].
    + exists trail. split; [|done]. rewrite join_cons.
      destruct (words_from [] s); [done|]. by rewrite <- !app_assoc.
  - split.
    + intros cur Hc. replace (cur ++ c :: collapse sep_char [32%N] false s)
        with ((cur ++ [c]) ++ collapse sep_char [32%N] false s) by by rewrite <- app_assoc.
      apply IHA. by destruct cur.
    + right. split; [by apply words_from_nonempty|]. apply (IHA [c]). done.
Qed.

(** No word is empty or has a separator. *)
Lemma words_from_clean cur s :
  (forall c, c ∈ cur -> sep_char c = false) ->
  Forall (fun w => w <> [] /\ forall c, c ∈ w -> sep_char c = false) (words_from cur s).
Proof.
  revert cur; induction s as [|c s IH]; intros cur Hc; simpl.
  - destruct cur; simpl; by repeat constructor.
  - destruct (sep_char c) eqn:Hsep.
    + apply Forall_app. split; [destruct cur; simpl; by repeat constructor|].
      apply IH. by intros x ?%not_elem_of_nil.
    + apply IH. intros x [Hx|Hx%list_elem_of_singleton]%elem_of_app; [auto|by subst].
Qed.

Lemma join_ends (p : N -> bool) sep ws :
  Forall (fun w => w <> [] /\ forall c, c ∈ w -> p c = false) ws ->
  match join sep ws with [] => True | c :: _ => p c = false end /\
  match last (join sep ws) with None => True | Some c => p c = false end.
Proof.
  intros H. induction H as [|w ws [Hw Hp] Hws IH]; [done|]. rewrite join_cons. split.
  - destruct w as [|c w]; [done|]. simpl. apply Hp. left.
  - destruct ws as [|w' ws].
    + rewrite app_nil_r. destruct (last w) as [c|] eqn:Hl; [|done].
      apply Hp. apply last_Some in Hl as [l ->]. apply elem_of_app. right. left.
    + destruct IH as [_ IH]. inversion Hws as [|? ? [Hw' _] _]; subst.
      rewrite !app_assoc, last_app.
      destruct (last (join sep (w' :: ws))) as [c|] eqn:Hl; [done|].
      apply last_None in Hl. rewrite join_cons in Hl. by destruct w'.
Qed.

Lemma space_is_sep c : is_space c = true -> sep_char c = true.
Proof. unfold sep_char. by intros ->. Qed.

Lemma strip_words s : py_strip (collapse sep_char [32%N] false s) = join [32%N] (words s).
Proof.
  assert (Hclean : Forall (fun w => w <> [] /\ forall c, c ∈ w -> is_space c = false) (words s)).
  { eapply Forall_impl; [apply words_from_clean; by intros c ?%not_elem_of_nil|].
    intros w [Hw Hc]. split; [done|]. intros c Hin. apply Hc in Hin.
    destruct (is_space c) eqn:Hs; [|done]. apply space_is_sep in Hs. congruence. }
  apply (join_ends is_space [32%N]) in Hclean as [Hhead Hlast].
  assert (Hsp : forall x, x ∈ [32%N] -> is_space x = true)
    by (intros x ->%list_elem_of_singleton; reflexivity).
  assert (Hnil : forall x, x ∈ (@nil N) -> is_space x = true) by by intros x ?%not_elem_of_nil.
  assert (Hcore : exists lead trail, collapse sep_char [32%N] false s
      = lead ++ join [32%N] (words s) ++ trail /\
    (forall x, x ∈ lead -> is_space x = true) /\ (forall x, x ∈ trail -> is_space x = true)).
  { destruct s as [|c s]; [by exists [], []|]. unfold words. simpl.
    destruct (collapse_words s) as [IHA IHB]. destruct (sep_char c) eqn:Hsep; simpl.
    - exists [32%N]. unfold words in IHB.
      destruct IHB as [[-> ->]|[_ (trail & -> & [->| ->])]].
      + by exists [].
      + by exists [].
      + by exists [32%N].
    - destruct (IHA [c] ltac:(done)) as (trail & Ht & [->| ->]); exists [];
        [exists []|exists [32%N]]; simpl in *; by rewrite Ht. }
  destruct Hcore as (lead & trail & -> & Hl & Ht). by apply strip_core.
Qed.

Section properties.
Context {DB : UnicodeDB}.

Lemma normalize_title_words t : _normalize_title t = py_casefold (join [32%N] (words t)).
Proof.
  unfold _normalize_title. rewrite sub_class. by rewrite strip_words.
Qed.

Lemma casefold_join ws : py_casefold (join [32%N] ws) = join [32%N] (py_casefold <$> ws).
Proof.
  induction ws as [|w ws IH]; [done|]. rewrite fmap_cons, !join_cons, casefold_app.
  f_equal. destruct ws as [|w' ws]; [done|].
  rewrite casefold_app, IH. done.
Qed.

Lemma same_indexer_refl ix : _same_indexer ix ix = true.
Proof. destruct ix; simpl; [by apply bool_decide_eq_true|done]. Qed.

(** The two-tier "same release" rule: a release is blocked exactly by an
    entry with the same hash (in any case) when both name one, or, when they do
    not, by one of the same title, read as words in any case with any
    separators, from the same indexer. *)
Theorem is_blocklisted_iff h t ix entries :
  is_blocklisted h t ix entries = true <->
  exists e, e ∈ entries /\
    ((truthy h = true /\ truthy (bl_info_hash e) = true /\
      py_casefold (default [] h) = py_casefold (default [] (bl_info_hash e))) \/
     (truthy h && truthy (bl_info_hash e) = false /\
      join [32%N] (py_casefold <$> words t) =
        join [32%N] (py_casefold <$> words (bl_source_title e)) /\
      _same_indexer ix (bl_indexer e) = true)).
Proof.
  unfold is_blocklisted. rewrite existsb_exists_iff.
  assert (Hm : forall e, _matches e h t ix = true <->
    ((truthy h = true /\ truthy (bl_info_hash e) = true /\
      py_casefold (default [] h) = py_casefold (default [] (bl_info_hash e))) \/
     (truthy h && truthy (bl_info_hash e) = false /\
      join [32%N] (py_casefold <$> words t) =
        join [32%N] (py_casefold <$> words (bl_source_title e)) /\
      _same_indexer ix (bl_indexer e) = true))).
  { intros e. unfold _matches, _same_title.
    rewrite !normalize_title_words, !casefold_join.
    destruct (truthy h) eqn:Hh, (truthy (bl_info_hash e)) eqn:He; cbn [andb];
      [rewrite bool_decide_eq_true; naive_solver|..];
      (case_bool_decide as Hk; cbn [negb]; naive_solver). }
  by setoid_rewrite Hm.
Qed.

(** C37: A blocklisted release stays blocked under any re-spelling: whatever
    other entries there are, it is still refused when the indexer lists it with
    other separators, another letter case, or the hash in another case. *)
Theorem blocked_release_stays_blocked h t ix entries e :
  e ∈ entries ->
  py_casefold <$> h = py_casefold <$> bl_info_hash e ->
  py_casefold <$> words t = py_casefold <$> words (bl_source_title e) ->
  _same_indexer ix (bl_indexer e) = true ->
  is_blocklisted h t ix entries = true.
Proof.
  intros He Hh Ht Hix. apply is_blocklisted_iff. exists e. split; [done|].
  destruct (truthy h && truthy (bl_info_hash e)) eqn:Hb.
  - left. apply andb_true_iff in Hb as [Hb1 Hb2]. do 2 (split; [done|]).
    destruct h as [h|], (bl_info_hash e) as [h'|]; simplify_eq/=. done.
  - right. split; [done|]. by rewrite Ht.
Qed.

(** ** The cap *)

Lemma lower_length s : all_ascii s = true -> length (py_lower s) = length s.
Proof. intros Hs. rewrite lower_ascii by done. apply length_fmap. Qed.

Lemma take_all_ascii n s : all_ascii s = true -> all_ascii (take n s) = true.
Proof.
  rewrite <- (take_drop n s) at 1. rewrite all_ascii_app. by intros [? _]%andb_true_iff.
Qed.
Lemma drop_all_ascii n s : all_ascii s = true -> all_ascii (drop n s) = true.
Proof.
  rewrite <- (take_drop n s) at 1. rewrite all_ascii_app. by intros [_ ?]%andb_true_iff.
Qed.

Definition env_in (s : list N) : bool :=
  existsb (fun p => contains p s) ENVIRONMENTAL_FAILURE_PATTERNS.

Lemma contains_nil_pattern p : p ∈ ENVIRONMENTAL_FAILURE_PATTERNS -> contains p [] = false.
Proof.
  intros Hp. assert (forallb (fun p => negb (contains p [])) ENVIRONMENTAL_FAILURE_PATTERNS = true)
    as Hall by by_compute.
  rewrite forallb_forall_iff in Hall. by apply negb_true_iff, Hall.
Qed.

Lemma classify_env d :
  classify_failure_detail (Some d) = environmental <-> d <> [] /\ env_in (py_lower d) = true.
Proof.
  unfold classify_failure_detail, env_in. destruct d as [|c d]; [naive_solver|].
  destruct (existsb _ _); naive_solver.
Qed.

(** Lowering a text whose one non-ASCII character is the ellipsis, which has no
    case: a fact of Python's [str.lower]. *)
Definition lower_keeps_ellipsis : Prop :=
  forall a b, all_ascii a = true -> all_ascii b = true ->
    py_lower (a ++ marker ++ b) = (ascii_lower <$> a) ++ marker ++ (ascii_lower <$> b).

Lemma pattern_room p :
  p ∈ ENVIRONMENTAL_FAILURE_PATTERNS -> (length p < _MAX_FAILURE_DETAIL_CHARS - 1)%nat.
Proof.
  intros Hp. assert (forallb (fun p => length p <? _MAX_FAILURE_DETAIL_CHARS - 1)%nat
    ENVIRONMENTAL_FAILURE_PATTERNS = true) as Hall by by_compute.
  rewrite forallb_forall_iff in Hall. by apply Nat.ltb_lt, Hall.
Qed.

(** The two ways the loop over patterns ends, on an ASCII text. *)
Lemma cap_with_cases text patterns :
  all_ascii text = true ->
  (forall p, p ∈ patterns -> p ∈ ENVIRONMENTAL_FAILURE_PATTERNS) ->
  let lowered := ascii_lower <$> text in
  (cap_with patterns text lowered = take _MAX_FAILURE_DETAIL_CHARS text /\
   forall p, p ∈ patterns -> contains p lowered = true ->
     contains p (take _MAX_FAILURE_DETAIL_CHARS lowered) = true) \/
  (exists p n i, p ∈ patterns /\ contains p lowered = true /\
     cap_with patterns text lowered = take n text ++ marker ++ take (length p) (drop i text) /\
     ascii_lower <$> take (length p) (drop i text) = p /\
     (n + 1 + length p = _MAX_FAILURE_DETAIL_CHARS)%nat).
Proof.
  intros Ha Hin lowered. induction patterns as [|p rest IH].
  { left. split; [done|]. by intros p ?%not_elem_of_nil. }
  assert (Hrest : forall q, q ∈ rest -> q ∈ ENVIRONMENTAL_FAILURE_PATTERNS)
    by (intros q Hq; apply Hin; by right).
  specialize (IH Hrest). pose proof (pattern_room p (Hin p ltac:(left))) as Hroom.
  cbn [cap_with].
  destruct (contains p (take _MAX_FAILURE_DETAIL_CHARS lowered)) eqn:Hh; cbn [orb];
    [|destruct (contains p lowered) eqn:Hc; cbn [negb]].
  - destruct IH as [[-> IH]|(q & n & i & Hq & H)].
    + left. split; [done|]. intros q [->|Hq]%elem_of_cons; auto.
    + right. exists q, n, i. split; [by right|done].
  - right. pose proof (find_from_spec p 0 lowered) as Hf. fold (py_find p lowered) in Hf.
    destruct (py_find p lowered) as [k|]; [|congruence].
    destruct Hf as (i & -> & Htake). change (default 0%nat (Some (0 + i)%nat)) with i. cbv zeta.
    assert (Hlow : ascii_lower <$> take (length p) (drop i text) = p)
      by (unfold lowered in Htake; by rewrite fmap_take, fmap_drop).
    assert (Hlen : length (take (length p) (drop i text)) = length p)
      by (rewrite <- Hlow at 2; by rewrite length_fmap).
    rewrite Hlen. change (length marker) with 1%nat.
    destruct (Z.leb_spec (Z.of_nat _MAX_FAILURE_DETAIL_CHARS - Z.of_nat 1 - Z.of_nat (length p)) 0);
      [lia|].
    exists p, (_MAX_FAILURE_DETAIL_CHARS - 1 - length p)%nat, i.
    split; [left|]. split; [done|]. split; [|split; [done|lia]].
    do 2 f_equal. lia.
  - destruct IH as [[-> IH]|(q & n & i & Hq & H)].
    + left. split; [done|]. intros q [->|Hq]%elem_of_cons; [congruence|auto].
    + right. exists q, n, i. split; [by right|done].
Qed.

Lemma env_in_true s : env_in s = true <-> exists p, p ∈ ENVIRONMENTAL_FAILURE_PATTERNS /\ contains p s = true.
Proof. apply existsb_exists_iff. Qed.

Lemma env_in_prefix n s : env_in (take n s) = true -> env_in s = true.
Proof.
  rewrite !env_in_true. intros (p & Hp & Hc). exists p. split; [done|].
  rewrite <- (take_drop n s). apply (contains_extend p [] (take n s) (drop n s) Hc).
Qed.

(** C40: capping a client's failure text for display never changes whose fault
    the failure is: the capped text has at most 300 characters and is classified
    as the whole text is (for ASCII texts; that lowering leaves the inserted
    ellipsis alone is the one Unicode fact used). *)
Theorem cap_preserves_classification text :
  lower_keeps_ellipsis -> all_ascii text = true ->
  (length (_cap_failure_detail text) <= _MAX_FAILURE_DETAIL_CHARS)%nat /\
  classify_failure_detail (Some (_cap_failure_detail text)) = classify_failure_detail (Some text).
Proof.
  intros Hell Ha. unfold _cap_failure_detail.
  destruct (Nat.leb_spec (length text) _MAX_FAILURE_DETAIL_CHARS) as [Hle|Hgt]; [done|].
  rewrite lower_ascii by done.
  assert (Hne : text <> []) by (intros ->; simpl in Hgt; lia).
  destruct (cap_with_cases text ENVIRONMENTAL_FAILURE_PATTERNS Ha (fun _ H => H))
    as [[-> Hkeep]|(p & n & i & Hp & Hc & -> & Hlow & Hn)].
  - split; [rewrite length_take; lia|].
    assert (env_in (py_lower (take _MAX_FAILURE_DETAIL_CHARS text)) = env_in (py_lower text)) as Henv.
    { rewrite !lower_ascii by (first [done | by apply take_all_ascii]). rewrite fmap_take.
      apply eq_true_iff_eq. split; [apply env_in_prefix|].
      rewrite !env_in_true. intros (q & Hq & Hcq). eauto. }
    assert (take _MAX_FAILURE_DETAIL_CHARS text <> []) as Hne' by by destruct text.
    pose proof (classify_env text) as H1.
    pose proof (classify_env (take _MAX_FAILURE_DETAIL_CHARS text)) as H2. rewrite Henv in H2.
    destruct (classify_failure_detail (Some text)), (classify_failure_detail (Some (take _ _)));
      naive_solver.
  - split.
    { rewrite !length_app, length_take. change (length marker) with 1%nat.
      assert (length (take (length p) (drop i text)) <= length p)%nat by (rewrite length_take; lia).
      lia. }
    transitivity environmental; [|symmetry]; apply classify_env.
    + split; [by destruct (take n text)|]. apply env_in_true. exists p. split; [done|].
      rewrite Hell by (first [by apply take_all_ascii | by apply take_all_ascii, drop_all_ascii]).
      rewrite Hlow. apply contains_true.
      exists ((ascii_lower <$> take n text) ++ marker), []. by rewrite app_nil_r, <- app_assoc.
    + split; [done|]. rewrite lower_ascii by done. apply env_in_true. eauto.
Qed.
End properties.

(** ** Witnesses *)

Section examples.
#[local] Existing Instance ascii_db.

Definition ex_entry : BlocklistedRelease :=
  {| bl_source_title := lit "Some.Film.2024-GRP"; bl_info_hash := None;
     bl_indexer := Some (lit "Idx") |}.

Lemma blocked_release_stays_blocked_witness :
  is_blocklisted None (lit "some film_2024 GRP ") (Some (lit "idx")) [ex_entry] = true.
Proof.
  apply (blocked_release_stays_blocked None _ _ [ex_entry] ex_entry);
    [left | reflexivity | vm_compute; reflexivity | vm_compute; reflexivity].
Defined.

Lemma ascii_lower_keeps_ellipsis : lower_keeps_ellipsis.
Proof.
  intros a b _ _. unfold py_lower. rewrite !all_ascii_app. change (all_ascii marker) with false.
  rewrite andb_false_r. cbn [u_lower ascii_db]. by rewrite !fmap_app.
Qed.

(** A message whose error phrase is past the cap. *)
Definition long_detail : list N := repeat 97%N 320 ++ lit ": Permission denied".

Lemma cap_preserves_classification_witness :
  classify_failure_detail (Some (_cap_failure_detail long_detail)) = environmental /\
  length (_cap_failure_detail long_detail) = 300%nat.
Proof.
  split; [|vm_compute; reflexivity].
  rewrite (proj2 (cap_preserves_classification long_detail ascii_lower_keeps_ellipsis eq_refl)).
  vm_compute. reflexivity.
Defined.
End examples.

(** Python's lowering of [İ] (U+0130) is two characters long, so positions in
    the lowered text are not positions in the text. *)
Definition dotted_db : UnicodeDB := {|
  u_lower s := s ≫= (fun c => if (c =? 304)%N then [105%N; 775%N] else [ascii_lower c]);
  u_casefold c := [c]; u_nfkd s := s; u_combining _ := false; u_word _ := false;
  u_decimal _ := None; u_printable _ := true |}.

Definition dotted_detail : list N := repeat 304%N 300 ++ lit ": Permission denied".

Lemma cap_can_lose_the_phrase :
  @classify_failure_detail dotted_db (Some dotted_detail) = environmental /\
  @classify_failure_detail dotted_db (Some (@_cap_failure_detail dotted_db dotted_detail))
    = release_fault.
Proof. split; vm_compute; reflexivity. Qed.
