(* ===== verification/PlexVideo.v ===== *)
(** * Video candidates and payload inspection ([domain/plex_video.py], [payload_validation.py])

    Which paths are candidate videos, the probe formats they may have, and the
    policy over a torrent's whole manifest. *)

From Stdlib Require Import ZArith Lia Bool String Sorted SpecFloat.
From S2P Require Import Prelude PyStr PyNum.

#[local] Open Scope bool_scope.

Definition _MATROSKA_FORMATS : list (list N) := [lit "matroska"; lit "webm"].
Definition _MOV_FORMATS : list (list N) :=
  [lit "mov"; lit "mp4"; lit "m4a"; lit "3gp"; lit "3g2"; lit "mj2"].
Definition _AVI_FORMATS : list (list N) := [lit "avi"].
Definition _ASF_FORMATS : list (list N) := [lit "asf"].
Definition _MPEG_PS_FORMATS : list (list N) := [lit "mpeg"].
Definition _MPEG_TS_FORMATS : list (list N) := [lit "mpegts"].
Definition _FLV_FORMATS : list (list N) := [lit "flv"].
Definition _OGG_FORMATS : list (list N) := [lit "ogg"].
Definition _NO_FORMATS : list (list N) := [].
Definition _DISC_STRUCTURE_DIR_NAMES : list (list N) := [lit "bdmv"; lit "video_ts"].

Definition PLEX_EXTRAS_DIR_NAMES : list (list N) :=
  [lit "featurettes"; lit "extras"; lit "trailers"; lit "behind the scenes"; lit "deleted scenes"].

Definition PLEX_VIDEO_FORMATS : list (list N * list (list N)) :=
  [ (lit ".mkv", _MATROSKA_FORMATS); (lit ".mp4", _MOV_FORMATS); (lit ".m4v", _MOV_FORMATS);
    (lit ".avi", _AVI_FORMATS); (lit ".mov", _MOV_FORMATS); (lit ".divx", _AVI_FORMATS);
    (lit ".wmv", _ASF_FORMATS); (lit ".mpg", _MPEG_PS_FORMATS); (lit ".mpeg", _MPEG_PS_FORMATS);
    (lit ".ts", _MPEG_TS_FORMATS); (lit ".m2ts", _MPEG_TS_FORMATS); (lit ".mts", _MPEG_TS_FORMATS);
    (lit ".webm", _MATROSKA_FORMATS); (lit ".flv", _FLV_FORMATS); (lit ".ogv", _OGG_FORMATS) ].

Definition PLEX_VIDEO_EXTENSIONS : list (list N) := PLEX_VIDEO_FORMATS.*1.

Definition DANGEROUS_EXTENSIONS : list (list N) :=
  [ lit ".exe"; lit ".bat"; lit ".sh"; lit ".py"; lit ".dll"; lit ".msi"; lit ".app"; lit ".deb";
    lit ".rpm"; lit ".jar"; lit ".cmd"; lit ".ps1"; lit ".vbs"; lit ".scr"; lit ".com"; lit ".pif";
    lit ".apk"; lit ".dmg"; lit ".run"; lit ".bin"; lit ".lnk"; lit ".js" ].

Definition HELD_METADATA_STATES : list (list N) := [lit "metaDL"; lit "forcedMetaDL"].

Definition is_unstarted_held_torrent (raw_state : list N) (progress : spec_float)
    (has_manifest : bool) : bool :=
  if mem raw_state HELD_METADATA_STATES then true
  else mem raw_state [lit "stoppedDL"; lit "pausedDL"] && feq progress f_zero && has_manifest.

(** [PurePosixPath(path.replace("\\", "/"))]. *)
Definition normalized (p : list N) : path := posix_path (replace_char backslash slash p).

Record PayloadInspection := { pi_video_indices : list nat; pi_reason : option (list N) }.

Section plex_video.
Context {DB : UnicodeDB}.

Definition is_plex_disc_structure_path (p : list N) : bool :=
  existsb (fun part => mem (py_casefold part) _DISC_STRUCTURE_DIR_NAMES) (path_parts (normalized p)).

Definition plex_video_extension (p : list N) : option (list N) :=
  if is_plex_disc_structure_path p then None
  else
    let suffix := py_casefold (path_suffix (normalized p)) in
    if mem suffix PLEX_VIDEO_EXTENSIONS then Some suffix else None.

Definition expected_probe_formats (p : list N) : list (list N) :=
  match plex_video_extension p with
  | None => _NO_FORMATS
  | Some extension => default _NO_FORMATS (assoc extension PLEX_VIDEO_FORMATS)
  end.

(** [parts[1:-1]]. *)
Definition folders_of (parts : list (list N)) : list (list N) := removelast (tail parts).

(** [parts[-1]] of an empty tuple raises. *)
Definition _is_feature_candidate (name : list N) : res bool :=
  let parts := path_parts (normalized name) in
  match last parts with
  | None => Raise IndexError
  | Some final =>
      if contains (lit "sample") (py_casefold final)
         || existsb (fun part => contains (lit "sample") (py_casefold part)
                                 || mem (py_casefold part) PLEX_EXTRAS_DIR_NAMES)
              (folders_of parts)
      then Ok false
      else Ok (match plex_video_extension name with Some _ => true | None => false end)
  end.

(** A component of the name has a dangerous extension. *)
Definition is_dangerous (name : list N) : bool :=
  existsb (fun part => mem (py_casefold (path_suffix (posix_path part))) DANGEROUS_EXTENSIONS)
    (path_parts (normalized name)).

(** The indices of the candidates, from [i] on. *)
Fixpoint candidate_indices (i : nat) (names : list (list N)) : res (list nat) :=
  match names with
  | [] => Ok []
  | name :: rest =>
      b ← _is_feature_candidate name;
      is_ ← candidate_indices (S i) rest;
      Ok (if (b : bool) then i :: is_ else is_)
  end.

Definition inspect_payload (names : list (list N)) : res PayloadInspection :=
  match List.find is_dangerous names with
  | Some name =>
      Ok {| pi_video_indices := [];
            pi_reason := Some (lit "release payload contains executable: " ++ name) |}
  | None =>
      videos ← candidate_indices 0 names;
      Ok (match videos with
          | [] => {| pi_video_indices := [];
                     pi_reason := Some (lit "release payload contains no Plex-supported video file") |}
          | _ => {| pi_video_indices := videos; pi_reason := None |}
          end)
  end.

(** ** Lemmas *)

Lemma split_on_app sep a b : split_on sep (a ++ sep :: b) = split_on sep a ++ split_on sep b.
Proof.
  induction a as [|c a IH]; simpl; [by rewrite N.eqb_refl|].
  destruct (c =? sep)%N; [by rewrite IH|]. rewrite IH.
  pose proof (split_on_nonempty sep a) as Hne. by destruct (split_on sep a).
Qed.

Lemma split_on_whole sep d : sep ∉ d -> split_on sep d = [d].
Proof.
  induction d as [|c d IH]; [done|]. intros [Hc Hd]%not_elem_of_cons. simpl.
  destruct (N.eqb_spec c sep); [congruence|]. by rewrite IH.
Qed.

(** Taking off the root takes off slashes only, so it loses no component. *)
Lemma posix_path_parts part s :
  part ∈ split_on slash s -> is_component part = true -> part ∈ path_parts (posix_path s).
Proof.
  intros Hp Hc.
  assert (Hdrop : forall t, is_slash (t !! 0) = true ->
    part ∈ split_on slash t -> part ∈ split_on slash (drop 1 t)).
  { intros [|c t]; [done|]. cbn. intros ->. intros [->|H]%elem_of_cons; done. }
  assert (Htail : part ∈ split_on slash (snd (splitroot s))).
  { unfold splitroot. destruct (is_slash (s !! 0)) eqn:H0; [|done]. cbn [negb].
    destruct (negb (is_slash (s !! 1)) || is_slash (s !! 2)) eqn:H1; [by apply Hdrop|].
    apply orb_false_iff in H1 as [H1%negb_false_iff _].
    change (drop 2 s) with (drop (1 + 1) s). rewrite <- drop_drop.
    apply Hdrop; [by rewrite lookup_drop | by apply Hdrop]. }
  unfold posix_path. destruct (splitroot s) as [root rel]. cbn in Htail.
  assert (part ∈ List.filter is_component (split_on slash rel)) as Hin
    by (rewrite list_elem_of_In, filter_In, <- list_elem_of_In; done).
  unfold path_parts. cbn. destruct root; [done|by right].
Qed.

Lemma replace_char_app c d a b : replace_char c d (a ++ b) = replace_char c d a ++ replace_char c d b.
Proof. apply fmap_app. Qed.

(** A directory between two separators of either kind is a path component. *)
Lemma directory_is_part a s1 d s2 b :
  s1 ∈ [slash; backslash] -> s2 ∈ [slash; backslash] ->
  slash ∉ d -> backslash ∉ d -> is_component d = true ->
  d ∈ path_parts (normalized (a ++ s1 :: d ++ s2 :: b)).
Proof.
  intros H1 H2 Hd1 Hd2 Hc. apply posix_path_parts; [|done].
  assert (Hsep : forall s x, s ∈ [slash; backslash] ->
    replace_char backslash slash (s :: x) = slash :: replace_char backslash slash x).
  { intros s x [->|[->|[]%not_elem_of_nil]%elem_of_cons]%elem_of_cons; done. }
  rewrite replace_char_app, Hsep, replace_char_app, Hsep by done.
  rewrite (replace_char_id _ _ d) by (intros x Hx ->; done).
  rewrite !split_on_app, (split_on_whole slash d) by done.
  rewrite !elem_of_app. right. left. left.
Qed.

Lemma lower_keeps_separators (d : list N) x :
  is_upper x = false -> is_lower x = false -> x ∈ d -> x ∈ (ascii_lower <$> d).
Proof.
  intros Hu Hl Hx. apply list_elem_of_fmap. exists x. unfold ascii_lower. by rewrite Hu.
Qed.

(** Nothing inside an optical-disc tree is ever a candidate video: with a
    directory [BDMV] or [VIDEO_TS], in any case, between separators of either
    kind, the path has no video extension and no probe format passes it. *)
Theorem disc_tree_is_never_video a s1 d s2 b :
  s1 ∈ [slash; backslash] -> s2 ∈ [slash; backslash] ->
  all_ascii d = true -> (ascii_lower <$> d) ∈ _DISC_STRUCTURE_DIR_NAMES ->
  let p := a ++ s1 :: d ++ s2 :: b in
  is_plex_disc_structure_path p = true /\ plex_video_extension p = None /\
  expected_probe_formats p = [].
Proof.
  intros H1 H2 Ha Hd p.
  assert (Hclean : forall x, x ∈ [slash; backslash] -> x ∉ d).
  { intros x Hx Hxd. apply (lower_keeps_separators d x) in Hxd;
      [|by repeat (apply elem_of_cons in Hx as [->|Hx]; [done|]); apply not_elem_of_nil in Hx..].
    assert (forallb (fun w => forallb (fun x => negb (mem x w)) [slash; backslash])
      _DISC_STRUCTURE_DIR_NAMES = true) as Hall by by_compute.
    rewrite forallb_forall_iff in Hall. specialize (Hall _ Hd).
    rewrite forallb_forall_iff in Hall. specialize (Hall _ Hx).
    apply negb_true_iff, mem_false in Hall. done. }
  assert (is_plex_disc_structure_path p = true) as Hp.
  { unfold is_plex_disc_structure_path. apply existsb_exists_iff. exists d. split.
    - apply directory_is_part; try done.
      + apply Hclean. left.
      + apply Hclean. right. left.
      + destruct d as [|c [|]]; [|..].
        * repeat (apply elem_of_cons in Hd as [Hd|Hd]; [discriminate Hd|]). by apply not_elem_of_nil in Hd.
        * repeat (apply elem_of_cons in Hd as [Hd|Hd]; [discriminate Hd|]). by apply not_elem_of_nil in Hd.
        * unfold is_component. by rewrite !bool_decide_false.
    - rewrite casefold_ascii by done. by apply mem_true. }
  unfold expected_probe_formats, plex_video_extension. by rewrite Hp.
Qed.

(** The host's separator does not matter, and the probe fails closed: a path
    and its spelling with the other separator are treated alike, and a path has
    a probe format exactly when it has a supported extension. *)
Theorem video_extension_separators_and_formats p :
  plex_video_extension (replace_char backslash slash p) = plex_video_extension p /\
  expected_probe_formats (replace_char backslash slash p) = expected_probe_formats p /\
  (expected_probe_formats p <> [] <-> plex_video_extension p <> None).
Proof.
  assert (Hn : normalized (replace_char backslash slash p) = normalized p).
  { unfold normalized. by rewrite replace_char_idemp. }
  assert (He : plex_video_extension (replace_char backslash slash p) = plex_video_extension p).
  { unfold plex_video_extension, is_plex_disc_structure_path. by rewrite Hn. }
  split; [done|]. split; [unfold expected_probe_formats; by rewrite He|].
  unfold expected_probe_formats, plex_video_extension.
  destruct (is_plex_disc_structure_path p); [done|].
  destruct (mem _ PLEX_VIDEO_EXTENSIONS) eqn:Hm; [|done]. split; [done|]. intros _.
  apply mem_true in Hm. revert Hm. generalize (py_casefold (path_suffix (normalized p))). intros e He'.
  assert (forallb (fun e => negb (bool_decide (default _NO_FORMATS (assoc e PLEX_VIDEO_FORMATS) = [])))
    PLEX_VIDEO_EXTENSIONS = true) as Hall by by_compute.
  rewrite forallb_forall_iff in Hall. apply Hall, negb_true_iff, bool_decide_eq_false in He'. done.
Qed.

(** ** The whole manifest *)

Lemma candidate_indices_spec i names out :
  candidate_indices i names = Ok out ->
  StronglySorted lt out /\
  forall j, j ∈ out <-> (i <= j)%nat /\ exists name, names !! (j - i)%nat = Some name /\
    _is_feature_candidate name = Ok true.
Proof.
  revert i out; induction names as [|name names IH]; intros i out; cbn [candidate_indices].
  - intros [= <-]. split; [constructor|]. intros j. split; [by intros ?%not_elem_of_nil|].
    intros (_ & name & H & _). by rewrite lookup_nil in H.
  - intros H. apply bind_Ok in H as (b & Hb & H). apply bind_Ok in H as (js & Hjs & [= <-]).
    destruct (IH _ _ Hjs) as [Hs Hin].
    assert (Hrest : forall j, j ∈ js <-> (S i <= j)%nat /\ exists name',
      (name :: names) !! (j - i)%nat = Some name' /\ _is_feature_candidate name' = Ok true).
    { intros j. rewrite Hin. split; intros [Hle H]; (split; [lia|]);
        replace (j - i)%nat with (S (j - S i)) in * by lia; exact H. }
    destruct b.
    + split.
      * constructor; [done|]. apply Forall_forall. intros j Hj. apply Hin in Hj. lia.
      * intros j. rewrite elem_of_cons, Hrest. split.
        -- intros [->|[Hle H]]; [|split; [lia|done]]. split; [lia|]. exists name.
           by rewrite Nat.sub_diag.
        -- intros [Hle H]. destruct (decide (j = i)) as [->|Hne]; [by left|right; split; [lia|done]].
    + split; [done|]. intros j. rewrite Hrest. split; intros [Hle H]; (split; [lia|done]) || idtac.
      destruct (decide (j = i)) as [->|Hne]; [|split; [lia|done]].
      destruct H as (name' & Hl & Hc). rewrite Nat.sub_diag in Hl. injection Hl as <-. congruence.
Qed.

(** Inspecting a manifest: one file with a dangerous component anywhere
    condemns it; otherwise the indices returned are exactly the feature
    candidates, in order, and a reason is given exactly when there is none. *)
Theorem inspect_payload_spec names out :
  inspect_payload names = Ok out ->
  (pi_reason out = None <-> pi_video_indices out <> []) /\
  StronglySorted lt (pi_video_indices out) /\
  (existsb is_dangerous names = true -> pi_video_indices out = []) /\
  (existsb is_dangerous names = false -> forall j, j ∈ pi_video_indices out <->
     exists name, names !! j = Some name /\ _is_feature_candidate name = Ok true).
Proof.
  unfold inspect_payload.
  destruct (List.find is_dangerous names) as [name|] eqn:Hf.
  - intros [= <-]. cbn. apply List.find_some in Hf as [Hin Hd]. apply list_elem_of_In in Hin.
    split; [done|]. split; [constructor|]. split; [done|]. intros He.
    assert (existsb is_dangerous names = true) by (apply existsb_exists_iff; eauto). congruence.
  - intros H. apply bind_Ok in H as (videos & Hv & [= <-]).
    destruct (candidate_indices_spec _ _ _ Hv) as [Hs Hin].
    assert (Hin' : forall j, j ∈ videos <-> exists name, names !! j = Some name /\
      _is_feature_candidate name = Ok true).
    { intros j. rewrite Hin, Nat.sub_0_r. split; [by intros [_ ?]|]. intros ?. split; [lia|done]. }
    assert (existsb is_dangerous names = false) as ->.
    { apply not_true_iff_false. rewrite existsb_exists_iff. intros (n & Hn & Hd).
      apply list_elem_of_In in Hn. by rewrite (List.find_none _ _ Hf n Hn) in Hd. }
    by destruct videos.
Qed.
End plex_video.

(** ** Witnesses *)

Section examples.
#[local] Existing Instance ascii_db.

Lemma disc_tree_is_never_video_witness :
  plex_video_extension (lit "Film\Bdmv/STREAM/00001.m2ts") = None /\
  plex_video_extension (lit "Film/STREAM/00001.m2ts") = Some (lit ".m2ts").
Proof.
  split; [|vm_compute; reflexivity].
  apply (disc_tree_is_never_video (lit "Film") backslash (lit "Bdmv") slash
    (lit "STREAM/00001.m2ts")); try reflexivity; apply mem_true; reflexivity.
Defined.

Lemma inspect_payload_spec_witness :
  exists out, inspect_payload [lit "Show/Sample/x.mkv"; lit "Show/S01E01.mkv"] = Ok out /\
    pi_video_indices out = [1] /\ pi_reason out = None.
Proof.
  eexists. split; [vm_compute; reflexivity|]. split; [reflexivity|].
  apply (inspect_payload_spec [lit "Show/Sample/x.mkv"; lit "Show/S01E01.mkv"]);
    [vm_compute; reflexivity | discriminate].
Defined.
End examples.
