(* ===== verification/Naming.v ===== *)
(** * File and folder names ([domain/naming.py])

    Sanitizing a title into a path component, and the movie and TV layouts. *)

From Stdlib Require Import ZArith Lia Bool String Permutation Sorted.
From S2P Require Import Prelude PyStr PyRe.

#[local] Open Scope bool_scope.

Definition _BAD_CHARACTERS : list (list N * list N) :=
  [ ([92%N], lit "+"); (lit "/", lit "+"); (lit "<", []); (lit ">", []); (lit "?", []);
    (lit "*", lit "!"); (lit "|", lit "-"); ([34%N], []) ].

(** [([- ._])\1+]. *)
Definition rep_sep (c : N) : bool :=
  (c =? 45)%N || (c =? 32)%N || (c =? 46)%N || (c =? 95)%N.
Definition _REPEATED_SEPARATOR_RE : re := Cat (Grp (Chr rep_sep)) BackPlus.

(** [^(?:aux|com[1-9]|con|lpt[1-9]|nul|prn)\.]. *)
Definition _RESERVED_DEVICE_NAME_RE : re :=
  cats [ Bol;
         alts [ word_re (lit "aux"); Cat (word_re (lit "com")) (Chr (between 49 57));
                word_re (lit "con"); Cat (word_re (lit "lpt")) (Chr (between 49 57));
                word_re (lit "nul"); word_re (lit "prn") ];
         Chr (fun c => (c =? 46)%N) ].

Definition space_or_dot (c : N) : bool := (c =? 32)%N || (c =? 46)%N.

Section naming.
Context {DB : UnicodeDB}.

Definition clean_title (name : list N) : list N :=
  let result := py_replace (lit ":") (lit "-") (py_replace (lit ": ") (lit " - ") name) in
  let result := foldl (fun r bg => py_replace (fst bg) (snd bg) r) result _BAD_CHARACTERS in
  let result := sub _REPEATED_SEPARATOR_RE (fun m => default [] (f_group m)) result in
  let result := sub _RESERVED_DEVICE_NAME_RE (fun m => replace_char 46 95 (f_text m)) result in
  strip space_or_dot result.

(** [f"{title} ({year})" if year is not None else title]. *)
Definition stem_of (title : list N) (year : option Z) : list N :=
  match year with
  | Some y => title ++ lit " (" ++ str_of_int y ++ lit ")"
  | None => title
  end.

Definition plex_movie_relative_path (title : list N) (year : option Z) (ext : list N) : path :=
  let cleaned := clean_title (stem_of title year) in
  path_join (posix_path cleaned) (cleaned ++ lit "." ++ ext).

Definition plex_tv_show_relative_dir (title : list N) (year : option Z) : path :=
  posix_path (clean_title (stem_of title year)).

Definition plex_tv_season_relative_dir (title : list N) (year : option Z) (season : Z) : path :=
  path_join (plex_tv_show_relative_dir title year) (lit "Season " ++ str_02d season).

Definition episode_label (e : Z) : list N := lit "E" ++ str_02d e.

Definition _episode_token (season : Z) (episodes : list Z) : res (list N) :=
  match episodes with
  | [] => Raise (ValueError (lit "_episode_token requires at least one episode number"))
  | _ =>
      let ordered := py_sorted_ints episodes in
      let season_part := lit "S" ++ str_02d season in
      let first := List.hd 0%Z ordered in
      let final := List.last ordered 0%Z in
      if (length ordered =? 1)%nat then Ok (season_part ++ episode_label first)
      else if (final - first =? Z.of_nat (length ordered) - 1)%Z then
        Ok (season_part ++ episode_label first ++ lit "-" ++ episode_label final)
      else Ok (season_part ++ (ordered ≫= episode_label))
  end.

Definition plex_tv_episode_relative_path (title : list N) (year : option Z) (season : Z)
    (episodes : list Z) (ext : list N) : res path :=
  let season_dir := plex_tv_season_relative_dir title year season in
  token ← _episode_token season episodes;
  Ok (path_join season_dir (clean_title title ++ lit " - " ++ token ++ lit "." ++ ext)).
(** ** Characters of a cleaned title *)

(** What [clean_title] must keep out of a component. *)
Definition forbidden : list N := [92%N; 47%N; 60%N; 62%N; 63%N; 42%N; 124%N; 34%N; 58%N].

Definition replace_table (r : list N) (table : list (list N * list N)) : list N :=
  foldl (fun r bg => py_replace (fst bg) (snd bg) r) r table.

Lemma replace_table_incl x r table :
  x ∈ replace_table r table -> x ∈ r \/ exists bg, bg ∈ table /\ x ∈ snd bg.
Proof.
  revert r; induction table as [|bg table IH]; intros r; [by left|]. cbn. intros Hx.
  apply IH in Hx as [Hx|(bg' & Hin & Hx)]; [|right; exists bg'; split; [by right|done]].
  apply py_replace_incl in Hx as [Hx|Hx]; [|by left]. right. exists bg. split; [left|done].
Qed.

Lemma replace_table_gone b r table :
  (exists g, ([b], g) ∈ table) -> (forall bg, bg ∈ table -> b ∉ snd bg) ->
  b ∉ replace_table r table.
Proof.
  revert r; induction table as [|bg table IH]; intros r [g Hg] Hno.
  { by apply not_elem_of_nil in Hg. }
  cbn. fold (replace_table (py_replace (fst bg) (snd bg) r) table).
  apply elem_of_cons in Hg as [<-|Hg].
  - intros Hx. apply replace_table_incl in Hx as [Hx|(bg' & Hin & Hx)].
    + revert Hx. apply py_replace_gone. apply (Hno ([b], g)). left.
    + revert Hx. apply Hno. by right.
  - apply IH; [by exists g|]. intros bg' Hin. apply Hno. by right.
Qed.

Definition after_replacements (name : list N) : list N :=
  replace_table (py_replace (lit ":") (lit "-") (py_replace (lit ": ") (lit " - ") name))
    _BAD_CHARACTERS.

Lemma after_replacements_clean name c : c ∈ forbidden -> c ∉ after_replacements name.
Proof.
  intros Hf. unfold after_replacements.
  assert (H0 : forallb (fun bg => forallb (fun x => negb (mem x forbidden)) (snd bg))
    _BAD_CHARACTERS = true) by by_compute.
  rewrite forallb_forall_iff in H0.
  assert (Hno : forall bg, bg ∈ _BAD_CHARACTERS -> c ∉ snd bg).
  { intros bg Hbg Hc. specialize (H0 bg Hbg). rewrite forallb_forall_iff in H0.
    specialize (H0 c Hc). apply negb_true_iff, mem_false in H0. done. }
  destruct (decide (c = 58%N)) as [->|Hne].
  - intros Hx. apply replace_table_incl in Hx as [Hx|(bg & Hin & Hx)]; [|by eapply Hno].
    revert Hx. apply py_replace_gone. apply mem_false. reflexivity.
  - apply replace_table_gone; [|done].
    assert (forallb (fun c => (c =? 58)%N
      || existsb (fun bg => bool_decide (fst bg = [c])) _BAD_CHARACTERS) forbidden = true) as Hall
      by by_compute.
    rewrite forallb_forall_iff in Hall. specialize (Hall c Hf).
    apply orb_true_iff in Hall as [Hall|Hall]; [apply N.eqb_eq in Hall; congruence|].
    apply existsb_exists_iff in Hall as ([b g] & Hin & Heq). boolify. simpl in *. subst.
    by exists g.
Qed.

(** The group of a repeated separator is a separator. *)
Lemma repeated_group p s' st g x :
  Matches _REPEATED_SEPARATOR_RE (MState p s' None) st -> m_grp st = Some g -> x ∈ g ->
  rep_sep x = true.
Proof.
  intros HM Hg Hx. inversion HM as [| |? ? ? st1 ? H1 H2| | | | | | | | |]; subst.
  inversion H2 as [| | | | | | | | | | |c g' ? k Hg' Hk1 Hk2]; subst.
  assert (m_grp (advance (k * length (c :: g')) st1) = m_grp st1) as Hadv
    by (unfold advance; by destruct (k * length (c :: g'))).
  rewrite Hadv, Hg' in Hg. injection Hg as <-.
  inversion H1 as [| | | | | | | | | |? ? st2 H3|]; subst. cbn [m_grp] in Hg'.
  inversion H3 as [|? c0 ? s0 Hr Hp| | | | | | | | | |]; subst. cbn [m_rest] in *. subst s'.
  rewrite advance_rest in Hg'. cbn [m_rest drop length] in Hg'. rewrite drop_0 in Hg'.
  replace (S (length s0) - length s0) with 1 in Hg' by lia. cbn [take] in Hg'.
  rewrite firstn_O in Hg'. injection Hg' as <- <-. apply list_elem_of_singleton in Hx as ->. done.
Qed.

(** The characters of a cleaned title: those left by the replacements, and
    separators. *)
Lemma clean_title_chars name c :
  c ∈ clean_title name -> c ∈ after_replacements name \/ rep_sep c = true.
Proof.
  unfold clean_title. cbv zeta. fold (replace_table
    (py_replace (lit ":") (lit "-") (py_replace (lit ": ") (lit " - ") name)) _BAD_CHARACTERS).
  fold (after_replacements name). intros Hc. apply strip_incl in Hc.
  apply (sub_incl _ _ _ (fun x => rep_sep x = true)) in Hc as [Hc|Hc]; [|by right|].
  - apply (sub_incl_found _ _ _ (fun x => rep_sep x = true)) in Hc; [done|].
    intros m p s' st HM Hg _ x Hx. right. rewrite Hg in Hx.
    destruct (m_grp st) as [g|] eqn:Hgrp; [|by apply not_elem_of_nil in Hx].
    by eapply repeated_group.
  - intros m x Hx. apply list_elem_of_fmap in Hx as (y & -> & Hy).
    destruct (N.eqb_spec y 46); [by right|by left].
Qed.

Lemma clean_title_allowed name c : c ∈ clean_title name -> c ∉ forbidden.
Proof.
  intros Hc Hf. apply clean_title_chars in Hc as [Hc|Hc].
  - by apply after_replacements_clean in Hc.
  - assert (forallb (fun c => negb (rep_sep c)) forbidden = true) as Hall by by_compute.
    rewrite forallb_forall_iff in Hall. specialize (Hall c Hf). by rewrite Hc in Hall.
Qed.

(** C39: a cleaned title is a component that can name nothing else: it has no
    separator, no colon and no other character Windows refuses, and it neither
    starts nor ends with a space or a dot (so it is never [.] or [..]). *)
Theorem clean_title_is_a_component name :
  (forall c, c ∈ clean_title name -> c ∉ forbidden) /\
  (forall c rest, clean_title name = c :: rest -> space_or_dot c = false) /\
  (forall c rest, clean_title name = rest ++ [c] -> space_or_dot c = false) /\
  clean_title name <> [dot] /\ clean_title name <> [dot; dot].
Proof.
  assert (Hhead : forall c rest, clean_title name = c :: rest -> space_or_dot c = false)
    by (intros c rest; apply strip_head).
  split; [|split; [exact Hhead|split; [intros c rest; apply strip_last|split]]].
  - apply clean_title_allowed.
  - intros H. by specialize (Hhead _ _ H).
  - intros H. by specialize (Hhead _ _ H).
Qed.
(** ** Paths *)

Lemma posix_path_single s :
  slash ∉ s -> s <> [] -> s <> [dot] -> posix_path s = Path [] [s].
Proof.
  intros Hs Hne Hd. unfold posix_path, splitroot.
  assert (is_slash (s !! 0) = false) as ->.
  { destruct s as [|c s]; [done|]. cbn. apply N.eqb_neq. intros ->. apply Hs. left. }
  cbn [negb]. assert (split_on slash s = [s]) as ->.
  { clear Hne Hd. induction s as [|c s IH]; [done|]. apply not_elem_of_cons in Hs as [Hc Hs].
    cbn [split_on]. destruct (N.eqb_spec c slash); [congruence|]. by rewrite IH. }
  cbn. unfold is_component. by rewrite !bool_decide_false.
Qed.

Lemma clean_no_slash t : slash ∉ clean_title t.
Proof.
  intros H. apply clean_title_allowed in H. apply H, mem_true. reflexivity.
Qed.

Lemma digits_no_slash u : slash ∉ uint_codes u.
Proof.
  induction u; cbn; rewrite ?not_elem_of_cons; try (split; [done|assumption]).
  apply not_elem_of_nil.
Qed.

Lemma str_of_int_no_slash z : slash ∉ str_of_int z.
Proof.
  destruct z; cbn; [|apply digits_no_slash|rewrite not_elem_of_cons; split; [done|apply digits_no_slash]].
  apply mem_false. reflexivity.
Qed.

Lemma str_02d_no_slash z : slash ∉ str_02d z.
Proof.
  unfold str_02d. pose proof (str_of_int_no_slash z) as H.
  destruct (str_of_int z) as [|c [|]]; [done| |done].
  rewrite not_elem_of_cons. by split.
Qed.

Lemma labels_no_slash l : slash ∉ (l ≫= episode_label).
Proof.
  intros (e & Hx & _)%list_elem_of_bind. revert Hx. unfold episode_label.
  rewrite elem_of_app. intros [Hx|Hx]; [|by apply str_02d_no_slash in Hx].
  revert Hx. apply mem_false. reflexivity.
Qed.

Lemma token_no_slash season eps tok : _episode_token season eps = Ok tok -> slash ∉ tok.
Proof.
  assert (Hl : forall e, slash ∉ episode_label e)
    by (intros e; pose proof (labels_no_slash [e]) as H; cbn in H; by rewrite app_nil_r in H).
  unfold _episode_token. destruct eps as [|e eps]; [done|]. cbv zeta.
  destruct (length _ =? 1)%nat; [|destruct (_ =? _)%Z]; intros <-%Ok_inj; rewrite !not_elem_of_app;
    repeat split; try (apply mem_false; reflexivity);
    auto using str_02d_no_slash, labels_no_slash.
Qed.

(** No title can lead a download out of the library: whatever the title, the
    year and the episodes, a movie path and an episode path are relative, have
    exactly the layout's components, and none of them is [..] or contains a
    separator (for a non-empty extension without separators and a title that
    cleans to something). *)
Theorem layout_paths_stay_inside title year season eps ext tok :
  slash ∉ ext -> ext <> [] ->
  clean_title (stem_of title year) <> [] -> _episode_token season eps = Ok tok ->
  let cleaned := clean_title (stem_of title year) in
  plex_movie_relative_path title year ext = Path [] [cleaned; cleaned ++ lit "." ++ ext] /\
  plex_tv_episode_relative_path title year season eps ext =
    Ok (Path [] [cleaned; lit "Season " ++ str_02d season;
                 clean_title title ++ lit " - " ++ tok ++ lit "." ++ ext]) /\
  Forall (fun part => (slash ∉ part) /\ part <> [dot; dot])
    [cleaned; cleaned ++ lit "." ++ ext; lit "Season " ++ str_02d season;
     clean_title title ++ lit " - " ++ tok ++ lit "." ++ ext].
Proof.
  intros Hes Hene Hc Htok cleaned.
  destruct (clean_title_is_a_component (stem_of title year)) as (_ & _ & _ & H1 & H2).
  fold cleaned in H1, H2, Hc. pose proof (clean_no_slash (stem_of title year)) as Hs.
  fold cleaned in Hs. pose proof (token_no_slash _ _ _ Htok) as Ht.
  assert (Hlit : forall w, mem slash (lit w) = false -> slash ∉ lit w) by (intros w; apply mem_false).
  assert (Hfile : slash ∉ cleaned ++ lit "." ++ ext)
    by (rewrite !not_elem_of_app; auto).
  assert (Hep : slash ∉ clean_title title ++ lit " - " ++ tok ++ lit "." ++ ext)
    by (rewrite !not_elem_of_app; auto 6 using clean_no_slash).
  assert (Hsea : slash ∉ lit "Season " ++ str_02d season)
    by (rewrite !not_elem_of_app; auto using str_02d_no_slash).
  assert (Hlen : forall (w : list N), (3 <= length w)%nat -> w <> [] /\ w <> [dot] /\ w <> [dot; dot])
    by (intros w Hw; split; [|split]; intros ->; cbn in Hw; lia).
  assert (Hfl : (3 <= length (cleaned ++ lit "." ++ ext))%nat).
  { rewrite !length_app. change (length (lit ".")) with 1.
    destruct cleaned, ext; try done. cbn. lia. }
  assert (Hepl : (3 <= length (clean_title title ++ lit " - " ++ tok ++ lit "." ++ ext))%nat).
  { rewrite !length_app. change (length (lit " - ")) with 3. lia. }
  assert (Hsl : (3 <= length (lit "Season " ++ str_02d season))%nat).
  { rewrite length_app. change (length (lit "Season ")) with 7. lia. }
  apply Hlen in Hfl, Hepl, Hsl.
  destruct Hfl as (F1 & F2 & F3), Hepl as (E1 & E2 & E3), Hsl as (S1 & S2 & S3).
  split; [|split; [|by repeat constructor]].
  - unfold plex_movie_relative_path. fold cleaned. unfold path_join.
    by rewrite !posix_path_single by done.
  - unfold plex_tv_episode_relative_path, plex_tv_season_relative_dir, plex_tv_show_relative_dir.
    rewrite Htok. cbn [mbind res_bind]. unfold path_join. fold cleaned.
    by rewrite !posix_path_single by done.
Qed.

(** ** Episode tokens *)

(** In a strictly increasing list the span is at least the length, and exactly
    the length when there is no gap. *)
Lemma strict_span x l :
  StronglySorted Z.lt (x :: l) ->
  let final := List.last (x :: l) 0%Z in
  (Z.of_nat (length l) <= final - x)%Z /\
  ((final - x = Z.of_nat (length l))%Z <-> forall e, (x <= e <= final)%Z -> e ∈ x :: l).
Proof.
  revert x; induction l as [|y l IH]; intros x Hs.
  { cbn. split; [lia|]. split; [|intros _; lia]. intros _ e He.
    assert (e = x) as -> by lia. left. }
  apply StronglySorted_inv in Hs as [Hs Hx]. inversion Hx as [|? ? Hxy Hxl]; subst.
  specialize (IH y Hs). change (List.last (x :: y :: l) 0%Z) with (List.last (y :: l) 0%Z).
  cbv zeta in *. set (final := List.last (y :: l) 0%Z) in *. destruct IH as [Hle Hiff].
  cbn [length]. split; [lia|]. split.
  - intros Heq e He. assert (y = x + 1)%Z as -> by lia.
    destruct (decide (e = x)) as [->|Hne]; [left|right]. apply Hiff; lia.
  - intros Hall.
    assert (x + 1 ∈ x :: y :: l)%Z as Hin by (apply Hall; lia).
    assert (y = x + 1)%Z as ->.
    { apply elem_of_cons in Hin as [?|Hin]; [lia|]. apply elem_of_cons in Hin as [|Hin]; [lia|].
      apply StronglySorted_inv in Hs as [_ Hyl]. rewrite Forall_forall in Hyl.
      specialize (Hyl _ Hin). lia. }
    assert (final - (x + 1) = Z.of_nat (length l))%Z; [|lia].
    apply Hiff. intros e He. specialize (Hall e ltac:(lia)).
    apply elem_of_cons in Hall as [->|Hall]; [lia|done].
Qed.

Lemma sorted_ints_NoDup l : NoDup l -> StronglySorted Z.lt (py_sorted_ints l).
Proof.
  intros Hnd. unfold py_sorted_ints.
  assert (sorted_set l ≡ₚ py_sort Z.ltb l) as Hp.
  { unfold sorted_set, py_sorted_ints. rewrite !py_sort_perm.
    apply NoDup_Permutation; [apply NoDup_remove_dups|done|].
    intros x. apply elem_of_remove_dups. }
  assert (py_sort Z.ltb l = sorted_set l) as ->; [|apply sorted_set_increasing].
  symmetry. apply (StronglySorted_unique Z.le); [|apply py_sorted_ints_sorted|done].
  apply py_sorted_ints_sorted.
Qed.

(** The episode token says what the file holds.  It does not depend on the
    order of the episodes; for distinct episodes it is a dash range exactly when
    the file really holds every episode from the first to the last, and it lists
    each episode otherwise. *)
Theorem episode_token_is_honest season eps :
  NoDup eps -> (2 <= length eps)%nat ->
  let ordered := py_sorted_ints eps in
  let lo := List.hd 0%Z ordered in
  let hi := List.last ordered 0%Z in
  (forall eps', eps ≡ₚ eps' -> _episode_token season eps' = _episode_token season eps) /\
  ((forall e, (lo <= e <= hi)%Z -> e ∈ eps) ->
     _episode_token season eps =
     Ok (lit "S" ++ str_02d season ++ episode_label lo ++ lit "-" ++ episode_label hi)) /\
  ((exists e, (lo <= e <= hi)%Z /\ e ∉ eps) ->
     _episode_token season eps =
     Ok (lit "S" ++ str_02d season ++ (ordered ≫= episode_label))).
Proof.
  intros Hnd Hlen ordered lo hi. split.
  { intros eps' Hp. destruct eps as [|x eps], eps' as [|y eps']; try done.
    - by apply Permutation_nil_l in Hp.
    - by apply Permutation_nil_r in Hp.
    - unfold _episode_token. by rewrite (py_sorted_ints_perm _ _ Hp). }
  assert (Hel : forall e, e ∈ ordered <-> e ∈ eps) by (intros e; apply elem_of_py_sort).
  assert (Hl : length ordered = length eps) by apply length_py_sort.
  pose proof (sorted_ints_NoDup eps Hnd) as Hs. fold ordered in Hs.
  assert (Htok : _episode_token season eps =
    if (hi - lo =? Z.of_nat (length ordered) - 1)%Z
    then Ok ((lit "S" ++ str_02d season) ++ episode_label lo ++ lit "-" ++ episode_label hi)
    else Ok ((lit "S" ++ str_02d season) ++ (ordered ≫= episode_label))).
  { unfold _episode_token. destruct eps as [|x eps']; [cbn in Hlen; lia|]. cbv zeta.
    fold ordered. rewrite (proj2 (Nat.eqb_neq (length ordered) 1)) by lia. done. }
  rewrite Htok. clear Htok. unfold lo, hi in *.
  destruct ordered as [|x l]; [cbn in Hl; lia|]. destruct (strict_span x l Hs) as [Hle Hiff].
  cbn [List.hd]. cbv zeta in *. set (final := List.last (x :: l) 0%Z) in *.
  cbn [length]. split.
  - intros Hall. assert (final - x = Z.of_nat (length l))%Z as Heq
      by (apply Hiff; intros e He; by apply Hel, Hall).
    rewrite (proj2 (Z.eqb_eq _ _)) by lia. by rewrite <- app_assoc.
  - intros (e & He & Hn). rewrite (proj2 (Z.eqb_neq _ _)); [by rewrite <- app_assoc|].
    intros Heq. apply Hn, Hel. apply Hiff; [lia|done].
Qed.
End naming.

(** ** Witnesses *)

Section examples.
#[local] Existing Instance ascii_db.

Lemma layout_paths_stay_inside_witness :
  path_str (plex_movie_relative_path (lit "../etc: x") (Some 1999%Z) (lit "mkv")) =
    lit "+etc - x (1999)/+etc - x (1999).mkv" /\
  exists parts, plex_movie_relative_path (lit "../etc: x") (Some 1999%Z) (lit "mkv") = Path [] parts.
Proof.
  split; [vm_compute; reflexivity|]. eexists.
  apply (layout_paths_stay_inside (lit "../etc: x") (Some 1999%Z) 1 [1%Z] (lit "mkv")
    (lit "S01E01")).
  - apply mem_false. reflexivity.
  - discriminate.
  - vm_compute. discriminate.
  - vm_compute. reflexivity.
Defined.

Lemma episode_token_is_honest_witness :
  _episode_token 2 [7; 5; 6]%Z = Ok (lit "S02E05-E07") /\
  _episode_token 2 [6; 4]%Z = Ok (lit "S02E04E06").
Proof.
  split.
  - apply (episode_token_is_honest 2 [7; 5; 6]%Z).
    + apply (bool_decide_unpack _). vm_compute. done.
    + cbn. lia.
    + cbn. intros e He. assert (e = 5 \/ e = 6 \/ e = 7)%Z as [->|[->| ->]] by lia;
        apply mem_true; reflexivity.
  - apply (episode_token_is_honest 2 [6; 4]%Z).
    + apply (bool_decide_unpack _). vm_compute. done.
    + cbn. lia.
    + exists 5%Z. split; [vm_compute; split; discriminate | apply mem_false; reflexivity].
Defined.

(** A duplicated episode closes the gap it should show: the range claims
    episode 5. *)
Lemma duplicate_episode_token : _episode_token 2 [4; 4; 6]%Z = Ok (lit "S02E04-E06").
Proof. reflexivity. Qed.

(** A title of dropped characters only cleans to nothing. *)
Lemma clean_title_can_be_empty : clean_title (lit "???") = [].
Proof. vm_compute. reflexivity. Qed.

(** The reserved-name guard looks before the leading spaces are stripped. *)
Lemma reserved_name_after_space : clean_title (lit " con.x") = lit "con.x".
Proof. vm_compute. reflexivity. Qed.
End examples.
