(* ===== verification/LibraryRoots.v ===== *)
(** * Library roots ([services/library_roots.py])

    Which configured root owns a path: lexical containment after
    [os.path.normpath], the deepest containing root winning. *)

From Stdlib Require Import ZArith Lia Bool String.
From S2P Require Import Prelude PyStr.

#[local] Open Scope bool_scope.

(** ** [posixpath.normpath] *)

Definition dotdot : list N := [dot; dot].

(** The slashes a path keeps in front: none, one, or exactly two. *)
Definition initial_slashes (s : list N) : list N := (splitroot s).1.

(** One component: [..] removes the last one, unless there is none to remove. *)
Definition norm_step (rooted : bool) (acc : list (list N)) (comp : list N) : list (list N) :=
  if bool_decide (comp = []) || bool_decide (comp = [dot]) then acc
  else if negb (bool_decide (comp = dotdot)) || (negb rooted && bool_decide (acc = []))
          || bool_decide (last acc = Some dotdot)
  then acc ++ [comp]
  else take (length acc - 1) acc.

Definition norm_comps (s : list N) : list (list N) :=
  foldl (norm_step (negb (bool_decide (initial_slashes s = [])))) [] (split_on slash s).

Definition normpath (s : list N) : list N :=
  match s with
  | [] => [dot]
  | _ =>
      match initial_slashes s ++ join [slash] (norm_comps s) with
      | [] => [dot]
      | path => path
      end
  end.

(** ** [LibraryRoots] *)

Record LibraryRoots := {
  movies : option (list N);
  tv : option (list N);
  anime_movie : option (list N);
  anime_tv : option (list N);
}.

(** [__post_init__]: a value of white space only becomes [None]. *)
Definition blank_to_none (value : option (list N)) : option (list N) :=
  match value with
  | Some s => if bool_decide (py_strip s = []) then None else Some s
  | None => None
  end.

Definition make_roots (movies tv anime_movie anime_tv : option (list N)) : LibraryRoots :=
  {| movies := blank_to_none movies; tv := blank_to_none tv;
     anime_movie := blank_to_none anime_movie; anime_tv := blank_to_none anime_tv |}.

(** [r] is truthy. *)
Definition truthy (r : option (list N)) : bool :=
  match r with Some (_ :: _) => true | _ => false end.

Definition configured (r : LibraryRoots) : list (list N) :=
  omap (fun x : option (list N) => if truthy x then x else None)
    [movies r; tv r; anime_movie r; anime_tv r].

Definition fallback_for (r : LibraryRoots) (media_type : list N) (is_anime : bool) : option (list N) :=
  if bool_decide (media_type = lit "movie") then
    if is_anime && truthy (anime_movie r) then anime_movie r else movies r
  else if is_anime && truthy (anime_tv r) then anime_tv r else tv r.

(** ** [deepest_containing_root] *)

Definition sep : list N := [slash].

Definition count_sep (s : list N) : nat := length (List.filter (fun c => (c =? slash)%N) s).

(** The containment test and the depth of one root. *)
Definition probe (candidate root : list N) : bool * Z :=
  let root_norm := normpath root in
  if bool_decide (root_norm = sep) then (prefixb sep candidate, 0%Z)
  else (bool_decide (candidate = root_norm) || prefixb (root_norm ++ sep) candidate,
        Z.of_nat (count_sep root_norm)).

Definition blank_root (root : list N) : bool :=
  bool_decide (root = []) || bool_decide (py_strip root = []).

Definition deepest_step (candidate : list N) (best : option (list N) * Z) (root : list N)
    : option (list N) * Z :=
  if blank_root root then best
  else
    let '(contains, depth) := probe candidate root in
    if negb contains then best
    else if (best.2 <? depth)%Z then (Some root, depth) else best.

Definition deepest_containing_root (path : list N) (roots : list (list N)) : option (list N) :=
  match path with
  | [] => None
  | _ => (foldl (deepest_step (normpath path)) (None, (-1)%Z) roots).1
  end.

Example deepest_nested :
  deepest_containing_root (lit "/media/movies/anime/A/../B.mkv") [lit "/"; lit "/media/movies/"; lit "/media/movies/anime"]
  = Some (lit "/media/movies/anime").
Proof. reflexivity. Qed.

(** ** Containment is by components *)

Definition owns (candidate root : list N) : bool := negb (blank_root root) && (probe candidate root).1.
Definition depth (root : list N) : Z := (probe [] root).2.

Lemma probe_depth candidate root : (probe candidate root).2 = depth root.
Proof. unfold depth, probe. by case_bool_decide. Qed.

Lemma depth_nonneg root : (0 <= depth root)%Z.
Proof. unfold depth, probe. case_bool_decide; simpl; lia. Qed.

Lemma normpath_nonempty s : normpath s <> [].
Proof. unfold normpath. destruct s; [done|]. by destruct (_ ++ _). Qed.

Lemma count_sep_app s t : count_sep (s ++ t) = (count_sep s + count_sep t)%nat.
Proof. unfold count_sep. by rewrite List.filter_app, length_app. Qed.

(** Two roots of one path at the same depth have the same normal form. *)
Lemma owns_same_depth candidate r1 r2 : owns candidate r1 = true -> owns candidate r2 = true ->
  depth r1 = depth r2 -> normpath r1 = normpath r2.
Proof.
  assert (forall n1 n2 : list N, n1 <> [] -> n2 <> [] -> n2 <> sep ->
    prefixb sep candidate = true -> prefixb n2 candidate = true -> count_sep n2 = 0%nat -> False) as Hroot.
  { intros n1 n2 _ Hne _ Hs Hp Hc. apply prefixb_true in Hs as [t ->]. apply prefixb_true in Hp as [u Hu].
    destruct n2 as [|c n2]; [done|]. injection Hu as <- _. unfold count_sep in Hc. simpl in Hc. done. }
  assert (forall n1 n2 : list N, candidate = n1 \/ (exists t, candidate = n1 ++ sep ++ t) ->
    (exists u, candidate = n2 ++ u) -> (length n1 <= length n2)%nat ->
    count_sep n1 = count_sep n2 -> n1 = n2) as Heq.
  { intros n1 n2 H1 [u Hu] Hlen Hc.
    assert (exists v, n2 = n1 ++ v) as [v ->].
    { assert (take (length n1) n2 = n1) as Ht.
      { destruct H1 as [->|[t ->]].
        - assert (length n1 = length (n2 ++ u)) as Hl by congruence. rewrite length_app in Hl.
          assert (u = []) as -> by (destruct u; [done|simpl in Hl; lia]).
          rewrite app_nil_r in Hu. rewrite Hu. apply take_ge. done.
        - apply (f_equal (take (length n1))) in Hu. rewrite take_app_length in Hu.
          rewrite take_app_le in Hu by lia. done. }
      exists (drop (length n1) n2). rewrite <- Ht at 1. by rewrite take_drop. }
    rewrite count_sep_app in Hc. destruct v as [|c v]; [by rewrite app_nil_r|]. exfalso.
    rewrite <- app_assoc in Hu. destruct H1 as [->|[t ->]].
    - apply (f_equal length) in Hu. rewrite !length_app in Hu. simpl in Hu. lia.
    - apply app_inv_head in Hu. injection Hu as <- _. unfold count_sep in Hc. simpl in Hc. lia. }
  unfold owns, depth, probe. rewrite !andb_true_iff.
  pose proof (normpath_nonempty r1) as Hn1. pose proof (normpath_nonempty r2) as Hn2.
  assert (forall n : list N, bool_decide (candidate = n) || prefixb (n ++ sep) candidate = true ->
    (candidate = n \/ exists t, candidate = n ++ sep ++ t) /\ (exists u, candidate = n ++ u)) as Hcont.
  { intros n Hn. apply orb_true_iff in Hn as [Hn|Hn].
    - apply bool_decide_eq_true in Hn. split; [by left|]. exists []. by rewrite app_nil_r.
    - apply prefixb_true in Hn as [t Ht]. rewrite <- app_assoc in Ht. eauto. }
  assert (forall n : list N, (exists u, candidate = n ++ u) -> prefixb n candidate = true) as Hpre
    by (intros n [u ->]; apply prefixb_app).
  destruct (bool_decide (normpath r1 = sep)) eqn:E1, (bool_decide (normpath r2 = sep)) eqn:E2;
    (apply bool_decide_eq_true in E1 || apply bool_decide_eq_false in E1);
    (apply bool_decide_eq_true in E2 || apply bool_decide_eq_false in E2); cbn [fst snd];
    intros [_ H1] [_ H2] Hd.
  - congruence.
  - apply Hcont in H2 as [_ H2]. apply Hpre in H2. exfalso. apply (Hroot sep (normpath r2)); auto; simpl in Hd; lia || done.
  - apply Hcont in H1 as [_ H1]. apply Hpre in H1. exfalso. apply (Hroot sep (normpath r1)); auto; simpl in Hd; lia || done.
  - apply Hcont in H1 as [H1 H1']. apply Hcont in H2 as [H2 H2'].
    destruct (Nat.le_ge_cases (length (normpath r1)) (length (normpath r2))).
    + apply Heq; [done..|lia].
    + symmetry. apply Heq; [done..|lia].
Qed.

(** ** The loop *)

Lemma foldl_deepest candidate roots b d :
  (-1 <= d)%Z -> (b = None <-> d = (-1)%Z) ->
  let r := foldl (deepest_step candidate) (b, d) roots in
  (d <= r.2)%Z /\ (r.1 = None <-> r.2 = (-1)%Z) /\
  (r = (b, d) \/ exists pre root post, roots = pre ++ root :: post /\ r = (Some root, depth root) /\
     owns candidate root = true /\ (d < depth root)%Z /\
     (forall x, x ∈ pre -> owns candidate x = true -> (depth x < depth root)%Z)) /\
  (forall x, x ∈ roots -> owns candidate x = true -> (depth x <= r.2)%Z).
Proof.
  revert b d; induction roots as [|root roots IH]; intros b d Hd Hb r.
  - subst r. simpl. repeat split; try tauto; try lia; try by left. by intros x ?%not_elem_of_nil.
  - assert (deepest_step candidate (b, d) root =
      if owns candidate root && (d <? depth root)%Z then (Some root, depth root) else (b, d)) as Hstep.
    { unfold deepest_step, owns. destruct (blank_root root); [done|]. simpl.
      pose proof (probe_depth candidate root) as Hp. destruct (probe candidate root) as [c dp].
      simpl in *. subst dp. by destruct c. }
    subst r. cbn [foldl]. rewrite Hstep.
    pose proof (depth_nonneg root) as Hnn.
    destruct (owns candidate root) eqn:Ho; [destruct (Z.ltb_spec d (depth root)) as [Hlt|Hge]|]; simpl andb; cbv iota.
    + destruct (IH (Some root) (depth root)) as (H1 & H2 & H3 & H4); [lia|split; [done|lia]|].
      split; [lia|]. split; [done|]. split.
      * right. destruct H3 as [->|(pre & root' & post & -> & -> & Ho' & Hlt' & Hpre)].
        -- exists [], root, roots. repeat split; auto. by intros x ?%not_elem_of_nil.
        -- exists (root :: pre), root', post. repeat split; auto; [lia|].
           intros x Hx. apply elem_of_cons in Hx as [->|Hx]; auto.
      * intros x Hx. apply elem_of_cons in Hx as [->|Hx]; auto.
    + destruct (IH b d) as (H1 & H2 & H3 & H4); [done..|].
      split; [done|]. split; [done|]. split.
      * destruct H3 as [->|(pre & root' & post & -> & -> & Ho' & Hlt' & Hpre)]; [by left|]. right.
        exists (root :: pre), root', post. repeat split; auto.
        intros x Hx. apply elem_of_cons in Hx as [->|Hx]; auto. lia.
      * intros x Hx Hox. apply elem_of_cons in Hx as [->|Hx]; auto. lia.
    + destruct (IH b d) as (H1 & H2 & H3 & H4); [done..|].
      split; [done|]. split; [done|]. split.
      * destruct H3 as [->|(pre & root' & post & -> & -> & Ho' & Hlt' & Hpre)]; [by left|]. right.
        exists (root :: pre), root', post. repeat split; auto.
        intros x Hx. apply elem_of_cons in Hx as [->|Hx]; auto. congruence.
      * intros x Hx Hox. apply elem_of_cons in Hx as [->|Hx]; auto. congruence.
Qed.

(** ** Absolute paths as lists of components *)

Definition absolute (s : list N) : Prop := initial_slashes s = sep.

Definition slash_free (l : list (list N)) : Prop := Forall (fun c => slash ∉ c) l.

Lemma norm_comps_incl s c : c ∈ norm_comps s -> c ∈ split_on slash s /\ c <> [].
Proof.
  unfold norm_comps. generalize (negb (bool_decide (initial_slashes s = []))). intros rooted.
  assert (forall l acc, c ∈ foldl (norm_step rooted) acc l -> c ∈ acc \/ (c ∈ l /\ c <> [])) as H.
  { induction l as [|x l IH]; intros acc Hc; [by left|]. simpl in Hc.
    apply IH in Hc as [Hc|[Hc ?]]; [|right; split; [by right|done]]. unfold norm_step in Hc.
    destruct (bool_decide (x = [])) eqn:Hx; [by left|]. apply bool_decide_eq_false in Hx. simpl in Hc.
    destruct (bool_decide (x = [dot])); [by left|]. destruct (_ || _).
    - apply elem_of_app in Hc as [Hc|Hc]; [by left|]. apply list_elem_of_singleton in Hc as ->.
      right. split; [left|done].
    - left. eapply subseteq_take; exact Hc. }
  intros Hc. destruct (H _ _ Hc) as [Hn|]; [by apply not_elem_of_nil in Hn|done].
Qed.

Lemma norm_comps_slash_free s : slash_free (norm_comps s).
Proof. apply Forall_forall. intros c Hc. apply norm_comps_incl in Hc as [Hc _]. by apply split_on_no_sep in Hc. Qed.

Lemma normpath_absolute s : absolute s -> normpath s = sep ++ join sep (norm_comps s).
Proof. intros Ha. unfold normpath. destruct s; [done|]. by rewrite Ha. Qed.

Lemma split_on_around c a t : split_on c (a ++ c :: t) = split_on c a ++ split_on c t.
Proof.
  induction a as [|x a IH]; simpl; [by rewrite N.eqb_refl|].
  destruct (x =? c)%N; [by rewrite IH|]. rewrite IH.
  pose proof (split_on_nonempty c a). by destruct (split_on c a).
Qed.

Lemma split_on_slash_free s : slash ∉ s -> split_on slash s = [s].
Proof.
  induction s as [|c s IH]; [done|]. rewrite not_elem_of_cons. intros [Hne H]. simpl.
  destruct (N.eqb_spec c slash); [congruence|]. by rewrite IH.
Qed.

Lemma split_on_join l : slash_free l -> l <> [] -> split_on slash (join sep l) = l.
Proof.
  induction 1 as [|c l Hc Hl IH]; [done|]. intros _.
  destruct l as [|c' l]; [by apply split_on_slash_free|].
  change (join sep (c :: c' :: l)) with (c ++ slash :: join sep (c' :: l)).
  rewrite split_on_around, split_on_slash_free by done. by rewrite IH.
Qed.

Lemma join_prefix l1 l2 : slash_free l1 -> slash_free l2 -> l1 <> [] -> l2 <> [] ->
  (join sep l2 = join sep l1 \/ exists t, join sep l2 = join sep l1 ++ sep ++ t) <-> l1 `prefix_of` l2.
Proof.
  intros H1 H2 Hn1 Hn2. split.
  - intros [He|[t He]]; apply (f_equal (split_on slash)) in He;
      rewrite split_on_join in He by done.
    + rewrite split_on_join in He by done. by subst.
    + unfold sep in He at 2. simpl app in He. rewrite split_on_around in He. fold sep in He.
      rewrite split_on_join in He by done. rewrite He. by exists (split_on slash t).
  - intros [l3 ->]. destruct l3 as [|c l3]; [left; by rewrite app_nil_r|]. right.
    exists (join sep (c :: l3)). clear -Hn1. induction l1 as [|x l1 IH]; [done|].
    destruct l1 as [|y l1]; [done|].
    change (join sep (x :: y :: l1)) with (x ++ sep ++ join sep (y :: l1)).
    change (join sep ((x :: y :: l1) ++ c :: l3)) with (x ++ sep ++ join sep ((y :: l1) ++ c :: l3)).
    rewrite IH by done. by rewrite <- !app_assoc.
Qed.

Lemma count_sep_join l : slash_free l -> l <> [] -> count_sep (sep ++ join sep l) = length l.
Proof.
  assert (forall s, slash ∉ s -> count_sep s = 0%nat) as H0.
  { intros s. unfold count_sep. induction s as [|c s IH]; [done|]. rewrite not_elem_of_cons.
    intros [Hne Hs]. simpl. destruct (N.eqb_spec c slash); [congruence|]. by apply IH. }
  intros Hl Hn. rewrite count_sep_app. change (count_sep sep) with 1%nat.
  induction Hl as [|c l Hc Hl IH]; [done|]. destruct l as [|c' l].
  - simpl. by rewrite H0.
  - change (join sep (c :: c' :: l)) with (c ++ sep ++ join sep (c' :: l)).
    rewrite !count_sep_app, H0 by done. change (count_sep sep) with 1%nat.
    rewrite (length_cons c). rewrite <- IH; done.
Qed.

Lemma slash_comps_nil s : absolute s -> normpath s = sep <-> norm_comps s = [].
Proof.
  intros Ha. rewrite (normpath_absolute s Ha). split; [|by intros ->].
  intros He. destruct (norm_comps s) as [|c l] eqn:Hc; [done|]. exfalso.
  destruct (norm_comps_incl s c) as [_ Hne]; [rewrite Hc; left|].
  apply app_inv_head_iff with (l := sep) (l2 := []) in He.
  destruct c as [|x c]; [done|]. by destruct l.
Qed.

(** The code's string test is the prefix test on components. *)
Lemma owns_components path root : absolute path -> absolute root ->
  owns (normpath path) root = negb (blank_root root) && bool_decide (norm_comps root `prefix_of` norm_comps path) /\
  depth root = Z.of_nat (length (norm_comps root)).
Proof.
  intros Hp Hr. pose proof (norm_comps_slash_free root) as Hfr. pose proof (norm_comps_slash_free path) as Hfp.
  unfold owns, depth, probe. destruct (bool_decide (normpath root = sep)) eqn:E.
  - apply bool_decide_eq_true, slash_comps_nil in E; [|done]. rewrite E. cbn [fst snd]. split; [|done].
    f_equal. rewrite (normpath_absolute path Hp), prefixb_app. symmetry. apply bool_decide_eq_true.
    apply prefix_nil.
  - apply bool_decide_eq_false in E. rewrite (slash_comps_nil root Hr) in E. cbn [fst snd].
    rewrite (normpath_absolute path Hp), (normpath_absolute root Hr).
    split; [|by rewrite count_sep_join]. f_equal. apply eq_true_iff_eq.
    rewrite orb_true_iff, !bool_decide_eq_true, prefixb_true.
    destruct (norm_comps path) as [|c l] eqn:Hc.
    + split.
      * intros [He|[t He]]; exfalso.
        -- apply E. apply (slash_comps_nil root Hr). rewrite (normpath_absolute root Hr). by rewrite <- He.
        -- apply (f_equal length) in He. rewrite !length_app in He. simpl in He. lia.
      * intros Hpre. by apply prefix_nil_inv in Hpre.
    + rewrite <- join_prefix by done. split.
      * intros [He|[t He]]; [left; by apply app_inv_head in He|]. right. exists t.
        rewrite <- !app_assoc in He. by apply app_inv_head in He.
      * intros [He|[t He]]; [left; by rewrite He|]. right. exists t. rewrite He. by rewrite <- !app_assoc.
Qed.

(** The owner of an absolute path among absolute roots is the deepest root
    whose components are a prefix of the path's (never a textual prefix of a
    name), the first one listed of those that deep, returned as configured; no
    owner exactly when no root that is not blank contains the path. *)
Theorem deepest_root_owns path roots :
  absolute path -> (forall x, x ∈ roots -> absolute x) ->
  match deepest_containing_root path roots with
  | Some root => exists pre post, roots = pre ++ root :: post /\ blank_root root = false /\
      norm_comps root `prefix_of` norm_comps path /\
      forall x, x ∈ roots -> blank_root x = false -> norm_comps x `prefix_of` norm_comps path ->
        (length (norm_comps x) <= length (norm_comps root))%nat /\
        ((x ∈ pre) -> (length (norm_comps x) < length (norm_comps root))%nat)
  | None => forall x, x ∈ roots -> blank_root x = false -> ~ norm_comps x `prefix_of` norm_comps path
  end.
Proof.
  intros Hp Hr. unfold deepest_containing_root. destruct path as [|c path]; [done|].
  set (candidate := normpath (c :: path)).
  destruct (foldl_deepest candidate roots None (-1)) as (_ & Hnone & Hsome & Hmax); [lia|done|].
  assert (forall x, x ∈ roots -> owns candidate x = true <->
    blank_root x = false /\ norm_comps x `prefix_of` norm_comps (c :: path)) as Howns.
  { intros x Hx. unfold candidate. destruct (owns_components _ x Hp (Hr x Hx)) as [-> _].
    by rewrite andb_true_iff, negb_true_iff, bool_decide_eq_true. }
  assert (forall x, x ∈ roots -> depth x = Z.of_nat (length (norm_comps x))) as Hdepth
    by (intros x Hx; by apply (owns_components _ x Hp (Hr x Hx))).
  destruct Hsome as [E|(pre & root & post & Hroots & E & Ho & _ & Hpre)]; rewrite E in *; cbn [fst snd] in *.
  - intros x Hx Hb Hpx. assert (owns candidate x = true) as Hox by (by apply Howns).
    specialize (Hmax x Hx Hox). pose proof (depth_nonneg x). lia.
  - assert (root ∈ roots) as Hin by (rewrite Hroots; apply elem_of_app; right; left).
    apply Howns in Ho as [Hb Hpx]; [|done]. exists pre, post. repeat split; try done.
    + assert (owns candidate x = true) as Hox by (by apply Howns).
      specialize (Hmax x ltac:(done) Hox). rewrite !Hdepth in Hmax by done. lia.
    + intros Hxp. assert (owns candidate x = true) as Hox by (by apply Howns).
      specialize (Hpre x Hxp Hox). rewrite !Hdepth in Hpre by done. lia.
Qed.

Lemma deepest_root_owns_witness :
  match deepest_containing_root (lit "/media/movies2/A.mkv") [lit "/media/movies"; lit "/media/"] with
  | Some root => exists pre post, [lit "/media/movies"; lit "/media/"] = pre ++ root :: post /\ blank_root root = false /\
      norm_comps root `prefix_of` norm_comps (lit "/media/movies2/A.mkv") /\
      forall x, x ∈ [lit "/media/movies"; lit "/media/"] -> blank_root x = false ->
        norm_comps x `prefix_of` norm_comps (lit "/media/movies2/A.mkv") ->
        (length (norm_comps x) <= length (norm_comps root))%nat /\
        ((x ∈ pre) -> (length (norm_comps x) < length (norm_comps root))%nat)
  | None => False
  end.
Proof.
  apply (deepest_root_owns (lit "/media/movies2/A.mkv") [lit "/media/movies"; lit "/media/"]); [done|].
  intros x Hx. rewrite !elem_of_cons in Hx. destruct Hx as [->|[->|Hx]]; [done..|]. by apply not_elem_of_nil in Hx.
Defined.

(** Which root owns a path does not depend on the order of the roots, up to
    the spelling of the root. *)
Lemma owner_order_irrelevant path roots roots' r r' : roots ≡ₚ roots' ->
  deepest_containing_root path roots = Some r -> deepest_containing_root path roots' = Some r' ->
  normpath r = normpath r'.
Proof.
  intros Hperm. unfold deepest_containing_root. destruct path as [|c path]; [done|].
  set (candidate := normpath (c :: path)). intros H1 H2.
  destruct (foldl_deepest candidate roots None (-1)) as (_ & _ & Hs1 & Hm1); [lia|done|].
  destruct (foldl_deepest candidate roots' None (-1)) as (_ & _ & Hs2 & Hm2); [lia|done|].
  destruct Hs1 as [E|(pre & x & post & Hr & E & Ho & _)]; rewrite E in H1, Hm1; [done|].
  destruct Hs2 as [E'|(pre' & x' & post' & Hr' & E' & Ho' & _)]; rewrite E' in H2, Hm2; [done|].
  simpl in *. injection H1 as ->. injection H2 as ->.
  assert (r ∈ roots) by (rewrite Hr; apply elem_of_app; right; left).
  assert (r' ∈ roots') by (rewrite Hr'; apply elem_of_app; right; left).
  apply (owns_same_depth candidate); [done..|].
  assert (depth r <= depth r')%Z by (apply Hm2; [by rewrite <- Hperm|done]).
  assert (depth r' <= depth r)%Z by (apply Hm1; [by rewrite Hperm|done]). lia.
Qed.

(** Two spellings of one root are both deepest, and the first listed wins. *)
Example spellings_of_one_root :
  deepest_containing_root (lit "/media/a.mkv") [lit "/media/"; lit "/media"] = Some (lit "/media/").
Proof. reflexivity. Qed.
