(* ===== verification/PyOs.v ===== *)
(** * What the program uses of [os] and [os.path]

    System errors by their numbers on Linux, with the classes Python gives them,
    and the lexical functions of [posixpath]. *)

From Stdlib Require Import ZArith Lia Bool String.
From S2P Require Import Prelude PyStr LibraryRoots.

#[local] Open Scope bool_scope.

(** ** Errors *)

Inductive errno : Type :=
  | EPERM | ENOENT | ESRCH | ENXIO | EAGAIN | EACCES | EEXIST | EXDEV | ENOTDIR | EISDIR | EINVAL | EMLINK
  | ELOOP | ENODATA | EOPNOTSUPP | errno_other (n : N).

Definition number (e : errno) : N :=
  match e with
  | EPERM => 1 | ENOENT => 2 | ESRCH => 3 | ENXIO => 6 | EAGAIN => 11 | EACCES => 13 | EEXIST => 17 | EXDEV => 18
  | ENOTDIR => 20 | EISDIR => 21 | EINVAL => 22 | EMLINK => 31 | ELOOP => 40 | ENODATA => 61 | EOPNOTSUPP => 95
  | errno_other n => n
  end%N.

(** The exception a system call raises; the number is kept where its class has
    several. *)
Definition os_error (e : errno) : exn :=
  match e with
  | ENOENT => FileNotFoundError
  | ESRCH => ProgramError "ProcessLookupError" []
  | EAGAIN => ProgramError "BlockingIOError" []
  | EEXIST => ProgramError "FileExistsError" []
  | ENOTDIR => ProgramError "NotADirectoryError" []
  | EISDIR => ProgramError "IsADirectoryError" []
  | EPERM | EACCES => ProgramError "PermissionError" [number e]
  | _ => ProgramError "OSError" [number e]
  end.

Definition raises (cls : string) (e : exn) : bool :=
  match e with ProgramError c _ => String.eqb c cls | _ => false end.
Definition message (e : exn) : list N := match e with ProgramError _ m => m | _ => [] end.

(** [exc.errno]; [None] for an error that was raised with a text. *)
Definition errno_of (e : exn) : option N :=
  match e with
  | FileNotFoundError => Some 2%N
  | ProgramError c m =>
      if String.eqb c "ProcessLookupError" then Some 3%N
      else if String.eqb c "BlockingIOError" then Some 11%N
      else if String.eqb c "NotADirectoryError" then Some 20%N
      else if String.eqb c "IsADirectoryError" then Some 21%N
      else if String.eqb c "PermissionError" || String.eqb c "OSError" then head m
      else if String.eqb c "FileExistsError" && bool_decide (m = []) then Some 17%N
      else None
  | _ => None
  end.

Definition has_errno (l : list errno) (e : exn) : bool :=
  match errno_of e with Some n => mem n (number <$> l) | None => false end.

(** [except OSError]; [PartialDeleteError] is the program's own subclass. *)
Definition os_classes : list string :=
  ["OSError"; "ProcessLookupError"; "BlockingIOError"; "FileExistsError"; "NotADirectoryError"; "IsADirectoryError";
   "PermissionError"; "PartialDeleteError"]%string.
Definition is_os_error (e : exn) : bool :=
  match e with
  | OSError | FileNotFoundError => true
  | ProgramError c _ => existsb (String.eqb c) os_classes
  | _ => false
  end.

Lemma os_error_is e : is_os_error (os_error e) = true.
Proof. by destruct e. Qed.

Lemma errno_of_os_error e : match e with errno_other _ => True | _ => errno_of (os_error e) = Some (number e) end.
Proof. by destruct e. Qed.

(** ** [posixpath] *)

(** [os.path.abspath], from the working directory [cwd]. *)
Definition abspath (cwd path : list N) : list N :=
  if prefixb sep path then normpath path
  else normpath (if prefixb sep (reverse cwd) then cwd ++ path else cwd ++ sep ++ path).

(** [os.path.split]. *)
Definition tail_from (p : list N) : nat := match rfind slash p with Some i => S i | None => 0 end.
Definition basename (p : list N) : list N := drop (tail_from p) p.
Definition dirname (p : list N) : list N :=
  let head := take (tail_from p) p in
  if forallb (fun c => (c =? slash)%N) head then head else rstrip (fun c => (c =? slash)%N) head.

(** [os.path.join(a, b)]. *)
Definition os_join (a b : list N) : list N :=
  if prefixb sep b then b
  else if bool_decide (a = []) || prefixb sep (reverse a) then a ++ b
  else a ++ sep ++ b.

Definition filled (parts : list (list N)) : list (list N) := List.filter (fun x => negb (bool_decide (x = []))) parts.

Fixpoint common (a b : list (list N)) : nat :=
  match a, b with
  | x :: a, y :: b => if decide (x = y) then S (common a b) else 0
  | _, _ => 0
  end.

(** [os.path.relpath(path, start)]. *)
Definition relpath (cwd path start : list N) : res (list N) :=
  if bool_decide (path = []) then Raise (ValueError (lit "no path specified"))
  else
    let start_list := filled (split_on slash (abspath cwd start)) in
    let path_list := filled (split_on slash (abspath cwd path)) in
    let i := common start_list path_list in
    match replicate (length start_list - i) dotdot ++ drop i path_list with
    | [] => Ok [dot]
    | first :: rest => Ok (foldl os_join first rest)
    end.

Example relpath_inside : relpath (lit "/app") (lit "/media/movies/Film/Film.mkv") (lit "/media/movies/") = Ok (lit "Film/Film.mkv").
Proof. vm_compute. reflexivity. Qed.
Example relpath_outside : relpath (lit "/app") (lit "/media/tv/x") (lit "/media/movies") = Ok (lit "../tv/x").
Proof. vm_compute. reflexivity. Qed.
Example relpath_same : relpath (lit "/app") (lit "data") (lit "/app/data") = Ok [dot].
Proof. vm_compute. reflexivity. Qed.
Example dirname_of : dirname (lit "/m//Old") = lit "/m" /\ basename (lit "/m//Old") = lit "Old".
Proof. vm_compute. split; reflexivity. Qed.

(** [pathlib]: [p.parent], [p.name] of a path given as text, and [str(Path(p))]. *)
Definition path_parent (p : path) : path :=
  match path_tail p with [] => p | t => Path (path_root p) (removelast t) end.
Definition parent_of (p : list N) : list N := path_str (path_parent (posix_path p)).
Definition name_of (p : list N) : list N := path_name (posix_path p).
Definition fspath (p : list N) : list N := path_str (posix_path p).
