(* ===== verification/DecisionEngine.v ===== *)
(** * The decision engine ([domain/decision_engine.py])

    The pipeline over the candidates of a search: parse, identity gate, scope
    gates, quality gate, pack policy, blocklist, then the ranking.  The parser,
    the identity test and the blocklist test are the caller's, as in the code. *)

From Stdlib Require Import ZArith Lia Bool String Sorted Permutation SpecFloat.
From S2P Require Import Prelude PyStr PyNum Quality Release SourceMapping SeasonPack.

#[local] Open Scope bool_scope.

Definition _PACK_SCOPES : list ReleaseScope := [season_pack].
Definition _MULTI_SEASON_SCOPE : ReleaseScope := multi_season_pack.

Record ScoredRelease := {
  sr_candidate : CandidateRelease;
  sr_parsed : ParsedRelease;
  sr_quality : Quality;
  sr_profile_index : Z;
  sr_score : spec_float;
  sr_covered_seasons : list Z;
  sr_target_seasons : list Z;
  sr_upgrade_seasons : list Z;
  sr_waste_seasons : list Z;
  sr_ignored_seasons : list Z;
  sr_skipped_seasons : list Z;
}.

Record DecisionResult := {
  de_accepted : list ScoredRelease;
  de_rejected : list (CandidateRelease * RejectionReason);
  de_no_acceptable_release : bool;
}.

(** [model_copy(update={"score": score})]. *)
Definition with_score (s : ScoredRelease) (score : spec_float) : ScoredRelease :=
  {| sr_candidate := sr_candidate s; sr_parsed := sr_parsed s; sr_quality := sr_quality s;
     sr_profile_index := sr_profile_index s; sr_score := score;
     sr_covered_seasons := sr_covered_seasons s; sr_target_seasons := sr_target_seasons s;
     sr_upgrade_seasons := sr_upgrade_seasons s; sr_waste_seasons := sr_waste_seasons s;
     sr_ignored_seasons := sr_ignored_seasons s; sr_skipped_seasons := sr_skipped_seasons s |}.

Section decide.
Variable parse : list N -> ParsedRelease.
Variable profile : QualityProfile.
Variable media_match is_blocklisted : CandidateRelease -> ParsedRelease -> bool.
Variable prefer_season_pack : bool.
Variable multi_season_intent : option MultiSeasonRequestIntent.
Variable episode_subset : option (list Z).

Definition plan_field (f : MultiSeasonPackPlan -> list Z) (plan : option MultiSeasonPackPlan) : list Z :=
  match plan with Some p => f p | None => [] end.

(** The release appended to [accepted], before its score is known. *)
Definition accept (candidate : CandidateRelease) (parsed : ParsedRelease) (quality : Quality)
    (plan : option MultiSeasonPackPlan) : ScoredRelease :=
  {| sr_candidate := candidate; sr_parsed := parsed; sr_quality := quality;
     sr_profile_index := match get_index profile (q_id quality) with
                         | Some i => Z.of_nat i
                         | None => (-1)%Z
                         end;
     sr_score := f_zero;
     sr_covered_seasons := plan_field mp_covered_seasons plan;
     sr_target_seasons := plan_field mp_target_seasons plan;
     sr_upgrade_seasons := plan_field mp_upgrade_seasons plan;
     sr_waste_seasons := plan_field mp_waste_seasons plan;
     sr_ignored_seasons := plan_field mp_ignored_seasons plan;
     sr_skipped_seasons := plan_field (fun p => mp_waste_seasons p ++ mp_ignored_seasons p) plan |}.

(** The body of the loop: the first gate that refuses gives the reason. *)
Definition judge (candidate : CandidateRelease) : RejectionReason + ScoredRelease :=
  let parsed := parse (cr_title candidate) in
  if negb (media_match candidate parsed) then inl WRONG_MEDIA
  else
    let scope := classify_release_scope parsed in
    let is_multi := bool_decide (scope = _MULTI_SEASON_SCOPE) in
    let has_intent := match multi_season_intent with Some _ => true | None => false end in
    if is_multi && negb has_intent then inl MULTI_SEASON_PACK
    else if prefer_season_pack && negb (mem scope _PACK_SCOPES) && negb (is_multi && has_intent) then
      inl NOT_SEASON_PACK
    else if match episode_subset with
            | Some subset =>
                let eps := episode_numbers (pr_episode parsed) in
                bool_decide (eps = []) || negb (subsetb eps subset)
            | None => false
            end then inl EPISODE_NOT_NEEDED
    else
      let quality := resolve_quality (pr_source parsed) (pr_resolution parsed) (pr_modifier parsed) in
      let verdict := check_quality quality profile in
      if negb (qv_accepted verdict) then inl (default QUALITY_NOT_WANTED (qv_reason verdict))
      else
        let blocklist_then plan :=
          if is_blocklisted candidate parsed then inl BLOCKLISTED
          else inr (accept candidate parsed quality plan) in
        if is_multi then
          match multi_season_intent with
          | None => inl MULTI_SEASON_PACK
          | Some intent =>
              let season_numbers :=
                match pr_season parsed with Numbers l => l | _ => [] end in
              let plan := plan_multi_season_pack season_numbers (q_id quality) profile intent in
              if negb (mp_accepted plan) then inl MULTI_SEASON_PACK else blocklist_then (Some plan)
          end
        else blocklist_then None.

Definition collect (acc : list ScoredRelease * list (CandidateRelease * RejectionReason))
    (candidate : CandidateRelease)
    : list ScoredRelease * list (CandidateRelease * RejectionReason) :=
  match judge candidate with
  | inl reason => (fst acc, snd acc ++ [(candidate, reason)])
  | inr scored => (fst acc ++ [scored], snd acc)
  end.

(** [(x > y) - (x < y)]. *)
Definition sign_Z (x y : Z) : Z := (Z.b2z (y <? x) - Z.b2z (x <? y))%Z.

Definition _compare (left right : ScoredRelease) : Z :=
  let by_quality := compare_by_profile (sr_quality left) (sr_quality right) profile in
  if negb (by_quality =? 0)%Z then by_quality
  else
    let left_pack := mem (classify_release_scope (sr_parsed left)) _PACK_SCOPES in
    let right_pack := mem (classify_release_scope (sr_parsed right)) _PACK_SCOPES in
    if prefer_season_pack && negb (Bool.eqb left_pack right_pack) then
      if left_pack then 1%Z else (-1)%Z
    else
      let left_seeders := or_zero (cr_seeders (sr_candidate left)) in
      let right_seeders := or_zero (cr_seeders (sr_candidate right)) in
      if negb (left_seeders =? right_seeders)%Z then sign_Z left_seeders right_seeders
      else sign_Z (cr_size_bytes (sr_candidate left)) (cr_size_bytes (sr_candidate right)).

(** [K(x) < K(y)] of [cmp_to_key(_compare)]. *)
Definition worse (x y : ScoredRelease) : bool := (_compare x y <? 0)%Z.

(** [enumerate]: the scores count down from the number of releases to 1. *)
Fixpoint rank_scores (n : nat) (l : list ScoredRelease) : list ScoredRelease :=
  match l with
  | [] => []
  | s :: l' => with_score s (float_of_int (Z.of_nat n)) :: rank_scores (n - 1) l'
  end.

Definition decide (candidates : list CandidateRelease) : DecisionResult :=
  let '(accepted, rejected) := foldl collect ([], []) candidates in
  let sorted := py_sort (flip_lt worse) accepted in
  let ranked := rank_scores (length sorted) sorted in
  {| de_accepted := ranked; de_rejected := rejected;
     de_no_acceptable_release := match ranked with [] => true | _ => false end |}.

(** ** The ranking order *)

Definition pack_key (s : ScoredRelease) : Z :=
  if prefer_season_pack then Z.b2z (mem (classify_release_scope (sr_parsed s)) _PACK_SCOPES) else 0%Z.

(** [x] ranks strictly below [y]: profile order, then packs (when preferred),
    then seeders, then size. *)
Definition below (x y : ScoredRelease) : Prop :=
  let px := Z.of_nat (profile_rank profile (sr_quality x)) in
  let py := Z.of_nat (profile_rank profile (sr_quality y)) in
  let sx := or_zero (cr_seeders (sr_candidate x)) in
  let sy := or_zero (cr_seeders (sr_candidate y)) in
  (px < py \/ px = py /\ (pack_key x < pack_key y \/ pack_key x = pack_key y /\
    (sx < sy \/ sx = sy /\ cr_size_bytes (sr_candidate x) < cr_size_bytes (sr_candidate y))))%Z.

Lemma sign_Z_neg x y : (sign_Z x y <? 0)%Z = (x <? y)%Z.
Proof.
  unfold sign_Z. destruct (Z.ltb_spec y x), (Z.ltb_spec x y); cbn; try done; lia.
Qed.

Lemma worse_below x y : worse x y = true <-> below x y.
Proof.
  unfold worse, _compare, below, pack_key. rewrite compare_by_profile_rank.
  pose proof (sign_of_spec (profile_rank profile (sr_quality x)) (profile_rank profile (sr_quality y))) as Hq.
  destruct (Z.eqb_spec (sign_of (profile_rank profile (sr_quality x))
    (profile_rank profile (sr_quality y))) 0) as [Hz|Hz]; cbn [negb]; [|rewrite Z.ltb_lt; lia].
  assert (profile_rank profile (sr_quality x) = profile_rank profile (sr_quality y)) as -> by lia.
  clear Hq Hz.
  destruct prefer_season_pack; cbn [andb].
  - destruct (mem _ _PACK_SCOPES), (mem _ _PACK_SCOPES); cbn [Bool.eqb negb Z.b2z];
      [| rewrite Z.ltb_lt; lia | rewrite Z.ltb_lt; lia |];
      (destruct (Z.eqb_spec (or_zero (cr_seeders (sr_candidate x)))
        (or_zero (cr_seeders (sr_candidate y)))); cbn [negb]; rewrite sign_Z_neg, Z.ltb_lt; lia).
  - destruct (Z.eqb_spec (or_zero (cr_seeders (sr_candidate x)))
      (or_zero (cr_seeders (sr_candidate y)))); cbn [negb]; rewrite sign_Z_neg, Z.ltb_lt; lia.
Qed.

#[local] Instance worse_weak : WeakOrder worse.
Proof.
  split.
  - intros x y. rewrite <- not_true_iff_false, !worse_below. unfold below. lia.
  - intros x y z. rewrite <- !not_true_iff_false, !worse_below. unfold below. lia.
Qed.

(** ** The loop *)

Definition accepted_of (candidates : list CandidateRelease) : list ScoredRelease :=
  omap (fun c => match judge c with inr s => Some s | inl _ => None end) candidates.
Definition rejected_of (candidates : list CandidateRelease) : list (CandidateRelease * RejectionReason) :=
  omap (fun c => match judge c with inl r => Some (c, r) | inr _ => None end) candidates.

Lemma collect_fold acc candidates :
  foldl collect acc candidates =
  (fst acc ++ accepted_of candidates, snd acc ++ rejected_of candidates).
Proof.
  revert acc; induction candidates as [|c cs IH]; intros [a r]; cbn.
  - by rewrite !app_nil_r.
  - rewrite IH. unfold collect. destruct (judge c); cbn; by rewrite <- ?app_assoc.
Qed.

Lemma decide_eq candidates :
  decide candidates =
  {| de_accepted := rank_scores (length (accepted_of candidates))
                      (py_sort (flip_lt worse) (accepted_of candidates));
     de_rejected := rejected_of candidates;
     de_no_acceptable_release := match accepted_of candidates with [] => true | _ => false end |}.
Proof.
  unfold decide. rewrite collect_fold. cbn [fst snd app]. cbv zeta. rewrite length_py_sort.
  f_equal. pose proof (length_py_sort (flip_lt worse) (accepted_of candidates)) as Hl.
  destruct (accepted_of candidates) as [|s l]; [done|].
  by destruct (py_sort (flip_lt worse) (s :: l)).
Qed.

(** Scores change nothing else. *)
Lemma rank_scores_map {B} (f : ScoredRelease -> B) n l :
  (forall s x, f (with_score s x) = f s) -> f <$> rank_scores n l = f <$> l.
Proof.
  intros Hf. revert n; induction l as [|s l IH]; intros n; [done|]. cbn. by rewrite Hf, IH.
Qed.

Lemma judge_candidate c s : judge c = inr s -> sr_candidate s = c.
Proof. unfold judge. repeat (case_match; try done); intros [= <-]; done. Qed.

Lemma decided_permutation candidates :
  (sr_candidate <$> accepted_of candidates) ++ (rejected_of candidates).*1 ≡ₚ candidates.
Proof.
  induction candidates as [|c cs IH]; [done|]. cbn.
  destruct (judge c) as [r|s] eqn:Hj; cbn.
  - rewrite <- Permutation_middle. by rewrite IH.
  - rewrite (judge_candidate _ _ Hj). cbn. by rewrite IH.
Qed.

Lemma in_accepted candidates s :
  s ∈ de_accepted (decide candidates) ->
  exists c s0 score, c ∈ candidates /\ judge c = inr s0 /\ s = with_score s0 score.
Proof.
  rewrite decide_eq. cbn [de_accepted]. intros Hs.
  assert (exists s0 score, s0 ∈ py_sort (flip_lt worse) (accepted_of candidates) /\
    s = with_score s0 score) as (s0 & score & Hs0 & ->).
  { revert Hs. generalize (length (accepted_of candidates)).
    induction (py_sort (flip_lt worse) (accepted_of candidates)) as [|t l IH]; intros n; cbn;
      [by intros ?%not_elem_of_nil|].
    intros [->|Hs]%elem_of_cons; [exists t; eexists; split; [left|done]|].
    destruct (IH _ Hs) as (s0 & sc & Hin & ->). exists s0, sc. split; [by right|done]. }
  apply elem_of_py_sort in Hs0. unfold accepted_of in Hs0.
  apply list_elem_of_omap in Hs0 as (c & Hc & Hj).
  destruct (judge c) as [|s1] eqn:Hjc; [done|]. injection Hj as ->. eauto 6.
Qed.

(** ** What the gates let through *)

(** The plan of a multi-season candidate under an intent. *)
Definition plan_of (intent : MultiSeasonRequestIntent) (parsed : ParsedRelease) : MultiSeasonPackPlan :=
  plan_multi_season_pack (match pr_season parsed with Numbers l => l | _ => [] end)
    (q_id (quality_of parsed)) profile intent.

(** The candidate names the wanted media, is not blocklisted, has an allowed
    quality, and its scope is one the request asks for. *)
Definition admissible (c : CandidateRelease) : Prop :=
  let parsed := parse (cr_title c) in
  let scope := classify_release_scope parsed in
  media_match c parsed = true /\ is_blocklisted c parsed = false /\
  qv_accepted (check_quality (quality_of parsed) profile) = true /\
  (scope = multi_season_pack ->
     exists intent, multi_season_intent = Some intent /\ mp_accepted (plan_of intent parsed) = true) /\
  (prefer_season_pack = true -> scope = season_pack \/ scope = multi_season_pack) /\
  (forall subset, episode_subset = Some subset ->
     episode_numbers (pr_episode parsed) <> [] /\ episode_numbers (pr_episode parsed) ⊆ subset).

Definition subset_ok (parsed : ParsedRelease) : bool :=
  match episode_subset with
  | Some subset =>
      let eps := episode_numbers (pr_episode parsed) in
      negb (bool_decide (eps = []) || negb (subsetb eps subset))
  | None => true
  end.

Lemma subset_ok_iff parsed :
  subset_ok parsed = true <->
  (forall subset, episode_subset = Some subset ->
     episode_numbers (pr_episode parsed) <> [] /\ episode_numbers (pr_episode parsed) ⊆ subset).
Proof.
  unfold subset_ok. destruct episode_subset as [l|]; [|naive_solver]. cbv zeta.
  rewrite negb_true_iff, orb_false_iff, bool_decide_eq_false, negb_false_iff, subsetb_true.
  naive_solver.
Qed.

Lemma is_multi_eq scope :
  bool_decide (scope = _MULTI_SEASON_SCOPE) =
  match scope with multi_season_pack => true | _ => false end.
Proof. by destruct scope. Qed.

Lemma in_pack_scopes scope :
  mem scope _PACK_SCOPES = match scope with season_pack => true | _ => false end.
Proof. by destruct scope. Qed.

(** One combination of gate outcomes. *)
Ltac gate_step :=
  split;
  [ intros [? HX]; try discriminate HX; repeat split; try done; try (intros; discriminate);
    try (intros _; eauto)
  | intros (H1 & H2 & H3 & H4 & H5 & H6); first
    [ discriminate | by eexists
    | destruct (H4 eq_refl) as (? & [= <-] & Ha); congruence
    | destruct (H4 eq_refl) as (? & ? & Ha); congruence
    | destruct (H5 eq_refl); discriminate ] ].

Lemma judge_admissible c : (exists s, judge c = inr s) <-> admissible c.
Proof.
  unfold admissible. cbv zeta. rewrite <- subset_ok_iff. unfold judge, plan_of, quality_of.
  set (parsed := parse (cr_title c)). cbv zeta.
  assert (Hsub : match episode_subset with
    | Some subset => bool_decide (episode_numbers (pr_episode parsed) = [])
                     || negb (subsetb (episode_numbers (pr_episode parsed)) subset)
    | None => false end = negb (subset_ok parsed))
    by (unfold subset_ok; destruct episode_subset; by rewrite ?negb_involutive).
  rewrite Hsub. clear Hsub.
  generalize (subset_ok parsed) as sub_ok. intros sub_ok.
  rewrite is_multi_eq, in_pack_scopes.
  destruct (media_match c parsed), (qv_accepted _), (is_blocklisted c parsed),
    (classify_release_scope parsed), multi_season_intent as [intent|], prefer_season_pack, sub_ok;
    cbn; try solve [gate_step];
    (destruct (mp_accepted _) eqn:Hp; cbn; gate_step).
Qed.

Lemma decide_accepts c candidates :
  c ∈ (sr_candidate <$> de_accepted (decide candidates)) <-> c ∈ candidates /\ exists s, judge c = inr s.
Proof.
  rewrite list_elem_of_fmap. split.
  - intros (s & -> & Hs). apply in_accepted in Hs as (c & s0 & score & Hc & Hj & ->).
    cbn. rewrite (judge_candidate _ _ Hj). eauto.
  - intros [Hc [s Hj]]. assert (s ∈ accepted_of candidates) as Hs.
    { apply list_elem_of_omap. exists c. by rewrite Hj. }
    rewrite <- (elem_of_py_sort (flip_lt worse)) in Hs.
    rewrite decide_eq. cbn [de_accepted].
    assert (c ∈ (sr_candidate <$> rank_scores (length (accepted_of candidates))
      (py_sort (flip_lt worse) (accepted_of candidates)))) as Hin.
    { rewrite rank_scores_map by done. apply list_elem_of_fmap. exists s.
      split; [|done]. symmetry. by apply judge_candidate. }
    by apply list_elem_of_fmap in Hin.
Qed.

(** A decision loses nothing and invents nothing: the accepted and the
    rejected candidates are together the candidates of the search, each exactly
    as often; and [no_acceptable_release] says whether the accepted list is
    empty. *)
Theorem every_candidate_is_decided_once candidates :
  (sr_candidate <$> de_accepted (decide candidates)) ++ (de_rejected (decide candidates)).*1
    ≡ₚ candidates /\
  (de_no_acceptable_release (decide candidates) = true <-> de_accepted (decide candidates) = []).
Proof.
  rewrite decide_eq. cbn [de_accepted de_rejected de_no_acceptable_release]. split.
  - rewrite rank_scores_map by done. rewrite <- (decided_permutation candidates) at 3.
    apply Permutation_app; [|done]. apply fmap_Permutation, py_sort_perm.
  - pose proof (length_py_sort (flip_lt worse) (accepted_of candidates)) as Hl.
    destruct (accepted_of candidates) as [|s l], (py_sort (flip_lt worse) _) as [|t l'];
      try done; naive_solver.
Qed.

(** C28: a candidate is accepted exactly when it is admissible: it names the
    wanted media, is not blocklisted, its quality is allowed by the profile, a
    multi-season pack is wanted and useful, a whole-season request gets a pack,
    and an episode fallback gets only episodes still missing.  There is no
    relaxed fallback. *)
Theorem accepted_iff_admissible candidates c :
  c ∈ (sr_candidate <$> de_accepted (decide candidates)) <-> c ∈ candidates /\ admissible c.
Proof. by rewrite decide_accepts, judge_admissible. Qed.

(** C29: the accepted releases are ranked: no release stands before one that
    beats it on profile order, then (for a season request) on being a pack, then
    on seeders, then on size; equal releases keep the order of the search; and
    the displayed scores count down to 1 in that order. *)
Theorem accepted_is_ranked candidates :
  StronglySorted (fun x y => ~ below x y) (de_accepted (decide candidates)) /\
  (forall a, sr_candidate <$> List.filter (tied worse a) (de_accepted (decide candidates)) =
             sr_candidate <$> List.filter (tied worse a) (accepted_of candidates)) /\
  sr_score <$> de_accepted (decide candidates) =
    (fun n => float_of_int (Z.of_nat n)) <$>
      reverse (seq 1 (length (de_accepted (decide candidates)))).
Proof.
  rewrite decide_eq. cbn [de_accepted].
  pose proof (py_sort_sorted (flip_lt worse) (accepted_of candidates)) as Hsorted.
  pose proof (fun a => py_sort_stable (flip_lt worse) a (accepted_of candidates)) as Hstable.
  pose proof (length_py_sort (flip_lt worse) (accepted_of candidates)) as Hlen.
  rewrite <- Hlen. revert Hsorted Hstable. clear Hlen.
  generalize (py_sort (flip_lt worse) (accepted_of candidates)) as l.
  intros l Hsorted Hstable. split; [|split].
  - clear Hstable. generalize (length l).
    induction Hsorted as [|s l Hs IH Hall]; intros n; cbn; constructor; [done|].
    clear IH Hs. revert n. induction Hall as [|t l Ht Hall IH]; intros n; cbn; constructor.
    + unfold sort_le, flip_lt in Ht. rewrite <- worse_below. unfold below in *.
      apply not_true_iff_false. exact Ht.
    + specialize (IH (n - 1)). exact IH.
  - intros a. specialize (Hstable a).
    assert (Htied : forall x, tied (flip_lt worse) a x = tied worse a x)
      by (intros x; unfold tied, flip_lt; apply andb_comm).
    rewrite (List.filter_ext _ _ Htied), (List.filter_ext _ _ Htied) in Hstable.
    rewrite <- Hstable. generalize (length l). clear.
    induction l as [|s l IH]; intros n; [done|]. cbn.
    change (tied worse a (with_score s (float_of_int (Z.of_nat n)))) with (tied worse a s).
    destruct (tied worse a s); cbn; by rewrite IH.
  - clear. assert (Hlen : forall n l, length (rank_scores n l) = length l).
    { intros n l'. revert n. induction l' as [|s l' IH]; intros n; cbn; [done|]. by rewrite IH. }
    rewrite Hlen. induction l as [|s l IH]; [done|]. cbn [length rank_scores].
    rewrite fmap_cons, seq_S, reverse_snoc. cbn [Nat.sub fmap list_fmap].
    rewrite Nat.sub_0_r. f_equal. exact IH.
Qed.
End decide.

(** C1: end to end, no CAM, telesync, telecine, workprint, screener or regional
    release is ever accepted: with the default profile and the program's parser,
    a candidate whose title carries a reject word is not among the accepted
    ones, whatever the title library, the request and the search return. *)
Theorem reject_word_is_never_accepted {DB : UnicodeDB} guessit mm bl prefer intent subset candidates c :
  carries_reject_word (cr_title c) ->
  c ∉ (sr_candidate <$> de_accepted
         (decide (parse guessit) default_profile mm bl prefer intent subset candidates)).
Proof.
  intros Hw Hin. apply decide_accepts in Hin as [_ Hj]. apply judge_admissible in Hj.
  destruct Hj as (_ & _ & Hq & _). apply reject_word_hits in Hw.
  apply (net_hit_rejected (catch (guessit (cr_title c)) (fun _ => ∅))) in Hw.
  unfold default_accepts in Hw. unfold parse in Hq. congruence.
Qed.

(** ** Concrete runs *)

Section examples.
#[local] Existing Instance ascii_db.

Definition ex_candidate (title : string) (seeders : Z) : CandidateRelease :=
  {| cr_guid := lit title; cr_title := lit title; cr_size_bytes := 1; cr_download_url := None;
     cr_magnet_url := None; cr_info_hash := None; cr_seeders := Some seeders; cr_leechers := None;
     cr_indexer_id := 1; cr_indexer_name := lit "idx"; cr_indexer_priority := 25;
     cr_publish_date := 0; cr_imdb_id := 0; cr_tmdb_id := 0; cr_categories := [];
     cr_protocol := lit "torrent" |}.

Definition always (b : bool) (_ : CandidateRelease) (_ : ParsedRelease) : bool := b.

Definition cam_title : string := "Film.2024.HDCAM".

Lemma reject_word_is_never_accepted_witness :
  (ex_candidate cam_title 900 ∉ (sr_candidate <$> de_accepted
    (decide (parse web_parser) default_profile (always true) (always false) false None None
       [ex_candidate cam_title 900; ex_candidate "Film.2024.1080p" 2]))) /\
  length (de_accepted
    (decide (parse web_parser) default_profile (always true) (always false) false None None
       [ex_candidate cam_title 900; ex_candidate "Film.2024.1080p" 2])) = 1.
Proof.
  split; [|vm_compute; reflexivity].
  apply reject_word_is_never_accepted. right. exists "HD"%string, "CAM"%string.
  split; [apply mem_true; reflexivity|].
  exists (lit "Film.2024."), (lit "HD"), [], (lit "CAM"), [].
  do 3 (split; [reflexivity|]). split; [by left|]. split; reflexivity.
Defined.

(** A parser that reads [S01] as one season and any other title as two. *)
Definition season_parser (title : list N) : ParsedRelease :=
  let base := to_parsed_release
    (dict_of [(lit "source", ObjStr (lit "Web")); (lit "screen_size", ObjStr (lit "1080p"));
              (lit "season", if bool_decide (title = lit "S01") then ObjInt 1
                             else ObjList [ObjInt 1; ObjInt 2])]) title in base.

Definition two_season_intent : MultiSeasonRequestIntent :=
  {| mi_mode := whole_show; mi_requested_seasons := [];
     mi_seasons := [ex_state 1 "pending"; ex_state 2 "pending"] |}.

(** For a season request with a multi-season intent both kinds of pack are
    accepted, and the pack test of the ranking decides between them: the
    single-season pack wins against more seeders. *)
Lemma pack_tie_break_fires :
  ((cr_title ∘ sr_candidate) <$> de_accepted
    (decide season_parser default_profile (always true) (always false) true
       (Some two_season_intent) None [ex_candidate "S01-S02" 50; ex_candidate "S01" 1]))
  = [lit "S01"; lit "S01-S02"].
Proof. vm_compute. reflexivity. Qed.
End examples.
