(* ===== verification/SeasonRollup.v ===== *)
(** * The status of a show ([domain/season_rollup.py])

    The fold of the tracked seasons' statuses into the parent request's. *)

From Stdlib Require Import ZArith Lia Bool String.
From S2P Require Import Prelude PyStr.

#[local] Open Scope bool_scope.

Definition _PRECEDENCE_STATUSES : list (list N) :=
  [lit "import_blocked"; lit "downloading"; lit "searching"; lit "no_acceptable_release";
   lit "completed"].

Definition _VALID_SEASON_STATUSES : list (list N) :=
  [lit "pending"; lit "searching"; lit "no_acceptable_release"; lit "waiting_for_air_date";
   lit "downloading"; lit "completed"; lit "available"; lit "failed"; lit "import_blocked";
   lit "evicted"; lit "cancelled"].

(** [statuses == {s}] for a non-empty list. *)
Definition all_are (s : list N) (statuses : list (list N)) : bool :=
  forallb (fun t => bool_decide (t = s)) statuses.

(** [statuses <= allowed]. *)
Definition within (allowed statuses : list (list N)) : bool :=
  forallb (fun t => mem t allowed) statuses.

Definition first_in (order statuses : list (list N)) : option (list N) :=
  List.find (fun s => mem s statuses) order.

Section rollup.
Context {DB : UnicodeDB}.

(** [f"{names!r}"] of a list of strings. *)
Definition repr_strs (names : list (list N)) : list N :=
  lit "[" ++ join (lit ", ") (py_repr <$> names) ++ lit "]".

Definition rollup_status (season_statuses : list (list N)) : res (list N) :=
  match season_statuses with
  | [] => Raise (ValueError (lit "rollup_status requires at least one season status"))
  | _ =>
      let statuses := season_statuses in
      let unknown := List.filter (fun s => negb (mem s _VALID_SEASON_STATUSES)) statuses in
      match unknown with
      | _ :: _ =>
          Raise (ValueError (lit "rollup_status received unknown or parent-only season status value(s): "
                             ++ repr_strs (sorted_strs unknown)))
      | [] =>
          match first_in _PRECEDENCE_STATUSES statuses with
          | Some status => Ok status
          | None =>
              if all_are (lit "evicted") statuses then Ok (lit "evicted")
              else if all_are (lit "cancelled") statuses then Ok (lit "cancelled")
              else if all_are (lit "waiting_for_air_date") statuses then Ok (lit "waiting_for_air_date")
              else if within [lit "available"; lit "evicted"; lit "cancelled"] statuses
                      && mem (lit "available") statuses then
                if all_are (lit "available") statuses then Ok (lit "available")
                else Ok (lit "partially_available")
              else if mem (lit "available") statuses then Ok (lit "partially_available")
              else if mem (lit "pending") statuses then Ok (lit "pending")
              else if mem (lit "waiting_for_air_date") statuses then Ok (lit "waiting_for_air_date")
              else Ok (lit "failed")
          end
      end
  end.

(** ** Lemmas *)

Lemma first_in_Some order statuses s :
  first_in order statuses = Some s -> s ∈ order /\ s ∈ statuses.
Proof.
  unfold first_in. intros H. apply List.find_some in H as [Hin Hm].
  split; [by apply list_elem_of_In | by apply mem_true].
Qed.

Lemma first_in_None order statuses :
  first_in order statuses = None <-> forall s, s ∈ order -> s ∉ statuses.
Proof.
  unfold first_in. split.
  - intros H s Hs. apply mem_false, (List.find_none _ _ H). by apply list_elem_of_In.
  - intros H. destruct (List.find _ order) as [s|] eqn:Hf; [|done].
    apply List.find_some in Hf as [Hin Hm]. apply list_elem_of_In in Hin.
    apply mem_true in Hm. by apply H in Hin.
Qed.

Lemma all_are_true s statuses : all_are s statuses = true <-> forall t, t ∈ statuses -> t = s.
Proof.
  unfold all_are. rewrite forallb_forall_iff. by setoid_rewrite bool_decide_eq_true.
Qed.

Lemma within_true allowed statuses : within allowed statuses = true <-> statuses ⊆ allowed.
Proof. unfold within. rewrite forallb_forall_iff. by setoid_rewrite mem_true. Qed.

Lemma mem_ext s (l l' : list (list N)) : (forall x, x ∈ l <-> x ∈ l') -> mem s l = mem s l'.
Proof. intros H. apply eq_true_iff_eq. by rewrite !mem_true. Qed.

Lemma all_are_ext s l l' : (forall x, x ∈ l <-> x ∈ l') -> all_are s l = all_are s l'.
Proof. intros H. apply eq_true_iff_eq. rewrite !all_are_true. by setoid_rewrite H. Qed.

Lemma within_ext a l l' : (forall x, x ∈ l <-> x ∈ l') -> within a l = within a l'.
Proof.
  intros H. apply eq_true_iff_eq. rewrite !within_true. unfold subseteq, list_subseteq.
  by setoid_rewrite H.
Qed.

Lemma first_in_ext order l l' : (forall x, x ∈ l <-> x ∈ l') -> first_in order l = first_in order l'.
Proof.
  intros H. unfold first_in. induction order as [|s order IH]; [done|]. simpl.
  by rewrite (mem_ext s l l' H), IH.
Qed.

(** A show's status depends only on which statuses its seasons have, not on
    their order or number, errors and their messages included. *)
Theorem rollup_depends_on_the_set l l' :
  (forall x, x ∈ l <-> x ∈ l') -> rollup_status l = rollup_status l'.
Proof.
  intros H. unfold rollup_status.
  destruct l as [|s l], l' as [|s' l']; [done|..].
  - exfalso. apply (not_elem_of_nil s'), H. left.
  - exfalso. apply (not_elem_of_nil s), H. left.
  - cbv zeta. set (a := s :: l) in *. set (b := s' :: l') in *.
    set (bad := fun s => negb (mem s _VALID_SEASON_STATUSES)).
    assert (Hf : forall x, x ∈ List.filter bad a <-> x ∈ List.filter bad b)
      by (intros x; rewrite !list_elem_of_In, !filter_In, <- !list_elem_of_In; by rewrite H).
    rewrite (sorted_strs_ext _ _ Hf), (first_in_ext _ a b H), (mem_ext _ a b H), (mem_ext _ a b H),
      (mem_ext _ a b H), !(all_are_ext _ a b H), (within_ext _ a b H).
    destruct (List.filter bad a) as [|x la], (List.filter bad b) as [|y lb]; [|..|done].
    + done.
    + exfalso. apply (not_elem_of_nil y), Hf. left.
    + exfalso. apply (not_elem_of_nil x), Hf. left.
Qed.

(** The rollup refuses to guess: it raises exactly for a show without
    seasons or with a status outside the vocabulary of seasons, in particular
    for its own output [partially_available]. *)
Theorem rollup_raises_iff l :
  (exists m, rollup_status l = Raise (ValueError m)) <->
  l = [] \/ exists s, s ∈ l /\ s ∉ _VALID_SEASON_STATUSES.
Proof.
  unfold rollup_status. destruct l as [|s l]; [naive_solver|]. cbv zeta.
  set (a := s :: l).
  destruct (List.filter (fun s => negb (mem s _VALID_SEASON_STATUSES)) a) as [|x bad] eqn:Hf.
  - split.
    + intros [m Hm]. exfalso. revert Hm. repeat case_match; discriminate.
    + intros [?|(t & Ht & Hn)]; [discriminate|]. exfalso. apply (not_elem_of_nil t).
      rewrite <- Hf, list_elem_of_In, filter_In, <- list_elem_of_In. split; [done|].
      by apply negb_true_iff, mem_false.
  - split; [|eauto]. intros _. right. exists x.
    assert (x ∈ x :: bad) as Hx by left.
    rewrite <- Hf, list_elem_of_In, filter_In, <- list_elem_of_In in Hx.
    destruct Hx as [Hx Hn]. split; [done|]. by apply negb_true_iff, mem_false in Hn.
Qed.

(** The rollup is honest about what can be watched and what is going on.
    Activity in any season is shown, the most urgent first; without activity the
    show is [available] exactly when every season is, and [partially_available]
    exactly when some season is but not all: an evicted or cancelled season
    never makes a show look watchable. *)
Theorem rollup_is_honest l status :
  rollup_status l = Ok status ->
  let active := first_in _PRECEDENCE_STATUSES l in
  (forall s, active = Some s -> status = s) /\
  (active = None ->
     (status = lit "available" <-> forall s, s ∈ l -> s = lit "available") /\
     (status = lit "partially_available" <->
        lit "available" ∈ l /\ exists s, s ∈ l /\ s <> lit "available")).
Proof.
  unfold rollup_status. destruct l as [|s0 l0]; [done|]. cbv zeta.
  set (l := s0 :: l0). destruct (List.filter _ l) as [|? ?]; [|done].
  destruct (first_in _PRECEDENCE_STATUSES l) as [p|]; [by intros [= <-]; split; [intros ? [= <-]|]|].
  intros Hok. split; [done|]. intros _.
  assert (Hin : s0 ∈ l) by left.
  assert (Hall : forall w, all_are w l = true -> w <> lit "available" ->
    (lit "available" ∉ l) /\ ~ (forall s, s ∈ l -> s = lit "available")).
  { intros w Hw Hne. rewrite all_are_true in Hw. split.
    - intros Ha. apply Hw in Ha. congruence.
    - intros Hs. specialize (Hs s0 Hin). specialize (Hw s0 Hin). congruence. }
  assert (Hsome : all_are (lit "available") l = false ->
    (exists s, s ∈ l /\ s <> lit "available") /\ ~ (forall s, s ∈ l -> s = lit "available")).
  { intros Ha. rewrite <- not_true_iff_false, all_are_true in Ha. split; [|done].
    destruct (decide (Forall (fun s => s = lit "available") l)) as [Hf|Hf].
    - rewrite Forall_forall in Hf. done.
    - apply not_Forall_Exists in Hf; [|intros x; apply _].
      apply Exists_exists in Hf. done. }
  assert (Hnone : mem (lit "available") l = false ->
    (lit "available" ∉ l) /\ ~ (forall s, s ∈ l -> s = lit "available")).
  { intros Ha. apply mem_false in Ha. split; [done|]. intros Hs. apply Ha. by rewrite <- (Hs s0 Hin). }
  revert Hok.
  destruct (all_are (lit "evicted") l) eqn:H1;
    [destruct (Hall _ H1 ltac:(done)); intros [= <-]; naive_solver|].
  destruct (all_are (lit "cancelled") l) eqn:H2;
    [destruct (Hall _ H2 ltac:(done)); intros [= <-]; naive_solver|].
  destruct (all_are (lit "waiting_for_air_date") l) eqn:H3;
    [destruct (Hall _ H3 ltac:(done)); intros [= <-]; naive_solver|].
  destruct (mem (lit "available") l) eqn:Hm.
  - apply mem_true in Hm. rewrite andb_true_r.
    destruct (all_are (lit "available") l) eqn:Ha.
    + rewrite all_are_true in Ha.
      assert (within [lit "available"; lit "evicted"; lit "cancelled"] l = true) as ->
        by (apply within_true; intros x Hx; rewrite (Ha x Hx); left).
      intros [= <-]. naive_solver.
    + destruct (Hsome eq_refl) as [He Hn]. destruct (within _ l); intros [= <-]; naive_solver.
  - destruct (Hnone eq_refl). rewrite andb_false_r.
    destruct (mem (lit "pending") l); [intros [= <-]; naive_solver|].
    destruct (mem (lit "waiting_for_air_date") l); intros [= <-]; naive_solver.
Qed.
End rollup.

(** ** Witnesses *)

Section examples.
#[local] Existing Instance ascii_db.

Lemma rollup_depends_on_the_set_witness :
  rollup_status [lit "evicted"; lit "available"; lit "evicted"] = Ok (lit "partially_available").
Proof.
  rewrite (rollup_depends_on_the_set _ [lit "available"; lit "evicted"]); [reflexivity|].
  intros x. rewrite !elem_of_cons. naive_solver.
Defined.

Lemma rollup_is_honest_witness :
  rollup_status [lit "evicted"; lit "failed"] = Ok (lit "failed") /\
  (lit "failed" = lit "partially_available" <->
     lit "available" ∈ [lit "evicted"; lit "failed"] /\
     exists s, s ∈ [lit "evicted"; lit "failed"] /\ s <> lit "available").
Proof.
  split; [vm_compute; reflexivity|].
  apply (rollup_is_honest [lit "evicted"; lit "failed"]); vm_compute; reflexivity.
Defined.
End examples.
