(* ===== verification/Eviction.v ===== *)
(** * Disk-pressure eviction ([domain/eviction.py], [domain/disk_usage.py])

    Which watched titles may be reclaimed, in which order, and when the sweep
    stops.  Percentages are binary64 floats, computed as Python computes them. *)

From Stdlib Require Import ZArith Lia Bool String Sorted Permutation SpecFloat.
From S2P Require Import Prelude PyStr PyNum.

#[local] Open Scope bool_scope.

Definition _ELIGIBLE_STATUSES : list (list N) := [lit "available"; lit "partially_available"].

Record EvictionCandidate := {
  ev_request_id : Z;
  ev_media_type : list N;
  ev_title : list N;
  ev_season : option Z;
  ev_status : list N;
  ev_watched : bool;
  ev_last_viewed_at : option Z;
  ev_keep_forever : bool;
  ev_in_flight : bool;
  ev_library_path : option (list N);
  ev_size_percent : option spec_float;
  ev_watchlisted : bool;
}.

Definition _is_eligible (candidate : EvictionCandidate) (last_viewed_at grace_cutoff : Z) : bool :=
  mem (ev_status candidate) _ELIGIBLE_STATUSES
  && ev_watched candidate
  && (last_viewed_at <? grace_cutoff)%Z
  && negb (ev_keep_forever candidate)
  && negb (ev_watchlisted candidate)
  && negb (ev_in_flight candidate).

Definition is_evictable (candidate : EvictionCandidate) (grace_cutoff : Z) : bool :=
  match ev_last_viewed_at candidate with
  | None => false
  | Some last_viewed_at => _is_eligible candidate last_viewed_at grace_cutoff
  end.

Definition dated (candidates : list EvictionCandidate) (grace_cutoff : Z)
    : list (Z * EvictionCandidate) :=
  omap (fun candidate =>
    match ev_last_viewed_at candidate with
    | None => None
    | Some last_viewed_at =>
        if _is_eligible candidate last_viewed_at grace_cutoff
        then Some (last_viewed_at, candidate) else None
    end) candidates.

Definition rank_eviction_candidates (candidates : list EvictionCandidate) (grace_cutoff : Z)
    : list EvictionCandidate :=
  (py_sort (key_lt fst) (dated candidates grace_cutoff)).*2.

(** The loop over the ranked candidates. *)
Fixpoint pick (ranked : list EvictionCandidate) (projected target_pct : spec_float)
    : list EvictionCandidate :=
  match ranked with
  | [] => []
  | candidate :: rest =>
      if fle projected target_pct then []
      else candidate :: pick rest (fsub projected (default f_zero (ev_size_percent candidate))) target_pct
  end.

Definition select_evictions (candidates : list EvictionCandidate)
    (used_pct threshold_pct target_pct : spec_float) (grace_cutoff : Z) : list EvictionCandidate :=
  if flt used_pct threshold_pct then []
  else pick (rank_eviction_candidates candidates grace_cutoff) used_pct target_pct.

Definition pressure_relieved (used_pct : spec_float) (freed_bytes total_bytes : Z)
    (target_pct : spec_float) : res bool :=
  if (total_bytes <=? 0)%Z then Ok true
  else
    ratio ← int_div freed_bytes total_bytes;
    let freed_pct := fmul ratio (float_of_int 100) in
    Ok (fle (fsub used_pct freed_pct) target_pct).

Record DiskUsage := { du_root : list N; du_total_bytes : Z; du_available_bytes : Z }.

Definition used_percent (usage : DiskUsage) : res spec_float :=
  if (du_total_bytes usage <=? 0)%Z then Ok f_zero
  else
    let used_bytes := (du_total_bytes usage - du_available_bytes usage)%Z in
    ratio ← int_div used_bytes (du_total_bytes usage);
    Ok (fmul ratio (float_of_int 100)).

(** ** Lemmas *)

Lemma dated_spec candidates cutoff d c :
  (d, c) ∈ dated candidates cutoff <->
  c ∈ candidates /\ ev_last_viewed_at c = Some d /\ is_evictable c cutoff = true.
Proof.
  unfold dated, is_evictable. rewrite list_elem_of_omap. split.
  - intros (x & Hx & H). destruct (ev_last_viewed_at x) as [t|] eqn:Ht; [|done].
    destruct (_is_eligible x t cutoff) eqn:He; [|done]. injection H as <- <-.
    by rewrite Ht.
  - intros (Hin & Hd & He). exists c. split; [done|]. rewrite Hd in *. by rewrite He.
Qed.

Lemma dated_snd candidates cutoff :
  (dated candidates cutoff).*2 = List.filter (fun c => is_evictable c cutoff) candidates.
Proof.
  unfold dated. induction candidates as [|c l IH]; [done|]. cbn. unfold is_evictable at 1.
  destruct (ev_last_viewed_at c); [|done]. destruct (_is_eligible c _ cutoff); cbn; by rewrite IH.
Qed.

(** The view time of a ranked candidate ([0] never occurs, see [dated_spec]). *)
Definition viewed (c : EvictionCandidate) : Z := default 0%Z (ev_last_viewed_at c).

Lemma dated_fst p candidates cutoff : p ∈ dated candidates cutoff -> fst p = viewed (snd p).
Proof.
  destruct p as [d c]. intros (_ & Hd & _)%dated_spec. unfold viewed. cbn. by rewrite Hd.
Qed.

Lemma rank_sorted candidates cutoff :
  StronglySorted (fun x y => (viewed x <= viewed y)%Z) (rank_eviction_candidates candidates cutoff).
Proof.
  unfold rank_eviction_candidates.
  pose proof (py_sort_sorted (key_lt fst) (dated candidates cutoff)) as Hs.
  assert (Hfst : forall p, p ∈ py_sort (key_lt fst) (dated candidates cutoff) -> fst p = viewed (snd p))
    by (intros p Hp; apply elem_of_py_sort in Hp; by eapply dated_fst).
  induction Hs as [|p l Hs IH Hall]; cbn; constructor.
  - apply IH. intros q Hq. apply Hfst. by right.
  - apply Forall_fmap. rewrite Forall_forall in *. intros q Hq. specialize (Hall q Hq).
    unfold sort_le, key_lt in Hall. apply Z.ltb_ge in Hall. cbn.
    rewrite <- (Hfst p ltac:(left)), <- (Hfst q ltac:(by right)). done.
Qed.

(** The used percentage the loop projects after the first [k] picks. *)
Definition projected_after (used : spec_float) (picked : list EvictionCandidate) : spec_float :=
  foldl (fun p c => fsub p (default f_zero (ev_size_percent c))) used picked.

(** The picks are the shortest prefix that reaches the target. *)
Lemma pick_prefix ranked used target :
  exists k, pick ranked used target = take k ranked /\
    (forall j, (j < k)%nat -> fle (projected_after used (take j ranked)) target = false) /\
    (k = length ranked \/ (k < length ranked)%nat /\ fle (projected_after used (take k ranked)) target = true).
Proof.
  revert used; induction ranked as [|c rest IH]; intros used; cbn [pick].
  - exists 0%nat. split; [done|]. split; [lia|]. by left.
  - destruct (fle used target) eqn:Hle.
    + exists 0%nat. split; [done|]. split; [lia|]. right. cbn. split; [lia|done].
    + destruct (IH (fsub used (default f_zero (ev_size_percent c)))) as (k & -> & Hbefore & Hend).
      exists (S k). split; [done|]. split.
      * intros [|j] Hj; [done|]. apply Hbefore. lia.
      * cbn. destruct Hend as [->|[? ?]]; [by left|right; split; [lia|done]].
Qed.

(** A reclaimable movie viewed at [viewed_at] (for the examples and as a key). *)
Definition ex_title (n viewed_at : Z) (size : Z) : EvictionCandidate :=
  {| ev_request_id := n; ev_media_type := lit "movie"; ev_title := lit "T"; ev_season := None;
     ev_status := lit "available"; ev_watched := true; ev_last_viewed_at := Some viewed_at;
     ev_keep_forever := false; ev_in_flight := false; ev_library_path := None;
     ev_size_percent := Some (float_of_int size); ev_watchlisted := false |}.

(** ** Properties *)

(** The sweep's safety: whatever the pressure, only a candidate that was
    offered, is fully imported, fully watched, last viewed before the grace
    cutoff, and is neither pinned, watchlisted nor in flight is ever selected,
    and below the pressure threshold nothing is. *)
Theorem eviction_only_reclaims_watched_content candidates used threshold target cutoff c :
  c ∈ select_evictions candidates used threshold target cutoff ->
  flt used threshold = false /\ c ∈ candidates /\
  ev_status c ∈ _ELIGIBLE_STATUSES /\ ev_watched c = true /\
  (exists t, ev_last_viewed_at c = Some t /\ (t < cutoff)%Z) /\
  ev_keep_forever c = false /\ ev_watchlisted c = false /\ ev_in_flight c = false.
Proof.
  unfold select_evictions. destruct (flt used threshold); [by intros ?%not_elem_of_nil|].
  intros Hc. split; [done|].
  destruct (pick_prefix (rank_eviction_candidates candidates cutoff) used target) as (k & Hk & _).
  rewrite Hk in Hc. apply subseteq_take in Hc.
  assert (c ∈ (dated candidates cutoff).*2) as Hd.
  { unfold rank_eviction_candidates in Hc. by rewrite py_sort_perm in Hc. }
  apply list_elem_of_fmap in Hd as ([d c'] & -> & Hd). cbn.
  apply dated_spec in Hd as (Hin & Hv & He). split; [done|].
  unfold is_evictable in He. rewrite Hv in He. unfold _is_eligible in He. boolify.
  do 2 (split; [done|]). split; [eauto|done].
Qed.

(** The ranking is the eligible candidates, each as often as offered, the
    stalest view first, and candidates viewed at the same time keep their
    order. *)
Theorem ranking_is_stable_stalest_first candidates cutoff :
  let ranked := rank_eviction_candidates candidates cutoff in
  let eligible := List.filter (fun c => is_evictable c cutoff) candidates in
  ranked ≡ₚ eligible /\
  StronglySorted (fun x y => (viewed x <= viewed y)%Z) ranked /\
  (forall t, List.filter (fun c => (viewed c =? t)%Z) ranked =
             List.filter (fun c => (viewed c =? t)%Z) eligible).
Proof.
  cbv zeta. rewrite <- dated_snd. split; [|split].
  - unfold rank_eviction_candidates. by rewrite py_sort_perm.
  - apply rank_sorted.
  - intros t. unfold rank_eviction_candidates.
    pose (a := (t, ex_title 0 t 0)).
    assert (Hfilter : forall l, (forall p, p ∈ l -> fst p = viewed (snd p)) ->
      List.filter (fun c => (viewed c =? t)%Z) l.*2 = (List.filter (tied (key_lt fst) a) l).*2).
    { induction l as [|p l IH]; intros Hl; [done|]. cbn.
      rewrite IH by (intros q Hq; apply Hl; by right).
      assert (tied (key_lt fst) a p = (viewed (snd p) =? t)%Z) as Ht.
      { unfold tied, key_lt, a. cbn. rewrite <- (Hl p ltac:(left)).
        destruct (Z.ltb_spec t (fst p)), (Z.ltb_spec (fst p) t), (Z.eqb_spec (fst p) t);
          cbn; (done || lia). }
      rewrite <- Ht. by destruct (tied _ a p). }
    rewrite !Hfilter; [by rewrite (py_sort_stable (key_lt fst) a)|..].
    + intros p. apply dated_fst.
    + intros p Hp. apply elem_of_py_sort in Hp. by eapply dated_fst.
Qed.

(** Under pressure the sweep picks the shortest prefix of the ranking that
    reaches the target: before every pick the projected usage was still above
    the target, and it stops either there or with the ranking exhausted, never
    picking out of order. *)
Theorem sweep_is_the_shortest_prefix candidates used threshold target cutoff :
  flt used threshold = false ->
  let ranked := rank_eviction_candidates candidates cutoff in
  exists k, select_evictions candidates used threshold target cutoff = take k ranked /\
    (forall j, (j < k)%nat -> fle (projected_after used (take j ranked)) target = false) /\
    (k = length ranked \/
     (k < length ranked)%nat /\ fle (projected_after used (take k ranked)) target = true).
Proof. intros Hp. unfold select_evictions. rewrite Hp. apply pick_prefix. Qed.

(** ** Witnesses *)

Definition ex_titles : list EvictionCandidate := [ex_title 1 30 5; ex_title 2 10 4; ex_title 3 20 4].

Definition ex_sweep : list EvictionCandidate :=
  select_evictions ex_titles (float_of_int 95) (float_of_int 90) (float_of_int 88) 100.

Lemma eviction_only_reclaims_watched_content_witness :
  ev_request_id <$> ex_sweep = [2; 3]%Z /\ ev_watched (ex_title 2 10 4) = true.
Proof.
  split; [vm_compute; reflexivity|].
  apply (eviction_only_reclaims_watched_content ex_titles (float_of_int 95) (float_of_int 90)
    (float_of_int 88) 100 (ex_title 2 10 4)).
  assert (ex_sweep = [ex_title 2 10 4; ex_title 3 20 4]) as Hs by (vm_compute; reflexivity).
  unfold ex_sweep in Hs. rewrite Hs. left.
Defined.

Lemma sweep_is_the_shortest_prefix_witness :
  exists k, ex_sweep = take k (rank_eviction_candidates ex_titles 100).
Proof.
  destruct (sweep_is_the_shortest_prefix ex_titles (float_of_int 95) (float_of_int 90)
    (float_of_int 88) 100) as (k & Hk & _); [vm_compute; reflexivity|].
  exists k. exact Hk.
Defined.
