(* ===== verification/ImportValidation.v ===== *)
(** * Validating a completed download ([domain/import_validation.py])

    The gates re-run on the files of a finished download, for one movie and for
    a season, with every applicable reason collected. *)

From Stdlib Require Import ZArith Lia Bool String.
From S2P Require Import Prelude PyStr PyRe Quality Release SourceMapping SeasonPack MediaMatch PlexVideo.

#[local] Open Scope bool_scope.

Definition _SAMPLE_FLOOR_BYTES : Z := 50 * 1024 * 1024.

Inductive ImportRejectionReason : Type :=
  | I_WRONG_MEDIA | I_QUALITY_NOT_WANTED | I_SAMPLE | I_NO_VIDEO_FILE | I_MULTI_PART
  | I_NO_EPISODE_NUMBER.

#[export] Instance ImportRejectionReason_eq_dec : EqDecision ImportRejectionReason.
Proof. solve_decision. Defined.

Record VideoFile := { vf_relative_path : list N; vf_size_bytes : Z }.

Record ImportRejection := { ir_reason : ImportRejectionReason; ir_detail : list N }.

Record ImportValidation := {
  iv_accepted : bool;
  iv_video : option VideoFile;
  iv_parsed : option ParsedRelease;
  iv_rejections : list ImportRejection;
}.

Record EpisodeImportResult := {
  ei_video : VideoFile;
  ei_parsed : ParsedRelease;
  ei_episodes : list Z;
}.

Record EpisodeImportRejection := {
  er_relative_path : list N;
  er_reason : ImportRejectionReason;
  er_detail : list N;
}.

Record SeasonImportValidation := {
  si_accepted : list EpisodeImportResult;
  si_rejected : list EpisodeImportRejection;
  si_skipped_not_requested : list EpisodeImportResult;
}.

Section import_validation.
Context {DB : UnicodeDB}.

(** *** The marker patterns *)

Definition opt_sep : re := opt_chr sep_char.

Definition _SAMPLE_EXTRAS : re :=
  cats [ Alt Bol (Chr sep_char);
         alts [ word_re (lit "sample"); word_re (lit "trailer");
                Cat (word_re (lit "extra")) (opt_chr (ci 115));
                word_re (lit "featurette");
                cats [word_re (lit "behind"); opt_sep; word_re (lit "the"); opt_sep;
                      word_re (lit "scenes")];
                cats [word_re (lit "deleted"); opt_sep; word_re (lit "scene")];
                word_re (lit "proof"); word_re (lit "rarbg.com") ];
         Look (Alt Eol (Chr sep_char)) ].

Definition _DISK_MARKER : re :=
  cats [ Alt Bol (Chr path_sep_char);
         alts [word_re (lit "cd"); word_re (lit "dvd"); word_re (lit "disc"); word_re (lit "disk")];
         opt_sep; Rep is_decimal 1 (Some 2); Alt Eol (Chr path_sep_char) ].

Definition _PART_MARKER : re :=
  cats [ Alt Bol (Chr path_sep_char);
         alts [word_re (lit "part"); word_re (lit "pt")];
         opt_sep; Grp (Rep is_decimal 1 (Some 2)); Alt Eol (Chr path_sep_char) ].

(** *** Names *)

Definition _basename (relative_path : list N) : list N :=
  List.last (split_on slash (replace_char backslash slash relative_path)) [].

Definition _is_video (p : list N) : bool :=
  match plex_video_extension p with Some _ => true | None => false end.

Definition _marker_key (marker_match : list N) : list N :=
  py_strip (sub (Rep sep_char 1 None) (fun _ => lit " ") (py_lower marker_match)).

(** The keys of the markers in a text, with repetition (the [Counter]). *)
Definition marker_keys (s : list N) : list (list N) :=
  (fun m => _marker_key (f_text m)) <$> finditer _SAMPLE_EXTRAS s.

Definition occurrences (k : list N) (keys : list (list N)) : nat :=
  length (List.filter (fun k' => bool_decide (k' = k)) keys).

Definition _looks_like_sample_name (name expected_title : list N) : bool :=
  let title_markers := marker_keys expected_title in
  let name_markers := marker_keys name in
  existsb (fun key => (occurrences key title_markers <? occurrences key name_markers)%nat) name_markers.

(** [{int(match.group(1)) for match in ...}]. *)
Definition part_numbers (s : list N) : list Z :=
  omap (fun m => f_group m ≫= py_int) (finditer _PART_MARKER s).

Definition _is_multi_part (relative_path expected_title : list N) : bool :=
  if search _DISK_MARKER relative_path then true
  else
    let title_part_numbers := part_numbers expected_title in
    existsb (fun n => negb (mem n title_part_numbers)) (part_numbers relative_path).

Definition repr_numbers (n : numbers) : list N :=
  match n with
  | NoNumber => lit "None"
  | OneNumber z => str_of_int z
  | Numbers l => repr_int_list l
  end.

Section validate.
Variable parse : list N -> ParsedRelease.
Variable profile : QualityProfile.
Variable expected_title : list N.
Variable expected_tmdb_id : Z.

(** The list comprehension's filter, and the season loop's [continue]. *)
Definition is_candidate (video : VideoFile) : bool :=
  _is_video (vf_relative_path video)
  && negb (_looks_like_sample_name (_basename (vf_relative_path video)) expected_title).

Definition parse_path (video : VideoFile) : ParsedRelease :=
  parse (replace_char backslash slash (vf_relative_path video)).

Definition size_detail (name : list N) (size : Z) : list N :=
  lit "file " ++ py_repr name ++ lit " is " ++ str_of_int size ++ lit " bytes, below the "
  ++ str_of_int _SAMPLE_FLOOR_BYTES ++ lit "-byte sample floor (unknown size counts as sample)".

Definition quality_detail (name : list N) (quality : Quality) : list N :=
  lit "file " ++ py_repr name ++ lit " resolved to quality " ++ py_repr (q_name quality)
  ++ lit ", which the profile does not allow".

Definition parts_detail (p : list N) : list N :=
  lit "path " ++ py_repr p ++ lit " carries a multi-part / split-disk marker".

(** One guarded [append]. *)
Definition when (b : bool) (reason : ImportRejectionReason) (detail : list N)
    : list ImportRejection :=
  if b then [{| ir_reason := reason; ir_detail := detail |}] else [].

(** Steps 4 to 6, the same for a movie and an episode file. *)
Definition file_rejections (video : VideoFile) (parsed : ParsedRelease) : list ImportRejection :=
  let name := _basename (vf_relative_path video) in
  let quality := resolve_quality (pr_source parsed) (pr_resolution parsed) (pr_modifier parsed) in
  when (negb (qv_accepted (check_quality quality profile))) I_QUALITY_NOT_WANTED
    (quality_detail name quality)
  ++ when (vf_size_bytes video <? _SAMPLE_FLOOR_BYTES)%Z I_SAMPLE
    (size_detail name (vf_size_bytes video))
  ++ when (_is_multi_part (vf_relative_path video) expected_title) I_MULTI_PART
    (parts_detail (vf_relative_path video)).

Definition validate_import (files : list VideoFile) (expected_year : option Z) : ImportValidation :=
  match List.filter is_candidate files with
  | [] =>
      {| iv_accepted := false; iv_video := None; iv_parsed := None;
         iv_rejections :=
           [{| ir_reason := I_NO_VIDEO_FILE;
               ir_detail := lit "no importable video file in completed download ("
                 ++ str_of_int (Z.of_nat (length files)) ++ lit " file(s) inspected)" |}] |}
  | first :: rest =>
      let chosen := py_max_by vf_size_bytes first rest in
      let name := _basename (vf_relative_path chosen) in
      let parsed := parse_path chosen in
      let rejections :=
        when (negb (matches_media parsed expected_title expected_year 0 expected_tmdb_id None))
          I_WRONG_MEDIA
          (lit "file " ++ py_repr name ++ lit " parsed as " ++ py_repr (pr_clean_title parsed)
           ++ lit " (year=" ++ repr_opt (pr_year parsed) ++ lit "); expected "
           ++ py_repr expected_title ++ lit " (year=" ++ repr_opt expected_year ++ lit ")")
        ++ file_rejections chosen parsed in
      {| iv_accepted := match rejections with [] => true | _ => false end;
         iv_video := Some chosen; iv_parsed := Some parsed; iv_rejections := rejections |}
  end.

(** *** A season *)

(** [own_season != expected_season]. *)
Definition own_season_differs (own : numbers) (expected_season : Z) : bool :=
  match own with OneNumber s => negb (s =? expected_season)%Z | _ => true end.

Definition episode_reasons (expected_season : Z) (video : VideoFile) : list ImportRejection :=
  let name := _basename (vf_relative_path video) in
  let parsed := parse_path video in
  when (negb (matches_media parsed expected_title None 0 expected_tmdb_id (Some expected_season)))
    I_WRONG_MEDIA
    (lit "file " ++ py_repr name ++ lit " parsed as " ++ py_repr (pr_clean_title parsed)
     ++ lit " (season=" ++ repr_numbers (pr_season parsed) ++ lit "); expected "
     ++ py_repr expected_title ++ lit " season " ++ str_of_int expected_season)
  ++ match pr_season parsed with
     | Numbers _ =>
         let own_season := pr_season (parse name) in
         when (own_season_differs own_season expected_season) I_WRONG_MEDIA
           (lit "file " ++ py_repr name ++ lit " sits in a multi-season pack (parsed seasons "
            ++ repr_numbers (pr_season parsed) ++ lit "); its own season "
            ++ repr_numbers own_season ++ lit " does not unambiguously match requested season "
            ++ str_of_int expected_season)
     | _ => []
     end
  ++ file_rejections video parsed
  ++ when (bool_decide (episode_numbers (pr_episode parsed) = [])) I_NO_EPISODE_NUMBER
       (lit "file " ++ py_repr name ++ lit " carries no parseable episode number").

Definition result_of (video : VideoFile) : EpisodeImportResult :=
  {| ei_video := video; ei_parsed := parse_path video;
     ei_episodes := episode_numbers (pr_episode (parse_path video)) |}.

(** [requested is not None and requested.isdisjoint(episodes)]. *)
Definition unrequested (requested_episodes : option (list Z)) (episodes : list Z) : bool :=
  match requested_episodes with
  | Some (e :: es) => disjointb (e :: es) episodes
  | _ => false
  end.

Definition season_step (expected_season : Z) (requested_episodes : option (list Z))
    (acc : SeasonImportValidation) (video : VideoFile) : SeasonImportValidation :=
  if negb (is_candidate video) then acc
  else
    match episode_reasons expected_season video with
    | (_ :: _) as reasons =>
        {| si_accepted := si_accepted acc;
           si_rejected := si_rejected acc ++
             ((fun r => {| er_relative_path := vf_relative_path video; er_reason := ir_reason r;
                           er_detail := ir_detail r |}) <$> reasons);
           si_skipped_not_requested := si_skipped_not_requested acc |}
    | [] =>
        let result := result_of video in
        if unrequested requested_episodes (ei_episodes result) then
          {| si_accepted := si_accepted acc; si_rejected := si_rejected acc;
             si_skipped_not_requested := si_skipped_not_requested acc ++ [result] |}
        else
          {| si_accepted := si_accepted acc ++ [result]; si_rejected := si_rejected acc;
             si_skipped_not_requested := si_skipped_not_requested acc |}
    end.

Definition validate_season_import (files : list VideoFile) (expected_season : Z)
    (requested_episodes : option (list Z)) : SeasonImportValidation :=
  foldl (season_step expected_season requested_episodes)
    {| si_accepted := []; si_rejected := []; si_skipped_not_requested := [] |} files.

(** ** The gates, stated on their own *)

(** The gates every imported file passes, whichever kind of import it is. *)
Definition file_gates (video : VideoFile) : Prop :=
  let parsed := parse_path video in
  qv_accepted (check_quality
    (resolve_quality (pr_source parsed) (pr_resolution parsed) (pr_modifier parsed)) profile) = true /\
  (_SAMPLE_FLOOR_BYTES <= vf_size_bytes video)%Z /\
  _is_multi_part (vf_relative_path video) expected_title = false.

(** The gates of an episode file. *)
Definition episode_gates (expected_season : Z) (video : VideoFile) : Prop :=
  let parsed := parse_path video in
  matches_media parsed expected_title None 0 expected_tmdb_id (Some expected_season) = true /\
  (forall l, pr_season parsed = Numbers l ->
     pr_season (parse (_basename (vf_relative_path video))) = OneNumber expected_season) /\
  file_gates video /\
  episode_numbers (pr_episode parsed) <> [].

(** The bucket of a candidate file. *)
Definition refused (expected_season : Z) (video : VideoFile) : bool :=
  is_candidate video && negb (bool_decide (episode_reasons expected_season video = [])).
Definition kept (expected_season : Z) (requested : option (list Z)) (wanted : bool) (video : VideoFile)
    : bool :=
  is_candidate video && bool_decide (episode_reasons expected_season video = [])
  && Bool.eqb wanted (negb (unrequested requested (ei_episodes (result_of video)))).

Definition rows_of (expected_season : Z) (video : VideoFile) : list EpisodeImportRejection :=
  (fun r => {| er_relative_path := vf_relative_path video; er_reason := ir_reason r;
               er_detail := ir_detail r |}) <$> episode_reasons expected_season video.

(** ** Lemmas *)

Lemma when_nil b reason detail : when b reason detail = [] <-> b = false.
Proof. destruct b; cbn; split; congruence. Qed.

Lemma elem_of_when r b reason detail :
  r ∈ (ir_reason <$> when b reason detail) <-> b = true /\ r = reason.
Proof. destruct b; cbn; set_solver. Qed.

Lemma file_rejections_nil video : file_rejections video (parse_path video) = [] <-> file_gates video.
Proof.
  unfold file_rejections, file_gates. rewrite !app_nil, !when_nil, negb_false_iff, Z.ltb_ge. tauto.
Qed.

Lemma own_season_differs_false own s : own_season_differs own s = false <-> own = OneNumber s.
Proof.
  unfold own_season_differs. destruct own as [|z|l]; split; try congruence.
  - intros H%negb_false_iff%Z.eqb_eq. congruence.
  - intros [= ->]. apply negb_false_iff, Z.eqb_refl.
Qed.

Lemma episode_reasons_nil s video : episode_reasons s video = [] <-> episode_gates s video.
Proof.
  unfold episode_reasons, episode_gates. rewrite !app_nil, !when_nil, file_rejections_nil.
  rewrite negb_false_iff, bool_decide_eq_false.
  assert (Hm : match pr_season (parse_path video) with
     | Numbers _ =>
         let own_season := pr_season (parse (_basename (vf_relative_path video))) in
         when (own_season_differs own_season s) I_WRONG_MEDIA
           (lit "file " ++ py_repr (_basename (vf_relative_path video))
            ++ lit " sits in a multi-season pack (parsed seasons "
            ++ repr_numbers (pr_season (parse_path video)) ++ lit "); its own season "
            ++ repr_numbers own_season ++ lit " does not unambiguously match requested season "
            ++ str_of_int s)
     | _ => []
     end = [] <-> (forall l, pr_season (parse_path video) = Numbers l ->
     pr_season (parse (_basename (vf_relative_path video))) = OneNumber s)).
  { destruct (pr_season (parse_path video)); [naive_solver..|]. cbn zeta.
    rewrite when_nil, own_season_differs_false. naive_solver. }
  rewrite Hm. tauto.
Qed.

Lemma season_fold s requested files acc :
  foldl (season_step s requested) acc files =
  {| si_accepted := si_accepted acc ++ (result_of <$> List.filter (kept s requested true) files);
     si_rejected := si_rejected acc ++ (List.filter (refused s) files ≫= rows_of s);
     si_skipped_not_requested := si_skipped_not_requested acc
       ++ (result_of <$> List.filter (kept s requested false) files) |}.
Proof.
  revert acc; induction files as [|v files IH]; intros acc; cbn [foldl].
  { destruct acc; cbn. by rewrite !app_nil_r. }
  rewrite IH; clear IH. cbn [List.filter].
  assert (Hk : forall b, kept s requested b v = is_candidate v && bool_decide (episode_reasons s v = [])
    && Bool.eqb b (negb (unrequested requested (ei_episodes (result_of v))))) by reflexivity.
  assert (Hf : refused s v = is_candidate v && negb (bool_decide (episode_reasons s v = [])))
    by reflexivity.
  rewrite !Hk, Hf. unfold season_step.
  destruct (is_candidate v); cbn [negb andb]; [|reflexivity].
  destruct (episode_reasons s v) as [|r rs] eqn:Hr.
  - rewrite bool_decide_true by done. cbn [negb andb].
    destruct (unrequested _ _); cbn [Bool.eqb negb si_accepted si_rejected si_skipped_not_requested];
      rewrite <- app_assoc; reflexivity.
  - rewrite bool_decide_false by done. cbn [negb andb si_accepted si_rejected si_skipped_not_requested].
    rewrite bind_cons, <- app_assoc. unfold rows_of at 2. rewrite Hr. reflexivity.
Qed.

Lemma season_split s requested files :
  validate_season_import files s requested =
  {| si_accepted := result_of <$> List.filter (kept s requested true) files;
     si_rejected := List.filter (refused s) files ≫= rows_of s;
     si_skipped_not_requested := result_of <$> List.filter (kept s requested false) files |}.
Proof. unfold validate_season_import. by rewrite season_fold. Qed.

Lemma unrequested_false requested episodes :
  unrequested requested episodes = false <->
  match requested with Some (e :: es) => exists x, x ∈ e :: es /\ x ∈ episodes | _ => True end.
Proof.
  destruct requested as [[|e es]|]; cbn [unrequested]; try tauto.
  rewrite <- not_true_iff_false, disjointb_true. split.
  - intros H. destruct (decide (Exists (fun x => x ∈ episodes) (e :: es))) as [Hx|Hx].
    + apply Exists_exists in Hx as (x & ? & ?). by exists x.
    + destruct H. intros x Hx1 Hx2. apply Hx, Exists_exists. by exists x.
  - intros (x & H1 & H2) Hd. exact (Hd x H1 H2).
Qed.

Lemma in_filtered {A} (f : A -> bool) l x : x ∈ List.filter f l <-> x ∈ l /\ f x = true.
Proof. rewrite !list_elem_of_In. apply filter_In. Qed.

Lemma kept_gates s requested video :
  kept s requested true video = true <->
  is_candidate video = true /\ episode_gates s video /\
  unrequested requested (ei_episodes (result_of video)) = false.
Proof.
  unfold kept. rewrite !andb_true_iff, bool_decide_eq_true, episode_reasons_nil, eqb_true_iff.
  destruct (unrequested _ _); cbn; naive_solver.
Qed.

Lemma three_way (f g h : VideoFile -> bool) files :
  (forall v, is_candidate v = xorb (xorb (f v) (g v)) (h v)) ->
  (forall v, f v && g v = false /\ f v && h v = false /\ g v && h v = false) ->
  List.filter is_candidate files ≡ₚ
  List.filter f files ++ List.filter g files ++ List.filter h files.
Proof.
  intros Hx Hd. induction files as [|v files IH]; [done|]. cbn [List.filter].
  rewrite (Hx v). destruct (Hd v) as (H1 & H2 & H3).
  destruct (f v), (g v), (h v); cbn in H1, H2, H3 |- *; try discriminate; rewrite IH; solve_Permutation.
Qed.

Lemma result_videos (l : list VideoFile) : ei_video <$> (result_of <$> l) = l.
Proof. rewrite <- list_fmap_compose. apply list_fmap_id. Qed.

Lemma import_chosen files year v :
  iv_video (validate_import files year) = Some v ->
  exists first rest, List.filter is_candidate files = first :: rest /\
    v = py_max_by vf_size_bytes first rest.
Proof.
  unfold validate_import. destruct (List.filter is_candidate files) as [|x l]; cbn; [congruence|].
  intros [= <-]. eauto.
Qed.

Lemma import_verdict files year v :
  iv_video (validate_import files year) = Some v ->
  (iv_accepted (validate_import files year) = true <->
   matches_media (parse_path v) expected_title year 0 expected_tmdb_id None = true /\ file_gates v).
Proof.
  intros Hv. destruct (import_chosen _ _ _ Hv) as (x & l & Hl & ->).
  unfold validate_import. rewrite Hl. cbn zeta. cbn [iv_accepted].
  rewrite <- file_rejections_nil.
  destruct (matches_media _ _ _ _ _ _); cbn [negb when app].
  - destruct (file_rejections _ _); naive_solver.
  - naive_solver.
Qed.

(** ** The movie import *)

(** A completed movie download is imported exactly when it has a playable
    file that is no sample or extra, and the largest such file is the right
    film, has a quality the profile allows, is at least fifty mebibytes and is
    not one slice of a set; a refusal always gives a reason, and a download
    with no such file says so. *)
Theorem import_accepts_iff files year :
  let result := validate_import files year in
  (iv_accepted result = true <->
   exists v, iv_video result = Some v /\
     matches_media (parse_path v) expected_title year 0 expected_tmdb_id None = true /\
     file_gates v) /\
  (iv_accepted result = true <-> iv_rejections result = []) /\
  (forall v, iv_video result = Some v ->
     v ∈ files /\ is_candidate v = true /\
     forall w, w ∈ files -> is_candidate w = true -> (vf_size_bytes w <= vf_size_bytes v)%Z) /\
  (iv_video result = None <-> forall w, w ∈ files -> is_candidate w = false) /\
  (iv_video result = None <-> ir_reason <$> iv_rejections result = [I_NO_VIDEO_FILE]).
Proof.
  cbn zeta. split; [|split; [|split; [|split]]].
  - split.
    + intros Ha. destruct (iv_video (validate_import files year)) as [v|] eqn:Hv.
      * exists v. split; [done|]. by apply (import_verdict _ _ _ Hv).
      * revert Ha Hv. unfold validate_import. by destruct (List.filter _ _).
    + intros (v & Hv & H). by apply (import_verdict _ _ _ Hv).
  - unfold validate_import. destruct (List.filter _ _); [done|]. cbn zeta. cbn [iv_accepted iv_rejections].
    destruct (_ ++ _); naive_solver.
  - intros v Hv. destruct (import_chosen _ _ _ Hv) as (x & l & Hl & ->).
    destruct (py_max_by_spec vf_size_bytes l x) as [Hin Hmax]. rewrite <- Hl in Hin, Hmax.
    apply in_filtered in Hin as [Hin Hc]. split; [done|]. split; [done|].
    intros w Hw Hcw. rewrite Forall_forall in Hmax. apply Hmax, in_filtered. done.
  - unfold validate_import. destruct (List.filter is_candidate files) as [|x l] eqn:Hl; cbn [iv_video].
    + split; [|done]. intros _ w Hw. apply not_true_iff_false. intros Hc.
      assert (Hx : w ∈ List.filter is_candidate files) by by apply in_filtered.
      rewrite Hl in Hx. by apply not_elem_of_nil in Hx.
    + split; [done|]. intros H. assert (Hx : x ∈ List.filter is_candidate files) by (rewrite Hl; left).
      apply in_filtered in Hx as [Hx Hc]. rewrite (H x Hx) in Hc. discriminate.
  - unfold validate_import. destruct (List.filter _ _) as [|x l]; cbn zeta; cbn [iv_video iv_rejections]; [done|].
    split; [done|]. intros H. exfalso. unfold file_rejections, when in H.
    repeat match type of H with context [if ?b then _ else _] => destruct b end; discriminate.
Qed.

(** ** The season import *)

(** An episode file of a completed season download is imported exactly when
    it is playable and no extra, is the right show and season (inside a
    multi-season folder its own name says that season and no other), has an
    allowed quality and a plausible size, is not a slice of a set, carries an
    episode number, and, when the operator asked for some episodes, carries one
    of those. *)
Theorem season_import_accepts_iff files expected_season requested result :
  result ∈ si_accepted (validate_season_import files expected_season requested) <->
  exists video, video ∈ files /\ result = result_of video /\ is_candidate video = true /\
    episode_gates expected_season video /\
    match requested with
    | Some (e :: es) => exists x, x ∈ e :: es /\ x ∈ ei_episodes result
    | _ => True
    end.
Proof.
  rewrite season_split. cbn [si_accepted]. rewrite list_elem_of_fmap. split.
  - intros (v & -> & [Hv Hk]%in_filtered). apply kept_gates in Hk as (Hc & Hg & Hu).
    exists v. apply unrequested_false in Hu. done.
  - intros (v & Hv & -> & Hc & Hg & Hu). exists v. split; [done|]. apply in_filtered. split; [done|].
    apply kept_gates. rewrite unrequested_false. done.
Qed.

(** No file of a season download is lost or counted twice: the candidate
    files are, up to order, the imported ones, the ones skipped as not
    requested and the refused ones, and each refused file has at least one row
    of reasons while no other file has any. *)
Theorem season_import_is_a_partition files expected_season requested :
  let result := validate_season_import files expected_season requested in
  let refused_files := List.filter (refused expected_season) files in
  List.filter is_candidate files ≡ₚ
    (ei_video <$> si_accepted result) ++ (ei_video <$> si_skipped_not_requested result) ++ refused_files /\
  si_rejected result = refused_files ≫= rows_of expected_season /\
  (forall video, video ∈ refused_files -> rows_of expected_season video <> []).
Proof.
  cbn zeta. rewrite season_split. cbn [si_accepted si_rejected si_skipped_not_requested].
  rewrite !result_videos. split; [|split; [done|]].
  - apply three_way; intros v; unfold kept, refused;
      destruct (is_candidate v), (bool_decide _), (unrequested _ _); cbn; auto.
  - intros v [_ Hr]%in_filtered. unfold refused in Hr. apply andb_true_iff in Hr as [_ Hr].
    apply negb_true_iff, bool_decide_eq_false in Hr. unfold rows_of.
    intros H. apply fmap_nil_inv in H. done.
Qed.
End validate.
End import_validation.

(** ** Theatrical sources at the import gate *)

Section reject_word.
Context {DB : UnicodeDB}.
Variable guessit : list N -> res (gmap (list N) obj).

(** Whatever the grab let through, a file whose path carries a reject word
    fails the quality gate of the default profile. *)
Lemma reject_word_fails_gates title video :
  carries_reject_word (replace_char backslash slash (vf_relative_path video)) ->
  ~ file_gates (SourceMapping.parse guessit) default_profile title video.
Proof.
  intros Hw (Hq & _). apply reject_word_hits in Hw.
  apply (net_hit_rejected (catch (guessit (replace_char backslash slash (vf_relative_path video)))
    (fun _ => ∅))) in Hw.
  unfold default_accepts, quality_of in Hw. unfold parse_path, parse in Hq. congruence.
Qed.

(** The import gate re-checks the source: under the default profile a file
    whose path carries a reject word is imported neither as a movie nor as an
    episode, whatever the title library makes of the rest of the path and
    whatever title, year, season and episodes were asked for. *)
Theorem reject_word_is_never_imported title tmdb_id files video :
  carries_reject_word (replace_char backslash slash (vf_relative_path video)) ->
  (forall year,
     let result := validate_import (SourceMapping.parse guessit) default_profile title tmdb_id files year in
     iv_video result = Some video -> iv_accepted result = false) /\
  (forall season requested,
     video ∉ (ei_video <$> si_accepted (validate_season_import (SourceMapping.parse guessit)
       default_profile title tmdb_id files season requested))).
Proof.
  intros Hw. split.
  - cbn zeta. intros year Hv. apply not_true_iff_false. rewrite (import_verdict _ _ _ _ _ _ _ Hv).
    intros [_ Hg]. by apply reject_word_fails_gates in Hg.
  - intros season requested (r & -> & Hr)%list_elem_of_fmap. rewrite season_split in Hr.
    apply list_elem_of_fmap in Hr as (v & -> & [_ Hk]%in_filtered).
    apply kept_gates in Hk as (_ & (_ & _ & Hg & _) & _). by apply reject_word_fails_gates in Hg.
Qed.
End reject_word.

Section examples.
#[local] Existing Instance ascii_db.

Definition ex_file (p : string) (size : Z) : VideoFile :=
  {| vf_relative_path := lit p; vf_size_bytes := size |}.

(** A parser that knows the film's title and year and nothing else. *)
Definition film_guessit (_ : list N) : res (gmap (list N) obj) :=
  Ok (dict_of [(lit "title", ObjStr (lit "Film")); (lit "year", ObjInt 2024);
               (lit "source", ObjStr (lit "Web")); (lit "screen_size", ObjStr (lit "1080p"))]).

Definition cam_file : VideoFile := ex_file "Film.2024.HDCAM/Film.2024.mkv" 700000000.
Definition web_file : VideoFile := ex_file "Film.2024.1080p.WEB-DL/Film.2024.mkv" 600000000.

Definition film_import (files : list VideoFile) : ImportValidation :=
  validate_import (SourceMapping.parse film_guessit) default_profile (lit "Film") 7 files (Some 2024%Z).

Lemma reject_word_is_never_imported_witness :
  iv_video (film_import [web_file; cam_file]) = Some cam_file /\
  iv_accepted (film_import [web_file; cam_file]) = false /\
  iv_accepted (film_import [web_file]) = true.
Proof.
  split; [vm_compute; reflexivity|]. split; [|vm_compute; reflexivity].
  apply (reject_word_is_never_imported film_guessit (lit "Film") 7 [web_file; cam_file] cam_file);
    [|vm_compute; reflexivity].
  right. exists "HD"%string, "CAM"%string.
  split; [apply mem_true; reflexivity|].
  exists (lit "Film.2024."), (lit "HD"), [], (lit "CAM"), (lit "/Film.2024.mkv").
  do 3 (split; [reflexivity|]). split; [by left|]. split; reflexivity.
Defined.

(** The title explains its own marker words, once. *)
Lemma marker_words_of_the_title :
  _looks_like_sample_name (lit "Trailer.Park.Boys.2006.mkv") (lit "Trailer Park Boys") = false /\
  _looks_like_sample_name (lit "Trailer.Park.Boys.Trailer.mkv") (lit "Trailer Park Boys") = true /\
  _looks_like_sample_name (lit "Proof.Trailer.mkv") (lit "Proof") = true /\
  _is_multi_part (lit "Movie/CD1/movie.avi") (lit "Movie") = true /\
  _is_multi_part (lit "Hallows.Part.01.mkv") (lit "Hallows Part 1") = false /\
  _is_multi_part (lit "Movie.Part1.mkv") (lit "Movie") = true.
Proof. vm_compute. repeat split. Qed.
End examples.
