(* ===== verification/UpdateRecovery.v ===== *)
(** * Updater recovery evidence ([domain/update_recovery.py])

    Which recovery a wedged update coordinator gets.  Phases and actions are
    free strings, because a newer build may have written one this build does
    not know.  A [datetime] is its UTC instant in microseconds ([_utc] maps
    every value to that instant), a [timedelta] is in microseconds. *)

From Stdlib Require Import ZArith Lia Bool String.
From S2P Require Import Prelude PyStr.

#[local] Open Scope bool_scope.

Definition KNOWN_COORDINATOR_PHASES : list (list N) :=
  lit <$> ["idle"; "checking"; "available"; "draining"; "installing"; "rollback"; "succeeded";
           "failed"; "rolled_back"]%string.
Definition KNOWN_REQUESTED_ACTIONS : list (list N) := lit <$> ["none"; "check"; "install"]%string.
Definition BUSY_COORDINATOR_PHASES : list (list N) :=
  lit <$> ["checking"; "draining"; "installing"; "rollback"]%string.

Inductive RecoveryAction : Type := NOOP | WAIT | LIVE_DRAIN | ACTION_ONLY | REANCHOR.

#[export] Instance RecoveryAction_eq_dec : EqDecision RecoveryAction.
Proof. solve_decision. Defined.

Record RecoveryDecision := {
  rd_action : RecoveryAction;
  rd_reason : list N;
  rd_clear_unknown_action : bool;
  rd_preserve_known_action : bool;
  rd_fence_generation : bool;
}.

Definition dispatch_starts_work (action : list N) (blocker : option (list N)) : bool :=
  if bool_decide (action = lit "none") then false
  else negb (bool_decide (action = lit "install") && negb (bool_decide (blocker = None))).

Definition _old_enough (anchor : option Z) (now max_age : Z) : bool :=
  match anchor with
  | None => false
  | Some a => (0 <=? now - a)%Z && (max_age <=? now - a)%Z
  end.

Definition decide_recovery (phase requested_action : list N) (live_drain : bool)
    (phase_started_at : option Z) (now max_age : Z) : RecoveryDecision :=
  let known_action := mem requested_action KNOWN_REQUESTED_ACTIONS in
  let unknown_action := negb known_action in
  let reanchor_fences := unknown_action || bool_decide (requested_action = lit "none") in
  let live := {| rd_action := LIVE_DRAIN; rd_reason := lit "live drain lease";
                 rd_clear_unknown_action := unknown_action;
                 rd_preserve_known_action := known_action; rd_fence_generation := false |} in
  if negb (mem phase KNOWN_COORDINATOR_PHASES) then
    if live_drain then live
    else {| rd_action := REANCHOR; rd_reason := lit "unrecognized phase";
            rd_clear_unknown_action := unknown_action;
            rd_preserve_known_action := known_action; rd_fence_generation := reanchor_fences |}
  else if live_drain then live
  else if negb (mem phase BUSY_COORDINATOR_PHASES) then
    if unknown_action then
      {| rd_action := ACTION_ONLY; rd_reason := lit "unrecognized action";
         rd_clear_unknown_action := true; rd_preserve_known_action := false;
         rd_fence_generation := true |}
    else {| rd_action := NOOP; rd_reason := lit "recognized state";
            rd_clear_unknown_action := false; rd_preserve_known_action := true;
            rd_fence_generation := false |}
  else if negb (_old_enough phase_started_at now max_age) then
    {| rd_action := WAIT; rd_reason := lit "busy phase lacks bounded stale evidence";
       rd_clear_unknown_action := false; rd_preserve_known_action := known_action;
       rd_fence_generation := false |}
  else {| rd_action := REANCHOR; rd_reason := lit "busy phase is stale and old";
          rd_clear_unknown_action := unknown_action;
          rd_preserve_known_action := known_action; rd_fence_generation := reanchor_fences |}.

(** ** Lemmas *)

Definition known_phase (phase : list N) : Prop := phase ∈ KNOWN_COORDINATOR_PHASES.
Definition busy_phase (phase : list N) : Prop := phase ∈ BUSY_COORDINATOR_PHASES.
Definition known_action (action : list N) : Prop := action ∈ KNOWN_REQUESTED_ACTIONS.
Definition queued (action : list N) : Prop := action = lit "check" \/ action = lit "install".

Lemma busy_is_known phase : busy_phase phase -> known_phase phase.
Proof.
  assert (H : Forall (fun p => p ∈ KNOWN_COORDINATOR_PHASES) BUSY_COORDINATOR_PHASES)
    by (apply (bool_decide_unpack _); vm_compute; exact I).
  rewrite Forall_forall in H. apply H.
Qed.

Lemma known_action_cases action : known_action action <-> action = lit "none" \/ queued action.
Proof. unfold known_action, queued, KNOWN_REQUESTED_ACTIONS. cbn [fmap list_fmap]. set_solver. Qed.

Lemma queued_not_none action : queued action -> action <> lit "none".
Proof. by intros [->| ->]. Qed.

Lemma old_enough_iff anchor now max_age : (0 <= max_age)%Z ->
  _old_enough anchor now max_age = true <-> exists a, anchor = Some a /\ (a + max_age <= now)%Z.
Proof.
  intros Hm. unfold _old_enough. destruct anchor as [a|]; [|naive_solver].
  rewrite andb_true_iff, !Z.leb_le. split; [intros; exists a; split; [done|lia]|].
  intros (b & [= <-] & ?). lia.
Qed.

(** Split on every test of the matrix. *)
Ltac matrix_cases phase action :=
  unfold decide_recovery, known_phase, busy_phase, known_action;
  destruct (mem phase KNOWN_COORDINATOR_PHASES) eqn:?Hk;
  destruct (mem phase BUSY_COORDINATOR_PHASES) eqn:?Hb;
  destruct (mem action KNOWN_REQUESTED_ACTIONS) eqn:?Ha;
  rewrite ?mem_true, ?mem_false in *.

Lemma wait_means phase action live anchor now max_age :
  rd_action (decide_recovery phase action live anchor now max_age) = WAIT ->
  live = false /\ busy_phase phase.
Proof.
  matrix_cases phase action; destruct live, (_old_enough anchor now max_age); cbn; by intros.
Qed.

(** The recovery matrix.  A live drain is never touched; without one, an
    unknown phase is always re-anchored, a busy phase exactly when its start
    anchor has reached the bound, and otherwise only an unknown action is
    cleared. *)
Theorem recovery_matrix phase action live anchor now max_age :
  (rd_action (decide_recovery phase action live anchor now max_age) = LIVE_DRAIN <->
     live = true) /\
  (rd_action (decide_recovery phase action live anchor now max_age) = REANCHOR <->
     live = false /\ (~ known_phase phase \/
                      busy_phase phase /\ _old_enough anchor now max_age = true)) /\
  (rd_action (decide_recovery phase action live anchor now max_age) = WAIT <->
     live = false /\ busy_phase phase /\ _old_enough anchor now max_age = false) /\
  (rd_action (decide_recovery phase action live anchor now max_age) = ACTION_ONLY <->
     live = false /\ known_phase phase /\ ~ busy_phase phase /\ ~ known_action action) /\
  (rd_action (decide_recovery phase action live anchor now max_age) = NOOP <->
     live = false /\ known_phase phase /\ ~ busy_phase phase /\ known_action action).
Proof.
  pose proof (busy_is_known phase) as Hbk. revert Hbk.
  matrix_cases phase action; intros Hbk; destruct live, (_old_enough anchor now max_age); cbn;
    (repeat split); intros; naive_solver.
Qed.

(** The fence.  A recovery that gives a worker up bumps the generation
    exactly when no queued check or install is left for a worker to complete,
    a queued one keeps its generation, and an action is cleared only together
    with a fence. *)
Theorem recovery_fences_iff_nothing_is_queued phase action live anchor now max_age :
  let d := decide_recovery phase action live anchor now max_age in
  (rd_fence_generation d = true <->
     (rd_action d = REANCHOR \/ rd_action d = ACTION_ONLY) /\ ~ queued action) /\
  (rd_fence_generation d = true -> rd_clear_unknown_action d = true <-> ~ known_action action) /\
  (rd_clear_unknown_action d = true ->
     rd_fence_generation d = true \/ rd_action d = LIVE_DRAIN) /\
  (rd_clear_unknown_action d = true -> rd_preserve_known_action d = false).
Proof.
  cbn zeta. pose proof (known_action_cases action) as Hq. pose proof (queued_not_none action) as Hn.
  unfold known_action in Hq.
  matrix_cases phase action; destruct live, (_old_enough anchor now max_age); cbn;
    rewrite ?bool_decide_eq_true; (repeat split); intros; naive_solver.
Qed.

Lemma busy_wait phase action anchor now max_age :
  busy_phase phase -> (0 <= max_age)%Z ->
  rd_action (decide_recovery phase action false (Some anchor) now max_age)
  = if (anchor + max_age <=? now)%Z then REANCHOR else WAIT.
Proof.
  intros Hb Hm. unfold decide_recovery.
  rewrite (proj2 (mem_true phase KNOWN_COORDINATOR_PHASES) (busy_is_known _ Hb)).
  rewrite (proj2 (mem_true phase BUSY_COORDINATOR_PHASES) Hb). cbn [negb].
  destruct (Z.leb_spec (anchor + max_age) now) as [H|H].
  - rewrite (proj2 (old_enough_iff _ _ _ Hm)) by eauto. done.
  - destruct (_old_enough _ _ _) eqn:Ho; [|done].
    apply (old_enough_iff _ _ _ Hm) in Ho as (a & [= <-] & ?). lia.
Qed.

(** The wait is bounded: once a drain-less busy phase has an anchor, every
    recovery attempted from the anchor plus the bound on succeeds, and none
    before does. *)
Theorem busy_wait_is_bounded phase action anchor now max_age :
  busy_phase phase -> (0 <= max_age)%Z ->
  rd_action (decide_recovery phase action false (Some anchor) now max_age)
  = if (anchor + max_age <=? now)%Z then REANCHOR else WAIT.
Proof. apply busy_wait. Qed.

Lemma busy_wait_is_bounded_witness :
  rd_action (decide_recovery (lit "installing") (lit "none") false (Some 5%Z) 605 600) = REANCHOR /\
  rd_action (decide_recovery (lit "installing") (lit "none") false (Some 5%Z) 604 600) = WAIT.
Proof.
  split.
  - apply (busy_wait_is_bounded (lit "installing") (lit "none") 5 605 600);
      [apply mem_true; reflexivity | lia].
  - reflexivity.
Defined.
