(* ===== verification/UpdateCoordination.v ===== *)
(** * The update coordinator's store ([repositories/update_coordination.py])

    The singleton coordinator row and the lease table, every operation of
    [SqlUpdateCoordinationRepository] as a state-passing computation that may
    raise, and the transaction the service wraps each of them in.  Every
    operation starts with the locking [UPDATE] of the singleton row, so the
    transactions of all callers are serialized: a trace of operations is a
    list.  An instant is in microseconds since the epoch, UTC.

    Two columns are left out: the surrogate key of a lease (chosen by the
    database, lookups go by token) and [updated_at] (written, never read). *)

From Stdlib Require Import ZArith Lia Bool String.
From S2P Require Import Prelude PyStr UpdateRecovery.

#[local] Open Scope bool_scope.

(** ** Data *)

(** The nullable text and time columns of the row. *)
Inductive text_column : Type :=
  | current_build | current_digest | available_build | available_digest
  | updater_observed_build | updater_observed_digest
  | last_refresh_result | last_refresh_detail_code | last_refresh_from_build | last_refresh_to_build
  | last_operation | last_result | last_error_code | last_from_build | last_to_build
  | last_outcome_token_hash | last_outcome_fingerprint.
Inductive time_column : Type :=
  | updater_last_seen_at | last_refresh_at | requested_at | last_checked_at | last_started_at
  | last_completed_at.

#[export] Instance text_column_eq_dec : EqDecision text_column.
Proof. solve_decision. Defined.
#[export] Instance time_column_eq_dec : EqDecision time_column.
Proof. solve_decision. Defined.

Record UpdateCoordinatorState := {
  requested_action : list N;
  action_generation : Z;
  acknowledged_generation : Z;
  phase : list N;
  text : text_column -> option (list N);
  time : time_column -> option Z;
}.

Inductive LeaseKind : Type := critical | drain.

#[export] Instance LeaseKind_eq_dec : EqDecision LeaseKind.
Proof. solve_decision. Defined.

Record MaintenanceLease := {
  token_hash : list N;
  kind : LeaseKind;
  owner : list N;
  operation : option (list N);
  lease_generation : option Z;
  created_at : Z;
  renewed_at : Z;
  expires_at : Z;
}.

Record db := { row : option UpdateCoordinatorState; leases : list MaintenanceLease }.

Inductive coordination_error : Type :=
  | CoordinatorRecoveryNotReadyError (reason : list N)
  | UnknownCoordinatorPhaseError (phase : list N)
  | DrainLeaseActiveError (phase : list N)
  | IntegrityError.

Record ForceResetResult := {
  old_phase : option (list N);
  cleared_requested_action : option (list N);
  old_action_generation : option Z;
  new_action_generation : option Z;
}.

(** The row's columns without the two of the outcome receipt, which the
    snapshot does not carry, and the lease summary. *)
Record CoordinatorSnapshot := {
  columns : UpdateCoordinatorState;
  active_critical_operations : Z;
  drain_owner : option (list N);
  drain_expires_at : option Z;
}.

(** ** Computations on the store *)

Inductive outcome (A : Type) : Type :=
  | Done (x : A)
  | Throw (e : coordination_error).
Arguments Done {A} _.
Arguments Throw {A} _.

Definition M (A : Type) : Type := db -> outcome A * db.

#[export] Instance M_ret : MRet M := fun A x d => (Done x, d).
#[export] Instance M_bind : MBind M := fun A B f m d =>
  match m d with
  | (Done x, d') => f x d'
  | (Throw e, d') => (Throw e, d')
  end.

Definition throw {A} (e : coordination_error) : M A := fun d => (Throw e, d).

(** *** The [values(...)] of an [UPDATE] *)

Inductive column_value : Type :=
  | set_phase (p : list N)
  | set_requested_action (a : list N)
  | set_action_generation (g : Z)
  | set_acknowledged_generation (g : Z)
  | set_text (c : text_column) (v : option (list N))
  | set_time (c : time_column) (v : option Z).

Definition assign (st : UpdateCoordinatorState) (v : column_value) : UpdateCoordinatorState :=
  let '{| requested_action := a; action_generation := g; acknowledged_generation := k;
          phase := p; text := tx; time := tm |} := st in
  match v with
  | set_phase p' => Build_UpdateCoordinatorState a g k p' tx tm
  | set_requested_action a' => Build_UpdateCoordinatorState a' g k p tx tm
  | set_action_generation g' => Build_UpdateCoordinatorState a g' k p tx tm
  | set_acknowledged_generation k' => Build_UpdateCoordinatorState a g k' p tx tm
  | set_text c x =>
      Build_UpdateCoordinatorState a g k p (fun c' => if bool_decide (c' = c) then x else tx c') tm
  | set_time c x =>
      Build_UpdateCoordinatorState a g k p tx (fun c' => if bool_decide (c' = c) then x else tm c')
  end.

(** A later entry of the dictionary replaces an earlier one. *)
Definition assign_all (values : list column_value) (st : UpdateCoordinatorState)
    : UpdateCoordinatorState := foldl assign st values.

(** The row a fresh database gets: the columns' defaults. *)
Definition fresh_row : UpdateCoordinatorState :=
  {| requested_action := lit "none"; action_generation := 0; acknowledged_generation := 0;
     phase := lit "idle"; text := fun _ => None; time := fun _ => None |}.

Definition the_row (d : db) : UpdateCoordinatorState := default fresh_row (row d).

Definition ensure_state : M UpdateCoordinatorState := fun d =>
  (Done (the_row d), {| row := Some (the_row d); leases := leases d |}).

(** [ensure_state], then the locking [UPDATE], then the refreshed row. *)
Definition _lock : M UpdateCoordinatorState := ensure_state.

(** [session.refresh(state)]. *)
Definition refresh : M UpdateCoordinatorState := fun d => (Done (the_row d), d).

(** [UPDATE ... WHERE id = 1 AND cond VALUES values], and its row count. *)
Definition update_where (cond : UpdateCoordinatorState -> bool) (values : list column_value) : M Z :=
  fun d =>
    if cond (the_row d) then
      (Done 1%Z, {| row := Some (assign_all values (the_row d)); leases := leases d |})
    else (Done 0%Z, d).

Definition anywhere (_ : UpdateCoordinatorState) : bool := true.

(** *** The lease table *)

Definition is_drain (l : MaintenanceLease) : bool := bool_decide (kind l = drain).
Definition is_critical (l : MaintenanceLease) : bool := bool_decide (kind l = critical).
Definition expired (now : Z) (l : MaintenanceLease) : bool := (expires_at l <=? now)%Z.
Definition has_token (t : list N) (l : MaintenanceLease) : bool := bool_decide (token_hash l = t).

Definition put_leases (ls : list MaintenanceLease) : M unit := fun d =>
  (Done tt, {| row := row d; leases := ls |}).
Definition all_leases : M (list MaintenanceLease) := fun d => (Done (leases d), d).

(** [session.add] and [flush]: the unique token index and the partial unique
    index on drains. *)
Definition insert_lease (l : MaintenanceLease) : M unit :=
  ls ← all_leases;
  if existsb (has_token (token_hash l)) ls || (is_drain l && existsb is_drain ls)
  then throw IntegrityError
  else put_leases (ls ++ [l]).

Definition delete_lease (l : MaintenanceLease) : M unit :=
  ls ← all_leases; put_leases (List.filter (fun l' => negb (has_token (token_hash l) l')) ls).

Definition renewed (now ttl : Z) (l : MaintenanceLease) : MaintenanceLease :=
  {| token_hash := token_hash l; kind := kind l; owner := owner l; operation := operation l;
     lease_generation := lease_generation l; created_at := created_at l;
     renewed_at := now; expires_at := now + ttl |}.

(** Set the two columns on the rows that satisfy [p]; the row count. *)
Definition renew_where (p : MaintenanceLease -> bool) (now ttl : Z) : M Z :=
  ls ← all_leases;
  put_leases ((fun l => if p l then renewed now ttl l else l) <$> ls) ;;
  mret (Z.of_nat (length (List.filter p ls))).

Definition _active_drain : M (option MaintenanceLease) :=
  ls ← all_leases; mret (List.find is_drain ls).

Definition _critical_count : M Z :=
  ls ← all_leases; mret (Z.of_nat (length (List.filter is_critical ls))).

Definition _lease_for_token (t : list N) (k : option LeaseKind) : M (option MaintenanceLease) :=
  ls ← all_leases;
  mret (List.find (fun l => has_token t l
          && match k with Some k => bool_decide (kind l = k) | None => true end) ls).

(** ** The operations *)

Definition drained_phases : list (list N) :=
  lit <$> ["draining"; "installing"; "rollback"]%string.

Definition known (st : UpdateCoordinatorState) : bool := mem (phase st) KNOWN_COORDINATOR_PHASES.
Definition busy (st : UpdateCoordinatorState) : bool := mem (phase st) BUSY_COORDINATOR_PHASES.

Definition _cleanup_expired (now : Z) : M Z :=
  ls ← all_leases;
  let expired_drain := existsb (fun l => is_drain l && expired now l) ls in
  put_leases (List.filter (fun l => negb (expired now l)) ls) ;;
  (if expired_drain then
     update_where (fun st => mem (phase st) drained_phases)
       [set_phase (lit "idle"); set_time last_started_at None]
   else mret 0%Z) ;;
  mret (Z.of_nat (length (List.filter (expired now) ls))).

(** [if state.phase not in _KNOWN_COORDINATOR_PHASES: raise]. *)
Definition guard_known (st : UpdateCoordinatorState) : M unit :=
  if known st then mret tt else throw (UnknownCoordinatorPhaseError (phase st)).

Definition legacy_anchor (st : UpdateCoordinatorState) (now : Z) : Z :=
  match time st updater_last_seen_at with
  | Some heartbeat => if (heartbeat <=? now)%Z then heartbeat else now
  | None => now
  end.

Definition unset (x : option Z) : bool := match x with None => true | Some _ => false end.

Definition _backfill_legacy_busy_anchor (st : UpdateCoordinatorState) (now : Z) : M unit :=
  if negb (busy st) || negb (unset (time st last_started_at)) || negb (unset (time st requested_at))
  then mret tt
  else
    update_where (fun cur => bool_decide (phase cur = phase st)
        && unset (time cur last_started_at) && unset (time cur requested_at))
      [set_time last_started_at (Some (legacy_anchor st now))] ;;
    mret tt.

Definition _phase_timestamp_values (prior_phase resulting_phase : list N) (now : Z)
    : list column_value :=
  if negb (mem resulting_phase BUSY_COORDINATOR_PHASES) then [set_time last_started_at None]
  else if negb (bool_decide (prior_phase = resulting_phase))
  then [set_time last_started_at (Some now)]
  else [].

Definition without_receipt (st : UpdateCoordinatorState) : UpdateCoordinatorState :=
  assign_all [set_text last_outcome_token_hash None; set_text last_outcome_fingerprint None] st.

Definition snapshot (now : Z) : M CoordinatorSnapshot :=
  _lock ;;
  _cleanup_expired now ;;
  state ← refresh;
  _backfill_legacy_busy_anchor state now ;;
  state ← refresh;
  critical_count ← _critical_count;
  active ← _active_drain;
  mret {| columns := without_receipt state; active_critical_operations := critical_count;
          drain_owner := owner <$> active; drain_expires_at := expires_at <$> active |}.

Definition record_updater_identity (now : Z) (observed_build observed_digest : option (list N))
    : M unit :=
  state ← _lock;
  guard_known state ;;
  update_where anywhere
    [set_text updater_observed_build observed_build;
     set_text updater_observed_digest observed_digest] ;;
  mret tt.

Definition record_refresh_outcome (now : Z) (result : list N)
    (detail_code from_build to_build : option (list N)) : M unit :=
  state ← _lock;
  guard_known state ;;
  update_where anywhere
    [set_text last_refresh_result (Some result);
     set_text last_refresh_detail_code detail_code;
     set_text last_refresh_from_build from_build;
     set_text last_refresh_to_build to_build;
     set_time last_refresh_at (Some now)] ;;
  mret tt.

Definition mark_busy_work_dispatched (now : Z) : M bool :=
  state ← _lock;
  if negb (busy state) then mret false
  else
    update_where (fun cur => bool_decide (phase cur = phase state))
      [set_time last_started_at (Some now)] ;;
    mret true.

Definition touch_updater (now : Z) (new_phase : option (list N)) (expected_generation : option Z)
    : M bool :=
  state ← _lock;
  guard_known state ;;
  _backfill_legacy_busy_anchor state now ;;
  let resulting_phase := default (phase state) new_phase in
  let values :=
    [set_time updater_last_seen_at (Some now)]
    ++ _phase_timestamp_values (phase state) resulting_phase now
    ++ match new_phase with Some p => [set_phase p] | None => [] end in
  n ← update_where (fun cur => match expected_generation with
                               | Some g => (action_generation cur =? g)%Z
                               | None => true
                               end) values;
  mret (n =? 1)%Z.

Definition request_action (action : list N) (now : Z) : M (option Z) :=
  state ← _lock;
  guard_known state ;;
  if busy state then mret None
  else if negb (bool_decide (requested_action state = lit "none")) then mret None
  else
    let generation := (action_generation state + 1)%Z in
    update_where (fun cur => (action_generation cur =? action_generation state)%Z)
      [set_requested_action action; set_action_generation generation;
       set_time requested_at (Some now)] ;;
    mret (Some generation).

Definition acquire_critical (token owner operation : list N) (now ttl : Z)
    : M (option MaintenanceLease) :=
  _lock ;;
  _cleanup_expired now ;;
  active ← _active_drain;
  match active with
  | Some _ => mret None
  | None =>
      let lease := {| token_hash := token; kind := critical; owner := owner;
                      operation := Some operation; lease_generation := None;
                      created_at := now; renewed_at := now; expires_at := now + ttl |} in
      insert_lease lease ;;
      mret (Some lease)
  end.

Definition claim_drain (token owner : list N) (claimed_generation : option Z)
    (materialize_install require_idle : bool) (now ttl : Z)
    : M (option (MaintenanceLease * bool)) :=
  _lock ;;
  _cleanup_expired now ;;
  state ← refresh;
  guard_known state ;;
  active ← _active_drain;
  if match active with Some _ => true | None => false end then mret None
  else
    let generation := default (action_generation state) claimed_generation in
    if match claimed_generation with
       | Some _ => negb (generation =? action_generation state)%Z
       | None => false
       end then mret None
    else
      criticals ← _critical_count;
      if require_idle && negb (criticals =? 0)%Z then mret None
      else if materialize_install && negb (bool_decide (requested_action state = lit "none"))
      then mret None
      else
        let generation :=
          if materialize_install then (action_generation state + 1)%Z else generation in
        (if materialize_install then
           update_where (fun cur => (action_generation cur =? action_generation state)%Z
               && bool_decide (requested_action cur = lit "none"))
             [set_requested_action (lit "install"); set_action_generation generation;
              set_time requested_at (Some now)]
         else mret 0%Z) ;;
        let lease := {| token_hash := token; kind := drain; owner := owner;
                        operation := Some (lit "container_update");
                        lease_generation := Some generation;
                        created_at := now; renewed_at := now; expires_at := now + ttl |} in
        insert_lease lease ;;
        update_where anywhere
          ([set_phase (lit "draining")]
           ++ _phase_timestamp_values (phase state) (lit "draining") now) ;;
        criticals ← _critical_count;
        mret (Some (lease, (criticals =? 0)%Z)).

Definition renew (token : list N) (now ttl : Z) : M bool :=
  _lock ;;
  _cleanup_expired now ;;
  n ← renew_where (fun l => has_token token l && (now <? expires_at l)%Z) now ttl;
  mret (n =? 1)%Z.

Definition renew_drain_progress (token : list N) (now ttl : Z) (new_phase : option (list N))
    : M (option bool) :=
  _lock ;;
  _cleanup_expired now ;;
  state ← refresh;
  guard_known state ;;
  lease ← _lease_for_token token (Some drain);
  match lease with
  | None => mret None
  | Some lease =>
      criticals ← _critical_count;
      let ready := (criticals =? 0)%Z in
      renew_where (has_token (token_hash lease)) now ttl ;;
      let resulting_phase :=
        match new_phase with
        | Some p => if ready then p else lit "draining"
        | None => if mem (phase state) drained_phases then phase state else lit "draining"
        end in
      update_where anywhere
        ([set_phase resulting_phase; set_time updater_last_seen_at (Some now)]
         ++ _phase_timestamp_values (phase state) resulting_phase now) ;;
      mret (Some ready)
  end.

Definition release (token : list N) (now : Z) : M bool :=
  _lock ;;
  _cleanup_expired now ;;
  state ← refresh;
  lease ← _lease_for_token token None;
  match lease with
  | None => mret false
  | Some lease =>
      if negb (is_drain lease) then delete_lease lease ;; mret true
      else
        guard_known state ;;
        delete_lease lease ;;
        update_where anywhere [set_phase (lit "idle"); set_time last_started_at None] ;;
        mret true
  end.

(** The start of the phase the recovery measures from. *)
Definition phase_anchor (st : UpdateCoordinatorState) : option Z :=
  if busy st then
    match time st last_started_at with Some t => Some t | None => time st requested_at end
  else None.

Definition force_reset_phase (now recovery_max_age : Z) : M (option ForceResetResult) :=
  _lock ;;
  _cleanup_expired now ;;
  state ← refresh;
  _backfill_legacy_busy_anchor state now ;;
  state ← refresh;
  active ← _active_drain;
  let live_drain := match active with Some _ => true | None => false end in
  let decision := decide_recovery (phase state) (requested_action state) live_drain
                    (phase_anchor state) now recovery_max_age in
  match rd_action decision with
  | LIVE_DRAIN => throw (DrainLeaseActiveError (phase state))
  | WAIT => throw (CoordinatorRecoveryNotReadyError (rd_reason decision))
  | NOOP => mret None
  | ACTION_ONLY | REANCHOR =>
      let reanchored := bool_decide (rd_action decision = REANCHOR) in
      let fenced := rd_fence_generation decision in
      let cleared := fenced && rd_clear_unknown_action decision in
      let new_generation := (action_generation state + 1)%Z in
      update_where (fun cur => (action_generation cur =? action_generation state)%Z)
        ((if reanchored then [set_phase (lit "idle"); set_time last_started_at None] else [])
         ++ (if cleared then [set_requested_action (lit "none")] else [])
         ++ (if fenced then [set_action_generation new_generation] else [])) ;;
      mret (Some {| old_phase := if reanchored then Some (phase state) else None;
                    cleared_requested_action :=
                      if cleared then Some (requested_action state) else None;
                    old_action_generation := if fenced then Some (action_generation state) else None;
                    new_action_generation := if fenced then Some new_generation else None |})
  end.

(** The image columns an outcome of a check may carry. *)
Inductive image_column : Type :=
  | image_current_build | image_current_digest | image_available_build | image_available_digest.

Definition column_of (c : image_column) : text_column :=
  match c with
  | image_current_build => current_build | image_current_digest => current_digest
  | image_available_build => available_build | image_available_digest => available_digest
  end.

Definition acknowledge_action (expected_generation : Z) (new_phase result : list N)
    (error_code : option (list N)) (image_values : list (image_column * option (list N)))
    (preserve_action : bool) (now : Z) : M bool :=
  state ← _lock;
  guard_known state ;;
  if negb (action_generation state =? expected_generation)%Z then mret false
  else
    update_where (fun cur => (action_generation cur =? expected_generation)%Z)
      ([set_phase new_phase;
        set_text last_operation (Some (lit "check"));
        set_text last_result (Some result);
        set_text last_error_code error_code;
        set_text last_from_build None; set_text last_to_build None;
        set_text last_outcome_token_hash None; set_text last_outcome_fingerprint None;
        set_time last_completed_at (Some now); set_time last_checked_at (Some now);
        set_time updater_last_seen_at (Some now)]
       ++ _phase_timestamp_values (phase state) new_phase now
       ++ (if preserve_action then []
           else [set_requested_action (lit "none");
                 set_acknowledged_generation expected_generation])
       ++ ((fun '(c, v) => set_text (column_of c) v) <$> image_values)) ;;
    mret true.

(** What a retried acknowledgement must repeat. *)
Definition receipt_matches (st : UpdateCoordinatorState) (token : list N)
    (expected_generation : option Z) (result fingerprint : list N) : bool :=
  match expected_generation with
  | None => true
  | Some g => (acknowledged_generation st =? g)%Z
  end
  && bool_decide (text st last_outcome_token_hash = Some token)
  && bool_decide (text st last_outcome_fingerprint = Some fingerprint)
  && bool_decide (text st last_result = Some result).

Definition set_if_some (c : text_column) (v : option (list N)) : list column_value :=
  match v with Some _ => [set_text c v] | None => [] end.

Definition acknowledge_outcome (token : list N) (expected_generation : option Z)
    (new_phase result : list N) (error_code from_build to_build new_build new_digest : option (list N))
    (fingerprint : list N) (now : Z) : M bool :=
  _lock ;;
  _cleanup_expired now ;;
  state ← refresh;
  guard_known state ;;
  lease ← _lease_for_token token (Some drain);
  match lease with
  | None => mret (receipt_matches state token expected_generation result fingerprint)
  | Some lease =>
      if match expected_generation with
         | Some g => negb (bool_decide (lease_generation lease = Some g))
                     || negb (action_generation state =? g)%Z
         | None => false
         end then mret false
      else
        update_where anywhere
          ([set_phase new_phase;
            set_text last_operation (Some (lit "install"));
            set_text last_result (Some result);
            set_text last_error_code error_code;
            set_text last_from_build from_build; set_text last_to_build to_build;
            set_text last_outcome_token_hash (Some token);
            set_text last_outcome_fingerprint (Some fingerprint);
            set_time last_completed_at (Some now);
            set_text available_build None; set_text available_digest None;
            set_time updater_last_seen_at (Some now)]
           ++ _phase_timestamp_values (phase state) new_phase now
           ++ set_if_some current_build new_build ++ set_if_some current_digest new_digest
           ++ match lease_generation lease with
              | Some g => if (g =? action_generation state)%Z
                          then [set_requested_action (lit "none"); set_acknowledged_generation g]
                          else []
              | None => []
              end) ;;
        delete_lease lease ;;
        mret true
  end.

(** ** The operations as requests, in the service's transactions *)

Inductive request : Type :=
  | Snapshot (now : Z)
  | RecordIdentity (now : Z) (build digest : option (list N))
  | RecordRefresh (now : Z) (result : list N) (detail_code from_build to_build : option (list N))
  | MarkBusy (now : Z)
  | TouchUpdater (now : Z) (new_phase : option (list N)) (expected_generation : option Z)
  | RequestAction (action : list N) (now : Z)
  | AcquireCritical (token owner operation : list N) (now ttl : Z)
  | ClaimDrain (token owner : list N) (claimed_generation : option Z)
      (materialize_install require_idle : bool) (now ttl : Z)
  | Renew (token : list N) (now ttl : Z)
  | RenewDrain (token : list N) (now ttl : Z) (new_phase : option (list N))
  | Release (token : list N) (now : Z)
  | ForceReset (now recovery_max_age : Z)
  | AckAction (expected_generation : Z) (new_phase result : list N) (error_code : option (list N))
      (image_values : list (image_column * option (list N))) (preserve_action : bool) (now : Z)
  | AckOutcome (token : list N) (expected_generation : option Z) (new_phase result : list N)
      (error_code from_build to_build new_build new_digest : option (list N))
      (fingerprint : list N) (now : Z).

(** A raising computation is rolled back. *)
Definition commit {A} (m : M A) : db -> db := fun d =>
  match m d with (Done _, d') => d' | (Throw _, _) => d end.

(** [request_action]'s refusal is raised before the commit. *)
Definition commit_some {A} (m : M (option A)) : db -> db := fun d =>
  match m d with (Done (Some _), d') => d' | _ => d end.

(** A refused [force_reset] still commits what it observed. *)
Definition commit_refusals {A} (m : M A) : db -> db := fun d =>
  match m d with
  | (Done _, d') => d'
  | (Throw (CoordinatorRecoveryNotReadyError _), d') => d'
  | (Throw (DrainLeaseActiveError _), d') => d'
  | (Throw _, _) => d
  end.

Definition exec (r : request) : db -> db :=
  match r with
  | Snapshot now => commit (snapshot now)
  | RecordIdentity now b g => commit (record_updater_identity now b g)
  | RecordRefresh now r c f t => commit (record_refresh_outcome now r c f t)
  | MarkBusy now => commit (mark_busy_work_dispatched now)
  | TouchUpdater now p g => commit (touch_updater now p g)
  | RequestAction a now => commit_some (request_action a now)
  | AcquireCritical t o op now ttl => commit (acquire_critical t o op now ttl)
  | ClaimDrain t o g m i now ttl => commit (claim_drain t o g m i now ttl)
  | Renew t now ttl => commit (renew t now ttl)
  | RenewDrain t now ttl p => commit (renew_drain_progress t now ttl p)
  | Release t now => commit (release t now)
  | ForceReset now age => commit_refusals (force_reset_phase now age)
  | AckAction g p r e i k now => commit (acknowledge_action g p r e i k now)
  | AckOutcome t g p r e f b nb nd fp now =>
      commit (acknowledge_outcome t g p r e f b nb nd fp now)
  end.

Definition run (rs : list request) (d : db) : db := foldl (fun d r => exec r d) d rs.

(** The instant a request is handled at. *)
Definition now_of (r : request) : Z :=
  match r with
  | Snapshot now | RecordIdentity now _ _ | RecordRefresh now _ _ _ _ | MarkBusy now
  | TouchUpdater now _ _ | RequestAction _ now | AcquireCritical _ _ _ now _
  | ClaimDrain _ _ _ _ _ now _ | Renew _ now _ | RenewDrain _ now _ _ | Release _ now
  | ForceReset now _ | AckAction _ _ _ _ _ _ now | AckOutcome _ _ _ _ _ _ _ _ _ _ now => now
  end.

(** ** The lease protocol

    What a request may do to the lease table: nothing; drop the expired
    leases; and then admit one lease of its own, when no drain is live, renew
    the lease with its token, or drop the lease with its token. *)

Definition live (now : Z) (ls : list MaintenanceLease) : list MaintenanceLease :=
  List.filter (fun l => negb (expired now l)) ls.

Definition drained (ls : list MaintenanceLease) : bool := existsb is_drain ls.
Definition criticals (ls : list MaintenanceLease) : list MaintenanceLease :=
  List.filter is_critical ls.
Definition without (t : list N) (ls : list MaintenanceLease) : list MaintenanceLease :=
  List.filter (fun l => negb (has_token t l)) ls.

(** The kind and the token of the lease a request may add, the token it may
    renew, the one it may drop. *)
Definition admits (r : request) : option (LeaseKind * list N) :=
  match r with
  | AcquireCritical t _ _ _ _ => Some (critical, t)
  | ClaimDrain t _ _ _ _ _ _ => Some (drain, t)
  | _ => None
  end.
Definition renews (r : request) : option (list N) :=
  match r with Renew t _ _ | RenewDrain t _ _ _ => Some t | _ => None end.
Definition drops (r : request) : option (list N) :=
  match r with Release t _ | AckOutcome t _ _ _ _ _ _ _ _ _ _ => Some t | _ => None end.

Inductive lease_step (r : request) (ls : list MaintenanceLease) : list MaintenanceLease -> Prop :=
  | step_untouched : lease_step r ls ls
  | step_expire : lease_step r ls (live (now_of r) ls)
  | step_admit l :
      admits r = Some (kind l, token_hash l) -> created_at l = now_of r ->
      drained (live (now_of r) ls) = false ->
      existsb (has_token (token_hash l)) (live (now_of r) ls) = false ->
      lease_step r ls (live (now_of r) ls ++ [l])
  | step_renew t ttl :
      renews r = Some t ->
      lease_step r ls ((fun l => if has_token t l then renewed (now_of r) ttl l else l)
                         <$> live (now_of r) ls)
  | step_drop t :
      drops r = Some t -> lease_step r ls (without t (live (now_of r) ls)).

(** ** Running the primitives *)

Lemma bind_run {A B} (m : M A) (f : A -> M B) d :
  (m ≫= f) d = match m d with (Done x, d') => f x d' | (Throw e, d') => (Throw e, d') end.
Proof. reflexivity. Qed.

Definition locked (d : db) : db := {| row := Some (the_row d); leases := leases d |}.
Definition with_row (st : UpdateCoordinatorState) (d : db) : db :=
  {| row := Some st; leases := leases d |}.

Definition written (cond : UpdateCoordinatorState -> bool) (values : list column_value) (d : db) : db :=
  if cond (the_row d) then with_row (assign_all values (the_row d)) d else d.

Lemma update_where_run cond values d :
  update_where cond values d =
  (Done (if cond (the_row d) then 1 else 0)%Z, written cond values d).
Proof. unfold update_where, written. by destruct (cond _). Qed.

Lemma written_leases cond values d : leases (written cond values d) = leases d.
Proof. unfold written. by destruct (cond _). Qed.

Definition cleaned (now : Z) (d : db) : db :=
  let d' := {| row := row d; leases := live now (leases d) |} in
  if existsb (fun l => is_drain l && expired now l) (leases d) then
    written (fun st => mem (phase st) drained_phases)
      [set_phase (lit "idle"); set_time last_started_at None] d'
  else d'.

Lemma cleanup_run now d :
  _cleanup_expired now d =
  (Done (Z.of_nat (length (List.filter (expired now) (leases d)))), cleaned now d).
Proof.
  unfold _cleanup_expired, cleaned. rewrite !bind_run. cbn [all_leases put_leases].
  rewrite !bind_run. cbn [put_leases]. rewrite !bind_run.
  destruct (existsb _ _); [rewrite update_where_run|]; reflexivity.
Qed.

Lemma cleaned_leases now d : leases (cleaned now d) = live now (leases d).
Proof. unfold cleaned. destruct (existsb _ _); [by rewrite written_leases|done]. Qed.

Definition backfilled (st : UpdateCoordinatorState) (now : Z) (d : db) : db :=
  if negb (busy st) || negb (unset (time st last_started_at)) || negb (unset (time st requested_at))
  then d
  else
    written (fun cur => bool_decide (phase cur = phase st)
        && unset (time cur last_started_at) && unset (time cur requested_at))
      [set_time last_started_at (Some (legacy_anchor st now))] d.

Lemma backfill_run st now d :
  _backfill_legacy_busy_anchor st now d = (Done tt, backfilled st now d).
Proof.
  unfold _backfill_legacy_busy_anchor, backfilled. destruct (_ || _); [done|].
  by rewrite bind_run, update_where_run.
Qed.

Lemma backfilled_leases st now d : leases (backfilled st now d) = leases d.
Proof. unfold backfilled. destruct (_ || _); [done|]. apply written_leases. Qed.

Lemma lock_run d : _lock d = (Done (the_row d), locked d).
Proof. reflexivity. Qed.
Lemma refresh_run d : refresh d = (Done (the_row d), d).
Proof. reflexivity. Qed.
Lemma all_leases_run d : all_leases d = (Done (leases d), d).
Proof. reflexivity. Qed.
Lemma put_leases_run ls d : put_leases ls d = (Done tt, {| row := row d; leases := ls |}).
Proof. reflexivity. Qed.
Lemma mret_run {A} (x : A) d : (mret x : M A) d = (Done x, d).
Proof. reflexivity. Qed.
Lemma active_run d : _active_drain d = (Done (List.find is_drain (leases d)), d).
Proof. reflexivity. Qed.
Lemma count_run d : _critical_count d = (Done (Z.of_nat (length (criticals (leases d)))), d).
Proof. reflexivity. Qed.
Lemma guard_run st d :
  guard_known st d = (if known st then (Done tt, d)
                      else (Throw (UnknownCoordinatorPhaseError (phase st)), d)).
Proof. unfold guard_known. by destruct (known st). Qed.
Lemma locked_row d : the_row (locked d) = the_row d.
Proof. reflexivity. Qed.
Lemma locked_leases d : leases (locked d) = leases d.
Proof. reflexivity. Qed.

Lemma throw_run {A} e d : (throw e : M A) d = (Throw e, d).
Proof. reflexivity. Qed.

Definition duplicate (l : MaintenanceLease) (ls : list MaintenanceLease) : bool :=
  existsb (has_token (token_hash l)) ls || (is_drain l && drained ls).

Lemma insert_run l d :
  insert_lease l d = (if duplicate l (leases d) then (Throw IntegrityError, d)
                      else (Done tt, {| row := row d; leases := leases d ++ [l] |})).
Proof.
  unfold insert_lease. rewrite bind_run. cbn [all_leases]. change (all_leases d) with (@Done _ (leases d), d).
  cbn beta iota. unfold duplicate, drained. by destruct (_ || _).
Qed.

Lemma delete_run l d :
  delete_lease l d = (Done tt, {| row := row d; leases := without (token_hash l) (leases d) |}).
Proof. reflexivity. Qed.

Lemma renew_where_run p now ttl d :
  renew_where p now ttl d =
  (Done (Z.of_nat (length (List.filter p (leases d)))),
   {| row := row d; leases := (fun l => if p l then renewed now ttl l else l) <$> leases d |}).
Proof. reflexivity. Qed.

Lemma lease_for_token_run t k d :
  _lease_for_token t k d =
  (Done (List.find (fun l => has_token t l
          && match k with Some k => bool_decide (kind l = k) | None => true end) (leases d)), d).
Proof. reflexivity. Qed.

Create Rewrite HintDb coordination.
#[export] Hint Rewrite @throw_run insert_run delete_run renew_where_run lease_for_token_run
  @bind_run update_where_run cleanup_run backfill_run lock_run refresh_run
  all_leases_run put_leases_run @mret_run active_run count_run guard_run locked_row
  locked_leases written_leases cleaned_leases backfilled_leases : coordination.

(** Run a computation on a store until it branches. *)
Ltac go := repeat (progress (autorewrite with coordination; cbn [leases row app fmap list_fmap])).

Lemma find_none {A} (f : A -> bool) l : List.find f l = None <-> existsb f l = false.
Proof.
  induction l as [|x l IH]; cbn; [done|]. destruct (f x); cbn; [done|]. exact IH.
Qed.

Lemma live_not_expired now ls l : l ∈ live now ls <-> l ∈ ls /\ (now < expires_at l)%Z.
Proof.
  unfold live. rewrite !list_elem_of_In, filter_In, negb_true_iff. unfold expired.
  by rewrite Z.leb_gt.
Qed.

Lemma find_token t (p : MaintenanceLease -> bool) ls l :
  List.find (fun l => has_token t l && p l) ls = Some l ->
  l ∈ ls /\ token_hash l = t /\ p l = true.
Proof.
  intros [Hin H]%List.find_some. apply andb_true_iff in H as [Ht Hp].
  apply bool_decide_eq_true in Ht. by rewrite list_elem_of_In.
Qed.

Lemma fmap_token_live now (p : MaintenanceLease -> bool) (f : MaintenanceLease -> MaintenanceLease) ls :
  (fun l => if p l && (now <? expires_at l)%Z then f l else l) <$> live now ls =
  (fun l => if p l then f l else l) <$> live now ls.
Proof.
  apply list_fmap_ext. intros i l Hl. apply list_elem_of_lookup_2, live_not_expired in Hl as [_ Hl].
  apply Z.ltb_lt in Hl. by rewrite Hl, andb_true_r.
Qed.

(** Every request takes a step of the lease protocol. *)
Lemma exec_lease_step r d : lease_step r (leases d) (leases (exec r d)).
Proof.
  destruct r; cbn [exec]; unfold commit, commit_some, commit_refusals.
  - unfold snapshot. go. constructor.
  - unfold record_updater_identity. go. destruct (known _); go; constructor.
  - unfold record_refresh_outcome. go. destruct (known _); go; constructor.
  - unfold mark_busy_work_dispatched. go. destruct (busy _); cbn [negb]; go; constructor.
  - unfold touch_updater. go. destruct (known _); go; constructor.
  - unfold request_action. go. destruct (known _); go; [|constructor].
    destruct (busy _); go; [constructor|]. destruct (negb _); go; constructor.
  - unfold acquire_critical. go. destruct (List.find _ _) eqn:Hf; go; [constructor|].
    destruct (duplicate _ _) eqn:Hd; go; [constructor|].
    apply orb_false_iff in Hd as [Hd _]. apply find_none in Hf. by constructor.
  - unfold claim_drain. go. destruct (known _); go; [|constructor].
    destruct (List.find _ _) eqn:Hf; go; [constructor|]. apply find_none in Hf.
    destruct (match claimed_generation with Some _ => _ | None => _ end); go; [constructor|].
    destruct (require_idle && _); go; [constructor|].
    destruct (materialize_install && _); go; [constructor|].
    destruct materialize_install; go;
    (destruct (duplicate _ _) eqn:Hd; go; [constructor|];
     apply orb_false_iff in Hd as [Hd _]; by constructor).
  - unfold renew. go. rewrite fmap_token_live. by constructor.
  - unfold renew_drain_progress. go. destruct (known _); go; [|constructor].
    destruct (List.find _ _) eqn:Hf; go; [|constructor].
    apply find_token in Hf as (_ & -> & _). by constructor.
  - unfold release. go. destruct (List.find _ _) eqn:Hf; go; [|constructor].
    apply find_token in Hf as (_ & <- & _). destruct (is_drain _); cbn [negb]; go; [|by constructor].
    destruct (known _); go; [by constructor|constructor].
  - unfold force_reset_phase. go. destruct (rd_action _); go; constructor.
  - unfold acknowledge_action. go. destruct (known _); go; [|constructor].
    destruct (negb _); go; constructor.
  - unfold acknowledge_outcome. go. destruct (known _); go; [|constructor].
    destruct (List.find _ _) eqn:Hf; go; [|constructor].
    apply find_token in Hf as (_ & <- & _).
    destruct (match expected_generation with Some _ => _ | None => _ end); go; by constructor.
Qed.
