(* ===== verification/UpdateLaws.v ===== *)
(** * What the update coordinator guarantees

    The laws of the operations of [UpdateCoordination], for every trace of
    requests: the lease table's invariant, mutual exclusion of a drain and
    critical work, monotone generations, and unknown phases. *)

From Stdlib Require Import ZArith Lia Bool String.
From S2P Require Import Prelude PyStr UpdateRecovery UpdateCoordination.

#[local] Open Scope bool_scope.

Lemma run_app rs1 rs2 d : run (rs1 ++ rs2) d = run rs2 (run rs1 d).
Proof. apply foldl_app. Qed.

(** ** The table's invariant *)

Definition table_ok (ls : list MaintenanceLease) : Prop :=
  NoDup (token_hash <$> ls) /\ length (List.filter is_drain ls) <= 1.

Lemma filter_filter_length {A} (f g : A -> bool) l :
  length (List.filter f (List.filter g l)) <= length (List.filter f l).
Proof.
  induction l as [|x l IH]; [done|]. cbn [List.filter].
  destruct (g x); cbn [List.filter]; destruct (f x); cbn [length]; lia.
Qed.

Lemma filter_tokens_NoDup (f : MaintenanceLease -> bool) ls :
  NoDup (token_hash <$> ls) -> NoDup (token_hash <$> List.filter f ls).
Proof.
  induction ls as [|l ls IH]; [done|]. cbn. intros [Hn Hd]%NoDup_cons.
  destruct (f l); [|by apply IH]. cbn. apply NoDup_cons. split; [|by apply IH].
  intros (l' & Heq & Hl')%list_elem_of_fmap. apply Hn, list_elem_of_fmap. exists l'. split; [done|].
  apply list_elem_of_In in Hl'. apply filter_In in Hl' as [Hl' _]. by apply list_elem_of_In.
Qed.

Lemma table_ok_filter f ls : table_ok ls -> table_ok (List.filter f ls).
Proof.
  intros [H1 H2]. split; [by apply filter_tokens_NoDup|].
  pose proof (filter_filter_length is_drain f ls). lia.
Qed.

(** Renewing changes neither tokens nor kinds. *)
Definition renew_if (p : MaintenanceLease -> bool) (now ttl : Z) (l : MaintenanceLease)
    : MaintenanceLease := if p l then renewed now ttl l else l.

Lemma renew_tokens p now ttl (ls : list MaintenanceLease) : token_hash <$> (renew_if p now ttl <$> ls) = token_hash <$> ls.
Proof.
  rewrite <- list_fmap_compose. apply list_fmap_ext. intros i l _. cbn. unfold renew_if. by destruct (p l).
Qed.

Lemma renew_filter (f p : MaintenanceLease -> bool) now ttl ls :
  (forall l, f (renewed now ttl l) = f l) ->
  List.filter f (renew_if p now ttl <$> ls) = renew_if p now ttl <$> List.filter f ls.
Proof.
  intros Hf. induction ls as [|l ls IH]; [done|]. cbn [fmap list_fmap List.filter].
  replace (f (renew_if p now ttl l)) with (f l) by (unfold renew_if; destruct (p l); [by rewrite Hf|done]).
  destruct (f l); cbn; [by f_equal|done].
Qed.

Lemma drained_false_filter ls : drained ls = false -> List.filter is_drain ls = [].
Proof.
  unfold drained. induction ls as [|l ls IH]; cbn; [done|]. destruct (is_drain l); [done|]. exact IH.
Qed.

Lemma has_token_fresh t ls : existsb (has_token t) ls = false -> t ∉ (token_hash <$> ls).
Proof.
  intros H (l & Heq & Hl)%list_elem_of_fmap. apply not_true_iff_false in H. apply H.
  apply existsb_exists_iff. exists l. split; [done|]. by apply bool_decide_eq_true.
Qed.

Lemma lease_step_table_ok r ls ls' : lease_step r ls ls' -> table_ok ls -> table_ok ls'.
Proof.
  intros Hs Hok. pose proof (table_ok_filter (fun l => negb (expired (now_of r) l)) ls Hok) as [H1 H2].
  fold (live (now_of r) ls) in H1, H2. destruct Hs as [| |l _ _ Hd Ht|t ttl _|t _]; [done|by split| | |].
  - split.
    + rewrite fmap_app. apply NoDup_app. split; [done|]. split; [|apply NoDup_singleton].
      intros t Hin ->%list_elem_of_singleton. by apply has_token_fresh in Ht.
    + rewrite List.filter_app, drained_false_filter by done. cbn. by destruct (is_drain l); cbn; lia.
  - fold (renew_if (has_token t) (now_of r) ttl). split.
    + by rewrite renew_tokens.
    + by rewrite renew_filter, length_fmap.
  - by apply table_ok_filter.
Qed.

Definition empty_db : db := {| row := None; leases := [] |}.

(** At most one drain.  From an empty store, whatever requests arrive in
    whatever order and at whatever instants, no two leases ever share a token
    and the table never holds two drains, expired or not. *)
Theorem at_most_one_drain rs :
  NoDup (token_hash <$> leases (run rs empty_db)) /\
  length (List.filter is_drain (leases (run rs empty_db))) <= 1.
Proof.
  change (table_ok (leases (run rs empty_db))). assert (H : table_ok (leases empty_db)).
  { split; [constructor|cbn; lia]. }
  revert H. generalize empty_db. induction rs as [|r rs IH]; intros d H; [done|].
  apply IH. eapply lease_step_table_ok; [apply exec_lease_step|done].
Qed.

(** ** Drains and critical work *)

Definition critical_tokens (ls : list MaintenanceLease) : list (list N) :=
  token_hash <$> criticals ls.

Lemma critical_tokens_filter f ls : critical_tokens (List.filter f ls) ⊆ critical_tokens ls.
Proof.
  intros t (l & -> & Hl)%list_elem_of_fmap. apply list_elem_of_fmap. exists l. split; [done|].
  unfold criticals in *. rewrite list_elem_of_In, !filter_In in *. tauto.
Qed.

Lemma lease_step_drained r ls ls' :
  lease_step r ls ls' -> drained ls' = true -> critical_tokens ls' ⊆ critical_tokens ls.
Proof.
  pose proof (critical_tokens_filter (fun l => negb (expired (now_of r) l)) ls) as Hl.
  fold (live (now_of r) ls) in Hl. intros Hs Hd.
  destruct Hs as [| |l Ha _ Hn _|t ttl _|t _]; [done|done| | |].
  - unfold drained in *. rewrite existsb_app, Hn in Hd. cbn in Hd. rewrite orb_false_r in Hd.
    unfold critical_tokens, criticals. rewrite List.filter_app, fmap_app. cbn [List.filter].
    assert (is_critical l = false) as ->.
    { apply bool_decide_eq_true in Hd. unfold is_critical. by rewrite Hd. }
    cbn [fmap list_fmap]. by rewrite app_nil_r.
  - fold (renew_if (has_token t) (now_of r) ttl). unfold critical_tokens, criticals in *.
    by rewrite renew_filter, renew_tokens.
  - etrans; [apply critical_tokens_filter|done].
Qed.

(** A drain stays in the table through the whole trace. *)
Fixpoint drained_throughout (rs : list request) (d : db) : Prop :=
  match rs with
  | [] => True
  | r :: rs => drained (leases (exec r d)) = true /\ drained_throughout rs (exec r d)
  end.

Lemma drained_run rs d :
  drained_throughout rs d -> critical_tokens (leases (run rs d)) ⊆ critical_tokens (leases d).
Proof.
  revert d; induction rs as [|r rs IH]; intros d; [done|]. intros [Hd Hrs].
  change (run (r :: rs) d) with (run rs (exec r d)). etrans; [by apply IH|].
  eapply lease_step_drained; [apply exec_lease_step|done].
Qed.

(** The service answers its drain holder that no critical work is left. *)
Definition answers_ready (r : request) (d : db) : bool :=
  match r with
  | ClaimDrain t o g m i now ttl =>
      match claim_drain t o g m i now ttl d with (Done (Some (_, b)), _) => b | _ => false end
  | RenewDrain t now ttl p =>
      match renew_drain_progress t now ttl p d with (Done (Some b), _) => b | _ => false end
  | _ => false
  end.

Lemma renewed_criticals p now ttl (ls : list MaintenanceLease) :
  criticals (renew_if p now ttl <$> ls) = renew_if p now ttl <$> criticals ls.
Proof. by apply renew_filter. Qed.

Lemma ready_means_no_criticals r d :
  answers_ready r d = true -> criticals (leases (exec r d)) = [].
Proof.
  assert (Hz : forall ls, (Z.of_nat (length (criticals ls)) =? 0)%Z = true -> criticals ls = []).
  { intros ls H%Z.eqb_eq. apply length_zero_iff_nil. lia. }
  destruct r; cbn [answers_ready exec]; try discriminate; unfold commit.
  - unfold claim_drain. go. destruct (known _); go; [|discriminate].
    destruct (List.find _ _) eqn:Hf; go; [discriminate|].
    destruct (match claimed_generation with Some _ => _ | None => _ end); go; [discriminate|].
    destruct (require_idle && _); go; [discriminate|].
    destruct (materialize_install && _); go; [discriminate|].
    destruct materialize_install; go; (destruct (duplicate _ _); go; [discriminate|]); apply Hz.
  - unfold renew_drain_progress. go. destruct (known _); go; [|discriminate].
    destruct (List.find _ _) eqn:Hf; go; [|discriminate]. intros H%Hz.
    fold (renew_if (has_token (token_hash m)) now ttl). by rewrite renewed_criticals, H.
Qed.

(** C30: mutual exclusion.  Once the drain's holder is told that no critical
    work is left, none is admitted for as long as a drain is in the table,
    whoever asks and whatever else happens to the coordinator. *)
Theorem ready_drain_excludes_critical_work r rs d :
  answers_ready r d = true -> drained_throughout rs (exec r d) ->
  criticals (leases (run rs (exec r d))) = [].
Proof.
  intros Hr Hrs. apply drained_run in Hrs. unfold critical_tokens at 2 in Hrs.
  rewrite (ready_means_no_criticals _ _ Hr) in Hrs. unfold critical_tokens in Hrs.
  destruct (criticals _) as [|l ls]; [done|]. exfalso.
  apply (not_elem_of_nil (token_hash l)), Hrs. left.
Qed.

(** A lease is not stolen: until it expires only its own token can end it,
    and until then it stays in the table as its holder acquired it, but for
    renewals by its own token. *)
Theorem live_lease_is_kept r d l :
  l ∈ leases d -> (now_of r < expires_at l)%Z -> drops r <> Some (token_hash l) ->
  exists l', l' ∈ leases (exec r d) /\
    (l' = l \/ renews r = Some (token_hash l) /\ exists ttl, l' = renewed (now_of r) ttl l).
Proof.
  intros Hin Hnow Hdrop. assert (Hlive : l ∈ live (now_of r) (leases d)) by by apply live_not_expired.
  destruct (exec_lease_step r d) as [| |l2 _ _ _ _|t ttl Hr|t Hr].
  - exists l. auto.
  - exists l. auto.
  - exists l. split; [|auto]. apply elem_of_app. by left.
  - exists (if has_token t l then renewed (now_of r) ttl l else l). split.
    + apply list_elem_of_fmap. by exists l.
    + destruct (has_token t l) eqn:Ht; [|auto]. apply bool_decide_eq_true in Ht as <-. eauto.
  - exists l. split; [|auto]. unfold without. rewrite list_elem_of_In, filter_In, <- list_elem_of_In.
    split; [done|]. apply negb_true_iff, bool_decide_eq_false. congruence.
Qed.

(** ** What the writes do to the row *)

Definition gen_value (g : Z) (v : column_value) : Z :=
  match v with set_action_generation g' => g' | _ => g end.
Definition ack_value (g : Z) (v : column_value) : Z :=
  match v with set_acknowledged_generation g' => g' | _ => g end.
Definition phase_value (p : list N) (v : column_value) : list N :=
  match v with set_phase p' => p' | _ => p end.
Definition action_value (a : list N) (v : column_value) : list N :=
  match v with set_requested_action a' => a' | _ => a end.
Definition time_value (c : time_column) (t : option Z) (v : column_value) : option Z :=
  match v with set_time c' t' => if bool_decide (c = c') then t' else t | _ => t end.
Definition text_value (c : text_column) (t : option (list N)) (v : column_value) : option (list N) :=
  match v with set_text c' t' => if bool_decide (c = c') then t' else t | _ => t end.

(** A column of the row after an [UPDATE] is the last value given to it. *)
Lemma assign_all_proj {B} (proj : UpdateCoordinatorState -> B) (f : B -> column_value -> B) :
  (forall st v, proj (assign st v) = f (proj st) v) ->
  forall vs st, proj (assign_all vs st) = foldl f (proj st) vs.
Proof.
  intros H vs. induction vs as [|v vs IH]; intros st; [done|].
  change (assign_all (v :: vs) st) with (assign_all vs (assign st v)). rewrite IH. cbn. by rewrite H.
Qed.

Lemma assign_gen vs st :
  action_generation (assign_all vs st) = foldl gen_value (action_generation st) vs.
Proof. apply (assign_all_proj action_generation gen_value). by intros [] []. Qed.
Lemma assign_ack vs st :
  acknowledged_generation (assign_all vs st) = foldl ack_value (acknowledged_generation st) vs.
Proof. apply (assign_all_proj acknowledged_generation ack_value). by intros [] []. Qed.
Lemma assign_phase vs st : phase (assign_all vs st) = foldl phase_value (phase st) vs.
Proof. apply (assign_all_proj phase phase_value). by intros [] []. Qed.
Lemma assign_action vs st :
  requested_action (assign_all vs st) = foldl action_value (requested_action st) vs.
Proof. apply (assign_all_proj requested_action action_value). by intros [] []. Qed.
Lemma assign_time vs st c : time (assign_all vs st) c = foldl (time_value c) (time st c) vs.
Proof. apply (assign_all_proj (fun st => time st c) (time_value c)). by intros [] []. Qed.
Lemma assign_text vs st c : text (assign_all vs st) c = foldl (text_value c) (text st c) vs.
Proof. apply (assign_all_proj (fun st => text st c) (text_value c)). by intros [] []. Qed.

(** Lists of values that only touch texts and times. *)
Lemma timestamps_neutral {B} (f : B -> column_value -> B) b p q now :
  (forall t, f b (set_time last_started_at t) = b) -> foldl f b (_phase_timestamp_values p q now) = b.
Proof.
  intros H. unfold _phase_timestamp_values.
  destruct (negb (mem q _)); [apply H|]. destruct (negb _); [apply H|done].
Qed.

Lemma texts_neutral {B A} (f : B -> column_value -> B) b (g : A -> text_column * option (list N)) l :
  (forall c t, f b (set_text c t) = b) ->
  foldl f b ((fun x => set_text (g x).1 (g x).2) <$> l) = b.
Proof. intros H. induction l as [|x l IH]; [done|]. cbn. by rewrite H. Qed.

Lemma images_neutral {B} (f : B -> column_value -> B) b (l : list (image_column * option (list N))) :
  (forall c t, f b (set_text c t) = b) ->
  foldl f b ((fun '(c, v) => set_text (column_of c) v) <$> l) = b.
Proof. intros H. induction l as [|[c v] l IH]; [done|]. cbn. by rewrite H. Qed.

Lemma set_if_some_neutral {B} (f : B -> column_value -> B) b c v :
  (forall c t, f b (set_text c t) = b) -> foldl f b (set_if_some c v) = b.
Proof. intros H. destruct v; [apply H|done]. Qed.

Create Rewrite HintDb columns.
#[export] Hint Rewrite assign_gen assign_ack assign_phase assign_action assign_time assign_text
  @foldl_app : columns.
#[export] Hint Rewrite @timestamps_neutral @images_neutral @set_if_some_neutral
  using reflexivity : columns.

(** Read a column of a written row. *)
Ltac columns :=
  repeat (progress (autorewrite with columns;
    cbn [the_row default row with_row foldl gen_value ack_value phase_value action_value
         time_value text_value])).

Lemma written_row cond values d :
  the_row (written cond values d) =
  if cond (the_row d) then assign_all values (the_row d) else the_row d.
Proof. unfold written. by destruct (cond _). Qed.

Lemma the_row_leases r ls : the_row {| row := r; leases := ls |} = default fresh_row r.
Proof. reflexivity. Qed.

(** *** Generations *)

Definition gens_grow (st st' : UpdateCoordinatorState) : Prop :=
  (action_generation st <= action_generation st')%Z /\
  ((acknowledged_generation st <= action_generation st)%Z ->
   (acknowledged_generation st <= acknowledged_generation st')%Z /\
   (acknowledged_generation st' <= action_generation st')%Z).

#[export] Instance gens_grow_preorder : PreOrder gens_grow.
Proof.
  split.
  - intros st. split; [done|]. auto with lia.
  - intros a b c [H1 H2] [H3 H4]. split; [lia|]. intros H. destruct (H2 H) as [H5 H6].
    destruct (H4 H6). lia.
Qed.

(** A relation between rows that a request respects, given that the sweep and
    the backfill do. *)
Lemma cleaned_respects (R : relation UpdateCoordinatorState) `{!Reflexive R} now d :
  (forall st, mem (phase st) drained_phases = true ->
     R st (assign_all [set_phase (lit "idle"); set_time last_started_at None] st)) ->
  R (the_row d) (the_row (cleaned now d)).
Proof.
  intros H. unfold cleaned. destruct (existsb _ _); [|done].
  rewrite written_row. change (the_row {| row := row d; leases := _ |}) with (the_row d).
  destruct (mem _ _) eqn:Hm; [by apply H|done].
Qed.

Lemma backfilled_respects (R : relation UpdateCoordinatorState) `{!Reflexive R} st now d :
  (forall st t, R st (assign_all [set_time last_started_at (Some t)] st)) ->
  R (the_row d) (the_row (backfilled st now d)).
Proof.
  intros H. unfold backfilled. destruct (_ || _); [done|].
  rewrite written_row. by destruct (_ && _).
Qed.

Lemma cleaned_gens now d : gens_grow (the_row d) (the_row (cleaned now d)).
Proof. apply cleaned_respects; [apply _|]. intros st _. unfold gens_grow. columns. lia. Qed.
Lemma backfilled_gens st now d : gens_grow (the_row d) (the_row (backfilled st now d)).
Proof. apply backfilled_respects; [apply _|]. intros s t. unfold gens_grow. columns. lia. Qed.

(** Reduce a relation between the rows before and after to one per write. *)
Ltac row_steps clean back :=
  repeat match goal with
  | |- ?R (the_row ?x) (the_row ?x) => reflexivity
  | |- ?R (the_row ?x) (the_row (locked ?x)) => reflexivity
  | |- ?R ?st (the_row (locked ?x)) => change (R st (the_row x))
  | |- ?R ?st (the_row {| row := row ?x; leases := ?ls |}) => change (R st (the_row x))
  | |- ?R _ (the_row (cleaned ?now ?x)) => transitivity (the_row x); [|apply clean]
  | |- ?R _ (the_row (backfilled ?st ?now ?x)) => transitivity (the_row x); [|apply back]
  | |- ?R _ (the_row (written ?c ?vs ?x)) =>
      transitivity (the_row x);
      [|rewrite written_row; cbn beta;
        lazymatch goal with
        | |- _ _ (if ?b then _ else _) => destruct b eqn:?; [|reflexivity]
        | |- _ => idtac
        end]
  end.

(** Split a request into its branches, each with its final store. *)
Ltac branches :=
  unfold commit, commit_some, commit_refusals, snapshot, record_updater_identity,
    record_refresh_outcome, mark_busy_work_dispatched, touch_updater, request_action,
    acquire_critical, claim_drain, renew, renew_drain_progress, release, force_reset_phase,
    acknowledge_action, acknowledge_outcome;
  go;
  repeat match goal with
  | |- context [match ?b with _ => _ end] =>
      lazymatch b with
      | context [match _ with _ => _ end] => fail
      | _ => lazymatch type of b with
             | bool => destruct b eqn:?
             | option MaintenanceLease => destruct b eqn:?
             | option Z => destruct b eqn:?
             | RecoveryAction => destruct b eqn:?
             end
      end; go
  end.

Lemma exec_gens r d : gens_grow (the_row d) (the_row (exec r d)).
Proof.
  destruct r; cbn [exec]; branches; row_steps cleaned_gens backfilled_gens;
    unfold gens_grow; columns; repeat (case_match; columns); try lia.
Qed.

Lemma run_gens rs d : gens_grow (the_row d) (the_row (run rs d)).
Proof.
  revert d; induction rs as [|r rs IH]; intros d; [reflexivity|].
  etrans; [apply exec_gens | apply (IH (exec r d))].
Qed.

(** Generations only grow.  Whatever requests arrive, the action generation
    and the acknowledged one never decrease, and nothing is acknowledged that
    was not issued. *)
Theorem generations_are_monotone rs1 rs2 :
  let st1 := the_row (run rs1 empty_db) in
  let st2 := the_row (run (rs1 ++ rs2) empty_db) in
  (action_generation st1 <= action_generation st2)%Z /\
  (acknowledged_generation st1 <= acknowledged_generation st2)%Z /\
  (acknowledged_generation st2 <= action_generation st2)%Z.
Proof.
  cbn zeta. rewrite run_app. destruct (run_gens rs1 empty_db) as [_ H1].
  destruct (run_gens rs2 (run rs1 empty_db)) as [H2 H3]. cbn in H1. lia.
Qed.

(** *** Unknown phases *)

Lemma drained_is_known st : mem (phase st) drained_phases = true -> known st = true.
Proof.
  assert (H : forallb (fun p => mem p KNOWN_COORDINATOR_PHASES) drained_phases = true) by reflexivity.
  rewrite forallb_forall_iff in H. intros Hm%mem_true. by apply H.
Qed.

Lemma busy_known st : busy st = true -> known st = true.
Proof. intros H%mem_true%busy_is_known. by apply mem_true. Qed.

Lemma cleaned_unknown now d : known (the_row d) = false -> the_row (cleaned now d) = the_row d.
Proof.
  intros Hu. unfold cleaned. destruct (existsb _ _); [|done].
  rewrite written_row. change (the_row {| row := row d; leases := _ |}) with (the_row d).
  destruct (mem _ _) eqn:Hm; [|done]. apply drained_is_known in Hm. congruence.
Qed.

Lemma backfilled_not_busy st now d : busy st = false -> backfilled st now d = d.
Proof. intros Hb. unfold backfilled. by rewrite Hb. Qed.

Lemma unknown_not_busy st : known st = false -> busy st = false.
Proof. intros H. destruct (busy st) eqn:Hb; [|done]. apply busy_known in Hb. congruence. Qed.

Definition is_force_reset (r : request) : bool :=
  match r with ForceReset _ _ => true | _ => false end.

(** An unrecognized phase is frozen.  While the row holds a phase this
    build does not know, no request but the operator's forced reset changes any
    column of it. *)
Theorem unknown_phase_is_frozen r d :
  known (the_row d) = false -> is_force_reset r = false -> the_row (exec r d) = the_row d.
Proof.
  intros Hu Hr.
  assert (Hc : forall now, the_row (cleaned now (locked d)) = the_row d)
    by (intros; exact (cleaned_unknown now (locked d) Hu)).
  assert (Hb : forall now, backfilled (the_row d) now (cleaned now (locked d)) = cleaned now (locked d))
    by (intros; by apply backfilled_not_busy, unknown_not_busy).
  pose proof (unknown_not_busy _ Hu) as Hn.
  destruct r; try discriminate Hr; cbn [exec]; branches;
    rewrite ?Hc, ?Hb, ?Hn in *; try congruence; reflexivity || apply Hc || discriminate.
Qed.

(** ** A concrete run: an install claimed while critical work is running *)

Definition import_lease (now : Z) : request :=
  AcquireCritical (lit "c1") (lit "app") (lit "import") now 300.
Definition claim (now : Z) : request :=
  ClaimDrain (lit "d1") (lit "updater") None true false now 100.
Definition working : db := run [import_lease 0; claim 10; Release (lit "c1") 20] empty_db.

Lemma ready_drain_excludes_critical_work_witness :
  answers_ready (claim 10) (run [import_lease 0] empty_db) = false /\
  criticals (leases (run [AcquireCritical (lit "c2") (lit "app") (lit "import") 40 300; Snapshot 50]
                         (exec (RenewDrain (lit "d1") 30 100 (Some (lit "installing"))) working))) = [] /\
  length (leases (run [AcquireCritical (lit "c2") (lit "app") (lit "import") 40 300; Snapshot 50]
                         (exec (RenewDrain (lit "d1") 30 100 (Some (lit "installing"))) working))) = 1.
Proof.
  split; [vm_compute; reflexivity|]. split; [|vm_compute; reflexivity].
  apply ready_drain_excludes_critical_work; [vm_compute; reflexivity|].
  cbn [drained_throughout]. split; [vm_compute; reflexivity|]. split; [vm_compute; reflexivity|exact I].
Defined.

(** The import's lease survives the claim of a drain. *)
Lemma live_lease_is_kept_witness :
  exists l l', l ∈ leases (run [import_lease 0] empty_db) /\
    l' ∈ leases (exec (claim 10) (run [import_lease 0] empty_db)) /\ l' = l.
Proof.
  pose (l := {| token_hash := lit "c1"; kind := critical; owner := lit "app";
                operation := Some (lit "import"); lease_generation := None;
                created_at := 0; renewed_at := 0; expires_at := 300 |}).
  assert (Hl : l ∈ leases (run [import_lease 0] empty_db)) by (left).
  destruct (live_lease_is_kept (claim 10) (run [import_lease 0] empty_db) l Hl)
    as (l' & Hin & [Heq|[Hr _]]); [reflexivity|discriminate| |discriminate].
  exists l, l'. auto.
Defined.

(** A row left by a newer build. *)
Definition newer_build : db :=
  {| row := Some (assign_all [set_phase (lit "verifying")] fresh_row); leases := [] |}.

Lemma unknown_phase_is_frozen_witness :
  the_row (exec (AckAction 0 (lit "idle") (lit "no_update") None [] false 5) newer_build)
  = the_row newer_build.
Proof. apply unknown_phase_is_frozen; vm_compute; reflexivity. Defined.

(** ** Fencing of abandoned update workers

    A request that carries an outdated generation has no effect, and a forced
    reset that bumps the generation fences the abandoned worker for good. *)

(** *** Stale generations *)

(** The generation a request carries to be compared with the row's. *)
Definition carried (r : request) : option Z :=
  match r with
  | TouchUpdater _ _ g | ClaimDrain _ _ g _ _ _ _ | AckOutcome _ g _ _ _ _ _ _ _ _ _ => g
  | AckAction g _ _ _ _ _ _ => Some g
  | _ => None
  end.

(** Nothing but the sweep of expired leases, and the anchor of the recovery
    clock, differs. *)
Definition same_business (st st' : UpdateCoordinatorState) : Prop :=
  requested_action st' = requested_action st /\
  action_generation st' = action_generation st /\
  acknowledged_generation st' = acknowledged_generation st /\
  (forall c, text st' c = text st c) /\
  (phase st' = phase st \/ mem (phase st) drained_phases = true /\ phase st' = lit "idle").

#[export] Instance same_business_preorder : PreOrder same_business.
Proof.
  split.
  - intros st. unfold same_business. auto 10.
  - intros a b c (H1 & H2 & H3 & H4 & H5) (G1 & G2 & G3 & G4 & G5).
    do 3 (split; [congruence|]). split; [congruence|].
    destruct H5 as [H5|[H5 H6]], G5 as [G5|[G5 G6]]; rewrite ?H5, ?G5 in *; auto.
Qed.

Lemma cleaned_business now d : same_business (the_row d) (the_row (cleaned now d)).
Proof.
  apply cleaned_respects; [apply _|]. intros st Hm. unfold same_business. columns.
  repeat split; try done; [by intros c; columns|by right].
Qed.
Lemma backfilled_business st now d : same_business (the_row d) (the_row (backfilled st now d)).
Proof.
  apply backfilled_respects; [apply _|]. intros s t. unfold same_business. columns.
  repeat split; try done; [by intros c; columns|by left].
Qed.

Lemma cleaned_gen now d : action_generation (the_row (cleaned now d)) = action_generation (the_row d).
Proof. apply (cleaned_business now d). Qed.
Lemma backfilled_gen st now d :
  action_generation (the_row (backfilled st now d)) = action_generation (the_row d).
Proof. apply (backfilled_business st now d). Qed.

Lemma stale_is_ignored r d g :
  carried r = Some g -> g <> action_generation (the_row d) ->
  same_business (the_row d) (the_row (exec r d)) /\
  (leases (exec r d) = leases d \/ leases (exec r d) = live (now_of r) (leases d)).
Proof.
  intros Hr Hg. destruct r; cbn [carried] in Hr; try discriminate Hr; simplify_eq; cbn [exec].
  - branches; (split; [|by auto]); row_steps cleaned_business backfilled_business.
    rewrite backfilled_gen, locked_row in *. lia.
  - branches; rewrite ?cleaned_gen, ?locked_row in *; cbn in *; try lia;
      (split; [|by auto]); row_steps cleaned_business backfilled_business.
  - branches; try lia; (split; [|by auto]); row_steps cleaned_business backfilled_business.
  - branches; rewrite ?cleaned_gen, ?locked_row, ?orb_true_iff, ?orb_false_iff in *; try lia;
      (split; [|by auto]); row_steps cleaned_business backfilled_business.
Qed.

Lemma stale_request_is_ignored r d g :
  carried r = Some g -> (g < action_generation (the_row d))%Z ->
  same_business (the_row d) (the_row (exec r d)) /\
  (leases (exec r d) = leases d \/ leases (exec r d) = live (now_of r) (leases d)).
Proof. intros Hr Hg. apply (stale_is_ignored r d g Hr). lia. Qed.

Lemma reset_generation now age d res :
  fst (force_reset_phase now age d) = Done (Some res) ->
  new_action_generation res <> None ->
  new_action_generation res = Some (action_generation (the_row d) + 1)%Z /\
  action_generation (the_row (exec (ForceReset now age) d)) = (action_generation (the_row d) + 1)%Z.
Proof.
  cbn [exec]. unfold force_reset_phase, commit_refusals. go.
  set (d2 := backfilled _ now _).
  assert (Hg : action_generation (the_row d2) = action_generation (the_row d)).
  { unfold d2. by rewrite backfilled_gen, cleaned_gen. }
  destruct (rd_action _); go; try discriminate; intros [= <-]; cbn [new_action_generation];
    (destruct (rd_fence_generation _); [|done]); intros _; rewrite Hg; (split; [done|]);
    rewrite written_row; cbn beta; rewrite Hg, Z.eqb_refl; columns;
    repeat (case_match; columns); done.
Qed.


(** ** A concrete run: a check that answers after it was given up *)

Definition abandoned : db :=
  {| row := Some (assign_all [set_phase (lit "checking"); set_action_generation 3;
                              set_time last_started_at (Some 0%Z)] fresh_row);
     leases := [] |}.
Definition late_answer : request :=
  AckAction 3 (lit "available") (lit "update_available") None [] false 800.


(** ** The recovery clock of the update coordinator

    The wait for a forced reset of a busy coordinator is bounded: the first
    refusal starts a clock that no polling moves. *)

(** *** The recovery clock *)

(** Requests that start no work and end no phase. *)
Definition passive (r : request) : bool :=
  match r with
  | Snapshot _ | RecordIdentity _ _ _ | RecordRefresh _ _ _ _ _ | TouchUpdater _ None _
  | AcquireCritical _ _ _ _ _ | Renew _ _ _ => true
  | _ => false
  end.

(** A busy phase with its clock running and no drain in the table. *)
Definition waiting (p : list N) (anchor : Z) (d : db) : Prop :=
  phase (the_row d) = p /\ busy_phase p /\ phase_anchor (the_row d) = Some anchor /\
  drained (leases d) = false.

Lemma drained_live now ls : drained ls = false -> drained (live now ls) = false.
Proof.
  unfold drained. rewrite <- !not_true_iff_false, !existsb_exists_iff. intros H (l & Hl & Hd).
  apply H. exists l. split; [|done]. by apply live_not_expired in Hl as [Hl _].
Qed.

Lemma cleaned_drainless now d : drained (leases d) = false -> the_row (cleaned now d) = the_row d.
Proof.
  intros H. unfold cleaned. replace (existsb _ _) with false; [done|]. symmetry.
  unfold drained in H. rewrite <- not_true_iff_false, existsb_exists_iff in *.
  intros (l & Hl & Hd). apply H. exists l. split; [done|]. by apply andb_true_iff in Hd as [? _].
Qed.

Lemma waiting_busy p a d : waiting p a d -> busy (the_row d) = true.
Proof. intros (<- & Hb & _). by apply mem_true. Qed.

Lemma backfilled_anchored st now d a :
  phase_anchor st = Some a -> backfilled st now d = d.
Proof.
  unfold phase_anchor, backfilled. destruct (busy st); [|done].
  destruct (time st last_started_at); [done|]. by destruct (time st requested_at).
Qed.

Lemma phase_anchor_ext st st' :
  phase st' = phase st -> time st' last_started_at = time st last_started_at ->
  time st' requested_at = time st requested_at -> phase_anchor st' = phase_anchor st.
Proof. intros H1 H2 H3. unfold phase_anchor, busy. by rewrite H1, H2, H3. Qed.

Lemma renewed_drained p now ttl ls : drained (renew_if p now ttl <$> ls) = drained ls.
Proof.
  unfold drained. induction ls as [|l ls IH]; [done|]. cbn. rewrite IH. f_equal.
  unfold renew_if. by destruct (p l).
Qed.

Lemma passive_lease_step r ls ls' :
  passive r = true -> lease_step r ls ls' -> drained ls = false -> drained ls' = false.
Proof.
  intros Hp Hs Hd. pose proof (drained_live (now_of r) ls Hd) as Hl.
  destruct Hs as [| |l Ha _ _ _|t ttl _|t Hr]; [done|done| | |].
  - destruct r; try discriminate Ha; try discriminate Hp. injection Ha as Hk _.
    unfold drained in *. rewrite existsb_app, Hl. cbn. unfold is_drain. by rewrite <- Hk.
  - fold (renew_if (has_token t) (now_of r) ttl). by rewrite renewed_drained.
  - destruct r; discriminate.
Qed.

Lemma timestamps_same_phase p now :
  p ∈ BUSY_COORDINATOR_PHASES -> _phase_timestamp_values p p now = [].
Proof.
  intros H%mem_true. unfold _phase_timestamp_values. rewrite H. cbn. by rewrite bool_decide_true.
Qed.

(** What the clock reads. *)
Definition same_clock (st st' : UpdateCoordinatorState) : Prop :=
  phase st' = phase st /\ time st' last_started_at = time st last_started_at /\
  time st' requested_at = time st requested_at.

Lemma waiting_clock p a d d' :
  waiting p a d -> same_clock (the_row d) (the_row d') -> drained (leases d') = false -> waiting p a d'.
Proof.
  intros (H1 & H2 & H3 & _) (G1 & G2 & G3) Hd. unfold waiting.
  rewrite (phase_anchor_ext _ _ G1 G2 G3). split; [congruence|]. auto.
Qed.

Lemma passive_clock r p a d :
  passive r = true -> waiting p a d -> same_clock (the_row d) (the_row (exec r d)).
Proof.
  intros Hp Hw. destruct (id Hw) as (Hph & Hb & Ha & Hd). subst p.
  assert (Hc : forall now, the_row (cleaned now (locked d)) = the_row d)
    by (intros; by apply (cleaned_drainless now (locked d))).
  assert (Hf : forall now d', backfilled (the_row d) now d' = d')
    by (intros; by apply (backfilled_anchored _ _ _ a)).
  assert (Ht : forall now, _phase_timestamp_values (phase (the_row d)) (phase (the_row d)) now = [])
    by (intros; by apply timestamps_same_phase).
  destruct r; try discriminate Hp; try (destruct new_phase; [discriminate Hp|]); cbn [exec]; branches;
    rewrite ?Hc, ?Hf; rewrite ?written_row; cbn [default]; rewrite ?Ht;
    change (the_row (locked d)) with (the_row d) in *;
    unfold same_clock; repeat case_match; columns; try done;
    change (default fresh_row (row (cleaned now (locked d)))) with (the_row (cleaned now (locked d)));
    by rewrite ?Hc.
Qed.

Lemma passive_waiting rs p a d :
  forallb passive rs = true -> waiting p a d -> waiting p a (run rs d).
Proof.
  revert d; induction rs as [|r rs IH]; intros d; [done|].
  cbn [forallb]. intros [Hr Hrs]%andb_true_iff Hw. apply (IH (exec r d)); [done|].
  apply (waiting_clock p a d); [done|by eapply passive_clock|].
  apply (passive_lease_step r (leases d)); [done|apply exec_lease_step|apply Hw].
Qed.

Lemma waiting_reset p a d now age :
  waiting p a d -> (0 <= age)%Z -> (a + age <= now)%Z ->
  exists res, fst (force_reset_phase now age d) = Done (Some res) /\ old_phase res = Some p.
Proof.
  intros Hw Hage Hnow. destruct Hw as (Hph & Hb & Ha & Hd). unfold force_reset_phase. go.
  assert (Hc : the_row (cleaned now (locked d)) = the_row d)
    by by apply (cleaned_drainless now (locked d)).
  rewrite Hc, (backfilled_anchored _ _ _ a Ha), Hc.
  assert (Hn : List.find is_drain (live now (leases d)) = None)
    by (apply find_none; by apply drained_live).
  rewrite Hn, Ha, Hph.
  rewrite (busy_wait p _ a now age Hb Hage), (proj2 (Z.leb_le _ _) Hnow). go. eauto.
Qed.

Lemma cleaned_cases now d :
  the_row (cleaned now d) = the_row d \/ phase (the_row (cleaned now d)) = lit "idle".
Proof.
  unfold cleaned. destruct (existsb _ _); [|by left]. rewrite written_row.
  destruct (mem _ _); [right|by left]. by columns.
Qed.

Lemma legacy_anchor_past st now : (legacy_anchor st now <= now)%Z.
Proof.
  unfold legacy_anchor. destruct (time st updater_last_seen_at) as [h|]; [|lia].
  destruct (Z.leb_spec h now); lia.
Qed.

(** After the backfill a busy row has an anchor: its own, or one not after now. *)
Lemma backfilled_anchor now d :
  busy (the_row d) = true ->
  exists a, phase_anchor (the_row (backfilled (the_row d) now d)) = Some a /\
    (phase_anchor (the_row d) = Some a \/ (a <= now)%Z).
Proof.
  intros Hb. destruct (phase_anchor (the_row d)) as [a|] eqn:Ha.
  - exists a. rewrite (backfilled_anchored _ _ _ a Ha). auto.
  - exists (legacy_anchor (the_row d) now). split; [|right; apply legacy_anchor_past].
    unfold phase_anchor in Ha. rewrite Hb in Ha.
    destruct (time (the_row d) last_started_at) eqn:H1; [discriminate|].
    unfold backfilled. rewrite Hb, H1, Ha. cbn [negb unset orb]. rewrite written_row.
    rewrite bool_decide_true, H1, Ha by done. cbn [unset andb].
    unfold phase_anchor, busy in *. columns. by rewrite Hb.
Qed.

Lemma backfilled_phase st now d : phase (the_row (backfilled st now d)) = phase (the_row d).
Proof.
  unfold backfilled. destruct (_ || _); [done|]. rewrite written_row. destruct (_ && _); by columns.
Qed.

(** A refusal for lack of age means that the clock is running. *)
Lemma refusal_waits now age d reason :
  fst (force_reset_phase now age d) = Throw (CoordinatorRecoveryNotReadyError reason) ->
  exists a, waiting (phase (the_row d)) a (exec (ForceReset now age) d) /\
    (phase_anchor (the_row d) = Some a \/ (a <= now)%Z).
Proof.
  cbn [exec]. unfold force_reset_phase, commit_refusals. go.
  set (d1 := cleaned now (locked d)). set (d2 := backfilled (the_row d1) now d1).
  destruct (rd_action _) eqn:Hact; go; try discriminate. intros _.
  apply wait_means in Hact as [Hd Hb]. unfold d2 in Hb. rewrite backfilled_phase in Hb.
  assert (Hrow : the_row d1 = the_row d).
  { destruct (cleaned_cases now (locked d)) as [H|H]; [done|].
    fold d1 in H. rewrite H in Hb. apply mem_true in Hb. discriminate. }
  destruct (backfilled_anchor now d1) as (a & Ha & Hor); [by apply mem_true|].
  exists a. rewrite Hrow in Hor. split; [|done]. unfold waiting.
  split; [unfold d2; by rewrite backfilled_phase, Hrow|]. rewrite Hrow in Hb. split; [done|].
  split; [done|]. unfold d2, d1. go.
  destruct (List.find _ _) eqn:Hf; [discriminate|]. by apply find_none.
Qed.


(** ** A concrete run: a legacy row without an anchor *)

Definition wedged : db :=
  {| row := Some (assign_all [set_phase (lit "installing"); set_time updater_last_seen_at (Some 40%Z)]
                             fresh_row);
     leases := [] |}.

