(* ===== verification/UpdateSchedule.v ===== *)
(** * Update windows in local time ([domain/update_schedule.py])

    Recurring windows in an IANA timezone, resolved to instants across the
    zone's gaps and repetitions.  An instant is in microseconds since the
    epoch, UTC; a naive datetime is the microseconds of its wall clock from
    1970-01-01T00:00; a date is its day number from there.  Years stay within
    those Python can represent.

    The timezone database is outside the repository: a zone is a parameter
    with [zoneinfo]'s two conversions. *)

From Stdlib Require Import ZArith Lia Bool String.
From S2P Require Import Prelude PyStr.

#[local] Open Scope bool_scope.
#[local] Open Scope Z_scope.

Definition minute_us : Z := 60 * 1000000.
Definition day_us : Z := 24 * 60 * minute_us.

Inductive Weekday : Type := monday | tuesday | wednesday | thursday | friday | saturday | sunday.

#[export] Instance Weekday_eq_dec : EqDecision Weekday.
Proof. solve_decision. Defined.

Definition weekdays_in_order : list Weekday :=
  [monday; tuesday; wednesday; thursday; friday; saturday; sunday].

(** [date.weekday]: day 0 was a Thursday. *)
Definition date_weekday (d : Z) : Z := (d + 3) mod 7.

(** [tuple(Weekday)[start_date.weekday()]]. *)
Definition weekday_of (d : Z) : Weekday :=
  default monday (weekdays_in_order !! Z.to_nat (date_weekday d)).

(** A wall time with the zone attached; [fold] picks the later of two. *)
Record aware := { wall : Z; fold : bool }.

(** [zoneinfo.ZoneInfo]: [aware.astimezone(UTC)] and [instant.astimezone(zone)]. *)
Class ZoneInfo := {
  to_utc : aware -> Z;
  to_wall : Z -> Z;
}.

(** [datetime.time].  A zone attached to one is only flagged: the policy refuses
    such a time whatever the zone is. *)
Record clock_time := { hour : Z; minute : Z; second : Z; microsecond : Z; has_tzinfo : bool }.

Definition time_ok (t : clock_time) : Prop :=
  0 <= hour t < 24 /\ 0 <= minute t < 60 /\ 0 <= second t < 60 /\ 0 <= microsecond t < 1000000.

Definition time_us (t : clock_time) : Z :=
  hour t * 60 * minute_us + minute t * minute_us + second t * 1000000 + microsecond t.

Record ScheduleWindow := { start : aware; end_ : aware; starting_weekday : Weekday }.

Record UpdateSchedule := {
  enabled : bool;
  weekdays : list Weekday;
  window_start : clock_time;
  window_end : clock_time;
}.

(** [__post_init__]; [zone] is what [ZoneInfo(timezone_name)] finds. *)
Definition make_schedule (zone : option ZoneInfo) (enabled : bool) (weekdays : list Weekday)
    (window_start window_end : clock_time) : res (ZoneInfo * UpdateSchedule) :=
  match zone with
  | None => Raise (ValueError (lit "timezone_name must be a valid IANA timezone"))
  | Some z =>
      if bool_decide (weekdays = []) then
        Raise (ValueError (lit "at least one weekday must be selected"))
      else if time_us window_start =? time_us window_end then
        Raise (ValueError (lit "window_start and window_end must differ"))
      else
        res_foldl (fun _ '(name, value) =>
            if has_tzinfo value then
              Raise (ValueError (name ++ lit " must be a local wall time without tzinfo"))
            else if negb (second value =? 0) || negb (microsecond value =? 0) then
              Raise (ValueError (name ++ lit " must use minute precision"))
            else Ok tt)
          tt [(lit "window_start", window_start); (lit "window_end", window_end)] ;;
        Ok (z, {| enabled := enabled; weekdays := weekdays;
                  window_start := window_start; window_end := window_end |})
  end.

Section schedule.
Context `{Zone : ZoneInfo}.

(** [_wall_candidates]: the dictionary from instants keeps the later fold of
    one instant, and is read in the order of its keys. *)
Definition _wall_candidates (naive : Z) : list aware :=
  let real (f : bool) := to_wall (to_utc {| wall := naive; fold := f |}) =? naive in
  let c0 := {| wall := naive; fold := false |} in
  let c1 := {| wall := naive; fold := true |} in
  match real false, real true with
  | true, true =>
      if to_utc c0 =? to_utc c1 then [c1]
      else if to_utc c0 <? to_utc c1 then [c0; c1] else [c1; c0]
  | true, false => [c0]
  | false, true => [c1]
  | false, false => []
  end.

Inductive boundary : Type := at_start | at_end.

(** The probing loop of [_resolve_wall_time]. *)
Fixpoint resolve_from (n : nat) (probe : Z) (b : boundary) : res aware :=
  match n with
  | O => Raise (ValueError (lit "could not resolve local wall time in configured timezone"))
  | S n' =>
      match _wall_candidates probe with
      | c :: cs =>
          Ok match b with at_start => py_min_by to_utc c cs | at_end => py_max_by to_utc c cs end
      | [] => resolve_from n' (probe + minute_us) b
      end
  end.

Definition probes : nat := Z.to_nat (48 * 60 + 1).

Definition _resolve_wall_time (naive : Z) (b : boundary) : res aware := resolve_from probes naive b.

(** [ScheduleWindow.contains]. *)
Definition contains_instant (w : ScheduleWindow) (instant : Z) : bool :=
  (to_utc (start w) <=? instant) && (instant <? to_utc (end_ w)).

Section policy.
Variable schedule : UpdateSchedule.

Definition overnight : bool := time_us (window_end schedule) <? time_us (window_start schedule).

Definition window_for_start_date (start_date : Z) : res (option ScheduleWindow) :=
  let starting_weekday := weekday_of start_date in
  if negb (mem starting_weekday (weekdays schedule)) then Ok None
  else
    let end_date := if overnight then start_date + 1 else start_date in
    start ← _resolve_wall_time (start_date * day_us + time_us (window_start schedule)) at_start;
    end_ ← _resolve_wall_time (end_date * day_us + time_us (window_end schedule)) at_end;
    if to_utc end_ <=? to_utc start then Ok None
    else Ok (Some {| start := start; end_ := end_; starting_weekday := starting_weekday |}).

Definition local_date (now : Z) : Z := to_wall now / day_us.

(** The [for] loop with its early [return]. *)
Fixpoint first_open (now : Z) (dates : list Z) : res (option ScheduleWindow) :=
  match dates with
  | [] => Ok None
  | d :: dates' =>
      window ← window_for_start_date d;
      match window with
      | Some w => if contains_instant w now then Ok (Some w) else first_open now dates'
      | None => first_open now dates'
      end
  end.

Definition current_window (now : Z) : res (option ScheduleWindow) :=
  if negb (enabled schedule) then Ok None
  else first_open now [local_date now - 1; local_date now].

(** [range(-1, 9)]. *)
Definition offsets : list Z := [-1; 0; 1; 2; 3; 4; 5; 6; 7; 8].

Definition next_window (now : Z) : res (option ScheduleWindow) :=
  if negb (enabled schedule) then Ok None
  else
    candidates ← res_foldl (fun candidates offset =>
        window ← window_for_start_date (local_date now + offset);
        Ok match window with
           | Some w => if now <? to_utc (end_ w) then candidates ++ [w] else candidates
           | None => candidates
           end) [] offsets;
    Ok match candidates with
       | [] => None
       | c :: cs => Some (py_min_by (fun w => to_utc (start w)) c cs)
       end.

Definition is_open (now : Z) : res bool :=
  window ← current_window now;
  Ok match window with Some _ => true | None => false end.
End policy.
End schedule.

(** ** Zones

    What the resolution relies on of [zoneinfo]: every instant is the reading of
    its own wall time under one of the two folds (PEP 495). *)
Class ZoneLaw (Zone : ZoneInfo) : Prop :=
  every_instant_has_a_fold : forall u, exists f, to_utc {| wall := to_wall u; fold := f |} = u.

Section resolution.
Context {Zone : ZoneInfo} {Law : ZoneLaw Zone}.

(** The instants at which the zone's clocks show [w]. *)
Definition shown (w u : Z) : Prop := to_wall u = w.

Lemma candidate_shown w c : c ∈ _wall_candidates w -> shown w (to_utc c).
Proof.
  unfold _wall_candidates, shown.
  destruct (Z.eqb_spec (to_wall (to_utc {| wall := w; fold := false |})) w) as [H0|H0];
  destruct (Z.eqb_spec (to_wall (to_utc {| wall := w; fold := true |})) w) as [H1|H1];
  repeat case_match; rewrite ?elem_of_cons, ?elem_of_nil; naive_solver.
Qed.

Lemma shown_candidate w u : shown w u -> exists c, c ∈ _wall_candidates w /\ to_utc c = u.
Proof.
  intros Hw. destruct (every_instant_has_a_fold u) as [f Hf]. unfold shown in Hw. rewrite Hw in Hf.
  assert (Hr : (to_wall (to_utc {| wall := w; fold := f |}) =? w) = true)
    by (rewrite Hf; by apply Z.eqb_eq).
  assert (Hpick : forall (c : aware) (cs : list aware), to_utc c = u -> (c ∈ cs) -> exists c, c ∈ cs /\ to_utc c = u)
    by (intros c cs ? ?; by exists c).
  unfold _wall_candidates. cbn zeta.
  set (c0 := {| wall := w; fold := false |}) in *. set (c1 := {| wall := w; fold := true |}) in *.
  destruct f; [fold c1 in Hr, Hf|fold c0 in Hr, Hf]; rewrite Hr;
    [destruct (to_wall (to_utc c0) =? w)|destruct (to_wall (to_utc c1) =? w)];
    try (apply (Hpick _ _ Hf); by left);
    (destruct (Z.eqb_spec (to_utc c0) (to_utc c1)) as [He|He];
     [apply (Hpick c1); [congruence|by left]|]);
    destruct (to_utc c0 <? to_utc c1); apply (Hpick _ _ Hf); rewrite !elem_of_cons; auto.
Qed.

Lemma no_candidates w : _wall_candidates w = [] -> forall u, ~ shown w u.
Proof.
  intros H u Hu. destruct (shown_candidate w u Hu) as (c & Hc & _). rewrite H in Hc.
  by apply not_elem_of_nil in Hc.
Qed.

(** [c] stands for the first existing wall time from [naive] on, probed minute
    by minute: the earliest instant showing it for a start, the latest for an
    end. *)
Definition resolves (naive : Z) (b : boundary) (c : aware) : Prop :=
  exists k, (0 <= k) /\
    shown (naive + k * minute_us) (to_utc c) /\
    (forall j u, 0 <= j < k -> ~ shown (naive + j * minute_us) u) /\
    (forall u, shown (naive + k * minute_us) u ->
       match b with at_start => to_utc c <= u | at_end => u <= to_utc c end).

Lemma resolve_now w b c cs :
  _wall_candidates w = c :: cs ->
  resolves w b match b with at_start => py_min_by to_utc c cs | at_end => py_max_by to_utc c cs end.
Proof.
  intros Hc. exists 0. rewrite Z.add_0_r. split; [lia|].
  destruct (py_min_by_spec to_utc cs c) as [Hmin1 Hmin2].
  destruct (py_max_by_spec to_utc cs c) as [Hmax1 Hmax2].
  rewrite <- Hc, Forall_forall in *. split; [|split; [intros; lia|]].
  - destruct b; by apply candidate_shown.
  - intros u (c' & Hin & <-)%shown_candidate. destruct b; [by apply Hmin2|by apply Hmax2].
Qed.

Lemma resolves_later w b c :
  (forall u, ~ shown w u) -> resolves (w + minute_us) b c -> resolves w b c.
Proof.
  intros Hno (k & Hk & H1 & H2 & H3). exists (k + 1).
  replace (w + (k + 1) * minute_us) with (w + minute_us + k * minute_us) by ring.
  split; [lia|]. split; [done|]. split; [|done]. intros j u Hj.
  destruct (Z.eq_dec j 0) as [->|Hj0]; [rewrite Z.add_0_r; apply Hno|].
  replace (w + j * minute_us) with (w + minute_us + (j - 1) * minute_us) by ring.
  apply H2. lia.
Qed.

Lemma resolve_from_spec n w b j u :
  0 <= j < Z.of_nat n -> shown (w + j * minute_us) u ->
  exists c, resolve_from n w b = Ok c /\ resolves w b c.
Proof.
  revert w j; induction n as [|n IH]; intros w j Hj Hu; [lia|]. cbn [resolve_from].
  destruct (_wall_candidates w) as [|c cs] eqn:Hc.
  - pose proof (no_candidates w Hc) as Hno.
    destruct (Z.eq_dec j 0) as [->|Hj0]; [rewrite Z.add_0_r in Hu; by apply Hno in Hu|].
    destruct (IH (w + minute_us) (j - 1)) as (c & H1 & H2); [lia| |].
    { by replace (w + minute_us + (j - 1) * minute_us) with (w + j * minute_us) by ring. }
    exists c. split; [done|]. by apply resolves_later.
  - eexists. split; [reflexivity|]. by apply resolve_now.
Qed.

(** A boundary of a window is resolved across gaps and repetitions: when
    the clocks show some probed wall time within two days, the resolution does
    not raise, skips exactly the wall times that never exist, and takes the
    earliest instant of the first that does for a start and the latest for an
    end, so that a repeated interval lies inside the window. *)
Theorem resolution_takes_first_existing_time naive b j u :
  0 <= j <= 48 * 60 -> shown (naive + j * minute_us) u ->
  exists c, _resolve_wall_time naive b = Ok c /\ resolves naive b c.
Proof. intros Hj. apply resolve_from_spec. unfold probes. lia. Qed.
End resolution.

(** ** Zones with a fixed offset *)

Definition fixed_zone (offset : Z) : ZoneInfo :=
  {| to_utc := fun c => wall c - offset; to_wall := fun u => u + offset |}.

#[export] Instance fixed_zone_law offset : ZoneLaw (fixed_zone offset).
Proof. intros u. exists false. cbn. lia. Qed.

(** What [__post_init__] lets through. *)
Record valid (s : UpdateSchedule) : Prop := {
  valid_weekdays : weekdays s <> [];
  valid_times : time_us (window_start s) <> time_us (window_end s);
  valid_start : time_ok (window_start s);
  valid_end : time_ok (window_end s);
}.

Lemma make_schedule_valid zone e ws t1 t2 z s :
  time_ok t1 -> time_ok t2 -> make_schedule zone e ws t1 t2 = Ok (z, s) ->
  valid s /\ zone = Some z /\ enabled s = e.
Proof.
  intros H1 H2. unfold make_schedule. destruct zone as [z'|]; [|discriminate].
  case_bool_decide as Hw; [discriminate|].
  destruct (Z.eqb_spec (time_us t1) (time_us t2)) as [Ht|Ht]; [discriminate|].
  destruct (res_foldl _ _ _) as [[]|]; [|discriminate].
  intros [= <- <-]. split; [|done]. by split.
Qed.

Definition time_okb (t : clock_time) : bool :=
  (0 <=? hour t) && (hour t <? 24) && (0 <=? minute t) && (minute t <? 60)
  && (0 <=? second t) && (second t <? 60) && (0 <=? microsecond t) && (microsecond t <? 1000000).

Lemma time_okb_true t : time_okb t = true -> time_ok t.
Proof. unfold time_okb, time_ok. rewrite !andb_true_iff, !Z.leb_le, !Z.ltb_lt. tauto. Qed.

Lemma time_bounds t : time_ok t -> 0 <= time_us t < day_us.
Proof. unfold time_ok, time_us, day_us, minute_us. lia. Qed.

Section fixed_offset.
Variable offset : Z.
Variable s : UpdateSchedule.
Hypothesis Hvalid : valid s.
#[local] Instance Zone : ZoneInfo := fixed_zone offset.

Definition selected (d : Z) : Prop := weekday_of d ∈ weekdays s.

(** The reference definition: the wall clock against the two times of the
    policy, a window that ends before it starts reaching into the next day. *)
Definition open_by_the_clock (now : Z) : Prop :=
  let today := (now + offset) / day_us in
  let clock := (now + offset) mod day_us in
  let from := time_us (window_start s) in
  let until := time_us (window_end s) in
  if until <? from then selected today /\ from <= clock \/ selected (today - 1) /\ clock < until
  else selected today /\ from <= clock < until.

Lemma fixed_resolve naive b : _resolve_wall_time naive b = Ok {| wall := naive; fold := true |}.
Proof.
  unfold _resolve_wall_time, probes. cbn [Z.to_nat]. destruct (Z.to_nat _) eqn:Hn; [lia|].
  cbn [resolve_from]. unfold _wall_candidates. cbn [to_wall to_utc Zone fixed_zone wall].
  rewrite !Z.sub_add, !Z.eqb_refl. by destruct b.
Qed.

(** The instants of the window that starts on a date. *)
Definition opens (d : Z) : Z := d * day_us + time_us (window_start s) - offset.
Definition closes (d : Z) : Z :=
  (if overnight s then d + 1 else d) * day_us + time_us (window_end s) - offset.

Lemma window_length d : opens d < closes d <= opens d + day_us.
Proof.
  destruct Hvalid as [_ Ht Hs%time_bounds He%time_bounds]. unfold opens, closes, overnight,
    day_us, minute_us in *.
  destruct (Z.ltb_spec (time_us (window_end s)) (time_us (window_start s))); lia.
Qed.

Lemma fixed_window d :
  exists w, window_for_start_date s d = Ok (if mem (weekday_of d) (weekdays s) then Some w else None) /\
    to_utc (start w) = opens d /\ to_utc (end_ w) = closes d /\ starting_weekday w = weekday_of d.
Proof.
  exists {| start := {| wall := opens d + offset; fold := true |};
            end_ := {| wall := closes d + offset; fold := true |};
            starting_weekday := weekday_of d |}.
  unfold window_for_start_date. destruct (mem _ _); cbn [negb]; 
    [|repeat split; cbn [to_utc Zone fixed_zone wall start end_ starting_weekday]; (done || lia)].
  rewrite !fixed_resolve. cbn [mbind res_bind to_utc Zone fixed_zone wall start end_ starting_weekday].
  pose proof (window_length d) as Hl. unfold opens, closes in *.
  destruct (Z.leb_spec ((if overnight s then d + 1 else d) * day_us + time_us (window_end s) - offset)
                       (d * day_us + time_us (window_start s) - offset)); [lia|].
  rewrite !Z.sub_add. split; [done|]. split; [lia|]. split; [lia|done].
Qed.

Lemma first_open_cons now d ds :
  exists w, to_utc (start w) = opens d /\ to_utc (end_ w) = closes d /\
  first_open s now (d :: ds) =
  if mem (weekday_of d) (weekdays s) && (opens d <=? now) && (now <? closes d) then Ok (Some w)
  else first_open s now ds.
Proof.
  destruct (fixed_window d) as (w & Hw & H1 & H2 & _). exists w. split; [done|]. split; [done|].
  cbn [first_open]. rewrite Hw. cbn [mbind res_bind].
  destruct (mem _ _); cbn [andb]; [|done]. unfold contains_instant. by rewrite H1, H2.
Qed.

(** The date of an instant. *)
Lemma local_date_spec now :
  let d := (now + offset) / day_us in
  0 <= now + offset - d * day_us < day_us /\ (now + offset) mod day_us = now + offset - d * day_us.
Proof.
  cbn zeta. pose proof (Z.div_mod (now + offset) day_us ltac:(done)).
  pose proof (Z.mod_pos_bound (now + offset) day_us ltac:(done)). lia.
Qed.

Lemma is_open_fixed now :
  exists b, is_open s now = Ok b /\ (b = true <-> enabled s = true /\ open_by_the_clock now).
Proof.
  unfold is_open, current_window. destruct (enabled s); cbn [negb]; [|exists false; naive_solver].
  change (local_date now) with ((now + offset) / day_us). set (d := (now + offset) / day_us).
  destruct (first_open_cons now (d - 1) [d]) as (w1 & _ & _ & ->).
  destruct (first_open_cons now d []) as (w2 & _ & _ & ->).
  destruct (local_date_spec now) as [Hd Hm]. fold d in Hd, Hm.
  assert (H : (mem (weekday_of (d - 1)) (weekdays s) && (opens (d - 1) <=? now) && (now <? closes (d - 1))
               || mem (weekday_of d) (weekdays s) && (opens d <=? now) && (now <? closes d)) = true
              <-> open_by_the_clock now).
  { unfold open_by_the_clock, selected. fold d. rewrite Hm. cbn zeta.
    destruct Hvalid as [_ _ Hs%time_bounds He%time_bounds]. unfold opens, closes, overnight.
    rewrite orb_true_iff, !andb_true_iff, !Z.leb_le, !Z.ltb_lt.
    unfold day_us, minute_us in *.
    destruct (Z.ltb_spec (time_us (window_end s)) (time_us (window_start s)));
      rewrite <- !mem_true;
      destruct (mem (weekday_of d) _), (mem (weekday_of (d - 1)) _); lia. }
  destruct (mem (weekday_of (d - 1)) _ && _ && _); [exists true|cbn [orb] in H;
    destruct (mem (weekday_of d) _ && _ && _); [exists true|exists false]];
    (split; [reflexivity|]); rewrite <- H; naive_solver.
Qed.

Lemma week_covers wd d : exists k, 1 <= k <= 7 /\ weekday_of (d + k) = wd.
Proof.
  assert (Hi : exists i, 0 <= i < 7 /\ weekdays_in_order !! Z.to_nat i = Some wd).
  { destruct wd; [exists 0|exists 1|exists 2|exists 3|exists 4|exists 5|exists 6];
      (split; [lia|reflexivity]). }
  destruct Hi as (i & Hi & Hwd). exists (1 + (i - (d + 3) - 1) mod 7).
  pose proof (Z.mod_pos_bound (i - (d + 3) - 1) 7 ltac:(done)). split; [lia|].
  unfold weekday_of, date_weekday.
  replace ((d + (1 + (i - (d + 3) - 1) mod 7) + 3) mod 7) with i; [by rewrite Hwd|].
  pose proof (Z.div_mod (i - (d + 3) - 1) 7 ltac:(done)).
  apply (Z.mod_unique_pos _ _ (- ((i - (d + 3) - 1) / 7))); lia.
Qed.

(** The window starting on [d] is a selected one that has not ended. *)
Definition upcoming (now d : Z) : Prop := selected d /\ now < closes d.

Lemma next_candidates now ofs acc :
  exists cs,
    res_foldl (fun candidates o =>
        window ← window_for_start_date s (local_date now + o);
        Ok match window with
           | Some w => if now <? to_utc (end_ w) then candidates ++ [w] else candidates
           | None => candidates
           end) acc ofs = Ok (acc ++ cs) /\
    (forall w, w ∈ cs -> exists o, o ∈ ofs /\ upcoming now (local_date now + o) /\
       to_utc (start w) = opens (local_date now + o) /\ to_utc (end_ w) = closes (local_date now + o)) /\
    (forall o, o ∈ ofs -> upcoming now (local_date now + o) ->
       exists w, w ∈ cs /\ to_utc (start w) = opens (local_date now + o)).
Proof.
  revert acc; induction ofs as [|o ofs IH]; intros acc; cbn [res_foldl].
  { exists []. rewrite app_nil_r. split; [done|]. split; intros x Hx; by apply not_elem_of_nil in Hx. }
  destruct (fixed_window (local_date now + o)) as (w & -> & H1 & H2 & _). cbn [mbind res_bind].
  set (d := local_date now + o) in *.
  assert (Hdec : upcoming now d \/ ~ upcoming now d).
  { unfold upcoming, selected. destruct (decide (weekday_of d ∈ weekdays s)), (decide (now < closes d)); tauto. }
  destruct Hdec as [Hu|Hu].
  - destruct (IH (acc ++ [w])) as (cs & Hcs & G1 & G2). exists (w :: cs).
    destruct (id Hu) as [Hsel%mem_true Hlt%Z.ltb_lt]. rewrite Hsel, H2, Hlt, Hcs, <- app_assoc.
    split; [done|]. split.
    + intros w' [->|Hw']%elem_of_cons; [exists o; split; [left|done]|].
      destruct (G1 w' Hw') as (o' & ? & ?). exists o'. split; [by right|done].
    + intros o' [->|Ho']%elem_of_cons Ho; [exists w; split; [left|done]|].
      destruct (G2 o' Ho' Ho) as (w' & ? & ?). exists w'. split; [by right|done].
  - destruct (IH acc) as (cs & Hcs & G1 & G2). exists cs.
    assert (Hskip : match (if mem (weekday_of d) (weekdays s) then Some w else None) with
                    | Some w => if now <? to_utc (end_ w) then acc ++ [w] else acc
                    | None => acc
                    end = acc).
    { destruct (mem _ _) eqn:Hm; [|done]. rewrite H2. destruct (Z.ltb_spec now (closes d)); [|done].
      destruct Hu. split; [by apply mem_true in Hm|done]. }
    rewrite Hskip, Hcs. split; [done|]. split.
    + intros w' Hw'. destruct (G1 w' Hw') as (o' & ? & ?). exists o'. split; [by right|done].
    + intros o' [->|Ho']%elem_of_cons Ho; [contradiction|]. by apply G2.
Qed.

(** Windows of other dates have ended, or start later than the one of some
    probed date. *)
Lemma horizon now d :
  upcoming now d ->
  exists o, o ∈ offsets /\ upcoming now (local_date now + o) /\ opens (local_date now + o) <= opens d.
Proof.
  intros Hu. set (t := local_date now). destruct (local_date_spec now) as [Hd _].
  change ((now + offset) / day_us) with t in Hd.
  assert (Hlow : t - 1 <= d).
  { destruct Hu as [_ Hu]. pose proof (time_bounds _ (valid_end s Hvalid)).
    unfold closes, day_us, minute_us in *. destruct (overnight s); lia. }
  destruct (Z.le_gt_cases d (t + 8)) as [Hhigh|Hhigh].
  - exists (d - t). replace (t + (d - t)) with d by lia. split; [|split; [done|lia]].
    unfold offsets. rewrite !elem_of_cons. lia.
  - destruct (weekdays s) as [|wd ws] eqn:Hws; [by destruct (valid_weekdays s Hvalid)|].
    destruct (week_covers wd t) as (k & Hk & Hwd). exists k.
    split; [unfold offsets; rewrite !elem_of_cons; lia|].
    pose proof (time_bounds _ (valid_start s Hvalid)). pose proof (time_bounds _ (valid_end s Hvalid)).
    split; [split|].
    + unfold selected. rewrite Hwd, Hws. left.
    + unfold closes, day_us, minute_us in *. destruct (overnight s); lia.
    + unfold opens, day_us, minute_us in *. lia.
Qed.

Lemma next_window_fixed now :
  enabled s = true ->
  exists w d, next_window s now = Ok (Some w) /\ upcoming now d /\
    to_utc (start w) = opens d /\ to_utc (end_ w) = closes d /\
    (forall d', upcoming now d' -> opens d <= opens d').
Proof.
  intros He. unfold next_window. rewrite He. cbn [negb].
  destruct (next_candidates now offsets []) as (cs & -> & G1 & G2). cbn [app mbind res_bind].
  assert (Hsome : exists d, upcoming now d).
  { destruct (weekdays s) as [|wd ws] eqn:Hws; [by destruct (valid_weekdays s Hvalid)|].
    destruct (week_covers wd (local_date now)) as (k & Hk & Hwd). exists (local_date now + k).
    split; [unfold selected; rewrite Hwd, Hws; left|].
    destruct (local_date_spec now) as [Hd _].
    change ((now + offset) / day_us) with (local_date now) in Hd.
    pose proof (time_bounds _ (valid_end s Hvalid)).
    unfold closes, day_us, minute_us in *. destruct (overnight s); lia. }
  destruct cs as [|c cs].
  { destruct Hsome as [d Hd]. destruct (horizon now d Hd) as (o & Ho & Hu & _).
    destruct (G2 o Ho Hu) as (w & Hw & _). by apply not_elem_of_nil in Hw. }
  destruct (py_min_by_spec (fun w => to_utc (start w)) cs c) as [Hin Hmin].
  destruct (G1 _ Hin) as (o & Ho & Hu & Hs & Hc).
  exists (py_min_by (fun w => to_utc (start w)) c cs), (local_date now + o).
  split; [done|]. split; [done|]. split; [done|]. split; [done|].
  intros d' Hd'. destruct (horizon now d' Hd') as (o' & Ho' & Hu' & Hle).
  destruct (G2 o' Ho' Hu') as (w' & Hw' & Hs'). rewrite Forall_forall in Hmin.
  specialize (Hmin w' Hw'). cbn beta in Hmin. lia.
Qed.
End fixed_offset.

(** In a zone with a fixed offset the schedule is the plain reading of the
    wall clock: updates may install exactly when the policy is enabled and the
    clock is within the two times on a selected day, an overnight window
    belonging to the day it starts on; the test never raises. *)
Theorem open_iff_by_the_clock offset s now :
  valid s ->
  exists b, is_open (Zone := fixed_zone offset) s now = Ok b /\
    (b = true <-> enabled s = true /\ open_by_the_clock offset s now).
Proof. intros H. exact (is_open_fixed offset s H now). Qed.

(** In a zone with a fixed offset an enabled policy always has a next
    window, and it is, of all the windows of all dates that have not ended,
    the one that starts first. *)
Theorem next_window_is_the_earliest offset s now :
  valid s -> enabled s = true ->
  exists w d, next_window (Zone := fixed_zone offset) s now = Ok (Some w) /\
    upcoming offset s now d /\
    to_utc (ZoneInfo := fixed_zone offset) (start w) = opens offset s d /\
    to_utc (ZoneInfo := fixed_zone offset) (end_ w) = closes offset s d /\
    (forall d', upcoming offset s now d' -> opens offset s d <= opens offset s d').
Proof. intros H He. exact (next_window_fixed offset s H now He). Qed.

(** ** A zone that changes its clocks

    Eastern time in 2026: from UTC-5 to UTC-4 at 07:00 UTC on March 8, and back
    at 06:00 UTC on November 1. *)

Definition hour_us : Z := 60 * minute_us.
Definition spring : Z := 20520 * day_us + 7 * hour_us.
Definition autumn : Z := 20758 * day_us + 6 * hour_us.

Definition eastern_2026 : ZoneInfo :=
  {| to_wall := fun u =>
       if (spring <=? u) && (u <? autumn) then u - 4 * hour_us else u - 5 * hour_us;
     to_utc := fun c =>
       let w := wall c in
       if fold c
       then if (w <? 20520 * day_us + 2 * hour_us) || (20758 * day_us + hour_us <=? w)
            then w + 5 * hour_us else w + 4 * hour_us
       else if (w <? 20520 * day_us + 3 * hour_us) || (20758 * day_us + 2 * hour_us <=? w)
            then w + 5 * hour_us else w + 4 * hour_us |}.

#[export] Instance eastern_law : ZoneLaw eastern_2026.
Proof.
  intros u. exists (autumn <=? u). unfold eastern_2026, spring, autumn, hour_us, day_us, minute_us.
  cbn [to_utc to_wall wall fold].
  destruct (Z.leb_spec (20758 * (24 * 60 * (60 * 1000000)) + 6 * (60 * (60 * 1000000))) u);
    repeat case_match; lia.
Qed.

Definition at_clock (h m : Z) : clock_time :=
  {| hour := h; minute := m; second := 0; microsecond := 0; has_tzinfo := false |}.

(** Sundays from 02:15 to 02:45. *)
Definition sunday_nights : UpdateSchedule :=
  {| enabled := true; weekdays := [sunday]; window_start := at_clock 2 15; window_end := at_clock 2 45 |}.

(** Monday, 2026-03-02, noon UTC. *)
Definition monday_before : Z := 20514 * day_us + 12 * hour_us.

(** [next_window] says that no window follows although the policy is enabled and
    the window of Sunday, March 15 is still to come: the one of March 8 falls
    into the gap, and the horizon ends before the following Sunday. *)
Lemma next_window_misses_a_window :
  make_schedule (Some eastern_2026) true [sunday] (at_clock 2 15) (at_clock 2 45)
    = Ok (eastern_2026, sunday_nights) /\
  next_window (Zone := eastern_2026) sunday_nights monday_before = Ok None /\
  exists w, window_for_start_date (Zone := eastern_2026) sunday_nights 20527 = Ok (Some w) /\
    monday_before < to_utc (ZoneInfo := eastern_2026) (start w).
Proof.
  split; [reflexivity|]. split; [vm_compute; reflexivity|].
  eexists. split; [vm_compute; reflexivity|]. vm_compute. reflexivity.
Qed.

(** The whole repeated hour is inside a window that starts and ends in it. *)
Lemma resolution_takes_first_existing_time_witness :
  exists c1 c2,
    _resolve_wall_time (Zone := eastern_2026) (20520 * day_us + 2 * hour_us + 15 * minute_us) at_start
      = Ok c1 /\
    resolves (Zone := eastern_2026) (20520 * day_us + 2 * hour_us + 15 * minute_us) at_start c1 /\
    to_utc (ZoneInfo := eastern_2026) c1 = spring /\
    _resolve_wall_time (Zone := eastern_2026) (20758 * day_us + hour_us) at_end = Ok c2 /\
    to_utc (ZoneInfo := eastern_2026) c2 = autumn.
Proof.
  destruct (resolution_takes_first_existing_time (Zone := eastern_2026)
              (20520 * day_us + 2 * hour_us + 15 * minute_us) at_start 45 spring)
    as (c1 & H1 & H2); [split; discriminate|reflexivity|].
  exists c1. eexists. split; [exact H1|]. split; [exact H2|].
  split; [|split; [vm_compute; reflexivity|reflexivity]].
  vm_compute in H1. injection H1 as <-. reflexivity.
Defined.

(** Monday and Friday, 23:00 to 02:00. *)
Definition week_nights : UpdateSchedule :=
  {| enabled := true; weekdays := [monday; friday];
     window_start := at_clock 23 0; window_end := at_clock 2 0 |}.

Lemma week_nights_valid : valid week_nights.
Proof. split; [discriminate|discriminate| |]; apply time_okb_true; reflexivity. Qed.

(** Tuesday, 2026-03-03, 01:30 in UTC+2. *)
Lemma open_iff_by_the_clock_witness :
  is_open (Zone := fixed_zone (2 * hour_us)) week_nights (20514 * day_us + 23 * hour_us + 30 * minute_us)
    = Ok true.
Proof.
  destruct (open_iff_by_the_clock (2 * hour_us) week_nights
              (20514 * day_us + 23 * hour_us + 30 * minute_us)) as (b & Hb & Hiff);
    [split; [discriminate|discriminate| |]; apply time_okb_true; reflexivity|].
  rewrite Hb. f_equal. apply Hiff. split; [reflexivity|]. vm_compute. right. split; [left|reflexivity].
Defined.

Lemma next_window_is_the_earliest_witness :
  exists w, next_window (Zone := fixed_zone 0) week_nights monday_before = Ok (Some w) /\
    to_utc (ZoneInfo := fixed_zone 0) (start w) <= 20514 * day_us + 23 * hour_us.
Proof.
  destruct (next_window_is_the_earliest 0 week_nights monday_before) as (w & d & Hw & _ & Hs & _ & Hmin);
    [split; [discriminate|discriminate| |]; apply time_okb_true; reflexivity|reflexivity|].
  exists w. split; [exact Hw|]. rewrite Hs.
  apply (Hmin 20514). split; [apply mem_true; reflexivity|reflexivity].
Defined.
