(* ===== verification/UpdatePolicy.v ===== *)
(** * The persisted update policy ([services/update_policy.py])

    Six stored texts become a valid schedule, whatever they are: a text that
    does not parse is replaced by the documented default, and the fields
    accepted verbatim are reported. *)

From Stdlib Require Import ZArith Lia Bool String.
From S2P Require Import Prelude PyStr PyRe PyInt Json UpdateSchedule.

#[local] Open Scope bool_scope.

Record AutomaticUpdatePolicy := {
  schedule : UpdateSchedule;
  timezone_name : list N;
  idle_only : bool;
}.

Record ResolvedUpdatePolicy := {
  policy : AutomaticUpdatePolicy;
  honored_fields : list (list N);
}.

Definition AUTOMATIC_UPDATES_ENABLED_DEFAULT : bool := false.
Definition AUTOMATIC_UPDATE_TIMEZONE_DEFAULT : list N := lit "UTC".
Definition AUTOMATIC_UPDATE_WINDOW_START_DEFAULT : list N := lit "03:00".
Definition AUTOMATIC_UPDATE_WINDOW_END_DEFAULT : list N := lit "05:00".
Definition AUTOMATIC_UPDATE_IDLE_ONLY_DEFAULT : bool := true.

Definition UPDATE_POLICY_SETTING_KEYS : list (list N) :=
  [lit "automatic_updates_enabled"; lit "automatic_update_timezone";
   lit "automatic_update_weekdays"; lit "automatic_update_window_start";
   lit "automatic_update_window_end"; lit "automatic_update_idle_only"].

Definition _TRUE_VALUES : list (list N) :=
  [lit "1"; lit "true"; lit "yes"; lit "on"; lit "t"; lit "y"].
Definition _FALSE_VALUES : list (list N) :=
  [lit "0"; lit "false"; lit "no"; lit "off"; lit "f"; lit "n"].

(** [day.value]. *)
Definition weekday_value (d : Weekday) : list N :=
  lit match d with
  | monday => "monday" | tuesday => "tuesday" | wednesday => "wednesday" | thursday => "thursday"
  | friday => "friday" | saturday => "saturday" | sunday => "sunday"
  end.

(** [Weekday(text)]; [None] is the [ValueError]. *)
Definition weekday_of_value (s : list N) : option Weekday :=
  List.find (fun d => bool_decide (weekday_value d = s)) weekdays_in_order.

Section policy.
Context {DB : UnicodeDB}.

(** [ZoneInfo(name)], [None] when it raises [ValueError] or
    [ZoneInfoNotFoundError]. *)
Variable zones : list N -> option ZoneInfo.

Definition _bool (value : option (list N)) (dflt : bool) : bool * bool :=
  match value with
  | None => (dflt, false)
  | Some value =>
      let token := py_lower (py_strip value) in
      if mem token _TRUE_VALUES then (true, true)
      else if mem token _FALSE_VALUES then (false, true)
      else (dflt, false)
  end.

Definition _timezone (value : option (list N)) : list N * bool :=
  match value with
  | None => (AUTOMATIC_UPDATE_TIMEZONE_DEFAULT, false)
  | Some value =>
      let token := py_strip value in
      match zones token with
      | None => (AUTOMATIC_UPDATE_TIMEZONE_DEFAULT, false)
      | Some _ => (token, true)
      end
  end.

(** The strings of a JSON list; [None] when an item is not one. *)
Definition strings_of (items : list json) : option (list (list N)) :=
  mapM (fun v => match v with JStr s => Some s | _ => None end) items.

Definition _weekdays (value : option (list N)) : list Weekday * bool :=
  let dflt := (weekdays_in_order, false) in
  match value with
  | None => dflt
  | Some value =>
      match loads value with
      | JOk (JArr ((_ :: _) as items)) =>
          match strings_of items with
          | None => dflt
          | Some texts =>
              match mapM weekday_of_value texts with
              | None => dflt
              | Some parsed =>
                  if negb (length parsed =? length (remove_dups parsed))%nat then dflt
                  else (parsed, true)
              end
          end
      | _ => dflt
      end
  end.

(** [[01]\d|2[0-3]), ':', [0-5]\d]; [\d] is any decimal digit. *)
Definition _TIME_RE : re :=
  let d := Chr (fun c => bool_decide (is_Some (digit_val c))) in
  cats [alts [cats [Chr (between 48 49); d]; cats [Chr (fun c => (c =? 50)%N); Chr (between 48 51)]];
        Chr (fun c => (c =? 58)%N); Chr (between 48 53); d].

(** [Pattern.fullmatch]. *)
Definition fullmatch (r : re) (s : list N) : bool :=
  existsb (fun st => bool_decide (m_rest st = [])) (run r (MState None s None)).

Definition plain_time (h m : Z) : clock_time :=
  {| hour := h; minute := m; UpdateSchedule.second := 0; UpdateSchedule.microsecond := 0;
     has_tzinfo := false |}.

Definition _wall_time (value : option (list N)) (dflt : list N) : res (clock_time * bool) :=
  let token := match value with Some v => py_strip v | None => [] end in
  let '(token, honored) := if fullmatch _TIME_RE token then (token, true) else (dflt, false) in
  match int_of_str <$> split_on 58%N token with
  | [Some h; Some m] =>
      if ((0 <=? h) && (h <? 24) && (0 <=? m) && (m <? 60))%Z then Ok (plain_time h m, honored)
      else Raise (ValueError (lit "hour or minute out of range"))
  | _ => Raise (ValueError (lit "cannot unpack"))
  end.

Definition add_if (b : bool) (key : list N) (honored : list (list N)) : list (list N) :=
  if b then honored ++ [key] else honored.

Definition resolve_update_policy (raw : gmap (list N) (list N)) : res ResolvedUpdatePolicy :=
  let '(enabled, enabled_ok) :=
    _bool (raw !! lit "automatic_updates_enabled") AUTOMATIC_UPDATES_ENABLED_DEFAULT in
  let honored := add_if enabled_ok (lit "automatic_updates_enabled") [] in
  let '(idle, idle_ok) :=
    _bool (raw !! lit "automatic_update_idle_only") AUTOMATIC_UPDATE_IDLE_ONLY_DEFAULT in
  let honored := add_if idle_ok (lit "automatic_update_idle_only") honored in
  let '(tz, timezone_ok) := _timezone (raw !! lit "automatic_update_timezone") in
  let honored := add_if timezone_ok (lit "automatic_update_timezone") honored in
  let '(days, weekdays_ok) := _weekdays (raw !! lit "automatic_update_weekdays") in
  let honored := add_if weekdays_ok (lit "automatic_update_weekdays") honored in
  '(ws, start_ok) ← _wall_time (raw !! lit "automatic_update_window_start")
                      AUTOMATIC_UPDATE_WINDOW_START_DEFAULT;
  '(we, end_ok) ← _wall_time (raw !! lit "automatic_update_window_end")
                    AUTOMATIC_UPDATE_WINDOW_END_DEFAULT;
  '(ws, we, start_ok, end_ok) ←
    (if (time_us ws =? time_us we)%Z then
       '(ws, _) ← _wall_time None AUTOMATIC_UPDATE_WINDOW_START_DEFAULT;
       '(we, _) ← _wall_time None AUTOMATIC_UPDATE_WINDOW_END_DEFAULT;
       Ok (ws, we, false, false)
     else Ok (ws, we, start_ok, end_ok));
  let honored := add_if start_ok (lit "automatic_update_window_start") honored in
  let honored := add_if end_ok (lit "automatic_update_window_end") honored in
  '(_, sched) ← make_schedule (zones tz) enabled days ws we;
  Ok {| policy := {| schedule := sched; timezone_name := tz; idle_only := idle |};
        honored_fields := honored |}.

(** [load_update_policy]: the rows of the six keys, over a dictionary that
    starts with [None] for each. *)
Definition load_update_policy (rows : list (list N * option (list N))) : res AutomaticUpdatePolicy :=
  let raw := foldl (fun raw '(key, value) =>
      if mem key UPDATE_POLICY_SETTING_KEYS
      then match value with Some v => <[key := v]> raw | None => delete key raw end
      else raw) (∅ : gmap (list N) (list N)) rows in
  policy <$> resolve_update_policy raw.
End policy.

(** What Unicode says of a decimal digit outside ASCII. *)
Class DecimalLaw (DB : UnicodeDB) : Prop := {
  decimal_range : forall c v, u_decimal c = Some v -> (0 <= v <= 9)%Z;
  decimal_not_space : forall c v, u_decimal c = Some v -> is_space c = false;
}.

#[export] Instance ascii_decimals : DecimalLaw ascii_db.
Proof. by split. Qed.

Lemma Matches_Cat_inv `{UnicodeDB} r1 r2 st st' : Matches (Cat r1 r2) st st' ->
  exists st1, Matches r1 st st1 /\ Matches r2 st1 st'.
Proof. inversion 1; subst; eauto. Qed.

Lemma Matches_Alt_inv `{UnicodeDB} r1 r2 st st' : Matches (Alt r1 r2) st st' ->
  Matches r1 st st' \/ Matches r2 st st'.
Proof. inversion 1; subst; eauto. Qed.

Lemma Matches_Chr_inv `{UnicodeDB} p prev s g st' : Matches (Chr p) (MState prev s g) st' ->
  exists c t, s = c :: t /\ p c = true /\ st' = MState (Some c) t g.
Proof.
  inversion 1 as [|? c ? t Hr Hp| | | | | | | | | |]; subst. simpl in Hr. subst s.
  exists c, t. split; [done|]. split; [done|]. unfold advance. cbn. by rewrite drop_0.
Qed.

Section facts.
Context {DB : UnicodeDB} {Law : DecimalLaw DB}.
Variable zones : list N -> option ZoneInfo.

(** ** Wall times *)

Lemma digit_val_facts c v : digit_val c = Some v ->
  (0 <= v <= 9)%Z /\ is_space c = false /\ c <> 43%N /\ c <> 45%N /\ c <> 58%N /\ c <> 95%N /\
  (is_ascii c = true -> between 9 13 c || (c =? 32)%N = false).
Proof.
  unfold digit_val. destruct (is_digit c) eqn:Hd.
  - intros [= <-]. unfold is_digit, between in Hd. apply andb_true_iff in Hd as [H1 H2].
    rewrite N.leb_le in *. repeat split; try lia.
    + unfold is_space, between. repeat (apply orb_false_iff; split);
        rewrite ?andb_false_iff, ?N.leb_gt, ?N.eqb_neq; lia.
    + intros _. unfold between. apply orb_false_iff; rewrite andb_false_iff, !N.leb_gt, N.eqb_neq; lia.
  - destruct (is_ascii c) eqn:Ha; [done|]. intros Hv. unfold is_ascii in Ha. apply N.ltb_ge in Ha.
    repeat split; try lia; try (by eapply decimal_range); try done. by eapply decimal_not_space.
Qed.

Lemma int_two_digits a b x y : digit_val a = Some x -> digit_val b = Some y ->
  int_of_str [a; b] = Some (x * 10 + y)%Z.
Proof.
  intros Ha Hb. destruct (digit_val_facts a x Ha) as (_ & Hsa & Ha43 & Ha45 & _ & Ha95 & Hca).
  destruct (digit_val_facts b y Hb) as (_ & Hsb & _ & _ & _ & Hb95 & Hcb).
  assert (forall c, c = a \/ c = b -> int_space [a; b] c = false) as Hs.
  { intros c Hc. unfold int_space. destruct (all_ascii [a; b]) eqn:Hall.
    - simpl in Hall. rewrite andb_true_r in Hall. apply andb_true_iff in Hall as [? ?].
      destruct Hc as [->| ->]; auto.
    - by destruct Hc as [->| ->]. }
  unfold int_of_str.
  assert (strip (int_space [a; b]) [a; b] = [a; b]) as ->.
  { unfold strip, rstrip. cbn [lstrip]. rewrite (Hs a) by auto. cbn [reverse].
    change (reverse [a; b]) with [b; a]. cbn [lstrip]. by rewrite (Hs b) by auto. }
  cbn [split_sign]. destruct (N.eqb_spec a 43), (N.eqb_spec a 45); try done.
  unfold digits_of. cbn [split_on].
  destruct (N.eqb_spec a 95), (N.eqb_spec b 95); try done.
  cbn [existsb concat app]. rewrite !bool_decide_false by done. cbn [orb mapM].
  rewrite Ha, Hb. cbn [mbind option_bind mret option_ret length]. unfold max_str_digits.
  destruct (Nat.ltb_spec (N.to_nat 4300) 2) as [Hlt|]; [|].
  - exfalso. revert Hlt. apply Nat.le_ngt, Nat.leb_le. vm_compute. reflexivity.
  - unfold digits_value. simpl. f_equal. destruct x, y; lia.
Qed.

(** The pattern, spelled out. *)
Lemma fullmatch_time s : fullmatch _TIME_RE s = true ->
  exists a b c d x1 x2 x3 x4, s = [a; b; 58%N; c; d] /\
    digit_val a = Some x1 /\ digit_val b = Some x2 /\ digit_val c = Some x3 /\ digit_val d = Some x4 /\
    (0 <= x1 * 10 + x2 < 24)%Z /\ (0 <= x3 * 10 + x4 < 60)%Z.
Proof.
  assert (forall lo hi c, (48 <= lo)%N -> (hi <= 57)%N -> between lo hi c = true ->
    exists x, digit_val c = Some x /\ (Z.of_N lo - 48 <= x <= Z.of_N hi - 48)%Z) as Hbetween.
  { intros lo hi c Hlo Hhi Hc. unfold between in Hc. apply andb_true_iff in Hc as [H1 H2].
    rewrite N.leb_le in *. exists (Z.of_N (c - 48)). unfold digit_val, is_digit, between.
    rewrite (proj2 (N.leb_le 48 c)), (proj2 (N.leb_le c 57)) by lia. split; [done|lia]. }
  assert (forall c, bool_decide (is_Some (digit_val c)) = true ->
    exists x, digit_val c = Some x /\ (0 <= x <= 9)%Z) as Hdec.
  { intros c Hc. apply bool_decide_eq_true in Hc as [x Hx]. exists x.
    split; [done|]. by destruct (digit_val_facts c x Hx). }
  unfold fullmatch. intros H. apply existsb_exists_iff in H as (st & Hrun & Hst).
  apply bool_decide_eq_true in Hst. apply run_spec in Hrun. unfold _TIME_RE in Hrun.
  cbn [cats alts] in Hrun. apply Matches_Cat_inv in Hrun as (st1 & Hhour & Hrun).
  apply Matches_Cat_inv in Hrun as (st2 & Hcolon & Hrun).
  apply Matches_Cat_inv in Hrun as (st3 & Hm1 & Hm2).
  assert (exists a b x1 x2 t, s = a :: b :: t /\ digit_val a = Some x1 /\ digit_val b = Some x2 /\
    (0 <= x1 * 10 + x2 < 24)%Z /\ st1 = MState (Some b) t None) as (a & b & x1 & x2 & t & -> & Ha & Hb & Hh & ->).
  { apply Matches_Alt_inv in Hhour as [Hhour|Hhour];
      apply Matches_Cat_inv in Hhour as (st0 & H1 & H2);
      apply Matches_Chr_inv in H1 as (a & t1 & -> & H1 & ->);
      apply Matches_Chr_inv in H2 as (b & t & -> & H2 & ->).
    - destruct (Hbetween 48 49 a)%N as (x1 & ? & ?); [lia..|done|].
      destruct (Hdec b H2) as (x2 & ? & ?). exists a, b, x1, x2, t. repeat split; try done; lia.
    - apply N.eqb_eq in H1 as ->. destruct (Hbetween 48 51 b)%N as (x2 & ? & ?); [lia..|done|].
      exists 50%N, b, 2%Z, x2, t. repeat split; try done; lia. }
  apply Matches_Chr_inv in Hcolon as (e & t1 & -> & He & ->). apply N.eqb_eq in He as ->.
  apply Matches_Chr_inv in Hm1 as (c & t2 & -> & Hc & ->).
  apply Matches_Chr_inv in Hm2 as (d & t3 & -> & Hd & ->). simpl in Hst. subst t3.
  destruct (Hbetween 48 53 c)%N as (x3 & ? & ?); [lia..|done|].
  destruct (Hdec d Hd) as (x4 & ? & ?). exists a, b, c, d, x1, x2, x3, x4. repeat split; try done; lia.
Qed.

(** A time: hours and minutes in range, nothing finer, no timezone. *)
Definition minute_time (t : clock_time) : Prop :=
  (0 <= hour t < 24)%Z /\ (0 <= minute t < 60)%Z /\ UpdateSchedule.second t = 0%Z /\
  UpdateSchedule.microsecond t = 0%Z /\ has_tzinfo t = false.

Lemma wall_time_of_match token : fullmatch _TIME_RE token = true ->
  exists h m, int_of_str <$> split_on 58%N token = [Some h; Some m] /\ (0 <= h < 24)%Z /\ (0 <= m < 60)%Z.
Proof.
  intros H. destruct (fullmatch_time token H)
    as (a & b & c & d & x1 & x2 & x3 & x4 & -> & Ha & Hb & Hc & Hd & Hh & Hm).
  exists (x1 * 10 + x2)%Z, (x3 * 10 + x4)%Z. split; [|done].
  destruct (digit_val_facts a x1 Ha) as (_ & _ & _ & _ & Ha58 & _).
  destruct (digit_val_facts b x2 Hb) as (_ & _ & _ & _ & Hb58 & _).
  destruct (digit_val_facts c x3 Hc) as (_ & _ & _ & _ & Hc58 & _).
  destruct (digit_val_facts d x4 Hd) as (_ & _ & _ & _ & Hd58 & _).
  cbn [split_on]. destruct (N.eqb_spec a 58), (N.eqb_spec b 58), (N.eqb_spec c 58), (N.eqb_spec d 58); try done.
  change (58 =? 58)%N with true. cbv iota. cbn [fmap list_fmap].
  by rewrite (int_two_digits a b x1 x2), (int_two_digits c d x3 x4).
Qed.

(** The time of day a stored text names. *)
Definition stored_time (value : option (list N)) (t : clock_time) : Prop :=
  exists v h m, value = Some v /\ fullmatch _TIME_RE (py_strip v) = true /\
    int_of_str <$> split_on 58%N (py_strip v) = [Some h; Some m] /\ t = plain_time h m.

Lemma wall_time_spec value dflt : fullmatch _TIME_RE dflt = true -> py_strip dflt = dflt ->
  exists t ok, _wall_time value dflt = Ok (t, ok) /\ minute_time t /\
    (if ok then stored_time value t else stored_time (Some dflt) t).
Proof.
  intros Hd Hstrip. unfold _wall_time.
  set (token := match value with Some v => py_strip v | None => [] end).
  assert (forall tok (ok : bool), fullmatch _TIME_RE tok = true -> exists h m,
    int_of_str <$> split_on 58%N tok = [Some h; Some m] /\ minute_time (plain_time h m) /\
    match int_of_str <$> split_on 58%N tok with
    | [Some h; Some m] =>
        if ((0 <=? h) && (h <? 24) && (0 <=? m) && (m <? 60))%Z then Ok (plain_time h m, ok)
        else Raise (ValueError (lit "hour or minute out of range"))
    | _ => Raise (ValueError (lit "cannot unpack"))
    end = Ok (plain_time h m, ok)) as Hgo.
  { intros tok ok Ht. destruct (wall_time_of_match tok Ht) as (h & m & He & Hh & Hm).
    exists h, m. rewrite He. split; [done|]. split; [repeat split; simpl; lia|].
    by rewrite !(proj2 (Z.leb_le _ _)), !(proj2 (Z.ltb_lt _ _)) by lia. }
  destruct (fullmatch _TIME_RE token) eqn:Hm.
  - destruct (Hgo token true Hm) as (h & m & He & Ht & Hrun). do 2 eexists. split; [exact Hrun|].
    split; [done|]. subst token. destruct value as [v|]; [|done]. by exists v, h, m.
  - destruct (Hgo dflt false Hd) as (h & m & He & Ht & Hrun). do 2 eexists. split; [exact Hrun|].
    split; [done|]. exists dflt, h, m. by rewrite Hstrip.
Qed.

(** ** The other fields *)

Definition token (v : list N) : list N := py_lower (py_strip v).

Definition stored_bool (value : option (list N)) (b : bool) : Prop :=
  exists v, value = Some v /\ if b then token v ∈ _TRUE_VALUES else token v ∈ _FALSE_VALUES.

Lemma bool_spec value dflt :
  let '(b, ok) := _bool value dflt in if ok then stored_bool value b else b = dflt.
Proof.
  unfold _bool. destruct value as [v|]; [|done].
  destruct (mem _ _TRUE_VALUES) eqn:Ht; [apply mem_true in Ht; by exists v|].
  destruct (mem _ _FALSE_VALUES) eqn:Hf; [apply mem_true in Hf; by exists v|done].
Qed.

Definition stored_zone (value : option (list N)) (tz : list N) : Prop :=
  exists v, value = Some v /\ tz = py_strip v /\ is_Some (zones tz).

Lemma timezone_spec value :
  let '(tz, ok) := _timezone zones value in
  if ok then stored_zone value tz else tz = AUTOMATIC_UPDATE_TIMEZONE_DEFAULT.
Proof.
  unfold _timezone. destruct value as [v|]; [|done].
  destruct (zones (py_strip v)) eqn:Hz; [|done]. by exists v.
Qed.

(** A non-empty JSON list of distinct weekday names. *)
Definition stored_weekdays (value : option (list N)) (days : list Weekday) : Prop :=
  exists v items, value = Some v /\ loads v = JOk (JArr items) /\
    items = (fun d => JStr (weekday_value d)) <$> days.

Lemma weekday_of_value_Some s d : weekday_of_value s = Some d -> weekday_value d = s.
Proof.
  unfold weekday_of_value. intros H. apply List.find_some in H as [_ H].
  by apply bool_decide_eq_true in H.
Qed.

Lemma remove_dups_length (l : list Weekday) : length (remove_dups l) = length l -> NoDup l.
Proof.
  induction l as [|d l IH]; [constructor|]. simpl.
  assert (forall l : list Weekday, (length (remove_dups l) <= length l)%nat) as Hle.
  { clear. induction l as [|x l IH]; simpl; [lia|]. case_decide; simpl; lia. }
  specialize (Hle l). case_decide as Hd; simpl; intros Hl; [lia|].
  constructor; [by rewrite elem_of_remove_dups in Hd || done | apply IH; lia].
Qed.

Lemma weekdays_spec value :
  let '(days, ok) := _weekdays value in
  days <> [] /\ NoDup days /\ if ok then stored_weekdays value days else days = weekdays_in_order.
Proof.
  assert (weekdays_in_order <> [] /\ NoDup weekdays_in_order /\ weekdays_in_order = weekdays_in_order)
    as Hdflt by (repeat split; [done|apply (bool_decide_unpack _); vm_compute; exact I]).
  unfold _weekdays. destruct value as [v|]; [|done].
  destruct (loads v) as [[| | | | |[|item items]|]|] eqn:Hl; try done.
  destruct (strings_of (item :: items)) as [texts|] eqn:Ht; [|done].
  destruct (mapM weekday_of_value texts) as [parsed|] eqn:Hp; [|done].
  destruct (Nat.eqb_spec (length parsed) (length (remove_dups parsed))) as [Hd|]; simpl; [|done].
  unfold strings_of in Ht. apply mapM_Some in Ht, Hp.
  assert (item :: items = (fun d => JStr (weekday_value d)) <$> parsed) as Hi.
  { clear Hl Hd. revert parsed Hp. induction Ht as [|x s xs ss Hx Hxs IH]; intros parsed Hp.
    - by inversion Hp.
    - inversion Hp as [|? d ? ds Hd Hds]; subst. rewrite fmap_cons, <- (IH ds Hds).
      destruct x; try done. injection Hx as ->. by rewrite (weekday_of_value_Some s d). }
  split; [intros ->; by rewrite fmap_nil in Hi|]. split; [by apply remove_dups_length|].
  by exists v, (item :: items).
Qed.

(** ** The whole policy *)

Lemma elem_of_add_if x b key l : x ∈ add_if b key l <-> (b = true /\ x = key) \/ x ∈ l.
Proof.
  destruct b; simpl; [|naive_solver]. rewrite elem_of_app, list_elem_of_singleton. naive_solver.
Qed.

(** A field's value is the stored one when it is honored, the default when not. *)
Definition field {A} (honored : list (list N)) (key : string) (stored : A -> Prop) (dflt : A -> Prop)
    (value : A) : Prop :=
  if mem (lit key) honored then stored value else dflt value.

Lemma policy_schedule_valid tz z en days ws we : zones tz = Some z -> days <> [] ->
  minute_time ws -> minute_time we -> time_us ws <> time_us we ->
  make_schedule (zones tz) en days ws we =
  Ok (z, {| enabled := en; weekdays := days; window_start := ws; window_end := we |}).
Proof.
  intros Hz Hd (_ & _ & Hs1 & Hu1 & Ht1) (_ & _ & Hs2 & Hu2 & Ht2) Hne. unfold make_schedule.
  rewrite Hz, bool_decide_false by done. destruct (Z.eqb_spec (time_us ws) (time_us we)); [done|].
  cbn [res_foldl]. by rewrite Ht1, Hs1, Hu1, Ht2, Hs2, Hu2.
Qed.

Lemma mem_add_if x b key l : mem x (add_if b key l) = (b && bool_decide (x = key)) || mem x l.
Proof.
  apply eq_true_iff_eq. rewrite orb_true_iff, andb_true_iff, !mem_true, bool_decide_eq_true.
  apply elem_of_add_if.
Qed.

(** Which of the six flags says that a key is honored. *)
Ltac honored_flags :=
  rewrite !mem_add_if;
  repeat match goal with |- context [bool_decide (lit ?a = lit ?b)] =>
    let v := eval vm_compute in (bool_decide (lit a = lit b)) in
    change (bool_decide (lit a = lit b)) with v end;
  rewrite ?andb_false_r, ?andb_true_r, ?orb_false_l, ?orb_false_r;
  change (mem ?x []) with false; rewrite ?orb_false_r.

Definition policy_fields (raw : gmap (list N) (list N)) (p : ResolvedUpdatePolicy) : Prop :=
  let f {A} := @field A (honored_fields p) in
  let s := schedule (policy p) in
  f "automatic_updates_enabled" (stored_bool (raw !! lit "automatic_updates_enabled"))
    (fun b => b = AUTOMATIC_UPDATES_ENABLED_DEFAULT) (enabled s) /\
  f "automatic_update_idle_only" (stored_bool (raw !! lit "automatic_update_idle_only"))
    (fun b => b = AUTOMATIC_UPDATE_IDLE_ONLY_DEFAULT) (idle_only (policy p)) /\
  f "automatic_update_timezone" (stored_zone (raw !! lit "automatic_update_timezone"))
    (fun tz => tz = AUTOMATIC_UPDATE_TIMEZONE_DEFAULT) (timezone_name (policy p)) /\
  f "automatic_update_weekdays" (stored_weekdays (raw !! lit "automatic_update_weekdays"))
    (fun days => days = weekdays_in_order) (weekdays s) /\
  f "automatic_update_window_start" (stored_time (raw !! lit "automatic_update_window_start"))
    (stored_time (Some AUTOMATIC_UPDATE_WINDOW_START_DEFAULT)) (window_start s) /\
  f "automatic_update_window_end" (stored_time (raw !! lit "automatic_update_window_end"))
    (stored_time (Some AUTOMATIC_UPDATE_WINDOW_END_DEFAULT)) (window_end s).

Definition valid_schedule (p : AutomaticUpdatePolicy) : Prop :=
  let s := schedule p in
  weekdays s <> [] /\ NoDup (weekdays s) /\ minute_time (window_start s) /\
  minute_time (window_end s) /\ time_us (window_start s) <> time_us (window_end s) /\
  is_Some (zones (timezone_name p)).

(** The two windows, with the reset of equal ones. *)
Lemma windows_spec raw_start raw_end :
  exists ws we start_ok end_ok,
    ('(ws, start_ok) ← _wall_time raw_start AUTOMATIC_UPDATE_WINDOW_START_DEFAULT;
     '(we, end_ok) ← _wall_time raw_end AUTOMATIC_UPDATE_WINDOW_END_DEFAULT;
     if (time_us ws =? time_us we)%Z then
       '(ws, _) ← _wall_time None AUTOMATIC_UPDATE_WINDOW_START_DEFAULT;
       '(we, _) ← _wall_time None AUTOMATIC_UPDATE_WINDOW_END_DEFAULT;
       Ok (ws, we, false, false)
     else Ok (ws, we, start_ok, end_ok)) = Ok (ws, we, start_ok, end_ok) /\
    minute_time ws /\ minute_time we /\ time_us ws <> time_us we /\
    (if (start_ok : bool) then stored_time raw_start ws
     else stored_time (Some AUTOMATIC_UPDATE_WINDOW_START_DEFAULT) ws) /\
    (if (end_ok : bool) then stored_time raw_end we
     else stored_time (Some AUTOMATIC_UPDATE_WINDOW_END_DEFAULT) we).
Proof.
  destruct (wall_time_spec raw_start AUTOMATIC_UPDATE_WINDOW_START_DEFAULT) as (ws & so & -> & Hws & Hs);
    [reflexivity..|].
  destruct (wall_time_spec raw_end AUTOMATIC_UPDATE_WINDOW_END_DEFAULT) as (we & eo & -> & Hwe & He);
    [reflexivity..|].
  cbn [mbind res_bind]. destruct (Z.eqb_spec (time_us ws) (time_us we)) as [Heq|Hne].
  - exists (plain_time 3 0), (plain_time 5 0), false, false. split; [reflexivity|].
    repeat split; simpl; try lia; try done.
    + exists AUTOMATIC_UPDATE_WINDOW_START_DEFAULT, 3%Z, 0%Z. repeat split; reflexivity.
    + exists AUTOMATIC_UPDATE_WINDOW_END_DEFAULT, 5%Z, 0%Z. repeat split; reflexivity.
  - by exists ws, we, so, eo.
Qed.

(** Whatever is stored, resolving the update policy succeeds with a valid
    schedule: a non-empty set of weekdays, two different wall times of whole
    minutes and a timezone that exists.  Each field listed as honored has the
    value its stored text means, every other one has its default; in
    particular automatic updates are on only if the stored text says so. *)
Theorem update_policy_is_failsafe raw :
  is_Some (zones AUTOMATIC_UPDATE_TIMEZONE_DEFAULT) ->
  exists p, resolve_update_policy zones raw = Ok p /\ valid_schedule (policy p) /\
    policy_fields raw p.
Proof.
  intros Hutc. unfold resolve_update_policy.
  pose proof (bool_spec (raw !! lit "automatic_updates_enabled") AUTOMATIC_UPDATES_ENABLED_DEFAULT) as Hen.
  destruct (_bool (raw !! lit "automatic_updates_enabled") _) as [en en_ok].
  pose proof (bool_spec (raw !! lit "automatic_update_idle_only") AUTOMATIC_UPDATE_IDLE_ONLY_DEFAULT) as Hid.
  destruct (_bool (raw !! lit "automatic_update_idle_only") _) as [idle idle_ok].
  pose proof (timezone_spec (raw !! lit "automatic_update_timezone")) as Htz.
  destruct (_timezone zones (raw !! lit "automatic_update_timezone")) as [tz tz_ok].
  pose proof (weekdays_spec (raw !! lit "automatic_update_weekdays")) as Hdays.
  destruct (_weekdays (raw !! lit "automatic_update_weekdays")) as [days days_ok].
  destruct Hdays as (Hdn & Hdd & Hdays).
  assert (is_Some (zones tz)) as [z Hz] by (destruct tz_ok; [by destruct Htz as (? & _ & _ & ?) | by subst tz]).
  destruct (windows_spec (raw !! lit "automatic_update_window_start") (raw !! lit "automatic_update_window_end"))
    as (ws & we & so & eo & Hrun & Hws & Hwe & Hne & Hs & He).
  revert Hrun.
  destruct (_wall_time (raw !! lit "automatic_update_window_start") _) as [[ws0 so0]|]; [|done].
  destruct (_wall_time (raw !! lit "automatic_update_window_end") _) as [[we0 eo0]|]; [|done].
  cbn [mbind res_bind]. intros ->. cbn [mbind res_bind].
  rewrite (policy_schedule_valid tz z) by done. cbn [mbind res_bind].
  eexists. split; [reflexivity|]. split; [unfold valid_schedule; cbn; eauto 10|].
  unfold policy_fields, field. cbn [honored_fields policy schedule idle_only timezone_name enabled
    weekdays window_start window_end]. honored_flags. done.
Qed.
End facts.

(** A zone that exists, for the witness: UTC itself. *)
Definition only_utc (name : list N) : option ZoneInfo :=
  if bool_decide (name = lit "UTC") then Some {| to_utc a := wall a; to_wall t := t |} else None.

Lemma update_policy_is_failsafe_witness :
  exists p, resolve_update_policy (DB := ascii_db) only_utc
      (<[lit "automatic_updates_enabled" := lit " Yes "]>
        (<[lit "automatic_update_weekdays" := lit "[1]"]>
          (<[lit "automatic_update_window_start" := lit "22:30"]> ∅))) = Ok p /\
    valid_schedule only_utc (policy p) /\
    policy_fields (DB := ascii_db) only_utc (<[lit "automatic_updates_enabled" := lit " Yes "]>
        (<[lit "automatic_update_weekdays" := lit "[1]"]>
          (<[lit "automatic_update_window_start" := lit "22:30"]> ∅))) p.
Proof. apply (update_policy_is_failsafe (DB := ascii_db) only_utc). by eexists. Defined.
