(* ===== verification/Transactions.v ===== *)
(** * Transactions

    A computation on the tables of a database that may raise, and the statements
    it is made of; assertions such computations keep; what a conditional write
    of one row does to a table whose keys increase.  The tables are a type
    parameter: [RequestStore] gives them. *)

From Stdlib Require Import ZArith Lia Bool String Sorted.
From S2P Require Import Prelude PyStr.

#[local] Open Scope bool_scope.

(** ** Computations *)

Definition IntegrityError : exn := ProgramError "IntegrityError" [].
Definition LookupError (msg : list N) : exn := ProgramError "LookupError" msg.

(** A repository method: the tables it leaves, and its result or exception. *)
Definition Tx (DB A : Type) : Type := DB -> res A * DB.

#[export] Instance DBM_ret {DB} : MRet (Tx DB) := fun A x d => (Ok x, d).
#[export] Instance DBM_bind {DB} : MBind (Tx DB) := fun A B f m d =>
  match m d with
  | (Ok x, d') => f x d'
  | (Raise e, d') => (Raise e, d')
  end.

Definition db_throw {DB A} (e : exn) : Tx DB A := fun d => (Raise e, d).
Definition query {DB A} (f : DB -> A) : Tx DB A := fun d => (Ok (f d), d).

(** A statement whose conditions read other tables. *)
Definition reading {DB A} (f : DB -> Tx DB A) : Tx DB A := fun d => f d d.

(** [async with session.begin_nested()]: a savepoint. *)
Definition savepoint {DB A} (m : Tx DB A) : Tx DB A := fun d =>
  match m d with
  | (Ok x, d') => (Ok x, d')
  | (Raise e, _) => (Raise e, d)
  end.

Definition lift_res {DB A} (r : res A) : Tx DB A := fun d => (r, d).

Definition is_error (cls : string) (e : exn) : bool :=
  match e with ProgramError c _ => String.eqb c cls | _ => false end.

(** [try: m except cls: handler]. *)
Definition except {DB A} (cls : string) (m handler : Tx DB A) : Tx DB A := fun d =>
  match m d with
  | (Raise e, d') => if is_error cls e then handler d' else (Raise e, d')
  | r => r
  end.

(** A write that a constraint may refuse. *)
Definition checked {DB A} (ok : bool) (x : A) (d' : DB) : Tx DB A := fun d =>
  if ok then (Ok x, d') else (Raise IntegrityError, d).

(** ** Tables *)

(** [SELECT ... WHERE p ORDER BY id]. *)
Definition select {R} (p : R -> bool) (t : list R) : list R := List.filter p t.

(** [UPDATE ... SET values WHERE p]: the rows it matches, and the new table. *)
Definition matching {R} (p : R -> bool) (t : list R) : Z := Z.of_nat (length (List.filter p t)).
Definition rewritten {R} (p : R -> bool) (f : R -> R) (t : list R) : list R :=
  (fun r => if p r then f r else r) <$> t.

(** ** Assertions kept by a computation *)

Section keeps.
Context {DB : Type}.

Definition keeps {A} (P : DB -> Prop) (m : Tx DB A) : Prop := forall d, P d -> P (m d).2.

Lemma keeps_ret {A} P (x : A) : keeps P (mret x).
Proof. by intros d Hd. Qed.
Lemma keeps_query {A} P (f : DB -> A) : keeps P (query f).
Proof. by intros d Hd. Qed.
Lemma keeps_throw {A} P e : keeps P (@db_throw DB A e).
Proof. by intros d Hd. Qed.
Lemma keeps_bind {A B} P (m : Tx DB A) (f : A -> Tx DB B) :
  keeps P m -> (forall x, keeps P (f x)) -> keeps P (m ≫= f).
Proof.
  intros Hm Hf d Hd. unfold mbind, DBM_bind. specialize (Hm d Hd).
  destruct (m d) as [[x|e] d'] eqn:He; simpl in *; [by apply Hf | done].
Qed.
Lemma keeps_reading {A} P (f : DB -> Tx DB A) : (forall d, keeps P (f d)) -> keeps P (reading f).
Proof. intros H d Hd. by apply H. Qed.
Lemma keeps_if {A} P (b : bool) (m1 m2 : Tx DB A) : keeps P m1 -> keeps P m2 -> keeps P (if b then m1 else m2).
Proof. by destruct b. Qed.
Lemma keeps_option {A B} P (o : option A) (m : Tx DB B) f :
  keeps P m -> (forall x, keeps P (f x)) -> keeps P (match o with None => m | Some x => f x end).
Proof. by destruct o. Qed.
Lemma keeps_res {A} P (r : res A) : keeps P (lift_res r).
Proof. by intros d Hd. Qed.
Lemma keeps_savepoint {A} P (m : Tx DB A) : keeps P m -> keeps P (savepoint m).
Proof.
  intros Hm d Hd. unfold savepoint. specialize (Hm d Hd). by destruct (m d) as [[]].
Qed.
Lemma keeps_except {A} P cls (m h : Tx DB A) : keeps P m -> keeps P h -> keeps P (except cls m h).
Proof.
  intros Hm Hh d Hd. unfold except. specialize (Hm d Hd). destruct (m d) as [[x|e] d'] eqn:He; [done|].
  by destruct (is_error cls e); [apply Hh|].
Qed.

(** *** Runs that return *)

Lemma bind_result {A B} (m : Tx DB A) (f : A -> Tx DB B) d y d' : (m ≫= f) d = (Ok y, d') ->
  exists x d1, m d = (Ok x, d1) /\ f x d1 = (Ok y, d').
Proof. unfold mbind, DBM_bind. destruct (m d) as [[x|e] d1]; [|done]. eauto. Qed.

Lemma keeps_result {A} (P : DB -> Prop) (m : Tx DB A) d x d' : keeps P m -> P d -> m d = (x, d') -> P d'.
Proof. intros H Hd E. specialize (H d Hd). by rewrite E in H. Qed.

End keeps.

Create HintDb keeps.
#[export] Hint Resolve keeps_ret keeps_query keeps_throw keeps_res keeps_bind keeps_reading keeps_if
  keeps_option keeps_savepoint keeps_except : keeps.

(** ** Rows and keys *)

Lemma rewritten_keeps {R X} (key : R -> X) p f (t : list R) :
  (forall r, key (f r) = key r) -> key <$> rewritten p f t = key <$> t.
Proof.
  intros Hf. unfold rewritten. rewrite <- list_fmap_compose. apply list_fmap_ext.
  intros i r _. simpl. by destruct (p r); rewrite ?Hf.
Qed.

Lemma filter_fmap_sublist {R X} (f : R -> X) (p : R -> bool) (t : list R) :
  sublist (f <$> List.filter p t) (f <$> t).
Proof.
  induction t as [|r t IH]; simpl; [constructor|]. destruct (p r); simpl; by constructor.
Qed.

Lemma sorted_sublist (l k : list Z) : sublist l k -> StronglySorted Z.lt k -> StronglySorted Z.lt l.
Proof.
  intros Hl. induction Hl as [|x l k Hl IH|x l k Hl IH]; intros Hk; [constructor| |];
    apply StronglySorted_inv in Hk as [Hk Hall]; [|by apply IH].
  constructor; [by apply IH|]. rewrite Forall_forall in *. intros y Hy. apply Hall.
  by eapply elem_of_sublist.
Qed.

Lemma sublist_Forall {X} (P : X -> Prop) (l k : list X) : sublist l k -> Forall P k -> Forall P l.
Proof. rewrite !Forall_forall. intros Hl Hk x Hx. by eapply Hk, elem_of_sublist. Qed.

Lemma sorted_snoc (l : list Z) x : StronglySorted Z.lt l -> Forall (fun i => (i < x)%Z) l ->
  StronglySorted Z.lt (l ++ [x]).
Proof.
  induction 1 as [|y l Hl IH Hall]; intros Hx; simpl; [repeat constructor|].
  inversion_clear Hx. constructor; [by apply IH|]. apply Forall_app. split; [done|by repeat constructor].
Qed.

Lemma Forall_lt_succ l x : Forall (fun i => (i < x)%Z) l -> Forall (fun i => (i < x + 1)%Z) l.
Proof. intros H. eapply Forall_impl; [exact H|]. simpl. lia. Qed.

Lemma NoDup_fmap_inj {X Y} (f : X -> Y) (l : list X) x y :
  NoDup (f <$> l) -> x ∈ l -> y ∈ l -> f x = f y -> x = y.
Proof.
  induction l as [|z l IH]; intros Hnd Hx Hy Hf; [by apply elem_of_nil in Hx|].
  apply NoDup_cons in Hnd as [Hz Hnd].
  apply elem_of_cons in Hx as [->|Hx], Hy as [->|Hy]; [done| | |by apply IH];
    exfalso; apply Hz, list_elem_of_fmap; eauto.
Qed.

Lemma filter_filter {A} (p q : A -> bool) l : List.filter p (List.filter q l) = List.filter (fun x => q x && p x) l.
Proof.
  induction l as [|x l IH]; simpl; [done|]. destruct (q x); simpl; [|done]. destruct (p x); by rewrite IH.
Qed.

Lemma filter_reverse {A} (p : A -> bool) l : List.filter p (reverse l) = reverse (List.filter p l).
Proof.
  induction l as [|x l IH]; [done|]. rewrite reverse_cons, List.filter_app, IH. simpl.
  destruct (p x); [by rewrite reverse_cons | by rewrite app_nil_r].
Qed.

(** *** The row of a key *)

Section one_row.
Context {R : Type} (key : R -> Z).

Lemma filter_key (t : list R) i (q : R -> bool) : StronglySorted Z.lt (key <$> t) ->
  List.filter (fun r => (key r =? i)%Z && q r) t =
  match List.find (fun r => (key r =? i)%Z) t with Some r => if q r then [r] else [] | None => [] end.
Proof.
  induction t as [|r t IH]; intros Hs; simpl; [done|].
  apply StronglySorted_inv in Hs as [Hs Hall]. destruct (Z.eqb_spec (key r) i) as [Hi|Hi]; simpl; [|by apply IH].
  rewrite IH by done. assert (List.find (fun r => (key r =? i)%Z) t = None) as ->.
  { destruct (List.find _ t) as [r'|] eqn:Hf; [|done]. apply List.find_some in Hf as [Hin Hk].
    rewrite Forall_forall in Hall. specialize (Hall (key r')). apply list_elem_of_In in Hin.
    assert (key r < key r')%Z by (apply Hall, list_elem_of_fmap; eauto). lia. }
  by destruct (q r).
Qed.

Lemma rewritten_none p (f : R -> R) t : List.filter p t = [] -> rewritten p f t = t.
Proof.
  intros H. unfold rewritten. induction t as [|r t IH]; [done|]. simpl in *.
  destruct (p r); [done|]. f_equal. by apply IH.
Qed.

Lemma rewritten_some p (f : R -> R) t i : (forall r, p r = true -> key r = i) ->
  List.filter p t <> [] -> StronglySorted Z.lt (key <$> t) ->
  rewritten p f t = rewritten (fun r => (key r =? i)%Z) f t.
Proof.
  intros Hp Hne Hs. unfold rewritten. apply list_fmap_ext. intros j r Hj.
  destruct (p r) eqn:Hpr; [by rewrite (proj2 (Z.eqb_eq _ _) (Hp r Hpr))|].
  destruct (Z.eqb_spec (key r) i) as [Hi|]; [|done]. exfalso.
  destruct (List.filter p t) as [|r' l] eqn:Hf; [done|].
  assert (r' ∈ t /\ p r' = true) as [Hin' Hp'].
  { assert (In r' (List.filter p t)) as H by (rewrite Hf; by left).
    apply List.filter_In in H as [H ?]. by apply list_elem_of_In in H. }
  apply list_elem_of_lookup in Hin' as [j' Hj'].
  assert (key r' = key r) as Hk by (rewrite (Hp r' Hp'); done).
  enough (j' = j) as -> by congruence.
  assert (forall a b x y, (key <$> t) !! a = Some x -> (key <$> t) !! b = Some y -> (a < b)%nat -> (x < y)%Z) as Hlt.
  { clear -Hs. induction Hs as [|z l Hl IH Hall]; intros [|a] [|b] x y Ha Hb Hab; simpl in *; try lia; try done.
    - injection Ha as ->. rewrite Forall_forall in Hall. apply Hall. by eapply list_elem_of_lookup_2.
    - eapply IH; [done|done|lia]. }
  destruct (Nat.lt_trichotomy j' j) as [Hl|[->|Hl]]; [|done|]; exfalso.
  - assert (key r' < key r)%Z; [|lia]. eapply Hlt; [| |exact Hl]; by rewrite list_lookup_fmap, ?Hj', ?Hj.
  - assert (key r < key r')%Z; [|lia]. eapply Hlt; [| |exact Hl]; by rewrite list_lookup_fmap, ?Hj', ?Hj.
Qed.

Lemma sorted_ids_unique (t : list R) r r' : StronglySorted Z.lt (key <$> t) ->
  r ∈ t -> r' ∈ t -> key r = key r' -> r = r'.
Proof.
  induction t as [|x t IH]; intros Hs Hr Hr' Hi; [by apply elem_of_nil in Hr|].
  apply StronglySorted_inv in Hs as [Hs Hall]. rewrite Forall_forall in Hall.
  assert (forall y, y ∈ t -> (key x < key y)%Z) as Hlt
    by (intros y Hy; apply Hall, list_elem_of_fmap; eauto).
  apply elem_of_cons in Hr as [-> | Hr], Hr' as [-> | Hr']; [done| | |by apply IH];
    [pose proof (Hlt _ Hr') | pose proof (Hlt _ Hr)]; lia.
Qed.

End one_row.
