(* ===== verification/RequestStore.v ===== *)
(** * The request tables ([models.py])

    The tables that say what was asked for and what became of it, with the
    constraints the schema declares, and the statements the repositories issue
    against them.  A table is the list of its rows in the order of their primary
    keys, which the engines hand out in increasing order (SQLite may use the key
    of a deleted last row again; no statement remembers one).  An instant is in
    microseconds since the epoch, UTC.

    A statement that would break a unique index raises [IntegrityError] and
    changes nothing.  Assigning attributes of a loaded row and flushing is an
    [UPDATE] of that row's columns. *)

From Stdlib Require Import ZArith Lia Bool String SpecFloat.
From S2P Require Import Prelude PyStr.
From S2P Require Export Transactions.

#[local] Open Scope bool_scope.

(** ** Enumerations *)

Inductive MediaType : Type := movie | tv.

Inductive RequestStatus : Type :=
  | pending | searching | no_acceptable_release | waiting_for_air_date | downloading | completed
  | available | partially_available | failed | import_blocked | evicted | cancelled.

#[export] Instance MediaType_eq_dec : EqDecision MediaType.
Proof. solve_decision. Defined.
#[export] Instance RequestStatus_eq_dec : EqDecision RequestStatus.
Proof. solve_decision. Defined.

(** The member's [.value]. *)
Definition status_value (s : RequestStatus) : list N :=
  match s with
  | pending => lit "pending"
  | searching => lit "searching"
  | no_acceptable_release => lit "no_acceptable_release"
  | waiting_for_air_date => lit "waiting_for_air_date"
  | downloading => lit "downloading"
  | completed => lit "completed"
  | available => lit "available"
  | partially_available => lit "partially_available"
  | failed => lit "failed"
  | import_blocked => lit "import_blocked"
  | evicted => lit "evicted"
  | cancelled => lit "cancelled"
  end.

Definition all_statuses : list RequestStatus :=
  [pending; searching; no_acceptable_release; waiting_for_air_date; downloading; completed;
   available; partially_available; failed; import_blocked; evicted; cancelled].

(** [RequestStatus(text)]. *)
Definition RequestStatus_of (text : list N) : res RequestStatus :=
  match List.find (fun s => bool_decide (status_value s = text)) all_statuses with
  | Some s => Ok s
  | None => Raise (ValueError (lit "'" ++ text ++ lit "' is not a valid RequestStatus"))
  end.

Lemma RequestStatus_of_value s : RequestStatus_of (status_value s) = Ok s.
Proof. by destruct s; vm_compute. Qed.

(** ** Rows *)

(** The columns that describe a request and that no statement here compares. *)
Record RequestDetails := {
  year : option Z;
  is_anime : option bool;
  poster_url : option (list N);
  backdrop_url : option (list N);
  tv_request_mode : option (list N);
  requested_seasons_json : option (list Z);
  requested_episodes_json : option (list (list N * list Z));   (** keys are texts, as in JSON *)
}.

Module MediaRequest.

Record t := {
  id : Z;
  user_id : option Z;
  tmdb_id : Z;
  media_type : MediaType;
  title : list N;
  status : RequestStatus;
  details : RequestDetails;
  completed_at : option Z;
  completion_generation : option Z;
  library_verified_at : option Z;
  library_removed_at : option Z;
  available_heal_verified_at : option Z;
  library_path : option (list N);
  partial_delete_path : option (list N);
  keep_forever : bool;
  search_attempts : Z;
  next_search_at : option Z;
  eviction_regrab : option bool;
}.

(** One entry of the [values(...)] of an [UPDATE]. *)
Inductive column_value : Type :=
  | set_user_id (v : option Z)
  | set_status (v : RequestStatus)
  | set_details (v : RequestDetails)
  | set_completed_at (v : option Z)
  | set_completion_generation (v : option Z)
  | set_library_verified_at (v : option Z)
  | set_library_removed_at (v : option Z)
  | set_available_heal_verified_at (v : option Z)
  | set_library_path (v : option (list N))
  | set_partial_delete_path (v : option (list N))
  | set_keep_forever (v : bool)
  | set_search_attempts (v : Z)
  | set_next_search_at (v : option Z)
  | set_eviction_regrab (v : option bool)
  | next_generation.                 (** [coalesce(completion_generation, 0) + 1] *)

Definition assign (r : t) (c : column_value) : t :=
  let 'Build_t x0 x1 x2 x3 x4 x5 x6 x7 x8 x9 x10 x11 x12 x13 x14 x15 x16 x17 := r in
  match c with
  | set_user_id v => Build_t x0 v x2 x3 x4 x5 x6 x7 x8 x9 x10 x11 x12 x13 x14 x15 x16 x17
  | set_status v => Build_t x0 x1 x2 x3 x4 v x6 x7 x8 x9 x10 x11 x12 x13 x14 x15 x16 x17
  | set_details v => Build_t x0 x1 x2 x3 x4 x5 v x7 x8 x9 x10 x11 x12 x13 x14 x15 x16 x17
  | set_completed_at v => Build_t x0 x1 x2 x3 x4 x5 x6 v x8 x9 x10 x11 x12 x13 x14 x15 x16 x17
  | set_completion_generation v => Build_t x0 x1 x2 x3 x4 x5 x6 x7 v x9 x10 x11 x12 x13 x14 x15 x16 x17
  | set_library_verified_at v => Build_t x0 x1 x2 x3 x4 x5 x6 x7 x8 v x10 x11 x12 x13 x14 x15 x16 x17
  | set_library_removed_at v => Build_t x0 x1 x2 x3 x4 x5 x6 x7 x8 x9 v x11 x12 x13 x14 x15 x16 x17
  | set_available_heal_verified_at v => Build_t x0 x1 x2 x3 x4 x5 x6 x7 x8 x9 x10 v x12 x13 x14 x15 x16 x17
  | set_library_path v => Build_t x0 x1 x2 x3 x4 x5 x6 x7 x8 x9 x10 x11 v x13 x14 x15 x16 x17
  | set_partial_delete_path v => Build_t x0 x1 x2 x3 x4 x5 x6 x7 x8 x9 x10 x11 x12 v x14 x15 x16 x17
  | set_keep_forever v => Build_t x0 x1 x2 x3 x4 x5 x6 x7 x8 x9 x10 x11 x12 x13 v x15 x16 x17
  | set_search_attempts v => Build_t x0 x1 x2 x3 x4 x5 x6 x7 x8 x9 x10 x11 x12 x13 x14 v x16 x17
  | set_next_search_at v => Build_t x0 x1 x2 x3 x4 x5 x6 x7 x8 x9 x10 x11 x12 x13 x14 x15 v x17
  | set_eviction_regrab v => Build_t x0 x1 x2 x3 x4 x5 x6 x7 x8 x9 x10 x11 x12 x13 x14 x15 x16 v
  | next_generation => Build_t x0 x1 x2 x3 x4 x5 x6 x7 (Some (default 0 x8 + 1)%Z) x9 x10 x11 x12 x13 x14 x15 x16 x17
  end.

Definition assign_all (values : list column_value) (r : t) : t := foldl assign r values.

End MediaRequest.

Module SeasonRequest.

Record t := {
  id : Z;
  media_request_id : Z;
  season_number : Z;
  status : RequestStatus;
  library_path : option (list N);
  partial_delete_path : option (list N);
  search_attempts : Z;
  next_search_at : option Z;
  installed_quality_id : option Z;
  installed_profile_index : option Z;
  completed_at : option Z;
  completion_generation : option Z;
  eviction_regrab : option bool;
  airing_refresh_checked_at : option Z;
}.

(** One entry of the [values(...)] of an [UPDATE]. *)
Inductive column_value : Type :=
  | set_status (v : RequestStatus)
  | set_library_path (v : option (list N))
  | set_partial_delete_path (v : option (list N))
  | set_search_attempts (v : Z)
  | set_next_search_at (v : option Z)
  | set_installed_quality_id (v : option Z)
  | set_installed_profile_index (v : option Z)
  | set_completed_at (v : option Z)
  | set_completion_generation (v : option Z)
  | set_eviction_regrab (v : option bool)
  | set_airing_refresh_checked_at (v : option Z)
  | next_generation.                 (** [coalesce(completion_generation, 0) + 1] *)

Definition assign (r : t) (c : column_value) : t :=
  let 'Build_t x0 x1 x2 x3 x4 x5 x6 x7 x8 x9 x10 x11 x12 x13 := r in
  match c with
  | set_status v => Build_t x0 x1 x2 v x4 x5 x6 x7 x8 x9 x10 x11 x12 x13
  | set_library_path v => Build_t x0 x1 x2 x3 v x5 x6 x7 x8 x9 x10 x11 x12 x13
  | set_partial_delete_path v => Build_t x0 x1 x2 x3 x4 v x6 x7 x8 x9 x10 x11 x12 x13
  | set_search_attempts v => Build_t x0 x1 x2 x3 x4 x5 v x7 x8 x9 x10 x11 x12 x13
  | set_next_search_at v => Build_t x0 x1 x2 x3 x4 x5 x6 v x8 x9 x10 x11 x12 x13
  | set_installed_quality_id v => Build_t x0 x1 x2 x3 x4 x5 x6 x7 v x9 x10 x11 x12 x13
  | set_installed_profile_index v => Build_t x0 x1 x2 x3 x4 x5 x6 x7 x8 v x10 x11 x12 x13
  | set_completed_at v => Build_t x0 x1 x2 x3 x4 x5 x6 x7 x8 x9 v x11 x12 x13
  | set_completion_generation v => Build_t x0 x1 x2 x3 x4 x5 x6 x7 x8 x9 x10 v x12 x13
  | set_eviction_regrab v => Build_t x0 x1 x2 x3 x4 x5 x6 x7 x8 x9 x10 x11 v x13
  | set_airing_refresh_checked_at v => Build_t x0 x1 x2 x3 x4 x5 x6 x7 x8 x9 x10 x11 x12 v
  | next_generation => Build_t x0 x1 x2 x3 x4 x5 x6 x7 x8 x9 x10 (Some (default 0 x11 + 1)%Z) x12 x13
  end.

Definition assign_all (values : list column_value) (r : t) : t := foldl assign r values.

End SeasonRequest.

Module Download.

(** The columns no code reads or writes are left out ([target_seed_ratio],
    [completed_at], [torrent_attempt], [scored_releases_json]). *)
Record t := {
  id : Z;
  media_request_id : option Z;
  torrent_hash : list N;
  magnet_link : option (list N);   (** decrypted *)
  status : list N;
  progress : spec_float;
  seed_ratio : spec_float;
  media_type : option MediaType;
  tmdb_id : option Z;
  year : option Z;
  season : option Z;
  episodes_json : option (list Z);
  timeout_at : option Z;
  first_seen_at : option Z;
  added_at : Z;
  failed_at : option Z;
  failed_reason : option (list N);
  retry_count : Z;
  payload_pending : bool;
  payload_resume : bool;
  payload_force_start : bool;
  payload_rejection : option (list N);
  download_path : option (list N);
  release_title : option (list N);
}.

(** One entry of the [values(...)] of an [UPDATE]. *)
Inductive column_value : Type :=
  | set_media_request_id (v : option Z)
  | set_magnet_link (v : option (list N))
  | set_status (v : list N)
  | set_progress (v : spec_float)
  | set_seed_ratio (v : spec_float)
  | set_media_type (v : option MediaType)
  | set_tmdb_id (v : option Z)
  | set_year (v : option Z)
  | set_season (v : option Z)
  | set_episodes_json (v : option (list Z))
  | set_timeout_at (v : option Z)
  | set_first_seen_at (v : option Z)
  | set_added_at (v : Z)
  | set_failed_at (v : option Z)
  | set_failed_reason (v : option (list N))
  | set_retry_count (v : Z)
  | set_payload_pending (v : bool)
  | set_payload_resume (v : bool)
  | set_payload_force_start (v : bool)
  | set_payload_rejection (v : option (list N))
  | set_download_path (v : option (list N))
  | set_release_title (v : option (list N))
  | one_more_retry   (** [retry_count + 1] *).

Definition assign (r : t) (c : column_value) : t :=
  let 'Build_t x0 x1 x2 x3 x4 x5 x6 x7 x8 x9 x10 x11 x12 x13 x14 x15 x16 x17 x18 x19 x20 x21 x22 x23 := r in
  match c with
  | set_media_request_id v => Build_t x0 v x2 x3 x4 x5 x6 x7 x8 x9 x10 x11 x12 x13 x14 x15 x16 x17 x18 x19 x20 x21 x22 x23
  | set_magnet_link v => Build_t x0 x1 x2 v x4 x5 x6 x7 x8 x9 x10 x11 x12 x13 x14 x15 x16 x17 x18 x19 x20 x21 x22 x23
  | set_status v => Build_t x0 x1 x2 x3 v x5 x6 x7 x8 x9 x10 x11 x12 x13 x14 x15 x16 x17 x18 x19 x20 x21 x22 x23
  | set_progress v => Build_t x0 x1 x2 x3 x4 v x6 x7 x8 x9 x10 x11 x12 x13 x14 x15 x16 x17 x18 x19 x20 x21 x22 x23
  | set_seed_ratio v => Build_t x0 x1 x2 x3 x4 x5 v x7 x8 x9 x10 x11 x12 x13 x14 x15 x16 x17 x18 x19 x20 x21 x22 x23
  | set_media_type v => Build_t x0 x1 x2 x3 x4 x5 x6 v x8 x9 x10 x11 x12 x13 x14 x15 x16 x17 x18 x19 x20 x21 x22 x23
  | set_tmdb_id v => Build_t x0 x1 x2 x3 x4 x5 x6 x7 v x9 x10 x11 x12 x13 x14 x15 x16 x17 x18 x19 x20 x21 x22 x23
  | set_year v => Build_t x0 x1 x2 x3 x4 x5 x6 x7 x8 v x10 x11 x12 x13 x14 x15 x16 x17 x18 x19 x20 x21 x22 x23
  | set_season v => Build_t x0 x1 x2 x3 x4 x5 x6 x7 x8 x9 v x11 x12 x13 x14 x15 x16 x17 x18 x19 x20 x21 x22 x23
  | set_episodes_json v => Build_t x0 x1 x2 x3 x4 x5 x6 x7 x8 x9 x10 v x12 x13 x14 x15 x16 x17 x18 x19 x20 x21 x22 x23
  | set_timeout_at v => Build_t x0 x1 x2 x3 x4 x5 x6 x7 x8 x9 x10 x11 v x13 x14 x15 x16 x17 x18 x19 x20 x21 x22 x23
  | set_first_seen_at v => Build_t x0 x1 x2 x3 x4 x5 x6 x7 x8 x9 x10 x11 x12 v x14 x15 x16 x17 x18 x19 x20 x21 x22 x23
  | set_added_at v => Build_t x0 x1 x2 x3 x4 x5 x6 x7 x8 x9 x10 x11 x12 x13 v x15 x16 x17 x18 x19 x20 x21 x22 x23
  | set_failed_at v => Build_t x0 x1 x2 x3 x4 x5 x6 x7 x8 x9 x10 x11 x12 x13 x14 v x16 x17 x18 x19 x20 x21 x22 x23
  | set_failed_reason v => Build_t x0 x1 x2 x3 x4 x5 x6 x7 x8 x9 x10 x11 x12 x13 x14 x15 v x17 x18 x19 x20 x21 x22 x23
  | set_retry_count v => Build_t x0 x1 x2 x3 x4 x5 x6 x7 x8 x9 x10 x11 x12 x13 x14 x15 x16 v x18 x19 x20 x21 x22 x23
  | set_payload_pending v => Build_t x0 x1 x2 x3 x4 x5 x6 x7 x8 x9 x10 x11 x12 x13 x14 x15 x16 x17 v x19 x20 x21 x22 x23
  | set_payload_resume v => Build_t x0 x1 x2 x3 x4 x5 x6 x7 x8 x9 x10 x11 x12 x13 x14 x15 x16 x17 x18 v x20 x21 x22 x23
  | set_payload_force_start v => Build_t x0 x1 x2 x3 x4 x5 x6 x7 x8 x9 x10 x11 x12 x13 x14 x15 x16 x17 x18 x19 v x21 x22 x23
  | set_payload_rejection v => Build_t x0 x1 x2 x3 x4 x5 x6 x7 x8 x9 x10 x11 x12 x13 x14 x15 x16 x17 x18 x19 x20 v x22 x23
  | set_download_path v => Build_t x0 x1 x2 x3 x4 x5 x6 x7 x8 x9 x10 x11 x12 x13 x14 x15 x16 x17 x18 x19 x20 x21 v x23
  | set_release_title v => Build_t x0 x1 x2 x3 x4 x5 x6 x7 x8 x9 x10 x11 x12 x13 x14 x15 x16 x17 x18 x19 x20 x21 x22 v
  | one_more_retry => Build_t x0 x1 x2 x3 x4 x5 x6 x7 x8 x9 x10 x11 x12 x13 x14 x15 x16 (x17 + 1)%Z x18 x19 x20 x21 x22 x23
  end.

Definition assign_all (values : list column_value) (r : t) : t := foldl assign r values.

End Download.

Module DownloadScope.

Record t := {
  id : Z;
  download_id : Z;
  media_request_id : option Z;
  season_request_id : option Z;
  season_number : option Z;
  episodes_json : option (list Z);
  scope_key : list N;
  status : list N;
  completed_at : option Z;
}.

(** One entry of the [values(...)] of an [UPDATE]. *)
Inductive column_value : Type :=
  | set_media_request_id (v : option Z)
  | set_season_request_id (v : option Z)
  | set_status (v : list N)
  | set_completed_at (v : option Z).

Definition assign (r : t) (c : column_value) : t :=
  let 'Build_t x0 x1 x2 x3 x4 x5 x6 x7 x8 := r in
  match c with
  | set_media_request_id v => Build_t x0 x1 v x3 x4 x5 x6 x7 x8
  | set_season_request_id v => Build_t x0 x1 x2 v x4 x5 x6 x7 x8
  | set_status v => Build_t x0 x1 x2 x3 x4 x5 x6 v x8
  | set_completed_at v => Build_t x0 x1 x2 x3 x4 x5 x6 x7 v
  end.

Definition assign_all (values : list column_value) (r : t) : t := foldl assign r values.

End DownloadScope.

Module DownloadCoverageClaim.

Record t := {
  id : Z;
  download_id : Z;
  media_request_id : option Z;
  season_number : option Z;
  status : list N;
  released_at : option Z;
}.

(** One entry of the [values(...)] of an [UPDATE]. *)
Inductive column_value : Type :=
  | set_media_request_id (v : option Z)
  | set_status (v : list N)
  | set_released_at (v : option Z).

Definition assign (r : t) (c : column_value) : t :=
  let 'Build_t x0 x1 x2 x3 x4 x5 := r in
  match c with
  | set_media_request_id v => Build_t x0 x1 v x3 x4 x5
  | set_status v => Build_t x0 x1 x2 x3 v x5
  | set_released_at v => Build_t x0 x1 x2 x3 x4 v
  end.

Definition assign_all (values : list column_value) (r : t) : t := foldl assign r values.

End DownloadCoverageClaim.

Module EpisodeState.

Inductive t : Type := pending | grabbed | imported.

#[export] Instance eq_dec : EqDecision t.
Proof. solve_decision. Defined.

Definition value (s : t) : list N :=
  match s with pending => lit "pending" | grabbed => lit "grabbed" | imported => lit "imported" end.

End EpisodeState.

#[export] Existing Instance EpisodeState.eq_dec.

Module SeasonEpisodeState.

Record t := {
  id : Z;
  season_request_id : Z;
  episode_number : Z;
  status : EpisodeState.t;
  air_date : option Z;
  grabbed_download_id : option Z;
}.

(** One entry of the [values(...)] of an [UPDATE]. *)
Inductive column_value : Type :=
  | set_status (v : EpisodeState.t)
  | set_air_date (v : option Z)
  | set_grabbed_download_id (v : option Z).

Definition assign (r : t) (c : column_value) : t :=
  let 'Build_t x0 x1 x2 x3 x4 x5 := r in
  match c with
  | set_status v => Build_t x0 x1 x2 v x4 x5
  | set_air_date v => Build_t x0 x1 x2 x3 v x5
  | set_grabbed_download_id v => Build_t x0 x1 x2 x3 x4 v
  end.

Definition assign_all (values : list column_value) (r : t) : t := foldl assign r values.

End SeasonEpisodeState.

(** The columns of the other tables that these statements read or write. *)
Inductive DownloadHistoryEvent : Type :=
  | h_grabbed | h_import_started | h_imported | h_failed | h_evicted | h_reported | h_cancelled | h_stalled.

#[export] Instance DownloadHistoryEvent_eq_dec : EqDecision DownloadHistoryEvent.
Proof. solve_decision. Defined.

Record DownloadHistory := {
  h_id : Z;
  h_tmdb_id : option Z;
  h_torrent_hash : option (list N);
  h_event_type : DownloadHistoryEvent;
  h_source_title : option (list N);
  h_message : option (list N);
}.

Record RequestSubscriber := { sub_request_id : Z; sub_user_id : Z; sub_subscribed_at : Z }.
Record WatchlistItem := { wl_user_id : Z; wl_tmdb_id : Z; wl_media_type : MediaType }.

Record db := {
  media_requests : list MediaRequest.t;
  season_requests : list SeasonRequest.t;
  request_subscribers : list RequestSubscriber;
  watchlist_items : list WatchlistItem;
  downloads : list Download.t;
  download_scopes : list DownloadScope.t;
  coverage_claims : list DownloadCoverageClaim.t;
  episode_states : list SeasonEpisodeState.t;
  download_history : list DownloadHistory;
  next_request_id : Z;          (** the primary keys the engine hands out next *)
  next_season_id : Z;
  next_download_id : Z;
  next_scope_id : Z;
  next_claim_id : Z;
  next_episode_id : Z;
}.

Definition with_requests (t : list MediaRequest.t) (d : db) : db :=
  Build_db t (season_requests d) (request_subscribers d) (watchlist_items d) (downloads d)
           (download_scopes d) (coverage_claims d) (episode_states d) (download_history d) (next_request_id d)
           (next_season_id d) (next_download_id d) (next_scope_id d) (next_claim_id d) (next_episode_id d).
Definition with_seasons (t : list SeasonRequest.t) (d : db) : db :=
  Build_db (media_requests d) t (request_subscribers d) (watchlist_items d) (downloads d)
           (download_scopes d) (coverage_claims d) (episode_states d) (download_history d) (next_request_id d)
           (next_season_id d) (next_download_id d) (next_scope_id d) (next_claim_id d) (next_episode_id d).
Definition with_subscribers (t : list RequestSubscriber) (d : db) : db :=
  Build_db (media_requests d) (season_requests d) t (watchlist_items d) (downloads d)
           (download_scopes d) (coverage_claims d) (episode_states d) (download_history d) (next_request_id d)
           (next_season_id d) (next_download_id d) (next_scope_id d) (next_claim_id d) (next_episode_id d).
Definition with_downloads (t : list Download.t) (d : db) : db :=
  Build_db (media_requests d) (season_requests d) (request_subscribers d) (watchlist_items d) t
           (download_scopes d) (coverage_claims d) (episode_states d) (download_history d) (next_request_id d)
           (next_season_id d) (next_download_id d) (next_scope_id d) (next_claim_id d) (next_episode_id d).
Definition with_scopes (t : list DownloadScope.t) (d : db) : db :=
  Build_db (media_requests d) (season_requests d) (request_subscribers d) (watchlist_items d)
           (downloads d) t (coverage_claims d) (episode_states d) (download_history d) (next_request_id d)
           (next_season_id d) (next_download_id d) (next_scope_id d) (next_claim_id d) (next_episode_id d).
Definition with_claims (t : list DownloadCoverageClaim.t) (d : db) : db :=
  Build_db (media_requests d) (season_requests d) (request_subscribers d) (watchlist_items d)
           (downloads d) (download_scopes d) t (episode_states d) (download_history d) (next_request_id d)
           (next_season_id d) (next_download_id d) (next_scope_id d) (next_claim_id d) (next_episode_id d).
Definition with_episodes (t : list SeasonEpisodeState.t) (d : db) : db :=
  Build_db (media_requests d) (season_requests d) (request_subscribers d) (watchlist_items d)
           (downloads d) (download_scopes d) (coverage_claims d) t (download_history d) (next_request_id d)
           (next_season_id d) (next_download_id d) (next_scope_id d) (next_claim_id d) (next_episode_id d).
Definition with_keys (request_key season_key : Z) (d : db) : db :=
  Build_db (media_requests d) (season_requests d) (request_subscribers d) (watchlist_items d)
           (downloads d) (download_scopes d) (coverage_claims d) (episode_states d) (download_history d)
           request_key season_key (next_download_id d) (next_scope_id d) (next_claim_id d) (next_episode_id d).
Definition with_download_key (k : Z) (d : db) : db :=
  Build_db (media_requests d) (season_requests d) (request_subscribers d) (watchlist_items d)
           (downloads d) (download_scopes d) (coverage_claims d) (episode_states d) (download_history d)
           (next_request_id d) (next_season_id d) k (next_scope_id d) (next_claim_id d) (next_episode_id d).
Definition with_scope_key (k : Z) (d : db) : db :=
  Build_db (media_requests d) (season_requests d) (request_subscribers d) (watchlist_items d)
           (downloads d) (download_scopes d) (coverage_claims d) (episode_states d) (download_history d)
           (next_request_id d) (next_season_id d) (next_download_id d) k (next_claim_id d) (next_episode_id d).
Definition with_claim_key (k : Z) (d : db) : db :=
  Build_db (media_requests d) (season_requests d) (request_subscribers d) (watchlist_items d)
           (downloads d) (download_scopes d) (coverage_claims d) (episode_states d) (download_history d)
           (next_request_id d) (next_season_id d) (next_download_id d) (next_scope_id d) k (next_episode_id d).
Definition with_episode_key (k : Z) (d : db) : db :=
  Build_db (media_requests d) (season_requests d) (request_subscribers d) (watchlist_items d)
           (downloads d) (download_scopes d) (coverage_claims d) (episode_states d) (download_history d)
           (next_request_id d) (next_season_id d) (next_download_id d) (next_scope_id d) (next_claim_id d) k.

(** ** Constraints *)

(** The predicate of the partial index [uq_media_requests_active]. *)
Definition active_statuses : list RequestStatus :=
  [pending; searching; no_acceptable_release; waiting_for_air_date; downloading; import_blocked;
   completed; partially_available].

Definition is_active (r : MediaRequest.t) : bool := mem (MediaRequest.status r) active_statuses.

Definition active_keys (t : list MediaRequest.t) : list (Z * MediaType) :=
  (fun r => (MediaRequest.tmdb_id r, MediaRequest.media_type r)) <$> List.filter is_active t.

Definition season_keys (t : list SeasonRequest.t) : list (Z * Z) :=
  (fun r => (SeasonRequest.media_request_id r, SeasonRequest.season_number r)) <$> t.

Definition subscriber_keys (t : list RequestSubscriber) : list (Z * Z) :=
  (fun r => (sub_request_id r, sub_user_id r)) <$> t.

(** What the schema guarantees: primary keys increase, the unique indexes hold,
    a season or a subscriber belongs to a request that exists. *)
Record wf (d : db) : Prop := {
  wf_ids : StronglySorted Z.lt (MediaRequest.id <$> media_requests d);
  wf_id_seq : Forall (fun i => (i < next_request_id d)%Z) (MediaRequest.id <$> media_requests d);
  wf_active : NoDup (active_keys (media_requests d));
  wf_season_ids : StronglySorted Z.lt (SeasonRequest.id <$> season_requests d);
  wf_season_id_seq : Forall (fun i => (i < next_season_id d)%Z) (SeasonRequest.id <$> season_requests d);
  wf_seasons : NoDup (season_keys (season_requests d));
  wf_parents : forall s, s ∈ season_requests d ->
    SeasonRequest.media_request_id s ∈ MediaRequest.id <$> media_requests d;
  wf_subscribers : NoDup (subscriber_keys (request_subscribers d));
  wf_subscribed : forall s, s ∈ request_subscribers d ->
    sub_request_id s ∈ MediaRequest.id <$> media_requests d;
}.

(** *** Downloads, their scopes and claims, and the episodes *)

Definition _TERMINAL_DOWNLOAD_STATUSES : list (list N) :=
  [lit "imported"; lit "failed"; lit "no_acceptable_release"].
Definition _ACTIVE_SCOPE_STATUSES : list (list N) := [lit "active"; lit "import_blocked"].
Definition _ACTIVE_CLAIM_STATUS : list N := lit "active".

Definition terminal (x : Download.t) : bool := mem (Download.status x) _TERMINAL_DOWNLOAD_STATUSES.
Definition scope_active (s : DownloadScope.t) : bool := mem (DownloadScope.status s) _ACTIVE_SCOPE_STATUSES.
Definition claim_active (c : DownloadCoverageClaim.t) : bool :=
  bool_decide (DownloadCoverageClaim.status c = _ACTIVE_CLAIM_STATUS).

(** [uq_downloads_active_request], on [coalesce(season, -1)]. *)
Definition download_key (x : Download.t) : option (Z * Z) :=
  match Download.media_request_id x with
  | Some i => if terminal x then None else Some (i, default (-1)%Z (Download.season x))
  | None => None
  end.

(** [uq_download_scopes_active_scope]. *)
Definition scope_index (s : DownloadScope.t) : option (Z * list N) :=
  match DownloadScope.media_request_id s with
  | Some i => if scope_active s then Some (i, DownloadScope.scope_key s) else None
  | None => None
  end.

(** [uq_download_coverage_claims_active]: a NULL season is equal to none. *)
Definition claim_index (c : DownloadCoverageClaim.t) : option (Z * Z) :=
  match DownloadCoverageClaim.media_request_id c, DownloadCoverageClaim.season_number c with
  | Some i, Some n => if claim_active c then Some (i, n) else None
  | _, _ => None
  end.

Definition episode_key (e : SeasonEpisodeState.t) : Z * Z :=
  (SeasonEpisodeState.season_request_id e, SeasonEpisodeState.episode_number e).

Definition request_ids (d : db) : list Z := MediaRequest.id <$> media_requests d.
Definition season_ids (d : db) : list Z := SeasonRequest.id <$> season_requests d.
Definition download_ids (d : db) : list Z := Download.id <$> downloads d.

(** A nullable foreign key. *)
Definition refers (r : option Z) (ids : list Z) : bool :=
  match r with Some i => mem i ids | None => true end.

Definition downloads_ok (d : db) (t : list Download.t) : bool :=
  bool_decide (NoDup (Download.torrent_hash <$> t)) && bool_decide (NoDup (omap download_key t))
  && forallb (fun x => refers (Download.media_request_id x) (request_ids d)) t.

Definition scopes_ok (d : db) (t : list DownloadScope.t) : bool :=
  bool_decide (NoDup (omap scope_index t))
  && forallb (fun s => mem (DownloadScope.download_id s) (download_ids d)
                       && refers (DownloadScope.media_request_id s) (request_ids d)
                       && refers (DownloadScope.season_request_id s) (season_ids d)) t.

Definition claims_ok (d : db) (t : list DownloadCoverageClaim.t) : bool :=
  bool_decide (NoDup (omap claim_index t))
  && forallb (fun c => mem (DownloadCoverageClaim.download_id c) (download_ids d)
                       && refers (DownloadCoverageClaim.media_request_id c) (request_ids d)) t.

Definition episodes_ok (d : db) (t : list SeasonEpisodeState.t) : bool :=
  bool_decide (NoDup (episode_key <$> t))
  && forallb (fun e => mem (SeasonEpisodeState.season_request_id e) (season_ids d)
                       && refers (SeasonEpisodeState.grabbed_download_id e) (download_ids d)) t.

(** The keys of a table increase, and the engine hands out later ones. *)
Definition keys_ok (ids : list Z) (next : Z) : Prop :=
  StronglySorted Z.lt ids /\ Forall (fun i => (i < next)%Z) ids.

Record wf_tracked (d : db) : Prop := {
  wf_download_ids : keys_ok (download_ids d) (next_download_id d);
  wf_scope_ids : keys_ok (DownloadScope.id <$> download_scopes d) (next_scope_id d);
  wf_claim_ids : keys_ok (DownloadCoverageClaim.id <$> coverage_claims d) (next_claim_id d);
  wf_episode_ids : keys_ok (SeasonEpisodeState.id <$> episode_states d) (next_episode_id d);
  wf_downloads : downloads_ok d (downloads d) = true;
  wf_scopes : scopes_ok d (download_scopes d) = true;
  wf_claims : claims_ok d (coverage_claims d) = true;
  wf_episodes : episodes_ok d (episode_states d) = true;
}.

(** ** Statements *)

(** A repository method. *)
Abbreviation DBM := (Tx db).

Definition update_requests (p : MediaRequest.t -> bool) (values : list MediaRequest.column_value)
    : DBM Z := fun d =>
  let t := rewritten p (MediaRequest.assign_all values) (media_requests d) in
  if bool_decide (NoDup (active_keys t)) then (Ok (matching p (media_requests d)), with_requests t d)
  else (Raise IntegrityError, d).

Definition update_seasons (p : SeasonRequest.t -> bool) (values : list SeasonRequest.column_value)
    : DBM Z := fun d =>
  (Ok (matching p (season_requests d)),
   with_seasons (rewritten p (SeasonRequest.assign_all values) (season_requests d)) d).

(** [INSERT], with the primary key the engine chose; a refused one may have
    used a key up. *)
Definition insert_request (row : Z -> MediaRequest.t) : DBM Z := fun d =>
  let i := next_request_id d in
  let d' := with_keys (i + 1) (next_season_id d) d in
  let t := media_requests d ++ [row i] in
  if bool_decide (NoDup (active_keys t)) then (Ok i, with_requests t d') else (Raise IntegrityError, d').

Definition insert_season (row : Z -> SeasonRequest.t) : DBM Z := fun d =>
  let i := next_season_id d in
  let d' := with_keys (next_request_id d) (i + 1) d in
  let t := season_requests d ++ [row i] in
  if bool_decide (NoDup (season_keys t))
     && mem (SeasonRequest.media_request_id (row i)) (MediaRequest.id <$> media_requests d)
  then (Ok i, with_seasons t d') else (Raise IntegrityError, d').

(** [DELETE]: the seasons and subscribers of the row go with it, and the
    episodes of those seasons; its downloads, scopes and claims lose their
    reference. *)
Definition forget (gone : list Z) (r : option Z) : option Z :=
  match r with Some i => if mem i gone then None else Some i | None => None end.

Definition delete_requests (p : MediaRequest.t -> bool) : DBM Z := fun d =>
  let gone := MediaRequest.id <$> List.filter p (media_requests d) in
  let orphan s := mem (SeasonRequest.media_request_id s) gone in
  let gone_seasons := SeasonRequest.id <$> List.filter orphan (season_requests d) in
  (Ok (matching p (media_requests d)),
   with_requests (List.filter (fun r => negb (p r)) (media_requests d))
   (with_seasons (List.filter (fun s => negb (orphan s)) (season_requests d))
   (with_subscribers (List.filter (fun s => negb (mem (sub_request_id s) gone)) (request_subscribers d))
   (with_downloads ((fun x => Download.assign x
      (Download.set_media_request_id (forget gone (Download.media_request_id x)))) <$> downloads d)
   (with_scopes ((fun x => DownloadScope.assign_all
      [DownloadScope.set_media_request_id (forget gone (DownloadScope.media_request_id x));
       DownloadScope.set_season_request_id (forget gone_seasons (DownloadScope.season_request_id x))] x)
      <$> download_scopes d)
   (with_claims ((fun x => DownloadCoverageClaim.assign x
      (DownloadCoverageClaim.set_media_request_id (forget gone (DownloadCoverageClaim.media_request_id x))))
      <$> coverage_claims d)
   (with_episodes (List.filter (fun x => negb (mem (SeasonEpisodeState.season_request_id x) gone_seasons))
      (episode_states d)) d))))))).

(** *** Downloads, their scopes and claims, and the episodes *)

Definition update_downloads (p : Download.t -> bool) (values : list Download.column_value) : DBM Z := fun d =>
  let t := rewritten p (Download.assign_all values) (downloads d) in
  checked (downloads_ok d t) (matching p (downloads d)) (with_downloads t d) d.

Definition insert_download (row : Z -> Download.t) : DBM Z := fun d =>
  let i := next_download_id d in
  let t := downloads d ++ [row i] in
  let d' := with_download_key (i + 1) d in
  checked (downloads_ok d t) i (with_downloads t d') d'.

Definition update_scopes (p : DownloadScope.t -> bool) (values : list DownloadScope.column_value)
    : DBM Z := fun d =>
  let t := rewritten p (DownloadScope.assign_all values) (download_scopes d) in
  checked (scopes_ok d t) (matching p (download_scopes d)) (with_scopes t d) d.

Definition insert_scope (row : Z -> DownloadScope.t) : DBM Z := fun d =>
  let i := next_scope_id d in
  let t := download_scopes d ++ [row i] in
  let d' := with_scope_key (i + 1) d in
  checked (scopes_ok d t) i (with_scopes t d') d'.

Definition delete_scopes (p : DownloadScope.t -> bool) : DBM Z := fun d =>
  (Ok (matching p (download_scopes d)),
   with_scopes (List.filter (fun x => negb (p x)) (download_scopes d)) d).

Definition update_claims (p : DownloadCoverageClaim.t -> bool)
    (values : list DownloadCoverageClaim.column_value) : DBM Z := fun d =>
  let t := rewritten p (DownloadCoverageClaim.assign_all values) (coverage_claims d) in
  checked (claims_ok d t) (matching p (coverage_claims d)) (with_claims t d) d.

Definition insert_claim (row : Z -> DownloadCoverageClaim.t) : DBM Z := fun d =>
  let i := next_claim_id d in
  let t := coverage_claims d ++ [row i] in
  let d' := with_claim_key (i + 1) d in
  checked (claims_ok d t) i (with_claims t d') d'.

Definition update_episodes (p : SeasonEpisodeState.t -> bool)
    (values : list SeasonEpisodeState.column_value) : DBM Z := fun d =>
  let t := rewritten p (SeasonEpisodeState.assign_all values) (episode_states d) in
  checked (episodes_ok d t) (matching p (episode_states d)) (with_episodes t d) d.

Definition insert_episode (row : Z -> SeasonEpisodeState.t) : DBM Z := fun d =>
  let i := next_episode_id d in
  let t := episode_states d ++ [row i] in
  let d' := with_episode_key (i + 1) d in
  checked (episodes_ok d t) i (with_episodes t d') d'.

Definition delete_episodes (p : SeasonEpisodeState.t -> bool) : DBM Z := fun d =>
  (Ok (matching p (episode_states d)),
   with_episodes (List.filter (fun x => negb (p x)) (episode_states d)) d).
