(* ===== verification/RequestRepository.v ===== *)
(** * The request repository ([repositories/requests.py])

    Every method of [SqlRequestRepository], as a computation on the tables of
    [RequestStore].  Statuses and media types are passed as members of their
    enumerations: every caller passes the value of one.  [get] and [get_fresh]
    are one function here, and a row is read from the table, where the code may
    read a copy its session loaded before: a caller that depends on the
    difference is modelled with arbitrary replies instead.

    The clock of a method that stamps a column is its argument [now]. *)

From Stdlib Require Import ZArith Lia Bool String.
From S2P Require Import Prelude PyStr PyInt RequestStore.

#[local] Open Scope bool_scope.

(** ** Records *)

Definition _season_tuple (value : option (list Z)) : option (list Z) := sorted_set <$> value.

Definition _season_json (value : option (list Z)) : option (list Z) :=
  match value with
  | None => None
  | Some _ => Some (default [] (_season_tuple value))
  end.

Definition _episode_json (value : option (list (Z * list Z))) : option (list (list N * list Z)) :=
  match value with
  | None => None
  | Some m => Some ((fun '(season, episodes) => (str_of_int season, sorted_set episodes)) <$> m)
  end.

Section records.
Context {DB : UnicodeDB}.

(** [int(season)] of a key. *)
Definition season_key (text : list N) : res Z :=
  match int_of_str text with
  | Some z => Ok z
  | None => Raise (ValueError (lit "invalid literal for int() with base 10: " ++ py_repr text))
  end.

Fixpoint episode_items (items : list (list N * list Z)) : res (list (Z * list Z)) :=
  match items with
  | [] => Ok []
  | (season, episodes) :: rest =>
      n ← season_key season; l ← episode_items rest; mret ((n, sorted_set episodes) :: l)
  end.

Definition _episode_map (value : option (list (list N * list Z))) : res (option (gmap Z (list Z))) :=
  match value with
  | None => Ok None
  | Some items => l ← episode_items items; mret (Some (dict_of l))
  end.

End records.

(** ** Reading *)

Definition has_id (request_id : Z) (r : MediaRequest.t) : bool := (MediaRequest.id r =? request_id)%Z.
Definition of_title (tmdb_id : Z) (media_type : MediaType) (r : MediaRequest.t) : bool :=
  (MediaRequest.tmdb_id r =? tmdb_id)%Z && bool_decide (MediaRequest.media_type r = media_type).
Definition in_statuses (statuses : list RequestStatus) (r : MediaRequest.t) : bool :=
  mem (MediaRequest.status r) statuses.
Definition is_null {A} (x : option A) : bool := match x with None => true | Some _ => false end.

Definition _SETTLED_REQUEST_STATUSES : list RequestStatus := [available; failed; evicted; cancelled].

Definition settled (r : MediaRequest.t) : bool := in_statuses _SETTLED_REQUEST_STATUSES r.

Definition get (request_id : Z) : DBM (option MediaRequest.t) :=
  query (fun d => List.find (has_id request_id) (media_requests d)).

Definition list_by_status (status : option RequestStatus) : DBM (list MediaRequest.t) :=
  query (fun d =>
    match status with
    | None => media_requests d
    | Some s => select (in_statuses [s]) (media_requests d)
    end).

Definition get_many (request_ids : list Z) : DBM (list MediaRequest.t) :=
  query (fun d => select (fun r => mem (MediaRequest.id r) request_ids) (media_requests d)).

(** The join with the subscriptions of one user: a pair is subscribed once. *)
Definition is_subscribed (d : db) (request_id user_id : Z) : bool :=
  existsb (fun s => (sub_request_id s =? request_id)%Z && (sub_user_id s =? user_id)%Z)
          (request_subscribers d).

Definition visible_to (d : db) (for_user_id : option Z) (r : MediaRequest.t) : bool :=
  match for_user_id with Some u => is_subscribed d (MediaRequest.id r) u | None => true end.

(** *** Subscribers *)

Definition is_subscriber (request_id user_id : Z) : DBM bool :=
  query (fun d => is_subscribed d request_id user_id).

(** [INSERT ... ON CONFLICT DO NOTHING]; a request that does not exist is
    refused by the foreign key. *)
Definition add_subscriber (request_id user_id now : Z) : DBM unit := fun d =>
  if is_subscribed d request_id user_id then (Ok tt, d)
  else if mem request_id (MediaRequest.id <$> media_requests d)
  then (Ok tt, with_subscribers (request_subscribers d ++
          [{| sub_request_id := request_id; sub_user_id := user_id; sub_subscribed_at := now |}]) d)
  else (Raise IntegrityError, d).

Fixpoint add_all (request_id now : Z) (users : list Z) : DBM unit :=
  match users with
  | [] => mret tt
  | u :: rest => add_subscriber request_id u now ;; add_all request_id now rest
  end.

Definition subscribers_of (d : db) (request_id : Z) : list RequestSubscriber :=
  select (fun s => (sub_request_id s =? request_id)%Z) (request_subscribers d).

Definition copy_subscribers (source_request_id target_request_id now : Z) : DBM unit :=
  users ← query (fun d => sub_user_id <$> subscribers_of d source_request_id);
  add_all target_request_id now users.

Definition remove_subscriber (request_id user_id : Z) : DBM unit := fun d =>
  (Ok tt, with_subscribers (List.filter (fun s => negb ((sub_request_id s =? request_id)%Z
                                                        && (sub_user_id s =? user_id)%Z))
                                        (request_subscribers d)) d).

(** [ORDER BY subscribed_at, user_id]. *)
Definition subscriber_lt (a b : RequestSubscriber) : bool :=
  (sub_subscribed_at a <? sub_subscribed_at b)%Z
  || ((sub_subscribed_at a =? sub_subscribed_at b)%Z && (sub_user_id a <? sub_user_id b)%Z).

Definition list_subscribers (request_id : Z) : DBM (list Z) :=
  query (fun d => sub_user_id <$> py_sort subscriber_lt (subscribers_of d request_id)).

(** The requests of [request_ids] that have subscribers, with their number. *)
Definition count_subscribers (request_ids : list Z) : DBM (list (Z * Z)) :=
  query (fun d =>
    omap (fun i =>
      match subscribers_of d i with [] => None | l => Some (i, Z.of_nat (length l)) end)
      (sorted_set request_ids)).

Definition list_for_user (user_id : Z) (status : option RequestStatus) : DBM (list MediaRequest.t) :=
  query (fun d => select (fun r => is_subscribed d (MediaRequest.id r) user_id &&
    match status with Some s => in_statuses [s] r | None => true end) (media_requests d)).

Definition subscribed_request_ids_among (user_id : Z) (request_ids : list Z) : DBM (list Z) :=
  query (fun d => List.filter (fun i => is_subscribed d i user_id) (sorted_set request_ids)).

(** *** Pages of the history *)

Definition _page_stmt (d : db) (for_user_id before_id : option Z) (limit : nat) : list MediaRequest.t :=
  take limit (reverse (select (fun r => visible_to d for_user_id r &&
    match before_id with Some b => (MediaRequest.id r <? b)%Z | None => true end) (media_requests d))).

Definition list_page (for_user_id before_id : option Z) (limit : nat) : DBM (list MediaRequest.t) :=
  query (fun d => _page_stmt d for_user_id before_id limit).

(** *** One title *)

Definition find_active (tmdb_id : Z) (media_type : MediaType) : DBM (option MediaRequest.t) :=
  query (fun d => List.find (fun r => of_title tmdb_id media_type r && negb (settled r)) (media_requests d)).

(** The owner first, then a request without owner, then the rest; the newest
    within each. *)
Definition ownership_rank (prefer_user_id : Z) (r : MediaRequest.t) : Z :=
  match MediaRequest.user_id r with
  | Some u => if (u =? prefer_user_id)%Z then 0 else 2
  | None => 1
  end.

Definition find_in_library (tmdb_id : Z) (media_type : MediaType) (prefer_user_id : option Z)
    : DBM (option MediaRequest.t) :=
  query (fun d =>
    let newest := reverse (select (fun r => of_title tmdb_id media_type r
                                            && in_statuses [available; completed] r) (media_requests d)) in
    match prefer_user_id with
    | Some u => head (py_sort (key_lt (ownership_rank u)) newest)
    | None => head newest
    end).

(** The rows that say something about the file on disk. *)
Definition truth_bearing (r : MediaRequest.t) : bool :=
  in_statuses [evicted; available; completed] r || negb (is_null (MediaRequest.library_removed_at r)).

Definition latest_request_evicted (tmdb_id : Z) (media_type : MediaType) : DBM bool :=
  query (fun d =>
    match head (reverse (select (fun r => of_title tmdb_id media_type r && truth_bearing r)
                                (media_requests d))) with
    | None => false
    | Some r => bool_decide (MediaRequest.status r = evicted)
                || negb (is_null (MediaRequest.library_removed_at r))
    end).

Definition list_for_media (tmdb_id : Z) (media_type : MediaType) (statuses : list RequestStatus)
    : DBM (list MediaRequest.t) :=
  query (fun d => select (fun r => of_title tmdb_id media_type r && in_statuses statuses r) (media_requests d)).

Definition list_for_title (tmdb_id : Z) (media_type : MediaType) (for_user_id : option Z)
    : DBM (list MediaRequest.t) :=
  query (fun d => select (fun r => of_title tmdb_id media_type r && visible_to d for_user_id r)
                         (media_requests d)).

Definition latest_library_path (tmdb_id : Z) (media_type : MediaType) : DBM (option (list N)) :=
  query (fun d =>
    head (reverse (omap MediaRequest.library_path (select (of_title tmdb_id media_type) (media_requests d))))).

Definition find_earliest_available (tmdb_id : Z) (media_type : MediaType) : DBM (option MediaRequest.t) :=
  query (fun d => List.find (fun r => of_title tmdb_id media_type r && in_statuses [available] r)
                            (media_requests d)).

(** [WHERE library_path = path AND status NOT IN (evicted, cancelled)]. *)
Definition claims_path (library_path : list N) (r : MediaRequest.t) : bool :=
  bool_decide (MediaRequest.library_path r = Some library_path) && negb (in_statuses [evicted; cancelled] r).

Definition other_row_claims_path (library_path : list N) (exclude_request_id : option Z) : DBM bool :=
  query (fun d => existsb (fun r => claims_path library_path r &&
    match exclude_request_id with Some i => negb (has_id i r) | None => true end) (media_requests d)).

Definition list_false_available_movies (limit : nat) : DBM (list MediaRequest.t) :=
  query (fun d => take limit (select (fun r =>
    bool_decide (MediaRequest.media_type r = movie) && in_statuses [available] r
    && is_null (MediaRequest.library_path r) && is_null (MediaRequest.available_heal_verified_at r))
    (media_requests d))).

(** *** The search queue *)

(** [expr.asc().nulls_first()]. *)
Definition nulls_first (a b : option Z) : bool :=
  match a, b with
  | None, Some _ => true
  | Some x, Some y => (x <? y)%Z
  | _, None => false
  end.

Definition parked (r : MediaRequest.t) : bool := in_statuses [no_acceptable_release] r.

Definition effective_due (r : MediaRequest.t) : option Z :=
  if parked r then MediaRequest.next_search_at r else None.

Definition due (now : Z) (r : MediaRequest.t) : bool :=
  negb (parked r) || is_null (MediaRequest.next_search_at r)
  || match MediaRequest.next_search_at r with Some t => (t <=? now)%Z | None => false end.

Definition due_lt (a b : MediaRequest.t) : bool := nulls_first (effective_due a) (effective_due b).

Definition list_due_for_search (statuses : list RequestStatus) (now : Z) : DBM (list MediaRequest.t) :=
  query (fun d => py_sort due_lt (select (fun r =>
    bool_decide (MediaRequest.media_type r = movie) && in_statuses statuses r && due now r)
    (media_requests d))).

(** *** Folding the rows of a title *)

Definition title_key (r : MediaRequest.t) : Z * MediaType := (MediaRequest.tmdb_id r, MediaRequest.media_type r).

(** [grouped.setdefault(key, []).append(row)]. *)
Fixpoint append_to (key : Z * MediaType) (row : MediaRequest.t)
    (grouped : list ((Z * MediaType) * list MediaRequest.t)) : list ((Z * MediaType) * list MediaRequest.t) :=
  match grouped with
  | [] => [(key, [row])]
  | (k, group) :: rest =>
      if bool_decide (k = key) then (k, group ++ [row]) :: rest else (k, group) :: append_to key row rest
  end.

Definition group_rows (rows : list MediaRequest.t) : list ((Z * MediaType) * list MediaRequest.t) :=
  foldl (fun grouped row => append_to (title_key row) row grouped) [] rows.

Definition _tmdb_scan_stmt (d : db) (tmdb_ids : list Z) (for_user_id : option Z) : list MediaRequest.t :=
  select (fun r => mem (MediaRequest.tmdb_id r) tmdb_ids && visible_to d for_user_id r) (media_requests d).

Definition _rows_grouped_by_tmdb_ids (d : db) (key_set : list (Z * MediaType)) (for_user_id : option Z)
    : list ((Z * MediaType) * list MediaRequest.t) :=
  group_rows (List.filter (fun r => mem (title_key r) key_set) (_tmdb_scan_stmt d key_set.*1 for_user_id)).

(** The row that stands for its title: the first one still active, otherwise
    the newest. *)
Definition chosen_row (group : list MediaRequest.t) : option MediaRequest.t :=
  match List.find (fun r => negb (settled r)) group with
  | Some r => Some r
  | None => last group
  end.

Definition display_statuses_by_tmdb_ids (keys : list (Z * MediaType)) (for_user_id : option Z)
    : DBM (list ((Z * MediaType) * RequestStatus)) :=
  query (fun d => omap (fun '(key, group) => r ← chosen_row group; Some (key, MediaRequest.status r))
                       (_rows_grouped_by_tmdb_ids d keys for_user_id)).

Record CompactRequestState := {
  cs_status : RequestStatus;
  cs_request_id : Z;
  cs_has_coexisting_available : bool;
}.

Definition compact_state (key : Z * MediaType) (group : list MediaRequest.t) : option CompactRequestState :=
  chosen ← chosen_row group;
  Some {| cs_status := MediaRequest.status chosen;
          cs_request_id := MediaRequest.id chosen;
          cs_has_coexisting_available :=
            bool_decide (key.2 = movie)
            && existsb (fun r => negb (has_id (MediaRequest.id chosen) r) && in_statuses [available] r) group |}.

Definition compact_states_by_tmdb_ids (keys : list (Z * MediaType)) (for_user_id : option Z)
    : DBM (list ((Z * MediaType) * CompactRequestState)) :=
  query (fun d => omap (fun '(key, group) => c ← compact_state key group; Some (key, c))
                       (_rows_grouped_by_tmdb_ids d keys for_user_id)).

Definition list_personalization_history (user_id : Z) : DBM (list MediaRequest.t) :=
  query (fun d =>
    let rows := select (fun r => bool_decide (MediaRequest.user_id r = Some user_id)
                                 && negb (in_statuses [cancelled] r)) (media_requests d) in
    py_sort (key_lt MediaRequest.id) (omap (fun '(_, group) => chosen_row group) (group_rows rows))).

(** ** Writing *)

Definition missing (request_id : Z) : exn :=
  LookupError (lit "media request " ++ str_of_int request_id ++ lit " does not exist").

(** [row = get(...)], [LookupError] when there is none, then the attributes of
    the row and a flush. *)
Definition write_row (request_id : Z) (values : list MediaRequest.column_value) : DBM unit :=
  row ← get request_id;
  match row with
  | None => db_throw (missing request_id)
  | Some _ => update_requests (has_id request_id) values ;; mret tt
  end.

(** [UPDATE ... WHERE], and whether it matched one row. *)
Definition update_one (p : MediaRequest.t -> bool) (values : list MediaRequest.column_value) : DBM bool :=
  n ← update_requests p values; mret (n =? 1)%Z.

Definition set_owner (request_id : Z) (user_id : option Z) : DBM unit :=
  write_row request_id [MediaRequest.set_user_id user_id].

Definition schedule_search (request_id search_attempts : Z) (next_search_at : option Z) : DBM unit :=
  write_row request_id [MediaRequest.set_search_attempts search_attempts;
                        MediaRequest.set_next_search_at next_search_at].

Definition clear_library_path_if_set (request_id : Z) (expected_path : option (list N))
    (expected_statuses : option (list RequestStatus)) (mark_removed : bool) (now : Z) : DBM bool :=
  update_one (fun r => has_id request_id r && negb (is_null (MediaRequest.library_path r))
      && match expected_path with
         | Some p => bool_decide (MediaRequest.library_path r = Some p) | None => true end
      && match expected_statuses with Some l => in_statuses l r | None => true end)
    ([MediaRequest.set_library_path None; MediaRequest.set_partial_delete_path None]
     ++ if mark_removed then [MediaRequest.set_library_removed_at (Some now)] else []).

Definition confirm_partial_delete_marker (request_id : Z) (expected_path : list N)
    (honor_keep_forever : bool) : DBM bool :=
  update_one (fun r => has_id request_id r
      && bool_decide (MediaRequest.library_path r = Some expected_path)
      && bool_decide (MediaRequest.partial_delete_path r = Some expected_path)
      && (negb honor_keep_forever || negb (MediaRequest.keep_forever r)))
    [MediaRequest.set_partial_delete_path (Some expected_path)].

Definition mark_heal_verified_present (request_id now : Z) : DBM bool :=
  update_one (fun r => has_id request_id r && in_statuses [available] r
      && is_null (MediaRequest.library_path r) && is_null (MediaRequest.available_heal_verified_at r))
    [MediaRequest.set_available_heal_verified_at (Some now); MediaRequest.set_library_verified_at (Some now)].

Definition rearm_false_available_to_pending (request_id : Z) : DBM bool :=
  update_one (fun r => has_id request_id r && in_statuses [available] r && is_null (MediaRequest.library_path r))
    [MediaRequest.set_status pending; MediaRequest.set_library_verified_at None;
     MediaRequest.set_completed_at None; MediaRequest.set_search_attempts 0;
     MediaRequest.set_next_search_at None].

Definition delete_false_available_sibling_collapse (request_id : Z) (expected_user_id : option Z) : DBM bool :=
  n ← delete_requests (fun r => has_id request_id r && in_statuses [available] r
        && is_null (MediaRequest.library_path r) && bool_decide (MediaRequest.user_id r = expected_user_id));
  mret (n =? 1)%Z.

Definition delete (request_id : Z) : DBM unit :=
  row ← get request_id;
  match row with
  | None => mret tt
  | Some _ => delete_requests (has_id request_id) ;; mret tt
  end.

(** The primary key of the new row is the database's; the columns not named
    have the schema's defaults. *)
Definition create (tmdb_id : Z) (media_type : MediaType) (title : list N) (status : RequestStatus)
    (user_id : option Z) (details : RequestDetails) (eviction_regrab : bool) (now : Z) : DBM (option MediaRequest.t) :=
  new_id ← insert_request (fun i =>
    {| MediaRequest.id := i; MediaRequest.user_id := user_id; MediaRequest.tmdb_id := tmdb_id;
       MediaRequest.media_type := media_type; MediaRequest.title := title; MediaRequest.status := status;
       MediaRequest.details :=
         {| year := year details; is_anime := is_anime details; poster_url := poster_url details;
            backdrop_url := backdrop_url details; tv_request_mode := tv_request_mode details;
            requested_seasons_json := _season_json (requested_seasons_json details);
            requested_episodes_json := requested_episodes_json details |};
       MediaRequest.completed_at := None; MediaRequest.completion_generation := None;
       MediaRequest.library_verified_at := None; MediaRequest.library_removed_at := None;
       MediaRequest.available_heal_verified_at := None; MediaRequest.library_path := None;
       MediaRequest.partial_delete_path := None; MediaRequest.keep_forever := false;
       MediaRequest.search_attempts := 0; MediaRequest.next_search_at := None;
       MediaRequest.eviction_regrab := Some eviction_regrab |});
  match user_id with Some u => add_subscriber new_id u now | None => mret tt end ;;
  get new_id.

Definition set_tv_request_intent (request_id : Z) (mode : list N) (requested_seasons : option (list Z))
    (requested_episodes : option (list (Z * list Z))) : DBM unit :=
  row ← get request_id;
  match row with
  | None => db_throw (missing request_id)
  | Some r =>
      let d := MediaRequest.details r in
      update_requests (has_id request_id) [MediaRequest.set_details
        {| year := year d; is_anime := is_anime d; poster_url := poster_url d;
           backdrop_url := backdrop_url d; tv_request_mode := Some mode;
           requested_seasons_json := _season_json requested_seasons;
           requested_episodes_json := _episode_json requested_episodes |}] ;;
      mret tt
  end.

Definition set_status (request_id : Z) (status : RequestStatus) : DBM unit :=
  write_row request_id [MediaRequest.set_status status].

(** [EXISTS (SELECT ... FROM watchlist_items ...)]. *)
Definition watchlisted (d : db) (tmdb_id : Z) (media_type : MediaType) : bool :=
  existsb (fun w => (wl_tmdb_id w =? tmdb_id)%Z && bool_decide (wl_media_type w = media_type))
          (watchlist_items d).

(** What the compare-and-swap compares. *)
Definition may_move (d : db) (request_id : Z) (allowed_from : list RequestStatus)
    (require_unpinned require_not_watchlisted : bool) (r : MediaRequest.t) : bool :=
  has_id request_id r && in_statuses allowed_from r
  && (negb require_unpinned || negb (MediaRequest.keep_forever r))
  && (negb require_not_watchlisted || negb (watchlisted d (MediaRequest.tmdb_id r) (MediaRequest.media_type r))).

Definition set_status_if_in (request_id : Z) (status : RequestStatus) (allowed_from : list RequestStatus)
    (require_unpinned require_not_watchlisted : bool) : DBM bool :=
  reading (fun d =>
    update_one (may_move d request_id allowed_from require_unpinned require_not_watchlisted)
               [MediaRequest.set_status status]).

Definition mark_completed (request_id now : Z) : DBM unit :=
  n ← update_requests (has_id request_id)
        [MediaRequest.set_status completed; MediaRequest.set_completed_at (Some now);
         MediaRequest.next_generation];
  if (n =? 1)%Z then mret tt else db_throw (missing request_id).

Definition stamp_completed_at_if_unset (request_id now : Z) : DBM unit :=
  n ← update_requests (fun r => has_id request_id r && is_null (MediaRequest.completed_at r))
        [MediaRequest.set_completed_at (Some now)];
  if (n =? 0)%Z then
    row ← get request_id;
    match row with None => db_throw (missing request_id) | Some _ => mret tt end
  else mret tt.

Definition mark_available (request_id : Z) (expected_completion_generation : option Z) (now : Z) : DBM bool :=
  moved ← update_one (fun r => has_id request_id r && in_statuses [completed; available] r
            && bool_decide (MediaRequest.completion_generation r = expected_completion_generation))
          [MediaRequest.set_status available; MediaRequest.set_library_verified_at (Some now);
           MediaRequest.set_eviction_regrab (Some false)];
  if negb moved then mret false
  else stamp_completed_at_if_unset request_id now ;; mret true.

Definition claim_if_unowned (request_id user_id : Z) : DBM bool :=
  update_one (fun r => has_id request_id r && is_null (MediaRequest.user_id r))
             [MediaRequest.set_user_id (Some user_id)].

Definition set_library_path (request_id : Z) (library_path : list N) : DBM unit :=
  write_row request_id [MediaRequest.set_library_path (Some library_path);
                        MediaRequest.set_partial_delete_path None; MediaRequest.set_library_removed_at None].

Definition set_partial_delete_path (request_id : Z) (library_path : list N) : DBM unit :=
  write_row request_id [MediaRequest.set_partial_delete_path (Some library_path)].

Definition clear_partial_delete_path (request_id : Z) : DBM unit :=
  write_row request_id [MediaRequest.set_partial_delete_path None].

Definition reset_for_research (request_id : Z) (clear_library_path : bool) : DBM unit :=
  write_row request_id
    ([MediaRequest.set_status searching]
     ++ (if clear_library_path then [MediaRequest.set_library_path None; MediaRequest.set_partial_delete_path None]
         else [])
     ++ [MediaRequest.set_completed_at None; MediaRequest.set_library_verified_at None;
         MediaRequest.set_search_attempts 0; MediaRequest.set_next_search_at None;
         MediaRequest.set_eviction_regrab (Some false)]).

Definition clear_library_path (request_id : Z) (mark_removed : bool) (now : Z) : DBM unit :=
  write_row request_id
    ([MediaRequest.set_library_path None; MediaRequest.set_partial_delete_path None]
     ++ if mark_removed then [MediaRequest.set_library_removed_at (Some now)] else []).

Definition set_keep_forever (request_id : Z) (keep_forever : bool) : DBM unit :=
  write_row request_id [MediaRequest.set_keep_forever keep_forever].

Definition set_keep_forever_for_title (tmdb_id : Z) (media_type : MediaType) (keep_forever : bool)
    (restrict_to_user_id : option Z) : DBM unit :=
  update_requests (fun r => of_title tmdb_id media_type r &&
      match restrict_to_user_id with
      | Some u => bool_decide (MediaRequest.user_id r = Some u)
      | None => true
      end)
    [MediaRequest.set_keep_forever keep_forever] ;; mret tt.

(** *** The completion stamp of a show *)

(** The newest [imported] event of a torrent, [-1] when there is none. *)
Definition latest_import_event (d : db) (torrent_hash : list N) : Z :=
  foldr Z.max (-1)%Z (h_id <$> List.filter (fun h =>
    bool_decide (h_torrent_hash h = Some torrent_hash) && bool_decide (h_event_type h = h_imported))
    (download_history d)).

Definition evicted_since_import (d : db) (r : MediaRequest.t) (x : Download.t) : bool :=
  existsb (fun h => bool_decide (h_tmdb_id h = Some (MediaRequest.tmdb_id r))
                    && bool_decide (h_event_type h = h_evicted)
                    && (latest_import_event d (Download.torrent_hash x) <? h_id h)%Z) (download_history d).

Definition season_genuinely_imported (d : db) (r : MediaRequest.t) (s : SeasonRequest.t) : bool :=
  existsb (fun x => bool_decide (Download.media_request_id x = Some (SeasonRequest.media_request_id s))
                    && bool_decide (Download.season x = Some (SeasonRequest.season_number s))
                    && bool_decide (Download.status x = lit "imported")
                    && negb (evicted_since_import d r x)) (downloads d).

Definition qualifying (d : db) (r : MediaRequest.t) : bool :=
  existsb (fun s => (SeasonRequest.media_request_id s =? MediaRequest.id r)%Z
                    && mem (SeasonRequest.status s) [completed; available]
                    && (negb (is_null (SeasonRequest.library_path s)) || season_genuinely_imported d r s))
          (season_requests d).

Definition heal_completed_at (request_id now : Z) : DBM unit :=
  reading (fun d => update_requests (fun r => has_id request_id r
      && negb (is_null (MediaRequest.completed_at r)) && negb (qualifying d r))
    [MediaRequest.set_completed_at None]) ;;
  reading (fun d => update_requests (fun r => has_id request_id r
      && is_null (MediaRequest.completed_at r) && qualifying d r)
    [MediaRequest.set_completed_at (Some now)]) ;;
  mret tt.
