(* ===== verification/SeasonRepository.v ===== *)
(** * The season repository ([repositories/season_requests.py])

    Every method of [SqlSeasonRequestRepository], on the tables of
    [RequestStore]. *)

From Stdlib Require Import ZArith Lia Bool String.
From S2P Require Import Prelude PyStr RequestStore RequestRepository.

#[local] Open Scope bool_scope.

(** ** Reading *)

Definition has_id (season_request_id : Z) (s : SeasonRequest.t) : bool :=
  (SeasonRequest.id s =? season_request_id)%Z.
Definition of_request (media_request_id : Z) (s : SeasonRequest.t) : bool :=
  (SeasonRequest.media_request_id s =? media_request_id)%Z.
Definition in_statuses (statuses : list RequestStatus) (s : SeasonRequest.t) : bool :=
  mem (SeasonRequest.status s) statuses.

Definition missing_request (media_request_id : Z) : exn :=
  LookupError (lit "media request " ++ str_of_int media_request_id ++ lit " does not exist").
Definition missing (season_request_id : Z) : exn :=
  LookupError (lit "season request " ++ str_of_int season_request_id ++ lit " does not exist").

Definition _find (media_request_id season_number : Z) : DBM (option SeasonRequest.t) :=
  query (fun d => List.find (fun s => of_request media_request_id s
                                      && (SeasonRequest.season_number s =? season_number)%Z) (season_requests d)).

(** The request a season belongs to. *)
Definition parent_of (d : db) (s : SeasonRequest.t) : option MediaRequest.t :=
  List.find (RequestRepository.has_id (SeasonRequest.media_request_id s)) (media_requests d).

Definition _tmdb_id_for (media_request_id : Z) : DBM Z :=
  r ← RequestRepository.get media_request_id;
  match r with
  | None => db_throw (missing_request media_request_id)
  | Some r => mret (MediaRequest.tmdb_id r)
  end.

(** [_to_record]: the row with the show it belongs to. *)
Record SeasonRequestRecord := { sr_row : SeasonRequest.t; sr_tmdb_id : Z }.

Definition _to_record (s : SeasonRequest.t) : DBM SeasonRequestRecord :=
  tmdb_id ← _tmdb_id_for (SeasonRequest.media_request_id s);
  mret {| sr_row := s; sr_tmdb_id := tmdb_id |}.

Definition get (season_request_id : Z) : DBM (option SeasonRequestRecord) :=
  s ← query (fun d => List.find (has_id season_request_id) (season_requests d));
  match s with
  | None => mret None
  | Some s => record ← _to_record s; mret (Some record)
  end.

(** [ORDER BY season_number], of a request whose season numbers are distinct. *)
Definition seasons_of (d : db) (media_request_id : Z) : list SeasonRequest.t :=
  py_sort (key_lt SeasonRequest.season_number) (select (of_request media_request_id) (season_requests d)).

Definition list_for_request (media_request_id : Z) : DBM (list SeasonRequestRecord) :=
  rows ← query (fun d => seasons_of d media_request_id);
  match rows with
  | [] => mret []
  | _ => tmdb_id ← _tmdb_id_for media_request_id;
         mret ((fun s => {| sr_row := s; sr_tmdb_id := tmdb_id |}) <$> rows)
  end.

(** The join with [media_requests]: the record of each row that has a parent. *)
Definition joined (d : db) (rows : list SeasonRequest.t) : list SeasonRequestRecord :=
  omap (fun s => r ← parent_of d s; Some {| sr_row := s; sr_tmdb_id := MediaRequest.tmdb_id r |}) rows.

Definition list_for_requests (media_request_ids : list Z) : DBM (list (Z * list SeasonRequestRecord)) :=
  query (fun d => omap (fun i => match joined d (seasons_of d i) with [] => None | l => Some (i, l) end)
                       (sorted_set media_request_ids)).

(** The seasons of a show, by number and age, and for each number the newest
    status that is not a cancellation. *)
Definition season_lt (a b : SeasonRequest.t) : bool :=
  (SeasonRequest.season_number a <? SeasonRequest.season_number b)%Z
  || ((SeasonRequest.season_number a =? SeasonRequest.season_number b)%Z
      && (SeasonRequest.id a <? SeasonRequest.id b)%Z).

Definition of_show (d : db) (tmdb_id : Z) (s : SeasonRequest.t) : bool :=
  match parent_of d s with Some r => of_title tmdb_id tv r | None => false end.

Definition evicted_seasons (tmdb_id : Z) : DBM (list Z) :=
  query (fun d =>
    let rows := py_sort season_lt (select (fun s => of_show d tmdb_id s && negb (in_statuses [cancelled] s))
                                          (season_requests d)) in
    let newest := dict_of ((fun s => (SeasonRequest.season_number s, SeasonRequest.status s)) <$> rows) in
    List.filter (fun n => bool_decide (newest !! n = Some evicted))
                (sorted_set (SeasonRequest.season_number <$> rows))).

Definition list_sibling_seasons (tmdb_id season_number : Z) (statuses : list RequestStatus) (exclude_id : Z)
    : DBM (list SeasonRequestRecord) :=
  query (fun d => joined d (select (fun s => of_show d tmdb_id s
      && (SeasonRequest.season_number s =? season_number)%Z && negb (has_id exclude_id s)
      && in_statuses statuses s) (season_requests d))).

Definition claims_path (library_path : list N) (s : SeasonRequest.t) : bool :=
  bool_decide (SeasonRequest.library_path s = Some library_path) && negb (in_statuses [evicted; cancelled] s).

Definition other_row_claims_path (library_path : list N) (exclude_season_request_id : option Z) : DBM bool :=
  query (fun d => existsb (fun s => claims_path library_path s &&
    match exclude_season_request_id with Some i => negb (has_id i s) | None => true end) (season_requests d)).

Definition list_by_status (status : option RequestStatus) : DBM (list SeasonRequestRecord) :=
  query (fun d => joined d
    match status with
    | None => season_requests d
    | Some x => select (in_statuses [x]) (season_requests d)
    end).

(** [checked_at < before] or never checked. *)
Definition checked_before_ok (checked_before : option Z) (s : SeasonRequest.t) : bool :=
  match checked_before with
  | None => true
  | Some b => match SeasonRequest.airing_refresh_checked_at s with
              | None => true
              | Some t => (t <? b)%Z
              end
  end.

Definition checked_lt (a b : SeasonRequest.t) : bool :=
  nulls_first (SeasonRequest.airing_refresh_checked_at a) (SeasonRequest.airing_refresh_checked_at b).

Fixpoint to_records (rows : list SeasonRequest.t) : DBM (list SeasonRequestRecord) :=
  match rows with
  | [] => mret []
  | s :: rest => record ← _to_record s; records ← to_records rest; mret (record :: records)
  end.

Definition list_for_airing_refresh (statuses : list RequestStatus) (limit : nat) (checked_before : option Z)
    : DBM (list SeasonRequestRecord) :=
  rows ← query (fun d => take limit (py_sort checked_lt
    (select (fun s => in_statuses statuses s && checked_before_ok checked_before s) (season_requests d))));
  to_records rows.

Definition parked (s : SeasonRequest.t) : bool := in_statuses [no_acceptable_release] s.
Definition effective_due (s : SeasonRequest.t) : option Z :=
  if parked s then SeasonRequest.next_search_at s else None.
Definition due (now : Z) (s : SeasonRequest.t) : bool :=
  negb (parked s) || is_null (SeasonRequest.next_search_at s)
  || match SeasonRequest.next_search_at s with Some t => (t <=? now)%Z | None => false end.
Definition due_lt (a b : SeasonRequest.t) : bool := nulls_first (effective_due a) (effective_due b).

Definition list_due_for_search (statuses : list RequestStatus) (now : Z) : DBM (list SeasonRequestRecord) :=
  query (fun d => joined d (py_sort due_lt
    (select (fun s => in_statuses statuses s && due now s) (season_requests d)))).

(** ** Writing *)

Definition write_row (season_request_id : Z) (values : list SeasonRequest.column_value) : DBM unit :=
  row ← query (fun d => List.find (has_id season_request_id) (season_requests d));
  match row with
  | None => db_throw (missing season_request_id)
  | Some _ => update_seasons (has_id season_request_id) values ;; mret tt
  end.

Definition update_one (p : SeasonRequest.t -> bool) (values : list SeasonRequest.column_value) : DBM bool :=
  n ← update_seasons p values; mret (n =? 1)%Z.

Definition clear_library_path_if_set (season_request_id : Z) (expected_path : option (list N))
    (expected_statuses : option (list RequestStatus)) : DBM bool :=
  update_one (fun s => has_id season_request_id s && negb (is_null (SeasonRequest.library_path s))
      && match expected_path with
         | Some p => bool_decide (SeasonRequest.library_path s = Some p) | None => true end
      && match expected_statuses with Some l => in_statuses l s | None => true end)
    [SeasonRequest.set_library_path None; SeasonRequest.set_partial_delete_path None].

Definition mark_airing_refresh_checked (season_request_id checked_at : Z) : DBM unit :=
  write_row season_request_id [SeasonRequest.set_airing_refresh_checked_at (Some checked_at)].

Definition schedule_search (season_request_id search_attempts : Z) (next_search_at : option Z) : DBM unit :=
  write_row season_request_id [SeasonRequest.set_search_attempts search_attempts;
                               SeasonRequest.set_next_search_at next_search_at].

(** The row a refused [INSERT] lost against is read again; a parent that does
    not exist leaves none. *)
Definition ensure (media_request_id season_number : Z) (status : RequestStatus) (eviction_regrab : bool)
    : DBM SeasonRequestRecord :=
  existing ← _find media_request_id season_number;
  match existing with
  | Some s => _to_record s
  | None =>
      let row i :=
        {| SeasonRequest.id := i; SeasonRequest.media_request_id := media_request_id;
           SeasonRequest.season_number := season_number; SeasonRequest.status := status;
           SeasonRequest.library_path := None; SeasonRequest.partial_delete_path := None;
           SeasonRequest.search_attempts := 0; SeasonRequest.next_search_at := None;
           SeasonRequest.installed_quality_id := None; SeasonRequest.installed_profile_index := None;
           SeasonRequest.completed_at := None; SeasonRequest.completion_generation := None;
           SeasonRequest.eviction_regrab := Some eviction_regrab;
           SeasonRequest.airing_refresh_checked_at := None |} in
      fun d => match insert_season row d with
               | (Ok i, d') => _to_record (row i) d'
               | (Raise e, d') =>
                   (winner ← _find media_request_id season_number;
                    match winner with None => db_throw e | Some s => _to_record s end) d'
               end
  end.

Definition _completion_write_values (target : RequestStatus) (now : Z) : list SeasonRequest.column_value :=
  match target with
  | completed => [SeasonRequest.set_completed_at (Some now); SeasonRequest.next_generation]
  | available => []
  | _ => [SeasonRequest.set_completed_at None]
  end.

Definition set_status (season_request_id : Z) (status : RequestStatus) (now : Z) : DBM unit :=
  n ← update_seasons (has_id season_request_id)
        (SeasonRequest.set_status status :: _completion_write_values status now);
  if (n =? 1)%Z then mret tt else db_throw (missing season_request_id).

(** The subqueries of the compare-and-swap. *)
Definition active_coverage_claim (d : db) (s : SeasonRequest.t) : bool :=
  existsb (fun c => bool_decide (DownloadCoverageClaim.media_request_id c = Some (SeasonRequest.media_request_id s))
      && bool_decide (DownloadCoverageClaim.season_number c = Some (SeasonRequest.season_number s))
      && claim_active c
      && existsb (fun x => (Download.id x =? DownloadCoverageClaim.download_id c)%Z && negb (terminal x))
                 (downloads d)) (coverage_claims d).

Definition parent_pinned (d : db) (s : SeasonRequest.t) : bool :=
  existsb (fun r => RequestRepository.has_id (SeasonRequest.media_request_id s) r && MediaRequest.keep_forever r)
          (media_requests d).

Definition show_watchlisted (d : db) (s : SeasonRequest.t) : bool :=
  existsb (fun w => bool_decide (wl_media_type w = tv)
      && existsb (fun r => RequestRepository.has_id (SeasonRequest.media_request_id s) r
                           && (MediaRequest.tmdb_id r =? wl_tmdb_id w)%Z) (media_requests d))
          (watchlist_items d).

Definition may_move (d : db) (season_request_id : Z) (allowed_from : list RequestStatus)
    (require_no_active_coverage require_parent_unpinned require_not_watchlisted : bool) (s : SeasonRequest.t) : bool :=
  has_id season_request_id s && in_statuses allowed_from s
  && (negb require_no_active_coverage || negb (active_coverage_claim d s))
  && (negb require_parent_unpinned || negb (parent_pinned d s))
  && (negb require_not_watchlisted || negb (show_watchlisted d s)).

Definition set_status_if_in (season_request_id : Z) (status : RequestStatus) (allowed_from : list RequestStatus)
    (require_no_active_coverage require_parent_unpinned require_not_watchlisted : bool) (now : Z) : DBM bool :=
  reading (fun d =>
    update_one (may_move d season_request_id allowed_from require_no_active_coverage require_parent_unpinned
                         require_not_watchlisted)
      (SeasonRequest.set_status status :: _completion_write_values status now)).

Definition mark_completed (season_request_id now : Z) : DBM unit := set_status season_request_id completed now.

Definition mark_available (season_request_id : Z) (expected_completion_generation : option Z) : DBM bool :=
  update_one (fun s => has_id season_request_id s && in_statuses [completed; available] s
      && bool_decide (SeasonRequest.completion_generation s = expected_completion_generation))
    [SeasonRequest.set_status available; SeasonRequest.set_eviction_regrab (Some false)].

Definition set_library_path (season_request_id : Z) (library_path : list N) : DBM unit :=
  write_row season_request_id [SeasonRequest.set_library_path (Some library_path);
                               SeasonRequest.set_partial_delete_path None].

Definition set_partial_delete_path (season_request_id : Z) (library_path : list N) : DBM unit :=
  write_row season_request_id [SeasonRequest.set_partial_delete_path (Some library_path)].

Definition clear_partial_delete_path (season_request_id : Z) : DBM unit :=
  write_row season_request_id [SeasonRequest.set_partial_delete_path None].

Definition confirm_partial_delete_marker (season_request_id : Z) (expected_path : list N) : DBM bool :=
  reading (fun d =>
    update_one (fun s => has_id season_request_id s
        && bool_decide (SeasonRequest.library_path s = Some expected_path)
        && bool_decide (SeasonRequest.partial_delete_path s = Some expected_path)
        && negb (parent_pinned d s))
      [SeasonRequest.set_partial_delete_path (Some expected_path)]).

Definition set_installed_quality (season_request_id quality_id : Z) (profile_index : option Z) : DBM unit :=
  write_row season_request_id [SeasonRequest.set_installed_quality_id (Some quality_id);
                               SeasonRequest.set_installed_profile_index profile_index].

Definition clear_library_path (season_request_id : Z) : DBM unit :=
  write_row season_request_id [SeasonRequest.set_library_path None; SeasonRequest.set_partial_delete_path None].

Definition clear_eviction_regrab (season_request_id : Z) : DBM unit :=
  write_row season_request_id [SeasonRequest.set_eviction_regrab (Some false)].
