(* ===== verification/SeasonService.v ===== *)
(** * Season bookkeeping ([services/season_request_service.py])

    The status of a show is the fold of its seasons' statuses
    ([SeasonRollup.rollup_status]): every write of a season's status is followed,
    in the same transaction, by the write of the fold.

    [library.present_seasons] and [metadata.get_tv_show] are arguments, functions
    that may raise. *)

From Stdlib Require Import ZArith Lia Bool String.
From S2P Require Import Prelude PyStr SeasonRollup RequestStore RequestRepository SeasonRepository.

#[local] Open Scope bool_scope.

Definition _TERMINAL_SEASON_STATUS_VALUES : list RequestStatus :=
  [completed; available; failed; evicted; cancelled].
Definition _REAL_DONE_SEASON_STATUS_VALUES : list RequestStatus := [completed; available].
Definition _WAITING_FOR_AIR_DATE_STATUSES : list RequestStatus := [waiting_for_air_date].
Definition _AIR_DATE_WAKE_MIN_INTERVAL : Z := 6 * 3600 * 1000000.
Definition _PARKABLE_SEASON_STATUS_VALUES : list RequestStatus := [pending; searching; no_acceptable_release].

Section service.
Context {DB : UnicodeDB}.

Definition statuses_of (seasons : list SeasonRequestRecord) : list RequestStatus :=
  (fun s => SeasonRequest.status (sr_row s)) <$> seasons.

(** [rollup_status([season.status ...])], and the member it names. *)
Definition rollup (statuses : list RequestStatus) : res RequestStatus :=
  text ← rollup_status (status_value <$> statuses); RequestStatus_of text.

Definition _recompute_parent (media_request_id : Z) (tolerate_active_conflict stamp_completion : bool)
    (now : Z) : DBM unit :=
  seasons ← list_for_request media_request_id;
  match seasons with
  | [] => mret tt
  | _ =>
      status ← lift_res (rollup (statuses_of seasons));
      if negb tolerate_active_conflict then
        RequestRepository.set_status media_request_id status ;;
        if stamp_completion && existsb (fun s => mem s _REAL_DONE_SEASON_STATUS_VALUES) (statuses_of seasons)
        then stamp_completed_at_if_unset media_request_id now
        else mret tt
      else except "IntegrityError" (savepoint (RequestRepository.set_status media_request_id status)) (mret tt)
  end.

Definition _present_seasons (library : Z -> res (list Z)) (tmdb_id : Z) : res (list Z) :=
  match library tmdb_id with
  | Ok seasons => Ok seasons
  | Raise e =>
      if is_error "PlexLibraryError" e || is_error "PlexAuthError" e || is_error "NotImplementedError" e
      then Ok [] else Raise e
  end.

(** One season of [ensure_seasons]: its record, and whether it left a done
    status. *)
Definition reread (record : SeasonRequestRecord) : DBM SeasonRequestRecord :=
  fresh ← SeasonRepository.get (SeasonRequest.id (sr_row record)); mret (default record fresh).

Definition rearm (record : SeasonRequestRecord) (status : RequestStatus) (allowed_from : list RequestStatus)
    (now : Z) : DBM bool :=
  let i := SeasonRequest.id (sr_row record) in
  rearmed ← SeasonRepository.set_status_if_in i status allowed_from false false false now;
  (if (rearmed : bool) then SeasonRepository.schedule_search i 0 None else mret tt) ;;
  mret rearmed.

Definition ensure_season (media_request_id season_number : Z) (trusted_present evicted_regrab : list Z)
    (force_pending : bool) (now : Z) : DBM (SeasonRequestRecord * bool) :=
  let initial_status := if mem season_number trusted_present then available else pending in
  record ← ensure media_request_id season_number initial_status (mem season_number evicted_regrab);
  match SeasonRequest.status (sr_row record) with
  | evicted =>
      rearmed ← rearm record initial_status [evicted] now;
      fresh ← reread record; mret (fresh, rearmed)
  | waiting_for_air_date =>
      rearm record initial_status [waiting_for_air_date] now ;;
      fresh ← reread record; mret (fresh, false)
  | completed | available =>
      if force_pending then
        rearmed ← rearm record pending _REAL_DONE_SEASON_STATUS_VALUES now;
        fresh ← reread record; mret (fresh, rearmed)
      else mret (record, false)
  | _ => mret (record, false)
  end.

Fixpoint ensure_each (media_request_id : Z) (seasons trusted_present evicted_regrab : list Z)
    (force_pending : bool) (now : Z) : DBM (list SeasonRequestRecord * bool) :=
  match seasons with
  | [] => mret ([], false)
  | n :: rest =>
      x ← ensure_season media_request_id n trusted_present evicted_regrab force_pending now;
      y ← ensure_each media_request_id rest trusted_present evicted_regrab force_pending now;
      mret (x.1 :: y.1, x.2 || y.2)
  end.

Definition ensure_seasons (library : option (Z -> res (list Z))) (media_request_id tmdb_id : Z)
    (seasons : list Z) (force_pending : bool) (present : option (list Z)) (now : Z)
    : DBM (list SeasonRequestRecord) :=
  present ← lift_res
    match present with
    | Some l => Ok l
    | None => match library with
              | Some crawl => if negb force_pending then _present_seasons crawl tmdb_id else Ok []
              | None => Ok []
              end
    end;
  evicted_ ← evicted_seasons tmdb_id;
  let trusted_present := List.filter (fun n => negb (mem n evicted_)) present in
  out ← ensure_each media_request_id seasons trusted_present evicted_ force_pending now;
  (if (out.2 : bool) then heal_completed_at media_request_id now else mret tt) ;;
  _recompute_parent media_request_id false false now ;;
  mret out.1.

Definition set_status (media_request_id season_number : Z) (status : RequestStatus) (skip_if_terminal : bool)
    (now : Z) : DBM unit :=
  row ← ensure media_request_id season_number pending false;
  if skip_if_terminal && mem (SeasonRequest.status (sr_row row)) _TERMINAL_SEASON_STATUS_VALUES then mret tt
  else
    SeasonRepository.set_status (SeasonRequest.id (sr_row row)) status now ;;
    _recompute_parent media_request_id false false now.

Definition set_status_if_in (media_request_id season_request_id : Z) (status : RequestStatus)
    (allowed_from : list RequestStatus)
    (require_no_active_coverage require_parent_unpinned require_not_watchlisted tolerate_active_conflict : bool)
    (now : Z) : DBM bool :=
  changed ← SeasonRepository.set_status_if_in season_request_id status allowed_from
              require_no_active_coverage require_parent_unpinned require_not_watchlisted now;
  (if (changed : bool) then _recompute_parent media_request_id tolerate_active_conflict false now else mret tt) ;;
  mret changed.

Definition set_library_path (media_request_id season_number : Z) (library_path : list N) : DBM unit :=
  row ← ensure media_request_id season_number pending false;
  SeasonRepository.set_library_path (SeasonRequest.id (sr_row row)) library_path.

Definition set_installed_quality (media_request_id season_number quality_id : Z) (profile_index : option Z)
    : DBM unit :=
  row ← ensure media_request_id season_number pending false;
  SeasonRepository.set_installed_quality (SeasonRequest.id (sr_row row)) quality_id profile_index.

Definition clear_library_path (media_request_id season_number : Z) : DBM unit :=
  row ← ensure media_request_id season_number pending false;
  SeasonRepository.clear_library_path (SeasonRequest.id (sr_row row)).

Definition set_partial_delete_path (media_request_id season_number : Z) (library_path : list N) : DBM unit :=
  row ← ensure media_request_id season_number pending false;
  SeasonRepository.set_partial_delete_path (SeasonRequest.id (sr_row row)) library_path.

Definition clear_partial_delete_path (media_request_id season_number : Z) : DBM unit :=
  row ← ensure media_request_id season_number pending false;
  SeasonRepository.clear_partial_delete_path (SeasonRequest.id (sr_row row)).

Definition mark_completed (media_request_id season_number now : Z) : DBM unit :=
  row ← ensure media_request_id season_number pending false;
  SeasonRepository.mark_completed (SeasonRequest.id (sr_row row)) now ;;
  _recompute_parent media_request_id false true now.

Definition mark_completed_if_in (media_request_id season_number : Z) (allowed_from : list RequestStatus)
    (require_no_active_coverage : bool) (now : Z) : DBM bool :=
  row ← ensure media_request_id season_number pending false;
  changed ← SeasonRepository.set_status_if_in (SeasonRequest.id (sr_row row)) completed allowed_from
              require_no_active_coverage false false now;
  (if (changed : bool) then _recompute_parent media_request_id false true now else mret tt) ;;
  mret changed.

Definition mark_available (media_request_id season_number : Z) (expected_completion_generation : option Z)
    (now : Z) : DBM bool :=
  row ← ensure media_request_id season_number pending false;
  promoted ← SeasonRepository.mark_available (SeasonRequest.id (sr_row row)) expected_completion_generation;
  (if (promoted : bool) then _recompute_parent media_request_id false true now else mret tt) ;;
  mret promoted.

Definition reset_for_research (media_request_id season_number : Z) (clear_library_path : bool) (now : Z) : DBM unit :=
  row ← ensure media_request_id season_number pending false;
  let i := SeasonRequest.id (sr_row row) in
  SeasonRepository.set_status i searching now ;;
  SeasonRepository.schedule_search i 0 None ;;
  (if clear_library_path then SeasonRepository.clear_library_path i else mret tt) ;;
  clear_eviction_regrab i ;;
  heal_completed_at media_request_id now ;;
  _recompute_parent media_request_id false false now.

Definition mark_no_acceptable_release (media_request_id season_number : Z) (require_no_active_coverage : bool)
    (now : Z) : DBM bool :=
  row ← ensure media_request_id season_number pending false;
  set_status_if_in media_request_id (SeasonRequest.id (sr_row row)) no_acceptable_release
    _PARKABLE_SEASON_STATUS_VALUES require_no_active_coverage false false false now.

(** ** Waking seasons that waited for their air date *)

(** [metadata.get_tv_show]: the number of seasons of the show, if it is found. *)
Record wake_state := {
  woken : Z;
  show_season_count : list (Z * option Z);
  errored_shows : list Z;
  parents : list (Z * option MediaRequest.t);
}.

(** [parents[id]], read from the database the first time. *)
Definition cached_parent (media_request_id : Z) (st : wake_state) : DBM (option MediaRequest.t * wake_state) :=
  match assoc media_request_id (parents st) with
  | Some parent => mret (parent, st)
  | None =>
      parent ← RequestRepository.get media_request_id;
      mret (parent, {| woken := woken st; show_season_count := show_season_count st;
                       errored_shows := errored_shows st;
                       parents := (media_request_id, parent) :: parents st |})
  end.

(** [list(range(1, n + 1))]. *)
Definition first_seasons (n : Z) : list Z := Z.of_nat <$> seq 1 (Z.to_nat n).

(** [bool(parent is not None and parent.requested_episodes and
    parent.requested_episodes.get(season))]. *)
Definition episode_scoped (parent : option MediaRequest.t) (season_number : Z) : res bool :=
  match parent with
  | None => Ok false
  | Some r =>
      m ← _episode_map (requested_episodes_json (MediaRequest.details r));
      mret (match m ≫= (.!! season_number) with Some (_ :: _) => true | _ => false end)
  end.

(** The season is announced: it, or the whole show, starts over. *)
Definition wake_announced (library : option (Z -> res (list Z))) (now season_count : Z)
    (season : SeasonRequestRecord) (st : wake_state) : DBM wake_state :=
  let s := sr_row season in
  x ← cached_parent (SeasonRequest.media_request_id s) st;
  let '(parent, st) := x in
  let whole := match parent with
               | Some r => bool_decide (tv_request_mode (MediaRequest.details r) = Some (lit "whole_show"))
               | None => false
               end in
  let wake_seasons := if whole then first_seasons season_count else [SeasonRequest.season_number s] in
  scoped ← lift_res (episode_scoped parent (SeasonRequest.season_number s));
  records ← ensure_seasons library (SeasonRequest.media_request_id s) (sr_tmdb_id season) wake_seasons scoped None now;
  let awake := existsb (fun r => (SeasonRequest.season_number (sr_row r) =? SeasonRequest.season_number s)%Z
                 && negb (bool_decide (SeasonRequest.status (sr_row r) = waiting_for_air_date))) records in
  mret {| woken := woken st + (if awake then 1 else 0); show_season_count := show_season_count st;
          errored_shows := errored_shows st; parents := parents st |}.

Definition wake_season (metadata : Z -> res (option Z)) (library : option (Z -> res (list Z))) (now : Z)
    (season : SeasonRequestRecord) (st : wake_state) : DBM wake_state :=
  let s := sr_row season in
  let tmdb_id := sr_tmdb_id season in
  let checked st := mark_airing_refresh_checked (SeasonRequest.id s) now ;; mret st in
  let announced season_count st :=
    match season_count with
    | Some n =>
        if (SeasonRequest.season_number s <=? n)%Z then
          st ← wake_announced library now n season st; checked st
        else checked st
    | None => checked st
    end in
  if mem tmdb_id (errored_shows st) then checked st
  else
    match assoc tmdb_id (show_season_count st) with
    | Some season_count => announced season_count st
    | None =>
        match metadata tmdb_id with
        | Ok season_count =>
            announced season_count
              {| woken := woken st; show_season_count := (tmdb_id, season_count) :: show_season_count st;
                 errored_shows := errored_shows st; parents := parents st |}
        | Raise e =>
            if is_error "TmdbApiError" e || is_error "TmdbAuthError" e then
              checked {| woken := woken st; show_season_count := show_season_count st;
                         errored_shows := tmdb_id :: errored_shows st; parents := parents st |}
            else db_throw e
        end
    end.

Fixpoint wake_each (metadata : Z -> res (option Z)) (library : option (Z -> res (list Z))) (now : Z)
    (candidates : list SeasonRequestRecord) (st : wake_state) : DBM Z :=
  match candidates with
  | [] => mret (woken st)
  | season :: rest =>
      st ← wake_season metadata library now season st;
      wake_each metadata library now rest st
  end.

Definition wake_waiting_for_air_date (metadata : Z -> res (option Z)) (library : option (Z -> res (list Z)))
    (now : Z) (max_refresh : nat) : DBM Z :=
  candidates ← list_for_airing_refresh _WAITING_FOR_AIR_DATE_STATUSES max_refresh
                 (Some (now - _AIR_DATE_WAKE_MIN_INTERVAL)%Z);
  wake_each metadata library now candidates
    {| woken := 0; show_season_count := []; errored_shows := []; parents := [] |}.

End service.
