(* ===== verification/RequestLaws.v ===== *)
(** * Laws of the request tables

    The schema's guarantees ([wf]) hold of every database the repositories'
    methods and the season service can reach; what the conditional updates
    compare and change; what the queries that order, page and choose return. *)

From Stdlib Require Import ZArith Lia Bool String Sorted.
From S2P Require Import Prelude PyStr PyInt SeasonRollup RequestStore RequestRepository.
From S2P Require SeasonRepository SeasonService.

#[local] Open Scope bool_scope.

(** ** The schema *)

Lemma assign_all_id values r : MediaRequest.id (MediaRequest.assign_all values r) = MediaRequest.id r.
Proof. revert r; induction values as [|[] l IH]; intros []; cbn; try done; apply IH. Qed.
Lemma assign_all_season values s :
  SeasonRequest.id (SeasonRequest.assign_all values s) = SeasonRequest.id s /\
  SeasonRequest.media_request_id (SeasonRequest.assign_all values s) = SeasonRequest.media_request_id s /\
  SeasonRequest.season_number (SeasonRequest.assign_all values s) = SeasonRequest.season_number s.
Proof. revert s; induction values as [|[] l IH]; intros []; cbn; try done; apply IH. Qed.

Lemma active_filter p t : sublist (active_keys (List.filter p t)) (active_keys t).
Proof.
  unfold active_keys. induction t as [|r t IH]; simpl; [constructor|].
  destruct (p r); simpl; destruct (is_active r); simpl; solve [done | by constructor].
Qed.

Lemma wf_requests_update p values : keeps wf (update_requests p values).
Proof.
  intros d [H1 H2 H3 H4 H5 H6 H7 H8 H9]. unfold update_requests.
  destruct (bool_decide _) eqn:Hu; simpl; [|by split]. apply bool_decide_eq_true in Hu.
  split; simpl; try done; rewrite ?(rewritten_keeps MediaRequest.id) by apply assign_all_id; done.
Qed.

Lemma wf_seasons_update p values : keeps wf (update_seasons p values).
Proof.
  intros d [H1 H2 H3 H4 H5 H6 H7 H8 H9]. unfold update_seasons.
  split; simpl; try done; rewrite ?(rewritten_keeps SeasonRequest.id) by apply assign_all_season; try done.
  - unfold season_keys. rewrite (rewritten_keeps (fun r => (SeasonRequest.media_request_id r, _))); [done|].
    intros s. destruct (assign_all_season values s) as (_ & -> & ->). done.
  - unfold rewritten. intros s. rewrite list_elem_of_fmap. intros (s' & -> & Hs').
    destruct (p s'); [|by apply H7]. rewrite (proj1 (proj2 (assign_all_season _ _))). by apply H7.
Qed.

Lemma wf_insert_request row : (forall i, MediaRequest.id (row i) = i) -> keeps wf (insert_request row).
Proof.
  intros Hid d [H1 H2 H3 H4 H5 H6 H7 H8 H9]. unfold insert_request.
  destruct (bool_decide _) eqn:Hu; simpl; split; simpl; try done; try by apply Forall_lt_succ.
  - rewrite fmap_app. simpl. rewrite Hid. by apply sorted_snoc.
  - rewrite fmap_app. simpl. rewrite Hid. apply Forall_app. split; [by apply Forall_lt_succ|].
    repeat constructor. lia.
  - by apply bool_decide_eq_true in Hu.
  - intros s Hs. rewrite fmap_app. apply elem_of_app. left. by apply H7.
  - intros s Hs. rewrite fmap_app. apply elem_of_app. left. by apply H9.
Qed.

Lemma wf_insert_season row : (forall i, SeasonRequest.id (row i) = i) -> keeps wf (insert_season row).
Proof.
  intros Hid d [H1 H2 H3 H4 H5 H6 H7 H8 H9]. unfold insert_season.
  destruct (_ && _) eqn:Hu; simpl; split; simpl; try done; try by apply Forall_lt_succ.
  - rewrite fmap_app. simpl. rewrite Hid. by apply sorted_snoc.
  - rewrite fmap_app. simpl. rewrite Hid. apply Forall_app. split; [by apply Forall_lt_succ|].
    repeat constructor. lia.
  - apply andb_prop in Hu as [Hu _]. by apply bool_decide_eq_true in Hu.
  - apply andb_prop in Hu as [_ Hu]. apply mem_true in Hu.
    intros s. rewrite elem_of_app, list_elem_of_singleton. intros [Hs| ->]; [by apply H7 | done].
Qed.

Lemma wf_delete_requests p : keeps wf (delete_requests p).
Proof.
  intros d [H1 H2 H3 H4 H5 H6 H7 H8 H9]. unfold delete_requests.
  assert (forall i, i ∈ MediaRequest.id <$> media_requests d ->
    negb (mem i (MediaRequest.id <$> List.filter p (media_requests d))) = true ->
    i ∈ MediaRequest.id <$> List.filter (fun r => negb (p r)) (media_requests d)) as Hkeep.
  { intros i Hi Hg. apply negb_true_iff, mem_false in Hg. apply list_elem_of_fmap in Hi as (r & -> & Hr).
    apply list_elem_of_fmap. exists r. split; [done|]. apply list_elem_of_In, List.filter_In.
    apply list_elem_of_In in Hr. split; [done|]. destruct (p r) eqn:Hp; [|done]. exfalso. apply Hg.
    apply list_elem_of_fmap. exists r. split; [done|]. by apply list_elem_of_In, List.filter_In. }
  split; simpl.
  - eapply sorted_sublist; [apply filter_fmap_sublist | done].
  - eapply sublist_Forall; [apply filter_fmap_sublist | done].
  - eapply sublist_NoDup; [exact H3 | apply active_filter].
  - eapply sorted_sublist; [apply filter_fmap_sublist | done].
  - eapply sublist_Forall; [apply filter_fmap_sublist | done].
  - eapply sublist_NoDup; [exact H6 | apply filter_fmap_sublist].
  - intros s Hs. apply list_elem_of_In, List.filter_In in Hs as [Hs Hg]. apply list_elem_of_In in Hs.
    apply Hkeep; [by apply H7 | done].
  - eapply sublist_NoDup; [exact H8 | apply filter_fmap_sublist].
  - intros s Hs. apply list_elem_of_In, List.filter_In in Hs as [Hs Hg]. apply list_elem_of_In in Hs.
    apply Hkeep; [by apply H9 | done].
Qed.

Lemma subscribed_spec d i u : is_subscribed d i u = true <-> (i, u) ∈ subscriber_keys (request_subscribers d).
Proof.
  unfold is_subscribed, subscriber_keys. rewrite existsb_exists_iff, list_elem_of_fmap. split.
  - intros (s & Hs & H). exists s. split; [|done]. f_equal; lia.
  - intros (s & [= -> ->] & Hs). exists s. split; [done|]. by rewrite !Z.eqb_refl.
Qed.

Lemma wf_add_subscriber i u now : keeps wf (add_subscriber i u now).
Proof.
  intros d [H1 H2 H3 H4 H5 H6 H7 H8 H9]. unfold add_subscriber.
  destruct (is_subscribed d i u) eqn:Hs; [by split|].
  destruct (mem i _) eqn:Hi; [|by split]. apply mem_true in Hi. split; simpl; try done.
  - unfold subscriber_keys. rewrite fmap_app. simpl. apply NoDup_app. split; [done|]. split.
    + intros k Hk ->%list_elem_of_singleton. apply subscribed_spec in Hk. congruence.
    + apply NoDup_singleton.
  - intros s. rewrite elem_of_app, list_elem_of_singleton. intros [Hin| ->]; [by apply H9 | done].
Qed.

Lemma wf_remove_subscriber i u : keeps wf (remove_subscriber i u).
Proof.
  intros d [H1 H2 H3 H4 H5 H6 H7 H8 H9]. split; simpl; try done.
  - eapply sublist_NoDup; [exact H8 | apply filter_fmap_sublist].
  - intros s Hs. apply list_elem_of_In, List.filter_In in Hs as [Hs _]. apply list_elem_of_In in Hs. by apply H9.
Qed.

(** ** Assertions the writes of these tables keep *)

Class Growing (P : db -> Prop) : Prop := {
  stable_requests_update p values : keeps P (update_requests p values);
  stable_seasons_update p values : keeps P (update_seasons p values);
  stable_insert_request row : (forall i, MediaRequest.id (row i) = i) -> keeps P (insert_request row);
  stable_insert_season row : (forall i, SeasonRequest.id (row i) = i) -> keeps P (insert_season row);
  stable_delete_requests p : keeps P (delete_requests p);
  stable_add_subscriber i u now : keeps P (add_subscriber i u now);
}.

(** Also when subscriptions end. *)
Class Stable (P : db -> Prop) : Prop := {
  stable_growing :: Growing P;
  stable_remove_subscriber i u : keeps P (remove_subscriber i u);
}.

#[export] Hint Resolve stable_requests_update stable_seasons_update stable_insert_request
  stable_insert_season stable_delete_requests stable_add_subscriber stable_remove_subscriber : keeps.

#[export] Instance wf_stable : Stable wf.
Proof.
  constructor; [constructor|]; intros.
  - apply wf_requests_update.
  - apply wf_seasons_update.
  - by apply wf_insert_request.
  - by apply wf_insert_season.
  - apply wf_delete_requests.
  - apply wf_add_subscriber.
  - apply wf_remove_subscriber.
Qed.

Lemma keeps_to_record P s : keeps P (SeasonRepository._to_record s).
Proof. unfold SeasonRepository._to_record, SeasonRepository._tmdb_id_for, get. auto 10 with keeps. Qed.
#[export] Hint Resolve keeps_to_record : keeps.

(** A season that is ensured is at most inserted. *)
Lemma keeps_ensure P i n st er :
  (forall row, (forall j, SeasonRequest.id (row j) = j) -> keeps P (insert_season row)) ->
  keeps P (SeasonRepository.ensure i n st er).
Proof.
  intros HP. unfold SeasonRepository.ensure, SeasonRepository._find. apply keeps_bind; [auto with keeps|].
  intros [s|]; [auto with keeps|]. intros d Hd.
  match goal with |- context [insert_season ?row d] => pose proof (HP row (fun _ => eq_refl) d Hd) as H;
    destruct (insert_season row d) as [[j|e] d'] end; simpl in H.
  - by apply keeps_to_record.
  - revert d' H. change (keeps P (query (fun d => List.find (fun s => SeasonRepository.of_request i s
      && (SeasonRequest.season_number s =? n)%Z) (season_requests d)) ≫= fun winner =>
      match winner with None => db_throw e | Some s => SeasonRepository._to_record s end)). auto 10 with keeps.
Qed.

Section stable.
Context (P : db -> Prop) {HP : Growing P}.

Lemma stable_add_all i now users : keeps P (add_all i now users).
Proof.
  induction users as [|u l IH]; simpl; auto with keeps.
Qed.

#[local] Hint Resolve stable_add_all : keeps.

Lemma stable_write_row i values : keeps P (RequestRepository.write_row i values).
Proof. unfold RequestRepository.write_row, get. auto 10 with keeps. Qed.
Lemma stable_update_one p values : keeps P (RequestRepository.update_one p values).
Proof. unfold RequestRepository.update_one. auto 10 with keeps. Qed.
Lemma stable_season_row i values : keeps P (SeasonRepository.write_row i values).
Proof. unfold SeasonRepository.write_row. auto 10 with keeps. Qed.
Lemma stable_season_one p values : keeps P (SeasonRepository.update_one p values).
Proof. unfold SeasonRepository.update_one. auto 10 with keeps. Qed.

#[local] Hint Resolve stable_write_row stable_update_one stable_season_row stable_season_one : keeps.

Lemma stable_stamp i now : keeps P (stamp_completed_at_if_unset i now).
Proof. unfold stamp_completed_at_if_unset, get. auto 10 with keeps. Qed.
Lemma stable_heal i now : keeps P (heal_completed_at i now).
Proof. unfold heal_completed_at. auto 10 with keeps. Qed.
Lemma stable_create t m title st u de er now : keeps P (create t m title st u de er now).
Proof.
  unfold create, get. apply keeps_bind; [by apply stable_insert_request|]. intros i. auto 10 with keeps.
Qed.

#[local] Hint Resolve stable_stamp stable_heal stable_create : keeps.

Lemma stable_season_get i : keeps P (SeasonRepository.get i).
Proof. unfold SeasonRepository.get. auto 10 with keeps. Qed.

Lemma stable_ensure i n st er : keeps P (SeasonRepository.ensure i n st er).
Proof. apply keeps_ensure. intros row. apply stable_insert_season. Qed.
#[local] Hint Resolve stable_season_get stable_ensure : keeps.

(** *** The season service *)

Context {DB : UnicodeDB}.

Lemma stable_recompute i tol stamp now : keeps P (SeasonService._recompute_parent i tol stamp now).
Proof.
  unfold SeasonService._recompute_parent, SeasonRepository.list_for_request, SeasonRepository._tmdb_id_for, get.
  apply keeps_bind; [apply keeps_bind; [auto with keeps|intros []; auto 10 with keeps]|].
  intros [|x l]; [auto with keeps|]. apply keeps_bind; [auto with keeps|]. intros st.
  assert (keeps P (RequestRepository.set_status i st)) as Hs by (unfold RequestRepository.set_status; auto with keeps).
  auto 10 with keeps.
Qed.
#[local] Hint Resolve stable_recompute : keeps.

Lemma stable_service_cas mi si st from a b c t now :
  keeps P (SeasonService.set_status_if_in mi si st from a b c t now).
Proof. unfold SeasonService.set_status_if_in, SeasonRepository.set_status_if_in. auto 10 with keeps. Qed.

Lemma stable_rearm r st from now : keeps P (SeasonService.rearm r st from now).
Proof.
  unfold SeasonService.rearm, SeasonRepository.set_status_if_in, SeasonRepository.schedule_search.
  auto 10 with keeps.
Qed.
#[local] Hint Resolve stable_service_cas stable_rearm : keeps.

Lemma stable_ensure_season mi n tp er fp now : keeps P (SeasonService.ensure_season mi n tp er fp now).
Proof.
  unfold SeasonService.ensure_season, SeasonService.reread. apply keeps_bind; [auto with keeps|].
  intros r. destruct (SeasonRequest.status _); auto 10 with keeps.
Qed.

Lemma stable_ensure_each mi l tp er fp now : keeps P (SeasonService.ensure_each mi l tp er fp now).
Proof.
  induction l as [|n l IH]; cbn [SeasonService.ensure_each]; [auto with keeps|].
  apply keeps_bind; [apply stable_ensure_season|]. auto with keeps.
Qed.

Lemma stable_ensure_seasons lib mi t l fp pr now : keeps P (SeasonService.ensure_seasons lib mi t l fp pr now).
Proof.
  unfold SeasonService.ensure_seasons, SeasonRepository.evicted_seasons.
  apply keeps_bind; [auto with keeps|]. intros x. apply keeps_bind; [auto with keeps|]. intros ev.
  apply keeps_bind; [apply stable_ensure_each|]. auto 10 with keeps.
Qed.
#[local] Hint Resolve stable_ensure_seasons : keeps.

Lemma kept_to_records l : keeps P (SeasonRepository.to_records l).
Proof. induction l; cbn [SeasonRepository.to_records]; auto 10 with keeps. Qed.

Lemma stable_wake_season md lib now s st : keeps P (SeasonService.wake_season md lib now s st).
Proof.
  assert (forall n st', keeps P (SeasonService.wake_announced lib now n s st')) as Ha.
  { intros n st'. unfold SeasonService.wake_announced, SeasonService.cached_parent, get.
    apply keeps_bind; [destruct (assoc _ _); auto 10 with keeps|]. intros [p st'']. auto 10 with keeps. }
  assert (forall st' : SeasonService.wake_state, keeps P (SeasonRepository.mark_airing_refresh_checked
            (SeasonRequest.id (SeasonRepository.sr_row s)) now ;; mret st')) as Hc
    by (unfold SeasonRepository.mark_airing_refresh_checked; auto with keeps).
  unfold SeasonService.wake_season. apply keeps_if; [done|].
  destruct (assoc _ _) as [[n|]|]; [apply keeps_if; auto with keeps|done|].
  destruct (md _) as [[n|]|e]; [apply keeps_if; auto with keeps|done|]. apply keeps_if; [done|auto with keeps].
Qed.

Lemma stable_wake md lib now n : keeps P (SeasonService.wake_waiting_for_air_date md lib now n).
Proof.
  unfold SeasonService.wake_waiting_for_air_date, SeasonRepository.list_for_airing_refresh.
  apply keeps_bind; [apply keeps_bind; [auto with keeps|intros l; apply kept_to_records]|].
  intros l. generalize ({| SeasonService.woken := 0; SeasonService.show_season_count := [];
    SeasonService.errored_shows := []; SeasonService.parents := [] |}).
  induction l as [|s l IH]; intros st; cbn [SeasonService.wake_each]; [auto with keeps|].
  apply keeps_bind; [apply stable_wake_season | done].
Qed.

(** The methods that write, but for the removal of a subscriber. *)
Inductive method : forall A, DBM A -> Prop :=
  | m_create t m title st u de er now : method _ (create t m title st u de er now)
  | m_delete i : method _ (delete i)
  | m_collapse i u : method _ (delete_false_available_sibling_collapse i u)
  | m_add_subscriber i u now : method _ (add_subscriber i u now)
  | m_copy_subscribers i j now : method _ (copy_subscribers i j now)
  | m_row i values : method _ (RequestRepository.write_row i values)
  | m_clear_path_if i p l r now : method _ (RequestRepository.clear_library_path_if_set i p l r now)
  | m_confirm i p k : method _ (RequestRepository.confirm_partial_delete_marker i p k)
  | m_verified i now : method _ (mark_heal_verified_present i now)
  | m_rearm_false i : method _ (rearm_false_available_to_pending i)
  | m_intent i mode s e : method _ (set_tv_request_intent i mode s e)
  | m_cas i st from a b : method _ (RequestRepository.set_status_if_in i st from a b)
  | m_completed i now : method _ (RequestRepository.mark_completed i now)
  | m_available i g now : method _ (RequestRepository.mark_available i g now)
  | m_claim i u : method _ (claim_if_unowned i u)
  | m_stamp i now : method _ (stamp_completed_at_if_unset i now)
  | m_heal i now : method _ (heal_completed_at i now)
  | m_pin_title t m k u : method _ (set_keep_forever_for_title t m k u)
  | m_season_row i values : method _ (SeasonRepository.write_row i values)
  | m_season_clear i p l : method _ (SeasonRepository.clear_library_path_if_set i p l)
  | m_season_confirm i p : method _ (SeasonRepository.confirm_partial_delete_marker i p)
  | m_season_ensure i n st er : method _ (SeasonRepository.ensure i n st er)
  | m_ensure_seasons lib i t l f p now : method _ (SeasonService.ensure_seasons lib i t l f p now)
  | m_wake md lib now n : method _ (SeasonService.wake_waiting_for_air_date md lib now n)
  | m_season_status i n st sk now : method _ (SeasonService.set_status i n st sk now)
  | m_season_cas i s st from a b c t now : method _ (SeasonService.set_status_if_in i s st from a b c t now)
  | m_season_completed i n now : method _ (SeasonService.mark_completed i n now)
  | m_season_completed_if i n from a now : method _ (SeasonService.mark_completed_if_in i n from a now)
  | m_season_available i n g now : method _ (SeasonService.mark_available i n g now)
  | m_season_research i n c now : method _ (SeasonService.reset_for_research i n c now)
  | m_season_parked i n a now : method _ (SeasonService.mark_no_acceptable_release i n a now).

Lemma stable_method A (m : DBM A) : method A m -> keeps P m.
Proof.
  intros [].
  all: try solve [auto with keeps].
  all: try solve [unfold delete, delete_false_available_sibling_collapse, get; auto 10 with keeps].
  all: try solve [unfold copy_subscribers; auto 10 with keeps].
  all: try solve [unfold set_tv_request_intent, get; apply keeps_bind; [auto with keeps|];
                  intros [r|]; auto 10 with keeps].
  all: try solve [unfold RequestRepository.clear_library_path_if_set, RequestRepository.confirm_partial_delete_marker,
                    mark_heal_verified_present, rearm_false_available_to_pending, RequestRepository.set_status_if_in,
                    RequestRepository.mark_completed, claim_if_unowned, RequestRepository.mark_available,
                    set_keep_forever_for_title; auto 10 with keeps].
  all: try solve [unfold SeasonRepository.clear_library_path_if_set, SeasonRepository.confirm_partial_delete_marker;
                  auto 10 with keeps].
  all: try solve [apply stable_wake].
  all: unfold SeasonService.set_status, SeasonService.mark_completed, SeasonService.mark_completed_if_in,
         SeasonService.mark_available, SeasonService.reset_for_research, SeasonService.mark_no_acceptable_release,
         SeasonRepository.set_status, SeasonRepository.mark_completed, SeasonRepository.set_status,
         SeasonRepository.set_status_if_in, SeasonRepository.mark_available, SeasonRepository.schedule_search,
         SeasonRepository.clear_library_path, SeasonRepository.clear_eviction_regrab.
  all: apply keeps_bind; [auto with keeps|]; intros r; auto 20 with keeps.
Qed.

End stable.

#[export] Hint Resolve wf_stable stable_growing stable_add_all stable_write_row stable_update_one stable_season_row
  stable_season_one stable_stamp stable_heal stable_create stable_season_get stable_ensure
  stable_recompute stable_ensure_seasons : keeps.

(** *** Every reachable database *)

Section reachable.
Context {DB : UnicodeDB}.

(** A method, whether it returns or raises, or a writer of other tables. *)
Inductive step (d : db) : db -> Prop :=
  | step_method A (m : DBM A) : method A m -> step d (m d).2
  | step_leave i u : step d (remove_subscriber i u d).2
  | step_other d' :
      media_requests d' = media_requests d -> season_requests d' = season_requests d ->
      request_subscribers d' = request_subscribers d ->
      next_request_id d' = next_request_id d -> next_season_id d' = next_season_id d -> step d d'.

Definition empty_db : db :=
  {| media_requests := []; season_requests := []; request_subscribers := []; watchlist_items := [];
     downloads := []; download_scopes := []; coverage_claims := []; episode_states := []; download_history := [];
     next_request_id := 1; next_season_id := 1; next_download_id := 1; next_scope_id := 1; next_claim_id := 1;
     next_episode_id := 1 |}.

Lemma wf_empty : wf empty_db.
Proof. split; simpl; try constructor; intros ? ?%elem_of_nil; done. Qed.

Lemma reachable_wf d : rtc step empty_db d -> wf d.
Proof.
  intros H. cut (wf empty_db -> wf d); [intros Hc; apply Hc, wf_empty|].
  induction H as [|d1 d2 d3 Hs _ IH]; [done|]. intros Hd. apply IH. destruct Hs as [A m Hm|i u|d' E1 E2 E3 E4 E5];
    [by apply (stable_method wf A m)|by apply wf_remove_subscriber|].
  destruct Hd. split; by rewrite ?E1, ?E2, ?E3, ?E4, ?E5.
Qed.

End reachable.

(** ** Conditional updates *)

(** The row of a key. *)
Definition row_of (d : db) (i : Z) : option MediaRequest.t := List.find (has_id i) (media_requests d).

(** The database with the columns of one row assigned. *)
Definition set_row (i : Z) (values : list MediaRequest.column_value) (d : db) : db :=
  with_requests (rewritten (has_id i) (MediaRequest.assign_all values) (media_requests d)) d.

Lemma with_requests_same d : with_requests (media_requests d) d = d.
Proof. by destruct d. Qed.

(** [UPDATE ... WHERE id = i AND q]. *)
Lemma update_one_spec d i q values : wf d ->
  RequestRepository.update_one (fun r => has_id i r && q r) values d =
  match row_of d i with
  | Some r =>
      if q r then
        if bool_decide (NoDup (active_keys (media_requests (set_row i values d)))) then (Ok true, set_row i values d)
        else (Raise IntegrityError, d)
      else (Ok false, d)
  | None => (Ok false, d)
  end.
Proof.
  intros Hw. pose proof (filter_key MediaRequest.id (media_requests d) i q (wf_ids d Hw)) as Hf.
  unfold RequestRepository.update_one, update_requests, row_of, has_id, matching in *. unfold mbind, DBM_bind.
  rewrite Hf. destruct (List.find _ _) as [r|] eqn:Hr; [destruct (q r) eqn:Hq|].
  - rewrite (rewritten_some MediaRequest.id _ _ _ i).
    + unfold set_row, has_id. by destruct (bool_decide _).
    + intros r' H. apply andb_prop in H as [H _]. lia.
    + by rewrite Hf.
    + apply Hw.
  - rewrite rewritten_none by done. rewrite bool_decide_true by apply Hw. by rewrite with_requests_same.
  - rewrite rewritten_none by done. rewrite bool_decide_true by apply Hw. by rewrite with_requests_same.
Qed.

Lemma row_of_set_row d i values j :
  row_of (set_row i values d) j =
  (if (i =? j)%Z then MediaRequest.assign_all values else id) <$> row_of d j.
Proof.
  unfold row_of, set_row, has_id, rewritten. simpl. induction (media_requests d) as [|r t IH]; simpl; [by destruct (i =? j)%Z|].
  destruct (Z.eqb_spec (MediaRequest.id r) i) as [Hi|Hi]; simpl.
  - rewrite assign_all_id. destruct (Z.eqb_spec (MediaRequest.id r) j) as [Hj|Hj]; [|done].
    simpl. by replace (i =? j)%Z with true by lia.
  - destruct (Z.eqb_spec (MediaRequest.id r) j) as [Hj|Hj]; [|done]. simpl.
    by replace (i =? j)%Z with false by lia.
Qed.

(** Moving a row out of the active statuses keeps the dedup index. *)
Lemma active_after d i st : wf d -> mem st active_statuses = false ->
  NoDup (active_keys (media_requests (set_row i [MediaRequest.set_status st] d))).
Proof.
  intros Hw Hst. eapply sublist_NoDup; [apply Hw|]. unfold set_row, active_keys, rewritten. cbn [media_requests with_requests].
  assert (forall r, is_active (MediaRequest.assign_all [MediaRequest.set_status st] r) = false) as Hf
    by (intros []; exact Hst).
  revert Hf. generalize (MediaRequest.assign_all [MediaRequest.set_status st]). intros f Hf.
  induction (media_requests d) as [|r t IH]; simpl; [constructor|].
  destruct (has_id i r); [rewrite Hf|]; destruct (is_active r); simpl; solve [done | by constructor].
Qed.
