(* ===== verification/RequestFacts.v ===== *)
(** * What the request tables promise

    The schema in every reachable database; the eviction claim and its
    exclusion; the completion generation; pages of the history; the guard
    against trusting a stale library; the fold of a show's seasons. *)

From Stdlib Require Import ZArith Lia Bool String Sorted.
From S2P Require Import Prelude PyStr PyInt SeasonRollup RequestStore RequestRepository RequestLaws.
From S2P Require SeasonRepository SeasonService.

#[local] Open Scope bool_scope.

(** ** The schema *)

Section schema.
Context {DB : UnicodeDB}.

(** In every database the methods of the two repositories and of the season
    service can reach, from an empty one and whatever writes the other tables:
    two requests of one title are never both active, a season of a request has
    one row, and every season belongs to a request that exists. *)
Theorem schema_holds_in_every_database d : rtc step empty_db d ->
  (forall r r', r ∈ media_requests d -> r' ∈ media_requests d -> is_active r = true -> is_active r' = true ->
     MediaRequest.tmdb_id r = MediaRequest.tmdb_id r' -> MediaRequest.media_type r = MediaRequest.media_type r' ->
     r = r') /\
  (forall s s', s ∈ season_requests d -> s' ∈ season_requests d ->
     SeasonRequest.media_request_id s = SeasonRequest.media_request_id s' ->
     SeasonRequest.season_number s = SeasonRequest.season_number s' -> s = s') /\
  (forall s, s ∈ season_requests d -> exists r, r ∈ media_requests d /\
     MediaRequest.id r = SeasonRequest.media_request_id s).
Proof.
  intros Hd%reachable_wf. split; [|split].
  - intros r r' Hr Hr' Ha Ha' Ht Hm.
    eapply (NoDup_fmap_inj _ _ _ _ (wf_active d Hd)); [| |by rewrite Ht, Hm];
      apply list_elem_of_In, List.filter_In; (split; [by apply list_elem_of_In | done]).
  - intros s s' Hs Hs' Hm Hn. eapply (NoDup_fmap_inj _ _ _ _ (wf_seasons d Hd)); [done|done|]. by rewrite Hm, Hn.
  - intros s Hs. apply (wf_parents d Hd) in Hs. apply list_elem_of_fmap in Hs as (r & -> & Hr). eauto.
Qed.

End schema.

(** ** The claim *)

Lemma row_of_Some d i r : row_of d i = Some r -> r ∈ media_requests d /\ MediaRequest.id r = i.
Proof.
  intros H. apply List.find_some in H as [H Hi]. split; [by apply list_elem_of_In|]. unfold has_id in Hi. lia.
Qed.

Lemma may_move_split d i from a b r :
  may_move d i from a b r = has_id i r && (RequestRepository.in_statuses from r && (negb a || negb (MediaRequest.keep_forever r))
    && (negb b || negb (watchlisted d (MediaRequest.tmdb_id r) (MediaRequest.media_type r)))).
Proof. unfold may_move. by rewrite !andb_assoc. Qed.

Lemma update_one_ext p q values d : (forall r, p r = q r) ->
  RequestRepository.update_one p values d = RequestRepository.update_one q values d.
Proof.
  intros H. unfold RequestRepository.update_one, update_requests, mbind, DBM_bind, matching.
  assert (List.filter p (media_requests d) = List.filter q (media_requests d)) as -> by (by apply List.filter_ext).
  assert (rewritten p (MediaRequest.assign_all values) (media_requests d)
          = rewritten q (MediaRequest.assign_all values) (media_requests d)) as ->; [|done].
  apply list_fmap_ext. intros k r _. by rewrite H.
Qed.

Lemma cas_spec d i st from a b : wf d ->
  RequestRepository.set_status_if_in i st from a b d =
  match row_of d i with
  | Some r =>
      if may_move d i from a b r then
        if bool_decide (NoDup (active_keys (media_requests (set_row i [MediaRequest.set_status st] d))))
        then (Ok true, set_row i [MediaRequest.set_status st] d) else (Raise IntegrityError, d)
      else (Ok false, d)
  | None => (Ok false, d)
  end.
Proof.
  intros Hw. unfold RequestRepository.set_status_if_in, reading.
  rewrite (update_one_ext _ _ _ _ (may_move_split d i from a b)), update_one_spec by done.
  destruct (row_of d i) as [r|] eqn:Hr; [|done]. rewrite may_move_split.
  apply row_of_Some in Hr as [_ Hi]. assert (has_id i r = true) as -> by (unfold has_id; lia). done.
Qed.

Lemma wf_cas d i st from a b : wf d -> wf (RequestRepository.set_status_if_in i st from a b d).2.
Proof. intros Hw. unfold RequestRepository.set_status_if_in. apply keeps_reading; auto with keeps. Qed.

(** The eviction claim of a movie never raises.  It returns [True] exactly
    when the row is available, not pinned and on nobody's watchlist at that
    moment, and then moves that row to [evicted] and changes nothing else;
    otherwise it changes nothing.  A second claim of the same row fails. *)
Theorem claim_takes_only_free_titles d i : wf d ->
  let claim := RequestRepository.set_status_if_in i evicted [available] true true in
  let free := match row_of d i with
              | Some r => bool_decide (MediaRequest.status r = available) && negb (MediaRequest.keep_forever r)
                          && negb (watchlisted d (MediaRequest.tmdb_id r) (MediaRequest.media_type r))
              | None => false
              end in
  claim d = (Ok free, if free then set_row i [MediaRequest.set_status evicted] d else d) /\
  (free = true -> claim (claim d).2 = (Ok false, (claim d).2)).
Proof.
  intros Hw claim free. assert (claim d = (Ok free, if free then set_row i [MediaRequest.set_status evicted] d else d)) as Hc.
  { unfold claim. rewrite cas_spec by done. subst free. destruct (row_of d i) as [r|] eqn:Hr; [|done].
    apply row_of_Some in Hr as [_ Hi]. rewrite may_move_split.
    assert (has_id i r = true) as -> by (unfold has_id; lia). unfold RequestRepository.in_statuses, mem. simpl.
    rewrite (bool_decide_ext (_ ∈ _) (MediaRequest.status r = available)) by apply list_elem_of_singleton.
    destruct (bool_decide (MediaRequest.status r = available) && _ && _); [|done].
    by rewrite bool_decide_true by by apply active_after. }
  split; [done|]. intros Hf. rewrite Hc, Hf. simpl.
  pose proof (wf_cas d i evicted [available] true true Hw) as Hw'. fold claim in Hw'. rewrite Hc, Hf in Hw'. simpl in Hw'.
  unfold claim. rewrite cas_spec by done. rewrite row_of_set_row, Z.eqb_refl.
  destruct (row_of d i) as [r|] eqn:Hr; [|done]. simpl. rewrite may_move_split.
  assert (RequestRepository.in_statuses [available] (MediaRequest.assign_all [MediaRequest.set_status evicted] r) = false) as Hn
    by (by destruct r).
  cbn [MediaRequest.assign_all foldl] in *. rewrite Hn. by rewrite andb_false_r.
Qed.

(** ** Generations *)

Definition generation_of (d : db) (i : Z) : option Z := row_of d i ≫= MediaRequest.completion_generation.

(** An availability check that read the row before its latest import cannot
    promote it: once an import has completed, promoting with the generation of
    before fails and changes nothing. *)
Theorem stale_check_cannot_promote d i now d1 later : wf d ->
  RequestRepository.mark_completed i now d = (Ok tt, d1) ->
  RequestRepository.mark_available i (generation_of d i) later d1 = (Ok false, d1).
Proof.
  intros Hw Hm. assert (wf d1) as Hw1.
  { assert (keeps wf (RequestRepository.mark_completed i now)) as H
      by (unfold RequestRepository.mark_completed; auto 10 with keeps).
    specialize (H d Hw). by rewrite Hm in H. }
  pose proof (update_one_spec d i (fun _ => true) [MediaRequest.set_status completed;
    MediaRequest.set_completed_at (Some now); MediaRequest.next_generation] Hw) as Hu.
  rewrite (update_one_ext _ (has_id i)) in Hu by (intros; apply andb_true_r).
  unfold RequestRepository.update_one, RequestRepository.mark_completed in *. unfold mbind, DBM_bind in *.
  destruct (update_requests _ _ d) as [[n|e] d2]; [|done].
  destruct (n =? 1)%Z; [|done]. injection Hm as <-.
  unfold generation_of. destruct (row_of d i) as [r|] eqn:Hr; [|done].
  destruct (bool_decide _) in Hu; [|done]. injection Hu as ->.
  unfold RequestRepository.mark_available, mbind, DBM_bind.
  rewrite (update_one_ext _ (fun r' => has_id i r' && (RequestRepository.in_statuses [completed; available] r'
    && bool_decide (MediaRequest.completion_generation r' = MediaRequest.completion_generation r))))
    by (intros; by rewrite andb_assoc).
  rewrite update_one_spec by done. rewrite row_of_set_row, Z.eqb_refl, Hr. simpl.
  rewrite (bool_decide_false (MediaRequest.completion_generation _ = _)); [by rewrite andb_false_r|].
  destruct r as [? ? ? ? ? ? ? ? [g|]]; cbn; [intros [= ?]; lia | done].
Qed.

(** ** Pages of the history *)

Lemma filter_below_last (l p q : list MediaRequest.t) r : StronglySorted Z.lt (MediaRequest.id <$> reverse l) ->
  l = p ++ r :: q -> List.filter (fun x => (MediaRequest.id x <? MediaRequest.id r)%Z) l = q.
Proof.
  intros Hs ->. rewrite List.filter_app. simpl. rewrite Z.ltb_irrefl.
  rewrite reverse_app, reverse_cons, !fmap_app in Hs.
  change (MediaRequest.id <$> [r]) with [MediaRequest.id r] in Hs.
  assert (forall x y, x ∈ p -> y = r \/ y ∈ q -> (MediaRequest.id y < MediaRequest.id x)%Z) as Hp.
  { intros x y Hx Hy. clear -Hs Hx Hy. assert (MediaRequest.id x ∈ MediaRequest.id <$> reverse p) as Hx'.
    { apply list_elem_of_fmap. exists x. split; [done|]. by apply elem_of_reverse. }
    assert (MediaRequest.id y ∈ (MediaRequest.id <$> reverse q) ++ [MediaRequest.id r]) as Hy'.
    { apply elem_of_app. destruct Hy as [->|Hy]; [right; by apply list_elem_of_singleton|left].
      apply list_elem_of_fmap. exists y. split; [done|]. by apply elem_of_reverse. }
    revert Hs Hx' Hy'. generalize (MediaRequest.id <$> reverse p) as b.
    generalize ((MediaRequest.id <$> reverse q) ++ [MediaRequest.id r]) as a. intros a b Hs Hb Ha.
    induction a as [|z a IH]; [by apply elem_of_nil in Ha|]. simpl in Hs.
    apply StronglySorted_inv in Hs as [Hs Hall]. apply elem_of_cons in Ha as [->|Ha]; [|by apply IH].
    rewrite Forall_forall in Hall. apply Hall, elem_of_app. by right. }
  assert (forall y, y ∈ q -> (MediaRequest.id y < MediaRequest.id r)%Z) as Hq.
  { intros y Hy. assert (MediaRequest.id y ∈ MediaRequest.id <$> reverse q) as Hy'
      by (apply list_elem_of_fmap; exists y; split; [done | by apply elem_of_reverse]).
    revert Hs Hy'. generalize (MediaRequest.id <$> reverse q) as a. intros a Hs Ha.
    induction a as [|z a IH]; [by apply elem_of_nil in Ha|]. simpl in Hs.
    apply StronglySorted_inv in Hs as [Hs Hall]. apply elem_of_cons in Ha as [->|Ha]; [|by apply IH].
    rewrite Forall_forall in Hall. apply Hall, elem_of_app. left. apply elem_of_app. right. left. }
  assert (List.filter (fun x => (MediaRequest.id x <? MediaRequest.id r)%Z) p = []) as ->.
  { clear Hs Hq. induction p as [|x p IH]; simpl; [done|].
    assert (MediaRequest.id r < MediaRequest.id x)%Z by (apply Hp; [left|by left]).
    replace (MediaRequest.id x <? MediaRequest.id r)%Z with false by lia.
    apply IH. intros y z Hy. apply Hp. by right. }
  simpl. clear Hs Hp. induction q as [|y q IH]; simpl; [done|].
  assert (MediaRequest.id y < MediaRequest.id r)%Z by (apply Hq; left).
  replace (MediaRequest.id y <? MediaRequest.id r)%Z with true by lia. f_equal.
  apply IH. intros z Hz. apply Hq. by right.
Qed.

(** The requests the user may see below a key, newest first. *)
Definition history (d : db) (u b : option Z) : list MediaRequest.t :=
  reverse (select (fun r => visible_to d u r &&
    match b with Some k => (MediaRequest.id r <? k)%Z | None => true end) (media_requests d)).

Lemma page_of_history d u b n : _page_stmt d u b n = take n (history d u b).
Proof. done. Qed.

Lemma history_below d u b p r q : wf d -> history d u b = p ++ r :: q ->
  history d u (Some (MediaRequest.id r)) = q.
Proof.
  intros Hw Hl.
  assert (StronglySorted Z.lt (MediaRequest.id <$> reverse (history d u b))) as Hs.
  { unfold history. rewrite reverse_involutive. eapply sorted_sublist; [apply filter_fmap_sublist | apply Hw]. }
  rewrite <- (filter_below_last _ p q r Hs Hl). unfold history, select. rewrite filter_reverse, filter_filter.
  f_equal. apply List.filter_ext_in. intros x _. destruct (visible_to d u x); [|done]. simpl.
  assert (match b with Some k => (MediaRequest.id r <? k)%Z | None => true end = true) as Hr.
  { assert (In r (history d u b)) as Hin by (rewrite Hl; apply List.in_or_app; right; by left).
    unfold history in Hin. rewrite <- list_elem_of_In, elem_of_reverse, list_elem_of_In in Hin.
    apply List.filter_In in Hin as [_ Hin]. by apply andb_prop in Hin as [_ Hin]. }
  destruct b as [k|]; [|done]. apply Z.ltb_lt in Hr.
  destruct (Z.ltb_spec (MediaRequest.id x) (MediaRequest.id r)); [|by rewrite andb_false_r].
  rewrite andb_true_r. symmetry. apply Z.ltb_lt. lia.
Qed.

(** Reading the history page by page, each page asked for with the key of
    the last row of the one before, shows every request the user may see exactly
    once, newest first: a page and its successor are together the longer page,
    and a page that is not full is the last. *)
Theorem pages_continue d u b n m r : wf d -> last (_page_stmt d u b n) = Some r ->
  _page_stmt d u b n ++ _page_stmt d u (Some (MediaRequest.id r)) m = _page_stmt d u b (n + m) /\
  ((length (_page_stmt d u b n) < n)%nat -> _page_stmt d u (Some (MediaRequest.id r)) m = []).
Proof.
  rewrite !page_of_history. intros Hw Hl. apply last_Some in Hl as [p Hp].
  assert (history d u b = p ++ r :: drop n (history d u b)) as Hsplit.
  { pose proof (take_drop n (history d u b)) as H. rewrite Hp, <- app_assoc in H. by symmetry. }
  rewrite (history_below d u b p r _ Hw Hsplit). split; [by rewrite take_take_drop|].
  intros Hlen. rewrite length_take in Hlen. rewrite drop_ge by lia. by destruct m.
Qed.

(** ** The guard against a stale library *)

Definition guard (d : db) (tmdb_id : Z) (media_type : MediaType) : bool :=
  match (latest_request_evicted tmdb_id media_type d).1 with Ok x => x | Raise _ => false end.

Lemma guard_rows d d' t m :
  select (fun r => of_title t m r && truth_bearing r) (media_requests d') =
  select (fun r => of_title t m r && truth_bearing r) (media_requests d) -> guard d' t m = guard d t m.
Proof. unfold guard, latest_request_evicted, query. simpl. by intros ->. Qed.

Lemma rewritten_same p i (f : MediaRequest.t -> MediaRequest.t) t :
  (forall r, has_id i r = true -> r ∈ t -> p r = false /\ p (f r) = false) ->
  select p (rewritten (has_id i) f t) = select p t.
Proof.
  intros H. unfold select. induction t as [|r t IH]; [done|].
  assert (List.filter p (rewritten (has_id i) f t) = List.filter p t) as E
    by (apply IH; intros r' Hi Hr'; apply H; [done | by right]).
  unfold rewritten in *. cbn. destruct (has_id i r) eqn:Hi.
  - destruct (H r Hi) as [E1 E2]; [by left|]. by rewrite E1, E2.
  - destruct (p r); [by f_equal | done].
Qed.

(** A title whose file was evicted stays untrusted across a new request for
    it: neither the new pending row nor its cancellation makes the library's
    stale copy count again. *)
Theorem regrab_cannot_reset_the_guard d t m title u de er now d1 r d2 t' m' : wf d ->
  create t m title pending u de er now d = (Ok (Some r), d1) ->
  RequestRepository.set_status (MediaRequest.id r) cancelled d1 = (Ok tt, d2) ->
  guard d1 t' m' = guard d t' m' /\ guard d2 t' m' = guard d t' m'.
Proof.
  intros Hw Hc Hs.
  assert (exists r0, media_requests d1 = media_requests d ++ [r0] /\ MediaRequest.id r0 = next_request_id d /\
          MediaRequest.status r0 = pending /\ MediaRequest.library_removed_at r0 = None /\ r = r0) as
    (r0 & Hr0 & Hi0 & Hp0 & Hn0 & ->).
  { revert Hc. unfold create, insert_request, get, mbind, DBM_bind.
    destruct (bool_decide _); [|done].
    assert (forall x (d' : db), List.find (has_id (next_request_id d)) (media_requests d ++ [x]) = Some r ->
      MediaRequest.id x = next_request_id d -> r = x) as Hf.
    { intros x d' Hf Hx. apply List.find_some in Hf as [Hin Hid]. unfold has_id in Hid.
      apply List.in_app_iff in Hin as [Hin|[->|[]]]; [|done]. exfalso.
      pose proof (wf_id_seq d Hw) as Hseq. rewrite Forall_forall in Hseq. apply list_elem_of_In in Hin.
      specialize (Hseq (MediaRequest.id r)). assert (MediaRequest.id r < next_request_id d)%Z; [|lia].
      apply Hseq, list_elem_of_fmap. eauto. }
    destruct u as [u|].
    - unfold add_subscriber. destruct (is_subscribed _ _ _); [|destruct (mem _ _); [|done]];
        cbn; intros [= Hfind <-]; eexists; (split; [reflexivity|]); split_and!; try reflexivity; by eapply Hf in Hfind.
    - cbn. intros [= Hfind <-]. eexists. split; [reflexivity|]. split_and!; try reflexivity. by eapply Hf in Hfind. }
  assert (guard d1 t' m' = guard d t' m') as H1.
  { apply guard_rows. rewrite Hr0. unfold select. rewrite List.filter_app. simpl.
    unfold truth_bearing at 2, RequestRepository.in_statuses. rewrite Hp0, Hn0. simpl. by rewrite andb_false_r, app_nil_r. }
  split; [done|]. rewrite <- H1. apply guard_rows.
  revert Hs. unfold RequestRepository.set_status, RequestRepository.write_row, get, update_requests, mbind, DBM_bind. cbn.
  destruct (List.find _ (media_requests d1)); [|done]. destruct (bool_decide _); [|done]. intros [= <-]. cbn.
  apply rewritten_same. intros r Hid Hr.
  assert (r = r0) as ->.
  { rewrite Hr0 in Hr. apply elem_of_app in Hr as [Hr|Hr]; [|by apply list_elem_of_singleton in Hr].
    exfalso. unfold has_id in Hid. pose proof (wf_id_seq d Hw) as Hseq. rewrite Forall_forall in Hseq.
    specialize (Hseq (MediaRequest.id r)). assert (MediaRequest.id r < next_request_id d)%Z; [|lia].
    apply Hseq, list_elem_of_fmap. eauto. }
  unfold truth_bearing, RequestRepository.in_statuses. rewrite Hp0, Hn0. simpl. rewrite andb_false_r. split; [done|].
  destruct r0. cbn in *. rewrite Hn0. by rewrite andb_false_r.
Qed.

(** ** The status of a show *)

Section rollup.
Context {DB : UnicodeDB}.

(** The statuses of a request's seasons, by season number. *)
Definition statuses_now (d : db) (i : Z) : list RequestStatus :=
  SeasonRequest.status <$> SeasonRepository.seasons_of d i.

(** A request with seasons carries the fold of their statuses. *)
Definition rolled_up (d : db) (i : Z) : Prop :=
  statuses_now d i <> [] ->
  exists r, row_of d i = Some r /\ SeasonService.rollup (statuses_now d i) = Ok (MediaRequest.status r).

Lemma stamp_keeps_status i now d u d' : wf d -> stamp_completed_at_if_unset i now d = (Ok u, d') ->
  season_requests d' = season_requests d /\
  forall j, MediaRequest.status <$> row_of d' j = MediaRequest.status <$> row_of d j.
Proof.
  intros Hw. unfold stamp_completed_at_if_unset, update_requests, get, query, mbind, DBM_bind.
  destruct (bool_decide _); [|done].
  assert (forall j, MediaRequest.status <$> row_of (with_requests (rewritten
    (fun r => has_id i r && is_null (MediaRequest.completed_at r))
    (MediaRequest.assign_all [MediaRequest.set_completed_at (Some now)]) (media_requests d)) d) j
    = MediaRequest.status <$> row_of d j) as H.
  { intros j. unfold row_of, rewritten. simpl. induction (media_requests d) as [|r t IH]; [done|]. simpl.
    destruct (has_id i r && is_null _); simpl.
    - assert (has_id j (MediaRequest.assign r (MediaRequest.set_completed_at (Some now))) = has_id j r) as ->
        by (by destruct r). destruct (has_id j r); [by destruct r | done].
    - destruct (has_id j r); [done|]. done. }
  destruct (_ =? 0)%Z; cbn; [destruct (List.find _ _)|]; intros [= <- <-]; done.
Qed.

Lemma recompute_rolls_up i stamp now d u d' : wf d ->
  SeasonService._recompute_parent i false stamp now d = (Ok u, d') ->
  season_requests d' = season_requests d /\ rolled_up d' i.
Proof.
  intros Hw. unfold SeasonService._recompute_parent, SeasonRepository.list_for_request, mbind, DBM_bind, query.
  assert (forall d', season_requests d' = season_requests d -> statuses_now d' i = statuses_now d i) as Hsame
    by (intros d1 E; unfold statuses_now, SeasonRepository.seasons_of; by rewrite E).
  destruct (SeasonRepository.seasons_of d i) as [|s l] eqn:Hl.
  { cbn. intros [= <- <-]. split; [done|]. unfold rolled_up, statuses_now. by rewrite Hl. }
  unfold SeasonRepository._tmdb_id_for, get, query, mbind, DBM_bind. cbn [fst snd].
  destruct (List.find (has_id i) (media_requests d)) as [r|] eqn:Hr; [|done].
  cbn [fmap list_fmap mret DBM_ret lift_res].
  assert (SeasonService.statuses_of ((fun s => {| SeasonRepository.sr_row := s;
     SeasonRepository.sr_tmdb_id := MediaRequest.tmdb_id r |}) <$> (s :: l)) = statuses_now d i) as Hst.
  { unfold statuses_now, SeasonService.statuses_of. rewrite Hl, <- list_fmap_compose. done. }
  cbn [fmap list_fmap] in Hst. rewrite Hst.
  destruct (SeasonService.rollup (statuses_now d i)) as [st|e] eqn:Hroll; [|done]. cbn [negb].
  unfold RequestRepository.set_status, RequestRepository.write_row, get, query, mbind, DBM_bind. rewrite Hr. cbn [fst snd].
  unfold update_requests. destruct (bool_decide _) eqn:Hu; [|done].
  set (d1 := with_requests _ d).
  assert (row_of d1 i = Some (MediaRequest.assign_all [MediaRequest.set_status st] r)) as Hr1.
  { change d1 with (set_row i [MediaRequest.set_status st] d). rewrite row_of_set_row, Z.eqb_refl.
    unfold row_of. by rewrite Hr. }
  assert (wf d1) as Hw1.
  { pose proof (wf_requests_update (has_id i) [MediaRequest.set_status st] d Hw) as H.
    unfold update_requests in H. by rewrite Hu in H. }
  cbn [mret DBM_ret]. intros Hrest.
  assert (season_requests d' = season_requests d1 /\
    (MediaRequest.status <$> row_of d' i = MediaRequest.status <$> row_of d1 i)) as [Hs' Hstat].
  { destruct (stamp && _) in Hrest; [|by injection Hrest as <- <-].
    destruct (stamp_keeps_status _ _ _ _ _ Hw1 Hrest) as [? H]. split; [done | apply H]. }
  split; [by rewrite Hs'|]. intros _. rewrite Hsame by (by rewrite Hs').
  rewrite Hr1 in Hstat. simpl in Hstat. destruct (row_of d' i) as [r'|]; [|done]. injection Hstat as Hstat.
  exists r'. split; [done|]. rewrite Hroll, Hstat. by destruct r.
Qed.

(** The transitions of a season, each with what it returns when it moved. *)
Inductive transition (i : Z) : forall A, DBM A -> (A -> bool) -> Prop :=
  | tr_set_status n st now : transition i _ (SeasonService.set_status i n st false now) (fun _ => true)
  | tr_set_status_if_in s st from a b c now :
      transition i _ (SeasonService.set_status_if_in i s st from a b c false now) id
  | tr_mark_completed n now : transition i _ (SeasonService.mark_completed i n now) (fun _ => true)
  | tr_mark_completed_if_in n from a now : transition i _ (SeasonService.mark_completed_if_in i n from a now) id
  | tr_mark_available n g now : transition i _ (SeasonService.mark_available i n g now) id
  | tr_reset n c now : transition i _ (SeasonService.reset_for_research i n c now) (fun _ => true)
  | tr_park n a now : transition i _ (SeasonService.mark_no_acceptable_release i n a now) id
  | tr_ensure lib t l f p now : transition i _ (SeasonService.ensure_seasons lib i t l f p now) (fun _ => true).

Lemma guarded_rolls_up (b : bool) i stamp now d x d' : wf d ->
  ((if b then SeasonService._recompute_parent i false stamp now else mret tt) ;; mret b) d = (Ok x, d') ->
  x = true -> rolled_up d' i.
Proof.
  intros Hw H Hx. apply bind_result in H as (u & d1 & H1 & [= <- <-]). subst b.
  by apply recompute_rolls_up in H1 as [_ H1].
Qed.


End rollup.

(** ** The intent of a show request *)

Lemma episode_items_json {DB : UnicodeDB} (m : list (Z * list Z)) :
  Forall (fun x => (length (str_of_N (Z.abs_N x.1)) <= max_str_digits)%nat) m ->
  episode_items ((fun '(season, episodes) => (str_of_int season, sorted_set episodes)) <$> m)
  = Ok ((fun '(season, episodes) => (season, sorted_set (sorted_set episodes))) <$> m).
Proof.
  induction 1 as [|[n l] m Hn _ IH]; [done|]. cbn [fmap list_fmap episode_items].
  unfold season_key. rewrite int_of_str_of_int by exact Hn. cbn [mbind res_bind]. cbn [fmap list_fmap] in IH.
  by rewrite IH.
Qed.

(** The episodes asked for are read back as they were written: every season
    with its episode numbers, each once and in order, and no other season. *)
Theorem requested_episodes_round_trip {DB : UnicodeDB} (m : list (Z * list Z)) : NoDup m.*1 ->
  Forall (fun x => (length (str_of_N (Z.abs_N x.1)) <= max_str_digits)%nat) m ->
  exists g, _episode_map (_episode_json (Some m)) = Ok (Some g) /\
    (forall n l, (n, l) ∈ m -> exists l', g !! n = Some l' /\ StronglySorted Z.lt l' /\ forall e, e ∈ l' <-> e ∈ l) /\
    (forall n, n ∉ m.*1 -> g !! n = None).
Proof.
  intros Hnd Hlen. set (f := fun x : Z * list Z => let '(n, l) := x in (n, sorted_set (sorted_set l))).
  exists (dict_of (f <$> m)).
  assert ((f <$> m).*1 = m.*1) as Hkeys
    by (rewrite <- list_fmap_compose; apply list_fmap_ext; by intros i [n l] _).
  split; [|split].
  - unfold _episode_map, _episode_json. rewrite episode_items_json by done. done.
  - intros n l Hin. exists (sorted_set (sorted_set l)). split; [|split].
    + apply dict_of_NoDup; [by rewrite Hkeys|]. apply list_elem_of_fmap. by exists (n, l).
    + apply sorted_set_increasing.
    + intros e. by rewrite !elem_of_sorted_set.
  - intros n Hn. apply dict_of_None. by rewrite Hkeys.
Qed.

(** ** Examples *)

Definition no_details : RequestDetails :=
  {| year := None; is_anime := None; poster_url := None; backdrop_url := None; tv_request_mode := None;
     requested_seasons_json := None; requested_episodes_json := None |}.

(** A movie, and a show with two seasons, one of them on disk. *)
Definition sample_movie : db := (create 11 movie (lit "Film") pending (Some 1%Z) no_details false 100 empty_db).2.
Definition sample_available : db := (RequestRepository.set_status 1 available sample_movie).2.
Definition sample_show : db := (create 12 tv (lit "Show") pending (Some 1%Z) no_details false 101 sample_available).2.
Definition sample_db : db :=
  (@SeasonService.ensure_seasons ascii_db None 2 12 [1; 2]%Z false (Some [1]%Z) 102 sample_show).2.

Lemma sample_reachable : rtc (@step ascii_db) empty_db sample_db.
Proof.
  apply rtc_l with sample_movie;
    [exact (step_method empty_db _ _ (m_create 11 movie (lit "Film") pending (Some 1%Z) no_details false 100))|].
  apply rtc_l with sample_available;
    [exact (step_method sample_movie _ _ (m_row 1 [MediaRequest.set_status available]))|].
  apply rtc_l with sample_show;
    [exact (step_method sample_available _ _ (m_create 12 tv (lit "Show") pending (Some 1%Z) no_details false 101))|].
  apply rtc_l with sample_db;
    [exact (step_method sample_show _ _ (m_ensure_seasons None 2 12 [1; 2]%Z false (Some [1]%Z) 102))|].
  apply rtc_refl.
Qed.

Lemma sample_wf : wf sample_db.
Proof. apply (@reachable_wf ascii_db), sample_reachable. Qed.

Lemma schema_holds_in_every_database_witness :
  length (media_requests sample_db) = 2%nat /\ length (season_requests sample_db) = 2%nat /\
  forall s, s ∈ season_requests sample_db -> exists r, r ∈ media_requests sample_db /\
     MediaRequest.id r = SeasonRequest.media_request_id s.
Proof.
  split; [vm_compute; reflexivity|]. split; [vm_compute; reflexivity|].
  apply (@schema_holds_in_every_database ascii_db sample_db), sample_reachable.
Defined.

Lemma claim_takes_only_free_titles_witness :
  (RequestRepository.set_status_if_in 1 evicted [available] true true sample_db).1 = Ok true /\
  (RequestRepository.set_status_if_in 2 evicted [available] true true sample_db).1 = Ok false.
Proof.
  split.
  - rewrite (proj1 (claim_takes_only_free_titles sample_db 1 sample_wf)). vm_compute. reflexivity.
  - rewrite (proj1 (claim_takes_only_free_titles sample_db 2 sample_wf)). vm_compute. reflexivity.
Defined.

Lemma stale_check_cannot_promote_witness : exists d1,
  RequestRepository.mark_completed 1 200 sample_db = (Ok tt, d1) /\
  RequestRepository.mark_available 1 None 300 d1 = (Ok false, d1) /\
  (RequestRepository.mark_available 1 (Some 1%Z) 300 d1).1 = Ok true.
Proof.
  eexists. split; [vm_compute; reflexivity|]. split; [|vm_compute; reflexivity].
  apply (stale_check_cannot_promote sample_db 1 200 _ 300 sample_wf). vm_compute. reflexivity.
Defined.

Definition sample_request (i : Z) : MediaRequest.t :=
  match row_of sample_db i with Some r => r | None =>
    MediaRequest.Build_t 0 None 0 movie [] pending no_details None None None None None None None false 0 None None end.

Lemma pages_continue_witness :
  _page_stmt sample_db (Some 1%Z) None 1 = [sample_request 2] /\
  _page_stmt sample_db (Some 1%Z) None 1 ++ _page_stmt sample_db (Some 1%Z) (Some 2%Z) 5
    = _page_stmt sample_db (Some 1%Z) None 6 /\
  MediaRequest.id <$> _page_stmt sample_db (Some 1%Z) None 6 = [2; 1]%Z.
Proof.
  split; [vm_compute; reflexivity|]. split; [|vm_compute; reflexivity].
  assert (last (_page_stmt sample_db (Some 1%Z) None 1) = Some (sample_request 2)) as Hl by (vm_compute; reflexivity).
  exact (proj1 (pages_continue sample_db (Some 1%Z) None 1 5 (sample_request 2) sample_wf Hl)).
Defined.

(** The movie is evicted, asked for again, and the new request cancelled. *)
Definition sample_evicted : db := (RequestRepository.set_status_if_in 1 evicted [available] true true sample_db).2.

Lemma regrab_cannot_reset_the_guard_witness : exists d1 r d2,
  create 11 movie (lit "Film") pending (Some 1%Z) no_details true 300 sample_evicted = (Ok (Some r), d1) /\
  RequestRepository.set_status (MediaRequest.id r) cancelled d1 = (Ok tt, d2) /\
  guard sample_evicted 11 movie = true /\ guard d2 11 movie = guard sample_evicted 11 movie.
Proof.
  do 3 eexists. split; [vm_compute; reflexivity|]. split; [vm_compute; reflexivity|]. split; [vm_compute; reflexivity|].
  refine (proj2 (regrab_cannot_reset_the_guard sample_evicted 11 movie (lit "Film") (Some 1%Z) no_details true 300
    _ _ _ 11 movie _ _ _)).
  - apply (wf_cas sample_db), sample_wf.
  - vm_compute. reflexivity.
  - vm_compute. reflexivity.
Defined.


Lemma requested_episodes_round_trip_witness : exists g,
  @_episode_map ascii_db (_episode_json (Some [(2, [5; 3; 5]); (10, [])]%Z)) = Ok (Some g) /\
  g !! 2%Z = Some [3; 5]%Z /\ g !! 10%Z = Some [] /\ g !! 3%Z = None.
Proof.
  assert (NoDup [2; 10]%Z) as Hnd by (apply (bool_decide_unpack _); vm_compute; exact I).
  destruct (@requested_episodes_round_trip ascii_db [(2, [5; 3; 5]); (10, [])]%Z Hnd) as (g & Hg & _ & Hno).
  { apply Forall_cons; split; [by apply Nat.leb_le; vm_compute|].
    apply Forall_cons; split; [by apply Nat.leb_le; vm_compute|]. constructor. }
  exists g. split; [exact Hg|]. split; [|split].
  - revert Hg. vm_compute. intros [= <-]. reflexivity.
  - revert Hg. vm_compute. intros [= <-]. reflexivity.
  - apply Hno. intros H. apply (bool_decide_pack _) in H. vm_compute in H. exact H.
Defined.
