(* ===== verification/DownloadRepository.v ===== *)
(** * The download repository ([repositories/downloads.py])

    Every method of [SqlDownloadRepository], as a computation on the tables of
    [RequestStore].  A row is read from the table, so [populate_existing] makes
    no difference.  A table is read in the order of its keys; where NULLs sort
    depends on the engine and is the parameter [nulls_first].

    The clock of a method that stamps a column is its argument [now]. *)

From Stdlib Require Import ZArith Lia Bool String SpecFloat.
From S2P Require Import Prelude PyStr PyInt PyNum RequestStore.

#[local] Open Scope bool_scope.

(** ** Scopes *)

Definition _RELEASED_CLAIM_STATUS : list N := lit "released".

Definition _normalize_episodes (value : option (list Z)) : option (list Z) :=
  match sorted_set (default [] value) with [] => None | l => Some l end.

Definition _episodes_equal (left right : option (list Z)) : bool :=
  bool_decide (_normalize_episodes left = _normalize_episodes right).

(** [json.dumps] of a list of integers, with the separators [","] and [":"]. *)
Definition dumps_ints (l : list Z) : list N := lit "[" ++ join (lit ",") (str_of_int <$> l) ++ lit "]".

Definition _scope_key (season : option Z) (episodes : option (list Z)) : list N :=
  let episode_key :=
    match episodes with
    | None | Some [] => lit "*"
    | Some _ => dumps_ints (default [] (_normalize_episodes episodes))
    end in
  lit "season:" ++ match season with Some n => str_of_int n | None => lit "null" end
    ++ lit "|episodes:" ++ episode_key.

(** The fields of a record are the columns of its row. *)
Record DownloadRecord := { dr_row : Download.t; dr_scopes : list DownloadScope.t }.
Record QueueRecord := {
  qr_download : DownloadRecord;
  qr_title : option (list N);
  qr_poster_url : option (list N);
}.

Definition dr_id (r : DownloadRecord) : Z := Download.id (dr_row r).

(** [MediaType(text)]. *)
Definition MediaType_of {DB : UnicodeDB} (text : list N) : res MediaType :=
  if bool_decide (text = lit "movie") then Ok movie
  else if bool_decide (text = lit "tv") then Ok tv
  else Raise (ValueError (py_repr text ++ lit " is not a valid MediaType")).

Definition missing_download (download_id : Z) : exn :=
  LookupError (lit "download " ++ str_of_int download_id ++ lit " does not exist").

(** ** Reading *)

Section reading.
Context (nulls_first : bool).

Definition season_lt (a b : option Z) : bool :=
  match a, b with
  | None, None => false
  | None, Some _ => nulls_first
  | Some _, None => negb nulls_first
  | Some x, Some y => (x <? y)%Z
  end.

(** [ORDER BY season_number, id]. *)
Definition scope_lt (a b : DownloadScope.t) : bool :=
  season_lt (DownloadScope.season_number a) (DownloadScope.season_number b)
  || bool_decide (DownloadScope.season_number a = DownloadScope.season_number b)
     && (DownloadScope.id a <? DownloadScope.id b)%Z.

Definition of_download (download_id : Z) (s : DownloadScope.t) : bool :=
  (DownloadScope.download_id s =? download_id)%Z.

(** The dict of the scopes of some downloads, the empty list for the others. *)
Definition scopes_by_download (d : db) (download_ids : list Z) (i : Z) : list DownloadScope.t :=
  if mem i download_ids then py_sort scope_lt (select (of_download i) (download_scopes d)) else [].

Definition _scopes_by_download (download_ids : list Z) : DBM (Z -> list DownloadScope.t) :=
  query (fun d => scopes_by_download d download_ids).

Definition _to_record (row : Download.t) (scopes : list DownloadScope.t) : DownloadRecord :=
  {| dr_row := row; dr_scopes := scopes |}.

Definition _to_record_with_scopes (row : Download.t) : DBM DownloadRecord :=
  scopes ← _scopes_by_download [Download.id row];
  mret (_to_record row (scopes (Download.id row))).

(** [.scalars().first()] of the rows a condition on all tables selects. *)
Definition first_row (p : db -> Download.t -> bool) : DBM (option DownloadRecord) :=
  row ← query (fun d => List.find (p d) (downloads d));
  match row with
  | None => mret None
  | Some row => r ← _to_record_with_scopes row; mret (Some r)
  end.

(** ... with [ORDER BY id DESC LIMIT 1]. *)
Definition last_row (p : db -> Download.t -> bool) : DBM (option DownloadRecord) :=
  row ← query (fun d => List.find (p d) (reverse (downloads d)));
  match row with
  | None => mret None
  | Some row => r ← _to_record_with_scopes row; mret (Some r)
  end.

Definition all_rows (p : db -> Download.t -> bool) : DBM (list DownloadRecord) :=
  rows ← query (fun d => select (p d) (downloads d));
  scopes ← _scopes_by_download (Download.id <$> rows);
  mret ((fun row => _to_record row (scopes (Download.id row))) <$> rows).

(** [exists().where(DownloadScope.download_id == Download.id, ...)]. *)
Definition scope_exists (d : db) (x : Download.t) (p : DownloadScope.t -> bool) : bool :=
  existsb (fun s => of_download (Download.id x) s && p s) (download_scopes d).

Definition scope_of (media_request_id : Z) (season : option Z) (s : DownloadScope.t) : bool :=
  bool_decide (DownloadScope.media_request_id s = Some media_request_id)
  && bool_decide (DownloadScope.season_number s = season).

Definition scalar_of (media_request_id : Z) (season : option Z) (x : Download.t) : bool :=
  bool_decide (Download.media_request_id x = Some media_request_id)
  && bool_decide (Download.season x = season).

Definition get_by_hash (torrent_hash : list N) : DBM (option DownloadRecord) :=
  first_row (fun _ x => bool_decide (Download.torrent_hash x = torrent_hash)).

Definition active_for (media_request_id : Z) (season : option Z) (d : db) (x : Download.t) : bool :=
  let scoped_exists := scope_exists d x (fun s => scope_of media_request_id season s && scope_active s) in
  let matching_scope_exists := scope_exists d x (scope_of media_request_id season) in
  let legacy_scalar_match := scalar_of media_request_id season x && negb matching_scope_exists in
  negb (terminal x) && (legacy_scalar_match || scoped_exists).

Definition find_active_for_request (media_request_id : Z) (season : option Z) : DBM (option DownloadRecord) :=
  first_row (active_for media_request_id season).

(** The claims of a download. *)
Definition claim_exists (d : db) (x : Download.t) (p : DownloadCoverageClaim.t -> bool) : bool :=
  existsb (fun c => (DownloadCoverageClaim.download_id c =? Download.id x)%Z && p c) (coverage_claims d).

Definition find_active_coverage_owner (media_request_id : Z) (season : option Z) : DBM (option DownloadRecord) :=
  match season with
  | None => mret None
  | Some n =>
      first_row (fun d x =>
        claim_exists d x (fun c =>
          bool_decide (DownloadCoverageClaim.media_request_id c = Some media_request_id)
          && bool_decide (DownloadCoverageClaim.season_number c = Some n) && claim_active c)
        && negb (terminal x))
  end.

Definition find_active_for_request_or_coverage (media_request_id : Z) (season : option Z)
    : DBM (option DownloadRecord) :=
  active ← find_active_for_request media_request_id season;
  match active with
  | Some r => mret (Some r)
  | None => find_active_coverage_owner media_request_id season
  end.

(** The rows of [find_active_for_requests]'s first query. *)
Definition may_match (request_ids : list Z) (d : db) (x : Download.t) : bool :=
  negb (terminal x)
  && ((match Download.media_request_id x with Some i => mem i request_ids | None => false end)
      || scope_exists d x (fun s =>
           match DownloadScope.media_request_id s with Some i => mem i request_ids | None => false end)).

(** One row of the loop: the keys it adds. *)
Definition keys_of_row (key_set : list (Z * option Z)) (scopes : list DownloadScope.t) (x : Download.t)
    : list (Z * option Z) :=
  (match Download.media_request_id x with
   | Some i =>
       let matching_scope_exists :=
         existsb (fun s => bool_decide (DownloadScope.media_request_id s = Some i)
                           && bool_decide (DownloadScope.season_number s = Download.season x)) scopes in
       if mem (i, Download.season x) key_set && negb matching_scope_exists then [(i, Download.season x)] else []
   | None => []
   end)
  ++ omap (fun s =>
       match DownloadScope.media_request_id s with
       | Some i =>
           if scope_active s && mem (i, DownloadScope.season_number s) key_set
           then Some (i, DownloadScope.season_number s) else None
       | None => None
       end) scopes.

Definition find_active_for_requests (keys : list (Z * option Z)) : DBM (gset (Z * option Z)) :=
  let request_ids := remove_dups (fst <$> keys) in
  match keys with
  | [] => mret ∅
  | _ =>
      rows ← query (fun d => select (may_match request_ids d) (downloads d));
      match rows with
      | [] => mret ∅
      | _ =>
          let download_ids := Download.id <$> rows in
          scopes ← query (fun d => select (fun s =>
            mem (DownloadScope.download_id s) download_ids
            && match DownloadScope.media_request_id s with Some i => mem i request_ids | None => false end)
            (download_scopes d));
          mret (list_to_set (rows ≫= fun x =>
            keys_of_row keys (select (of_download (Download.id x)) scopes) x))
      end
  end.

Definition list_active_for_request (media_request_id : Z) : DBM (list DownloadRecord) :=
  all_rows (fun d x =>
    let scoped_exists := scope_exists d x (fun s =>
      bool_decide (DownloadScope.media_request_id s = Some media_request_id) && scope_active s) in
    negb (terminal x)
    && (bool_decide (Download.media_request_id x = Some media_request_id) || scoped_exists)).

(** The requests one row belongs to. *)
Definition owners (requested_ids : list Z) (r : DownloadRecord) : list Z :=
  let scalar := Download.media_request_id (dr_row r) in
  let scalar_has_scope :=
    existsb (fun s => bool_decide (DownloadScope.media_request_id s = scalar)) (dr_scopes r) in
  remove_dups
    ((match scalar with
      | Some i => if mem i requested_ids && negb scalar_has_scope then [i] else []
      | None => []
      end)
     ++ omap (fun s =>
          match DownloadScope.media_request_id s with
          | Some i => if mem i requested_ids && scope_active s then Some i else None
          | None => None
          end) (dr_scopes r)).

(** [grouped[owner_id].append(record)], for the owners: all of them are keys. *)
Definition group_record (requested_ids : list Z) (grouped : gmap Z (list DownloadRecord)) (r : DownloadRecord)
    : gmap Z (list DownloadRecord) :=
  foldl (fun g owner_id => alter (fun l => l ++ [r]) owner_id g) grouped (owners requested_ids r).

Definition list_active_for_requests (media_request_ids : list Z) : DBM (gmap Z (list DownloadRecord)) :=
  let requested o := match o with Some i => mem i media_request_ids | None => false end in
  match media_request_ids with
  | [] => mret ∅
  | _ =>
      records ← all_rows (fun d x =>
        let scoped_exists := scope_exists d x (fun s =>
          requested (DownloadScope.media_request_id s) && scope_active s) in
        let scalar_scope_exists := scope_exists d x (fun s =>
          match DownloadScope.media_request_id s, Download.media_request_id x with
          | Some i, Some j => (i =? j)%Z
          | _, _ => false
          end) in
        let legacy_scalar_match := requested (Download.media_request_id x) && negb scalar_scope_exists in
        negb (terminal x) && (legacy_scalar_match || scoped_exists));
      mret (foldl (group_record media_request_ids) (dict_of ((fun i => (i, [])) <$> media_request_ids)) records)
  end.

Definition find_latest_for_request (media_request_id : Z) (season : option Z) : DBM (option DownloadRecord) :=
  last_row (fun d x => scalar_of media_request_id season x
                       || scope_exists d x (scope_of media_request_id season)).

Definition imported_scope (s : DownloadScope.t) : bool := bool_decide (DownloadScope.status s = lit "imported").
Definition imported_row (x : Download.t) : bool := bool_decide (Download.status x = lit "imported").

Definition find_latest_imported_for_request (media_request_id : Z) (season : option Z)
    : DBM (option DownloadRecord) :=
  last_row (fun d x =>
    imported_row x && scalar_of media_request_id season x
    || scope_exists d x (fun s => scope_of media_request_id season s && imported_scope s)).

(** The title and date of each, the scalar shape first; neither query orders
    its rows. *)
Definition imported_unscoped_pack_candidates (media_request_id season : Z) : DBM (list (option (list N) * Z)) :=
  query (fun d =>
    ((fun x => (Download.release_title x, Download.added_at x)) <$>
       select (fun x => scalar_of media_request_id (Some season) x && imported_row x
                        && bool_decide (Download.episodes_json x = None)) (downloads d))
    ++ (select (fun s => scope_of media_request_id (Some season) s && imported_scope s
                         && bool_decide (DownloadScope.episodes_json s = None)) (download_scopes d) ≫= fun s =>
        (fun x => (Download.release_title x, Download.added_at x)) <$>
          select (fun x => (Download.id x =? DownloadScope.download_id s)%Z) (downloads d))).

Definition list_active : DBM (list DownloadRecord) := all_rows (fun _ x => negb (terminal x)).

(** Recently rejected payloads come first. *)
Definition list_active_for_queue (now : Z) : DBM (list QueueRecord) :=
  let failed x := bool_decide (Download.status x = lit "failed") in
  let recent x :=
    match Download.failed_at x with Some t => (now - days 1 <=? t)%Z | None => false end in
  let shown x :=
    negb (terminal x)
    || failed x && negb (bool_decide (Download.payload_rejection x = None)) && recent x in
  rows ← query (fun d => select (fun x => shown x && failed x) (downloads d)
                         ++ select (fun x => shown x && negb (failed x)) (downloads d));
  scopes ← _scopes_by_download (Download.id <$> rows);
  query (fun d => (fun x =>
    let r := match Download.media_request_id x with
             | Some i => List.find (fun r => (MediaRequest.id r =? i)%Z) (media_requests d)
             | None => None
             end in
    {| qr_download := _to_record x (scopes (Download.id x));
       qr_title := MediaRequest.title <$> r;
       qr_poster_url := r ≫= fun r => poster_url (MediaRequest.details r) |}) <$> rows).

Definition list_scopes (download_id : Z) : DBM (list DownloadScope.t) :=
  scopes ← _scopes_by_download [download_id]; mret (scopes download_id).

(** A title's claims, by the requests for it. *)
Definition claim_of_title (tmdb_id : Z) (d : db) (c : DownloadCoverageClaim.t) : bool :=
  existsb (fun r => bool_decide (DownloadCoverageClaim.media_request_id c = Some (MediaRequest.id r))
                    && (MediaRequest.tmdb_id r =? tmdb_id)%Z && bool_decide (MediaRequest.media_type r = tv))
          (media_requests d).

Definition find_active_coverage_title (tmdb_id : Z) (season : option Z) : DBM (option DownloadRecord) :=
  match season with
  | None => mret None
  | Some n =>
      first_row (fun d x =>
        claim_exists d x (fun c =>
          claim_of_title tmdb_id d c
          && bool_decide (DownloadCoverageClaim.season_number c = Some n) && claim_active c)
        && negb (terminal x))
  end.

(** The rows of the three-table join, each with the pair it selects. *)
Definition covered_titles (tmdb_ids : list Z) (d : db) : list (Z * Z) :=
  r ← select (fun r => mem (MediaRequest.tmdb_id r) tmdb_ids && bool_decide (MediaRequest.media_type r = tv))
             (media_requests d);
  c ← select (fun c => bool_decide (DownloadCoverageClaim.media_request_id c = Some (MediaRequest.id r))
                       && claim_active c) (coverage_claims d);
  x ← select (fun x => (Download.id x =? DownloadCoverageClaim.download_id c)%Z && negb (terminal x))
             (downloads d);
  match DownloadCoverageClaim.season_number c with Some n => [(MediaRequest.tmdb_id r, n)] | None => [] end.

Definition find_active_coverage_titles (keys : list (Z * Z)) : DBM (gset (Z * Z)) :=
  match keys with
  | [] => mret ∅
  | _ =>
      rows ← query (covered_titles (remove_dups (fst <$> keys)));
      mret (list_to_set (List.filter (fun key => mem key keys) rows))
  end.

End reading.

(** ** Scopes and claims *)

Definition scope_row (scope_id : Z) : DBM DownloadScope.t :=
  row ← query (fun d => List.find (fun s => (DownloadScope.id s =? scope_id)%Z) (download_scopes d));
  match row with Some s => mret s | None => db_throw (ProgramError "InvalidRequestError" []) end.

(** The loop over the download's scopes of that season: an unresolved one with
    the same episodes, or else the last resolved one. *)
Fixpoint matching_scope (episodes : option (list Z)) (terminal_match : option DownloadScope.t)
    (rows : list DownloadScope.t) : DownloadScope.t + option DownloadScope.t :=
  match rows with
  | [] => inr terminal_match
  | row :: rest =>
      if _episodes_equal (DownloadScope.episodes_json row) episodes then
        if scope_active row then inl row else matching_scope episodes (Some row) rest
      else matching_scope episodes terminal_match rest
  end.

Definition ensure_scope (download_id : Z) (media_request_id season : option Z) (episodes : option (list Z))
    : DBM DownloadScope.t :=
  let normalized_episodes := _normalize_episodes episodes in
  rows ← query (fun d => select (fun s => of_download download_id s
    && bool_decide (DownloadScope.media_request_id s = media_request_id)
    && bool_decide (DownloadScope.season_number s = season)) (download_scopes d));
  match matching_scope normalized_episodes None rows with
  | inl row => mret row
  | inr (Some terminal_match) =>
      let i := DownloadScope.id terminal_match in
      update_scopes (fun s => (DownloadScope.id s =? i)%Z)
        [DownloadScope.set_status (lit "active"); DownloadScope.set_completed_at None] ;;
      scope_row i
  | inr None =>
      season_request_id ← query (fun d =>
        match media_request_id, season with
        | Some m, Some n =>
            SeasonRequest.id <$> List.find (fun s => (SeasonRequest.media_request_id s =? m)%Z
                                              && (SeasonRequest.season_number s =? n)%Z) (season_requests d)
        | _, _ => None
        end);
      i ← insert_scope (fun i => {|
        DownloadScope.id := i; DownloadScope.download_id := download_id;
        DownloadScope.media_request_id := media_request_id;
        DownloadScope.season_request_id := season_request_id; DownloadScope.season_number := season;
        DownloadScope.episodes_json := normalized_episodes;
        DownloadScope.scope_key := _scope_key season normalized_episodes;
        DownloadScope.status := lit "active"; DownloadScope.completed_at := None |});
      scope_row i
  end.

Definition _replace_scope_set (download_id : Z) (media_request_id season : option Z)
    (episodes : option (list Z)) : DBM unit :=
  delete_scopes (fun s => of_download download_id s && negb (imported_scope s)) ;;
  match media_request_id, season with
  | Some _, Some _ => ensure_scope download_id media_request_id season episodes ;; mret tt
  | _, _ => mret tt
  end.

Definition claims_of (download_id : Z) (c : DownloadCoverageClaim.t) : bool :=
  (DownloadCoverageClaim.download_id c =? download_id)%Z.

Definition ensure_coverage_claim (download_id media_request_id season : Z) : DBM unit :=
  existing ← query (fun d => List.find (fun c => claims_of download_id c
    && bool_decide (DownloadCoverageClaim.media_request_id c = Some media_request_id)
    && bool_decide (DownloadCoverageClaim.season_number c = Some season)) (coverage_claims d));
  match existing with
  | Some c =>
      if claim_active c then mret tt
      else
        update_claims (fun x => (DownloadCoverageClaim.id x =? DownloadCoverageClaim.id c)%Z)
          [DownloadCoverageClaim.set_status _ACTIVE_CLAIM_STATUS; DownloadCoverageClaim.set_released_at None] ;;
        mret tt
  | None =>
      insert_claim (fun i => {|
        DownloadCoverageClaim.id := i; DownloadCoverageClaim.download_id := download_id;
        DownloadCoverageClaim.media_request_id := Some media_request_id;
        DownloadCoverageClaim.season_number := Some season;
        DownloadCoverageClaim.status := _ACTIVE_CLAIM_STATUS;
        DownloadCoverageClaim.released_at := None |}) ;; mret tt
  end.

Definition released (now : Z) : list DownloadCoverageClaim.column_value :=
  [DownloadCoverageClaim.set_status _RELEASED_CLAIM_STATUS; DownloadCoverageClaim.set_released_at (Some now)].

Definition release_coverage_claims (download_id now : Z) : DBM unit :=
  update_claims (fun c => claims_of download_id c && claim_active c) (released now) ;; mret tt.

(** The seasons of the active claims of a download, and of its scopes. *)
Definition claimed_seasons (d : db) (download_id : Z) : list Z :=
  omap DownloadCoverageClaim.season_number
    (select (fun c => claims_of download_id c && claim_active c) (coverage_claims d)).

Definition seasons_with_scope (d : db) (download_id : Z) (p : DownloadScope.t -> bool) : list Z :=
  omap DownloadScope.season_number
    (select (fun s => of_download download_id s && p s) (download_scopes d)).

Definition resolved_seasons (d : db) (download_id : Z) (target_seasons : list Z) : list Z :=
  List.filter (fun n => mem n target_seasons && mem n (seasons_with_scope d download_id (fun _ => true))
                        && negb (mem n (seasons_with_scope d download_id scope_active)))
              (claimed_seasons d download_id).

Definition release_resolved_target_coverage_claims (download_id : Z) (target_seasons : list Z) (now : Z)
    : DBM unit :=
  match target_seasons with
  | [] => mret tt
  | _ =>
      resolved ← query (fun d => resolved_seasons d download_id target_seasons);
      match resolved with
      | [] => mret tt
      | _ =>
          update_claims (fun c => claims_of download_id c && claim_active c
            && match DownloadCoverageClaim.season_number c with Some n => mem n resolved | None => false end)
            (released now) ;; mret tt
      end
  end.

(** ** Rows *)

Definition has_id (download_id : Z) (x : Download.t) : bool := (Download.id x =? download_id)%Z.

Definition download_row (download_id : Z) : DBM (option Download.t) :=
  query (fun d => List.find (has_id download_id) (downloads d)).

Section writing.
Context {DB : UnicodeDB} (nulls_first : bool).

Definition create (torrent_hash status : list N) (media_request_id : option Z) (magnet_link : option (list N))
    (tmdb_id year season : option Z) (episodes : option (list Z)) (media_type release_title : option (list N))
    (timeout_at : option Z) (payload_pending payload_resume payload_force_start : bool) (now : Z)
    : DBM DownloadRecord :=
  kind ← lift_res match media_type with Some t => Some <$> MediaType_of t | None => Ok None end;
  let row i := {|
    Download.id := i; Download.media_request_id := media_request_id;
    Download.torrent_hash := torrent_hash; Download.magnet_link := magnet_link;
    Download.status := status; Download.progress := f_zero; Download.seed_ratio := f_zero;
    Download.media_type := kind; Download.tmdb_id := tmdb_id; Download.year := year;
    Download.season := season; Download.episodes_json := episodes; Download.timeout_at := timeout_at;
    Download.first_seen_at := None; Download.added_at := now; Download.failed_at := None;
    Download.failed_reason := None; Download.retry_count := 0;
    Download.payload_pending := payload_pending; Download.payload_resume := payload_resume;
    Download.payload_force_start := payload_force_start; Download.payload_rejection := None;
    Download.download_path := None; Download.release_title := release_title |} in
  i ← insert_download row;
  match media_request_id, season with
  | Some _, Some _ =>
      scope ← ensure_scope i media_request_id season episodes;
      mret (_to_record (row i) [scope])
  | _, _ => mret (_to_record (row i) [])
  end.

(** An [UPDATE] that rewrites the status with itself. *)
Definition lock_if (p : Download.t -> bool) (download_id : Z) : DBM bool :=
  n ← update_downloads (fun x => has_id download_id x && p x) []; mret (n =? 1)%Z.

Definition lock_if_active (download_id : Z) : DBM bool := lock_if (fun x => negb (terminal x)) download_id.
Definition lock_if_terminal (download_id : Z) : DBM bool := lock_if terminal download_id.

Definition align_scalar_scope_with_active (download_id : Z) : DBM unit :=
  row ← download_row download_id;
  match row with
  | None => db_throw (missing_download download_id)
  | Some x =>
      scopes ← query (fun d => py_sort (scope_lt nulls_first)
        (select (fun s => of_download download_id s && scope_active s) (download_scopes d)));
      match scopes with
      | [] => mret tt
      | s :: _ =>
          let target := default s (List.find (fun s =>
            bool_decide (DownloadScope.season_number s = Download.season x)) scopes) in
          if bool_decide (Download.season x = DownloadScope.season_number target)
             && _episodes_equal (Download.episodes_json x) (DownloadScope.episodes_json target)
          then mret tt
          else update_downloads (has_id download_id)
                 [Download.set_season (DownloadScope.season_number target);
                  Download.set_episodes_json (DownloadScope.episodes_json target)] ;; mret tt
      end
  end.

(** *** The status *)

(** The optional arguments [update_status] and [update_status_if_in] share. *)
Record Changes := {
  progress : option spec_float;
  seed_ratio : option spec_float;
  failed_reason : option (list N);
  download_path : option (list N);
  first_seen_at : option Z;
  clear_first_seen_at : bool;
  clear_failed_reason : bool;
  clear_download_path : bool;
  media_request_id : option Z;
  replace_grab_metadata : bool;
  magnet_link : option (list N);
  tmdb_id : option Z;
  year : option Z;
  season : option Z;
  episodes : option (list Z);
  media_type : option (list N);
  release_title : option (list N);
}.

Definition no_changes : Changes := {|
  progress := None; seed_ratio := None; failed_reason := None; download_path := None; first_seen_at := None;
  clear_first_seen_at := false; clear_failed_reason := false; clear_download_path := false;
  media_request_id := None; replace_grab_metadata := false; magnet_link := None; tmdb_id := None; year := None;
  season := None; episodes := None; media_type := None; release_title := None |}.

Definition setting {A} (v : option A) (column : A -> Download.column_value) : list Download.column_value :=
  match v with Some x => [column x] | None => [] end.

(** [if clear: column = None elif v is not None: column = v]. *)
Definition clearing {A} (clear : bool) (v : option A) (column : option A -> Download.column_value)
    : list Download.column_value :=
  if clear then [column None] else setting v (fun x => column (Some x)).

Definition change_values (status : list N) (u : Changes) : res (list Download.column_value) :=
  kind ← match media_type u with
         | Some t => if replace_grab_metadata u then Some <$> MediaType_of t else Ok None
         | None => Ok None
         end;
  Ok (Download.set_status status
    :: setting (progress u) Download.set_progress
    ++ setting (seed_ratio u) Download.set_seed_ratio
    ++ setting (media_request_id u) (fun i => Download.set_media_request_id (Some i))
    ++ (if replace_grab_metadata u then
          [Download.set_magnet_link (magnet_link u); Download.set_tmdb_id (tmdb_id u);
           Download.set_year (year u); Download.set_season (season u);
           Download.set_episodes_json (episodes u); Download.set_media_type kind;
           Download.set_release_title (release_title u)]
        else [])
    ++ clearing (clear_failed_reason u) (failed_reason u) Download.set_failed_reason
    ++ clearing (clear_download_path u) (download_path u) Download.set_download_path
    ++ clearing (clear_first_seen_at u) (first_seen_at u) Download.set_first_seen_at).

(** What follows the write: the claims of a finished torrent are released, the
    scopes of a replaced grab are those of the new one. *)
Definition after_write (download_id : Z) (status : list N) (u : Changes) (now : Z) : DBM unit :=
  (if mem status _TERMINAL_DOWNLOAD_STATUSES then release_coverage_claims download_id now else mret tt) ;;
  (if replace_grab_metadata u
   then _replace_scope_set download_id (media_request_id u) (season u) (episodes u) else mret tt).

Definition update_status (download_id : Z) (status : list N) (u : Changes) (now : Z) : DBM unit :=
  row ← download_row download_id;
  match row with
  | None => db_throw (missing_download download_id)
  | Some _ =>
      values ← lift_res (change_values status u);
      update_downloads (has_id download_id) values ;;
      after_write download_id status u now
  end.

(** The other optional arguments of the compare-and-swap. *)
Record CasChanges := {
  shared : Changes;
  added_at : option Z;
  timeout_at : option Z;
  clear_timeout_at : bool;
  retry_count : option Z;
  payload_pending : option bool;
  payload_resume : option bool;
  payload_force_start : option bool;
  payload_rejection : option (list N);
  clear_payload_rejection : bool;
  require_failed_reason : option (option (list N));          (** [None]: no predicate *)
  require_no_unimported_scope_outside : option (list Z);
}.

Definition plain (u : Changes) : CasChanges := {|
  shared := u; added_at := None; timeout_at := None; clear_timeout_at := false; retry_count := None;
  payload_pending := None; payload_resume := None; payload_force_start := None; payload_rejection := None;
  clear_payload_rejection := false; require_failed_reason := None;
  require_no_unimported_scope_outside := None |}.

Definition cas_values (status : list N) (c : CasChanges) (now : Z) : res (list Download.column_value) :=
  values ← change_values status (shared c);
  Ok (values
    ++ setting (payload_resume c) Download.set_payload_resume
    ++ setting (payload_force_start c) Download.set_payload_force_start
    ++ setting (payload_pending c) Download.set_payload_pending
    ++ (if clear_payload_rejection c then [Download.set_payload_rejection None]
        else match payload_rejection c with
             | Some v => [Download.set_payload_rejection (Some v); Download.set_failed_at (Some now)]
             | None => []
             end)
    ++ setting (added_at c) Download.set_added_at
    ++ clearing (clear_timeout_at c) (timeout_at c) Download.set_timeout_at
    ++ setting (retry_count c) Download.set_retry_count).

(** The [WHERE] of the compare-and-swap, after the key. *)
Definition cas_guard (d : db) (download_id : Z) (allowed_from : list (list N)) (c : CasChanges)
    (x : Download.t) : bool :=
  mem (Download.status x) allowed_from
  && match require_failed_reason c with
     | Some reason => bool_decide (Download.failed_reason x = reason)
     | None => true
     end
  && match require_no_unimported_scope_outside c with
     | Some observed =>
         negb (existsb (fun s => of_download download_id s && negb (imported_scope s)
                                 && negb (mem (DownloadScope.id s) observed)) (download_scopes d))
     | None => true
     end.

Definition update_status_if_in (download_id : Z) (status : list N) (allowed_from : list (list N))
    (c : CasChanges) (now : Z) : DBM bool :=
  values ← lift_res (cas_values status c now);
  n ← reading (fun d => update_downloads (fun x =>
        has_id download_id x && cas_guard d download_id allowed_from c x) values);
  let updated := (n =? 1)%Z in
  (if updated then after_write download_id status (shared c) now else mret tt) ;;
  mret updated.

Definition increment_retry_count_if_in (download_id : Z) (allowed_from : list (list N)) : DBM bool :=
  n ← update_downloads (fun x => has_id download_id x && mem (Download.status x) allowed_from)
        [Download.one_more_retry];
  mret (n =? 1)%Z.

Definition update_scope_status_if_in (scope_id : Z) (status : list N) (allowed_from : list (list N)) : DBM bool :=
  n ← update_scopes (fun s => (DownloadScope.id s =? scope_id)%Z && mem (DownloadScope.status s) allowed_from)
        [DownloadScope.set_status status];
  mret (n =? 1)%Z.

(** A row that is gone is left alone. *)
Definition refresh_progress (download_id : Z) (progress seed_ratio : option spec_float)
    (timeout_at : option Z) (clear_timeout_at : bool) : DBM unit :=
  row ← download_row download_id;
  match row with
  | None => mret tt
  | Some _ =>
      update_downloads (has_id download_id)
        (setting progress Download.set_progress ++ setting seed_ratio Download.set_seed_ratio
         ++ clearing clear_timeout_at timeout_at Download.set_timeout_at) ;; mret tt
  end.

End writing.
