(* ===== verification/EpisodeRepository.v ===== *)
(** * The episode state repository ([repositories/season_episode_states.py])

    The methods of [SqlSeasonEpisodeStateRepository].  The writers read the rows
    of a season first and then change the rows they loaded, one statement each:
    [meanwhile] is what other transactions commit between that read and the
    writes, the identity when there are none.

    Assigning an attribute of a loaded row is an [UPDATE] by its key of the
    columns whose value differs from the one loaded, and raises when the row is
    gone; it is written at once here, where the session may hold it back until
    its next statement.  A date is the number of its day. *)

From Stdlib Require Import ZArith Lia Bool String.
From S2P Require Import Prelude PyStr RequestStore.

#[local] Open Scope bool_scope.

#[export] Instance SeasonEpisodeState_eq_dec : EqDecision SeasonEpisodeState.t.
Proof. solve_decision. Defined.

Definition StaleDataError : exn := ProgramError "StaleDataError" [].

Definition of_season (season_request_id : Z) (e : SeasonEpisodeState.t) : bool :=
  (SeasonEpisodeState.season_request_id e =? season_request_id)%Z.
Definition is_episode (episode_number : Z) (e : SeasonEpisodeState.t) : bool :=
  (SeasonEpisodeState.episode_number e =? episode_number)%Z.
Definition has_state (s : EpisodeState.t) (e : SeasonEpisodeState.t) : bool :=
  bool_decide (SeasonEpisodeState.status e = s).

Definition season_rows (d : db) (season_request_id : Z) : list SeasonEpisodeState.t :=
  select (of_season season_request_id) (episode_states d).

(** The dict of the rows by episode number, which is unique in a season. *)
Definition _existing_by_episode (season_request_id : Z) : DBM (list SeasonEpisodeState.t) :=
  query (fun d => season_rows d season_request_id).

Definition existing_row (existing : list SeasonEpisodeState.t) (episode_number : Z) : option SeasonEpisodeState.t :=
  List.find (is_episode episode_number) existing.

(** What the other transactions commit. *)
Definition interrupted (meanwhile : db -> db) : DBM unit := fun d => (Ok tt, meanwhile d).

(** Attributes of a loaded row. *)
Definition assign_row (row : SeasonEpisodeState.t) (values : list SeasonEpisodeState.column_value) : DBM unit :=
  match List.filter (fun v => negb (bool_decide (SeasonEpisodeState.assign row v = row))) values with
  | [] => mret tt
  | changed =>
      n ← update_episodes (fun e => (SeasonEpisodeState.id e =? SeasonEpisodeState.id row)%Z) changed;
      if (n =? 1)%Z then mret tt else db_throw StaleDataError
  end.

Definition new_row (season_request_id episode_number : Z) (status : EpisodeState.t)
    (air_date grabbed_download_id : option Z) (i : Z) : SeasonEpisodeState.t := {|
  SeasonEpisodeState.id := i; SeasonEpisodeState.season_request_id := season_request_id;
  SeasonEpisodeState.episode_number := episode_number; SeasonEpisodeState.status := status;
  SeasonEpisodeState.air_date := air_date; SeasonEpisodeState.grabbed_download_id := grabbed_download_id |}.

(** [false] when a constraint refused the row. *)
Definition _insert_or_reread (row : Z -> SeasonEpisodeState.t) : DBM bool :=
  except "IntegrityError" (savepoint (insert_episode row ;; mret true)) (mret false).

Definition _reread_one (season_request_id episode_number : Z) : DBM (option SeasonEpisodeState.t) :=
  query (fun d => existing_row (season_rows d season_request_id) episode_number).

Definition list_for_season (season_request_id : Z) : DBM (list SeasonEpisodeState.t) :=
  query (fun d => py_sort (key_lt SeasonEpisodeState.episode_number) (season_rows d season_request_id)).

(** ** The aired target *)

Fixpoint seed_target (season_request_id : Z) (existing : list SeasonEpisodeState.t)
    (aired : list (Z * option Z)) : DBM unit :=
  match aired with
  | [] => mret tt
  | (episode_number, air_date) :: rest =>
      match existing_row existing episode_number with
      | Some row => assign_row row [SeasonEpisodeState.set_air_date air_date]
      | None =>
          _insert_or_reread (new_row season_request_id episode_number EpisodeState.pending air_date None) ;; mret tt
      end ;;
      seed_target season_request_id existing rest
  end.

(** Pending rows that are no longer aired: the database decides whether the row
    is still pending. *)
Fixpoint retire (aired : list (Z * option Z)) (existing : list SeasonEpisodeState.t) : DBM unit :=
  match existing with
  | [] => mret tt
  | row :: rest =>
      (if negb (mem (SeasonEpisodeState.episode_number row) (fst <$> aired)) && has_state EpisodeState.pending row
       then delete_episodes (fun e => (SeasonEpisodeState.id e =? SeasonEpisodeState.id row)%Z
                                      && has_state EpisodeState.pending e) ;; mret tt
       else mret tt) ;;
      retire aired rest
  end.

Definition upsert_target (meanwhile : db -> db) (season_request_id : Z) (aired : list (Z * option Z)) : DBM unit :=
  existing ← _existing_by_episode season_request_id;
  interrupted meanwhile ;;
  seed_target season_request_id existing aired ;;
  retire aired existing.

(** ** Progress *)

Fixpoint grab_each (season_request_id download_id : Z) (existing : list SeasonEpisodeState.t)
    (episode_numbers : list Z) : DBM unit :=
  match episode_numbers with
  | [] => mret tt
  | episode_number :: rest =>
      match existing_row existing episode_number with
      | Some row =>
          if negb (has_state EpisodeState.imported row) then
            assign_row row [SeasonEpisodeState.set_status EpisodeState.grabbed;
                            SeasonEpisodeState.set_grabbed_download_id (Some download_id)]
          else mret tt
      | None =>
          _insert_or_reread (new_row season_request_id episode_number EpisodeState.grabbed None (Some download_id)) ;;
          mret tt
      end ;;
      grab_each season_request_id download_id existing rest
  end.

Definition mark_grabbed (meanwhile : db -> db) (season_request_id : Z) (episode_numbers : list Z) (download_id : Z)
    : DBM unit :=
  existing ← _existing_by_episode season_request_id;
  interrupted meanwhile ;;
  grab_each season_request_id download_id existing episode_numbers.

Definition imported_by (download_id : Z) : list SeasonEpisodeState.column_value :=
  [SeasonEpisodeState.set_status EpisodeState.imported;
   SeasonEpisodeState.set_grabbed_download_id (Some download_id)].

(** One episode; a row another transaction inserted first is read again and
    promoted. *)
Definition import_one (season_request_id download_id : Z) (existing : list SeasonEpisodeState.t)
    (episode_number : Z) : DBM unit :=
  match existing_row existing episode_number with
  | Some row => assign_row row (imported_by download_id)
  | None =>
      inserted ← _insert_or_reread
        (new_row season_request_id episode_number EpisodeState.imported None (Some download_id));
      if (inserted : bool) then mret tt
      else
        winner ← _reread_one season_request_id episode_number;
        match winner with
        | Some row => assign_row row (imported_by download_id)
        | None => mret tt
        end
  end.

Fixpoint import_each (season_request_id download_id : Z) (existing : list SeasonEpisodeState.t)
    (episode_numbers : list Z) : DBM unit :=
  match episode_numbers with
  | [] => mret tt
  | episode_number :: rest =>
      import_one season_request_id download_id existing episode_number ;;
      import_each season_request_id download_id existing rest
  end.

Definition mark_imported (meanwhile : db -> db) (season_request_id : Z) (episode_numbers : list Z) (download_id : Z)
    : DBM unit :=
  existing ← _existing_by_episode season_request_id;
  interrupted meanwhile ;;
  import_each season_request_id download_id existing episode_numbers.

Fixpoint adopt_each (wanted : option (list Z)) (existing : list SeasonEpisodeState.t) : DBM unit :=
  match existing with
  | [] => mret tt
  | row :: rest =>
      (if has_state EpisodeState.pending row
          && match wanted with Some l => mem (SeasonEpisodeState.episode_number row) l | None => true end
       then assign_row row [SeasonEpisodeState.set_status EpisodeState.imported] else mret tt) ;;
      adopt_each wanted rest
  end.

Definition adopt_baseline (meanwhile : db -> db) (season_request_id : Z) (episodes : option (list Z)) : DBM unit :=
  existing ← _existing_by_episode season_request_id;
  interrupted meanwhile ;;
  adopt_each episodes existing.

(** ** Reading progress *)

(** A grabbed row whose download is gone or dead. *)
Definition stale_grab (d : db) (e : SeasonEpisodeState.t) : bool :=
  has_state EpisodeState.grabbed e
  && match SeasonEpisodeState.grabbed_download_id e with
     | None => true
     | Some i => existsb (fun x => (Download.id x =? i)%Z
                   && mem (Download.status x) [lit "failed"; lit "no_acceptable_release"]) (downloads d)
     end.

Definition stale_grabbed_episodes (season_request_id : Z) : DBM (gset Z) :=
  query (fun d => list_to_set (SeasonEpisodeState.episode_number <$>
    select (stale_grab d) (season_rows d season_request_id))).

(** Per season that has rows: how many are imported, and how many there are. *)
Definition counts_for_seasons (season_request_ids : list Z) : DBM (gmap Z (Z * Z)) :=
  query (fun d => dict_of (omap (fun i =>
    match season_rows d i with
    | [] => None
    | rows => Some (i, (matching (has_state EpisodeState.imported) rows, Z.of_nat (length rows)))
    end) season_request_ids)).
