(* ===== verification/EpisodeService.v ===== *)
(** * The episode fallback ([services/season_episode_service.py])

    The aired target of a season, what is missing of it, what an import
    completes, and the refresh that re-arms finished seasons that grew.

    [metadata.season_episodes] (numbers and air dates of a season, which may
    raise), [parser.parse] and the other transactions' commits are arguments.  A
    date is the number of its day since the epoch. *)

From Stdlib Require Import ZArith Lia Bool String.
From S2P Require Import Prelude PyStr PyNum Release RequestStore RequestRepository SeasonRepository.
From S2P Require SeasonPack SeasonService DownloadRepository EpisodeRepository.

#[local] Open Scope bool_scope.

Definition _REARMABLE_DONE_STATUSES : list RequestStatus := [available; completed].

Definition date_of (t : Z) : Z := (t / days 1)%Z.

(** The items of [{key: value for ...}]. *)
Definition dict_items {V} (l : list (Z * V)) : list (Z * V) :=
  omap (fun k => v ← dict_of l !! k; Some (k, v)) (reverse (remove_dups (reverse (fst <$> l)))).

Section service.
Context {DB : UnicodeDB} (nulls_first : bool) (meanwhile : db -> db)
        (metadata : Z -> Z -> res (list (Z * option Z))) (parse : list N -> ParsedRelease).

Definition refresh_target (media_request_id season_number tmdb_id today : Z) : DBM (gset Z) :=
  season ← ensure media_request_id season_number pending false;
  episodes ← lift_res (metadata tmdb_id season_number);
  let aired := SeasonPack.aired_target (dict_of episodes) today in
  let aired_dates := dict_items (List.filter (fun e => bool_decide (e.1 ∈ aired)) episodes) in
  EpisodeRepository.upsert_target meanwhile (SeasonRequest.id (sr_row season)) aired_dates ;;
  mret aired.

(** [{state.episode_number for state in states if state.status == "imported"}]. *)
Definition imported_of (states : list SeasonEpisodeState.t) : gset Z :=
  list_to_set (SeasonEpisodeState.episode_number <$>
    List.filter (EpisodeRepository.has_state EpisodeState.imported) states).

Definition compute_missing (media_request_id season_number season_request_id : Z) (target : gset Z) : DBM (gset Z) :=
  states ← EpisodeRepository.list_for_season season_request_id;
  active ← DownloadRepository.find_active_for_request nulls_first media_request_id (Some season_number);
  let downloading :=
    match active with
    | None => ∅
    | Some r => match Download.episodes_json (DownloadRepository.dr_row r) with
                | None => target
                | Some l => list_to_set l
                end
    end in
  mret (SeasonPack.compute_missing target (imported_of states) downloading).

Definition apply_import (media_request_id season_number : Z) (imported_episodes : list Z) (download_id : Z)
    (target : gset Z) : DBM bool :=
  season ← ensure media_request_id season_number pending false;
  let i := SeasonRequest.id (sr_row season) in
  EpisodeRepository.mark_imported meanwhile i (py_sorted_ints imported_episodes) download_id ;;
  if bool_decide (target = ∅) then mret true
  else
    states ← EpisodeRepository.list_for_season i;
    mret (SeasonPack.season_is_complete target (imported_of states)).

(** ** Growth of finished seasons *)

(** [None]: the catalogue could not be asked. *)
Definition refreshed (media_request_id season_number tmdb_id today : Z) : DBM (option (gset Z)) :=
  except "TmdbApiError" (except "TmdbAuthError"
    (target ← refresh_target media_request_id season_number tmdb_id today; mret (Some target))
    (mret None)) (mret None).

(** When the newest imported pack that covers the season was grabbed. *)
Definition pack_added_at (media_request_id season_number : Z) : DBM (option Z) :=
  candidates ← DownloadRepository.imported_unscoped_pack_candidates media_request_id season_number;
  let pack_times := omap (fun c : option (list N) * Z =>
    match c.1 with
    | Some title =>
        match SeasonPack.classify_release_scope (parse title) with
        | SeasonPack.season_pack | SeasonPack.multi_season_pack => Some c.2
        | _ => None
        end
    | None => None
    end) candidates in
  mret (match pack_times with [] => None | t :: l => Some (foldl Z.max t l) end).

(** The pending episodes of the target a pack of that day can contain. *)
Definition adoptable (target : gset Z) (cutoff : Z) (states : list SeasonEpisodeState.t) : list Z :=
  SeasonEpisodeState.episode_number <$> List.filter (fun e =>
    EpisodeRepository.has_state EpisodeState.pending e && bool_decide (SeasonEpisodeState.episode_number e ∈ target)
    && match SeasonEpisodeState.air_date e with Some a => (a <? cutoff)%Z | None => false end) states.

(** A season that had rows: episodes an imported pack contains are adopted, and
    the imported set is what it then is. *)
Definition adopt_from_pack (s : SeasonRequest.t) (target imported : gset Z) (states : list SeasonEpisodeState.t)
    : DBM (gset Z) :=
  added ← pack_added_at (SeasonRequest.media_request_id s) (SeasonRequest.season_number s);
  match added with
  | None => mret imported
  | Some t =>
      match adoptable target (date_of t) states with
      | [] => mret imported
      | l => EpisodeRepository.adopt_baseline meanwhile (SeasonRequest.id s) (Some l) ;;
             mret (imported ∪ list_to_set l)
      end
  end.

(** The re-arm is undone as a whole when a newer request owns the title. *)
Definition rearm_season (s : SeasonRequest.t) (now : Z) : DBM bool :=
  except "IntegrityError" (savepoint (
    changed ← SeasonService.set_status_if_in (SeasonRequest.media_request_id s) (SeasonRequest.id s) searching
                _REARMABLE_DONE_STATUSES false false false false now;
    (if (changed : bool) then schedule_search (SeasonRequest.id s) 0 None else mret tt) ;;
    mret changed)) (mret false).

(** A season whose parent asks for the whole of it: whether it was re-armed. *)
Definition reconcile_whole (s : SeasonRequest.t) (tmdb_id now : Z) : DBM bool :=
  before ← EpisodeRepository.list_for_season (SeasonRequest.id s);
  target ← refreshed (SeasonRequest.media_request_id s) (SeasonRequest.season_number s) tmdb_id (date_of now);
  match target with
  | None => mret false
  | Some target =>
      let had_baseline := negb (bool_decide (before = [])) in
      if negb had_baseline && negb (bool_decide (target = ∅)) then
        EpisodeRepository.adopt_baseline meanwhile (SeasonRequest.id s) None ;; mret false
      else
        states ← EpisodeRepository.list_for_season (SeasonRequest.id s);
        if bool_decide (target ⊆ imported_of states) then mret false
        else
          imported ← (if had_baseline then adopt_from_pack s target (imported_of states) states
                      else mret (imported_of states));
          if had_baseline && bool_decide (target ⊆ imported) then mret false
          else rearm_season s now
  end.

Definition cached_parent (media_request_id : Z) (parents : list (Z * option MediaRequest.t))
    : DBM (option MediaRequest.t * list (Z * option MediaRequest.t)) :=
  match assoc media_request_id parents with
  | Some parent => mret (parent, parents)
  | None =>
      parent ← RequestRepository.get media_request_id;
      mret (parent, (media_request_id, parent) :: parents)
  end.

(** Every season looked at moves to the back of the queue. *)
Fixpoint reconcile_each (now : Z) (candidates : list SeasonRequestRecord)
    (parents : list (Z * option MediaRequest.t)) (rearmed : Z) : DBM Z :=
  match candidates with
  | [] => mret rearmed
  | season :: rest =>
      let s := sr_row season in
      x ← cached_parent (SeasonRequest.media_request_id s) parents;
      scoped ← lift_res (SeasonService.episode_scoped x.1 (SeasonRequest.season_number s));
      changed ← (if (scoped : bool) then mret false else reconcile_whole s (sr_tmdb_id season) now);
      mark_airing_refresh_checked (SeasonRequest.id s) now ;;
      reconcile_each now rest x.2 (rearmed + (if (changed : bool) then 1 else 0))%Z
  end.

Definition reconcile_airing (now : Z) (max_refresh : nat) : DBM Z :=
  candidates ← list_for_airing_refresh _REARMABLE_DONE_STATUSES max_refresh None;
  reconcile_each now candidates [] 0.

End service.
