(* ===== verification/DownloadLaws.v ===== *)
(** * Laws of the download tables

    The schema's guarantees on downloads, scopes, claims and episodes
    ([wf_tracked]) are kept by every method of every repository, and with them
    what any assertion needs that the statements on these tables keep. *)

From Stdlib Require Import ZArith Lia Bool String Sorted.
From S2P Require Import Prelude PyStr PyInt Release RequestStore RequestRepository RequestLaws.
From S2P Require SeasonRepository SeasonService SeasonPack.
From S2P Require Import DownloadRepository EpisodeRepository EpisodeService.

#[local] Open Scope bool_scope.

(** ** Lists *)

Lemma omap_sublist {R X} (f : R -> option X) (g : R -> R) (t : list R) :
  (forall r, f (g r) = f r \/ f (g r) = None) -> sublist (omap f (g <$> t)) (omap f t).
Proof.
  intros Hg. induction t as [|r t IH]; simpl; [constructor|].
  destruct (Hg r) as [-> | ->]; destruct (f r); simpl; by try constructor.
Qed.

Lemma omap_filter_sublist {R X} (f : R -> option X) (p : R -> bool) (t : list R) :
  sublist (omap f (List.filter p t)) (omap f t).
Proof.
  induction t as [|r t IH]; simpl; [constructor|].
  destruct (p r); simpl; destruct (f r); simpl; by try constructor.
Qed.

Lemma omap_rewritten_sublist {R X} (f : R -> option X) p g (t : list R) :
  (forall r, f (g r) = f r \/ f (g r) = None) -> sublist (omap f (rewritten p g t)) (omap f t).
Proof. intros Hg. apply (omap_sublist f (fun r => if p r then g r else r)). intros r. destruct (p r); eauto. Qed.

Lemma forallb_impl {R} (p q : R -> bool) t :
  (forall r, p r = true -> q r = true) -> forallb p t = true -> forallb q t = true.
Proof. rewrite !forallb_forall_iff. eauto. Qed.

Lemma forallb_rewritten {R} (q : R -> bool) p g t :
  (forall r, q r = true -> q (g r) = true) -> forallb q t = true -> forallb q (rewritten p g t) = true.
Proof.
  rewrite !forallb_forall_iff. intros Hg Ht r (s & -> & Hs)%list_elem_of_fmap.
  destruct (p s); [apply Hg|]; by apply Ht.
Qed.

Lemma forallb_filter_list {R} (q p : R -> bool) t : forallb q t = true -> forallb q (List.filter p t) = true.
Proof.
  rewrite !forallb_forall_iff. intros Ht r Hr. apply list_elem_of_In, List.filter_In in Hr as [Hr _].
  by apply Ht, list_elem_of_In.
Qed.

Lemma refers_grow o l k : l ⊆ k -> refers o l = true -> refers o k = true.
Proof. intros Hl. destruct o as [i|]; [|done]. simpl. rewrite !mem_true. apply Hl. Qed.

Lemma mem_grow i (l k : list Z) : l ⊆ k -> mem i l = true -> mem i k = true.
Proof. intros Hl. rewrite !mem_true. apply Hl. Qed.

(** ** Columns that no statement changes *)

Lemma download_assign_id values x : Download.id (Download.assign_all values x) = Download.id x.
Proof. revert x; induction values as [|[] l IH]; intros []; cbn; try done; apply IH. Qed.
Lemma download_assign_hash values x : Download.torrent_hash (Download.assign_all values x) = Download.torrent_hash x.
Proof. revert x; induction values as [|[] l IH]; intros []; cbn; try done; apply IH. Qed.

Lemma scope_assign values s :
  DownloadScope.id (DownloadScope.assign_all values s) = DownloadScope.id s /\
  DownloadScope.download_id (DownloadScope.assign_all values s) = DownloadScope.download_id s /\
  DownloadScope.season_number (DownloadScope.assign_all values s) = DownloadScope.season_number s /\
  DownloadScope.episodes_json (DownloadScope.assign_all values s) = DownloadScope.episodes_json s /\
  DownloadScope.scope_key (DownloadScope.assign_all values s) = DownloadScope.scope_key s.
Proof. revert s; induction values as [|[] l IH]; intros []; cbn; try done; apply IH. Qed.

Lemma claim_assign values c :
  DownloadCoverageClaim.id (DownloadCoverageClaim.assign_all values c) = DownloadCoverageClaim.id c /\
  DownloadCoverageClaim.download_id (DownloadCoverageClaim.assign_all values c) = DownloadCoverageClaim.download_id c /\
  DownloadCoverageClaim.season_number (DownloadCoverageClaim.assign_all values c)
  = DownloadCoverageClaim.season_number c.
Proof. revert c; induction values as [|[] l IH]; intros []; cbn; try done; apply IH. Qed.

Lemma episode_assign values e :
  SeasonEpisodeState.id (SeasonEpisodeState.assign_all values e) = SeasonEpisodeState.id e /\
  episode_key (SeasonEpisodeState.assign_all values e) = episode_key e.
Proof.
  revert e; induction values as [|v l IH]; intros e; [done|].
  change (SeasonEpisodeState.assign_all (v :: l) e)
    with (SeasonEpisodeState.assign_all l (SeasonEpisodeState.assign e v)). destruct (IH (SeasonEpisodeState.assign e v)) as [-> ->].
  by destruct v, e.
Qed.

(** ** The schema *)

Lemma keys_ok_snoc ids next : keys_ok ids next -> keys_ok (ids ++ [next]) (next + 1).
Proof.
  intros [H1 H2]. split; [by apply sorted_snoc|]. apply Forall_app. split; [by apply Forall_lt_succ|].
  repeat constructor. lia.
Qed.
Lemma keys_ok_next ids next : keys_ok ids next -> keys_ok ids (next + 1).
Proof. intros [H1 H2]. split; [done | by apply Forall_lt_succ]. Qed.
Lemma keys_ok_sublist ids ids' next : sublist ids' ids -> keys_ok ids next -> keys_ok ids' next.
Proof.
  intros Hs [H1 H2]. split; [by eapply sorted_sublist | by eapply sublist_Forall].
Qed.

#[export] Hint Resolve keys_ok_snoc keys_ok_next : keeps.

Lemma downloads_ok_grow d d' t : request_ids d ⊆ request_ids d' -> downloads_ok d t = true -> downloads_ok d' t = true.
Proof.
  intros Hr [H H3]%andb_prop. unfold downloads_ok. rewrite H. simpl.
  eapply forallb_impl; [|exact H3]. intros x. by apply refers_grow.
Qed.

Lemma scopes_ok_grow d d' t : request_ids d ⊆ request_ids d' -> season_ids d ⊆ season_ids d' ->
  download_ids d ⊆ download_ids d' -> scopes_ok d t = true -> scopes_ok d' t = true.
Proof.
  intros Hr Hs Hd [H H2]%andb_prop. unfold scopes_ok. rewrite H. simpl.
  eapply forallb_impl; [|exact H2]. intros s [[H3 H4]%andb_prop H5]%andb_prop.
  by rewrite (mem_grow _ _ _ Hd H3), (refers_grow _ _ _ Hr H4), (refers_grow _ _ _ Hs H5).
Qed.

Lemma claims_ok_grow d d' t : request_ids d ⊆ request_ids d' -> download_ids d ⊆ download_ids d' ->
  claims_ok d t = true -> claims_ok d' t = true.
Proof.
  intros Hr Hd [H H2]%andb_prop. unfold claims_ok. rewrite H. simpl.
  eapply forallb_impl; [|exact H2]. intros c [H3 H4]%andb_prop.
  by rewrite (mem_grow _ _ _ Hd H3), (refers_grow _ _ _ Hr H4).
Qed.

Lemma episodes_ok_grow d d' t : season_ids d ⊆ season_ids d' -> download_ids d ⊆ download_ids d' ->
  episodes_ok d t = true -> episodes_ok d' t = true.
Proof.
  intros Hr Hd [H H2]%andb_prop. unfold episodes_ok. rewrite H. simpl.
  eapply forallb_impl; [|exact H2]. intros c [H3 H4]%andb_prop.
  by rewrite (mem_grow _ _ _ Hr H3), (refers_grow _ _ _ Hd H4).
Qed.

(** What the schema of these tables reads of the database. *)
Lemma tracked_grow d d' : request_ids d ⊆ request_ids d' -> season_ids d ⊆ season_ids d' ->
  downloads d' = downloads d -> download_scopes d' = download_scopes d ->
  coverage_claims d' = coverage_claims d -> episode_states d' = episode_states d ->
  next_download_id d' = next_download_id d -> next_scope_id d' = next_scope_id d ->
  next_claim_id d' = next_claim_id d -> next_episode_id d' = next_episode_id d ->
  wf_tracked d -> wf_tracked d'.
Proof.
  intros Hr Hs E1 E2 E3 E4 E5 E6 E7 E8 [H1 H2 H3 H4 H5 H6 H7 H8].
  assert (download_ids d' = download_ids d) as Ed by (unfold download_ids; by rewrite E1).
  split; rewrite ?E1, ?E2, ?E3, ?E4, ?E5, ?E6, ?E7, ?E8, ?Ed; try done.
  - by eapply downloads_ok_grow.
  - eapply scopes_ok_grow; [done|done|by rewrite Ed|done].
  - eapply claims_ok_grow; [done|by rewrite Ed|done].
  - eapply episodes_ok_grow; [done|by rewrite Ed|done].
Qed.

(** *** The writes of the request tables *)

Lemma rewritten_request_ids p values t :
  MediaRequest.id <$> rewritten p (MediaRequest.assign_all values) t = MediaRequest.id <$> t.
Proof. apply rewritten_keeps. intros r. apply assign_all_id. Qed.

Lemma rewritten_season_ids p values t :
  SeasonRequest.id <$> rewritten p (SeasonRequest.assign_all values) t = SeasonRequest.id <$> t.
Proof. apply rewritten_keeps. intros r. apply assign_all_season. Qed.

Lemma tracked_requests_update p values : keeps wf_tracked (update_requests p values).
Proof.
  intros d Hd. unfold update_requests. destruct (bool_decide _); [|done]. simpl.
  eapply tracked_grow; [..|exact Hd]; try done. unfold request_ids. simpl. by rewrite rewritten_request_ids.
Qed.

Lemma tracked_seasons_update p values : keeps wf_tracked (update_seasons p values).
Proof.
  intros d Hd. unfold update_seasons. simpl.
  eapply tracked_grow; [..|exact Hd]; try done. unfold season_ids. simpl. by rewrite rewritten_season_ids.
Qed.

Lemma tracked_insert_request row : keeps wf_tracked (insert_request row).
Proof.
  intros d Hd. unfold insert_request. destruct (bool_decide _); simpl; (eapply tracked_grow; [..|exact Hd]; try done).
  unfold request_ids. simpl. rewrite fmap_app. set_solver.
Qed.

Lemma tracked_insert_season row : keeps wf_tracked (insert_season row).
Proof.
  intros d Hd. unfold insert_season. destruct (_ && _); simpl; (eapply tracked_grow; [..|exact Hd]; try done).
  unfold season_ids. simpl. rewrite fmap_app. set_solver.
Qed.

Lemma tracked_add_subscriber i u now : keeps wf_tracked (add_subscriber i u now).
Proof.
  intros d Hd. unfold add_subscriber. destruct (is_subscribed d i u); [done|]. destruct (mem i _); [|done].
  simpl. by eapply tracked_grow; [..|exact Hd].
Qed.

Lemma tracked_remove_subscriber i u : keeps wf_tracked (remove_subscriber i u).
Proof. intros d Hd. simpl. by eapply tracked_grow; [..|exact Hd]. Qed.

(** Rows that lose their parent. *)
Lemma forget_or gone o : forget gone o = o \/ forget gone o = None.
Proof. destruct o as [i|]; simpl; [|eauto]. destruct (mem i gone); eauto. Qed.

Lemma kept_ids {R} (key : R -> Z) (p : R -> bool) (t : list R) i :
  i ∈ key <$> t -> i ∉ key <$> List.filter p t -> i ∈ key <$> List.filter (fun r => negb (p r)) t.
Proof.
  intros (r & -> & Hr)%list_elem_of_fmap Hn. apply list_elem_of_fmap. exists r. split; [done|].
  apply list_elem_of_In, List.filter_In. split; [by apply list_elem_of_In|]. destruct (p r) eqn:Hp; [|done].
  exfalso. apply Hn, list_elem_of_fmap. exists r. split; [done|]. apply list_elem_of_In, List.filter_In.
  by apply list_elem_of_In in Hr.
Qed.

Lemma refers_forget {R} (key : R -> Z) (p : R -> bool) (t : list R) o :
  refers o (key <$> t) = true ->
  refers (forget (key <$> List.filter p t) o) (key <$> List.filter (fun r => negb (p r)) t) = true.
Proof.
  destruct o as [i|]; [|done]. simpl. rewrite mem_true. intros Hi.
  destruct (mem i (key <$> List.filter p t)) eqn:Hg; [done|]. simpl. apply mem_true.
  apply mem_false in Hg. by apply kept_ids.
Qed.

Lemma download_key_forget o x : o = Download.media_request_id x \/ o = None ->
  let y := Download.assign x (Download.set_media_request_id o) in
  download_key y = download_key x \/ download_key y = None.
Proof. intros [->| ->]; [left; by destruct x|right; by destruct x]. Qed.

Lemma scope_index_forget o q s : o = DownloadScope.media_request_id s \/ o = None ->
  let y := DownloadScope.assign_all [DownloadScope.set_media_request_id o; DownloadScope.set_season_request_id q] s in
  scope_index y = scope_index s \/ scope_index y = None.
Proof. intros [->| ->]; [left; by destruct s|right; by destruct s]. Qed.

Lemma claim_index_forget o c : o = DownloadCoverageClaim.media_request_id c \/ o = None ->
  let y := DownloadCoverageClaim.assign c (DownloadCoverageClaim.set_media_request_id o) in
  claim_index y = claim_index c \/ claim_index y = None.
Proof. intros [->| ->]; [left; by destruct c|right; by destruct c]. Qed.

Lemma forallb_fmap_list {R} (q q' : R -> bool) (g : R -> R) t :
  (forall r, q r = true -> q' (g r) = true) -> forallb q t = true -> forallb q' (g <$> t) = true.
Proof.
  rewrite !forallb_forall_iff. intros Hg Ht r (s & -> & Hs)%list_elem_of_fmap. by apply Hg, Ht.
Qed.

Lemma fmap_same_key {R X} (key : R -> X) (g : R -> R) (t : list R) :
  (forall r, key (g r) = key r) -> key <$> t ⊆ key ∘ g <$> t.
Proof. intros Hg. rewrite (list_fmap_ext (key ∘ g) key t); [done|]. intros i r _. apply Hg. Qed.

Lemma tracked_delete_requests p : keeps wf_tracked (delete_requests p).
Proof.
  intros d [H1 H2 H3 H4 H5 H6 H7 H8]. unfold delete_requests. cbv zeta. cbn [snd].
  set (gone := MediaRequest.id <$> List.filter p (media_requests d)).
  set (orphan := fun s => mem (SeasonRequest.media_request_id s) gone).
  set (gone_seasons := SeasonRequest.id <$> List.filter orphan (season_requests d)).
  apply andb_prop in H5 as [[H5 H5']%andb_prop H5'']. apply bool_decide_eq_true in H5, H5'.
  apply andb_prop in H6 as [H6 H6']. apply bool_decide_eq_true in H6.
  apply andb_prop in H7 as [H7 H7']. apply bool_decide_eq_true in H7.
  apply andb_prop in H8 as [H8 H8']. apply bool_decide_eq_true in H8.
  split; unfold download_ids, downloads_ok, scopes_ok, claims_ok, episodes_ok, request_ids, season_ids; simpl;
    unfold download_ids; simpl; rewrite <- ?list_fmap_compose.
  - erewrite list_fmap_ext; [exact H1|]. by intros i [].
  - erewrite list_fmap_ext; [exact H2|]. by intros i [].
  - erewrite list_fmap_ext; [exact H3|]. by intros i [].
  - eapply keys_ok_sublist; [apply filter_fmap_sublist | exact H4].
  - rewrite !andb_true_iff, !bool_decide_eq_true. split; [split|].
    + erewrite list_fmap_ext; [exact H5|]. by intros i [].
    + eapply sublist_NoDup; [exact H5'|]. apply omap_sublist. intros x. apply download_key_forget, forget_or.
    + eapply forallb_fmap_list; [|exact H5'']. intros [] Hx. by apply refers_forget.
  - rewrite andb_true_iff, bool_decide_eq_true. split.
    + eapply sublist_NoDup; [exact H6|]. apply omap_sublist. intros s. apply scope_index_forget, forget_or.
    + eapply forallb_fmap_list; [|exact H6']. intros [] [[Ha Hb]%andb_prop Hc]%andb_prop.
      rewrite !andb_true_iff. split; [split|]; [|by apply refers_forget|by apply refers_forget].
      eapply mem_grow; [|exact Ha]. apply fmap_same_key. by intros [].
  - rewrite andb_true_iff, bool_decide_eq_true. split.
    + eapply sublist_NoDup; [exact H7|]. apply omap_sublist. intros c. apply claim_index_forget, forget_or.
    + eapply forallb_fmap_list; [|exact H7']. intros [] [Ha Hb]%andb_prop.
      rewrite andb_true_iff. split; [|by apply refers_forget].
      eapply mem_grow; [|exact Ha]. apply fmap_same_key. by intros [].
  - rewrite andb_true_iff, bool_decide_eq_true. split.
    + eapply sublist_NoDup; [exact H8 | apply filter_fmap_sublist].
    + apply forallb_forall_iff. intros e [He Hg]%list_elem_of_In%List.filter_In.
      apply list_elem_of_In in He. rewrite forallb_forall_iff in H8'. apply H8' in He as [Ha Hb]%andb_prop.
      rewrite andb_true_iff. apply negb_true_iff, mem_false in Hg. apply mem_true in Ha. split.
      * by apply mem_true, kept_ids.
      * eapply refers_grow; [|exact Hb]. apply fmap_same_key. by intros [].
Qed.

#[export] Instance tracked_stable : Stable wf_tracked.
Proof.
  constructor; [constructor|]; intros.
  - apply tracked_requests_update.
  - apply tracked_seasons_update.
  - apply tracked_insert_request.
  - apply tracked_insert_season.
  - apply tracked_delete_requests.
  - apply tracked_add_subscriber.
  - apply tracked_remove_subscriber.
Qed.

(** *** The writes of the tracked tables *)

Lemma rewritten_download_ids p values t :
  Download.id <$> rewritten p (Download.assign_all values) t = Download.id <$> t.
Proof. apply rewritten_keeps, download_assign_id. Qed.

Lemma keeps_checked {A} (P : db -> Prop) ok (x : A) (d d' : db) :
  P d' -> (ok = true -> P d) -> P (checked ok x d d').2.
Proof. intros Hd Hok. unfold checked. destruct ok; simpl; auto. Qed.

Lemma tracked_update_downloads p values : keeps wf_tracked (update_downloads p values).
Proof.
  intros d Hd. pose proof Hd as [H1 H2 H3 H4 H5 H6 H7 H8].
  unfold update_downloads; apply keeps_checked; [done|]. intros Hok.
  assert (download_ids (with_downloads (rewritten p (Download.assign_all values) (downloads d)) d) = download_ids d)
    as Hi by apply rewritten_download_ids.
  split; try done; rewrite ?Hi; try done.
  - eapply scopes_ok_grow; [..|exact H6]; try done. by rewrite Hi.
  - eapply claims_ok_grow; [..|exact H7]; try done. by rewrite Hi.
  - eapply episodes_ok_grow; [..|exact H8]; try done. by rewrite Hi.
Qed.

Lemma tracked_insert_download row : (forall i, Download.id (row i) = i) -> keeps wf_tracked (insert_download row).
Proof.
  intros Hid d Hd. pose proof Hd as [H1 H2 H3 H4 H5 H6 H7 H8]. unfold insert_download.
  set (t := downloads d ++ [row (next_download_id d)]).
  assert (Download.id <$> t = download_ids d ++ [next_download_id d]) as Ht
    by (unfold t; rewrite fmap_app; simpl; by rewrite Hid).
  unfold insert_download; apply keeps_checked.
  { split; try done. by apply keys_ok_next. }
  intros Hok. assert (download_ids d ⊆ Download.id <$> t) as Hi by (rewrite Ht; set_solver).
  split; try done.
  - unfold download_ids. simpl. rewrite Ht. by apply keys_ok_snoc.
  - eapply scopes_ok_grow; [..|exact H6]; done.
  - eapply claims_ok_grow; [..|exact H7]; done.
  - eapply episodes_ok_grow; [..|exact H8]; done.
Qed.

Lemma tracked_update_scopes p values : keeps wf_tracked (update_scopes p values).
Proof.
  intros d [H1 H2 H3 H4 H5 H6 H7 H8]. unfold update_scopes; apply keeps_checked; [done|]. intros Hok.
  split; try done. simpl. rewrite (rewritten_keeps DownloadScope.id); [done|]. intros s. apply scope_assign.
Qed.

Lemma tracked_insert_scope row : (forall i, DownloadScope.id (row i) = i) -> keeps wf_tracked (insert_scope row).
Proof.
  intros Hid d [H1 H2 H3 H4 H5 H6 H7 H8].
  unfold insert_scope; apply keeps_checked.
  { split; try done. by apply keys_ok_next. }
  intros Hok. split; try done. simpl. rewrite fmap_app. simpl. rewrite Hid. by apply keys_ok_snoc.
Qed.

Lemma scopes_ok_filter d p t : scopes_ok d t = true -> scopes_ok d (List.filter p t) = true.
Proof.
  intros [H1 H2]%andb_prop. apply bool_decide_eq_true in H1. unfold scopes_ok.
  rewrite andb_true_iff, bool_decide_eq_true. split; [|by apply forallb_filter_list].
  eapply sublist_NoDup; [exact H1 | apply omap_filter_sublist].
Qed.

Lemma tracked_delete_scopes p : keeps wf_tracked (delete_scopes p).
Proof.
  intros d [H1 H2 H3 H4 H5 H6 H7 H8]. split; try done; simpl.
  - eapply keys_ok_sublist; [apply filter_fmap_sublist | exact H2].
  - by apply scopes_ok_filter.
Qed.

Lemma tracked_update_claims p values : keeps wf_tracked (update_claims p values).
Proof.
  intros d [H1 H2 H3 H4 H5 H6 H7 H8]. unfold update_claims; apply keeps_checked; [done|]. intros Hok.
  split; try done. simpl. rewrite (rewritten_keeps DownloadCoverageClaim.id); [done|]. intros s. apply claim_assign.
Qed.

Lemma tracked_insert_claim row : (forall i, DownloadCoverageClaim.id (row i) = i) ->
  keeps wf_tracked (insert_claim row).
Proof.
  intros Hid d [H1 H2 H3 H4 H5 H6 H7 H8].
  unfold insert_claim; apply keeps_checked.
  { split; try done. by apply keys_ok_next. }
  intros Hok. split; try done. simpl. rewrite fmap_app. simpl. rewrite Hid. by apply keys_ok_snoc.
Qed.

Lemma tracked_update_episodes p values : keeps wf_tracked (update_episodes p values).
Proof.
  intros d [H1 H2 H3 H4 H5 H6 H7 H8]. unfold update_episodes; apply keeps_checked; [done|]. intros Hok.
  split; try done. simpl. rewrite (rewritten_keeps SeasonEpisodeState.id); [done|]. intros s. apply episode_assign.
Qed.

Lemma tracked_insert_episode row : (forall i, SeasonEpisodeState.id (row i) = i) ->
  keeps wf_tracked (insert_episode row).
Proof.
  intros Hid d [H1 H2 H3 H4 H5 H6 H7 H8].
  unfold insert_episode; apply keeps_checked.
  { split; try done. by apply keys_ok_next. }
  intros Hok. split; try done. simpl. rewrite fmap_app. simpl. rewrite Hid. by apply keys_ok_snoc.
Qed.

Lemma episodes_ok_filter d p t : episodes_ok d t = true -> episodes_ok d (List.filter p t) = true.
Proof.
  intros [H1 H2]%andb_prop. apply bool_decide_eq_true in H1. unfold episodes_ok.
  rewrite andb_true_iff, bool_decide_eq_true. split; [|by apply forallb_filter_list].
  eapply sublist_NoDup; [exact H1 | apply filter_fmap_sublist].
Qed.

Lemma tracked_delete_episodes p : keeps wf_tracked (delete_episodes p).
Proof.
  intros d [H1 H2 H3 H4 H5 H6 H7 H8]. split; try done; simpl.
  - eapply keys_ok_sublist; [apply filter_fmap_sublist | exact H4].
  - by apply episodes_ok_filter.
Qed.

(** ** Assertions the writes of these tables keep *)

(** A scope row as the repository writes it: normalized, and its key is the text
    of its season and episodes. *)
Definition keyed (s : DownloadScope.t) : Prop :=
  _normalize_episodes (DownloadScope.episodes_json s) = DownloadScope.episodes_json s /\
  DownloadScope.scope_key s = _scope_key (DownloadScope.season_number s) (DownloadScope.episodes_json s).

Class Downloaded (P : db -> Prop) : Prop := {
  kept_update_downloads p values : keeps P (update_downloads p values);
  kept_insert_download row : (forall i, Download.id (row i) = i) -> keeps P (insert_download row);
}.

Class Scoped (P : db -> Prop) : Prop := {
  kept_update_scopes p values : keeps P (update_scopes p values);
  kept_insert_scope row : (forall i, DownloadScope.id (row i) = i) -> (forall i, keyed (row i)) ->
    keeps P (insert_scope row);
  kept_delete_scopes p : keeps P (delete_scopes p);
}.

Class Claimed (P : db -> Prop) : Prop := {
  kept_update_claims p values : keeps P (update_claims p values);
  kept_insert_claim row : (forall i, DownloadCoverageClaim.id (row i) = i) -> keeps P (insert_claim row);
}.

Class Tracked (P : db -> Prop) : Prop := {
  kept_downloaded :: Downloaded P;
  kept_scoped :: Scoped P;
  kept_claimed :: Claimed P;
}.

Class Collected (P : db -> Prop) : Prop := {
  kept_update_episodes p values : keeps P (update_episodes p values);
  kept_insert_episode row : (forall i, SeasonEpisodeState.id (row i) = i) -> keeps P (insert_episode row);
  kept_delete_episodes p : keeps P (delete_episodes p);
}.

#[export] Hint Resolve kept_update_downloads kept_update_scopes kept_delete_scopes kept_update_claims
  kept_update_episodes kept_delete_episodes kept_downloaded kept_scoped kept_claimed : keeps.

#[export] Instance tracked_tracked : Tracked wf_tracked.
Proof.
  constructor; constructor; intros.
  - apply tracked_update_downloads.
  - by apply tracked_insert_download.
  - apply tracked_update_scopes.
  - by apply tracked_insert_scope.
  - apply tracked_delete_scopes.
  - apply tracked_update_claims.
  - by apply tracked_insert_claim.
Qed.

#[export] Instance tracked_collected : Collected wf_tracked.
Proof.
  constructor; intros.
  - apply tracked_update_episodes.
  - by apply tracked_insert_episode.
  - apply tracked_delete_episodes.
Qed.

(** The tables of requests and seasons, which none of them writes. *)
Definition same_requests (d d' : db) : Prop :=
  media_requests d' = media_requests d /\ season_requests d' = season_requests d /\
  request_subscribers d' = request_subscribers d /\ watchlist_items d' = watchlist_items d /\
  download_history d' = download_history d /\
  next_request_id d' = next_request_id d /\ next_season_id d' = next_season_id d.

Ltac by_cases_of_check :=
  cbv [update_downloads insert_download update_scopes insert_scope update_claims insert_claim
       update_episodes insert_episode checked]; by destruct (_ : bool).

#[export] Instance same_requests_tracked d0 : Tracked (same_requests d0).
Proof.
  constructor; constructor; intros; intros d (E1 & E2 & E3 & E4 & E5 & E6 & E7);
    first [ repeat split; done | by_cases_of_check ].
Qed.
#[export] Instance same_requests_collected d0 : Collected (same_requests d0).
Proof.
  constructor; intros; intros d (E1 & E2 & E3 & E4 & E5 & E6 & E7);
    first [ repeat split; done | by_cases_of_check ].
Qed.

Lemma wf_same d d' : same_requests d d' -> wf d -> wf d'.
Proof.
  intros (E1 & E2 & E3 & E4 & E5 & E6 & E7) [H1 H2 H3 H4 H5 H6 H7 H8 H9].
  split; by rewrite ?E1, ?E2, ?E3, ?E6, ?E7.
Qed.

Lemma same_requests_refl d : same_requests d d.
Proof. by repeat split. Qed.

#[export] Instance wf_tracked_by_others : Tracked wf.
Proof.
  constructor; constructor; intros; intros d Hd; (eapply wf_same; [|exact Hd]);
    pose proof (same_requests_tracked d) as [[K1 K2] [K3 K4 K5] [K6 K7]];
    first [apply K1 | by apply K2 | apply K3 | by apply K4 | apply K5 | apply K6 | by apply K7];
    apply same_requests_refl.
Qed.
#[export] Instance wf_collected : Collected wf.
Proof.
  constructor; intros; intros d Hd; (eapply wf_same; [|exact Hd]);
    pose proof (same_requests_collected d) as [K1 K2 K3];
    first [apply K1 | by apply K2 | apply K3]; apply same_requests_refl.
Qed.

(** *** The scope keys *)

Definition keyed_scopes (d : db) : Prop := Forall keyed (download_scopes d).

Lemma keyed_assign values s : keyed s -> keyed (DownloadScope.assign_all values s).
Proof. unfold keyed. destruct (scope_assign values s) as (_ & _ & -> & -> & ->). done. Qed.

#[export] Instance keyed_tracked : Tracked keyed_scopes.
Proof.
  constructor; constructor; intros; intros d Hd; unfold keyed_scopes in *; try by_cases_of_check; try done.
  - unfold update_scopes, checked. destruct (scopes_ok _ _); [|done]. simpl. unfold rewritten.
    apply Forall_fmap. eapply Forall_impl; [exact Hd|]. intros s Hs. simpl.
    destruct (p s); [by apply keyed_assign | done].
  - unfold insert_scope, checked. destruct (scopes_ok _ _); [|done]. simpl.
    apply Forall_app. split; [done|]. by constructor.
  - simpl. rewrite Forall_forall in *. intros s [Hs _]%list_elem_of_In%List.filter_In.
    by apply Hd, list_elem_of_In.
Qed.
#[export] Instance keyed_collected : Collected keyed_scopes.
Proof. constructor; intros; intros d Hd; unfold keyed_scopes in *; first [done | by_cases_of_check]. Qed.

#[export] Instance keyed_stable : Stable keyed_scopes.
Proof.
  constructor; [constructor|]; intros; intros d Hd; unfold keyed_scopes in *.
  - unfold update_requests. by destruct (bool_decide _).
  - done.
  - unfold insert_request. by destruct (bool_decide _).
  - unfold insert_season. by destruct (_ && _).
  - apply Forall_fmap. eapply Forall_impl; [exact Hd|]. intros s Hs.
    by apply (keyed_assign [DownloadScope.set_media_request_id _; DownloadScope.set_season_request_id _]).
  - unfold add_subscriber. destruct (is_subscribed _ _ _); [done|]. by destruct (mem _ _).
  - done.
Qed.

(** ** Every method *)

Lemma sorted_set_ext l l' : (forall x, x ∈ l <-> x ∈ l') -> sorted_set l = sorted_set l'.
Proof.
  intros Hl. apply py_sorted_ints_perm, NoDup_Permutation; [apply NoDup_remove_dups..|].
  intros x. by rewrite !elem_of_remove_dups.
Qed.

Lemma normalize_normalized value : _normalize_episodes (_normalize_episodes value) = _normalize_episodes value.
Proof.
  unfold _normalize_episodes at 2 3. destruct (sorted_set (default [] value)) as [|x l] eqn:He; [done|].
  unfold _normalize_episodes. simpl. rewrite <- He.
  rewrite (sorted_set_ext (sorted_set _) (default [] value)); [by rewrite He|]. intros y. apply elem_of_sorted_set.
Qed.

Section scoped.
Context (P : db -> Prop) {HP : Scoped P}.

Lemma kept_scope_row i : keeps P (scope_row i).
Proof. unfold scope_row. auto with keeps. Qed.
#[local] Hint Resolve kept_scope_row : keeps.

Lemma kept_ensure_scope i m n e : keeps P (ensure_scope i m n e).
Proof.
  unfold ensure_scope. apply keeps_bind; [auto with keeps|]. intros rows.
  destruct (matching_scope _ _ _) as [s|[s|]]; [auto with keeps|auto with keeps|].
  apply keeps_bind; [auto with keeps|]. intros q. apply keeps_bind; [|auto with keeps].
  apply kept_insert_scope; [done|]. intros j. split; simpl; [apply normalize_normalized|done].
Qed.
#[local] Hint Resolve kept_ensure_scope : keeps.

Lemma kept_replace_scope_set i m n e : keeps P (_replace_scope_set i m n e).
Proof. unfold _replace_scope_set. destruct m, n; auto with keeps. Qed.

Lemma kept_scope_status i s from : keeps P (update_scope_status_if_in i s from).
Proof. unfold update_scope_status_if_in. auto with keeps. Qed.

End scoped.

Section claimed.
Context (P : db -> Prop) {HP : Claimed P}.

Lemma kept_ensure_coverage_claim i m n : keeps P (ensure_coverage_claim i m n).
Proof.
  unfold ensure_coverage_claim. apply keeps_bind; [auto with keeps|]. intros [c|]; [auto with keeps|].
  apply keeps_bind; [by apply kept_insert_claim | auto with keeps].
Qed.

Lemma kept_release i now : keeps P (release_coverage_claims i now).
Proof. unfold release_coverage_claims. auto with keeps. Qed.

Lemma kept_release_resolved i l now : keeps P (release_resolved_target_coverage_claims i l now).
Proof.
  unfold release_resolved_target_coverage_claims. destruct l; [auto with keeps|].
  apply keeps_bind; [auto with keeps|]. intros []; auto with keeps.
Qed.

End claimed.

#[export] Hint Resolve kept_scope_row kept_ensure_scope kept_replace_scope_set kept_scope_status
  kept_ensure_coverage_claim kept_release kept_release_resolved : keeps.

Section downloaded.
Context (P : db -> Prop) {HP : Downloaded P} (nulls_first : bool).

Lemma kept_lock p i : keeps P (lock_if p i).
Proof. unfold lock_if. auto with keeps. Qed.

Lemma kept_align i : keeps P (align_scalar_scope_with_active nulls_first i).
Proof.
  unfold align_scalar_scope_with_active, download_row. apply keeps_bind; [auto with keeps|].
  intros [x|]; [|auto with keeps]. apply keeps_bind; [auto with keeps|]. intros [|s l]; auto with keeps.
Qed.

Lemma kept_increment i from : keeps P (increment_retry_count_if_in i from).
Proof. unfold increment_retry_count_if_in. auto with keeps. Qed.

Lemma kept_refresh_progress i p r t c : keeps P (refresh_progress i p r t c).
Proof. unfold refresh_progress, download_row. apply keeps_bind; [auto with keeps|]. intros [x|]; auto with keeps. Qed.

End downloaded.

Section tracked.
Context (P : db -> Prop) {HP : Tracked P} {DB : UnicodeDB}.

Lemma kept_create h s m g t y n e k r o a b c now : keeps P (create h s m g t y n e k r o a b c now).
Proof.
  unfold create. apply keeps_bind; [auto with keeps|]. intros kind. cbv zeta.
  apply keeps_bind; [by apply kept_insert_download|]. intros i. destruct m, n; auto with keeps.
Qed.

Lemma kept_after_write i s u now : keeps P (after_write i s u now).
Proof. unfold after_write. auto with keeps. Qed.
#[local] Hint Resolve kept_after_write : keeps.

Lemma kept_update_status i s u now : keeps P (update_status i s u now).
Proof.
  unfold update_status, download_row. apply keeps_bind; [auto with keeps|]. intros [x|]; auto with keeps.
Qed.

Lemma kept_update_status_if_in i s from c now : keeps P (update_status_if_in i s from c now).
Proof. unfold update_status_if_in. auto 10 with keeps. Qed.

End tracked.

(** *** Episodes *)

Section collected.
Context (P : db -> Prop) {HP : Collected P}.
Context (meanwhile : db -> db) (Hm : forall d, P d -> P (meanwhile d)).

Lemma kept_interrupted : keeps P (interrupted meanwhile).
Proof. intros d. apply Hm. Qed.

Lemma kept_assign_row row values : keeps P (assign_row row values).
Proof. unfold assign_row. destruct (List.filter _ _); auto with keeps. Qed.

Lemma kept_insert_or_reread s n st a g : keeps P (_insert_or_reread (new_row s n st a g)).
Proof.
  unfold _insert_or_reread. apply keeps_except; [|auto with keeps]. apply keeps_savepoint.
  apply keeps_bind; [by apply kept_insert_episode | auto with keeps].
Qed.
#[local] Hint Resolve kept_interrupted kept_assign_row kept_insert_or_reread : keeps.

Lemma kept_seed s existing aired : keeps P (seed_target s existing aired).
Proof.
  induction aired as [|[n a] l IH]; simpl; [auto with keeps|].
  apply keeps_bind; [destruct (existing_row _ _); auto with keeps | done].
Qed.
Lemma kept_retire aired existing : keeps P (retire aired existing).
Proof. induction existing as [|row l IH]; simpl; auto 10 with keeps. Qed.
Lemma kept_grab_each s i existing l : keeps P (grab_each s i existing l).
Proof.
  induction l as [|n l IH]; simpl; [auto with keeps|].
  apply keeps_bind; [destruct (existing_row _ _); auto with keeps | done].
Qed.
Lemma kept_import_each s i existing l : keeps P (import_each s i existing l).
Proof.
  induction l as [|n l IH]; simpl; [auto with keeps|]. apply keeps_bind; [|done].
  unfold import_one, _reread_one. destruct (existing_row _ _); auto 10 with keeps.
Qed.
Lemma kept_adopt_each w existing : keeps P (adopt_each w existing).
Proof. induction existing as [|row l IH]; simpl; auto 10 with keeps. Qed.
#[local] Hint Resolve kept_seed kept_retire kept_grab_each kept_import_each kept_adopt_each : keeps.

Lemma kept_upsert_target s aired : keeps P (upsert_target meanwhile s aired).
Proof. unfold upsert_target, _existing_by_episode. auto 10 with keeps. Qed.
Lemma kept_mark_grabbed s l i : keeps P (mark_grabbed meanwhile s l i).
Proof. unfold mark_grabbed, _existing_by_episode. auto 10 with keeps. Qed.
Lemma kept_mark_imported s l i : keeps P (mark_imported meanwhile s l i).
Proof. unfold mark_imported, _existing_by_episode. auto 10 with keeps. Qed.
Lemma kept_adopt_baseline s w : keeps P (adopt_baseline meanwhile s w).
Proof. unfold adopt_baseline, _existing_by_episode. auto 10 with keeps. Qed.

End collected.

#[export] Hint Resolve kept_scope_row kept_ensure_scope kept_replace_scope_set kept_ensure_coverage_claim kept_release
  kept_release_resolved kept_create kept_lock kept_align kept_after_write kept_update_status
  kept_update_status_if_in kept_increment kept_scope_status kept_refresh_progress kept_interrupted kept_assign_row
  kept_insert_or_reread kept_upsert_target kept_mark_grabbed kept_mark_imported kept_adopt_baseline
  tracked_tracked tracked_collected tracked_stable wf_tracked_by_others wf_collected keyed_tracked
  keyed_collected keyed_stable : keeps.

(** *** The episode service *)

Section service.
Context (P : db -> Prop) {HS : Growing P} {HT : Collected P} {DB : UnicodeDB}.
Context (meanwhile : db -> db) (Hm : forall d, P d -> P (meanwhile d)).
Context (metadata : Z -> Z -> res (list (Z * option Z))) (parse : list N -> ParsedRelease).

Lemma kept_list_for_season s : keeps P (EpisodeRepository.list_for_season s).
Proof. unfold EpisodeRepository.list_for_season. auto with keeps. Qed.
#[local] Hint Resolve kept_list_for_season : keeps.

Lemma kept_refresh_target m n t today : keeps P (refresh_target meanwhile metadata m n t today).
Proof. unfold refresh_target. auto 10 with keeps. Qed.
#[local] Hint Resolve kept_refresh_target : keeps.

Lemma kept_apply_import m n l i target : keeps P (apply_import meanwhile m n l i target).
Proof. unfold apply_import. auto 10 with keeps. Qed.

Lemma kept_adopt_from_pack s target imported states : keeps P (adopt_from_pack meanwhile parse s target imported states).
Proof.
  unfold adopt_from_pack, pack_added_at, imported_unscoped_pack_candidates.
  apply keeps_bind; [auto with keeps|]. intros [t|]; [|auto with keeps].
  destruct (adoptable _ _ _); auto with keeps.
Qed.

Lemma kept_rearm s now : keeps P (rearm_season s now).
Proof.
  unfold rearm_season, SeasonRepository.schedule_search. apply keeps_except; [|auto with keeps].
  apply keeps_savepoint, keeps_bind; [|auto with keeps].
  apply (stable_method P _ _ (m_season_cas _ _ _ _ _ _ _ _ _)).
Qed.
#[local] Hint Resolve kept_adopt_from_pack kept_rearm : keeps.

Lemma kept_reconcile_whole s t now : keeps P (reconcile_whole meanwhile metadata parse s t now).
Proof.
  unfold reconcile_whole, refreshed. apply keeps_bind; [auto with keeps|]. intros before.
  apply keeps_bind; [auto 10 with keeps|]. intros [target|]; [|auto with keeps]. cbv zeta.
  apply keeps_if; [auto with keeps|]. apply keeps_bind; [auto with keeps|]. intros states.
  apply keeps_if; [auto with keeps|]. apply keeps_bind; auto with keeps.
Qed.
#[local] Hint Resolve kept_reconcile_whole : keeps.

Lemma kept_reconcile_airing now n : keeps P (reconcile_airing meanwhile metadata parse now n).
Proof.
  unfold reconcile_airing. apply keeps_bind.
  { unfold SeasonRepository.list_for_airing_refresh. apply keeps_bind; [auto with keeps|]. intros l.
    by apply kept_to_records. }
  intros l. generalize (@nil (Z * option MediaRequest.t)), 0%Z.
  induction l as [|s l IH]; intros parents k; cbn [reconcile_each]; [auto with keeps|].
  apply keeps_bind; [unfold cached_parent, get; destruct (assoc _ _); auto with keeps|]. intros x.
  apply keeps_bind; [auto with keeps|]. intros sc. apply keeps_bind; [auto with keeps|]. intros ch.
  apply keeps_bind; [unfold SeasonRepository.mark_airing_refresh_checked; auto with keeps|auto].
Qed.

End service.

(** ** Every reachable database *)

Section reachable.
Context {DB : UnicodeDB} (nulls_first : bool) (may_claim : db -> Z -> Prop).

(** Tables that other components write. *)
Definition with_log (watchlist : list WatchlistItem) (history : list DownloadHistory) (d : db) : db :=
  {| media_requests := media_requests d; season_requests := season_requests d;
     request_subscribers := request_subscribers d; watchlist_items := watchlist; downloads := downloads d;
     download_scopes := download_scopes d; coverage_claims := coverage_claims d;
     episode_states := episode_states d; download_history := history;
     next_request_id := next_request_id d; next_season_id := next_season_id d;
     next_download_id := next_download_id d; next_scope_id := next_scope_id d;
     next_claim_id := next_claim_id d; next_episode_id := next_episode_id d |}.

(** The methods that write downloads, scopes and claims; a claim is made when
    the caller [may_claim] for that download. *)
Inductive tracking : forall A, DBM A -> Prop :=
  | t_create h s m g t y n e k r o a b c now : tracking _ (create h s m g t y n e k r o a b c now)
  | t_ensure_scope i m n e : tracking _ (ensure_scope i m n e)
  | t_release i now : tracking _ (release_coverage_claims i now)
  | t_release_resolved i l now : tracking _ (release_resolved_target_coverage_claims i l now)
  | t_lock_active i : tracking _ (lock_if_active i)
  | t_lock_terminal i : tracking _ (lock_if_terminal i)
  | t_align i : tracking _ (align_scalar_scope_with_active nulls_first i)
  | t_status i s u now : tracking _ (update_status i s u now)
  | t_cas i s from c now : tracking _ (update_status_if_in i s from c now)
  | t_retry i from : tracking _ (increment_retry_count_if_in i from)
  | t_scope_cas i s from : tracking _ (update_scope_status_if_in i s from)
  | t_progress i p r t c : tracking _ (refresh_progress i p r t c).

(** The methods that write episodes, with whatever is committed [meanwhile]. *)
Inductive episodic (meanwhile : db -> db) : forall A, DBM A -> Prop :=
  | e_target s aired : episodic meanwhile _ (upsert_target meanwhile s aired)
  | e_grabbed s l i : episodic meanwhile _ (mark_grabbed meanwhile s l i)
  | e_imported s l i : episodic meanwhile _ (mark_imported meanwhile s l i)
  | e_adopt s w : episodic meanwhile _ (adopt_baseline meanwhile s w)
  | e_apply m n l i target : episodic meanwhile _ (apply_import meanwhile m n l i target)
  | e_reconcile metadata parse now n :
      episodic meanwhile _ (reconcile_airing meanwhile metadata parse now n).

Lemma kept_tracking (P : db -> Prop) `{!Tracked P} A (m : DBM A) : tracking A m -> keeps P m.
Proof. intros []; unfold lock_if_active, lock_if_terminal; auto with keeps. Qed.

Lemma kept_episodic (P : db -> Prop) `{!Growing P, !Collected P} meanwhile A (m : DBM A) :
  (forall d, P d -> P (meanwhile d)) -> episodic meanwhile A m -> keeps P m.
Proof.
  intros Hm []; auto with keeps; [by apply kept_apply_import | by apply kept_reconcile_airing].
Qed.

(** A transaction of any method of any repository; those that write episodes
    may be interrupted by any sequence of transactions of the level below. *)
Inductive tx : nat -> db -> db -> Prop :=
  | tx_request n A (m : DBM A) d : method A m -> tx n d (m d).2
  | tx_leave n i u d : tx n d (remove_subscriber i u d).2
  | tx_tracking n A (m : DBM A) d : tracking A m -> tx n d (m d).2
  | tx_claim n i m s d : may_claim d i -> tx n d (ensure_coverage_claim i m s d).2
  | tx_episodic n meanwhile A (m : DBM A) d : (forall d', rtc (tx n) d' (meanwhile d')) ->
      episodic meanwhile A m -> tx (S n) d (m d).2
  | tx_log n d watchlist history : tx n d (with_log watchlist history d).

Definition reachable (d : db) : Prop := exists n, rtc (tx n) empty_db d.

Definition survives (P : db -> Prop) : Prop := forall n d d', rtc (tx n) d d' -> P d -> P d'.

(** An assertion survives when every kind of transaction keeps it, and so do
    the transactions in between. *)
Lemma every_transaction (P : db -> Prop) : Stable P -> Collected P ->
  (forall A (m : DBM A), tracking A m -> keeps P m) ->
  (forall i m s d, may_claim d i -> P d -> P (ensure_coverage_claim i m s d).2) ->
  (forall watchlist history d, P d -> P (with_log watchlist history d)) -> survives P.
Proof.
  intros HS HC Ht Hc Hl. pose proof (stable_growing (P := P)) as HG.
  assert (forall n d d', tx n d d' -> P d -> P d') as Hone.
  { induction n as [|n IH]; intros d d' Hx Hd.
    - inversion Hx; subst; [by eapply stable_method | by apply stable_remove_subscriber | by eapply Ht | by eapply Hc | by apply Hl].
    - inversion Hx; subst; [by eapply stable_method | by apply stable_remove_subscriber | by eapply Ht | by eapply Hc | | by apply Hl].
      eapply kept_episodic; [| | |done|done]; try done. intros d1 Hd1.
      match goal with H : forall d', rtc _ d' _ |- _ => pose proof (H d1) as Hr end. clear -IH Hr Hd1.
      induction Hr as [|a b c Hab Hbc IHr]; [done|]. apply IHr. by eapply IH. }
  intros n d d' H. induction H as [|a b c Hab Hbc IHr]; [done|]. intros Ha. apply IHr. by eapply Hone.
Qed.

Lemma tracked_survives (P : db -> Prop) `{!Stable P, !Tracked P, !Collected P} :
  (forall watchlist history d, P d -> P (with_log watchlist history d)) -> survives P.
Proof.
  intros Hl. apply every_transaction; try done.
  - intros A m. by apply kept_tracking.
  - intros i m s d _. apply kept_ensure_coverage_claim, _.
Qed.

Lemma reachable_survives (P : db -> Prop) d : survives P -> P empty_db -> reachable d -> P d.
Proof. intros Hs H0 [n H]. by eapply Hs. Qed.

Lemma wf_tracked_empty : wf_tracked empty_db.
Proof. split; try done; split; constructor. Qed.

Lemma reachable_tracked d : reachable d -> wf d /\ wf_tracked d /\ keyed_scopes d.
Proof.
  intros H. split; [|split]; (eapply reachable_survives; [|..|exact H]).
  - apply tracked_survives; try apply _. intros w h d' [H1 H2 H3 H4 H5 H6 H7 H8 H9]. by split.
  - apply wf_empty.
  - apply tracked_survives; try apply _. intros w h d' Hd. by eapply tracked_grow; [..|exact Hd].
  - apply wf_tracked_empty.
  - apply tracked_survives; try apply _. done.
  - constructor.
Qed.

End reachable.
