(* ===== verification/DownloadQueries.v ===== *)
(** * What the batch queries of the downloads answer

    Each answers what asking for one key, or one request, at a time answers. *)

From Stdlib Require Import ZArith Lia Bool String.
From S2P Require Import Prelude PyStr RequestStore DownloadRepository.

#[local] Open Scope bool_scope.

(** ** Rows and scopes *)

Lemma elem_of_select {R} (p : R -> bool) t r : r ∈ select p t <-> r ∈ t /\ p r = true.
Proof. unfold select. by rewrite !list_elem_of_In, List.filter_In. Qed.

Lemma find_some_iff {R} (p : R -> bool) t : (exists r, List.find p t = Some r) <-> exists r, r ∈ t /\ p r = true.
Proof.
  split.
  - intros (r & [H1 H2]%List.find_some). exists r. by rewrite list_elem_of_In.
  - intros (r & Hr & Hp). destruct (List.find p t) as [x|] eqn:Hf; [eauto|].
    eapply List.find_none in Hf; [|by apply list_elem_of_In]. congruence.
Qed.

Lemma scope_exists_iff d x p : scope_exists d x p = true <->
  exists s, s ∈ download_scopes d /\ of_download (Download.id x) s = true /\ p s = true.
Proof.
  unfold scope_exists. rewrite existsb_exists_iff. split; intros (s & Hs & H); exists s.
  - by apply andb_prop in H as [H1 H2].
  - destruct H as [H1 H2]. by rewrite H1, H2.
Qed.

Lemma of_download_iff i s : of_download i s = true <-> DownloadScope.download_id s = i.
Proof. unfold of_download. lia. Qed.

Section batch.
Context (nulls_first : bool).

Lemma first_row_found p d : (exists r, (first_row nulls_first p d).1 = Ok (Some r)) <->
  exists x, x ∈ downloads d /\ p d x = true.
Proof.
  rewrite <- find_some_iff. unfold first_row, mbind, DBM_bind, query.
  destruct (List.find (p d) (downloads d)) as [x|]; simpl; split; intros [r H]; eauto; done.
Qed.

Lemma scope_of_iff i n s : scope_of i n s = true <->
  DownloadScope.media_request_id s = Some i /\ DownloadScope.season_number s = n.
Proof. unfold scope_of. by rewrite andb_true_iff, !bool_decide_eq_true. Qed.

Lemma active_for_iff i n d x : active_for i n d x = true <-> terminal x = false /\
  ((Download.media_request_id x = Some i /\ Download.season x = n /\ scope_exists d x (scope_of i n) = false) \/
   (exists s, s ∈ download_scopes d /\ DownloadScope.download_id s = Download.id x /\
      DownloadScope.media_request_id s = Some i /\ DownloadScope.season_number s = n /\ scope_active s = true)).
Proof.
  unfold active_for, scalar_of. rewrite andb_true_iff, negb_true_iff, orb_true_iff, !andb_true_iff, negb_true_iff,
    !bool_decide_eq_true, scope_exists_iff. split; intros [Ht H]; (split; [done|]); destruct H as [H|H].
  - left. tauto.
  - right. destruct H as (s & Hs & Hi & [[H1 H2]%scope_of_iff H3]%andb_prop). exists s.
    by rewrite of_download_iff in Hi.
  - left. tauto.
  - right. destruct H as (s & Hs & Hi & H1 & H2 & H3). exists s. rewrite of_download_iff.
    split; [done|]. split; [done|]. rewrite H3, andb_true_r. by apply scope_of_iff.
Qed.

Definition in_requests (ids : list Z) (o : option Z) : bool := match o with Some i => mem i ids | None => false end.

(** The scopes the loop sees of a row. *)
Lemma seen_scopes ids row_ids d x s : Download.id x ∈ row_ids ->
  s ∈ select (of_download (Download.id x)) (select (fun s => mem (DownloadScope.download_id s) row_ids
        && in_requests ids (DownloadScope.media_request_id s)) (download_scopes d)) <->
  s ∈ download_scopes d /\ DownloadScope.download_id s = Download.id x /\
  in_requests ids (DownloadScope.media_request_id s) = true.
Proof.
  intros Hx. rewrite !elem_of_select, of_download_iff, andb_true_iff, mem_true. split; [tauto|].
  intros (H1 & H2 & H3). rewrite H2. tauto.
Qed.

(** The keys one row adds are those it is active for. *)
Lemma keys_of_row_iff keys ids row_ids d x i n : terminal x = false -> Download.id x ∈ row_ids ->
  (forall k, k ∈ keys -> k.1 ∈ ids) ->
  (i, n) ∈ keys_of_row keys (select (of_download (Download.id x))
     (select (fun s => mem (DownloadScope.download_id s) row_ids
        && in_requests ids (DownloadScope.media_request_id s)) (download_scopes d))) x
  <-> (i, n) ∈ keys /\ active_for i n d x = true.
Proof.
  intros Ht Hx Hk. pose proof (fun s => seen_scopes ids row_ids d x s Hx) as Hseen.
  set (seen := select _ (select _ _)) in *. clearbody seen. rewrite active_for_iff.
  unfold keys_of_row. rewrite elem_of_app. split.
  - intros [H|H].
    + destruct (Download.media_request_id x) as [j|] eqn:Hj; [|by apply elem_of_nil in H].
      destruct (mem _ _ && _) eqn:Hc; [|by apply elem_of_nil in H]. apply list_elem_of_singleton in H as [= -> ->].
      apply andb_prop in Hc as [Hc Hn]. apply mem_true in Hc. split; [done|]. split; [done|]. left.
      split; [done|]. split; [done|]. apply negb_true_iff in Hn. apply not_true_iff_false in Hn.
      apply not_true_iff_false. rewrite scope_exists_iff. intros (s & Hs & Hi & [H1 H2]%scope_of_iff). apply Hn.
      apply existsb_exists_iff. exists s. rewrite Hseen, andb_true_iff, !bool_decide_eq_true.
      rewrite of_download_iff in Hi. split_and!; try done. rewrite H1. simpl. apply mem_true. by apply (Hk _ Hc).
    + apply list_elem_of_omap in H as (s & (Hs & Hi & Hr)%Hseen & H).
      destruct (DownloadScope.media_request_id s) as [j|] eqn:Hj; [|done].
      destruct (scope_active s && _) eqn:Hc; [|done]. injection H as <- <-. apply andb_prop in Hc as [Ha Hc].
      apply mem_true in Hc. split; [done|]. split; [done|]. right. eauto 10.
  - intros [Hin [_ [(Hm & Hn & He)|(s & Hs & Hi & Hm & Hn & Ha)]]].
    + left. rewrite Hm, Hn. assert (mem (i, n) keys = true) as -> by (by apply mem_true).
      apply not_true_iff_false in He. rewrite scope_exists_iff in He.
      destruct (existsb _ seen) eqn:Hex; [|simpl; by left]. exfalso. apply He.
      apply existsb_exists_iff in Hex as (s & (Hs & Hi & _)%Hseen & [H1 H2]%andb_prop).
      apply bool_decide_eq_true in H1, H2. exists s. rewrite of_download_iff, scope_of_iff. eauto.
    + right. apply list_elem_of_omap. exists s. rewrite Hseen, Hm. simpl.
      assert (mem i ids = true) as Hi' by (apply mem_true; by apply (Hk _ Hin)).
      split; [done|]. rewrite Ha. simpl. rewrite Hn.
      assert (mem (i, n) keys = true) as -> by (by apply mem_true). done.
Qed.

(** Which rows the first query of the batch returns. *)
Lemma may_match_active ids d x i n : i ∈ ids -> active_for i n d x = true -> may_match ids d x = true.
Proof.
  intros Hi (Ht & H)%active_for_iff. unfold may_match. rewrite Ht. simpl. apply orb_true_iff.
  destruct H as [(-> & _ & _)|(s & Hs & Hd & Hm & _)]; [left; by apply mem_true|right].
  apply scope_exists_iff. exists s. rewrite of_download_iff, Hm. split; [done|]. split; [done|]. by apply mem_true.
Qed.

Lemma may_match_live ids d x : may_match ids d x = true -> terminal x = false.
Proof. unfold may_match. intros [H _]%andb_prop. by apply negb_true_iff. Qed.

Lemma batch_membership keys d : exists found, find_active_for_requests keys d = (Ok found, d) /\
  forall i n, (i, n) ∈ found <-> (i, n) ∈ keys /\ exists x, x ∈ downloads d /\ active_for i n d x = true.
Proof.
  unfold find_active_for_requests. destruct keys as [|k0 keys']; [exists ∅; set_solver|].
  set (keys := k0 :: keys'). set (ids := remove_dups (fst <$> keys)).
  assert (forall k, k ∈ keys -> k.1 ∈ ids) as Hk.
  { intros k Hk. apply elem_of_remove_dups, list_elem_of_fmap. eauto. }
  unfold mbind, DBM_bind, query. set (rows := select (may_match ids d) (downloads d)).
  assert (forall i n x, x ∈ downloads d -> (i, n) ∈ keys -> active_for i n d x = true -> x ∈ rows) as Hrows.
  { intros i n x Hx Hin Ha. apply elem_of_select. split; [done|].
    eapply may_match_active; [by apply (Hk (i, n))|exact Ha]. }
  destruct rows as [|r0 rows'] eqn:Hr.
  { exists ∅. split; [done|]. intros i n. split; [set_solver|]. intros [Hin (x & Hx & Ha)].
    by apply (Hrows i n x Hx Hin), elem_of_nil in Ha. }
  rewrite <- Hr in *. clear r0 rows' Hr. eexists. split; [reflexivity|]. intros i n.
  rewrite elem_of_list_to_set, list_elem_of_bind. split.
  - intros (x & Hin & Hx). pose proof Hx as [Hxd Hm]%elem_of_select.
    eapply keys_of_row_iff in Hin as [Hin Ha]; [eauto|by eapply may_match_live| |done].
    apply list_elem_of_fmap. eauto.
  - intros [Hin (x & Hx & Ha)]. pose proof (Hrows i n x Hx Hin Ha) as Hxr. exists x. split; [|done].
    pose proof Hxr as [_ Hm]%elem_of_select.
    apply keys_of_row_iff; [by eapply may_match_live| |done|done]. apply list_elem_of_fmap. eauto.
Qed.

Lemma claim_exists_iff d x p : claim_exists d x p = true <->
  exists c, c ∈ coverage_claims d /\ DownloadCoverageClaim.download_id c = Download.id x /\ p c = true.
Proof.
  unfold claim_exists. rewrite existsb_exists_iff. split; intros (c & Hc & H); exists c.
  - apply andb_prop in H as [H1 H2]. by apply Z.eqb_eq in H1.
  - destruct H as [H1 H2]. rewrite H2, H1. by rewrite Z.eqb_refl.
Qed.

Lemma claim_of_title_iff t d c : claim_of_title t d c = true <->
  exists r, r ∈ media_requests d /\ DownloadCoverageClaim.media_request_id c = Some (MediaRequest.id r) /\
    MediaRequest.tmdb_id r = t /\ MediaRequest.media_type r = tv.
Proof.
  unfold claim_of_title. rewrite existsb_exists_iff. split; intros (r & Hr & H); exists r.
  - apply andb_prop in H as [[H1 H2]%andb_prop H3]. apply bool_decide_eq_true in H1, H3. by apply Z.eqb_eq in H2.
  - destruct H as (H1 & H2 & H3). split; [done|]. rewrite H2, Z.eqb_refl, !bool_decide_true by done. done.
Qed.

(** A live torrent that claims the season of a show. *)
Definition covers_title (t n : Z) (d : db) (x : Download.t) : bool :=
  claim_exists d x (fun c => claim_of_title t d c
    && bool_decide (DownloadCoverageClaim.season_number c = Some n) && claim_active c)
  && negb (terminal x).

Lemma covered_titles_iff ids d t n : (t, n) ∈ covered_titles ids d <->
  t ∈ ids /\ exists x, x ∈ downloads d /\ covers_title t n d x = true.
Proof.
  unfold covered_titles, covers_title. rewrite list_elem_of_bind. split.
  - intros (r & H & [Hr [Hrm Hrt]%andb_prop]%elem_of_select). apply list_elem_of_bind in H as (c & H & Hc).
    apply elem_of_select in Hc as [Hc [Hcm Hca]%andb_prop]. apply list_elem_of_bind in H as (x & H & Hx).
    apply elem_of_select in Hx as [Hx [Hxi Hxt]%andb_prop]. apply mem_true in Hrm.
    apply bool_decide_eq_true in Hrt, Hcm.
    destruct (DownloadCoverageClaim.season_number c) as [m|] eqn:Hm; [|by apply elem_of_nil in H].
    apply list_elem_of_singleton in H as [= -> ->]. split; [done|]. exists x. split; [done|].
    rewrite Hxt, andb_true_r, claim_exists_iff. exists c. split; [done|]. split; [lia|].
    rewrite Hca, Hm, bool_decide_true, !andb_true_r by done. apply claim_of_title_iff. eauto.
  - intros [Ht (x & Hx & [H Hxt]%andb_prop)]. apply claim_exists_iff in H as (c & Hc & Hci & H).
    apply andb_prop in H as [[H Hn]%andb_prop Hca]. apply bool_decide_eq_true in Hn.
    apply claim_of_title_iff in H as (r & Hr & Hcr & <- & Hrt). exists r. split.
    + apply list_elem_of_bind. exists c. split.
      * apply list_elem_of_bind. exists x. rewrite Hn. split; [by left|]. apply elem_of_select. split; [done|].
        rewrite Hxt, andb_true_r. lia.
      * apply elem_of_select. split; [done|]. by rewrite Hca, bool_decide_true.
    + apply elem_of_select. split; [done|]. rewrite (bool_decide_true (_ = tv)) by done.
      rewrite andb_true_r. by apply mem_true.
Qed.

(** C24: Asking for many keys at once answers, for each of them, exactly what
    asking for it alone answers: a (request, season) has an active download, a
    (show, season) is covered by a live torrent's claim, and nothing that was
    not asked for is reported. *)
Theorem batch_lookups_agree_with_single_ones d requests titles :
  (exists found, find_active_for_requests requests d = (Ok found, d) /\
     forall i n, (i, n) ∈ found <->
       (i, n) ∈ requests /\ exists r, (find_active_for_request nulls_first i n d).1 = Ok (Some r)) /\
  (exists found, find_active_coverage_titles titles d = (Ok found, d) /\
     forall t n, (t, n) ∈ found <->
       (t, n) ∈ titles /\ exists r, (find_active_coverage_title nulls_first t (Some n) d).1 = Ok (Some r)).
Proof.
  split.
  - destruct (batch_membership requests d) as (found & -> & H). exists found. split; [done|]. intros i n.
    rewrite H. unfold find_active_for_request. by rewrite first_row_found.
  - unfold find_active_coverage_titles. destruct titles as [|k0 l]; [exists ∅; split; [done|]; set_solver|].
    eexists. split; [reflexivity|]. intros t n.
    rewrite elem_of_list_to_set, list_elem_of_In, List.filter_In, <- list_elem_of_In, mem_true, covered_titles_iff.
    cbn [find_active_coverage_title]. rewrite first_row_found. fold (covers_title t n).
    split; [tauto|]. intros [Hin H]. split; [|done]. split; [|done].
    apply elem_of_remove_dups, list_elem_of_fmap. by exists (t, n).
Qed.

(** *** Downloads by request *)

Definition full_record (d : db) (x : Download.t) : DownloadRecord :=
  _to_record x (py_sort (scope_lt nulls_first) (select (of_download (Download.id x)) (download_scopes d))).

Lemma all_rows_spec p d :
  all_rows nulls_first p d = (Ok (full_record d <$> select (p d) (downloads d)), d).
Proof.
  unfold all_rows, mbind, DBM_bind, query, _scopes_by_download, mret, DBM_ret. do 2 f_equal.
  apply list_fmap_ext. intros k x Hx. unfold full_record, scopes_by_download. f_equal.
  assert (mem (Download.id x) (Download.id <$> select (p d) (downloads d)) = true) as ->; [|done].
  apply mem_true, list_elem_of_fmap. exists x. split; [done|]. by eapply list_elem_of_lookup_2.
Qed.

(** A torrent still belongs to a request through an unresolved scope, or by its
    own column when it has no scope of that request at all. *)
Definition still_owns (i : Z) (r : DownloadRecord) : bool :=
  existsb (fun s => bool_decide (DownloadScope.media_request_id s = Some i) && scope_active s) (dr_scopes r)
  || bool_decide (Download.media_request_id (dr_row r) = Some i)
     && negb (existsb (fun s => bool_decide (DownloadScope.media_request_id s = Some i)) (dr_scopes r)).

Lemma owners_iff ids r i : i ∈ ids -> (i ∈ owners ids r <-> still_owns i r = true).
Proof.
  intros Hi. apply mem_true in Hi. unfold owners, still_owns.
  rewrite elem_of_remove_dups, elem_of_app, orb_true_iff, existsb_exists_iff. split; intros [H|H].
  - right. destruct (Download.media_request_id (dr_row r)) as [j|]; [|by apply elem_of_nil in H].
    destruct (mem j ids && _) eqn:Hc; [|by apply elem_of_nil in H]. apply list_elem_of_singleton in H as ->.
    apply andb_prop in Hc as [_ Hc]. by rewrite bool_decide_true.
  - left. apply list_elem_of_omap in H as (s & Hs & H). exists s. split; [done|].
    destruct (DownloadScope.media_request_id s) as [j|]; [|done].
    destruct (mem j ids && scope_active s) eqn:Hc; [|done]. injection H as ->. apply andb_prop in Hc as [_ ->].
    by rewrite bool_decide_true.
  - right. apply list_elem_of_omap. destruct H as (s & Hs & [H1 H2]%andb_prop). apply bool_decide_eq_true in H1.
    exists s. split; [done|]. by rewrite H1, Hi, H2.
  - left. apply andb_prop in H as [H1 H2]. apply bool_decide_eq_true in H1. rewrite H1, Hi, H2. simpl. by left.
Qed.

Lemma group_one {X} (x : X) l (g : gmap Z (list X)) i : NoDup l ->
  foldl (fun g o => alter (fun l => l ++ [x]) o g) g l !! i
  = (if mem i l then fun k => k ++ [x] else id) <$> g !! i.
Proof.
  revert g. induction l as [|o l IH]; intros g Hnd; simpl; [by destruct (g !! i)|].
  apply NoDup_cons in Hnd as [Ho Hnd]. rewrite IH by done. destruct (decide (i = o)) as [->|Hne].
  - rewrite lookup_alter_eq. assert (mem o l = false) as -> by (by apply mem_false).
    assert (mem o (o :: l) = true) as -> by (apply mem_true; left). by destruct (g !! o).
  - rewrite lookup_alter_ne by done.
    assert (mem i (o :: l) = mem i l) as ->; [|done]. unfold mem. apply bool_decide_ext. set_solver.
Qed.

Lemma grouped ids records (g : gmap Z (list DownloadRecord)) i : i ∈ ids ->
  foldl (group_record ids) g records !! i = (fun k => k ++ List.filter (still_owns i) records) <$> g !! i.
Proof.
  intros Hi. revert g. induction records as [|r l IH]; intros g; simpl.
  - destruct (g !! i); simpl; [by rewrite app_nil_r|done].
  - rewrite IH. unfold group_record at 1. rewrite group_one by apply NoDup_remove_dups.
    assert (mem i (owners ids r) = still_owns i r) as ->.
    { apply eq_true_iff_eq. rewrite mem_true. by apply owners_iff. }
    destruct (g !! i); simpl; [|done]. destruct (still_owns i r); simpl; [by rewrite <- app_assoc|done].
Qed.

Lemma filter_fmap_list {X Y} (q : Y -> bool) (f : X -> Y) (l : list X) :
  List.filter q (f <$> l) = f <$> List.filter (fun x => q (f x)) l.
Proof. induction l as [|x l IH]; simpl; [done|]. destruct (q (f x)); simpl; [f_equal|]; exact IH. Qed.

Lemma existsb_scopes d x p : existsb p (dr_scopes (full_record d x)) = scope_exists d x p.
Proof.
  apply eq_true_iff_eq. rewrite existsb_exists_iff, scope_exists_iff. simpl.
  split; intros (s & H); exists s; rewrite elem_of_py_sort, elem_of_select in *; tauto.
Qed.

Lemma ungrouped ids records (g : gmap Z (list DownloadRecord)) i : i ∉ ids -> g !! i = None ->
  foldl (group_record ids) g records !! i = None.
Proof.
  intros Hi. revert g. induction records as [|r l IH]; intros g Hg; simpl; [done|]. apply IH.
  unfold group_record. rewrite group_one by apply NoDup_remove_dups.
  rewrite Hg. reflexivity.
Qed.

Lemma scope_exists_impl d x (p q : DownloadScope.t -> bool) : (forall s, p s = true -> q s = true) ->
  scope_exists d x p = true -> scope_exists d x q = true.
Proof. rewrite !scope_exists_iff. intros Hpq (s & H1 & H2 & H3). eauto. Qed.

Lemma owned_filter (N W SE A B C : bool) : (A = true -> SE = true) -> (B = true -> C = false -> W = true) ->
  N && (W || SE) && (A || B && negb C) = N && (B || A) && (A || B && negb C).
Proof.
  destruct N, A, B, C, W, SE; simpl; intros H1 H2; try done; first [by discriminate H1 | by discriminate H2
    | by specialize (H1 eq_refl) | by specialize (H2 eq_refl eq_refl)].
Qed.

(** Grouping the active downloads by request gives each request that was asked
    for the torrents its own query lists, in the same order, without those whose
    scopes of it are all resolved; and it gives no other request anything. *)
Theorem grouped_downloads_are_the_owned_ones ids d : exists g,
  list_active_for_requests nulls_first ids d = (Ok g, d) /\
  (forall i, i ∉ ids -> g !! i = None) /\
  (forall i, i ∈ ids -> exists l, list_active_for_request nulls_first i d = (Ok l, d) /\
     g !! i = Some (List.filter (still_owns i) l)).
Proof.
  unfold list_active_for_requests. destruct ids as [|i0 l]; [exists ∅; split_and!; [done|done|set_solver]|].
  set (ids := i0 :: l). unfold mbind, DBM_bind. rewrite all_rows_spec. eexists. split; [reflexivity|]. split.
  - intros i Hi. apply ungrouped; [done|]. apply dict_of_None. rewrite <- list_fmap_compose, list_elem_of_fmap.
    intros (j & -> & Hj). done.
  - intros i Hi. unfold list_active_for_request. rewrite all_rows_spec. eexists. split; [reflexivity|].
    rewrite grouped by done. assert (dict_of ((fun i => (i, @nil DownloadRecord)) <$> ids) !! i = Some []) as ->.
    { destruct (dict_of _ !! i) as [v|] eqn:Hv.
      - apply dict_of_Some, list_elem_of_fmap in Hv as (j & [= _ ->] & _). done.
      - apply dict_of_None in Hv. exfalso. apply Hv. rewrite <- list_fmap_compose, list_elem_of_fmap. eauto. }
    simpl. f_equal. rewrite !filter_fmap_list. f_equal. unfold select. rewrite !filter_filter.
    apply List.filter_ext. intros x. unfold still_owns. rewrite !existsb_scopes. simpl dr_row.
    set (A := scope_exists d x (fun s => bool_decide (DownloadScope.media_request_id s = Some i) && scope_active s)).
    set (C := scope_exists d x (fun s => bool_decide (DownloadScope.media_request_id s = Some i))).
    apply mem_true in Hi. apply owned_filter.
    + intros HA. eapply scope_exists_impl; [|exact HA]. intros s [H1 H2]%andb_prop.
      apply bool_decide_eq_true in H1. by rewrite H1, Hi, H2.
    + intros HB HC. apply bool_decide_eq_true in HB. rewrite HB, Hi. simpl. apply negb_true_iff, not_true_iff_false.
      intros HS. apply not_true_iff_false in HC. apply HC. eapply scope_exists_impl; [|exact HS].
      intros s; simpl; destruct (DownloadScope.media_request_id s) as [j|]; [|done]. intros Hs.
      apply bool_decide_eq_true. f_equal. lia.
Qed.

End batch.
