(* ===== verification/DownloadFacts.v ===== *)
(** * What the download tables promise

    Scope keys, and the schema in every reachable database; claims and their
    torrents; the compare-and-swap of a status. *)

From Stdlib Require Import ZArith Lia Bool String Sorted DecimalN.
From S2P Require Import Prelude PyStr PyInt PyNum RequestStore RequestLaws DownloadRepository DownloadLaws.
From S2P Require RequestRepository SeasonRepository EpisodeRepository.

#[local] Open Scope bool_scope.

(** ** Texts *)

Lemma uint_codes_inj u v : uint_codes u = uint_codes v -> u = v.
Proof. revert v; induction u; intros []; simpl; intros [=]; f_equal; auto. Qed.

Lemma str_of_N_inj n m : str_of_N n = str_of_N m -> n = m.
Proof.
  intros H%uint_codes_inj. by rewrite <- (Unsigned.of_to n), H, Unsigned.of_to.
Qed.

Lemma str_of_N_digits n c : c ∈ str_of_N n -> is_digit c = true.
Proof. apply uint_codes_digit. Qed.

Lemma str_of_int_inj a b : str_of_int a = str_of_int b -> a = b.
Proof.
  assert (forall n p, str_of_N n <> (45 :: str_of_N p)%N) as Hm.
  { intros n p H. assert (is_digit 45 = true); [|done]. apply (str_of_N_digits n). rewrite H. left. }
  destruct a as [|p|p], b as [|q|q]; unfold str_of_int; intros H;
    try (by apply Hm in H); try (symmetry in H; by apply Hm in H).
  all: try (injection H as H); apply str_of_N_inj in H; simpl in H; try done; congruence.
Qed.

Lemma str_of_int_chars z c : c ∈ str_of_int z -> is_digit c = true \/ c = 45%N.
Proof.
  destruct z as [|p|p]; unfold str_of_int; [left; by eapply str_of_N_digits..|].
  intros [->|H]%elem_of_cons; [by right|left; by eapply str_of_N_digits].
Qed.

Lemma str_of_int_without z c : is_digit c = false -> c <> 45%N -> c ∉ str_of_int z.
Proof. intros Hd Hm [H|H]%str_of_int_chars; congruence. Qed.

Lemma delimited_inj (sep : N) a a' b b' : sep ∉ a -> sep ∉ a' -> a ++ sep :: b = a' ++ sep :: b' -> a = a' /\ b = b'.
Proof.
  revert a'. induction a as [|x a IH]; intros [|y a'] Ha Ha'; simpl; intros H; simplify_eq; try set_solver.
  destruct (IH a') as [-> ->]; [set_solver..|done|done].
Qed.

Lemma join_nil (l : list Z) : join (lit ",") (str_of_int <$> l) = [] -> l = [].
Proof.
  destruct l as [|x [|y l]]; simpl; [done| |].
  - intros H. assert (str_of_int x <> []); [|done]. destruct x; unfold str_of_int; try apply to_uint_nonempty; done.
  - intros H%app_eq_nil. by destruct H.
Qed.

Lemma join_ints_inj l l' : join (lit ",") (str_of_int <$> l) = join (lit ",") (str_of_int <$> l') -> l = l'.
Proof.
  assert (forall x, (44 ∉ str_of_int x)%N) as Hc by (intros x; by apply str_of_int_without).
  revert l'. induction l as [|x l IH]; intros l' H; [symmetry in H; by apply join_nil in H as ->|].
  destruct l' as [|x' l']; [by apply join_nil in H|].
  destruct l as [|y l], l' as [|y' l']; simpl in H.
  - by apply str_of_int_inj in H as ->.
  - exfalso. apply (Hc x). rewrite H. set_solver.
  - exfalso. apply (Hc x'). rewrite <- H. set_solver.
  - apply delimited_inj in H as [H1 H2]; [|apply Hc..]. apply str_of_int_inj in H1 as ->. f_equal. by apply IH.
Qed.

Lemma dumps_ints_inj l l' : dumps_ints l = dumps_ints l' -> l = l'.
Proof.
  unfold dumps_ints. intros H%(app_inv_head (lit "[")). apply app_inv_tail in H. by apply join_ints_inj.
Qed.

Definition season_text (n : option Z) : list N := match n with Some n => str_of_int n | None => lit "null" end.
Definition episode_text (e : option (list Z)) : list N :=
  match _normalize_episodes e with Some l => dumps_ints l | None => lit "*" end.

Lemma scope_key_text n e : _scope_key n (_normalize_episodes e)
  = lit "season:" ++ season_text n ++ 124%N :: lit "episodes:" ++ episode_text e.
Proof.
  pose proof (normalize_normalized e) as Hn. unfold _scope_key, episode_text.
  destruct (_normalize_episodes e) as [[|x l]|] eqn:He; [|by rewrite Hn|done].
  unfold _normalize_episodes in He. by destruct (sorted_set _).
Qed.

Lemma season_text_inj n n' : season_text n = season_text n' -> n = n'.
Proof.
  assert (forall z, str_of_int z <> lit "null") as Hz.
  { intros z H. assert (110%N ∉ str_of_int z) as Hn by (by apply str_of_int_without). apply Hn. rewrite H. left. }
  destruct n as [a|], n' as [b|]; simpl; intros H; [by apply str_of_int_inj in H as ->|by apply Hz in H| |done].
  symmetry in H. by apply Hz in H.
Qed.

Lemma episode_text_inj e e' : episode_text e = episode_text e' -> _normalize_episodes e = _normalize_episodes e'.
Proof.
  unfold episode_text. destruct (_normalize_episodes e), (_normalize_episodes e'); try done.
  by intros ->%dumps_ints_inj.
Qed.

Lemma season_text_delimited n : (124%N ∉ season_text n).
Proof. destruct n; [by apply str_of_int_without|vm_compute; set_solver]. Qed.

(** Two scopes have one key exactly when they are the same season and, as sets,
    the same episodes. *)
Lemma scope_key_inj n n' e e' : _scope_key n (_normalize_episodes e) = _scope_key n' (_normalize_episodes e') <->
  n = n' /\ _episodes_equal e e' = true.
Proof.
  unfold _episodes_equal. rewrite bool_decide_eq_true, !scope_key_text. split.
  - intros H%(app_inv_head (lit "season:")). apply delimited_inj in H as [H1 H2]; [|apply season_text_delimited..].
    apply (app_inv_head (lit "episodes:")) in H2. split; [by apply season_text_inj | by apply episode_text_inj].
  - intros [-> He]. unfold episode_text. by rewrite He.
Qed.

(** ** The schema *)

Lemma omap_NoDup_inj {R X} (f : R -> option X) (t : list R) r r' k :
  NoDup (omap f t) -> r ∈ t -> r' ∈ t -> f r = Some k -> f r' = Some k -> r = r'.
Proof.
  induction t as [|x t IH]; intros Hnd Hr Hr' Hk Hk'; [by apply elem_of_nil in Hr|]. simpl in Hnd.
  apply elem_of_cons in Hr as [-> | Hr], Hr' as [-> | Hr']; [done| | |].
  - rewrite Hk in Hnd. apply NoDup_cons in Hnd as [Hn _]. exfalso. apply Hn, list_elem_of_omap. eauto.
  - rewrite Hk' in Hnd. apply NoDup_cons in Hnd as [Hn _]. exfalso. apply Hn, list_elem_of_omap. eauto.
  - apply IH; try done. destruct (f x); [by apply NoDup_cons in Hnd as [_ ?]|done].
Qed.

Section schema.
Context {DB : UnicodeDB} (nulls_first : bool) (may_claim : db -> Z -> Prop).


End schema.

(** ** One download's row *)

Definition row_of (d : db) (i : Z) : option Download.t := List.find (has_id i) (downloads d).

Definition with_row (i : Z) (values : list Download.column_value) (d : db) : db :=
  with_downloads (rewritten (has_id i) (Download.assign_all values) (downloads d)) d.

Lemma download_row_Some d i x : row_of d i = Some x -> x ∈ downloads d /\ Download.id x = i.
Proof.
  intros [H Hi]%List.find_some. split; [by apply list_elem_of_In|]. unfold has_id in Hi. lia.
Qed.

Lemma with_downloads_same d : with_downloads (downloads d) d = d.
Proof. by destruct d. Qed.

(** [UPDATE downloads ... WHERE id = i AND q]. *)
Lemma update_download_spec d i q values : wf_tracked d ->
  update_downloads (fun x => has_id i x && q x) values d =
  match row_of d i with
  | Some x => if q x then checked (downloads_ok d (downloads (with_row i values d))) 1%Z (with_row i values d) d
              else (Ok 0%Z, d)
  | None => (Ok 0%Z, d)
  end.
Proof.
  intros Hw. destruct (wf_download_ids d Hw) as [Hs _].
  pose proof (filter_key Download.id (downloads d) i q Hs) as Hf.
  unfold update_downloads, row_of, has_id, matching in *. rewrite Hf.
  destruct (List.find _ _) as [x|] eqn:Hx; [destruct (q x) eqn:Hq|].
  - rewrite (rewritten_some Download.id _ _ _ i).
    + done.
    + intros r H. apply andb_prop in H as [H _]. lia.
    + by rewrite Hf.
    + done.
  - rewrite rewritten_none by done. rewrite with_downloads_same. unfold checked. by rewrite (wf_downloads d Hw).
  - rewrite rewritten_none by done. rewrite with_downloads_same. unfold checked. by rewrite (wf_downloads d Hw).
Qed.

(** ** Claims and their torrents *)

(** The download is there and has not finished. *)
Definition live (d : db) (i : Z) : Prop := exists x, x ∈ downloads d /\ Download.id x = i /\ terminal x = false.

(** Every active claim is held by a live download, except perhaps those of one. *)
Definition held_but (o : option Z) (d : db) : Prop :=
  forall c, c ∈ coverage_claims d -> claim_active c = true ->
    o = Some (DownloadCoverageClaim.download_id c) \/ live d (DownloadCoverageClaim.download_id c).

Definition held : db -> Prop := held_but None.
Definition guarded (d : db) : Prop := wf_tracked d /\ held d.

Lemma held_grow o d d' : downloads d ⊆ downloads d' -> coverage_claims d' = coverage_claims d ->
  held_but o d -> held_but o d'.
Proof.
  intros Hd Hc H c. rewrite Hc. intros Hin Ha. destruct (H c Hin Ha) as [Ho|(x & Hx & Hi & Ht)]; [by left|].
  right. exists x. split; [by apply Hd|done].
Qed.

Lemma live_update p values d i : (forall x, x ∈ downloads d -> p x = true -> terminal x = false ->
    terminal (Download.assign_all values x) = false) ->
  live d i -> live (with_downloads (rewritten p (Download.assign_all values) (downloads d)) d) i.
Proof.
  intros Ht (x & Hx & Hi & Hn). exists (if p x then Download.assign_all values x else x). split.
  - simpl. unfold rewritten. apply list_elem_of_fmap. eauto.
  - destruct (p x) eqn:Hp; [|done]. rewrite download_assign_id. split; [done | by apply Ht].
Qed.

Lemma held_update_downloads o p values d :
  (forall x, x ∈ downloads d -> p x = true -> terminal x = false ->
     o = Some (Download.id x) \/ terminal (Download.assign_all values x) = false) ->
  held_but o d -> held_but o (update_downloads p values d).2.
Proof.
  intros Ht H. unfold update_downloads, checked. destruct (downloads_ok _ _); [|done]. simpl.
  intros c Hc Ha. destruct (H c Hc Ha) as [Ho|(x & Hx & Hi & Hn)]; [by left|].
  destruct (p x) eqn:Hp.
  - destruct (Ht x Hx Hp Hn) as [Ho|Hn']; [left; by rewrite <- Hi|]. right.
    exists (Download.assign_all values x). rewrite download_assign_id. split; [|done].
    simpl. unfold rewritten. apply list_elem_of_fmap. exists x. by rewrite Hp.
  - right. exists x. split; [|done]. simpl. unfold rewritten. apply list_elem_of_fmap. exists x. by rewrite Hp.
Qed.

(** A write that leaves the status alone. *)
Definition status_free (v : Download.column_value) : bool :=
  match v with Download.set_status _ => false | _ => true end.

Lemma status_free_terminal values x : forallb status_free values = true ->
  terminal (Download.assign_all values x) = terminal x.
Proof.
  unfold terminal. revert x. induction values as [|v l IH]; intros x; [done|]. simpl. intros [Hv Hl]%andb_prop.
  change (Download.assign_all (v :: l) x) with (Download.assign_all l (Download.assign x v)).
  rewrite IH by done. by destruct v, x.
Qed.

Lemma held_free o p values d : forallb status_free values = true ->
  held_but o d -> held_but o (update_downloads p values d).2.
Proof. intros Hf. apply held_update_downloads. intros x _ _ Hn. right. by rewrite status_free_terminal. Qed.

#[export] Instance guarded_scoped : Scoped guarded.
Proof.
  destruct tracked_tracked as [_ [K1 K2 K3] _].
  constructor; intros; intros d [Hw Hh]; (split; [first [by apply K1 | by apply K2 | by apply K3]|]);
    cbv [update_scopes insert_scope checked]; [by destruct (scopes_ok _ _)..|done].
Qed.

#[export] Instance guarded_collected : Collected guarded.
Proof.
  destruct tracked_collected as [K1 K2 K3].
  constructor; intros; intros d [Hw Hh]; (split; [first [by apply K1 | by apply K2 | by apply K3]|]);
    cbv [update_episodes insert_episode checked]; [by destruct (episodes_ok _ _)..|done].
Qed.

Lemma held_delete_requests p d : held d -> held (delete_requests p d).2.
Proof.
  intros H c. simpl. rewrite list_elem_of_fmap. intros (b & -> & Hb) Ha.
  assert (claim_active b = true) as Ha' by (by destruct b).
  destruct (H b Hb Ha') as [?|(x & Hx & Hi & Hn)]; [done|]. right.
  exists (Download.assign x (Download.set_media_request_id
    (forget (MediaRequest.id <$> List.filter p (media_requests d)) (Download.media_request_id x)))).
  split; [|by destruct x, b]. simpl. apply list_elem_of_fmap. eauto.
Qed.

#[export] Instance guarded_stable : Stable guarded.
Proof.
  destruct tracked_stable as [[K1 K2 K3 K4 K5 K6] K7].
  constructor; [constructor|]; intros; intros d [Hw Hh];
    (split; [first [by apply K1 | by apply K2 | by apply K3 | by apply K4 | by apply K5 | by apply K6 | by apply K7]|]).
  - unfold update_requests. by destruct (bool_decide _).
  - done.
  - unfold insert_request. by destruct (bool_decide _).
  - unfold insert_season. by destruct (_ && _).
  - by apply held_delete_requests.
  - unfold RequestRepository.add_subscriber. destruct (RequestRepository.is_subscribed _ _ _); [done|]. by destruct (mem _ _).
  - done.
Qed.

(** *** Releasing *)

Lemma released_inactive now c : claim_active (DownloadCoverageClaim.assign_all (released now) c) = false.
Proof. by destruct c. Qed.

Lemma release_ok d p now : wf_tracked d ->
  claims_ok d (rewritten p (DownloadCoverageClaim.assign_all (released now)) (coverage_claims d)) = true.
Proof.
  intros Hw. pose proof (wf_claims d Hw) as [H1 H2]%andb_prop. apply bool_decide_eq_true in H1. unfold claims_ok.
  rewrite andb_true_iff, bool_decide_eq_true. split.
  - eapply sublist_NoDup; [exact H1|]. apply omap_rewritten_sublist. intros c. right.
    unfold claim_index. rewrite released_inactive. by repeat destruct (_ : option Z).
  - eapply forallb_rewritten; [|exact H2]. intros c. unfold released. by destruct c.
Qed.

(** The release always succeeds. *)
Lemma release_claims_spec d i now : wf_tracked d ->
  release_coverage_claims i now d =
  (Ok tt, with_claims (rewritten (fun c => claims_of i c && claim_active c)
                         (DownloadCoverageClaim.assign_all (released now)) (coverage_claims d)) d).
Proof.
  intros Hw. unfold release_coverage_claims, mbind, DBM_bind, update_claims, checked.
  by rewrite release_ok.
Qed.

Lemma released_held o p now d : held_but o d ->
  (forall c, c ∈ coverage_claims d -> o = Some (DownloadCoverageClaim.download_id c) -> claim_active c = true -> p c = true) ->
  held (with_claims (rewritten p (DownloadCoverageClaim.assign_all (released now)) (coverage_claims d)) d).
Proof.
  intros H Ho c Hc Ha. simpl in Hc. unfold rewritten in Hc. apply list_elem_of_fmap in Hc as (b & -> & Hb).
  destruct (p b) eqn:Hp; [by rewrite released_inactive in Ha|]. right.
  destruct (H b Hb Ha) as [Hi|Hl]; [|done]. by rewrite (Ho b Hb Hi Ha) in Hp.
Qed.

Lemma guarded_release_but i now d : wf_tracked d -> held_but (Some i) d -> guarded (release_coverage_claims i now d).2.
Proof.
  intros Hw H. split; [by apply (kept_release wf_tracked)|]. rewrite release_claims_spec by done.
  eapply released_held; [exact H|]. intros c _ [= ->] Ha. unfold claims_of. by rewrite Z.eqb_refl, Ha.
Qed.

Lemma held_held_but o d : held d -> held_but o d.
Proof. intros H c Hc Ha. destruct (H c Hc Ha) as [?|?]; [done | by right]. Qed.

Lemma guarded_release i now : keeps guarded (release_coverage_claims i now).
Proof. intros d [Hw H]. apply guarded_release_but; [done | by apply held_held_but]. Qed.
#[local] Hint Resolve guarded_release guarded_scoped : keeps.

Lemma guarded_release_resolved i l now : keeps guarded (release_resolved_target_coverage_claims i l now).
Proof.
  unfold release_resolved_target_coverage_claims. destruct l; [auto with keeps|].
  apply keeps_bind; [auto with keeps|]. intros [|n r]; [auto with keeps|]. apply keeps_bind; [|auto with keeps].
  intros d [Hw H]. split; [by apply (kept_update_claims (P := wf_tracked))|].
  unfold update_claims, checked. rewrite release_ok by done. simpl. eapply released_held; [exact H|done].
Qed.

(** *** The writes of downloads *)

Lemma guarded_free p values : forallb status_free values = true -> keeps guarded (update_downloads p values).
Proof.
  intros Hf d [Hw H]. split; [by apply (kept_update_downloads (P := wf_tracked))|]. by apply held_free.
Qed.

Lemma guarded_insert_download row : (forall i, Download.id (row i) = i) -> keeps guarded (insert_download row).
Proof.
  intros Hid d [Hw H]. split; [by apply (kept_insert_download (P := wf_tracked))|].
  unfold insert_download, checked. destruct (downloads_ok _ _); [|done]. simpl.
  eapply held_grow; [| |exact H]; [|done]. simpl. set_solver.
Qed.

Lemma clearing_free {A} b (v : option A) col : (forall x, status_free (col x) = true) ->
  forallb status_free (clearing b v col) = true.
Proof. intros Hc. destruct b, v; simpl; by rewrite ?Hc. Qed.
Lemma setting_free {A} (v : option A) col : (forall x, status_free (col x) = true) ->
  forallb status_free (setting v col) = true.
Proof. intros Hc. destruct v; simpl; by rewrite ?Hc. Qed.

Ltac status_is_free := rewrite ?forallb_app, ?setting_free, ?clearing_free by done; try done.

Section tracking.
Context {DB : UnicodeDB} (nulls_first : bool).

Lemma change_values_status st u values x : change_values st u = Ok values ->
  Download.status (Download.assign_all values x) = st.
Proof.
  unfold change_values. intros (kind & _ & [= <-])%bind_Ok.
  match goal with |- context [Download.set_status st :: ?l] => assert (forallb status_free l = true) as Hf end.
  { status_is_free. by destruct (replace_grab_metadata u). }
  revert Hf. match goal with |- context [Download.set_status st :: ?l] => generalize l end. intros l Hf.
  change (Download.assign_all (Download.set_status st :: l) x)
    with (Download.assign_all l (Download.assign x (Download.set_status st))).
  assert (Download.status (Download.assign x (Download.set_status st)) = st) as Hs by (by destruct x).
  revert Hs. generalize (Download.assign x (Download.set_status st)). clear x. revert Hf.
  induction l as [|v l IH]; intros Hf x Hx; [done|]. simpl in Hf. apply andb_prop in Hf as [Hv Hl].
  change (Download.assign_all (v :: l) x) with (Download.assign_all l (Download.assign x v)).
  apply IH; [done|]. rewrite <- Hx. by destruct v, x.
Qed.

Lemma free_status l x : forallb status_free l = true -> Download.status (Download.assign_all l x) = Download.status x.
Proof.
  revert x. induction l as [|v l IH]; intros x; [done|]. simpl. intros [Hv Hl]%andb_prop.
  change (Download.assign_all (v :: l) x) with (Download.assign_all l (Download.assign x v)).
  rewrite IH by done. by destruct v, x.
Qed.

Lemma cas_values_status st c now values x : cas_values st c now = Ok values ->
  Download.status (Download.assign_all values x) = st.
Proof.
  unfold cas_values. intros (l & Hl & [= <-])%bind_Ok.
  assert (forall l1 l2, Download.assign_all (l1 ++ l2) x = Download.assign_all l2 (Download.assign_all l1 x)) as Happ
    by (intros; apply foldl_app).
  rewrite Happ, free_status; [by eapply change_values_status|].
  status_is_free. by destruct (clear_payload_rejection c), (payload_rejection c).
Qed.

(** The row after such a write. *)
Lemma written_held i st values d : wf_tracked d -> held d -> (forall x, Download.status (Download.assign_all values x) = st) ->
  held_but (if mem st _TERMINAL_DOWNLOAD_STATUSES then Some i else None) (update_downloads (has_id i) values d).2.
Proof.
  intros Hw H Hst. apply held_update_downloads; [|by apply held_held_but].
  intros x _ Hx _. unfold has_id in Hx. destruct (mem st _) eqn:Ht; [left; f_equal; lia|].
  right. unfold terminal. by rewrite Hst.
Qed.

Lemma guarded_after i st u now d : wf_tracked d ->
  held_but (if mem st _TERMINAL_DOWNLOAD_STATUSES then Some i else None) d -> guarded (after_write i st u now d).2.
Proof.
  intros Hw H. unfold after_write. destruct (mem st _).
  - unfold mbind, DBM_bind. pose proof (guarded_release_but i now d Hw H) as Hg.
    destruct (release_coverage_claims i now d) as [[[]|e] d1]; [|done]. simpl in Hg.
    destruct (replace_grab_metadata u); [by apply (kept_replace_scope_set guarded)|done].
  - unfold mbind, DBM_bind, mret, DBM_ret. destruct (replace_grab_metadata u); [by apply (kept_replace_scope_set guarded)|done].
Qed.

Lemma guarded_update_status i st u now : keeps guarded (update_status i st u now).
Proof.
  unfold update_status, download_row. apply keeps_bind; [auto with keeps|]. intros [x|]; [|auto with keeps].
  unfold lift_res. intros d [Hw H]. unfold mbind at 1, DBM_bind at 1.
  destruct (change_values st u) as [values|e] eqn:Hv; [|done].
  pose proof (fun x => change_values_status st u values x Hv) as Hst.
  pose proof (written_held i st values d Hw H Hst) as Hh.
  pose proof (kept_update_downloads (P := wf_tracked) (has_id i) values d Hw) as Hw1.
  unfold mbind, DBM_bind. destruct (update_downloads (has_id i) values d) as [[n|e] d1] eqn:Hu; simpl in *.
  - by apply guarded_after.
  - unfold update_downloads, checked in Hu. destruct (downloads_ok _ _); [done|]. by injection Hu as _ <-.
Qed.

Lemma guarded_update_status_if_in i st from c now : keeps guarded (update_status_if_in i st from c now).
Proof.
  intros d [Hw H]. unfold update_status_if_in, lift_res, mbind, DBM_bind, reading.
  destruct (cas_values st c now) as [values|e] eqn:Hv; [|done].
  pose proof (fun x => cas_values_status st c now values x Hv) as Hst.
  rewrite update_download_spec by done.
  destruct (row_of d i) as [x|]; [|done]. destruct (cas_guard d i from c x); [|done].
  unfold checked. destruct (downloads_ok _ _) eqn:Hok; [|done]. simpl.
  pose proof (written_held i st values d Hw H Hst) as Hh.
  pose proof (kept_update_downloads (P := wf_tracked) (has_id i) values d Hw) as Hw1.
  unfold update_downloads, checked in Hh, Hw1. unfold with_row in Hok |- *. simpl in Hok. rewrite Hok in Hh, Hw1.
  simpl in Hh, Hw1. pose proof (guarded_after i st (shared c) now _ Hw1 Hh) as Hg.
  by destruct (after_write _ _ _ _ _) as [[]].
Qed.

#[local] Hint Resolve guarded_free : keeps.

Lemma guarded_tracking A (m : DBM A) : tracking nulls_first A m -> keeps guarded m.
Proof.
  intros [].
  - unfold create. apply keeps_bind; [auto with keeps|]. intros kind. cbv zeta.
    apply keeps_bind; [by apply guarded_insert_download|]. intros i. destruct m0, n; auto with keeps.
  - apply kept_ensure_scope, _.
  - apply guarded_release.
  - apply guarded_release_resolved.
  - unfold lock_if_active, lock_if. auto with keeps.
  - unfold lock_if_terminal, lock_if. auto with keeps.
  - unfold align_scalar_scope_with_active, download_row. apply keeps_bind; [auto with keeps|].
    intros [x|]; [|auto with keeps]. apply keeps_bind; [auto with keeps|]. intros [|s0 l]; auto with keeps.
  - apply guarded_update_status.
  - apply guarded_update_status_if_in.
  - unfold increment_retry_count_if_in. auto with keeps.
  - apply kept_scope_status, _.
  - unfold refresh_progress, download_row. apply keeps_bind; [auto with keeps|]. intros [x|]; [|auto with keeps].
    apply keeps_bind; [apply guarded_free; status_is_free | auto with keeps].
Qed.

End tracking.

(** *** Claiming *)

(** A claim made for a live torrent. *)
Lemma held_ensure_claim i r n d : wf_tracked d -> live d i -> held d -> held (ensure_coverage_claim i r n d).2.
Proof.
  intros Hw Hl H. unfold ensure_coverage_claim, mbind, DBM_bind, query.
  destruct (List.find _ _) as [c|] eqn:Hf.
  - apply List.find_some in Hf as [Hc [[Hci _]%andb_prop _]%andb_prop]. apply list_elem_of_In in Hc.
    unfold claims_of in Hci.
    destruct (claim_active c); [done|]. unfold update_claims, checked. destruct (claims_ok _ _); [|done].
    intros b Hb Ha. simpl in Hb. unfold rewritten in Hb. apply list_elem_of_fmap in Hb as (b' & -> & Hb').
    destruct (Z.eqb_spec (DownloadCoverageClaim.id b') (DownloadCoverageClaim.id c)) as [Hid|]; [|by apply H].
    right. destruct (wf_claim_ids d Hw) as [Hs _].
    rewrite (sorted_ids_unique _ _ _ _ Hs Hb' Hc Hid). rewrite (proj1 (proj2 (claim_assign _ c))).
    by apply Z.eqb_eq in Hci as ->.
  - unfold insert_claim, checked. destruct (claims_ok _ _); [|done].
    intros b Hb Ha. simpl in Hb. apply elem_of_app in Hb as [Hb| ->%list_elem_of_singleton]; [by apply H|].
    by right.
Qed.

(** *** Who a season is refused to *)

Lemma omap_rewritten_elem {R X} (f : R -> option X) (p : R -> bool) g t k x :
  (forall r, r ∈ t -> p r = true -> f (g r) = Some k) -> x ∈ omap f (rewritten p g t) -> x ∈ omap f t \/ x = k.
Proof.
  intros Hg (r & Hr & Hx)%list_elem_of_omap. unfold rewritten in Hr.
  apply list_elem_of_fmap in Hr as (s & -> & Hs). destruct (p s) eqn:Hp.
  - right. rewrite (Hg s Hs Hp) in Hx. congruence.
  - left. apply list_elem_of_omap. eauto.
Qed.

Lemma omap_rewritten_NoDup {R X} (key : R -> Z) (f : R -> option X) g (t : list R) i k :
  NoDup (key <$> t) -> NoDup (omap f t) ->
  (forall r, r ∈ t -> (key r =? i)%Z = true -> f (g r) = Some k) -> k ∉ omap f t ->
  NoDup (omap f (rewritten (fun r => (key r =? i)%Z) g t)).
Proof.
  induction t as [|r t IH]; intros Hk Hf Hg Hn; [done|]. simpl in *. apply NoDup_cons in Hk as [Hr Hk].
  destruct (Z.eqb_spec (key r) i) as [Hi|Hi].
  - rewrite (Hg r) by (left || lia). simpl.
    assert (rewritten (fun x => (key x =? i)%Z) g t = t) as ->.
    { apply rewritten_none. clear -Hr Hi. induction t as [|x t IH]; [done|]. simpl in *.
      destruct (Z.eqb_spec (key x) i) as [Hx|Hx]; [|apply IH; set_solver].
      exfalso. apply Hr. rewrite Hi, <- Hx. left. }
    apply NoDup_cons. destruct (f r); [apply NoDup_cons in Hf as [_ Hf]; set_solver | done].
  - assert (NoDup (omap f (rewritten (fun r => (key r =? i)%Z) g t))) as Hnd.
    { apply IH; try done; [by destruct (f r); [apply NoDup_cons in Hf as [_ Hf]|]| |].
      - intros x Hx. apply Hg. by right.
      - destruct (f r); set_solver. }
    destruct (f r) as [x|]; [|done]. apply NoDup_cons. split; [|done]. apply NoDup_cons in Hf as [Hx _].
    intros [Hin|Hin]%(omap_rewritten_elem _ _ _ _ k); [done|set_solver|].
    intros y Hy. apply Hg. by right.
Qed.

Lemma sorted_NoDup (l : list Z) : StronglySorted Z.lt l -> NoDup l.
Proof.
  induction 1 as [|x l Hs IH Hall]; constructor; [|done]. rewrite Forall_forall in Hall. intros Hx.
  specialize (Hall x Hx). lia.
Qed.

(** A refused claim: somebody else's active claim of the season. *)
Lemma claim_refused d i r n : wf_tracked d -> i ∈ download_ids d -> r ∈ request_ids d ->
  (ensure_coverage_claim i r n d).1 <> Ok tt ->
  exists c, c ∈ coverage_claims d /\ claim_active c = true /\
    DownloadCoverageClaim.media_request_id c = Some r /\ DownloadCoverageClaim.season_number c = Some n.
Proof.
  intros Hw Hi Hr He. pose proof (wf_claims d Hw) as [H1 H2]%andb_prop. apply bool_decide_eq_true in H1.
  destruct (decide ((r, n) ∈ omap claim_index (coverage_claims d))) as [Hin|Hout].
  { apply list_elem_of_omap in Hin as (c & Hc & Hk). exists c. split; [done|]. unfold claim_index in Hk.
    destruct (DownloadCoverageClaim.media_request_id c), (DownloadCoverageClaim.season_number c), (claim_active c);
      try done. by injection Hk as -> ->. }
  exfalso. apply He. unfold ensure_coverage_claim, mbind, DBM_bind, query.
  destruct (List.find _ _) as [c|] eqn:Hf.
  - apply List.find_some in Hf as [Hc [[Hci Hcr]%andb_prop Hcn]%andb_prop]. apply list_elem_of_In in Hc.
    apply bool_decide_eq_true in Hcr, Hcn. destruct (claim_active c); [done|].
    unfold update_claims, checked, claims_ok. rewrite bool_decide_true; simpl.
    + rewrite forallb_rewritten; [done| |exact H2]. by intros [].
    + destruct (wf_claim_ids d Hw) as [Hs _].
      apply (omap_rewritten_NoDup DownloadCoverageClaim.id _ _ _ _ (r, n)); [by apply sorted_NoDup|done| |done].
      intros b Hb Hid. assert (b = c) as ->; [|destruct c; simpl in *; by rewrite Hcr, Hcn].
      apply (sorted_ids_unique DownloadCoverageClaim.id (coverage_claims d)); try done. lia.
  - unfold insert_claim, checked, claims_ok. rewrite bool_decide_true; simpl.
    + rewrite forallb_app, H2. simpl.
      assert (mem i (download_ids d) = true) as -> by (by apply mem_true).
      assert (mem r (request_ids d) = true) as -> by (by apply mem_true). done.
    + rewrite omap_app. simpl. apply NoDup_app. split; [done|]. split; [|apply NoDup_singleton].
      by intros x Hx ->%list_elem_of_singleton.
Qed.

Section claims.
Context {DB : UnicodeDB} (nulls_first : bool).

Lemma reachable_guarded d : reachable nulls_first live d -> guarded d.
Proof.
  intros Hd. eapply reachable_survives; [|..|exact Hd].
  - apply every_transaction; try apply _.
    + intros A m. apply guarded_tracking.
    + intros i m s d0 Hl [Hw H]. split; [by apply (kept_ensure_coverage_claim wf_tracked)|].
      by apply held_ensure_claim.
    + intros w h d0 [Hw H]. split; [|done]. by eapply tracked_grow; [..|exact Hw].
  - split; [apply wf_tracked_empty|]. by intros c Hc%elem_of_nil.
Qed.

(** C17: When claims are made only for torrents that are still live, an active
    claim belongs to a live torrent in every database the repositories and
    services can reach: a finished, failed or parked torrent never keeps a
    season.  So the claim of an existing download on a season of an existing
    request is refused only when a live torrent holds an active claim of that
    very season. *)
Theorem claims_never_outlive_their_torrent d : reachable nulls_first live d ->
  (forall c, c ∈ coverage_claims d -> claim_active c = true -> live d (DownloadCoverageClaim.download_id c)) /\
  (forall i r n, i ∈ download_ids d -> r ∈ request_ids d -> (ensure_coverage_claim i r n d).1 <> Ok tt ->
     exists c, c ∈ coverage_claims d /\ claim_active c = true /\
       DownloadCoverageClaim.media_request_id c = Some r /\ DownloadCoverageClaim.season_number c = Some n /\
       live d (DownloadCoverageClaim.download_id c)).
Proof.
  intros Hd. destruct (reachable_guarded d Hd) as [Hw H].
  assert (forall c, c ∈ coverage_claims d -> claim_active c = true -> live d (DownloadCoverageClaim.download_id c))
    as Hall by (intros c Hc Ha; by destruct (H c Hc Ha)).
  split; [done|]. intros i r n Hi Hr He. destruct (claim_refused d i r n Hw Hi Hr He) as (c & Hc & Ha & Hcr & Hcn).
  exists c. by split_and!; try apply Hall.
Qed.

End claims.

(** ** The compare-and-swap *)

#[export] Instance downloads_scoped (T : list Download.t) : Scoped (fun d => downloads d = T).
Proof.
  constructor; intros; intros d Hd; cbv [update_scopes insert_scope checked];
    first [exact Hd | by destruct (scopes_ok _ _)].
Qed.
#[export] Instance downloads_claimed (T : list Download.t) : Claimed (fun d => downloads d = T).
Proof.
  constructor; intros; intros d Hd; cbv [update_claims insert_claim checked]; by destruct (claims_ok _ _).
Qed.
#[export] Instance claims_scoped (T : list DownloadCoverageClaim.t) : Scoped (fun d => coverage_claims d = T).
Proof.
  constructor; intros; intros d Hd; cbv [update_scopes insert_scope checked];
    first [exact Hd | by destruct (scopes_ok _ _)].
Qed.

Lemma row_of_with_row d i values j :
  row_of (with_row i values d) j = (if (i =? j)%Z then Download.assign_all values else id) <$> row_of d j.
Proof.
  unfold row_of, with_row, has_id, rewritten. simpl.
  induction (downloads d) as [|r t IH]; simpl; [by destruct (i =? j)%Z|].
  destruct (Z.eqb_spec (Download.id r) i) as [Hi|Hi]; simpl.
  - rewrite download_assign_id. destruct (Z.eqb_spec (Download.id r) j) as [Hj|Hj]; [|done].
    simpl. by replace (i =? j)%Z with true by lia.
  - destruct (Z.eqb_spec (Download.id r) j) as [Hj|Hj]; [|done]. simpl.
    by replace (i =? j)%Z with false by lia.
Qed.

Section cas.
Context {DB : UnicodeDB}.

Lemma after_write_downloads i st u now d : downloads (after_write i st u now d).2 = downloads d.
Proof.
  unfold after_write. apply (keeps_bind (fun d' => downloads d' = downloads d)); [| |done].
  - destruct (mem st _); [apply kept_release, _|apply keeps_ret].
  - intros _. destruct (replace_grab_metadata u); [apply kept_replace_scope_set, _|apply keeps_ret].
Qed.

Lemma after_write_requests i st u now d : same_requests d (after_write i st u now d).2.
Proof. apply (kept_after_write (same_requests d)), same_requests_refl. Qed.

(** A finished torrent has no active claim left. *)
Lemma after_write_claims i st u now d c : wf_tracked d -> mem st _TERMINAL_DOWNLOAD_STATUSES = true ->
  c ∈ coverage_claims (after_write i st u now d).2 -> claim_active c = true -> DownloadCoverageClaim.download_id c <> i.
Proof.
  intros Hw Ht. unfold after_write. rewrite Ht. unfold mbind, DBM_bind. rewrite release_claims_spec by done.
  set (d1 := with_claims _ d).
  assert (coverage_claims ((if replace_grab_metadata u then _replace_scope_set i (media_request_id u) (season u) (episodes u)
            else mret tt) d1).2 = coverage_claims d1) as ->.
  { destruct (replace_grab_metadata u); [|done].
    by apply (kept_replace_scope_set (fun d' => coverage_claims d' = coverage_claims d1)). }
  subst d1. simpl. unfold rewritten. intros (b & -> & Hb)%list_elem_of_fmap.
  destruct (claims_of i b && claim_active b) eqn:Hp; [by rewrite released_inactive|].
  intros Ha Hi. rewrite Ha, andb_true_r in Hp. unfold claims_of in Hp. lia.
Qed.

Lemma cas_guard_iff d i from c x : cas_guard d i from c x = true ->
  Download.status x ∈ from /\
  (forall reason, require_failed_reason c = Some reason -> Download.failed_reason x = reason) /\
  (forall seen s, require_no_unimported_scope_outside c = Some seen -> s ∈ download_scopes d ->
     DownloadScope.download_id s = i -> DownloadScope.status s = lit "imported" \/ DownloadScope.id s ∈ seen).
Proof.
  unfold cas_guard. intros [[H1 H2]%andb_prop H3]%andb_prop. apply mem_true in H1. split; [done|]. split.
  - intros reason Hr. rewrite Hr in H2. by apply bool_decide_eq_true in H2.
  - intros seen s Hs Hin Hi. rewrite Hs in H3. apply negb_true_iff, not_true_iff_false in H3.
    destruct (decide (DownloadScope.status s = lit "imported")) as [|Hne]; [by left|].
    destruct (decide (DownloadScope.id s ∈ seen)) as [|Hni]; [by right|]. exfalso. apply H3.
    apply existsb_exists_iff. exists s. split; [done|]. unfold of_download, imported_scope.
    rewrite Hi, Z.eqb_refl, bool_decide_false by done. simpl. by apply negb_true_iff, mem_false.
Qed.


End cas.

(** ** A database *)

#[local] Existing Instance ascii_db.

Definition run {A} (m : DBM A) (d : db) : db := (m d).2.

Definition plain_details : RequestDetails := {|
  RequestStore.year := None; is_anime := None; poster_url := None; backdrop_url := None; tv_request_mode := None;
  requested_seasons_json := None; requested_episodes_json := None |}.

(** A show with two seasons; a torrent downloads the first, and failed for the
    second. *)
Definition show_request : DBM (option MediaRequest.t) :=
  RequestRepository.create 77 tv (lit "Show") pending None plain_details false 10.
Definition grab (hash : string) (season : Z) : DBM DownloadRecord :=
  create (lit hash) (lit "downloading") (Some 1%Z) None (Some 77%Z) None (Some season) None (Some (lit "tv")) None None
    false false false 20.

Definition sample_1 : db := run show_request empty_db.
Definition sample_2 : db := run (SeasonRepository.ensure 1 1 pending false) sample_1.
Definition sample_3 : db := run (SeasonRepository.ensure 1 2 pending false) sample_2.
Definition sample_4 : db := run (grab "aa" 1) sample_3.
Definition sample_5 : db := run (ensure_coverage_claim 1 1 1) sample_4.
Definition sample_6 : db := run (grab "bb" 2) sample_5.
Definition sample_7 : db := run (ensure_coverage_claim 2 1 2) sample_6.
Definition sample_tables : db := run (update_status 2 (lit "failed") no_changes 30) sample_7.

Lemma sample_live_1 : live sample_4 1.
Proof.
  exists (default (Download.Build_t 0 None [] None [] f_zero f_zero None None None None None None None 0 None None 0
    false false false None None None) (row_of sample_4 1)).
  split; [vm_compute; left|]. by vm_compute.
Qed.
Lemma sample_live_2 : live sample_6 2.
Proof.
  exists (default (Download.Build_t 0 None [] None [] f_zero f_zero None None None None None None None 0 None None 0
    false false false None None None) (row_of sample_6 2)).
  split; [vm_compute; right; left|]. by vm_compute.
Qed.

Lemma sample_tables_reachable nulls_first : reachable nulls_first live sample_tables.
Proof.
  exists 0%nat.
  refine (rtc_l _ _ sample_1 _ (tx_request nulls_first live 0 _ show_request _ _) _); [apply m_create|].
  refine (rtc_l _ _ sample_2 _ (tx_request nulls_first live 0 _ (SeasonRepository.ensure 1 1 pending false) _ _) _);
    [apply m_season_ensure|].
  refine (rtc_l _ _ sample_3 _ (tx_request nulls_first live 0 _ (SeasonRepository.ensure 1 2 pending false) _ _) _);
    [apply m_season_ensure|].
  refine (rtc_l _ _ sample_4 _ (tx_tracking nulls_first live 0 _ (grab "aa" 1) _ _) _); [apply t_create|].
  refine (rtc_l _ _ sample_5 _ (tx_claim nulls_first live 0 1 1 1 _ sample_live_1) _).
  refine (rtc_l _ _ sample_6 _ (tx_tracking nulls_first live 0 _ (grab "bb" 2) _ _) _); [apply t_create|].
  refine (rtc_l _ _ sample_7 _ (tx_claim nulls_first live 0 2 1 2 _ sample_live_2) _).
  refine (rtc_l _ _ sample_tables _ (tx_tracking nulls_first live 0 _ (update_status 2 (lit "failed") no_changes 30) _ _) _);
    [apply t_status|]. apply rtc_refl.
Qed.

Lemma sample_wf_tracked : wf_tracked sample_tables.
Proof. apply (reachable_tracked false live), sample_tables_reachable. Qed.


Lemma claims_never_outlive_their_torrent_witness :
  (ensure_coverage_claim 2 1 1 sample_tables).1 <> Ok tt /\ (ensure_coverage_claim 1 1 2 sample_tables).1 = Ok tt /\
  exists c, c ∈ coverage_claims sample_tables /\ claim_active c = true /\
    DownloadCoverageClaim.media_request_id c = Some 1%Z /\ DownloadCoverageClaim.season_number c = Some 1%Z /\
    live sample_tables (DownloadCoverageClaim.download_id c).
Proof.
  assert ((ensure_coverage_claim 2 1 1 sample_tables).1 <> Ok tt) as Hr by (vm_compute; discriminate).
  split; [exact Hr|]. split; [vm_compute; reflexivity|].
  apply (proj2 (claims_never_outlive_their_torrent false sample_tables (sample_tables_reachable false)) 2%Z 1%Z 1%Z).
  - apply mem_true. vm_compute. reflexivity.
  - apply mem_true. vm_compute. reflexivity.
  - exact Hr.
Defined.

