(* ===== verification/EpisodeFacts.v ===== *)
(** * What the episode table promises

    What is committed while a method runs cannot make an import forget an
    episode, an imported episode is not lost, and the airing refresh re-arms only
    seasons that grew. *)

From Stdlib Require Import ZArith Lia Bool String Sorted.
From S2P Require Import Prelude PyStr PyNum Release RequestStore RequestLaws DownloadLaws EpisodeRepository.
From S2P Require Quality SeasonPack SeasonRepository RequestRepository DownloadRepository EpisodeService DownloadFacts.

#[local] Open Scope bool_scope.

(** The season has this episode, imported. *)
Definition imported_in (s n : Z) (d : db) : Prop :=
  exists e, e ∈ episode_states d /\ episode_key e = (s, n) /\ SeasonEpisodeState.status e = EpisodeState.imported.

(** ** Imported episodes are kept *)

(** A column value that does not take an imported status away. *)
Definition harmless (v : SeasonEpisodeState.column_value) : bool :=
  match v with SeasonEpisodeState.set_status x => bool_decide (x = EpisodeState.imported) | _ => true end.

Lemma harmless_imported values e : forallb harmless values = true ->
  SeasonEpisodeState.status e = EpisodeState.imported ->
  SeasonEpisodeState.status (SeasonEpisodeState.assign_all values e) = EpisodeState.imported.
Proof.
  revert e. induction values as [|v l IH]; intros e; [done|]. simpl. intros [Hv Hl]%andb_prop He.
  change (SeasonEpisodeState.assign_all (v :: l) e)
    with (SeasonEpisodeState.assign_all l (SeasonEpisodeState.assign e v)).
  apply IH; [done|]. destruct v, e; simpl in *; try done. by apply bool_decide_eq_true in Hv.
Qed.

Lemma imported_update s n p values : (forall e, episode_key e = (s, n) ->
    SeasonEpisodeState.status e = EpisodeState.imported -> p e = true -> forallb harmless values = true) ->
  keeps (imported_in s n) (update_episodes p values).
Proof.
  intros Hp d (e & He & Hk & Hs). unfold update_episodes, checked. destruct (episodes_ok _ _); [|by exists e].
  exists (if p e then SeasonEpisodeState.assign_all values e else e). split; [|split].
  - simpl. unfold rewritten. apply list_elem_of_fmap. eauto.
  - destruct (p e); [|done]. by rewrite (proj2 (episode_assign values e)).
  - destruct (p e) eqn:Hpe; [|done]. by apply harmless_imported; [eapply Hp|].
Qed.

Lemma imported_insert s n row : keeps (imported_in s n) (insert_episode row).
Proof.
  intros d (e & He & Hk & Hs). unfold insert_episode, checked. destruct (episodes_ok _ _); [|by exists e].
  exists e. split; [|done]. simpl. apply elem_of_app. by left.
Qed.

Lemma imported_delete s n p : (forall e, p e = true -> SeasonEpisodeState.status e <> EpisodeState.imported) ->
  keeps (imported_in s n) (delete_episodes p).
Proof.
  intros Hp d (e & He & Hk & Hs). exists e. split; [|done]. simpl. apply list_elem_of_In, List.filter_In.
  split; [by apply list_elem_of_In|]. destruct (p e) eqn:Hpe; [|done]. by apply Hp in Hpe.
Qed.

Lemma forallb_filtered {R} (p q : R -> bool) l : forallb p l = true -> forallb p (List.filter q l) = true.
Proof. apply forallb_filter_list. Qed.

Lemma imported_assign s n row values : forallb harmless values = true ->
  keeps (imported_in s n) (assign_row row values).
Proof.
  intros Hv. unfold assign_row.
  destruct (List.filter _ values) as [|v l] eqn:Hf; [apply keeps_ret|].
  apply keeps_bind; [|auto with keeps]. apply imported_update. intros _ _ _ _. rewrite <- Hf.
  by apply forallb_filtered.
Qed.

Lemma imported_insert_or_reread s n row : keeps (imported_in s n) (_insert_or_reread row).
Proof.
  unfold _insert_or_reread. apply keeps_except; [|auto with keeps]. apply keeps_savepoint.
  apply keeps_bind; [apply imported_insert | auto with keeps].
Qed.

#[local] Hint Resolve imported_assign imported_insert_or_reread : keeps.

Section kept.
Context (s n : Z) (meanwhile : db -> db) (Hm : forall d, imported_in s n d -> imported_in s n (meanwhile d)).

Lemma imported_interrupted : keeps (imported_in s n) (interrupted meanwhile).
Proof. intros d. apply Hm. Qed.
#[local] Hint Resolve imported_interrupted : keeps.

Lemma imported_upsert i aired : keeps (imported_in s n) (upsert_target meanwhile i aired).
Proof.
  unfold upsert_target, _existing_by_episode. apply keeps_bind; [auto with keeps|]. intros existing.
  apply keeps_bind; [auto with keeps|]. intros _. apply keeps_bind; [|intros _].
  - induction aired as [|[m a] l IH]; simpl; [auto with keeps|]. apply keeps_bind; [|done].
    destruct (existing_row _ _); auto with keeps.
  - induction existing as [|row l IH]; simpl; [auto with keeps|]. apply keeps_bind; [|done].
    apply keeps_if; [|auto with keeps]. apply keeps_bind; [|auto with keeps]. apply imported_delete.
    intros e [_ H]%andb_prop. apply bool_decide_eq_true in H. congruence.
Qed.

Lemma imported_import_each i g existing l : keeps (imported_in s n) (import_each i g existing l).
Proof.
  induction l as [|m l IH]; simpl; [auto with keeps|]. apply keeps_bind; [|done].
  unfold import_one, _reread_one. destruct (existing_row _ _); [auto with keeps|].
  apply keeps_bind; [auto with keeps|]. intros []; [auto with keeps|]. apply keeps_bind; [auto with keeps|].
  intros [row|]; auto with keeps.
Qed.

Lemma imported_mark i l g : keeps (imported_in s n) (mark_imported meanwhile i l g).
Proof.
  unfold mark_imported, _existing_by_episode. apply keeps_bind; [auto with keeps|]. intros existing.
  apply keeps_bind; [auto with keeps|]. intros _. apply imported_import_each.
Qed.

Lemma imported_adopt i w : keeps (imported_in s n) (adopt_baseline meanwhile i w).
Proof.
  unfold adopt_baseline, _existing_by_episode. apply keeps_bind; [auto with keeps|]. intros existing.
  apply keeps_bind; [auto with keeps|]. intros _.
  induction existing as [|row l IH]; simpl; [auto with keeps|]. apply keeps_bind; [|done].
  apply keeps_if; auto with keeps.
Qed.

End kept.

(** *** A grab that nothing interrupts *)

Lemma row_untouched e row values : SeasonEpisodeState.id row <> SeasonEpisodeState.id e ->
  keeps (fun d => e ∈ episode_states d) (assign_row row values).
Proof.
  intros Hid. unfold assign_row. destruct (List.filter _ values) as [|v l]; [apply keeps_ret|].
  apply keeps_bind; [|auto with keeps]. intros d He. unfold update_episodes, checked.
  destruct (episodes_ok _ _); [|done]. simpl. unfold rewritten. apply list_elem_of_fmap. exists e. split; [|done].
  by replace (SeasonEpisodeState.id e =? SeasonEpisodeState.id row)%Z with false by lia.
Qed.

Lemma row_after_insert e row : keeps (fun d => e ∈ episode_states d) (_insert_or_reread row).
Proof.
  unfold _insert_or_reread. apply keeps_except; [|auto with keeps]. apply keeps_savepoint.
  apply keeps_bind; [|auto with keeps]. intros d He. unfold insert_episode, checked.
  destruct (episodes_ok _ _); [|done]. simpl. apply elem_of_app. by left.
Qed.

Lemma existing_row_Some l m row : existing_row l m = Some row -> row ∈ l /\ SeasonEpisodeState.episode_number row = m.
Proof.
  intros [H1 H2]%List.find_some. split; [by apply list_elem_of_In|]. unfold is_episode in H2. lia.
Qed.

Lemma season_rows_in d i e : e ∈ season_rows d i <-> e ∈ episode_states d /\ SeasonEpisodeState.season_request_id e = i.
Proof.
  unfold season_rows, select, of_season. rewrite list_elem_of_In, List.filter_In, <- list_elem_of_In.
  by rewrite Z.eqb_eq.
Qed.

Lemma imported_grab s n i l g d : wf_tracked d ->
  imported_in s n d -> imported_in s n (mark_grabbed id i l g d).2.
Proof.
  intros Hw (e & He & Hk & Hs). cut (e ∈ episode_states (mark_grabbed id i l g d).2); [by exists e|].
  unfold mark_grabbed, _existing_by_episode, interrupted, mbind, DBM_bind, query. simpl.
  assert (forall row, row ∈ season_rows d i -> SeasonEpisodeState.id row = SeasonEpisodeState.id e -> row = e) as Hu.
  { intros row [Hr _]%season_rows_in Hid. destruct (wf_episode_ids d Hw) as [Hsort _].
    by apply (sorted_ids_unique _ _ _ _ Hsort). }
  revert Hu. generalize (season_rows d i) as existing. intros existing Hu.
  clear Hw. revert d He. change (keeps (fun d => e ∈ episode_states d) (grab_each i g existing l)).
  induction l as [|m l IH]; simpl; [auto with keeps|]. apply keeps_bind; [|done].
  destruct (existing_row existing m) as [row|] eqn:Hr.
  - apply existing_row_Some in Hr as [Hr _]. destruct (has_state EpisodeState.imported row) eqn:Hi; simpl; [auto with keeps|].
    apply row_untouched. intros Hid. rewrite (Hu row Hr Hid) in Hi. unfold has_state in Hi.
    by rewrite bool_decide_true in Hi.
  - apply keeps_bind; [apply row_after_insert | auto with keeps].
Qed.


(** ** An import wins *)

(** The rows read before are still there, with what they said of imports. *)
Definition rows_stay (existing : list SeasonEpisodeState.t) (d : db) : Prop :=
  forall row, row ∈ existing -> exists e, e ∈ episode_states d /\ SeasonEpisodeState.id e = SeasonEpisodeState.id row /\
    episode_key e = episode_key row /\
    (SeasonEpisodeState.status row = EpisodeState.imported -> SeasonEpisodeState.status e = EpisodeState.imported).

Record importing (s g : Z) (existing : list SeasonEpisodeState.t) (d : db) : Prop := {
  im_wf : wf_tracked d;
  im_season : s ∈ season_ids d;
  im_download : g ∈ download_ids d;
  im_rows : rows_stay existing d;
}.

Lemma one_with_id (t : list SeasonEpisodeState.t) e i : StronglySorted Z.lt (SeasonEpisodeState.id <$> t) ->
  e ∈ t -> SeasonEpisodeState.id e = i -> matching (fun x => (SeasonEpisodeState.id x =? i)%Z) t = 1%Z.
Proof.
  intros Hs He <-. unfold matching.
  pose proof (filter_key SeasonEpisodeState.id t (SeasonEpisodeState.id e) (fun _ => true) Hs) as Hf.
  rewrite (List.filter_ext _ (fun x => (SeasonEpisodeState.id x =? SeasonEpisodeState.id e)%Z)) in Hf
    by (intros; apply andb_true_r).
  rewrite Hf. destruct (List.find _ t) as [r|] eqn:Hr; [done|].
  apply list_elem_of_In in He. eapply List.find_none in Hr; [|exact He]. simpl in Hr. lia.
Qed.

(** What a statement that changes one row, and no key, does. *)
Lemma update_one_episode d i values : wf_tracked d ->
  (exists e, e ∈ episode_states d /\ SeasonEpisodeState.id e = i) ->
  (forall o, SeasonEpisodeState.set_grabbed_download_id o ∈ values -> refers o (download_ids d) = true) ->
  update_episodes (fun x => (SeasonEpisodeState.id x =? i)%Z) values d
  = (Ok 1%Z, with_episodes (rewritten (fun x => (SeasonEpisodeState.id x =? i)%Z)
               (SeasonEpisodeState.assign_all values) (episode_states d)) d).
Proof.
  intros Hw (e & He & Hi) Hv. unfold update_episodes, checked.
  rewrite (one_with_id _ e) by first [done | apply (wf_episode_ids d Hw)].
  assert (episodes_ok d (rewritten (fun x => (SeasonEpisodeState.id x =? i)%Z) (SeasonEpisodeState.assign_all values)
            (episode_states d)) = true) as ->; [|done].
  pose proof (wf_episodes d Hw) as [H1 H2]%andb_prop. unfold episodes_ok. rewrite (rewritten_keeps episode_key), H1.
  - simpl. eapply forallb_rewritten; [|exact H2]. clear -Hv. revert Hv.
    induction values as [|v l IH]; intros Hv x Hx; [done|].
    change (SeasonEpisodeState.assign_all (v :: l) x)
      with (SeasonEpisodeState.assign_all l (SeasonEpisodeState.assign x v)).
    apply IH; [intros o Ho; apply Hv; by right|]. apply andb_prop in Hx as [Hx1 Hx2].
    destruct v, x; simpl in *; rewrite ?Hx1, ?Hx2; try done. apply Hv. left.
  - intros x. apply episode_assign.
Qed.

Lemma importing_update s g existing d i values : importing s g existing d -> forallb harmless values = true ->
  (exists e, e ∈ episode_states d /\ SeasonEpisodeState.id e = i) ->
  (forall o, SeasonEpisodeState.set_grabbed_download_id o ∈ values -> o = Some g) ->
  exists d', update_episodes (fun x => (SeasonEpisodeState.id x =? i)%Z) values d = (Ok 1%Z, d') /\
    importing s g existing d' /\
    forall e, e ∈ episode_states d -> SeasonEpisodeState.id e = i ->
      SeasonEpisodeState.assign_all values e ∈ episode_states d'.
Proof.
  intros [Hw Hs Hg Hr] Hv He Ho.
  rewrite update_one_episode; [|done|done|intros o H; apply Ho in H as ->; by apply mem_true].
  eexists. split; [reflexivity|]. split; [split; try done|].
  - pose proof (tracked_update_episodes (fun x => (SeasonEpisodeState.id x =? i)%Z) values d Hw) as H.
    rewrite update_one_episode in H; [done..|]. intros o Ho'. apply Ho in Ho' as ->. by apply mem_true.
  - intros row Hrow. destruct (Hr row Hrow) as (e & Hin & Hid & Hk & Hst).
    exists (if (SeasonEpisodeState.id e =? i)%Z then SeasonEpisodeState.assign_all values e else e).
    destruct (episode_assign values e) as [E1 E2]. split.
    + simpl. unfold rewritten. apply list_elem_of_fmap. eauto.
    + destruct (SeasonEpisodeState.id e =? i)%Z; [|done]. rewrite E1, E2. split; [done|]. split; [done|].
      intros H. apply harmless_imported; auto.
  - intros e Hin Hid. simpl. unfold rewritten. apply list_elem_of_fmap. exists e. split; [|done].
    by replace (SeasonEpisodeState.id e =? i)%Z with true by lia.
Qed.

(** The columns that change, and the row they leave. *)
Definition changed (row : SeasonEpisodeState.t) (values : list SeasonEpisodeState.column_value) :=
  List.filter (fun v => negb (bool_decide (SeasonEpisodeState.assign row v = row))) values.

Lemma changed_imported row g e : (SeasonEpisodeState.status row = EpisodeState.imported ->
    SeasonEpisodeState.status e = EpisodeState.imported) ->
  SeasonEpisodeState.status (SeasonEpisodeState.assign_all (changed row (imported_by g)) e) = EpisodeState.imported.
Proof.
  intros Hi. unfold changed, imported_by. simpl.
  destruct (bool_decide (SeasonEpisodeState.assign row (SeasonEpisodeState.set_status EpisodeState.imported) = row)) eqn:Hs;
    destruct (bool_decide (SeasonEpisodeState.assign row (SeasonEpisodeState.set_grabbed_download_id (Some g)) = row));
    simpl; try (by destruct e); apply bool_decide_eq_true in Hs;
    assert (SeasonEpisodeState.status row = EpisodeState.imported) as Hrow by (rewrite <- Hs; by destruct row);
    specialize (Hi Hrow); by destruct e.
Qed.

Lemma assign_imported s g existing d row m : importing s g existing d ->
  (exists e, e ∈ episode_states d /\ SeasonEpisodeState.id e = SeasonEpisodeState.id row /\ episode_key e = (s, m) /\
     (SeasonEpisodeState.status row = EpisodeState.imported -> SeasonEpisodeState.status e = EpisodeState.imported)) ->
  exists d', assign_row row (imported_by g) d = (Ok tt, d') /\ importing s g existing d' /\ imported_in s m d'.
Proof.
  intros Hd (e & He & Hid & Hk & Hst). unfold assign_row. fold (changed row (imported_by g)).
  pose proof (changed_imported row g e Hst) as Hc.
  destruct (changed row (imported_by g)) as [|v l] eqn:Hch.
  { exists d. split; [done|]. split; [done|]. by exists e. }
  rewrite <- Hch in *. clear v l Hch.
  destruct (importing_update s g existing d (SeasonEpisodeState.id row) (changed row (imported_by g)) Hd)
    as (d' & Hu & Hd' & Hin); [by apply forallb_filtered|eauto| |].
  { intros o Ho. unfold changed in Ho. apply list_elem_of_In, List.filter_In in Ho as [Ho _].
    by destruct Ho as [?|[[= ->]|[]]]. }
  exists d'. unfold mbind, DBM_bind. rewrite Hu. simpl. split; [done|]. split; [done|].
  exists (SeasonEpisodeState.assign_all (changed row (imported_by g)) e). split; [by apply Hin|].
  split; [|done]. by rewrite (proj2 (episode_assign _ e)).
Qed.

(** A row that is refused is there already. *)
Lemma insert_imported s g existing d m : importing s g existing d ->
  let row := new_row s m EpisodeState.imported None (Some g) in
  (exists d', _insert_or_reread row d = (Ok true, d') /\ importing s g existing d' /\ imported_in s m d') \/
  (_insert_or_reread row d = (Ok false, d) /\ (s, m) ∈ episode_key <$> episode_states d).
Proof.
  intros [Hw Hs Hg Hr]. cbv zeta.
  pose proof (tracked_insert_episode (new_row s m EpisodeState.imported None (Some g)) (fun _ => eq_refl) d Hw) as Hw'.
  unfold _insert_or_reread, except, savepoint, mbind, DBM_bind, insert_episode, checked in *.
  destruct (episodes_ok _ _) eqn:Hok.
  - left. eexists. split; [reflexivity|]. split; [split; try done|].
    + intros row Hrow. destruct (Hr row Hrow) as (e & He & H). exists e. split; [|done].
      simpl. apply elem_of_app. by left.
    + eexists. split; [simpl; apply elem_of_app; right; by left|done].
  - right. split; [done|]. unfold episodes_ok in Hok.
    pose proof (wf_episodes d Hw) as [H1 H2]%andb_prop. apply bool_decide_eq_true in H1.
    rewrite forallb_app, H2 in Hok. simpl in Hok.
    assert (mem s (season_ids d) = true) as E1 by (by apply mem_true).
    assert (mem g (download_ids d) = true) as E2 by (by apply mem_true).
    rewrite E1, E2, andb_true_r in Hok. apply bool_decide_eq_false in Hok. rewrite fmap_app in Hok. simpl in Hok.
    destruct (decide ((s, m) ∈ episode_key <$> episode_states d)) as [|Hn]; [done|]. exfalso. apply Hok.
    apply NoDup_app. split; [done|]. split; [|apply NoDup_singleton].
    intros k Hk ->%list_elem_of_singleton. done.
Qed.

Lemma import_one_spec s g existing d m : importing s g existing d ->
  (forall row, row ∈ existing -> SeasonEpisodeState.season_request_id row = s) ->
  exists d', import_one s g existing m d = (Ok tt, d') /\ importing s g existing d' /\ imported_in s m d'.
Proof.
  intros Hd Hs. unfold import_one. destruct (existing_row existing m) as [row|] eqn:Hf.
  - apply existing_row_Some in Hf as [Hin Hn]. apply assign_imported; [done|].
    destruct (im_rows _ _ _ _ Hd row Hin) as (e & He & Hid & Hk & Hst). exists e. split_and!; try done.
    rewrite Hk. unfold episode_key. by rewrite (Hs row Hin), Hn.
  - unfold mbind, DBM_bind. destruct (insert_imported s g existing d m Hd) as [(d' & -> & H)|[-> Hin]]; [eauto|].
    unfold _reread_one, query. apply list_elem_of_fmap in Hin as (e & Hk & He).
    destruct (existing_row (season_rows d s) m) as [row|] eqn:Hr.
    + apply existing_row_Some in Hr as [[Hrow Hrs]%season_rows_in Hn]. apply assign_imported; [done|].
      exists row. split_and!; try done. unfold episode_key. by rewrite Hrs, Hn.
    + exfalso. unfold existing_row in Hr. injection Hk as Hk1 Hk2.
      assert (In e (season_rows d s)) as Hin by (by apply list_elem_of_In, season_rows_in).
      eapply List.find_none in Hr; [|exact Hin]. unfold is_episode in Hr. lia.
Qed.

Lemma import_each_spec s g existing l d : importing s g existing d ->
  (forall row, row ∈ existing -> SeasonEpisodeState.season_request_id row = s) ->
  exists d', import_each s g existing l d = (Ok tt, d') /\ importing s g existing d' /\
    forall m, m ∈ l -> imported_in s m d'.
Proof.
  intros Hd Hs. revert d Hd. induction l as [|m l IH]; intros d Hd.
  - exists d. split; [done|]. split; [done|]. by intros m Hm%elem_of_nil.
  - destruct (import_one_spec s g existing d m Hd Hs) as (d1 & H1 & Hd1 & Hm).
    destruct (IH d1 Hd1) as (d2 & H2 & Hd2 & Hl). exists d2. simpl. unfold mbind at 1, DBM_bind at 1.
    rewrite H1. split; [done|]. split; [done|]. intros k [->|Hk]%elem_of_cons; [|by apply Hl].
    assert (keeps (imported_in s m) (import_each s g existing l)) as Hkeep; [|by specialize (Hkeep d1 Hm); rewrite H2 in Hkeep].
    apply imported_import_each.
Qed.


(** *** A grab does not *)

Lemma unique_episode d e f : wf_tracked d -> e ∈ episode_states d -> f ∈ episode_states d ->
  episode_key e = episode_key f -> e = f.
Proof.
  intros Hw He Hf. pose proof (wf_episodes d Hw) as [H _]%andb_prop. apply bool_decide_eq_true in H.
  by apply (NoDup_fmap_inj episode_key (episode_states d)).
Qed.

(** The guard against taking an imported episode back reads the row as it was:
    an import committed since then is overwritten. *)
Lemma grab_overwrites_a_concurrent_import meanwhile s n g d e e' : let d1 := meanwhile d in
  wf_tracked d -> wf_tracked d1 -> g ∈ download_ids d1 ->
  e ∈ season_rows d s -> SeasonEpisodeState.episode_number e = n ->
  SeasonEpisodeState.status e = EpisodeState.pending ->
  e' ∈ episode_states d1 -> SeasonEpisodeState.id e' = SeasonEpisodeState.id e -> episode_key e' = episode_key e ->
  SeasonEpisodeState.status e' = EpisodeState.imported ->
  exists d', mark_grabbed meanwhile s [n] g d = (Ok tt, d') /\ ~ imported_in s n d'.
Proof.
  intros d1 Hw Hw1 Hg He Hn Hst He' Hid Hk Hi.
  assert (existing_row (season_rows d s) n = Some e) as Hf.
  { unfold existing_row. destruct (List.find _ _) as [f|] eqn:Hf.
    - apply existing_row_Some in Hf as [[Hf Hfs]%season_rows_in Hfn]. apply season_rows_in in He as [He Hes].
      f_equal. apply (unique_episode d); try done. unfold episode_key. by rewrite Hfs, Hfn, Hes, Hn.
    - exfalso. assert (In e (season_rows d s)) as Hin by (by apply list_elem_of_In).
      eapply List.find_none in Hf; [|exact Hin]. unfold is_episode in Hf. lia. }
  set (values := [SeasonEpisodeState.set_status EpisodeState.grabbed;
                  SeasonEpisodeState.set_grabbed_download_id (Some g)]).
  assert (exists l, changed e values = SeasonEpisodeState.set_status EpisodeState.grabbed :: l /\
            forall v, v ∈ l -> v = SeasonEpisodeState.set_grabbed_download_id (Some g)) as (l & Hch & Hl).
  { unfold changed, values. simpl. rewrite bool_decide_false by (destruct e; simpl in *; congruence). simpl.
    eexists. split; [reflexivity|]. intros v. destruct (negb _); [|by intros ?%elem_of_nil].
    by intros ->%list_elem_of_singleton. }
  assert (update_episodes (fun x => (SeasonEpisodeState.id x =? SeasonEpisodeState.id e)%Z) (changed e values) d1
          = (Ok 1%Z, with_episodes (rewritten (fun x => (SeasonEpisodeState.id x =? SeasonEpisodeState.id e)%Z)
               (SeasonEpisodeState.assign_all (changed e values)) (episode_states d1)) d1)) as Hu.
  { apply update_one_episode; [done|eauto|]. rewrite Hch. intros o [?|Ho]%elem_of_cons; [done|].
    apply Hl in Ho as [= ->]. by apply mem_true. }
  eexists. unfold mark_grabbed, _existing_by_episode, interrupted, mbind, DBM_bind, query. simpl. rewrite Hf.
  assert (has_state EpisodeState.imported e = false) as -> by (unfold has_state; by rewrite Hst). simpl.
  unfold assign_row. fold values. fold (changed e values). fold d1. rewrite Hch. unfold mbind, DBM_bind.
  rewrite <- Hch, Hu. split; [reflexivity|]. intros (f & Hin & Hfk & Hfi).
  cbn [episode_states with_episodes] in Hin. unfold rewritten in Hin.
  apply list_elem_of_fmap in Hin as (f' & -> & Hf').
  assert (episode_key f' = (s, n)) as Hk'.
  { destruct (_ =? _)%Z; [|done]. by rewrite (proj2 (episode_assign _ f')) in Hfk. }
  apply season_rows_in in He as [_ Hes].
  assert (f' = e') as ->.
  { apply (unique_episode d1); try done. rewrite Hk, Hk'. unfold episode_key. by rewrite Hes, Hn. }
  rewrite Hid, Z.eqb_refl, Hch in Hfi.
  change (SeasonEpisodeState.assign_all (SeasonEpisodeState.set_status EpisodeState.grabbed :: l) e')
    with (SeasonEpisodeState.assign_all l (SeasonEpisodeState.assign e' (SeasonEpisodeState.set_status EpisodeState.grabbed)))
    in Hfi.
  assert (SeasonEpisodeState.status (SeasonEpisodeState.assign e' (SeasonEpisodeState.set_status EpisodeState.grabbed))
          <> EpisodeState.imported) as Hne by (by destruct e').
  clear -Hl Hfi Hne. revert Hfi Hne. generalize (SeasonEpisodeState.assign e' (SeasonEpisodeState.set_status EpisodeState.grabbed)).
  induction l as [|v l IH]; intros x Hx Hne; [by apply Hne|].
  rewrite (Hl v) in Hx by left. apply (IH (fun w Hw => Hl w (list_elem_of_further w v l Hw)) _ Hx). by destruct x.
Qed.

(** ** The airing refresh *)

Import EpisodeService.

Lemma ensure_keeps_episodes T m n st er : keeps (fun d => episode_states d = T) (SeasonRepository.ensure m n st er).
Proof. apply keeps_ensure. intros row _ d Hd. unfold insert_season. by destruct (_ && _). Qed.

Lemma not_subset_witness (X Y : gset Z) : ~ X ⊆ Y -> exists n, n ∈ X /\ n ∉ Y.
Proof.
  intros H. destruct (set_choose_or_empty (X ∖ Y)) as [[n Hn]|Hn]; [exists n; set_solver|].
  exfalso. apply H. intros n Hx. destruct (decide (n ∈ Y)); set_solver.
Qed.

Section airing.
Context {DB : UnicodeDB} (meanwhile : db -> db)
        (metadata : Z -> Z -> res (list (Z * option Z))) (parse : list N -> ParsedRelease).

Lemma imported_of_iff d i n :
  n ∈ imported_of (py_sort (key_lt SeasonEpisodeState.episode_number) (season_rows d i)) <-> imported_in i n d.
Proof.
  unfold imported_of. rewrite elem_of_list_to_set, list_elem_of_fmap. split.
  - intros (e & -> & [He Hs]%list_elem_of_In%List.filter_In). apply list_elem_of_In, elem_of_py_sort, season_rows_in in He.
    apply bool_decide_eq_true in Hs. exists e. split; [apply He|]. split; [|done].
    unfold episode_key. by destruct He as [_ ->].
  - intros (e & He & [= Hi Hn] & Hs). exists e. split; [done|]. apply list_elem_of_In, List.filter_In.
    split; [apply list_elem_of_In, elem_of_py_sort, season_rows_in; done|]. by apply bool_decide_eq_true.
Qed.

(** The catalogue answered, and what it says is the target. *)
Lemma refreshed_spec m n t today d target d1 :
  refreshed meanwhile metadata m n t today d = (Ok (Some target), d1) ->
  (exists l, metadata t n = Ok l /\ target = SeasonPack.aired_target (dict_of l) today) /\
  forall i k, (forall d, imported_in i k d -> imported_in i k (meanwhile d)) -> imported_in i k d -> imported_in i k d1.
Proof.
  unfold refreshed. set (m0 := (x ← refresh_target meanwhile metadata m n t today; mret (Some x)) : DBM (option (gset Z))).
  intros H. assert (m0 d = (Ok (Some target), d1)) as Hr.
  { revert H. unfold except. destruct (m0 d) as [[x|e] d2]; [done|].
    destruct (is_error "TmdbAuthError" e); [done|]. by destruct (is_error "TmdbApiError" e). }
  clear H. unfold m0 in Hr. apply bind_result in Hr as (x & d2 & Hr & [= -> ->]). unfold refresh_target in Hr.
  apply bind_result in Hr as (season & d2 & Hs & Hr). unfold lift_res at 1 in Hr.
  apply bind_result in Hr as (l & d3 & [= Hl <-] & Hr). apply bind_result in Hr as ([] & d3 & Hu & [= <- <-]).
  split; [by exists l|]. intros i k Hm Hd.
  eapply keeps_result; [apply imported_upsert, Hm| |exact Hu].
  pose proof (ensure_keeps_episodes (episode_states d) m n RequestStore.pending false d eq_refl) as Hes.
  rewrite Hs in Hes. destruct Hd as (e & He & Hk). exists e. simpl in Hes. by rewrite Hes.
Qed.

Lemma adopt_from_pack_spec s target imported states d out d' :
  adopt_from_pack meanwhile parse s target imported states d = (Ok out, d') -> imported ⊆ out /\
  forall n, n ∈ out -> n ∉ imported -> n ∈ target /\ exists e a title added candidates,
    e ∈ states /\ SeasonEpisodeState.episode_number e = n /\
    SeasonEpisodeState.status e = EpisodeState.pending /\ SeasonEpisodeState.air_date e = Some a /\
    DownloadRepository.imported_unscoped_pack_candidates (SeasonRequest.media_request_id s)
      (SeasonRequest.season_number s) d = (Ok candidates, d) /\
    (Some title, added) ∈ candidates /\
    SeasonPack.classify_release_scope (parse title) ∈ [SeasonPack.season_pack; SeasonPack.multi_season_pack] /\
    (a < date_of added)%Z.
Proof.
  unfold adopt_from_pack. intros H. apply bind_result in H as (added & d1 & Ha & H).
  unfold pack_added_at in Ha. apply bind_result in Ha as (candidates & d2 & Hc & [= <- <-]).
  unfold DownloadRepository.imported_unscoped_pack_candidates, query in Hc. injection Hc as <- <-.
  set (times := omap _ _) in H.
  assert (forall t, match times with [] => None | t :: l => Some (foldl Z.max t l) end = Some t -> t ∈ times) as Hmax.
  { destruct times as [|t0 l]; [done|]. intros t [= <-]. clear.
    revert t0. induction l as [|x l IH]; intros t0; simpl; [left|].
    destruct (Z.max_spec t0 x) as [[_ ->]|[_ ->]]; [right; apply IH|].
    specialize (IH t0). apply elem_of_cons in IH as [->|IH]; [by left|by do 2 right]. }
  destruct (match times with [] => None | _ => _ end) as [t|] eqn:Ht; [|injection H as <- <-; set_solver].
  specialize (Hmax t eq_refl). destruct (adoptable target (date_of t) states) as [|k l] eqn:Hl;
    [injection H as <- <-; set_solver|].
  apply bind_result in H as ([] & d3 & _ & [= <- _]). split; [set_solver|]. intros n Hn Hni.
  assert (n ∈ k :: l) as Hin by set_solver. rewrite <- Hl in Hin. clear Hl Hn Hni k l.
  unfold adoptable in Hin. apply list_elem_of_fmap in Hin as (e & -> & He).
  apply list_elem_of_In, List.filter_In in He as [He [[Hs Hg]%andb_prop Hd]%andb_prop].
  apply list_elem_of_In in He. apply bool_decide_eq_true in Hs, Hg. split; [done|].
  destruct (SeasonEpisodeState.air_date e) as [a|] eqn:Hair; [|done].
  apply list_elem_of_omap in Hmax as ([[title|] added] & Hin & Hcl); [|done]. simpl in Hcl.
  exists e, a, title, added. eexists. split_and!; try done.
  - by destruct (SeasonPack.classify_release_scope (parse title)); try done; set_solver.
  - destruct (SeasonPack.classify_release_scope (parse title)); try done; injection Hcl as ->; lia.
Qed.

Lemma rearmed_season s t now d d' :
  (forall n d, imported_in (SeasonRequest.id s) n d -> imported_in (SeasonRequest.id s) n (meanwhile d)) ->
  reconcile_whole meanwhile metadata parse s t now d = (Ok true, d') ->
  season_rows d (SeasonRequest.id s) <> [] /\
  exists l n, metadata t (SeasonRequest.season_number s) = Ok l /\
    n ∈ SeasonPack.aired_target (dict_of l) (date_of now) /\ ~ imported_in (SeasonRequest.id s) n d.
Proof.
  intros Hm H. unfold reconcile_whole in H. apply bind_result in H as (before & d0 & Hb & H).
  injection Hb as <- <-. apply bind_result in H as (o & d1 & Hr & H). destruct o as [target|]; [|done].
  apply refreshed_spec in Hr as [(l & Hl & Ht) Hkept].
  assert (forall n, n ∈ target -> ~ imported_in (SeasonRequest.id s) n d1 ->
    exists l n, metadata t (SeasonRequest.season_number s) = Ok l /\
      n ∈ SeasonPack.aired_target (dict_of l) (date_of now) /\ ~ imported_in (SeasonRequest.id s) n d) as Hgrew.
  { intros n Hn Hi. exists l, n. rewrite <- Ht. split_and!; try done. intros Hd. apply Hi, Hkept; auto. }
  cbv zeta in H. destruct (negb (negb _) && _) eqn:Hown.
  { apply bind_result in H as ([] & d2 & _ & H). done. }
  apply bind_result in H as (states & d2 & Hs & H). injection Hs as <- <-.
  destruct (bool_decide (target ⊆ _)) eqn:Hsub; [done|]. apply bool_decide_eq_false in Hsub.
  split.
  - intros Hnil. rewrite Hnil in Hown. unfold py_sort in Hown. simpl in Hown.
    apply negb_false_iff, bool_decide_eq_true in Hown. set_solver.
  - apply not_subset_witness in Hsub as (n & Hn & Hi). apply (Hgrew n Hn). by rewrite <- imported_of_iff.
Qed.


End airing.

(** ** A season *)

#[local] Existing Instance ascii_db.
Import DownloadFacts.

(** The show's first season is available; two of its episodes have aired and the
    first is imported. *)
Definition aired_two (d : db) : db := run (upsert_target id 1 [(1, Some 100); (2, Some 107)]%Z) d.
Definition episodes_1 : db := aired_two sample_tables.
Definition episodes_2 : db := run (mark_imported id 1 [1%Z] 1) episodes_1.
Definition episodes_3 : db := run (SeasonRepository.set_status 1 available 50) episodes_2.

Lemma episodes_1_wf : wf_tracked episodes_1.
Proof. apply (kept_upsert_target wf_tracked id); [done | apply sample_wf_tracked]. Qed.

Lemma episodes_2_wf : wf_tracked episodes_2.
Proof. apply (kept_mark_imported wf_tracked id); [done | apply episodes_1_wf]. Qed.

Lemma first_is_imported : imported_in 1 1 episodes_2.
Proof.
  exists (SeasonEpisodeState.Build_t 1 1 1 EpisodeState.imported (Some 100%Z) (Some 1%Z)).
  split; [vm_compute; left|]. by vm_compute.
Qed.



Definition available_season : SeasonRequest.t :=
  default (SeasonRequest.Build_t 0 0 0 RequestStore.pending None None 0 None None None None None None None)
    (List.find (SeasonRepository.has_id 1) (season_requests episodes_3)).

Definition no_parse (title : list N) : ParsedRelease := {|
  pr_raw_title := title; pr_clean_title := title; pr_year := None; pr_season := NoNumber; pr_episode := NoNumber;
  pr_source := Quality.SRC_UNKNOWN; pr_resolution := Quality.RES_UNKNOWN; pr_modifier := Quality.MOD_NONE;
  pr_revision := {| rv_version := 1; rv_is_repack := false; rv_real := 0 |}; pr_release_group := None;
  pr_languages := []; pr_edition := None; pr_hardcoded_subs := None |}.

Definition catalogue (tmdb_id season : Z) : res (list (Z * option Z)) := Ok [(1, Some 100); (2, Some 107); (3, None)]%Z.

