(* ===== verification/Sessions.v ===== *)
(** * Sessions

    A service reads and writes the tables through a session whose transaction
    ends with a commit or a rollback, while other processes commit to the same
    tables and answer its calls.  A session is the tables as it sees them and,
    from its first write until it commits or rolls back, the tables a rollback
    restores.

    The database is SQLite: the first write of a transaction takes the one write
    lock, so that nothing is committed by others until the transaction ends;
    before it, every statement may find what others have committed meanwhile.
    Both the commits of others and the answers from outside are functions of the
    number of statements and calls made before: every theorem holds for all of
    them. *)

From Stdlib Require Import ZArith Lia Bool String.
From S2P Require Import Prelude PyStr Transactions.

#[local] Open Scope bool_scope.

Record session (DB Ev : Type) := {
  tables : DB;
  saved : option DB;      (** the tables before the first write of the open transaction *)
  moment : nat;           (** the statements and outside calls made so far *)
  trail : list Ev;        (** what the service did outside the tables, the last first *)
}.
Arguments Build_session {DB Ev} _ _ _ _.
Arguments tables {DB Ev} _.
Arguments saved {DB Ev} _.
Arguments moment {DB Ev} _.
Arguments trail {DB Ev} _.

(** What is stored if the process stops here. *)
Definition committed {DB Ev} (s : session DB Ev) : DB := default (tables s) (saved s).

(** The other processes, and the clock. *)
Class Others (DB : Type) := {
  others : nat -> DB -> DB;
  clock : nat -> Z;
}.

Section session.
Context {DB Ev : Type} {W : Others DB}.

Definition arrive (s : session DB Ev) : session DB Ev :=
  {| tables := match saved s with None => others (moment s) (tables s) | Some _ => tables s end;
     saved := saved s; moment := S (moment s); trail := trail s |}.

(** A query. *)
Definition reads {A} (m : Tx DB A) : Tx (session DB Ev) A := fun s =>
  let s := arrive s in ((m (tables s)).1, s).

(** Statements that write, with the clock. *)
Definition writes {A} (m : Z -> Tx DB A) : Tx (session DB Ev) A := fun s =>
  let now := clock (moment s) in
  let s := arrive s in
  let '(r, d) := m now (tables s) in
  (r, {| tables := d; saved := Some (committed s); moment := moment s; trail := trail s |}).

Definition commit : Tx (session DB Ev) unit := fun s =>
  (Ok tt, {| tables := tables s; saved := None; moment := moment s; trail := trail s |}).

Definition rollback : Tx (session DB Ev) unit := fun s =>
  (Ok tt, {| tables := committed s; saved := None; moment := moment s; trail := trail s |}).

(** A call that does not touch the tables. *)
Definition outside {A} (f : nat -> res A) : Tx (session DB Ev) A := fun s =>
  (f (moment s), {| tables := tables s; saved := saved s; moment := S (moment s); trail := trail s |}).

(** A call that changes something outside, recorded with its answer. *)
Definition calling {A} (f : nat -> res A) (ev : res A -> Ev) : Tx (session DB Ev) A := fun s =>
  let r := f (moment s) in
  (r, {| tables := tables s; saved := saved s; moment := S (moment s); trail := ev r :: trail s |}).

(** [try: m finally: last]; the exception of [last] replaces that of [m]. *)
Definition finally {A} (m : Tx (session DB Ev) A) (last : Tx (session DB Ev) unit) : Tx (session DB Ev) A := fun s =>
  let '(r, s1) := m s in
  match last s1 with
  | (Ok _, s2) => (r, s2)
  | (Raise e, s2) => (Raise e, s2)
  end.

(** [try: m except cls1, cls2, ...: handler], for any of the classes. *)
Definition try_except {A} (caught : exn -> bool) (m : Tx (session DB Ev) A) (handler : exn -> Tx (session DB Ev) A) : Tx (session DB Ev) A := fun s =>
  match m s with
  | (Raise e, s') => if caught e then handler e s' else (Raise e, s')
  | r => r
  end.

(** ** What a session keeps *)

(** An assertion about the tables: also about those a rollback restores. *)
Definition always (P : DB -> Prop) (s : session DB Ev) : Prop := P (tables s) /\ P (committed s).

Class Tolerated (P : DB -> Prop) : Prop := tolerated n d : P d -> P (others n d).

Lemma arrive_always P `{!Tolerated P} s : always P s -> always P (arrive s).
Proof.
  destruct s as [d [d0|] n l]; unfold always, committed, arrive; simpl; [done|].
  intros [H _]. split; by apply tolerated.
Qed.

Lemma keeps_reads {A} P `{!Tolerated P} (m : Tx DB A) : keeps (always P) (reads m).
Proof. intros s Hs. simpl. by apply arrive_always. Qed.

Lemma keeps_writes {A} P `{!Tolerated P} (m : Z -> Tx DB A) :
  (forall now, keeps P (m now)) -> keeps (always P) (writes m).
Proof.
  intros Hm s Hs. apply (arrive_always P) in Hs as [Ht Hc]. unfold writes.
  specialize (Hm (clock (moment s)) _ Ht). destruct (m _ _) as [r d]. by split.
Qed.

Lemma keeps_commit P : keeps (always P) commit.
Proof. intros s [Ht _]. by split. Qed.
Lemma keeps_rollback P : keeps (always P) rollback.
Proof. intros s [_ Hc]. by split. Qed.
Lemma keeps_outside {A} P (f : nat -> res A) : keeps (always P) (outside f).
Proof. by intros s Hs. Qed.
Lemma keeps_calling {A} P (f : nat -> res A) ev : keeps (always P) (calling f ev).
Proof. by intros s Hs. Qed.
Lemma keeps_finally {A} (P : session DB Ev -> Prop) (m : Tx (session DB Ev) A) last :
  keeps P m -> keeps P last -> keeps P (finally m last).
Proof.
  intros Hm Hl s Hs. unfold finally. specialize (Hm s Hs). destruct (m s) as [r s1]. simpl in Hm.
  specialize (Hl s1 Hm). by destruct (last s1) as [[]].
Qed.
Lemma keeps_try {A} (P : session DB Ev -> Prop) caught (m : Tx (session DB Ev) A) h :
  keeps P m -> (forall e, keeps P (h e)) -> keeps P (try_except caught m h).
Proof.
  intros Hm Hh s Hs. unfold try_except. specialize (Hm s Hs).
  destruct (m s) as [[x|e] s'] eqn:He; [done|]. by destruct (caught e); [apply Hh|].
Qed.

Lemma try_result {A} caught (m : Tx (session DB Ev) A) h s x s' : try_except caught m h s = (Ok x, s') ->
  m s = (Ok x, s') \/ exists e s1, m s = (Raise e, s1) /\ caught e = true /\ h e s1 = (Ok x, s').
Proof.
  unfold try_except. destruct (m s) as [[y|e] s1]; [by left|]. destruct (caught e) eqn:Hc; [|done]. right. eauto.
Qed.

End session.

#[export] Hint Resolve keeps_reads keeps_writes keeps_commit keeps_rollback keeps_outside keeps_calling
  keeps_finally keeps_try : keeps.

(** An assertion about the tables as the session sees them: what was just read
    or written, and not yet committed. *)
Definition now_holds {DB Ev} (P : DB -> Prop) (s : session DB Ev) : Prop := P (tables s).

Section now.
Context {DB Ev : Type} {W : Others DB} (P : DB -> Prop) {HT : Tolerated P}.

Lemma now_arrive (s : session DB Ev) : now_holds P s -> now_holds P (arrive s).
Proof. destruct s as [d [d0|] n l]; unfold now_holds, arrive; simpl; [done | apply tolerated]. Qed.
Lemma now_reads {A} (m : Tx DB A) : keeps (now_holds (Ev := Ev) P) (reads m).
Proof. intros s Hs. by apply now_arrive. Qed.
Lemma now_writes {A} (m : Z -> Tx DB A) : (forall now, keeps P (m now)) -> keeps (now_holds (Ev := Ev) P) (writes m).
Proof.
  intros Hm s Hs. apply now_arrive in Hs. unfold writes, now_holds in *.
  specialize (Hm (clock (moment s)) _ Hs). by destruct (m _ _).
Qed.
Lemma now_commit (s : session DB Ev) x s' : now_holds P s -> commit s = (Ok x, s') -> always P s'.
Proof. intros H [= <- <-]. by split. Qed.
Lemma always_now (s : session DB Ev) : always P s -> now_holds P s.
Proof. by intros [H _]. Qed.
End now.

(** ** Triples

    From a state with [P], [m] returns in one where [Q] holds of its result, or
    raises in one where [E] holds of the exception. *)

Definition triple {S A} (P : S -> Prop) (m : Tx S A) (Q : A -> S -> Prop) (E : exn -> S -> Prop) : Prop :=
  forall s, P s -> match m s with (Ok x, s') => Q x s' | (Raise e, s') => E e s' end.

Section triple.
Context {S : Type}.

Lemma triple_ret {A} P (x : A) (Q : A -> S -> Prop) E : (forall s, P s -> Q x s) -> triple P (mret x) Q E.
Proof. intros H s Hs. by apply H. Qed.

Lemma triple_throw {A} P e (Q : A -> S -> Prop) (E : exn -> S -> Prop) :
  (forall s, P s -> E e s) -> triple P (db_throw e) Q E.
Proof. intros H s Hs. by apply H. Qed.

Lemma triple_bind {A B} P (m : Tx S A) (f : A -> Tx S B) R Q E :
  triple P m R E -> (forall x, triple (R x) (f x) Q E) -> triple P (m ≫= f) Q E.
Proof.
  intros Hm Hf s Hs. unfold mbind, DBM_bind. specialize (Hm s Hs).
  destruct (m s) as [[x|e] s']; [by apply Hf | done].
Qed.

Lemma triple_weaken {A} (P P' : S -> Prop) (m : Tx S A) (Q Q' : A -> S -> Prop) (E E' : exn -> S -> Prop) :
  triple P' m Q' E' -> (forall s, P s -> P' s) -> (forall x s, Q' x s -> Q x s) -> (forall e s, E' e s -> E e s) ->
  triple P m Q E.
Proof. intros H HP HQ HE s Hs. specialize (H s (HP s Hs)). destruct (m s) as [[]]; auto. Qed.

Lemma triple_keeps {A} P (m : Tx S A) (E : exn -> S -> Prop) :
  keeps P m -> (forall e s, P s -> E e s) -> triple P m (fun _ => P) E.
Proof. intros H HE s Hs. specialize (H s Hs). destruct (m s) as [[]]; simpl in *; auto. Qed.

Lemma keeps_triple {A} P (m : Tx S A) : triple P m (fun _ => P) (fun _ => P) -> keeps P m.
Proof. intros H s Hs. specialize (H s Hs). by destruct (m s) as [[]]. Qed.

Lemma triple_if {A} P (b : bool) (m m' : Tx S A) Q E : triple P m Q E -> triple P m' Q E -> triple P (if b then m else m') Q E.
Proof. by destruct b. Qed.

End triple.

Lemma triple_try {DB Ev A} P caught (m : Tx (session DB Ev) A) h Q E E' :
  triple P m Q E' -> (forall e s, E' e s -> caught e = false -> E e s) ->
  (forall e, caught e = true -> triple (E' e) (h e) Q E) -> triple P (try_except caught m h) Q E.
Proof.
  intros Hm He Hh s Hs. unfold try_except. specialize (Hm s Hs). destruct (m s) as [[x|e] s']; [done|].
  destruct (caught e) eqn:Hc; [by apply Hh | by apply He].
Qed.

Lemma triple_finally {DB Ev A} P (m : Tx (session DB Ev) A) last (Q : A -> session DB Ev -> Prop) E Q' E' :
  triple P m Q' E' -> (forall x, triple (Q' x) last (fun _ => Q x) E) ->
  (forall e, triple (E' e) last (fun _ => E e) E) -> triple P (finally m last) Q E.
Proof.
  intros Hm Hq He s Hs. unfold finally. specialize (Hm s Hs). destruct (m s) as [[x|e] s1].
  - specialize (Hq x s1 Hm). by destruct (last s1) as [[]].
  - specialize (He e s1 Hm). by destruct (last s1) as [[]].
Qed.

(** An assertion about what was done outside. *)
Definition done_so_far {DB Ev} (Q : list Ev -> Prop) (s : session DB Ev) : Prop := Q (trail s).

Section done_so_far.
Context {DB Ev : Type} {W : Others DB} (Q : list Ev -> Prop).

Lemma done_reads {A} (m : Tx DB A) : keeps (done_so_far Q) (reads m).
Proof. intros s Hs. exact Hs. Qed.
Lemma done_writes {A} (m : Z -> Tx DB A) : keeps (done_so_far Q) (writes m).
Proof. intros s Hs. unfold writes, done_so_far in *. by destruct (m _ _). Qed.
Lemma done_commit : keeps (done_so_far (DB := DB) Q) commit.
Proof. intros s Hs. exact Hs. Qed.
Lemma done_rollback : keeps (done_so_far (DB := DB) Q) rollback.
Proof. intros s Hs. exact Hs. Qed.
Lemma done_outside {A} (f : nat -> res A) : keeps (done_so_far (DB := DB) Q) (outside f).
Proof. intros s Hs. exact Hs. Qed.

End done_so_far.

#[export] Hint Resolve done_reads done_writes done_commit done_rollback done_outside : keeps.
