(* ===== verification/RequestService.v ===== *)
(** * The creation of requests ([services/request_service.py])

    A request for a title either joins the active request for it, or the one
    whose media are in the library, or becomes a new row; whoever asks is
    subscribed to the row that results.  The service's transactions are those of
    [Sessions]; TMDB and Plex answer what the arguments say, the [n]-th time they
    are asked.

    [acquire_media_lock] writes one row of a table nothing else reads: what it
    does is take the write lock.  Log records are not kept. *)

From Stdlib Require Import ZArith Lia Bool String.
From S2P Require Import Prelude PyStr PyInt RequestStore RequestRepository Sessions.
From S2P Require SeasonRepository SeasonService.

#[local] Open Scope bool_scope.

Abbreviation Session := (Tx (session db Empty_set)).

Definition TERMINAL_REQUEST_STATUS_VALUES : list RequestStatus :=
  [completed; available; failed; evicted; cancelled].
Definition _PARKABLE_REQUEST_STATUS_VALUES : list RequestStatus :=
  [pending; searching; no_acceptable_release].
Definition SETTLED_REQUEST_STATUS_VALUES : list RequestStatus :=
  [available; failed; evicted; cancelled].
Definition _MAX_DEDUP_JOIN_ATTEMPTS : nat := 3.

(** The numbers of the message ([MediaNotFoundError], [MediaTypeDeferredError]). *)
Definition MediaNotFoundError {DB : UnicodeDB} (tmdb_id : Z) (media_type : list N) : exn :=
  ProgramError "MediaNotFoundError" (media_type ++ lit " tmdb_id=" ++ str_of_int tmdb_id ++ lit " not found").
Definition MediaTypeDeferredError (media_type : list N) : exn :=
  ProgramError "MediaTypeDeferredError" (media_type ++ lit " requests are deferred").

(** What the service reads of [MovieMetadata] and [TvMetadata]. *)
Record _Detail := {
  d_title : list N;
  d_year : option Z;
  d_is_anime : bool;
  d_poster_url : option (list N);
  d_backdrop_url : option (list N);
  season_count : Z;
}.

Record CreateRequestResult := { record : MediaRequest.t; created : bool }.

Record _TvSeasonPlan := {
  season_numbers : list Z;
  waiting_seasons : list Z;
  p_episode_scoped : bool;
}.

(** ** What a television request asks for *)

Definition _season_numbers (seasons : option (list Z)) (season_count : Z) : list Z :=
  match seasons with
  | Some ((_ :: _) as l) => l
  | _ => SeasonService.first_seasons season_count
  end.

Definition intent : Type := list N * option (list Z) * option (list (Z * list Z)).

Definition _tv_request_intent (seasons : option (list Z)) (episodes : option (list (Z * list Z))) : intent :=
  match episodes with
  | Some ((_ :: _) as m) =>
      (lit "explicit_episodes", Some (sorted_set m.*1), Some ((fun '(season, values) => (season, sorted_set values)) <$> m))
  | _ =>
      match seasons with
      | Some ((_ :: _) as l) => (lit "explicit_seasons", Some (sorted_set l), None)
      | _ => (lit "whole_show", None, None)
      end
  end.

(** [merged_episodes], a dict of sets: the sets are sorted lists, the order of
    the keys is not kept. *)
Definition add_episodes (merged_requested : list Z) (merged_episodes : gmap Z (list Z))
    (season : Z) (values : list Z) : list Z * gmap Z (list Z) :=
  if mem season merged_requested && is_null (merged_episodes !! season) then (merged_requested, merged_episodes)
  else (season :: merged_requested,
        <[season := sorted_set (default [] (merged_episodes !! season) ++ values)]> merged_episodes).

Definition merged_intent (merged_requested : list Z) (merged_episodes : gmap Z (list Z)) : intent :=
  if bool_decide (merged_episodes = ∅) then (lit "explicit_seasons", Some (sorted_set merged_requested), None)
  else (lit "explicit_episodes", Some (sorted_set merged_requested), Some (map_to_list merged_episodes)).

Definition merge_intent (requested_seasons : option (list Z)) (requested_episodes : option (gmap Z (list Z)))
    (incoming : intent) : intent :=
  let own_episodes := default ∅ requested_episodes in
  let merged_requested := default [] requested_seasons ++ (map_to_list own_episodes).*1 in
  let '(incoming_mode, incoming_requested, incoming_episodes) := incoming in
  if bool_decide (incoming_mode = lit "explicit_episodes") then
    let '(merged_requested, merged_episodes) :=
      foldl (fun acc sv => add_episodes acc.1 acc.2 sv.1 sv.2) (merged_requested, sorted_set <$> own_episodes)
            (default [] incoming_episodes) in
    merged_intent merged_requested merged_episodes
  else if bool_decide (incoming_mode = lit "whole_show") then (lit "whole_show", None, None)
  else
    let incoming_requested := default [] incoming_requested in
    merged_intent (merged_requested ++ incoming_requested)
      (foldl (fun m season => base.delete season m) (sorted_set <$> own_episodes) incoming_requested).

Definition is_whole_show (r : MediaRequest.t) : bool :=
  bool_decide (tv_request_mode (MediaRequest.details r) = Some (lit "whole_show")).

Section intents.
Context {DB : UnicodeDB}.

Definition _merge_tv_request_intent (record : MediaRequest.t) (seasons : option (list Z))
    (episodes : option (list (Z * list Z))) : DBM unit :=
  requested_episodes ← lift_res (_episode_map (requested_episodes_json (MediaRequest.details record)));
  if is_whole_show record then mret tt
  else
    let requested_seasons := _season_tuple (requested_seasons_json (MediaRequest.details record)) in
    let '(mode, requested, wanted) :=
      merge_intent requested_seasons requested_episodes (_tv_request_intent seasons episodes) in
    set_tv_request_intent (MediaRequest.id record) mode requested wanted.

End intents.

(** ** Ownership *)

Definition _owned_by_another_user (record : MediaRequest.t) (user_id : option Z) (actor_is_admin : bool) : bool :=
  negb (is_null user_id) && negb actor_is_admin && negb (is_null (MediaRequest.user_id record))
  && negb (bool_decide (MediaRequest.user_id record = user_id)).

Definition _dedup_preference_user_id (user_id : option Z) (actor_is_admin : bool) : option Z :=
  if actor_is_admin then None else user_id.

Definition plex_failure (e : exn) : bool :=
  is_error "PlexLibraryError" e || is_error "PlexAuthError" e || is_error "NotImplementedError" e.

(** The metadata and the library, by how many statements and calls came before. *)
Record MetadataPort := {
  get_movie : nat -> Z -> res (option _Detail);
  get_tv_show : nat -> Z -> res (option _Detail);
}.

Record LibraryPort := {
  is_available : nat -> Z -> res bool;
  confirm_paths : nat -> list (list N) -> res (list (list N));
  present_seasons : nat -> Z -> res (list Z);
}.

Section service.
Context {DB : UnicodeDB} {W : Others db} (tmdb : MetadataPort) (library : option LibraryPort).

Definition _resolve_detail (tmdb_id : Z) (media_type : MediaType) : Session _Detail :=
  match media_type with
  | movie =>
      found ← outside (fun n => get_movie tmdb n tmdb_id);
      match found with
      | None => db_throw (MediaNotFoundError tmdb_id (lit "movie"))
      | Some m => mret {| d_title := d_title m; d_year := d_year m; d_is_anime := d_is_anime m;
                          d_poster_url := d_poster_url m; d_backdrop_url := d_backdrop_url m; season_count := 0 |}
      end
  | tv =>
      found ← outside (fun n => get_tv_show tmdb n tmdb_id);
      match found with
      | None => db_throw (MediaNotFoundError tmdb_id (lit "tv"))
      | Some show => mret show
      end
  end.

Definition _resolve_tv_season_plan (tmdb_id : Z) (seasons : option (list Z)) (episodes : option (list (Z * list Z)))
    (detail : option _Detail) (default_waiting_first_season : bool) : Session _TvSeasonPlan :=
  detail ← match detail with Some d => mret d | None => _resolve_detail tmdb_id tv end;
  let numbers := match episodes with
                 | Some ((_ :: _) as m) => sorted_set m.*1
                 | _ => _season_numbers seasons (season_count detail)
                 end in
  let given {A} (l : option (list A)) := match l with Some (_ :: _) => true | _ => false end in
  let '(numbers, waiting) :=
    if bool_decide (numbers = []) && default_waiting_first_season then ([1%Z], [1%Z])
    else if given seasons || given episodes
    then (numbers, List.filter (fun n => (season_count detail <? n)%Z) numbers)
    else (numbers, []) in
  mret {| season_numbers := numbers; waiting_seasons := waiting; p_episode_scoped := given episodes |}.

Fixpoint wait_for_air_dates (media_request_id now : Z) (seasons : list Z) : DBM unit :=
  match seasons with
  | [] => mret tt
  | n :: rest =>
      SeasonService.set_status media_request_id n waiting_for_air_date false now ;;
      wait_for_air_dates media_request_id now rest
  end.

(** [ensure_seasons] asks the library itself when it is not told what is
    present; the statements after that are taken as one step. *)
Definition _ensure_tv_season_plan (media_request_id tmdb_id : Z) (plan : _TvSeasonPlan)
    (present : option (list Z)) : Session unit := fun s =>
  let crawl := (fun port t => present_seasons port (moment s) t) <$> library in
  writes (fun now =>
    SeasonService.ensure_seasons crawl media_request_id tmdb_id (season_numbers plan)
      (p_episode_scoped plan) present now ;;
    wait_for_air_dates media_request_id now (sorted_set (waiting_seasons plan))) s.

Definition _already_in_library (port : LibraryPort) (tmdb_id : Z) : Session bool :=
  try_except plex_failure (outside (fun n => is_available port n tmdb_id)) (fun _ => mret false).

Definition _present_seasons_or_empty (port : LibraryPort) (tmdb_id : Z) : Session (list Z) :=
  try_except plex_failure (outside (fun n => present_seasons port n tmdb_id)) (fun _ => mret []).

Definition acquire_media_lock : Session unit := writes (fun _ => mret tt).

(** [await repo.get(record.id) or record]. *)
Definition get_or (request_id : Z) (record : MediaRequest.t) : Session MediaRequest.t :=
  fresh ← reads (get request_id); mret (default record fresh).

Definition subscribe (request_id user_id : Z) : Session unit :=
  writes (fun now => add_subscriber request_id user_id now).

Definition _subscribe_dedup_winner (record : MediaRequest.t) (user_id : option Z) : Session MediaRequest.t :=
  match user_id with
  | None => mret record
  | Some u =>
      subscribe (MediaRequest.id record) u ;;
      commit ;;
      get_or (MediaRequest.id record) record
  end.

Definition _subscribe_user (record : MediaRequest.t) (user_id : option Z) : Session MediaRequest.t :=
  match user_id with
  | None => mret record
  | Some u => subscribe (MediaRequest.id record) u ;; commit ;; mret record
  end.

Definition _grow_tv_dedup_join (record : MediaRequest.t) (tmdb_id : Z) (plan : _TvSeasonPlan)
    (seasons : option (list Z)) (episodes : option (list (Z * list Z))) : Session (option MediaRequest.t) :=
  rollback ;;
  present ← match library with
            | Some port => if negb (p_episode_scoped plan)
                           then l ← _present_seasons_or_empty port tmdb_id; mret (Some l)
                           else mret None
            | None => mret None
            end;
  acquire_media_lock ;;
  fresh ← reads (get (MediaRequest.id record));
  match fresh with
  | None => rollback ;; mret None
  | Some fresh =>
      if in_statuses SETTLED_REQUEST_STATUS_VALUES fresh then rollback ;; mret None
      else
        _ensure_tv_season_plan (MediaRequest.id record) tmdb_id plan present ;;
        writes (fun _ => _merge_tv_request_intent fresh seasons episodes) ;;
        commit ;;
        joined ← get_or (MediaRequest.id record) fresh;
        mret (Some joined)
  end.

(** The end of a collapse: the duplicate goes, its subscribers move. *)
Definition absorb (record winner : MediaRequest.t) : Session MediaRequest.t :=
  writes (fun now => copy_subscribers (MediaRequest.id record) (MediaRequest.id winner) now) ;;
  writes (fun _ => delete (MediaRequest.id record)) ;;
  commit ;;
  get_or (MediaRequest.id winner) winner.

Definition subscribe_if (request_id : Z) (user_id : option Z) : Session unit :=
  match user_id with Some u => subscribe request_id u | None => mret tt end.

(** [winner.user_id is None and user_id is not None and not await
    claim_if_unowned(winner.id, user_id)]. *)
Definition adoption_lost (winner : MediaRequest.t) (user_id : option Z) : Session bool :=
  match MediaRequest.user_id winner, user_id with
  | None, Some u => claimed ← writes (fun _ => claim_if_unowned (MediaRequest.id winner) u); mret (negb claimed)
  | _, _ => mret false
  end.

Definition _collapse_available_race (record : MediaRequest.t) (tmdb_id : Z) (media_type : MediaType)
    (user_id : option Z) (actor_is_admin : bool) : Session MediaRequest.t :=
  winner ← reads (find_earliest_available tmdb_id media_type);
  match winner with
  | None => mret record
  | Some winner =>
      if has_id (MediaRequest.id record) winner then mret record
      else if _owned_by_another_user winner user_id actor_is_admin then
        subscribe_if (MediaRequest.id winner) user_id ;;
        absorb record winner
      else
        lost ← adoption_lost winner user_id;
        foreign ← (if (lost : bool) then
                     refreshed ← get_or (MediaRequest.id winner) winner;
                     mret (if _owned_by_another_user refreshed user_id actor_is_admin then Some refreshed else None)
                   else mret None);
        match foreign with
        | Some refreshed =>
            subscribe_if (MediaRequest.id refreshed) user_id ;;
            absorb record refreshed
        | None =>
            subscribe_if (MediaRequest.id winner) user_id ;;
            absorb record winner
        end
  end.

Section create.
Context (tmdb_id : Z) (media_type : MediaType) (user_id : option Z) (actor_is_admin : bool).
Context (seasons : option (list Z)) (episodes : option (list (Z * list Z))) (force expand_shared_tv : bool).

Definition joined (r : MediaRequest.t) : CreateRequestResult := {| record := r; created := false |}.
Definition is_tv : bool := bool_decide (media_type = tv).
Definition foreign (r : MediaRequest.t) : bool := _owned_by_another_user r user_id actor_is_admin.

(** Growing the request that was joined; when it settled meanwhile, another
    attempt, and [exhausted] after the last. *)
Definition grow_or_again (again : option (Session CreateRequestResult)) (exhausted : Session CreateRequestResult)
    (existing : MediaRequest.t) (plan : _TvSeasonPlan) : Session CreateRequestResult :=
  grown ← _grow_tv_dedup_join existing tmdb_id plan seasons episodes;
  match grown with
  | Some r => mret (joined r)
  | None => default exhausted again
  end.

Definition as_it_is (existing : MediaRequest.t) : Session CreateRequestResult :=
  r ← get_or (MediaRequest.id existing) existing; mret (joined r).

Definition release_if_anonymous : Session unit :=
  match user_id with None => rollback | Some _ => mret tt end.

(** An active request was found under the lock. *)
Definition join_active (again : option (Session CreateRequestResult)) (existing : MediaRequest.t)
    : Session CreateRequestResult :=
  let others_row := foreign existing in
  existing ← (if others_row then _subscribe_user existing user_id else mret existing);
  if others_row && (negb is_tv || negb expand_shared_tv) then mret (joined existing)
  else
    existing ← (if others_row then mret existing else _subscribe_dedup_winner existing user_id);
    existing ← _subscribe_user existing user_id;
    release_if_anonymous ;;
    if is_tv then
      plan ← _resolve_tv_season_plan tmdb_id seasons episodes None false;
      grow_or_again again (as_it_is existing) existing plan
    else mret (joined existing).

(** The request is answered, or goes on to be created: with which status, and
    whether as the re-grab of an eviction. *)
Inductive presence : Type :=
  | Answered (r : CreateRequestResult)
  | Create (initial_status : RequestStatus) (movie_eviction_regrab : bool).

(** A breadcrumb of the library that Plex does not confirm. *)
Definition uncorroborated (port : LibraryPort) : Session bool :=
  breadcrumb ← reads (latest_library_path tmdb_id media_type);
  match breadcrumb with
  | None => mret false
  | Some path =>
      confirmed ← try_except plex_failure (outside (fun n => confirm_paths port n [path])) (fun _ => mret []);
      mret (negb (mem path confirmed))
  end.

(** An active row seen under the lock. *)
Definition answer_active (existing : MediaRequest.t) : Session presence :=
  let others_row := foreign existing in
  existing ← (if others_row then _subscribe_user existing user_id else _subscribe_dedup_winner existing user_id);
  if others_row && negb expand_shared_tv then mret (Answered (joined existing))
  else release_if_anonymous ;; mret (Answered (joined existing)).

Definition answer_in_library (in_library : MediaRequest.t) : Session presence :=
  if foreign in_library then
    r ← _subscribe_user in_library user_id; mret (Answered (joined r))
  else
    r ← _subscribe_dedup_winner in_library user_id;
    release_if_anonymous ;; mret (Answered (joined r)).

Definition movie_presence (port : LibraryPort) : Session presence :=
  plex_present ← (if force then mret true else _already_in_library port tmdb_id);
  breadcrumb_uncorroborated ← (if (plex_present : bool) && negb force then uncorroborated port else mret false);
  existing_active ← (if (plex_present : bool)
                     then acquire_media_lock ;; reads (find_active tmdb_id media_type)
                     else mret None);
  match existing_active with
  | Some r => answer_active r
  | None =>
      if force then mret (Create pending false)
      else
        evicted_ ← reads (latest_request_evicted tmdb_id media_type);
        if (evicted_ : bool) then mret (Create pending true)
        else if (plex_present : bool) then
          in_library ← reads (find_in_library tmdb_id media_type (_dedup_preference_user_id user_id actor_is_admin));
          match in_library with
          | Some r => answer_in_library r
          | None => mret (Create (if (breadcrumb_uncorroborated : bool) then pending else available) false)
          end
        else mret (Create pending false)
  end.

(** [present.issuperset(season_numbers)]. *)
Definition issuperset (present numbers : list Z) : bool := forallb (fun n => mem n present) numbers.

Definition answer_all_present (plan : _TvSeasonPlan) (in_library : MediaRequest.t) : Session presence :=
  let others_row := foreign in_library in
  r ← (if others_row then _subscribe_user in_library user_id else mret in_library);
  if others_row && negb expand_shared_tv then mret (Answered (joined r))
  else
    r ← (if others_row then mret r else _subscribe_dedup_winner r user_id);
    rollback ;;
    _ensure_tv_season_plan (MediaRequest.id r) tmdb_id plan None ;;
    writes (fun _ => _merge_tv_request_intent r seasons episodes) ;;
    commit ;;
    r ← get_or (MediaRequest.id r) r;
    mret (Answered (joined r)).

Definition join_active_present (again : option (Session CreateRequestResult)) (plan : _TvSeasonPlan)
    (existing : MediaRequest.t) : Session presence :=
  let others_row := foreign existing in
  existing ← (if others_row then _subscribe_user existing user_id else mret existing);
  if others_row && negb expand_shared_tv then mret (Answered (joined existing))
  else
    existing ← (if others_row then mret existing else _subscribe_dedup_winner existing user_id);
    r ← grow_or_again again (as_it_is existing) existing plan;
    mret (Answered r).

(** No active row: the whole plan may be in the library. *)
Definition all_present_or_create (plan : _TvSeasonPlan) (present : list Z) : Session presence :=
  in_library ← (if issuperset present (season_numbers plan)
                then reads (find_in_library tmdb_id media_type (_dedup_preference_user_id user_id actor_is_admin))
                else mret None);
  match in_library with
  | Some r => answer_all_present plan r
  | None => rollback ;; mret (Create pending false)
  end.

Definition tv_presence (again : option (Session CreateRequestResult)) (port : LibraryPort) (plan : _TvSeasonPlan)
    : Session presence :=
  present ← _present_seasons_or_empty port tmdb_id;
  if bool_decide (present = []) then
    (* [set().issuperset(season_numbers)] is false: the plan has a season *)
    mret (Create pending false)
  else
    acquire_media_lock ;;
    existing_active ← reads (find_active tmdb_id media_type);
    match existing_active with
    | Some existing => join_active_present again plan existing
    | None =>
        gone ← reads (SeasonRepository.evicted_seasons tmdb_id);
        all_present_or_create plan (List.filter (fun n => negb (mem n gone)) present)
    end.

Definition details_of (detail : _Detail) : RequestDetails :=
  let '(mode, requested, wanted) := _tv_request_intent seasons episodes in
  {| year := d_year detail; is_anime := Some (d_is_anime detail); poster_url := d_poster_url detail;
     backdrop_url := d_backdrop_url detail;
     tv_request_mode := if is_tv then Some mode else None;
     requested_seasons_json := if is_tv then requested else None;
     requested_episodes_json := if is_tv then _episode_json wanted else None |}.

(** What follows the commit of a new show: it may already be in the library
    under an earlier request. *)
Definition settle_new_show (created_row : MediaRequest.t) (plan : _TvSeasonPlan) : Session CreateRequestResult :=
  r ← get_or (MediaRequest.id created_row) created_row;
  if in_statuses [available] r then
    winner ← _collapse_available_race r tmdb_id media_type user_id actor_is_admin;
    if has_id (MediaRequest.id r) winner then mret {| record := winner; created := true |}
    else
      _ensure_tv_season_plan (MediaRequest.id winner) tmdb_id plan None ;;
      writes (fun _ => _merge_tv_request_intent winner seasons episodes) ;;
      commit ;;
      winner ← get_or (MediaRequest.id winner) winner;
      mret (joined winner)
  else mret {| record := r; created := true |}.

(** The row is inserted, with its seasons, and committed.  [create] returns
    the row it inserted. *)
Definition insert_new (detail : _Detail) (initial_status : RequestStatus) (movie_eviction_regrab : bool)
    (plan : _TvSeasonPlan) : Session CreateRequestResult :=
  inserted ← writes (fun now => create tmdb_id media_type (d_title detail) initial_status user_id
                                  (details_of detail) movie_eviction_regrab now);
  match inserted with
  | None => db_throw (LookupError [])
  | Some r =>
      (if bool_decide (initial_status = available)
       then writes (fun now => mark_available (MediaRequest.id r) (MediaRequest.completion_generation r) now) ;; mret tt
       else mret tt) ;;
      (if is_tv then _ensure_tv_season_plan (MediaRequest.id r) tmdb_id plan None else mret tt) ;;
      commit ;;
      if is_tv then settle_new_show r plan else mret {| record := r; created := true |}
  end.

(** Another request for the title was committed first. *)
Definition lost_race (again : option (Session CreateRequestResult)) (e : exn) : Session CreateRequestResult :=
  rollback ;;
  acquire_media_lock ;;
  winner ← reads (find_active tmdb_id media_type);
  match winner with
  | None => rollback ;; default (db_throw e) again
  | Some winner =>
      let others_row := foreign winner in
      winner ← (if others_row then _subscribe_user winner user_id else mret winner);
      if others_row && (negb is_tv || negb expand_shared_tv) then mret (joined winner)
      else
        winner ← (if others_row then mret winner else _subscribe_dedup_winner winner user_id);
        release_if_anonymous ;;
        if is_tv then
          plan ← _resolve_tv_season_plan tmdb_id seasons episodes None false;
          grow_or_again again (db_throw e) winner plan
        else mret (joined winner)
  end.

Definition create_new (again : option (Session CreateRequestResult)) (detail : _Detail)
    (initial_status : RequestStatus) (movie_eviction_regrab : bool) (plan : _TvSeasonPlan)
    : Session CreateRequestResult :=
  r ← try_except (is_error "IntegrityError")
        (r ← insert_new detail initial_status movie_eviction_regrab plan; mret (inl r))
        (fun e => r ← lost_race again e; mret (inr r));
  match r with
  | inr returned => mret returned
  | inl r =>
      if bool_decide (initial_status = available) then
        collapsed ← _collapse_available_race (record r) tmdb_id media_type user_id actor_is_admin;
        mret {| record := collapsed; created := has_id (MediaRequest.id (record r)) collapsed |}
      else mret r
  end.

(** The in-library checks. *)
Definition look_in_library (again : option (Session CreateRequestResult)) (plan : _TvSeasonPlan) : Session presence :=
  match library with
  | None => mret (Create pending false)
  | Some port =>
      match media_type with
      | movie => movie_presence port
      | tv => if negb (bool_decide (season_numbers plan = [])) && negb (p_episode_scoped plan)
              then tv_presence again port plan
              else mret (Create pending false)
      end
  end.

Definition no_plan : _TvSeasonPlan := {| season_numbers := []; waiting_seasons := []; p_episode_scoped := false |}.

Definition attempt (again : option (Session CreateRequestResult)) : Session CreateRequestResult :=
  existing ← reads (find_active tmdb_id media_type);
  existing ← match existing with
             | None => mret None
             | Some _ =>
                 acquire_media_lock ;;
                 existing ← reads (find_active tmdb_id media_type);
                 (if is_null existing then rollback else mret tt) ;;
                 mret existing
             end;
  match existing with
  | Some existing => join_active again existing
  | None =>
      detail ← _resolve_detail tmdb_id media_type;
      plan ← (if is_tv then _resolve_tv_season_plan tmdb_id seasons episodes (Some detail) true else mret no_plan);
      answer ← look_in_library again plan;
      match answer with
      | Answered r => mret r
      | Create initial_status movie_eviction_regrab =>
          create_new again detail initial_status movie_eviction_regrab plan
      end
  end.

(** [_attempt + 1 >= _MAX_DEDUP_JOIN_ATTEMPTS] ends the recursion. *)
Fixpoint attempts (more : nat) : Session CreateRequestResult :=
  attempt match more with O => None | S more => Some (attempts more) end.

End create.

Definition create_request_result (tmdb_id : Z) (media_type : list N) (user_id : option Z) (actor_is_admin : bool)
    (seasons : option (list Z)) (episodes : option (list (Z * list Z))) (force expand_shared_tv : bool)
    : Session CreateRequestResult :=
  if bool_decide (media_type = lit "movie") then
    attempts tmdb_id movie user_id actor_is_admin seasons episodes force expand_shared_tv
      (_MAX_DEDUP_JOIN_ATTEMPTS - 1)
  else if bool_decide (media_type = lit "tv") then
    attempts tmdb_id tv user_id actor_is_admin seasons episodes force expand_shared_tv
      (_MAX_DEDUP_JOIN_ATTEMPTS - 1)
  else db_throw (MediaTypeDeferredError media_type).

Definition create_request (tmdb_id : Z) (media_type : list N) (user_id : option Z) (actor_is_admin : bool)
    (seasons : option (list Z)) (episodes : option (list (Z * list Z))) (force expand_shared_tv : bool)
    : Session MediaRequest.t :=
  r ← create_request_result tmdb_id media_type user_id actor_is_admin seasons episodes force expand_shared_tv;
  mret (record r).

(** ** Reading back *)

Definition list_requests (status : option RequestStatus) : Session (list MediaRequest.t) :=
  reads (list_by_status status).

Definition list_requests_for_user (user_id : Z) (status : option RequestStatus) : Session (list MediaRequest.t) :=
  reads (list_for_user user_id status).

(** A page, and the cursor of the next one. *)
Definition page_of (limit : nat) (rows : list MediaRequest.t) : list MediaRequest.t * option Z :=
  let page := take limit rows in
  (page, if bool_decide (limit < length rows)%nat then MediaRequest.id <$> last page else None).

Definition list_requests_page (for_user_id before_id : option Z) (limit : nat)
    : Session (list MediaRequest.t * option Z) :=
  rows ← reads (list_page for_user_id before_id (limit + 1)); mret (page_of limit rows).

Definition compact_request_states (keys : list (Z * MediaType)) (for_user_id : option Z)
    : Session (list ((Z * MediaType) * CompactRequestState)) :=
  reads (compact_states_by_tmdb_ids keys for_user_id).

Definition list_requests_for_title (tmdb_id : Z) (media_type : MediaType) (for_user_id : option Z)
    : Session (list MediaRequest.t) :=
  reads (list_for_title tmdb_id media_type for_user_id).

Definition is_request_visible_to_user (request_id user_id : Z) : Session bool :=
  reads (is_subscriber request_id user_id).

Definition get_request (request_id : Z) : Session (option MediaRequest.t) := reads (get request_id).

(** [groups], a dict from owner and title to the records, in the order the
    keys were first seen ([order]). *)
Definition display_key (subscriber_scoped : bool) (r : MediaRequest.t) : option Z * Z * MediaType :=
  (if subscriber_scoped then None else MediaRequest.user_id r, MediaRequest.tmdb_id r, MediaRequest.media_type r).

Fixpoint append_group (key : option Z * Z * MediaType) (r : MediaRequest.t)
    (groups : list ((option Z * Z * MediaType) * list MediaRequest.t))
    : list ((option Z * Z * MediaType) * list MediaRequest.t) :=
  match groups with
  | [] => [(key, [r])]
  | (k, group) :: rest =>
      if bool_decide (k = key) then (k, group ++ [r]) :: rest else (k, group) :: append_group key r rest
  end.

Definition shown (group : list MediaRequest.t) : option MediaRequest.t :=
  match List.find (fun r => negb (in_statuses SETTLED_REQUEST_STATUS_VALUES r)) group with
  | Some active => Some active
  | None => last group
  end.

Definition fold_requests_for_display (records : list MediaRequest.t) (subscriber_scoped : bool) : list MediaRequest.t :=
  let groups := foldl (fun groups r => append_group (display_key subscriber_scoped r) r groups) [] records in
  py_sort (key_lt MediaRequest.id) (omap (fun g => shown g.2) groups).

(** ** Marking *)

Definition mark_no_acceptable_release (request_id : Z) : Session bool :=
  writes (fun _ => set_status_if_in request_id no_acceptable_release _PARKABLE_REQUEST_STATUS_VALUES false false).

Definition mark_completed (request_id : Z) : Session unit :=
  writes (fun now => RequestRepository.mark_completed request_id now) ;; commit.

Definition mark_available (request_id : Z) (expected_completion_generation : option Z) : Session bool :=
  promoted ← writes (fun now => RequestRepository.mark_available request_id expected_completion_generation now);
  commit ;; mret promoted.

Definition set_keep_forever (request_id : Z) (keep_forever : bool) (restrict_to_user_id : option Z)
    : Session (option MediaRequest.t) :=
  current ← reads (get request_id);
  match current with
  | None => mret None
  | Some r =>
      writes (fun _ => set_keep_forever_for_title (MediaRequest.tmdb_id r) (MediaRequest.media_type r)
                         keep_forever restrict_to_user_id) ;;
      commit ;;
      reads (get request_id)
  end.

End service.
