(* ===== verification/RequestServiceFacts.v ===== *)
(** * What a request becomes

    Theorems about [RequestService]: whoever asks is subscribed to the request
    that results, and it is for the title asked, however other processes
    interleave their transactions; an active request is joined; intents are
    merged without losing or adding anything; one row stands for each title. *)

From Stdlib Require Import ZArith Lia Bool String Sorted.
From S2P Require Import Prelude PyStr PyInt RequestStore RequestRepository RequestLaws RequestFacts Sessions.
From S2P Require Import RequestService.
From S2P Require SeasonRepository SeasonService.

#[local] Open Scope bool_scope.

(** ** The other processes

    Those of the program: they run the repositories' methods, and users other
    than [u] may leave. *)

Inductive neighbour {DB : UnicodeDB} (u : Z) (d : db) : db -> Prop :=
  | by_method A (m : DBM A) : method A m -> neighbour u d (m d).2
  | by_leaving i v : v <> u -> neighbour u d (remove_subscriber i v d).2
  | by_others d' :
      media_requests d' = media_requests d -> season_requests d' = season_requests d ->
      request_subscribers d' = request_subscribers d ->
      next_request_id d' = next_request_id d -> next_season_id d' = next_season_id d -> neighbour u d d'.

(** ** Steps of the service *)

Section steps.
Context {DB : UnicodeDB} {W : Others db} (P : db -> Prop) {HG : Growing P} {HT : Tolerated P}.

#[local] Hint Resolve stable_method m_create m_delete m_add_subscriber m_copy_subscribers m_intent m_cas m_completed
  m_available m_claim m_pin_title m_ensure_seasons m_season_status : keeps.

Lemma keeps_wait i now l : keeps P (wait_for_air_dates i now l).
Proof. induction l as [|n l IH]; cbn; [auto with keeps|]. apply keeps_bind; [eauto with keeps | done]. Qed.
#[local] Hint Resolve keeps_wait : keeps.

Lemma keeps_merge r seasons episodes : keeps P (_merge_tv_request_intent r seasons episodes).
Proof.
  unfold _merge_tv_request_intent. apply keeps_bind; [auto with keeps|]. intros m.
  destruct (is_whole_show r); [auto with keeps|]. destruct (merge_intent _ _ _) as [[]]. eauto with keeps.
Qed.
#[local] Hint Resolve keeps_merge : keeps.

Context (tmdb : MetadataPort) (library : option LibraryPort).

Lemma always_ensure_plan i t plan present : keeps (always P) (_ensure_tv_season_plan library i t plan present).
Proof.
  intros s Hs. unfold _ensure_tv_season_plan. apply keeps_writes; [apply _| |done]. eauto with keeps.
Qed.

Lemma always_lock : keeps (always P) acquire_media_lock.
Proof. unfold acquire_media_lock. auto with keeps. Qed.
Lemma always_get_or i r : keeps (always P) (get_or i r).
Proof. unfold get_or. auto with keeps. Qed.
Lemma always_subscribe i u : keeps (always P) (subscribe i u).
Proof. unfold subscribe. eauto with keeps. Qed.
#[local] Hint Resolve always_ensure_plan always_lock always_get_or always_subscribe : keeps.
Lemma always_subscribe_if i u : keeps (always P) (subscribe_if i u).
Proof. destruct u; simpl; auto with keeps. Qed.
Lemma always_winner r u : keeps (always P) (_subscribe_dedup_winner r u).
Proof. destruct u; simpl; auto with keeps. Qed.
Lemma always_user r u : keeps (always P) (_subscribe_user r u).
Proof. destruct u; simpl; auto with keeps. Qed.
Lemma always_absorb r w : keeps (always P) (absorb r w).
Proof. unfold absorb. eauto 10 with keeps. Qed.
Lemma always_adoption r u : keeps (always P) (adoption_lost r u).
Proof. unfold adoption_lost. destruct (MediaRequest.user_id r), u; eauto with keeps. Qed.
Lemma always_present port t : keeps (always P) (_present_seasons_or_empty port t).
Proof. unfold _present_seasons_or_empty. auto with keeps. Qed.
Lemma always_detail t k : keeps (always P) (_resolve_detail tmdb t k).
Proof. unfold _resolve_detail. destruct k; apply keeps_bind; auto with keeps; intros []; auto with keeps. Qed.
#[local] Hint Resolve always_subscribe_if always_winner always_user always_absorb always_adoption
  always_present always_detail : keeps.
Lemma always_plan t ss es d w : keeps (always P) (_resolve_tv_season_plan tmdb t ss es d w).
Proof.
  unfold _resolve_tv_season_plan. apply keeps_bind; [destruct d; auto with keeps|]. intros x.
  destruct (if _ : bool then _ else _). auto with keeps.
Qed.

Lemma always_collapse r t k u a : keeps (always P) (_collapse_available_race r t k u a).
Proof.
  unfold _collapse_available_race. apply keeps_bind; [auto with keeps|]. intros [w|]; [|auto with keeps].
  apply keeps_if; [auto with keeps|]. apply keeps_if; [auto with keeps|].
  apply keeps_bind; [auto with keeps|]. intros lost. apply keeps_bind; [destruct lost; auto with keeps|].
  intros [r'|]; auto with keeps.
Qed.

Lemma always_grow r t plan ss es : keeps (always P) (_grow_tv_dedup_join library r t plan ss es).
Proof.
  unfold _grow_tv_dedup_join. apply keeps_bind; [auto with keeps|]. intros _.
  apply keeps_bind; [destruct library; [apply keeps_if; auto with keeps | auto with keeps]|]. intros pr.
  apply keeps_bind; [auto with keeps|]. intros _. apply keeps_bind; [auto with keeps|].
  intros [f|]; [|auto with keeps]. apply keeps_if; auto 10 with keeps.
Qed.

End steps.

#[export] Hint Resolve always_ensure_plan always_lock always_get_or always_subscribe always_subscribe_if
  always_winner always_user always_absorb always_adoption always_present always_detail always_plan
  always_collapse always_grow keeps_merge keeps_wait : keeps.

(** ** What is known of a row once it is committed *)

Section known.
Context (u n0 : Z).

(** The constraints, and that keys from [n0] on are new. *)
Definition since (d : db) : Prop := wf d /\ (n0 <= next_request_id d)%Z.

(** Row [i], while it exists, is for the title [t], and [u] is subscribed to it. *)
Definition titled (i : Z) (t : Z * MediaType) (d : db) : Prop :=
  since d /\ (i < next_request_id d)%Z /\
  forall r, r ∈ media_requests d -> MediaRequest.id r = i -> title_key r = t.
Definition known (i : Z) (t : Z * MediaType) (d : db) : Prop :=
  titled i t d /\ forall r, r ∈ media_requests d -> MediaRequest.id r = i -> is_subscribed d i u = true.

Lemma title_assigned values r : title_key (MediaRequest.assign_all values r) = title_key r.
Proof.
  revert r; induction values as [|c l IH]; intros r; [done|]. cbn.
  change (title_key (MediaRequest.assign_all l (MediaRequest.assign r c)) = title_key r).
  rewrite IH. by destruct c, r.
Qed.

Lemma elem_rewritten p values (t : list MediaRequest.t) r : r ∈ rewritten p (MediaRequest.assign_all values) t ->
  exists r', r' ∈ t /\ MediaRequest.id r = MediaRequest.id r' /\ title_key r = title_key r'.
Proof.
  unfold rewritten. intros (r' & -> & H)%list_elem_of_fmap. exists r'. split; [done|].
  destruct (p r'); [|done]. by rewrite assign_all_id, title_assigned.
Qed.

Lemma elem_filter_list {R} (p : R -> bool) (t : list R) x : x ∈ List.filter p t <-> x ∈ t /\ p x = true.
Proof. rewrite !list_elem_of_In. apply List.filter_In. Qed.

#[export] Instance since_growing : Growing since.
Proof.
  constructor; intros; intros d [Hw Hn]; (split; [first [by apply wf_requests_update | by apply wf_seasons_update
    | by apply wf_insert_request | by apply wf_insert_season | by apply wf_delete_requests | by apply wf_add_subscriber]|]).
  - unfold update_requests. by destruct (bool_decide _).
  - done.
  - unfold insert_request. destruct (bool_decide _); simpl; lia.
  - unfold insert_season. destruct (_ && _); simpl; lia.
  - done.
  - unfold add_subscriber. destruct (is_subscribed _ _ _); [done|]. by destruct (mem _ _).
Qed.

(** What the primitives do to the rows, the keys and the subscriptions. *)
Lemma titled_later i t d d' : titled i t d -> since d' -> (next_request_id d <= next_request_id d')%Z ->
  (forall r', r' ∈ media_requests d' -> (MediaRequest.id r' < next_request_id d)%Z ->
     exists r, r ∈ media_requests d /\ MediaRequest.id r' = MediaRequest.id r /\ title_key r' = title_key r) ->
  titled i t d'.
Proof.
  intros (Hs & Hi & Ht) Hs' Hn Hr. split; [done|]. split; [lia|]. intros r' Hr' Hid.
  destruct (Hr r' Hr') as (r & H1 & H2 & ->); [lia|]. apply Ht; [done | congruence].
Qed.

#[export] Instance titled_growing i t : Growing (titled i t).
Proof.
  constructor; intros; intros d Hd; pose proof Hd as (Hs & Hi & Ht);
    (eapply titled_later; [exact Hd | | |]).
  all: try (first [apply stable_requests_update | apply stable_seasons_update | apply stable_insert_request
    | apply stable_insert_season | apply stable_delete_requests | apply stable_add_subscriber]; done).
  - unfold update_requests. by destruct (bool_decide _).
  - intros r'. unfold update_requests. destruct (bool_decide _); simpl; [|eauto].
    intros (r & ? & ? & ?)%elem_rewritten _. eauto.
  - done.
  - eauto.
  - unfold insert_request. destruct (bool_decide _); simpl; lia.
  - intros r'. unfold insert_request. destruct (bool_decide _); simpl; [|eauto].
    rewrite elem_of_app, list_elem_of_singleton. intros [Hr'| ->]; [eauto|]. rewrite H. lia.
  - unfold insert_season. by destruct (_ && _).
  - intros r'. unfold insert_season. destruct (_ && _); simpl; eauto.
  - done.
  - intros r' [Hr' _]%elem_filter_list. eauto.
  - unfold add_subscriber. destruct (is_subscribed _ _ _); [done|]. by destruct (mem _ _).
  - intros r'. unfold add_subscriber. destruct (is_subscribed _ _ _); [eauto|]. destruct (mem _ _); eauto.
Qed.

Lemma subscribed_in d i v : is_subscribed d i v = true <-> exists s, s ∈ request_subscribers d /\
  sub_request_id s = i /\ sub_user_id s = v.
Proof.
  unfold is_subscribed. rewrite existsb_exists. split; intros (s & H1 & H2); exists s.
  - apply andb_prop in H2 as [? ?]. apply list_elem_of_In in H1. split; [done | lia].
  - destruct H2 as [-> ->]. rewrite <- list_elem_of_In, !Z.eqb_refl. done.
Qed.

#[export] Instance known_growing i t : Growing (known i t).
Proof.
  constructor; intros; intros d [Ht Hk]; pose proof Ht as ((Hw & Hn) & Hi & Htt);
    (split; [by apply (titled_growing i t)|]).
  - unfold update_requests. destruct (bool_decide _); simpl; [|done].
    intros r (r' & Hr' & -> & _)%elem_rewritten Hid. by apply (Hk r').
  - done.
  - unfold insert_request. destruct (bool_decide _); simpl; [|done].
    intros r. rewrite elem_of_app, list_elem_of_singleton. intros [Hr| ->]; [by apply Hk|]. rewrite H. intros <-. exfalso. lia.
  - unfold insert_season. by destruct (_ && _).
  - intros r [Hr Hp]%elem_filter_list Hid. pose proof (Hk r Hr Hid) as (s & H1 & H2 & H3)%subscribed_in.
    apply subscribed_in. exists s. split; [|done]. apply elem_filter_list. split; [done|].
    apply negb_true_iff, mem_false. rewrite H2. intros (r' & Hid' & [Hr' Hp']%elem_filter_list)%list_elem_of_fmap.
    assert (r' = r) as -> by (eapply (sorted_ids_unique MediaRequest.id); [apply Hw|..]; try done; congruence).
    by rewrite Hp' in Hp.
  - unfold add_subscriber. destruct (is_subscribed d i0 u0) eqn:Hsub; [done|]. destruct (mem _ _); [|done].
    intros r Hr Hid. apply subscribed_in. pose proof (Hk r Hr Hid) as (s & H1 & H2)%subscribed_in.
    exists s. split; [|done]. simpl. apply elem_of_app. by left.
Qed.

Lemma since_leave i v : keeps since (remove_subscriber i v).
Proof. intros d [Hw Hn]. split; [by apply wf_remove_subscriber | done]. Qed.
Lemma titled_leave i t j v : keeps (titled i t) (remove_subscriber j v).
Proof. intros d (Hs & Hi & Ht). split; [by apply since_leave | by split]. Qed.
Lemma known_leave i t j v : v <> u -> keeps (known i t) (remove_subscriber j v).
Proof.
  intros Hv d [Ht Hk]. split; [by apply titled_leave|]. intros r Hr Hid.
  pose proof (Hk r Hr Hid) as (s & H1 & H2 & H3)%subscribed_in. apply subscribed_in. exists s.
  split; [|done]. apply elem_filter_list. split; [done|]. apply negb_true_iff, andb_false_iff. right. lia.
Qed.

Lemma since_others d d' : media_requests d' = media_requests d -> season_requests d' = season_requests d ->
  request_subscribers d' = request_subscribers d ->
  next_request_id d' = next_request_id d -> next_season_id d' = next_season_id d -> since d -> since d'.
Proof.
  intros E1 E2 E3 E4 E5 [[H1 H2 H3 H4 H5 H6 H7 H8 H9] Hn]. split; [|lia].
  split; by rewrite ?E1, ?E2, ?E3, ?E4, ?E5.
Qed.
Lemma titled_others i t d d' : media_requests d' = media_requests d -> season_requests d' = season_requests d ->
  request_subscribers d' = request_subscribers d ->
  next_request_id d' = next_request_id d -> next_season_id d' = next_season_id d -> titled i t d -> titled i t d'.
Proof.
  intros E1 E2 E3 E4 E5 (Hs & Hi & Ht). split; [by eapply since_others|]. unfold title_key in *. by rewrite E1, E4.
Qed.
Lemma known_others i t d d' : media_requests d' = media_requests d -> season_requests d' = season_requests d ->
  request_subscribers d' = request_subscribers d ->
  next_request_id d' = next_request_id d -> next_season_id d' = next_season_id d -> known i t d -> known i t d'.
Proof.
  intros E1 E2 E3 E4 E5 [Ht Hk]. split; [by eapply titled_others|].
  unfold is_subscribed in *. by rewrite E1, E3.
Qed.

Section neighbours.
Context {DB : UnicodeDB} {W : Others db} (HN : forall n d, rtc (neighbour u) d (others n d)).

Lemma neighbours_tolerate (P : db -> Prop) `{!Growing P} :
  (forall i v, v <> u -> keeps P (remove_subscriber i v)) ->
  (forall d d', media_requests d' = media_requests d -> season_requests d' = season_requests d ->
     request_subscribers d' = request_subscribers d ->
     next_request_id d' = next_request_id d -> next_season_id d' = next_season_id d -> P d -> P d') -> Tolerated P.
Proof.
  intros Hl Ho n d. generalize (HN n d). generalize (others n d). intros d' H.
  induction H as [|d1 d2 d3 Hs _ IH]; [done|]. intros Hd. apply IH. destruct Hs as [A m Hm|i v Hv|d' E1 E2 E3 E4 E5].
  - by apply (stable_method P).
  - by apply Hl.
  - by eapply Ho.
Qed.

Lemma since_tolerated : Tolerated since.
Proof. apply (neighbours_tolerate since); [intros; apply since_leave | apply since_others]. Qed.
Lemma titled_tolerated i t : Tolerated (titled i t).
Proof. apply (neighbours_tolerate (titled i t)); [intros; apply titled_leave | apply titled_others]. Qed.
Lemma known_tolerated i t : Tolerated (known i t).
Proof. apply (neighbours_tolerate (known i t)); [intros; by apply known_leave | apply known_others]. Qed.

End neighbours.

End known.

(** ** The request that results *)

Section served.
Context {DB : UnicodeDB} {W : Others db} (u n0 : Z) (HN : forall n d, rtc (neighbour u) d (others n d)).
Context (tmdb : MetadataPort) (library : option LibraryPort).
Context (tmdb_id : Z) (media_type : MediaType) (actor_is_admin : bool).
Context (seasons : option (list Z)) (episodes : option (list (Z * list Z))) (force expand_shared_tv : bool).

#[local] Instance known_tolerated' i t : Tolerated (known u n0 i t) := known_tolerated u n0 HN i t.
#[local] Instance titled_tolerated' i t : Tolerated (titled n0 i t) := titled_tolerated u n0 HN i t.
#[local] Instance since_tolerated' : Tolerated (since n0) := since_tolerated u n0 HN.

#[local] Hint Resolve known_tolerated' titled_tolerated' since_tolerated' known_growing titled_growing since_growing : keeps.

#[local] Abbreviation t := (tmdb_id, media_type).

(** The caller [u] is subscribed to the row, which is for the title asked. *)
Definition served_row (r : MediaRequest.t) (s : session db Empty_set) : Prop :=
  title_key r = t /\ always (known u n0 (MediaRequest.id r) t) s.

Definition served (x : CreateRequestResult) (s : session db Empty_set) : Prop :=
  served_row (record x) s /\ (created x = true -> (n0 <= MediaRequest.id (record x))%Z).

(** Row [r] was read, and is for the title. *)
Definition seen (r : MediaRequest.t) (s : session db Empty_set) : Prop :=
  title_key r = t /\ now_holds (titled n0 (MediaRequest.id r) t) s.

Lemma find_row i r l : List.find (has_id i) l = Some r -> r ∈ l /\ MediaRequest.id r = i.
Proof. intros H. apply List.find_some in H as [H1 H2]. apply list_elem_of_In in H1. unfold has_id in H2. split; [done|lia]. Qed.

Lemma row_titled d r : since n0 d -> r ∈ media_requests d -> title_key r = t -> titled n0 (MediaRequest.id r) t d.
Proof.
  intros [Hw Hn] Hr Ht. split; [done|]. split.
  - pose proof (wf_id_seq d Hw) as Hs. rewrite Forall_forall in Hs. apply Hs, list_elem_of_fmap. eauto.
  - intros r' Hr' Hid. by rewrite (sorted_ids_unique MediaRequest.id _ r' r (wf_ids d Hw)).
Qed.

(** A query that finds rows of the title. *)
Lemma reads_seen (m : DBM (option MediaRequest.t)) s r s' : always (since n0) s ->
  (forall d r, (m d).1 = Ok (Some r) -> r ∈ media_requests d /\ title_key r = t) ->
  reads m s = (Ok (Some r), s') -> seen r s' /\ always (since n0) s'.
Proof.
  intros Hs Hm H. pose proof (keeps_reads (since n0) m s Hs) as Hs'. rewrite H in Hs'. simpl in Hs'.
  split; [|done]. unfold reads in H. injection H as H <-. destruct (Hm _ _ H) as [Hr Ht].
  split; [done|]. apply row_titled; [apply Hs' | done | done].
Qed.

Lemma served_get_or r s x s' : served_row r s -> get_or (MediaRequest.id r) r s = (Ok x, s') ->
  served_row x s' /\ MediaRequest.id x = MediaRequest.id r.
Proof.
  intros [Ht Hk] H. pose proof (always_get_or (known u n0 (MediaRequest.id r) t) (MediaRequest.id r) r s Hk) as Hk'.
  rewrite H in Hk'. simpl in Hk'. unfold get_or in H. apply bind_result in H as (o & s1 & H1 & H).
  injection H as <- <-. unfold reads in H1. injection H1 as H1 <-.
  destruct o as [x|]; [|done]. apply find_row in H1 as [Hr Hid].
  split; [|done]. rewrite <- Hid in Hk'. split; [|done]. destruct Hk' as [[(_ & _ & Htt) _] _]. by apply Htt.
Qed.

(** Subscribing to a row that was seen. *)
Lemma add_subscriber_known i now d x d' : titled n0 i t d -> add_subscriber i u now d = (Ok x, d') -> known u n0 i t d'.
Proof.
  intros H E. pose proof (stable_add_subscriber (P := titled n0 i t) i u now d H) as Ht. rewrite E in Ht.
  split; [done|]. intros _ _ _. unfold add_subscriber in E.
  destruct (is_subscribed _ _ _) eqn:Hsub; [by injection E as <- <-|].
  destruct (mem _ _); [|done]. injection E as _ <-. apply subscribed_in. eexists. split; [|split]; simpl.
  - apply elem_of_app. right. by apply list_elem_of_singleton.
  - done.
  - done.
Qed.

Lemma subscribe_known i s s' x : now_holds (titled n0 i t) s -> subscribe i u s = (Ok x, s') ->
  now_holds (known u n0 i t) s'.
Proof.
  intros H Hs. apply now_arrive in H; [|apply _]. unfold subscribe, writes in Hs. unfold now_holds in *.
  destruct (add_subscriber _ _ _ _) as [r d] eqn:E. injection Hs as -> <-. by eapply add_subscriber_known.
Qed.

Lemma subscribe_user_served r s x s' : seen r s -> _subscribe_user r (Some u) s = (Ok x, s') ->
  served_row x s' /\ x = r.
Proof.
  intros [Ht Hs] H. unfold _subscribe_user in H. apply bind_result in H as (y & s1 & H1 & H).
  apply bind_result in H as (z & s2 & H2 & H). injection H as <- <-.
  apply subscribe_known in H1; [|done]. split; [|done]. split; [done|]. by eapply now_commit.
Qed.

Lemma winner_served r s x s' : seen r s -> _subscribe_dedup_winner r (Some u) s = (Ok x, s') ->
  served_row x s' /\ MediaRequest.id x = MediaRequest.id r.
Proof.
  intros [Ht Hs] H. unfold _subscribe_dedup_winner in H. apply bind_result in H as (y & s1 & H1 & H).
  apply bind_result in H as (z & s2 & H2 & H). apply subscribe_known in H1; [|done].
  apply (served_get_or r s2); [|done]. split; [done|]. by eapply now_commit.
Qed.

Lemma served_seen r s : served_row r s -> seen r s.
Proof. intros [Ht [[H _] _]]. by split. Qed.

Lemma served_keeps {A} (m : Session A) r s x s' : (forall i, keeps (always (known u n0 i t)) m) ->
  served_row r s -> m s = (x, s') -> served_row r s'.
Proof. intros Hm [Ht Hk] H. split; [done|]. by eapply keeps_result. Qed.

Ltac by_method := intros; refine (stable_method _ _ _ _); constructor.
Ltac now_method := intros; refine (now_writes _ _ _); by_method.

Lemma served_since r s : served_row r s -> always (since n0) s.
Proof. intros [_ [[[H1 _] _] [[H2 _] _]]]. by split. Qed.

Lemma absorb_served r w s x s' : title_key w = t -> now_holds (known u n0 (MediaRequest.id w) t) s ->
  absorb r w s = (Ok x, s') -> served_row x s'.
Proof.
  intros Ht Hk H. unfold absorb in H. apply bind_result in H as (y1 & s1 & H1 & H).
  apply bind_result in H as (y2 & s2 & H2 & H). apply bind_result in H as (y3 & s3 & H3 & H).
  apply (keeps_result (now_holds (known u n0 (MediaRequest.id w) t))) in H1; [|now_method|done].
  apply (keeps_result (now_holds (known u n0 (MediaRequest.id w) t))) in H2; [|now_method|done].
  apply (now_commit _ _ _ _ H2) in H3. by apply (served_get_or w s3).
Qed.

Lemma seen_keeps {A} (m : Session A) r s x s' : (forall i, keeps (now_holds (titled n0 i t)) m) ->
  seen r s -> m s = (x, s') -> seen r s'.
Proof. intros Hm [Ht Hs] H. split; [done|]. by eapply keeps_result. Qed.

Lemma now_get_or P `{!Tolerated P} i r : keeps (now_holds P) (get_or i r).
Proof. unfold get_or. apply keeps_bind; [by apply now_reads | auto with keeps]. Qed.

Lemma seen_get_or r s x s' : seen r s -> get_or (MediaRequest.id r) r s = (Ok x, s') ->
  seen x s' /\ MediaRequest.id x = MediaRequest.id r.
Proof.
  intros Hs H. pose proof (seen_keeps _ r s _ s' (fun i => now_get_or _ _ _) Hs H) as [Ht' Hk'].
  unfold get_or in H. apply bind_result in H as (o & s1 & H1 & H).
  injection H as <- <-. unfold reads in H1. injection H1 as H1 <-.
  destruct o as [x|]; [|done]. apply find_row in H1 as [Hr Hid]. cbn. split; [|done].
  rewrite <- Hid in Hk'. split; [|done]. destruct Hk' as (_ & _ & Htt). by apply Htt.
Qed.

Lemma adoption_seen r s b s' : seen r s -> adoption_lost r (Some u) s = (b, s') -> seen r s'.
Proof.
  intros Hs H. eapply seen_keeps; [|exact Hs|exact H]. intros i. unfold adoption_lost.
  destruct (MediaRequest.user_id r); [auto with keeps|]. apply keeps_bind; [|auto with keeps].
  now_method.
Qed.

Lemma subscribe_absorb_served r w s x s' : seen w s ->
  (subscribe_if (MediaRequest.id w) (Some u) ;; absorb r w) s = (Ok x, s') -> served_row x s'.
Proof.
  intros [Ht Hs] H. apply bind_result in H as (y & s1 & H1 & H). apply subscribe_known in H1; [|done].
  by apply absorb_served in H.
Qed.

Lemma collapse_served r s x s' : served_row r s ->
  _collapse_available_race r tmdb_id media_type (Some u) actor_is_admin s = (Ok x, s') -> served_row x s'.
Proof.
  intros Hs H. unfold _collapse_available_race in H. apply bind_result in H as (w & s1 & H1 & H).
  assert (served_row r s1) as Hs1 by (eapply served_keeps; [|exact Hs|exact H1]; auto with keeps).
  destruct w as [w|]; [|by injection H as <- <-].
  apply reads_seen in H1 as [Hw _]; [|by apply served_since in Hs|].
  2: { intros d r' [= Hf]. apply List.find_some in Hf as [Hf1 Hf2]. apply list_elem_of_In in Hf1. split; [done|].
       apply andb_prop in Hf2 as [Hf2 _]. unfold of_title in Hf2. apply andb_prop in Hf2 as [Ha Hb].
       apply bool_decide_eq_true in Hb. unfold title_key. f_equal; [lia | done]. }
  destruct (has_id _ w) in H; [by injection H as <- <-|].
  destruct (_owned_by_another_user w _ _) in H; [by eapply subscribe_absorb_served|].
  apply bind_result in H as (lost & s2 & H2 & H). apply adoption_seen in H2; [|done].
  apply bind_result in H as (f & s3 & H3 & H). assert (match f with Some x => seen x s3 | None => seen w s3 end) as Hf.
  { destruct lost; [|by injection H3 as <- <-]. apply bind_result in H3 as (x' & s4 & H4 & H3).
    pose proof H4 as H5. apply seen_get_or in H4 as [Hx _]; [|done]. destruct (_owned_by_another_user x' _ _) in H3; injection H3 as <- <-; [done|].
    eapply seen_keeps; [|exact H2|exact H5]. intros i. apply now_get_or, _. }
  destruct f; by eapply subscribe_absorb_served.
Qed.

Lemma grow_served r plan s o s' : served_row r s ->
  _grow_tv_dedup_join library r tmdb_id plan seasons episodes s = (Ok o, s') ->
  match o with Some x => served_row x s' | None => always (since n0) s' end.
Proof.
  intros Hs H. destruct o as [x|].
  2: { eapply keeps_result; [|by apply served_since in Hs|exact H]. auto with keeps. }
  unfold _grow_tv_dedup_join in H. apply bind_result in H as (y1 & s1 & H1 & H).
  eapply served_keeps in H1; [|intros; apply keeps_rollback|exact Hs].
  apply bind_result in H as (pr & s2 & H2 & H). eapply served_keeps in H2; [|intros|exact H1].
  2: { destruct library; [apply keeps_if; auto with keeps | auto with keeps]. }
  apply bind_result in H as (y3 & s3 & H3 & H). eapply served_keeps in H3; [|intros; auto with keeps|exact H2].
  apply bind_result in H as (f & s4 & H4 & H). pose proof H4 as Hf.
  eapply served_keeps in H4; [|intros; auto with keeps|exact H3].
  destruct f as [f|]; [|by apply bind_result in H as (? & ? & _ & [=])].
  destruct (in_statuses _ f) in H; [by apply bind_result in H as (? & ? & _ & [=])|].
  assert (title_key f = t /\ MediaRequest.id f = MediaRequest.id r) as [Hft Hid].
  { unfold reads in Hf. injection Hf as Hf <-. apply find_row in Hf as [Hf Hid]. split; [|done].
    destruct H4 as [_ [[(_ & _ & Htt) _] _]]. by apply Htt. }
  apply bind_result in H as (y5 & s5 & H5 & H). eapply served_keeps in H5; [|intros; auto with keeps|exact H4].
  apply bind_result in H as (y6 & s6 & H6 & H). eapply served_keeps in H6; [|intros; auto with keeps|exact H5].
  apply bind_result in H as (y7 & s7 & H7 & H). eapply served_keeps in H7; [|intros; apply keeps_commit|exact H6].
  apply bind_result in H as (x' & s8 & H8 & H). injection H as <- <-.
  rewrite <- Hid in H8. apply served_get_or in H8 as [H8 _]; [done|]. split; [done|]. rewrite Hid. apply H7.
Qed.

(** *** One attempt *)

Abbreviation Answer := (Session CreateRequestResult).

(** What a further attempt must do. *)
Definition serves (m : Answer) : Prop := forall s x s', always (since n0) s -> m s = (Ok x, s') -> served x s'.
Definition again_serves (again : option Answer) : Prop := match again with Some m => serves m | None => True end.

Lemma joined_served r s : served_row r s -> served (joined r) s.
Proof. by intros. Qed.

Lemma kept_after {A} P (m : Session A) s x s' : keeps (always P) m -> always P s -> m s = (x, s') -> always P s'.
Proof. intros Hm Hs H. by eapply keeps_result. Qed.

Lemma as_it_is_served r s x s' : served_row r s -> as_it_is r s = (Ok x, s') -> served x s'.
Proof.
  intros Hs H. unfold as_it_is in H. apply bind_result in H as (y & s1 & H1 & H). injection H as <- <-.
  by apply served_get_or in H1 as [H1 _].
Qed.

Lemma grow_keeps_served r plan s o s' : served_row r s ->
  _grow_tv_dedup_join library r tmdb_id plan seasons episodes s = (o, s') -> served_row r s'.
Proof. intros Hs H. eapply served_keeps; [|exact Hs|exact H]. auto with keeps. Qed.

Lemma grow_or_again_served again (exhausted : Answer) r plan s x s' : again_serves again ->
  (forall s x s', served_row r s -> exhausted s = (Ok x, s') -> served x s') -> served_row r s ->
  grow_or_again library tmdb_id seasons episodes again exhausted r plan s = (Ok x, s') -> served x s'.
Proof.
  intros Ha He Hs H. unfold grow_or_again in H. apply bind_result in H as (o & s1 & H1 & H).
  pose proof (grow_keeps_served _ _ _ _ _ Hs H1) as Hr. apply grow_served in H1; [|done].
  destruct o as [y|]; [injection H as <- <-; by apply joined_served|].
  destruct again as [m|]; simpl in *; [by eapply Ha | by eapply He].
Qed.

Lemma serving_user r s x s' : served_row r s -> _subscribe_user r (Some u) s = (Ok x, s') -> served_row x s'.
Proof. intros Hs H. apply subscribe_user_served in H as [H _]; [done|]. by apply served_seen. Qed.
Lemma serving_winner r s x s' : served_row r s -> _subscribe_dedup_winner r (Some u) s = (Ok x, s') -> served_row x s'.
Proof. intros Hs H. apply winner_served in H as [H _]; [done|]. by apply served_seen. Qed.

Lemma plan_served r d w s x s' : served_row r s ->
  _resolve_tv_season_plan tmdb tmdb_id seasons episodes d w s = (x, s') -> served_row r s'.
Proof. intros Hs H. eapply served_keeps; [|exact Hs|exact H]. auto with keeps. Qed.

(** The first steps of every join: the caller is subscribed at once. *)
Lemma first_subscription (others_row : bool) r s x s' : seen r s ->
  (if others_row then _subscribe_user r (Some u) else mret r) s = (Ok x, s') ->
  if others_row then served_row x s' else seen x s'.
Proof.
  intros Hs H. destruct others_row; [by apply subscribe_user_served in H as [H _]|]. by injection H as <- <-.
Qed.
Lemma second_subscription (others_row : bool) r s x s' : (if others_row then served_row r s else seen r s) ->
  (if others_row then mret r else _subscribe_dedup_winner r (Some u)) s = (Ok x, s') -> served_row x s'.
Proof.
  intros Hs H. destruct others_row; [by injection H as <- <-|]. by apply winner_served in H as [H _].
Qed.

Lemma join_active_served again r s x s' : again_serves again -> seen r s ->
  join_active tmdb library tmdb_id media_type (Some u) actor_is_admin seasons episodes expand_shared_tv again r s
  = (Ok x, s') -> served x s'.
Proof.
  intros Ha Hs H. unfold join_active in H. set (o := foreign _ _ r) in H.
  apply bind_result in H as (r1 & s1 & H1 & H). apply first_subscription in H1; [|done].
  destruct (o && _) eqn:Ho in H.
  { injection H as <- <-. apply andb_prop in Ho as [-> _]. by apply joined_served. }
  apply bind_result in H as (r2 & s2 & H2 & H). apply second_subscription in H2; [|done].
  apply bind_result in H as (r3 & s3 & H3 & H). apply serving_user in H3; [|done].
  apply bind_result in H as ([] & s4 & H4 & H). injection H4 as <-.
  destruct (is_tv media_type) in H; [|injection H as <- <-; by apply joined_served].
  apply bind_result in H as (plan & s5 & H5 & H). apply (plan_served r3) in H5; [|done].
  eapply grow_or_again_served; [done| |done|exact H]. intros. by eapply as_it_is_served.
Qed.

Definition served_presence (p : presence) (s : session db Empty_set) : Prop :=
  match p with Answered x => served x s | Create st _ => always (since n0) s /\ (st = available -> is_tv media_type = false) end.

Lemma answer_active_served r s p s' : seen r s ->
  answer_active (Some u) actor_is_admin expand_shared_tv r s = (Ok p, s') -> served_presence p s'.
Proof.
  intros Hs H. unfold answer_active in H. apply bind_result in H as (r1 & s1 & H1 & H).
  assert (served_row r1 s1) as Hr.
  { destruct (foreign _ _ r); [by apply subscribe_user_served in H1 as [? _] | by apply winner_served in H1 as [? _]]. }
  destruct (foreign _ _ r && _) in H; [|apply bind_result in H as (? & ? & [= <- <-] & H)];
    injection H as <- <-; by apply joined_served.
Qed.

Lemma answer_in_library_served r s p s' : seen r s ->
  answer_in_library (Some u) actor_is_admin r s = (Ok p, s') -> served_presence p s'.
Proof.
  intros Hs H. unfold answer_in_library in H. destruct (foreign _ _ r) in H; apply bind_result in H as (r1 & s1 & H1 & H).
  - injection H as <- <-. apply subscribe_user_served in H1 as [? _]; [|done]. by apply joined_served.
  - apply bind_result in H as (? & ? & [= <- <-] & H). injection H as <- <-.
    apply winner_served in H1 as [? _]; [|done]. by apply joined_served.
Qed.

Lemma answer_all_present_served plan r s p s' : seen r s ->
  answer_all_present library tmdb_id (Some u) actor_is_admin seasons episodes expand_shared_tv plan r s = (Ok p, s') ->
  served_presence p s'.
Proof.
  intros Hs H. unfold answer_all_present in H. set (o := foreign _ _ r) in H.
  apply bind_result in H as (r1 & s1 & H1 & H). apply first_subscription in H1; [|done].
  destruct (o && _) eqn:Ho in H.
  { injection H as <- <-. apply andb_prop in Ho as [-> _]. by apply joined_served. }
  apply bind_result in H as (r2 & s2 & H2 & H). apply second_subscription in H2; [|done].
  apply bind_result in H as (? & s3 & H3 & H). eapply served_keeps in H3; [|intros; apply keeps_rollback|exact H2].
  apply bind_result in H as (? & s4 & H4 & H). eapply served_keeps in H4; [|auto with keeps|exact H3].
  apply bind_result in H as (? & s5 & H5 & H). eapply served_keeps in H5; [|auto with keeps|exact H4].
  apply bind_result in H as (? & s6 & H6 & H). eapply served_keeps in H6; [|intros; apply keeps_commit|exact H5].
  apply bind_result in H as (r3 & s7 & H7 & H). injection H as <- <-. apply served_get_or in H7 as [H7 _]; [|done].
  by apply joined_served.
Qed.

Lemma join_active_present_served again plan r s p s' : again_serves again -> seen r s ->
  join_active_present library tmdb_id (Some u) actor_is_admin seasons episodes expand_shared_tv again plan r s = (Ok p, s') ->
  served_presence p s'.
Proof.
  intros Ha Hs H. unfold join_active_present in H. set (o := foreign _ _ r) in H.
  apply bind_result in H as (r1 & s1 & H1 & H). apply first_subscription in H1; [|done].
  destruct (o && _) eqn:Ho in H.
  { injection H as <- <-. apply andb_prop in Ho as [-> _]. by apply joined_served. }
  apply bind_result in H as (r2 & s2 & H2 & H). apply second_subscription in H2; [|done].
  apply bind_result in H as (y & s3 & H3 & H). injection H as <- <-.
  eapply grow_or_again_served; [done| |done|exact H3]. intros. by eapply as_it_is_served.
Qed.

(** The queries for a row of the title. *)
Lemma of_title_key r : of_title tmdb_id media_type r = true -> title_key r = t.
Proof.
  unfold of_title. intros [Ha Hb]%andb_prop. apply bool_decide_eq_true in Hb. unfold title_key. f_equal; [lia | done].
Qed.

Lemma find_active_rows d r : (find_active tmdb_id media_type d).1 = Ok (Some r) ->
  r ∈ media_requests d /\ title_key r = t.
Proof.
  intros [= H]. apply List.find_some in H as [H1 H2]. apply list_elem_of_In in H1. split; [done|].
  apply andb_prop in H2 as [H2 _]. by apply of_title_key.
Qed.

Lemma find_in_library_rows p d r : (find_in_library tmdb_id media_type p d).1 = Ok (Some r) ->
  r ∈ media_requests d /\ title_key r = t.
Proof.
  intros [= H]. assert (forall q (l : list MediaRequest.t), head (reverse (select q l)) = Some r -> r ∈ l /\ q r = true) as Hh.
  { intros q l Hr%head_Some_elem_of.
    apply elem_of_reverse, elem_filter_list in Hr. done. }
  destruct p as [v|].
  - assert (r ∈ py_sort (key_lt (ownership_rank v)) (reverse (select (fun r => of_title tmdb_id media_type r
      && in_statuses [available; completed] r) (media_requests d)))) as Hr.
    { by apply head_Some_elem_of. }
    rewrite elem_of_py_sort, elem_of_reverse in Hr. apply elem_filter_list in Hr as [Hr Hp].
    apply andb_prop in Hp as [Hp _]. split; [done | by apply of_title_key].
  - apply Hh in H as [Hr Hp]. apply andb_prop in Hp as [Hp _]. split; [done | by apply of_title_key].
Qed.

Lemma read_active s o s' : always (since n0) s -> reads (find_active tmdb_id media_type) s = (Ok o, s') ->
  always (since n0) s' /\ match o with Some r => seen r s' | None => True end.
Proof.
  intros Hs H. split; [eapply kept_after; [|exact Hs|exact H]; auto with keeps|].
  destruct o as [r|]; [|done]. apply reads_seen in H as [H _]; [done|done|]. intros d r'. apply find_active_rows.
Qed.

Lemma read_in_library p s o s' : always (since n0) s -> reads (find_in_library tmdb_id media_type p) s = (Ok o, s') ->
  always (since n0) s' /\ match o with Some r => seen r s' | None => True end.
Proof.
  intros Hs H. split; [eapply kept_after; [|exact Hs|exact H]; auto with keeps|].
  destruct o as [r|]; [|done]. apply reads_seen in H as [H _]; [done|done|]. intros d r'. apply find_in_library_rows.
Qed.

Lemma kept_uncorroborated P `{!Tolerated P} port : keeps (always P) (uncorroborated tmdb_id media_type port).
Proof.
  unfold uncorroborated. apply keeps_bind; [auto with keeps|]. intros [path|]; auto with keeps.
Qed.

Lemma movie_presence_served port s p s' : is_tv media_type = false -> always (since n0) s ->
  movie_presence tmdb_id media_type (Some u) actor_is_admin force expand_shared_tv port s = (Ok p, s') ->
  served_presence p s'.
Proof.
  intros Hmv Hs H. unfold movie_presence in H.
  apply bind_result in H as (pp & s1 & H1 & H). eapply kept_after in H1; [|destruct force; unfold _already_in_library; auto with keeps|exact Hs].
  apply bind_result in H as (bc & s2 & H2 & H).
  eapply kept_after in H2; [|destruct (pp && _); [apply kept_uncorroborated, _ | auto with keeps]|exact H1].
  apply bind_result in H as (ex & s3 & H3 & H).
  assert (always (since n0) s3 /\ match ex with Some r => seen r s3 | None => True end) as [Hs3 Hx].
  { destruct pp in H3; [|by injection H3 as <- <-]. apply bind_result in H3 as (? & s4 & H4 & H3).
    eapply kept_after in H4; [|auto with keeps|exact H2]. by apply read_active in H3. }
  destruct ex as [r|]; [by eapply answer_active_served|].
  destruct force in H; [by injection H as <- <-|].
  apply bind_result in H as (ev & s4 & H4 & H). eapply kept_after in H4; [|auto with keeps|exact Hs3].
  destruct ev in H; [by injection H as <- <-|]. destruct pp in H; [|by injection H as <- <-].
  apply bind_result in H as (il & s5 & H5 & H). apply read_in_library in H5 as [Hs5 Hr]; [|done].
  destruct il as [r|]; [by eapply answer_in_library_served | by injection H as <- <-].
Qed.

Lemma tv_presence_served again port plan s p s' : again_serves again -> always (since n0) s ->
  tv_presence library tmdb_id media_type (Some u) actor_is_admin seasons episodes expand_shared_tv again port plan s
  = (Ok p, s') -> served_presence p s'.
Proof.
  intros Ha Hs H. unfold tv_presence in H.
  apply bind_result in H as (pr & s1 & H1 & H). eapply kept_after in H1; [|auto with keeps|exact Hs].
  destruct (bool_decide _) in H; [by injection H as <- <-|].
  apply bind_result in H as (? & s2 & H2 & H). eapply kept_after in H2; [|auto with keeps|exact H1].
  apply bind_result in H as (ex & s3 & H3 & H). apply read_active in H3 as [Hs3 Hx]; [|done].
  destruct ex as [r|]; [by eapply join_active_present_served|].
  apply bind_result in H as (gone & s4 & H4 & H). eapply kept_after in H4; [|auto with keeps|exact Hs3].
  unfold all_present_or_create in H. apply bind_result in H as (il & s5 & H5 & H).
  assert (always (since n0) s5 /\ match il with Some r => seen r s5 | None => True end) as [Hs5 Hl].
  { destruct (issuperset _ _) in H5; [|by injection H5 as <- <-]. by apply read_in_library in H5. }
  destruct il as [r|]; [by eapply answer_all_present_served|].
  apply bind_result in H as (? & s6 & H6 & H). injection H as <- <-. split; [|done]. eapply kept_after; [|exact Hs5|exact H6]. auto with keeps.
Qed.

Lemma create_known title st det er now d r d' : since n0 d ->
  create tmdb_id media_type title st (Some u) det er now d = (Ok (Some r), d') ->
  title_key r = t /\ (n0 <= MediaRequest.id r)%Z /\ known u n0 (MediaRequest.id r) t d'.
Proof.
  intros Hs H. unfold create in H. apply bind_result in H as (i & d1 & H1 & H).
  assert (titled n0 i t d1 /\ (n0 <= i)%Z) as [Ht Hi].
  { match type of H1 with insert_request ?row d = _ =>
      pose proof (stable_insert_request (P := since n0) row (fun _ => eq_refl) d Hs) as Hs1; rewrite H1 in Hs1;
      set (new := row) in * end.
    unfold insert_request in H1. destruct (bool_decide _); [|done]. injection H1 as <- <-. split; [|apply Hs].
    change (next_request_id d) with (MediaRequest.id (new (next_request_id d))).
    apply row_titled; [done| |done]. simpl. apply elem_of_app. right. by apply list_elem_of_singleton. }
  apply bind_result in H as (? & d2 & H2 & H). apply add_subscriber_known in H2; [|done].
  injection H as Hf <-. apply find_row in Hf as [Hf <-]. split; [|done]. destruct H2 as [(_ & _ & Htt) _]. by apply Htt.
Qed.

Lemma insert_new_served detail st er plan s x s' : always (since n0) s ->
  insert_new library tmdb_id media_type (Some u) actor_is_admin seasons episodes detail st er plan s = (Ok x, s') ->
  served x s' /\ (is_tv media_type = false -> created x = true).
Proof.
  intros Hs H. unfold insert_new in H. apply bind_result in H as (o & s1 & H1 & H).
  destruct o as [r|]; [|done]. assert (title_key r = t /\ (n0 <= MediaRequest.id r)%Z /\
    now_holds (known u n0 (MediaRequest.id r) t) s1) as (Ht & Hi & Hk).
  { apply (arrive_always (since n0)) in Hs as [Hs _]. unfold writes in H1.
    destruct (create _ _ _ _ _ _ _ _ _) as [y d] eqn:E. injection H1 as -> <-. by eapply create_known. }
  apply bind_result in H as (? & s2 & H2 & H).
  apply (keeps_result (now_holds (known u n0 (MediaRequest.id r) t))) in H2; [| |done].
  2: { destruct (bool_decide _); [apply keeps_bind; [now_method | auto with keeps] | auto with keeps]. }
  apply bind_result in H as (? & s3 & H3 & H).
  apply (keeps_result (now_holds (known u n0 (MediaRequest.id r) t))) in H3; [| |done].
  2: { destruct (is_tv media_type); [|auto with keeps]. intros s4 Hs4. unfold _ensure_tv_season_plan.
       refine (now_writes _ _ _ _ Hs4). intros now. apply keeps_bind; [by_method | auto with keeps]. }
  apply bind_result in H as (? & s4 & H4 & H). apply (now_commit _ _ _ _ H3) in H4.
  assert (served_row r s4) as Hr by done.
  destruct (is_tv media_type) in H |- *; [|by injection H as <- <-].
  split; [|done]. unfold settle_new_show in H. apply bind_result in H as (r1 & s5 & H5 & H).
  apply served_get_or in H5 as [H5 Hid]; [|done]. destruct (in_statuses _ r1) in H.
  2: { injection H as <- <-. split; [done|]. simpl. lia. }
  apply bind_result in H as (w & s6 & H6 & H). apply collapse_served in H6; [|done].
  destruct (has_id _ w) eqn:Hw in H.
  { injection H as <- <-. split; [done|]. simpl. unfold has_id in Hw. lia. }
  apply bind_result in H as (? & s7 & H7 & H). eapply served_keeps in H7; [|auto with keeps|exact H6].
  apply bind_result in H as (? & s8 & H8 & H). eapply served_keeps in H8; [|auto with keeps|exact H7].
  apply bind_result in H as (? & s9 & H9 & H). eapply served_keeps in H9; [|intros; apply keeps_commit|exact H8].
  apply bind_result in H as (w' & s10 & H10 & H). injection H as <- <-. apply served_get_or in H10 as [H10 _]; [|done].
  by apply joined_served.
Qed.

Lemma lost_race_served again e s x s' : again_serves again -> always (since n0) s ->
  lost_race tmdb library tmdb_id media_type (Some u) actor_is_admin seasons episodes expand_shared_tv again e s
  = (Ok x, s') -> served x s'.
Proof.
  intros Ha Hs H. unfold lost_race in H.
  apply bind_result in H as (? & s1 & H1 & H). eapply kept_after in H1; [|auto with keeps|exact Hs].
  apply bind_result in H as (? & s2 & H2 & H). eapply kept_after in H2; [|auto with keeps|exact H1].
  apply bind_result in H as (w & s3 & H3 & H). apply read_active in H3 as [Hs3 Hx]; [|done].
  destruct w as [r|].
  2: { apply bind_result in H as (? & s4 & H4 & H). eapply kept_after in H4; [|auto with keeps|exact Hs3].
       destruct again as [m|]; [by eapply Ha | done]. }
  cbn zeta in H. set (o := foreign _ _ r) in H.
  apply bind_result in H as (r1 & s4 & H4 & H). apply first_subscription in H4; [|done].
  destruct (o && _) eqn:Ho in H.
  { injection H as <- <-. apply andb_prop in Ho as [-> _]. by apply joined_served. }
  apply bind_result in H as (r2 & s5 & H5 & H). apply second_subscription in H5; [|done].
  apply bind_result in H as (? & ? & [= <- <-] & H).
  destruct (is_tv media_type) in H; [|injection H as <- <-; by apply joined_served].
  apply bind_result in H as (plan & s6 & H6 & H). apply (plan_served r2) in H6; [|done].
  eapply grow_or_again_served; [done| |done|exact H]. done.
Qed.

Lemma kept_insert_new P `{!Growing P, !Tolerated P} detail st er plan :
  keeps (always P) (insert_new library tmdb_id media_type (Some u) actor_is_admin seasons episodes detail st er plan).
Proof.
  unfold insert_new. apply keeps_bind; [refine (keeps_writes _ _ _); by_method|]. intros [r|]; [|auto with keeps].
  apply keeps_bind.
  { apply keeps_if; [|auto with keeps]. apply keeps_bind; [refine (keeps_writes _ _ _); by_method | auto with keeps]. }
  intros _. apply keeps_bind; [apply keeps_if; auto with keeps|]. intros _. apply keeps_bind; [auto with keeps|]. intros _.
  apply keeps_if; [|auto with keeps]. unfold settle_new_show. apply keeps_bind; [auto with keeps|]. intros r1.
  apply keeps_if; [|auto with keeps]. apply keeps_bind; [auto with keeps|]. intros w. apply keeps_if; auto 10 with keeps.
Qed.

Lemma create_new_served again detail st er plan s x s' : again_serves again -> always (since n0) s ->
  (st = available -> is_tv media_type = false) ->
  create_new tmdb library tmdb_id media_type (Some u) actor_is_admin seasons episodes expand_shared_tv again
    detail st er plan s = (Ok x, s') -> served x s'.
Proof.
  intros Ha Hs Hst H. unfold create_new in H. apply bind_result in H as (r & s1 & H1 & H).
  pose proof (kept_insert_new (since n0) detail st er plan) as Hk.
  apply try_result in H1 as [H1|(e & s2 & H1 & _ & H2)].
  - apply bind_result in H1 as (y & s2 & H1 & H2). injection H2 as <- <-.
    apply insert_new_served in H1 as [Hy Hc]; [|done].
    destruct (bool_decide _) eqn:Hb in H; [|by injection H as <- <-]. apply bool_decide_eq_true in Hb.
    apply bind_result in H as (w & s3 & H3 & H). injection H as <- <-. destruct Hy as [E1 E2].
    apply collapse_served in H3; [|done]. split; [done|]. simpl. unfold has_id. specialize (E2 (Hc (Hst Hb))). lia.
  - apply bind_result in H2 as (y & s3 & H3 & H2). injection H2 as <- <-. injection H as <- <-.
    eapply lost_race_served; [done| |exact H3].
    eapply (kept_after (since n0)); [|exact Hs|exact H1]. apply keeps_bind; [done | auto with keeps].
Qed.

Lemma attempt_served again : again_serves again ->
  serves (attempt tmdb library tmdb_id media_type (Some u) actor_is_admin seasons episodes force expand_shared_tv again).
Proof.
  intros Ha s x s' Hs H. unfold attempt in H. apply bind_result in H as (o & s1 & H1 & H).
  apply read_active in H1 as [Hs1 _]; [|done]. apply bind_result in H as (ex & s2 & H2 & H).
  assert (always (since n0) s2 /\ match ex with Some r => seen r s2 | None => True end) as [Hs2 Hx].
  { destruct o; [|by injection H2 as <- <-]. apply bind_result in H2 as (? & s3 & H3 & H2).
    eapply kept_after in H3; [|auto with keeps|exact Hs1].
    apply bind_result in H2 as (o & s4 & H4 & H2). apply read_active in H4 as [Hs4 Ho]; [|done].
    apply bind_result in H2 as (? & s5 & H5 & H2). injection H2 as <- <-. destruct o as [r|]; [by injection H5 as <- <-|].
    split; [|done]. eapply kept_after; [|exact Hs4|exact H5]. apply keeps_rollback. }
  destruct ex as [r|]; [by eapply join_active_served|].
  apply bind_result in H as (d & s3 & H3 & H). eapply kept_after in H3; [|auto with keeps|exact Hs2].
  apply bind_result in H as (plan & s4 & H4 & H). eapply kept_after in H4; [|apply keeps_if; auto with keeps|exact H3].
  apply bind_result in H as (p & s5 & H5 & H). assert (served_presence p s5) as Hp.
  { unfold look_in_library in H5. destruct library as [port|] eqn:El in H5; [|by injection H5 as <- <-].
    destruct media_type eqn:Em in H5.
    - assert (is_tv media_type = false) by (unfold is_tv; by rewrite Em). rewrite <- Em in H5. by eapply movie_presence_served.
    - destruct (_ && _) in H5; [|by injection H5 as <- <-]. rewrite <- El, <- Em in H5. by eapply tv_presence_served. }
  destruct p as [y|st er]; [by injection H as <- <-|]. destruct Hp as [Hp Hst]. by eapply create_new_served.
Qed.

Lemma attempts_served more :
  serves (attempts tmdb library tmdb_id media_type (Some u) actor_is_admin seasons episodes force expand_shared_tv more).
Proof. induction more as [|n IH]; cbn [attempts]; apply attempt_served; [done | exact IH]. Qed.

End served.

(** [MediaType.value]. *)
Definition media_value (k : MediaType) : list N := match k with movie => lit "movie" | tv => lit "tv" end.


(** *** A race for one title *)

Section race.
#[local] Existing Instance ascii_db.

Definition film : _Detail :=
  {| d_title := lit "Film"; d_year := Some 1999%Z; d_is_anime := false; d_poster_url := None;
     d_backdrop_url := None; season_count := 0 |}.
Definition film_metadata : MetadataPort :=
  {| get_movie := fun _ _ => Ok (Some film); get_tv_show := fun _ _ => Ok None |}.

(** User 2's request for the film is committed between user 1's look for an
    active request and user 1's insert. *)
Definition rival : DBM (option MediaRequest.t) :=
  create 11 movie (lit "Film") pending (Some 2%Z)
    {| year := None; is_anime := None; poster_url := None; backdrop_url := None; tv_request_mode := None;
       requested_seasons_json := None; requested_episodes_json := None |} false 50.
Definition racing : Others db :=
  {| others := fun n d => if (n =? 2)%nat then (rival d).2 else d; clock := fun n => Z.of_nat n |}.
Definition start : session db Empty_set := {| tables := empty_db; saved := None; moment := 0; trail := [] |}.


End race.

(** ** Intents *)

(** What a television request asks for: an episode of a season, when it asks
    for the whole show or for the season, and for no other episodes of it.
    This is how the search and the episode service read the columns. *)
Definition asks (whole : bool) (requested : list Z) (wanted : gmap Z (list Z)) (season episode : Z) : Prop :=
  whole = true \/
  ((season ∈ requested \/ is_Some (wanted !! season)) /\
   match wanted !! season with Some ((_ :: _) as l) => episode ∈ l | _ => True end).

Definition intent_asks (i : intent) (season episode : Z) : Prop :=
  asks (bool_decide (i.1.1 = lit "whole_show")) (default [] i.1.2) (list_to_map (default [] i.2)) season episode.

(** Every list of episodes names one. *)
Definition episodes_named (m : gmap Z (list Z)) : Prop := forall n l, m !! n = Some l -> l <> [].

(** The merged sets, whose keys are among the requested seasons. *)
Definition pair_asks (acc : list Z * gmap Z (list Z)) (season episode : Z) : Prop :=
  season ∈ acc.1 /\ match acc.2 !! season with Some l => episode ∈ l | None => True end.
Definition pair_ok (acc : list Z * gmap Z (list Z)) : Prop :=
  episodes_named acc.2 /\ forall n, is_Some (acc.2 !! n) -> n ∈ acc.1.

Lemma sorted_set_named l : l <> [] -> sorted_set l <> [].
Proof. by rewrite sorted_set_nil. Qed.

Lemma add_episodes_ok acc season values : pair_ok acc -> values <> [] ->
  pair_ok (add_episodes acc.1 acc.2 season values).
Proof.
  intros [Hn Hk] Hv. destruct acc as [req eps]. unfold add_episodes, pair_ok in *; simpl in *.
  destruct (mem season req && _); [done|]. split; simpl.
  - intros n l. destruct (decide (n = season)) as [->|Hne].
    + rewrite lookup_insert_eq. intros [= <-]. apply sorted_set_named. intros [_ ?]%app_eq_nil. done.
    + rewrite lookup_insert_ne by done. apply Hn.
  - intros n. destruct (decide (n = season)) as [->|Hne]; [left|]. rewrite lookup_insert_ne by done.
    right. by apply Hk.
Qed.

Lemma add_episodes_asks acc season values s e : pair_ok acc ->
  pair_asks (add_episodes acc.1 acc.2 season values) s e <-> pair_asks acc s e \/ (s = season /\ e ∈ values).
Proof.
  intros [Hn Hk]. destruct acc as [req eps]. unfold add_episodes, pair_asks in *; simpl in *.
  destruct (mem season req && _) eqn:Hw; simpl.
  - apply andb_prop in Hw as [H1 H2]. apply mem_true in H1. split; [by left|]. intros [?|[-> _]]; [done|].
    split; [done|]. by destruct (eps !! season).
  - destruct (decide (s = season)) as [->|Hne].
    + rewrite lookup_insert_eq, elem_of_sorted_set, elem_of_app, elem_of_cons. destruct (eps !! season) as [l|] eqn:El; simpl.
      * assert (season ∈ req) by (apply Hk; eauto). tauto.
      * rewrite elem_of_nil. apply andb_false_iff in Hw as [Hw|Hw]; [|done]. apply mem_false in Hw. tauto.
    + rewrite lookup_insert_ne, elem_of_cons by done. tauto.
Qed.

Lemma fold_add_asks l acc s e : pair_ok acc -> Forall (fun sv : Z * list Z => sv.2 <> []) l ->
  let out := foldl (fun acc sv => add_episodes acc.1 acc.2 sv.1 sv.2) acc l in
  pair_ok out /\ (pair_asks out s e <-> pair_asks acc s e \/ exists values, (s, values) ∈ l /\ e ∈ values).
Proof.
  revert acc. induction l as [|[n v] l IH]; intros acc Hok Hv; simpl.
  - split; [done|]. split; [by left|]. intros [?|(? & []%elem_of_nil & _)]. done.
  - apply Forall_cons in Hv as [Hv Hl]. simpl in Hv.
    destruct (IH _ (add_episodes_ok acc n v Hok Hv) Hl) as [H1 H2]. split; [done|].
    rewrite H2, add_episodes_asks by done. split.
    + intros [[?|[-> ?]]|(w & ? & ?)]; [by left| |]; right; eexists; (split; [|done]); [left | by right].
    + intros [?|(w & [[= -> ->]|?]%elem_of_cons & ?)]; [by left; left| |]; [left; right | right]; eauto.
Qed.

Lemma merged_intent_asks req eps s e : pair_ok (req, eps) ->
  intent_asks (merged_intent req eps) s e <-> pair_asks (req, eps) s e.
Proof.
  intros [Hn Hk]. unfold merged_intent, pair_asks. simpl in *.
  destruct (bool_decide (eps = ∅)) eqn:He; unfold intent_asks, asks; simpl.
  - apply bool_decide_eq_true in He as ->. change (list_to_map []) with (∅ : gmap Z (list Z)).
    rewrite lookup_empty, elem_of_sorted_set. split; [intros [?|[[?|[? ?]] _]]; done|]. intros [? _]. right. split; [by left|done].
  - rewrite list_to_map_to_list, elem_of_sorted_set. specialize (Hn s). specialize (Hk s).
    destruct (eps !! s) as [l|].
    + assert (s ∈ req) by (apply Hk; eauto). destruct l as [|x l]; [by destruct (Hn [])|].
      split; [intros [?|[_ ?]]; [done|tauto] | intros [_ ?]; right; tauto].
    + split; [intros [?|[[?|[? ?]] _]]; [done|tauto|done] | intros [? _]; right; tauto].
Qed.

Lemma delete_all_lookup (l : list Z) (m : gmap Z (list Z)) s :
  foldl (fun m season => base.delete season m) m l !! s = if mem s l then None else m !! s.
Proof.
  revert m. induction l as [|n l IH]; intros m; [done|]. simpl. rewrite IH. unfold mem.
  destruct (decide (n = s)) as [->|Hne].
  - rewrite lookup_delete_eq, (bool_decide_true (s ∈ s :: l)) by left. by case_bool_decide.
  - rewrite lookup_delete_ne by done. destruct (decide (s ∈ l)).
    + by rewrite !bool_decide_true by (by try right).
    + rewrite !bool_decide_false; [done| |done]. by intros [?|?]%elem_of_cons.
Qed.

(** An intent a caller may give: a dict of lists that name an episode, whose
    keys can be printed and read back. *)
Definition printable (n : Z) : Prop := (length (str_of_N (Z.abs_N n)) <= max_str_digits)%nat.
Definition well_asked (l : list (Z * list Z)) : Prop :=
  NoDup l.*1 /\ Forall (fun sv : Z * list Z => sv.2 <> [] /\ printable sv.1) l.
Definition well_stored (m : gmap Z (list Z)) : Prop :=
  forall n l, m !! n = Some l -> l <> [] /\ printable n.

Lemma fold_add_keys l acc n :
  is_Some ((foldl (fun acc sv => add_episodes acc.1 acc.2 sv.1 sv.2) acc l).2 !! n) ->
  is_Some (acc.2 !! n) \/ n ∈ l.*1.
Proof.
  revert acc. induction l as [|[k v] l IH]; intros acc H; simpl in *; [by left|].
  apply IH in H as [H|H]; [|right; by right]. unfold add_episodes in H. destruct (_ && _); simpl in H; [by left|].
  destruct (decide (n = k)) as [->|Hne]; [right; left|]. rewrite lookup_insert_ne in H by done. by left.
Qed.

Lemma own_asks rs (m : gmap Z (list Z)) s e : episodes_named m ->
  pair_ok (default [] rs ++ (map_to_list m).*1, sorted_set <$> m) /\
  (pair_asks (default [] rs ++ (map_to_list m).*1, sorted_set <$> m) s e <-> asks false (default [] rs) m s e).
Proof.
  intros Hm. assert (forall n, n ∈ (map_to_list m).*1 <-> is_Some (m !! n)) as Hk.
  { intros n. rewrite list_elem_of_fmap. split.
    - intros ([k l] & -> & H%elem_of_map_to_list). simpl. eauto.
    - intros [l H]. exists (n, l). split; [done|]. by apply elem_of_map_to_list. }
  split.
  - split; simpl.
    + intros n l. rewrite lookup_fmap, fmap_Some. intros (l' & Hl & ->). apply sorted_set_named. by eapply Hm.
    + intros n. rewrite lookup_fmap, fmap_is_Some, elem_of_app. right. by apply Hk.
  - unfold pair_asks, asks. simpl. rewrite elem_of_app, Hk, lookup_fmap. specialize (Hm s).
    destruct (m !! s) as [[|x l]|]; simpl; [by destruct (Hm [])| |].
    + rewrite elem_of_sorted_set. split; [intros [? ?]; right; done | intros [?|?]; done].
    + split; [intros [? _]; right; done | intros [?|[? _]]; done].
Qed.

Lemma incoming_asks l s e : well_asked l ->
  intent_asks (lit "explicit_episodes", Some (sorted_set l.*1), Some ((fun '(n, v) => (n, sorted_set v)) <$> l)) s e <->
  exists values, (s, values) ∈ (fun '(n, v) => (n, sorted_set v)) <$> l /\ e ∈ values.
Proof.
  intros [Hnd Hv]. unfold intent_asks, asks. simpl. set (l' := (fun '(n, v) => (n, sorted_set v)) <$> l).
  assert (l'.*1 = l.*1) as Hl' by (unfold l'; rewrite <- list_fmap_compose; apply list_fmap_ext; by intros i [n v] _).
  assert (forall n v, (list_to_map l' : gmap Z (list Z)) !! n = Some v <-> (n, v) ∈ l') as Hm.
  { intros n v. symmetry. apply elem_of_list_to_map. by rewrite Hl'. }
  rewrite elem_of_sorted_set. split.
  - intros [?|[Hs He]]; [done|]. assert (is_Some ((list_to_map l' : gmap Z (list Z)) !! s)) as [v Hsv].
    { destruct Hs as [Hs|?]; [|done]. rewrite <- Hl' in Hs. apply list_elem_of_fmap in Hs as ([n v] & -> & H).
      exists v. by apply Hm. }
    rewrite Hsv in He. pose proof Hsv as Hin. apply Hm in Hin. exists v. split; [done|].
    apply list_elem_of_fmap in Hin as ([n w] & [= -> ->] & Hw). rewrite Forall_forall in Hv. apply Hv in Hw as [Hw _].
    apply sorted_set_named in Hw. simpl in *. by destruct (sorted_set w).
  - intros (v & Hin & He). right. apply Hm in Hin as Hsv. rewrite Hsv. split; [right; eauto|]. by destruct v.
Qed.

Lemma merge_episodes_asks rs re l s e : episodes_named (default ∅ re) -> well_asked l ->
  let i := (lit "explicit_episodes", Some (sorted_set l.*1), Some ((fun '(n, v) => (n, sorted_set v)) <$> l)) in
  intent_asks (merge_intent rs re i) s e <-> asks false (default [] rs) (default ∅ re) s e \/ intent_asks i s e.
Proof.
  intros Hre Hl i. destruct (own_asks rs (default ∅ re) s e Hre) as [Hok Hown].
  rewrite <- Hown. unfold i at 2. rewrite (incoming_asks l s e Hl). unfold merge_intent, i. simpl.
  destruct Hl as [_ Hv].
  assert (Forall (fun sv : Z * list Z => sv.2 <> []) ((fun '(n, v) => (n, sorted_set v)) <$> l)) as Hn.
  { apply Forall_fmap. eapply Forall_impl; [exact Hv|]. intros [n v] [H _]. by apply sorted_set_named. }
  pose proof (fold_add_asks _ _ s e Hok Hn) as [H1 H2]. destruct (foldl _ _ _) as [req eps].
  rewrite merged_intent_asks by done. exact H2.
Qed.

Lemma merge_seasons_asks rs re l s e : episodes_named (default ∅ re) ->
  let i := (lit "explicit_seasons", Some (sorted_set l), None) in
  intent_asks (merge_intent rs re i) s e <-> asks false (default [] rs) (default ∅ re) s e \/ intent_asks i s e.
Proof.
  intros Hre i. destruct (own_asks rs (default ∅ re) s e Hre) as [[Ho1 Ho2] Hown].
  rewrite <- Hown. unfold merge_intent, i. simpl. rewrite merged_intent_asks.
  - unfold pair_asks, intent_asks, asks. simpl. rewrite delete_all_lookup, elem_of_app, elem_of_sorted_set.
    change (list_to_map []) with (∅ : gmap Z (list Z)). rewrite lookup_empty. unfold mem.
    destruct (decide (s ∈ l)) as [Hs|Hs].
    + rewrite bool_decide_true by (by apply elem_of_sorted_set). split; [intros _; right; right; tauto | intros _; tauto].
    + rewrite bool_decide_false by (by rewrite elem_of_sorted_set). split; [intros [[?|?] ?]; [by left | done]|].
      intros [[? ?]|[?|[[?|[? ?]] _]]]; try done. split; [by left | done].
  - split; simpl.
    + intros n v. rewrite delete_all_lookup. destruct (mem n _); [done | apply Ho1].
    + intros n. rewrite delete_all_lookup, elem_of_app. destruct (mem n _) eqn:Hn; [by intros []|]. intros H. left. by apply Ho2.
Qed.

Lemma merge_asks rs re seasons episodes s e : episodes_named (default ∅ re) ->
  (forall l, episodes = Some l -> well_asked l) ->
  intent_asks (merge_intent rs re (_tv_request_intent seasons episodes)) s e <->
  asks false (default [] rs) (default ∅ re) s e \/ intent_asks (_tv_request_intent seasons episodes) s e.
Proof.
  intros Hre Hep. unfold _tv_request_intent. destruct episodes as [[|x l]|].
  2: { apply merge_episodes_asks; auto. }
  all: destruct seasons as [[|n k]|]; [|by apply merge_seasons_asks|].
  all: unfold merge_intent, intent_asks, asks; simpl; split; [intros _; right; by left | intros _; by left].
Qed.

(** What a row asks for, as its columns are read. *)
Definition row_asks {DB : UnicodeDB} (r : MediaRequest.t) (m : option (gmap Z (list Z))) (s e : Z) : Prop :=
  _episode_map (requested_episodes_json (MediaRequest.details r)) = Ok m /\
  asks (is_whole_show r) (default [] (_season_tuple (requested_seasons_json (MediaRequest.details r)))) (default ∅ m) s e.

(** An intent that is written is read back. *)
Lemma intent_written {DB : UnicodeDB} (i : intent) : (forall l, i.2 = Some l -> well_asked l) ->
  exists m, _episode_map (_episode_json i.2) = Ok m /\ forall s e,
    asks (bool_decide (i.1.1 = lit "whole_show")) (default [] (_season_tuple (_season_json i.1.2))) (default ∅ m) s e
    <-> intent_asks i s e.
Proof.
  destruct i as [[mode req] eps]. simpl. intros Hw. assert (forall s, s ∈ default [] (_season_tuple (_season_json req)) <-> s ∈ default [] req) as Hreq.
  { intros s. destruct req as [l|]; [|done]. simpl. by rewrite !elem_of_sorted_set. }
  destruct eps as [l|].
  - destruct (Hw l eq_refl) as [Hnd Hv]. destruct (Hw l eq_refl) as [_ _].
    assert (Forall (fun x : Z * list Z => (length (str_of_N (Z.abs_N x.1)) <= max_str_digits)%nat) l) as Hp
      by (eapply Forall_impl; [exact Hv|]; by intros x [_ H]).
    unfold _episode_map, _episode_json. rewrite episode_items_json by done. eexists. split; [reflexivity|]. intros s e.
    set (l' := (fun '(season, episodes) => (season, sorted_set (sorted_set episodes))) <$> l). simpl.
    assert (l'.*1 = l.*1) as Hl' by (unfold l'; rewrite <- list_fmap_compose; apply list_fmap_ext; by intros i [n v] _).
    assert (forall s, match dict_of l' !! s, (list_to_map l : gmap Z (list Z)) !! s with
                      | Some v, Some w => v = sorted_set (sorted_set w) /\ w <> []
                      | None, None => True | _, _ => False end) as Hm.
    { intros n. destruct (list_to_map l !! n) as [w|] eqn:Ew.
      - apply elem_of_list_to_map_2 in Ew. rewrite (dict_of_NoDup l' n (sorted_set (sorted_set w))).
        + split; [done|]. rewrite Forall_forall in Hv. by apply Hv in Ew as [Ew _].
        + by rewrite Hl'.
        + apply list_elem_of_fmap. by exists (n, w).
      - assert (dict_of l' !! n = None) as ->; [|done]. apply dict_of_None. rewrite Hl'. by apply not_elem_of_list_to_map. }
    unfold intent_asks, asks. simpl. rewrite Hreq. specialize (Hm s).
    destruct (dict_of l' !! s) as [v|], (list_to_map l !! s) as [w|]; try done.
    destruct Hm as [-> Hn]. pose proof (sorted_set_named _ (sorted_set_named _ Hn)) as Hn'.
    assert (e ∈ sorted_set (sorted_set w) <-> e ∈ w) as He by (by rewrite !elem_of_sorted_set).
    destruct (sorted_set (sorted_set w)), w; try done. rewrite He.
    split; (intros [?|[_ ?]]; [by left | right; split; [right; eauto | done]]).
  - exists None. split; [done|]. intros s e. unfold intent_asks, asks. simpl. rewrite Hreq.
    change (list_to_map []) with (∅ : gmap Z (list Z)). done.
Qed.

Lemma merged_well_asked req eps : episodes_named eps -> (forall n, is_Some (eps !! n) -> printable n) ->
  forall l, (merged_intent req eps).2 = Some l -> well_asked l.
Proof.
  intros Hn Hp l. unfold merged_intent. destruct (bool_decide _); simpl; [done|]. intros [= <-].
  split; [apply NoDup_fst_map_to_list|]. apply Forall_forall. intros [n v] H%elem_of_map_to_list. simpl.
  split; [by eapply Hn | apply Hp; eauto].
Qed.

Lemma merge_well_asked rs re seasons episodes : well_stored (default ∅ re) ->
  (forall l, episodes = Some l -> well_asked l) ->
  forall l, (merge_intent rs re (_tv_request_intent seasons episodes)).2 = Some l -> well_asked l.
Proof.
  intros Hre Hep. assert (episodes_named (default ∅ re)) as Hnamed by (intros n v H; by apply Hre in H as [? _]).
  destruct (own_asks rs (default ∅ re) 0 0 Hnamed) as [[Ho1 Ho2] _]. simpl in Ho1, Ho2.
  assert (forall n, is_Some ((sorted_set <$> default ∅ re) !! n) -> printable n) as Hp.
  { intros n [v Hv]. rewrite lookup_fmap, fmap_Some in Hv. destruct Hv as (w & Hw & _). by apply Hre in Hw as [_ ?]. }
  unfold _tv_request_intent. destruct episodes as [[|x l]|].
  2: { specialize (Hep _ eq_refl) as Hl. unfold merge_intent. simpl default. cbv beta iota.
       rewrite bool_decide_true by done.
       set (inc := (fun '(n, v) => (n, sorted_set v)) <$> x :: l). set (acc := (_, sorted_set <$> default ∅ re)).
       assert (Forall (fun sv : Z * list Z => sv.2 <> []) inc) as Hn.
       { apply Forall_fmap. eapply Forall_impl; [apply Hl|]. intros [n v] [H _]. by apply sorted_set_named. }
       assert (pair_ok acc) as Hok by done.
       pose proof (fold_add_asks inc acc 0 0 Hok Hn) as [[H1 H2] _]. pose proof (fold_add_keys inc acc) as Hk.
       destruct (foldl _ _ _) as [req eps]. apply merged_well_asked; [done|]. intros n [Hs|Hs]%Hk; [by apply Hp|].
       assert (inc.*1 = (x :: l).*1) as E by (unfold inc; rewrite <- list_fmap_compose; apply list_fmap_ext; by intros i [a b] _).
       rewrite E in Hs. apply list_elem_of_fmap in Hs as (y & -> & Hy). destruct Hl as [_ Hl].
       rewrite Forall_forall in Hl. by apply Hl. }
  all: destruct seasons as [[|n k]|]; try by intros l'.
  all: unfold merge_intent; rewrite bool_decide_false by done; rewrite bool_decide_false by done;
    apply merged_well_asked; intros m; rewrite delete_all_lookup; (destruct (mem m _); [by try (intros [])|]);
    [apply Ho1 | apply Hp].
Qed.

Lemma active_keys_details p x (t : list MediaRequest.t) :
  active_keys (rewritten p (MediaRequest.assign_all [MediaRequest.set_details x]) t) = active_keys t.
Proof.
  unfold active_keys, rewritten. induction t as [|r t IH]; [done|]. cbn [fmap list_fmap].
  set (f := MediaRequest.assign_all [MediaRequest.set_details x]) in *.
  assert (is_active (if p r then f r else r) = is_active r) as E by (destruct (p r); by destruct r).
  cbn [List.filter]. rewrite E. destruct (is_active r); cbn [fmap list_fmap]; [|done].
  f_equal; [|done]. destruct (p r); by destruct r.
Qed.

Lemma set_intent_row d i mode req eps r : wf d -> row_of d i = Some r ->
  exists x, set_tv_request_intent i mode req eps d = (Ok tt, set_row i [MediaRequest.set_details x] d) /\
    tv_request_mode x = Some mode /\ requested_seasons_json x = _season_json req /\
    requested_episodes_json x = _episode_json eps.
Proof.
  intros Hw Hr. unfold row_of in Hr. unfold set_tv_request_intent, get, query, mbind, DBM_bind. rewrite Hr. cbv zeta.
  match goal with |- context [update_requests _ [MediaRequest.set_details ?x]] => set (new := x) end.
  unfold update_requests. rewrite active_keys_details, bool_decide_true by apply Hw. exists new.
  split; [reflexivity|]. done.
Qed.


(** A season asked for, then two episodes of it and one of another. *)
Definition asked_season : intent := (lit "explicit_seasons", Some [1%Z], None).
Definition season_row : MediaRequest.t :=
  MediaRequest.assign_all [MediaRequest.set_details
    {| year := None; is_anime := None; poster_url := None; backdrop_url := None;
       tv_request_mode := Some (lit "explicit_seasons"); requested_seasons_json := Some [1%Z];
       requested_episodes_json := None |}] (sample_request 1).
Definition season_db : db := with_requests [season_row] (with_keys 2 1 empty_db).


(** ** Joining *)

Section joining.
Context {DB : UnicodeDB} {W : Others db} (tmdb : MetadataPort) (library : option LibraryPort).
Context (tmdb_id : Z) (media_type : MediaType) (user_id : option Z) (actor_is_admin : bool).
Context (seasons : option (list Z)) (episodes : option (list (Z * list Z))) (force expand_shared_tv : bool).

(** Request [a] is active for the title. *)
Definition active_row (a : Z) (d : db) : Prop :=
  wf d /\ exists r, row_of d a = Some r /\ title_key r = (tmdb_id, media_type) /\ settled r = false.

Context (a : Z) (HN : Tolerated (active_row a)).
#[local] Hint Resolve HN : keeps.

Lemma is_active_settled r : is_active r = negb (settled r).
Proof. unfold is_active, settled, in_statuses. by destruct (MediaRequest.status r). Qed.

Lemma find_active_is d : active_row a d ->
  exists r, List.find (fun r => of_title tmdb_id media_type r && negb (settled r)) (media_requests d) = Some r /\
    MediaRequest.id r = a.
Proof.
  intros (Hw & r & Hr & Ht & Hs). apply find_row in Hr as [Hr Hid].
  assert (of_title tmdb_id media_type r && negb (settled r) = true) as Hp.
  { injection Ht as <- <-. unfold of_title. by rewrite Z.eqb_refl, bool_decide_true, Hs. }
  destruct (List.find _ _) as [r'|] eqn:Hf.
  2: { eapply List.find_none in Hf; [|by apply list_elem_of_In]. simpl in Hf. congruence. }
  exists r'. split; [done|]. apply List.find_some in Hf as [Hr' Hp']. apply list_elem_of_In in Hr'.
  apply andb_prop in Hp' as [Ht' Hs']. apply of_title_key in Ht'.
  assert (r' = r) as ->; [|done]. eapply (NoDup_fmap_inj title_key); [exact (wf_active d Hw)|..].
  - apply elem_filter_list. split; [done|]. by rewrite is_active_settled.
  - apply elem_filter_list. split; [done|]. by rewrite is_active_settled, Hs.
  - congruence.
Qed.

Lemma active_subscriber i v now : keeps (active_row a) (add_subscriber i v now).
Proof.
  intros d (Hw & r & Hr & Ht & Hs). split; [by apply wf_add_subscriber|]. exists r. split; [|done].
  unfold add_subscriber. destruct (is_subscribed _ _ _); [done|]. by destruct (mem _ _).
Qed.
#[local] Hint Resolve active_subscriber : keeps.

Lemma active_read (s : session db Empty_set) o s' : always (active_row a) s -> reads (find_active tmdb_id media_type) s = (o, s') ->
  always (active_row a) s' /\ exists r, o = Ok (Some r) /\ MediaRequest.id r = a.
Proof.
  intros Hs H. pose proof (keeps_reads (active_row a) (find_active tmdb_id media_type) s Hs) as Hs'.
  rewrite H in Hs'. split; [done|]. unfold reads in H. injection H as <- <-.
  destruct (find_active_is _ (proj1 Hs')) as (r & Hr & Hid). exists r. split; [|done]. f_equal. exact Hr.
Qed.

Lemma active_get r s o s' : MediaRequest.id r = a -> always (active_row a) s ->
  get_or (MediaRequest.id r) r s = (o, s') ->
  always (active_row a) s' /\ exists x, o = Ok x /\ MediaRequest.id x = a.
Proof.
  intros Hr Hs H. pose proof (always_get_or (active_row a) (MediaRequest.id r) r s Hs) as Hs'.
  rewrite H in Hs'. split; [done|]. unfold get_or, mbind, DBM_bind, reads in H. injection H as <- <-.
  eexists. split; [done|]. destruct (List.find _ _) as [x|] eqn:Hf; [|done]. apply find_row in Hf as [_ Hx]. simpl. congruence.
Qed.

Lemma active_user r s o s' : MediaRequest.id r = a -> always (active_row a) s ->
  _subscribe_user r user_id s = (o, s') ->
  always (active_row a) s' /\ forall x, o = Ok x -> x = r.
Proof.
  intros Hr Hs H. split.
  - eapply kept_after; [|exact Hs|exact H]. unfold _subscribe_user. destruct user_id; unfold subscribe; auto with keeps.
  - intros x ->. unfold _subscribe_user in H. destruct user_id; [|by injection H].
    apply bind_result in H as (? & ? & _ & H). apply bind_result in H as (? & ? & _ & H). by injection H.
Qed.

Lemma active_winner r s o s' : MediaRequest.id r = a -> always (active_row a) s ->
  _subscribe_dedup_winner r user_id s = (o, s') ->
  always (active_row a) s' /\ forall x, o = Ok x -> MediaRequest.id x = a.
Proof.
  intros Hr Hs H. unfold _subscribe_dedup_winner in H. destruct user_id as [u|].
  2: { injection H as <- <-. split; [done|]. by intros x [= <-]. }
  unfold mbind, DBM_bind in H.
  destruct (subscribe (MediaRequest.id r) u s) as [[?|e] s1] eqn:E1.
  2: { injection H as <- <-. split; [|done]. eapply kept_after; [|exact Hs|exact E1]. unfold subscribe. auto with keeps. }
  eapply kept_after in E1; [|unfold subscribe; auto with keeps|exact Hs].
  simpl in H. assert (always (active_row a) {| tables := tables s1; saved := None; moment := moment s1; trail := trail s1 |}) as Hs2
    by (destruct E1; done).
  apply active_get in H as (H1 & y & -> & Hy); [|done|done]. split; [done|]. by intros ? [= <-].
Qed.

Lemma active_grow r plan s o s' : MediaRequest.id r = a -> always (active_row a) s ->
  _grow_tv_dedup_join library r tmdb_id plan seasons episodes s = (Ok o, s') ->
  exists x, o = Some x /\ MediaRequest.id x = a.
Proof.
  intros Hr Hs H. unfold _grow_tv_dedup_join in H. apply bind_result in H as (? & s1 & H1 & H).
  eapply kept_after in H1; [|apply keeps_rollback|exact Hs].
  apply bind_result in H as (pr & s2 & H2 & H). eapply kept_after in H2; [|destruct library; [apply keeps_if; auto with keeps | auto with keeps]|exact H1].
  apply bind_result in H as (? & s3 & H3 & H). eapply kept_after in H3; [|auto with keeps|exact H2].
  apply bind_result in H as (f & s4 & H4 & H). pose proof H4 as H5. eapply kept_after in H4; [|auto with keeps|exact H3].
  unfold reads in H5. injection H5 as Hf <-. destruct H4 as [(_ & r' & Hr' & _ & Hset) _].
  unfold row_of in Hr'. assert (f = Some r') as -> by (rewrite <- Hr', <- Hf, Hr; reflexivity). unfold settled in Hset.
  change (in_statuses SETTLED_REQUEST_STATUS_VALUES r') with (in_statuses _SETTLED_REQUEST_STATUSES r') in H.
  rewrite Hset in H. apply find_row in Hr' as [_ Hid].
  apply bind_result in H as (? & s5 & H5 & H). apply bind_result in H as (? & s6 & H6 & H).
  apply bind_result in H as (? & s7 & H7 & H). apply bind_result in H as (w & s8 & H8 & H). injection H as <- <-.
  exists w. split; [done|]. unfold get_or in H8. apply bind_result in H8 as (y & s9 & H9 & H8). injection H8 as <- <-.
  destruct y as [y|]; [|done]. unfold reads in H9. injection H9 as H9 _. apply find_row in H9 as [_ H9]. simpl. congruence.
Qed.

Lemma active_attempt again s x s' : always (active_row a) s ->
  attempt tmdb library tmdb_id media_type user_id actor_is_admin seasons episodes force expand_shared_tv again s
  = (Ok x, s') -> MediaRequest.id (record x) = a /\ created x = false.
Proof.
  intros Hs H. unfold attempt in H. apply bind_result in H as (o & s1 & H1 & H).
  apply active_read in H1 as (Hs1 & r & [= ->] & Hr); [|done].
  apply bind_result in H as (ex & s2 & H2 & H). apply bind_result in H2 as (? & s3 & H3 & H2).
  eapply kept_after in H3; [|auto with keeps|exact Hs1]. apply bind_result in H2 as (o & s4 & H4 & H2).
  apply active_read in H4 as (Hs4 & r0 & [= ->] & Hr0); [|done]. apply bind_result in H2 as (? & ? & [= <- <-] & [= <- <-]).
  unfold join_active in H. set (f := foreign _ _ r0) in H.
  apply bind_result in H as (r1 & s5 & H5 & H).
  assert (always (active_row a) s5 /\ r1 = r0) as [Hs5 ->].
  { destruct f; [|by injection H5 as <- <-]. apply active_user in H5 as [? Hx]; [|done|done]. split; [done | by apply Hx]. }
  destruct (f && _) in H; [by injection H as <- <-|].
  apply bind_result in H as (r2 & s6 & H6 & H).
  assert (always (active_row a) s6 /\ MediaRequest.id r2 = a) as [Hs6 Hr2].
  { destruct f; [by injection H6 as <- <-|]. apply active_winner in H6 as [? Hx]; [|done|done]. split; [done | by apply Hx]. }
  apply bind_result in H as (r3 & s7 & H7 & H). apply active_user in H7 as [Hs7 Hx]; [|done|done].
  rewrite (Hx r3 eq_refl) in H. clear Hx.
  apply bind_result in H as (? & s8 & H8 & H).
  assert (always (active_row a) s8) as Hs8
    by (eapply kept_after; [|exact Hs7|exact H8]; unfold release_if_anonymous; destruct user_id; auto with keeps).
  destruct (is_tv media_type) in H; [|by injection H as <- <-].
  apply bind_result in H as (plan & s9 & H9 & H). eapply kept_after in H9; [|auto with keeps|exact Hs8].
  unfold grow_or_again in H. apply bind_result in H as (g & s10 & H10 & H).
  apply active_grow in H10 as (y & -> & Hy); [|done|done]. by injection H as <- <-.
Qed.

End joining.

(** C14: While a request for a title is active, and stays so as far as the
    other processes are concerned, every further request for it joins it: when
    [create_request_result] returns, it returns that request, not reported as
    created, for every caller, anonymous or not, whatever TMDB and Plex answer. *)
Theorem an_active_request_is_joined {DB : UnicodeDB} {W : Others db} tmdb library tmdb_id k user_id
    actor_is_admin seasons episodes force expand_shared_tv a s x s' :
  (forall n d, active_row tmdb_id k a d -> active_row tmdb_id k a (others n d)) ->
  always (active_row tmdb_id k a) s ->
  create_request_result tmdb library tmdb_id (media_value k) user_id actor_is_admin seasons episodes force
    expand_shared_tv s = (Ok x, s') ->
  MediaRequest.id (record x) = a /\ created x = false.
Proof.
  intros HN Hs H. unfold create_request_result in H. destruct k; simpl in H.
  - change (attempt tmdb library tmdb_id movie user_id actor_is_admin seasons episodes force expand_shared_tv
      (Some (attempts tmdb library tmdb_id movie user_id actor_is_admin seasons episodes force expand_shared_tv 1)) s
      = (Ok x, s')) in H. by eapply active_attempt.
  - change (attempt tmdb library tmdb_id tv user_id actor_is_admin seasons episodes force expand_shared_tv
      (Some (attempts tmdb library tmdb_id tv user_id actor_is_admin seasons episodes force expand_shared_tv 1)) s
      = (Ok x, s')) in H. by eapply active_attempt.
Qed.

Section alone.
#[local] Existing Instance ascii_db.

Definition alone : Others db := {| others := fun _ d => d; clock := fun n => Z.of_nat n |}.
Definition rival_first : session db Empty_set := {| tables := (rival empty_db).2; saved := None; moment := 0; trail := [] |}.

Lemma an_active_request_is_joined_witness : exists x s',
  @create_request_result ascii_db alone film_metadata None 11 (lit "movie") None false None None false false rival_first
    = (Ok x, s') /\ MediaRequest.id (record x) = 1%Z /\ created x = false.
Proof.
  destruct (@create_request_result ascii_db alone film_metadata None 11 (lit "movie") None false None None false false
    rival_first) as [[x|e] s'] eqn:E; [|vm_compute in E; discriminate].
  exists x, s'. split; [done|].
  eapply (@an_active_request_is_joined ascii_db alone film_metadata None 11 movie None false None None false false 1
    rival_first x s'); [done| |exact E].
  assert (active_row 11 movie 1 (tables rival_first)) as H.
  { split; [change (wf (rival empty_db).2); refine (stable_method wf _ rival _ empty_db wf_empty); apply m_create|]. eexists. split; [reflexivity|]. by split. }
  split; exact H.
Defined.

End alone.
