(* ===== verification/GrabService.v ===== *)
(** * Grabbing a release ([services/grab_service.py])

    A grab hands a release to the download client and records it: as a new row,
    as a terminal row that is used again, or by attaching the seasons asked for
    to the row that tracks the torrent already.  The sessions are those of
    [Sessions]; what the service asks of the client and of the in-process removal
    registry is recorded in the session's trail.

    The client, the blocklist and the registry answer what the arguments say, by
    how many statements and calls were made before.  Two loops of the service,
    and the recursion of the attachment, go on as long as rows keep changing
    under them: [rounds] bounds their number, and a run that reaches it is one
    that has not ended ([Unfinished]).  Log records are not kept. *)

From Stdlib Require Import ZArith Lia Bool String SpecFloat.
From S2P Require Import Prelude PyStr PyNum PyInt StateMachine Quality Release PlexVideo DecisionEngine.
From S2P Require Import RequestStore RequestRepository DownloadRepository Sessions.
From S2P Require RequestService SeasonRepository SeasonService Reconciler.

#[local] Open Scope bool_scope.

Definition DEFAULT_CATEGORY : list N := lit "plex-manager".

Definition _TERMINAL_STATUS_VALUES : list (list N) := value <$> TERMINAL_STATES.

Definition _GRABBABLE_REQUEST_STATUS_VALUES : list RequestStatus :=
  List.filter (fun s => negb (mem s RequestService.TERMINAL_REQUEST_STATUS_VALUES)) all_statuses.
Definition _GRABBABLE_SEASON_STATUS_VALUES : list RequestStatus :=
  List.filter (fun s => negb (bool_decide (s = cancelled))) all_statuses.
Definition _PACK_TARGET_SEASON_STATUS_VALUES : list RequestStatus :=
  [pending; searching; no_acceptable_release; failed].
Definition _SETTLED_TV_SEASON_STATUS_VALUES : list RequestStatus := [available; completed; evicted].

Definition tv_grab_blocked_by_terminal_parent (parent_status observed_season_status : RequestStatus) : bool :=
  if negb (mem parent_status RequestService.TERMINAL_REQUEST_STATUS_VALUES) then false
  else negb (bool_decide (parent_status = completed)
             && negb (mem observed_season_status _SETTLED_TV_SEASON_STATUS_VALUES)).

(** ** Exceptions *)

Section errors.
Context {DB : UnicodeDB}.

Definition NoGrabSourceError (guid : list N) : exn :=
  ProgramError "NoGrabSourceError" (lit "release " ++ guid ++ lit " has no magnet or download url").
Definition AlreadyDownloadingError (request_id : Z) : exn :=
  ProgramError "AlreadyDownloadingError" (lit "request " ++ str_of_int request_id ++ lit " already has an active download").
Definition GrabError (title : list N) : exn :=
  ProgramError "GrabError" (lit "could not determine torrent hash for " ++ title).
Definition RequestNotActiveError (request_id : Z) : exn :=
  ProgramError "RequestNotActiveError" (lit "request " ++ str_of_int request_id ++ lit " is terminal and cannot be grabbed").
Definition SeasonRequiredError (request_id : Z) : exn :=
  ProgramError "SeasonRequiredError" (lit "request " ++ str_of_int request_id ++ lit " is tv and requires a season to grab").
Definition TorrentAlreadyTrackedError (torrent_hash : list N) (owner_request_id : option Z) : exn :=
  ProgramError "TorrentAlreadyTrackedError"
    (lit "torrent " ++ torrent_hash ++ lit " is already tracked by request "
     ++ match owner_request_id with Some i => str_of_int i | None => lit "None" end).
Definition TorrentRemovalInFlightError (torrent_hash : list N) (download_id : Z) : exn :=
  ProgramError "TorrentRemovalInFlightError"
    (lit "torrent " ++ torrent_hash ++ lit " (download " ++ str_of_int download_id ++ lit ") is being removed; retry").
Definition vanished (torrent_hash : list N) : exn :=
  LookupError (lit "download for hash " ++ torrent_hash ++ lit " vanished mid-grab").
Definition Unfinished : exn := ProgramError "Unfinished" [].

End errors.

(** ** What the service asks for *)

(** What it reads of [DownloadStatus] and [AddResult]. *)
Record TorrentStatus := {
  raw_state : list N;
  torrent_progress : spec_float;
  force_start : bool;
}.

Record AddResult := {
  added_hash : list N;
  was_created : bool;
  add_payload_pending : bool;
}.

Record DownloadClientPort := {
  get_status : nat -> list N -> res (option TorrentStatus);
  list_files : nat -> list N -> res (list (list N));
  add : nat -> list N -> list N -> list N -> res AddResult;
  remove : nat -> list N -> bool -> res unit;
}.

(** The registry of [queue_service]. *)
Definition Registry : Type := nat -> Z -> bool.

(** [is_blocklisted(tmdb_id, torrent_hash, title, indexer, media_type=...)]. *)
Definition Blocklisted : Type :=
  nat -> option Z -> list N -> list N -> list N -> option MediaType -> res bool.

Inductive effect : Type :=
  | Added (source : list N) (answer : res AddResult)
  | Removed (torrent_hash : list N) (delete_files : bool)
  | RegisteredRemoval (download_id : Z)
  | ReleasedRemoval (download_id : Z).

Abbreviation Session := (Tx (session db effect)).

(** ** What is to be tracked *)

Record grab_scope := {
  gs_request_id : option Z;
  gs_season : option Z;
  gs_episodes : option (list Z);
  scope_episodes_by_season : option (gmap Z (option (list Z)));
  target_seasons : list Z;
  guard_seasons : list (option Z);
  observed_season_status : option RequestStatus;
}.

(** [tuple(dict.fromkeys(l))]. *)
Definition from_keys {A} `{EqDecision A} (l : list A) : list A := reverse (remove_dups (reverse l)).

Definition _planned_target_seasons (scored : ScoredRelease) (season : option Z) : list Z :=
  match season with
  | None => []
  | Some n => from_keys (match sr_target_seasons scored with [] => [n] | l => l end)
  end.

Definition _active_guard_seasons (scored : ScoredRelease) (season : option Z) (target_seasons : list Z)
    : list (option Z) :=
  match sr_covered_seasons scored with
  | [] => match target_seasons with [] => [season] | _ => Some <$> target_seasons end
  | covered => Some <$> from_keys (target_seasons ++ covered)
  end.

Definition _target_episodes (primary_season : Z) (primary_episodes : option (list Z)) (target_season : Z)
    (by_season : option (gmap Z (option (list Z)))) : option (list Z) :=
  if (target_season =? primary_season)%Z then primary_episodes
  else match by_season with
       | None => None
       | Some m => default None (m !! target_season)
       end.

Definition _normalized_episodes (episodes : option (list Z)) : option (list Z) :=
  match sorted_set (default [] episodes) with [] => None | l => Some l end.

Section grab.
Context {DB : UnicodeDB} {W : Others db} (nulls_first : bool).
Context (qbt : DownloadClientPort) (removal_in_flight : Registry) (is_blocklisted : Blocklisted).

Definition of_hash (torrent_hash : list N) : Session (option DownloadRecord) :=
  reads (get_by_hash nulls_first torrent_hash).

Definition tracked_row (r : DownloadRecord) : bool := negb (mem (Download.status (dr_row r)) _TERMINAL_STATUS_VALUES).

Definition _held_orphan_intent (torrent_hash : list N) : Session (bool * bool) :=
  status ← outside (fun n => get_status qbt n torrent_hash);
  match status with
  | None => mret (false, false)
  | Some st =>
      has_manifest ← (if mem (raw_state st) HELD_METADATA_STATES then mret false
                      else files ← outside (fun n => list_files qbt n torrent_hash);
                           mret (negb (bool_decide (files = []))));
      if negb (is_unstarted_held_torrent (raw_state st) (torrent_progress st) has_manifest)
      then mret (false, false)
      else mret (true, force_start st || bool_decide (raw_state st = lit "forcedMetaDL"))
  end.

(** A failed removal is logged. *)
Definition _remove_torrent_if_added (torrent_hash : list N) (actually_added : bool) : Session unit :=
  if negb actually_added then mret tt
  else try_except (fun _ => true)
         (calling (fun n => remove qbt n torrent_hash true) (fun _ => Removed torrent_hash true))
         (fun _ => mret tt).

(** ** Attaching to a row that tracks the torrent *)

Definition _scope_still_grabbable (request_id season : Z) : Session bool :=
  request ← reads (get request_id);
  match request with
  | None => mret false
  | Some r =>
      if negb (bool_decide (MediaRequest.media_type r = tv))
      then mret (negb (in_statuses RequestService.TERMINAL_REQUEST_STATUS_VALUES r))
      else
        season_rows ← reads (SeasonRepository.list_for_request request_id);
        let status := match List.find (fun s => (SeasonRequest.season_number (SeasonRepository.sr_row s) =? season)%Z) season_rows with
                      | Some s => SeasonRequest.status (SeasonRepository.sr_row s)
                      | None => pending
                      end in
        if mem status [cancelled; waiting_for_air_date] then mret false
        else mret (negb (tv_grab_blocked_by_terminal_parent (MediaRequest.status r) status))
  end.

Section release.
Context (scored : ScoredRelease) (tmdb_id : option Z) (media_type : option MediaType).

Definition _refuse_unsafe_attachment_loss_recovery (torrent_hash : list N) (download_id season request_id : Z)
    : Session unit :=
  rollback ;;
  blocked ← outside (fun n => is_blocklisted n tmdb_id torrent_hash (cr_title (sr_candidate scored))
                                (cr_indexer_name (sr_candidate scored)) media_type);
  if (blocked : bool) then rollback ;; db_throw (RequestNotActiveError request_id)
  else
    grabbable ← _scope_still_grabbable request_id season;
    if negb grabbable then rollback ;; db_throw (RequestNotActiveError request_id)
    else
      rollback ;;
      in_flight ← outside (fun n => Ok (removal_in_flight n download_id));
      if (in_flight : bool) then db_throw (TorrentRemovalInFlightError torrent_hash download_id) else mret tt.

(** The claim over the torrent that is left: none. *)
Definition _surviving_claim_after_attachment_loss (torrent_hash : list N) (download_id season request_id : Z)
    : Session bool :=
  _refuse_unsafe_attachment_loss_recovery torrent_hash download_id season request_id ;;
  status ← outside (fun n => get_status qbt n torrent_hash);
  match status with
  | None => db_throw (TorrentRemovalInFlightError torrent_hash download_id)
  | Some _ => mret false
  end.

End release.

Fixpoint _active_conflict_for_targets (request_id : option Z) (seasons : list (option Z)) (torrent_hash : list N)
    : Session (option DownloadRecord) :=
  match request_id, seasons with
  | None, _ | _, [] => mret None
  | Some i, season :: rest =>
      let other (r : option DownloadRecord) :=
        match r with Some r => negb (bool_decide (Download.torrent_hash (dr_row r) = torrent_hash)) | None => false end in
      active ← reads (find_active_for_request nulls_first i season);
      if other active then mret active
      else
        covered ← reads (find_active_coverage_owner nulls_first i season);
        if other covered then mret covered
        else _active_conflict_for_targets request_id rest torrent_hash
  end.

Fixpoint _claim_covered_seasons (download_id request_id : Z) (seasons : list (option Z)) : Session unit :=
  match seasons with
  | [] => mret tt
  | None :: rest => _claim_covered_seasons download_id request_id rest
  | Some n :: rest =>
      writes (fun _ => ensure_coverage_claim download_id request_id n) ;;
      _claim_covered_seasons download_id request_id rest
  end.

Section attach.
Context (g : grab_scope) (request_id season : Z).

Definition episodes_of (target_season : Z) : option (list Z) :=
  _target_episodes season (gs_episodes g) target_season (scope_episodes_by_season g).

Definition _attached_target_scopes (download_id : Z) (targets : list Z) : Session bool :=
  scopes ← reads (list_scopes nulls_first download_id);
  season_rows ← reads (SeasonRepository.list_for_request request_id);
  let status_of n := SeasonRequest.status <$> last (List.filter (fun s => (SeasonRequest.season_number s =? n)%Z)
                                                      (SeasonRepository.sr_row <$> season_rows)) in
  mret (forallb (fun n =>
    existsb (fun s => bool_decide (DownloadScope.media_request_id s = Some request_id)
                      && bool_decide (DownloadScope.season_number s = Some n)
                      && bool_decide (_normalized_episodes (DownloadScope.episodes_json s) = _normalized_episodes (episodes_of n))
                      && mem (DownloadScope.status s) [lit "active"; lit "import_blocked"]) scopes
    && bool_decide (status_of n = Some downloading)) targets).

Definition _converge_on_same_hash_owner (owner : DownloadRecord) (targets : list Z) : Session DownloadRecord :=
  attached ← _attached_target_scopes (dr_id owner) targets;
  if (attached : bool) then mret owner else db_throw (RequestNotActiveError request_id).

(** [may_remove] is whether the caller has passed its client. *)
Definition remove_if (may_remove : bool) (torrent_hash : list N) (actually_added : bool) : Session unit :=
  if may_remove then _remove_torrent_if_added torrent_hash actually_added else mret tt.

Definition _resolve_same_hash_owner (torrent_hash : list N) (targets : list Z) (may_remove actually_added : bool)
    : Session DownloadRecord :=
  owner ← of_hash torrent_hash;
  match owner with
  | None =>
      remove_if may_remove torrent_hash actually_added ;;
      db_throw (RequestNotActiveError request_id)
  | Some owner =>
      if tracked_row owner then _converge_on_same_hash_owner owner targets
      else
        calling (fun _ => Ok tt) (fun _ => RegisteredRemoval (dr_id owner)) ;;
        converged ← finally
          (still_terminal ← writes (fun _ => lock_if_terminal (dr_id owner));
           rollback ;;
           reowned ← (if negb still_terminal then of_hash torrent_hash else mret None);
           match reowned with
           | Some r =>
               if tracked_row r then r ← _converge_on_same_hash_owner r targets; mret (Some r)
               else remove_if may_remove torrent_hash actually_added ;; mret None
           | None => remove_if may_remove torrent_hash actually_added ;; mret None
           end)
          (calling (fun _ => Ok tt) (fun _ => ReleasedRemoval (dr_id owner)));
        match converged with
        | Some r => mret r
        | None => db_throw (RequestNotActiveError request_id)
        end
  end.

(** The loop over the target seasons; the first one that has moved on ends it. *)
Fixpoint attach_targets (download_id : Z) (targets : list Z) : Session bool :=
  match targets with
  | [] => mret true
  | n :: rest =>
      writes (fun _ => ensure_scope download_id (Some request_id) (Some n) (episodes_of n)) ;;
      season_row ← writes (fun _ => SeasonRepository.ensure request_id n pending false);
      let allowed_from := match observed_season_status g with
                          | Some st => if (n =? season)%Z then [st] else _PACK_TARGET_SEASON_STATUS_VALUES
                          | None => _PACK_TARGET_SEASON_STATUS_VALUES
                          end in
      moved ← writes (fun now => SeasonService.set_status_if_in request_id
                (SeasonRequest.id (SeasonRepository.sr_row season_row)) downloading allowed_from false false false false now);
      if (moved : bool) then attach_targets download_id rest else mret false
  end.

(** A season moved on: whoever owns the torrent now, or nobody. *)
Definition attach_or_resolve (existing : DownloadRecord) (targets : list Z) (guards : list (option Z))
    (may_remove actually_added : bool) : Session (option DownloadRecord) :=
  attached ← attach_targets (dr_id existing) targets;
  if (attached : bool) then _claim_covered_seasons (dr_id existing) request_id guards ;; mret None
  else
    rollback ;;
    r ← _resolve_same_hash_owner (Download.torrent_hash (dr_row existing)) targets may_remove actually_added;
    mret (Some r).

(** One attempt: [inl None] when the scopes were written and nothing is committed
    yet, [inl (Some r)] when the attempt ends with [r], [inr r] when a unique index
    refused it and the row [r] is to be attached to instead. *)
Definition attach_once (existing : DownloadRecord) (targets : list Z) (guards : list (option Z))
    (may_remove actually_added : bool) : Session (option (option DownloadRecord) + DownloadRecord) :=
  let torrent_hash := Download.torrent_hash (dr_row existing) in
  try_except (is_error "IntegrityError")
    (resolved ← attach_or_resolve existing targets guards may_remove actually_added;
     mret (inl (match resolved with Some r => Some (Some r) | None => None end)))
    (fun _ =>
       rollback ;;
       conflict ← _active_conflict_for_targets (Some request_id) guards torrent_hash;
       match conflict with
       | Some _ =>
           remove_if may_remove torrent_hash actually_added ;;
           db_throw (AlreadyDownloadingError request_id)
       | None =>
           record ← of_hash torrent_hash;
           match record with
           | None => db_throw (vanished torrent_hash)
           | Some r =>
               attached ← _attached_target_scopes (dr_id r) targets;
               if (attached : bool) then mret (inl (Some (Some r)))
               else if negb (tracked_row r) then mret (inl (Some None))
               else mret (inr r)
           end
       end).

Fixpoint attach_rounds (rounds : nat) (existing : DownloadRecord) (may_remove actually_added : bool)
    : Session (option DownloadRecord) :=
  let torrent_hash := Download.torrent_hash (dr_row existing) in
  if negb (tracked_row existing) then mret None
  else
    let targets := match target_seasons g with [] => [season] | l => l end in
    let guards := match guard_seasons g with [] => Some <$> targets | l => l end in
    conflict ← _active_conflict_for_targets (Some request_id) guards torrent_hash;
    match conflict with
    | Some _ => db_throw (AlreadyDownloadingError request_id)
    | None =>
        locked ← writes (fun _ => lock_if_active (dr_id existing));
        if negb locked then rollback ;; mret None
        else
          outcome ← attach_once existing targets guards may_remove actually_added;
          match outcome with
          | inl (Some ended) => mret ended
          | inl None =>
              commit ;;
              record ← of_hash torrent_hash;
              match record with Some r => mret (Some r) | None => db_throw (vanished torrent_hash) end
          | inr r =>
              match rounds with
              | O => db_throw Unfinished
              | S rounds => attach_rounds rounds r may_remove actually_added
              end
          end
    end.

End attach.

Definition _attach_target_scopes_to_existing_download (rounds : nat) (g : grab_scope) (existing : DownloadRecord)
    (may_remove actually_added : bool) : Session (option DownloadRecord) :=
  match gs_request_id g, gs_season g with
  | Some request_id, Some season => attach_rounds g request_id season rounds existing may_remove actually_added
  | _, _ => mret (Some existing)
  end.

(** ** The grab *)

Section scored.
Context (scored : ScoredRelease) (rounds : nat).
Context (g_tmdb_id g_year : option Z) (save_path category : list N).

Definition candidate : CandidateRelease := sr_candidate scored.

(** [candidate.magnet_url or candidate.download_url]. *)
Definition source_of : option (list N) :=
  match cr_magnet_url candidate with
  | Some ((_ :: _) as url) => Some url
  | _ => cr_download_url candidate
  end.

(** What the request was when the grab began: its type, its status, and the
    status of the season. *)
Record observation := {
  request_media_type : option MediaType;
  observed_request_status : option RequestStatus;
  o_season_status : option RequestStatus;
  o_season : option Z;
  o_episodes : option (list Z);
}.

Definition observe (request_id season : option Z) (episodes : option (list Z))
    (expected_season_status : option RequestStatus) : Session observation :=
  let unknown := {| request_media_type := None; observed_request_status := None; o_season_status := None;
                    o_season := season; o_episodes := episodes |} in
  match request_id with
  | None => mret unknown
  | Some i =>
      request ← reads (get i);
      match request with
      | None => mret unknown
      | Some r =>
          let status := MediaRequest.status r in
          match MediaRequest.media_type r with
          | tv =>
              match season with
              | None => db_throw (SeasonRequiredError i)
              | Some n =>
                  season_rows ← reads (SeasonRepository.list_for_request i);
                  let observed :=
                    match List.find (fun s => (SeasonRequest.season_number (SeasonRepository.sr_row s) =? n)%Z) season_rows with
                    | Some s => SeasonRequest.status (SeasonRepository.sr_row s)
                    | None => pending
                    end in
                  if mem observed [cancelled; waiting_for_air_date]
                     || match expected_season_status with
                        | Some e => negb (bool_decide (observed = e))
                        | None => false
                        end
                     || tv_grab_blocked_by_terminal_parent status observed
                  then db_throw (RequestNotActiveError i)
                  else mret {| request_media_type := Some tv; observed_request_status := Some status;
                               o_season_status := Some observed; o_season := season; o_episodes := episodes |}
              end
          | movie =>
              if mem status RequestService.TERMINAL_REQUEST_STATUS_VALUES then db_throw (RequestNotActiveError i)
              else mret {| request_media_type := Some movie; observed_request_status := Some status;
                           o_season_status := None; o_season := None; o_episodes := None |}
          end
      end
  end.

(** [request_id is not None and record.media_request_id != request_id]. *)
Definition tracked_for_another (g : grab_scope) (r : DownloadRecord) : bool :=
  match gs_request_id g with
  | Some i => negb (bool_decide (Download.media_request_id (dr_row r) = Some i))
  | None => false
  end.

Definition media_type_value (k : option MediaType) : option (list N) :=
  match k with Some movie => Some (lit "movie") | Some tv => Some (lit "tv") | None => None end.

(** A row that tracks the torrent already: the grab ends with it, or goes on
    with the claim that is left when attaching to it failed. *)
Definition join_tracked (o : observation) (g : grab_scope) (torrent_hash : list N) (r : DownloadRecord)
    (may_remove actually_added : bool) : Session (DownloadRecord + bool) :=
  if tracked_for_another g r
  then db_throw (TorrentAlreadyTrackedError torrent_hash (Download.media_request_id (dr_row r)))
  else
    match gs_request_id g, gs_season g with
    | Some request_id, Some season =>
        attached ← _attach_target_scopes_to_existing_download rounds g r may_remove actually_added;
        match attached with
        | Some r => mret (inl r)
        | None =>
            if may_remove then
              claim ← _surviving_claim_after_attachment_loss scored g_tmdb_id (request_media_type o) torrent_hash
                        (dr_id r) season request_id;
              mret (inr claim)
            else
              _refuse_unsafe_attachment_loss_recovery scored g_tmdb_id (request_media_type o) torrent_hash
                (dr_id r) season request_id ;;
              mret (inr actually_added)
        end
    | _, _ => mret (inl r)
    end.

(** Before the client is asked: the torrent may be tracked already. *)
Definition before_add (o : observation) (g : grab_scope) (known_hash : option (list N))
    : Session (option DownloadRecord) :=
  match known_hash with
  | None => mret None
  | Some torrent_hash =>
      pre ← of_hash torrent_hash;
      joined ← match pre with
               | None => mret None
               | Some r =>
                   if negb (tracked_row r) then
                     in_flight ← outside (fun n => Ok (removal_in_flight n (dr_id r)));
                     if (in_flight : bool) then db_throw (TorrentRemovalInFlightError torrent_hash (dr_id r))
                     else mret None
                   else
                     out ← join_tracked o g torrent_hash r false false;
                     mret (match out with inl r => Some r | inr _ => None end)
               end;
      match joined with
      | Some r => mret (Some r)
      | None =>
          active ← _active_conflict_for_targets (gs_request_id g) (guard_seasons g) torrent_hash;
          match active, gs_request_id g with
          | Some _, Some i => db_throw (AlreadyDownloadingError i)
          | _, _ => mret None
          end
      end
  end.

Record addition := {
  a_hash : list N;
  a_source : list N;
  payload_pending_ : bool;
  payload_resume_ : bool;
  payload_force_start_ : bool;
}.

(** Losing to another torrent: what this grab created goes, and the loss is
    reported; otherwise [otherwise]. *)
Definition lost_to_another {A} (g : grab_scope) (torrent_hash : list N) (actually_added : bool)
    (otherwise : Session A) : Session A :=
  active ← _active_conflict_for_targets (gs_request_id g) (guard_seasons g) torrent_hash;
  match active, gs_request_id g with
  | Some _, Some i => _remove_torrent_if_added torrent_hash actually_added ;; db_throw (AlreadyDownloadingError i)
  | _, _ => otherwise
  end.

Definition reuse_changes (o : observation) (g : grab_scope) (a : addition) (now : Z) : CasChanges :=
  {| shared :=
       {| progress := Some f_zero; seed_ratio := Some f_zero; failed_reason := None; download_path := None;
          first_seen_at := None; clear_first_seen_at := true; clear_failed_reason := true;
          clear_download_path := true; media_request_id := gs_request_id g; replace_grab_metadata := true;
          magnet_link := Some (a_source a); tmdb_id := g_tmdb_id; year := g_year; season := gs_season g;
          episodes := gs_episodes g; media_type := media_type_value (request_media_type o);
          release_title := Some (cr_title candidate) |};
     added_at := Some now; timeout_at := Some (now + Reconciler.METADATA_STALL_WINDOW)%Z;
     clear_timeout_at := false; retry_count := Some 0%Z; payload_pending := Some (payload_pending_ a);
     payload_resume := Some (payload_resume_ a); payload_force_start := Some (payload_force_start_ a);
     payload_rejection := None; clear_payload_rejection := true; require_failed_reason := None;
     require_no_unimported_scope_outside := None |}.

Definition _reuse_terminal_row (o : observation) (g : grab_scope) (a : addition) (download_id : Z)
    (actually_added : bool) : Session (DownloadRecord * bool) :=
  in_flight ← outside (fun n => Ok (removal_in_flight n download_id));
  if (in_flight : bool) then
    _remove_torrent_if_added (a_hash a) actually_added ;;
    db_throw (TorrentRemovalInFlightError (a_hash a) download_id)
  else
    claimed ← writes (fun now => update_status_if_in download_id (value Downloading) _TERMINAL_STATUS_VALUES
                                   (reuse_changes o g a now) now);
    (if (claimed : bool) then mret tt else rollback) ;;
    record ← of_hash (a_hash a);
    match record with
    | None => db_throw (vanished (a_hash a))
    | Some r => mret (r, claimed)
    end.

(** What one round over a terminal row comes to. *)
Inductive reuse_step :=
  | Reused (record : DownloadRecord)
  | Returned (record : DownloadRecord)
  | Again (actually_added : bool).

(** A unique index refused the claim. *)
Definition reuse_refused {A} (g : grab_scope) (torrent_hash : list N) (actually_added : bool)
    (m : Session A) : Session A :=
  try_except (is_error "IntegrityError") m
    (fun e => rollback ;; lost_to_another g torrent_hash actually_added (db_throw e)).

Definition after_reuse (o : observation) (g : grab_scope) (torrent_hash : list N) (actually_added : bool)
    (x : DownloadRecord * bool) : Session reuse_step :=
  let '(record, claimed) := x in
  if (claimed : bool) then mret (Reused record)
  else if tracked_row record then
    out ← join_tracked o g torrent_hash record true actually_added;
    mret (match out with inl r => Returned r | inr claim => Again claim end)
  else db_throw (TorrentAlreadyTrackedError torrent_hash (Download.media_request_id (dr_row record))).

(** The loop over a terminal row: the row is claimed, or another grab has it.
    The loop over the row that was there ([whole]) guards its whole body, the one
    over the winner of a race only the claim. *)
Fixpoint reuse (whole : bool) (o : observation) (g : grab_scope) (a : addition) (download_id : Z)
    (actually_added : bool) (rounds : nat) : Session (DownloadRecord * bool + DownloadRecord) :=
  let attempt := _reuse_terminal_row o g a download_id actually_added in
  let refused {A} := @reuse_refused A g (a_hash a) actually_added in
  step ← (if whole then refused (x ← attempt; after_reuse o g (a_hash a) actually_added x)
          else x ← refused attempt; after_reuse o g (a_hash a) actually_added x);
  match step with
  | Reused r => mret (inl (r, actually_added))
  | Returned r => mret (inr r)
  | Again claim => match rounds with
                  | O => db_throw Unfinished
                  | S rounds => reuse whole o g a download_id claim rounds
                  end
  end.

(** A row of its own; another grab may have inserted one first. *)
Definition create_row (o : observation) (g : grab_scope) (a : addition) (actually_added : bool)
    : Session (DownloadRecord * bool + DownloadRecord) :=
  try_except (is_error "IntegrityError")
    (record ← writes (fun now => DownloadRepository.create (a_hash a) (value Downloading) (gs_request_id g)
                (Some (a_source a)) g_tmdb_id g_year (gs_season g) (gs_episodes g)
                (media_type_value (request_media_type o)) (Some (cr_title candidate))
                (Some (now + Reconciler.METADATA_STALL_WINDOW)%Z)
                (payload_pending_ a) (payload_resume_ a) (payload_force_start_ a) now);
     mret (inl (record, actually_added)))
    (fun e =>
       rollback ;;
       lost_to_another g (a_hash a) actually_added
         (winner ← of_hash (a_hash a);
          match winner with
          | None => db_throw e
          | Some winner =>
              joined ← (if tracked_row winner then join_tracked o g (a_hash a) winner true actually_added
                        else mret (inr actually_added));
              match joined with
              | inl r => mret (inr r)
              | inr claim => reuse false o g a (dr_id winner) claim rounds
              end
          end)).

Definition with_history (t : list DownloadHistory) (d : db) : db :=
  Build_db (media_requests d) (season_requests d) (request_subscribers d) (watchlist_items d)
           (downloads d) (download_scopes d) (coverage_claims d) (episode_states d) t (next_request_id d)
           (next_season_id d) (next_download_id d) (next_scope_id d) (next_claim_id d) (next_episode_id d).

Definition record_history (torrent_hash : list N) : Session unit :=
  writes (fun _ d =>
    (Ok tt, with_history (download_history d ++
      [{| h_id := 1 + foldr Z.max 0 (h_id <$> download_history d); h_tmdb_id := g_tmdb_id;
          h_torrent_hash := Some torrent_hash; h_event_type := h_grabbed;
          h_source_title := Some (cr_title candidate);
          h_message := Some (lit "grabbed " ++ q_name (sr_quality scored) ++ lit " from "
                             ++ cr_indexer_name candidate) |}])%Z d)).

(** [if not moved]: what this grab wrote and what it added go. *)
Definition moved_on {A} (request_id : Z) (torrent_hash : list N) (actually_added : bool) : Session A :=
  rollback ;;
  _remove_torrent_if_added torrent_hash actually_added ;;
  db_throw (RequestNotActiveError request_id).

(** The other seasons of a pack. *)
Fixpoint move_targets (g : grab_scope) (request_id season : Z) (torrent_hash : list N) (download_id : Z)
    (actually_added : bool) (targets : list Z) : Session unit :=
  match targets with
  | [] => mret tt
  | n :: rest =>
      if (n =? season)%Z then move_targets g request_id season torrent_hash download_id actually_added rest
      else
        writes (fun _ => ensure_scope download_id (Some request_id) (Some n) (episodes_of g season n)) ;;
        target_row ← writes (fun _ => SeasonRepository.ensure request_id n pending false);
        moved ← writes (fun now => SeasonService.set_status_if_in request_id
                  (SeasonRequest.id (SeasonRepository.sr_row target_row)) downloading
                  _PACK_TARGET_SEASON_STATUS_VALUES false false false false now);
        if (moved : bool) then move_targets g request_id season torrent_hash download_id actually_added rest
        else moved_on request_id torrent_hash actually_added
  end.

Definition move_season (g : grab_scope) (request_id season : Z) (torrent_hash : list N) (download_id : Z)
    (actually_added : bool) : Session bool :=
  season_row ← writes (fun _ => SeasonRepository.ensure request_id season pending false);
  moved ← writes (fun now => SeasonService.set_status_if_in request_id
            (SeasonRequest.id (SeasonRepository.sr_row season_row)) downloading
            (match observed_season_status g with Some st => [st] | None => _GRABBABLE_SEASON_STATUS_VALUES end)
            false false false false now);
  (if (moved : bool) then
     reuse_refused g torrent_hash actually_added
       (move_targets g request_id season torrent_hash download_id actually_added (target_seasons g) ;;
        _claim_covered_seasons download_id request_id (guard_seasons g))
   else mret tt) ;;
  mret moved.

Definition move_request (o : observation) (g : grab_scope) (torrent_hash : list N) (download_id : Z)
    (actually_added : bool) : Session unit :=
  match gs_request_id g with
  | None => mret tt
  | Some request_id =>
      moved ← match gs_season g with
              | Some season => move_season g request_id season torrent_hash download_id actually_added
              | None => writes (fun _ => RequestRepository.set_status_if_in request_id downloading
                          (match observed_request_status o with
                           | Some st => [st]
                           | None => _GRABBABLE_REQUEST_STATUS_VALUES
                           end) false false)
              end;
      if (moved : bool) then mret tt else moved_on request_id torrent_hash actually_added
  end.

(** From the answer of the client on; [existing] is the row of the torrent then,
    and [tracked] whether it is not terminal. *)
Definition record_grab (o : observation) (g : grab_scope) (source torrent_hash : list N) (answer : AddResult)
    (existing : option DownloadRecord) (tracked actually_added : bool) : Session DownloadRecord :=
  lost_to_another g torrent_hash actually_added
    (let payload_resume := add_payload_pending answer && was_created answer in
     intent ← (if add_payload_pending answer && negb payload_resume && negb tracked
               then _held_orphan_intent torrent_hash else mret (payload_resume, false));
     let a := {| a_hash := torrent_hash; a_source := source; payload_pending_ := add_payload_pending answer;
                 payload_resume_ := (intent : bool * bool).1; payload_force_start_ := intent.2 |} in
     row ← match existing with
           | Some r => reuse true o g a (dr_id r) actually_added rounds
           | None => create_row o g a actually_added
           end;
     match row with
     | inr r => mret r
     | inl (record, actually_added) =>
         record_history torrent_hash ;;
         move_request o g torrent_hash (dr_id record) actually_added ;;
         commit ;;
         refreshed ← of_hash torrent_hash;
         mret (default record refreshed)
     end).

(** [add_result.torrent_hash.lower() or (known_hash or "")]. *)
Definition hash_of (known_hash : option (list N)) (answer : AddResult) : list N :=
  match py_lower (added_hash answer) with
  | [] => default [] known_hash
  | l => l
  end.

(** The torrent goes to the client. *)
Definition add_torrent (o : observation) (g : grab_scope) (source : list N) (known_hash : option (list N))
    : Session DownloadRecord :=
  answer ← calling (fun n => add qbt n source save_path category) (Added source);
  let torrent_hash := hash_of known_hash answer in
  if bool_decide (torrent_hash = []) then db_throw (GrabError (cr_title candidate))
  else
    existing ← of_hash torrent_hash;
    match existing with
    | Some r =>
        if tracked_row r then
          joined ← join_tracked o g torrent_hash r true (was_created answer);
          match joined with
          | inl r => mret r
          | inr claim => record_grab o g source torrent_hash answer existing true claim
          end
        else record_grab o g source torrent_hash answer existing false (was_created answer)
    | None => record_grab o g source torrent_hash answer None false (was_created answer)
    end.

(** [candidate.info_hash.lower() if candidate.info_hash else None]. *)
Definition known_hash : option (list N) :=
  match cr_info_hash candidate with
  | Some ((_ :: _) as h) => Some (py_lower h)
  | _ => None
  end.

Definition grab (request_id season : option Z) (episodes : option (list Z))
    (expected_season_status : option RequestStatus) (by_season : option (gmap Z (option (list Z))))
    : Session DownloadRecord :=
  match source_of with
  | None => db_throw (NoGrabSourceError (cr_guid candidate))
  | Some source =>
      o ← observe request_id season episodes expected_season_status;
      let targets := _planned_target_seasons scored (o_season o) in
      let g := {| gs_request_id := request_id; gs_season := o_season o; gs_episodes := o_episodes o;
                  scope_episodes_by_season := by_season; target_seasons := targets;
                  guard_seasons := _active_guard_seasons scored (o_season o) targets;
                  observed_season_status := o_season_status o |} in
      joined ← before_add o g known_hash;
      match joined with
      | Some r => mret r
      | None => add_torrent o g source known_hash
      end
  end.

End scored.
End grab.
