(* ===== verification/GrabFacts.v ===== *)
(** * What a grab leaves behind

    Theorems about [GrabService], for every behaviour of the other processes, the
    download client, the blocklist and the registry of removals: what is removed
    from the client, what is returned, and for which torrents seasons are claimed. *)

From Stdlib Require Import ZArith Lia Bool String SpecFloat Sorted.
From S2P Require Import Prelude PyStr PyNum PyInt StateMachine Quality Release PlexVideo DecisionEngine.
From S2P Require Import RequestStore RequestRepository RequestLaws DownloadRepository DownloadLaws DownloadFacts.
From S2P Require Import Sessions GrabService.
From S2P Require SeasonRepository SeasonService.

#[local] Open Scope bool_scope.

(** ** Steps that write nothing *)

Class Sober {W : Others db} (P : session db effect -> Prop) : Prop := {
  sober_reads A (m : DBM A) : keeps P (reads m);
  sober_outside A (f : nat -> res A) : keeps P (outside f);
  sober_rollback : keeps P rollback;
}.

Section sober.
Context {DB : UnicodeDB} {W : Others db} (nulls_first : bool).
Context (qbt : DownloadClientPort) (removal_in_flight : Registry) (is_blocklisted : Blocklisted).
Context (P : session db effect -> Prop) {HS : Sober P}.

#[local] Hint Resolve sober_reads : keeps.
#[local] Hint Extern 1 (keeps _ (outside _)) => eapply sober_outside; exact _ : keeps.
#[local] Hint Extern 1 (keeps _ rollback) => eapply sober_rollback; exact _ : keeps.
#[local] Hint Extern 2 (keeps _ (match ?x with _ => _ end)) => destruct x : keeps.

Lemma sober_of_hash h : keeps P (of_hash nulls_first h).
Proof. unfold of_hash. auto with keeps. Qed.
#[local] Hint Resolve sober_of_hash : keeps.

Lemma sober_orphan h : keeps P (_held_orphan_intent qbt h).
Proof.
  unfold _held_orphan_intent.
  apply keeps_bind; [auto with keeps|]. intros [st|]; [|auto with keeps].
  auto 20 with keeps.
Qed.

Lemma sober_grabbable i n : keeps P (_scope_still_grabbable i n).
Proof. unfold _scope_still_grabbable. auto 20 with keeps. Qed.
#[local] Hint Resolve sober_grabbable : keeps.

Lemma sober_refuse scored t k h d n i :
  keeps P (_refuse_unsafe_attachment_loss_recovery removal_in_flight is_blocklisted scored t k h d n i).
Proof. unfold _refuse_unsafe_attachment_loss_recovery. auto 20 with keeps. Qed.
#[local] Hint Resolve sober_refuse : keeps.

Lemma sober_surviving scored t k h d n i :
  keeps P (_surviving_claim_after_attachment_loss qbt removal_in_flight is_blocklisted scored t k h d n i).
Proof. unfold _surviving_claim_after_attachment_loss. auto 20 with keeps. Qed.

Lemma sober_conflict i seasons h : keeps P (_active_conflict_for_targets nulls_first i seasons h).
Proof. induction seasons as [|n l IH]; destruct i; simpl; auto 20 with keeps. Qed.

Lemma sober_attached g i n d targets : keeps P (_attached_target_scopes nulls_first g i n d targets).
Proof. unfold _attached_target_scopes. auto 20 with keeps. Qed.
#[local] Hint Resolve sober_attached : keeps.

Lemma sober_converge g i n r targets : keeps P (_converge_on_same_hash_owner nulls_first g i n r targets).
Proof. unfold _converge_on_same_hash_owner. auto 20 with keeps. Qed.

Lemma sober_observe i n e x : keeps P (observe i n e x).
Proof. unfold observe. auto 20 with keeps. Qed.

End sober.

#[export] Hint Resolve sober_reads sober_of_hash sober_orphan sober_grabbable sober_refuse
  sober_surviving sober_conflict sober_attached sober_converge sober_observe : keeps.

#[export] Hint Extern 2 (keeps _ (outside _)) => eapply sober_outside; exact _ : keeps.
#[export] Hint Extern 2 (keeps _ rollback) => eapply sober_rollback; exact _ : keeps.
#[export] Hint Extern 1 (keeps _ (_held_orphan_intent _ _)) => eapply sober_orphan; exact _ : keeps.
#[export] Instance done_sober {W : Others db} (Q : list effect -> Prop) : Sober (done_so_far Q).
Proof. constructor; auto with keeps. Qed.

#[export] Instance always_sober {W : Others db} (P : db -> Prop) {HT : Tolerated P} : Sober (always P).
Proof. constructor; auto with keeps. Qed.

#[export] Hint Resolve done_sober always_sober : keeps.

(** No transaction is open. *)
Definition closed (s : session db effect) : Prop := saved s = None.

#[export] Instance closed_sober {W : Others db} : Sober closed.
Proof.
  constructor; intros; intros s Hs; unfold closed, reads, outside, rollback, arrive in *; simpl; done.
Qed.

(** ** What was removed *)

Create HintDb grab.

Definition removes (e : effect) : bool := match e with Removed _ _ => true | _ => false end.

(** Nothing was removed. *)
Definition untouched (l : list effect) : Prop := forall e, e ∈ l -> removes e = false.

Section added.
Context {DB : UnicodeDB} (known : option (list N)).

(** The client reported the torrent as one this call created. *)
Definition added_here (h : list N) (l : list effect) : Prop :=
  exists source a, Added source (Ok a) ∈ l /\ was_created a = true /\ hash_of known a = h.

(** At most one torrent was removed, and it was one created before. *)
Fixpoint justified (l : list effect) : Prop :=
  match l with
  | [] => True
  | e :: l => justified l /\ match e with Removed h _ => untouched l /\ added_here h l | _ => True end
  end.

(** A claim over the torrent [h] is the client's answer that it was created. *)
Definition entitled (h : list N) (claim : bool) (l : list effect) : Prop :=
  untouched l /\ (claim = true -> added_here h l).

Lemma untouched_justified l : untouched l -> justified l.
Proof.
  induction l as [|e l IH]; [done|]. intros H. simpl. split; [apply IH; intros x Hx; apply H; by right|].
  specialize (H e ltac:(left)). by destruct e.
Qed.

Lemma untouched_cons e l : removes e = false -> untouched l -> untouched (e :: l).
Proof. intros He H x [-> | Hx]%elem_of_cons; [done | by apply H]. Qed.

Lemma added_cons h e l : added_here h l -> added_here h (e :: l).
Proof. intros (x & a & H1 & H2). exists x, a. split; [by right | done]. Qed.

Lemma entitled_cons h c e l : removes e = false -> entitled h c l -> entitled h c (e :: l).
Proof. intros He [H1 H2]. split; [by apply untouched_cons|]. intros Hc. apply added_cons. auto. Qed.

Lemma justified_app l1 h b l2 : justified (l1 ++ Removed h b :: l2) -> untouched l2 /\ added_here h l2.
Proof.
  induction l1 as [|e l1 IH]; simpl; [by intros [_ ?]|]. intros [H _]. by apply IH.
Qed.

Lemma justified_once l1 h b l2 : justified (l1 ++ Removed h b :: l2) -> untouched l1.
Proof.
  induction l1 as [|e l1 IH]; simpl; intros H x Hx; [by apply elem_of_nil in Hx|].
  destruct H as [H He]. apply elem_of_cons in Hx as [-> | Hx]; [|by apply IH].
  destruct e; try done. destruct He as [He _]. specialize (He (Removed h b)). simpl in He.
  exfalso. assert (true = false) as E; [|done]. apply He. set_solver.
Qed.

End added.

Section removals.
Context {DB : UnicodeDB} {W : Others db} (nulls_first : bool).
Context (qbt : DownloadClientPort) (removal_in_flight : Registry) (is_blocklisted : Blocklisted).
Context (scored : ScoredRelease) (rounds : nat) (g_tmdb_id g_year : option Z) (save_path category : list N).

#[local] Abbreviation known := (known_hash scored).
#[local] Abbreviation quiet h c := (done_so_far (DB := db) (entitled known h c)).
#[local] Abbreviation settled := (done_so_far (DB := db) (justified known)).

(** A unique violation leaves the claim as it was. *)
Definition escaped (h : list N) (c : bool) (e : exn) (s : session db effect) : Prop :=
  settled s /\ (is_error "IntegrityError" e = true -> quiet h c s).

Lemma quiet_settled h c s : quiet h c s -> settled s.
Proof. intros [H _]. by apply untouched_justified. Qed.
Lemma quiet_escaped h c e s : quiet h c s -> escaped h c e s.
Proof. intros H. split; [by eapply quiet_settled | done]. Qed.
Lemma settled_escaped h c e s : is_error "IntegrityError" e = false -> settled s -> escaped h c e s.
Proof. intros He H. split; [done|]. by rewrite He. Qed.
Lemma quiet_none h c s : quiet h c s -> quiet h false s.
Proof. intros [H _]. by split. Qed.

Lemma quiet_step {A} h c (m : Session A) : keeps (quiet h c) m -> triple (quiet h c) m (fun _ => quiet h c) (escaped h c).
Proof. intros H. apply triple_keeps; [done|]. intros e s. apply quiet_escaped. Qed.

Lemma quiet_then {A B} h c (m : Session A) (f : A -> Session B) Q E :
  triple (quiet h c) m (fun _ => quiet h c) E -> (forall x, triple (quiet h c) (f x) Q E) ->
  triple (quiet h c) (m ≫= f) Q E.
Proof. intros Hm Hf. by eapply triple_bind. Qed.

Lemma quiet_throw {A} h c e (Q : A -> session db effect -> Prop) : triple (quiet h c) (db_throw e) Q (escaped h c).
Proof. apply triple_throw. intros s. apply quiet_escaped. Qed.

Lemma quiet_ret {A} h c (x : A) E : triple (quiet h c) (mret x) (fun _ => quiet h c) E.
Proof. by apply triple_ret. Qed.

Lemma quiet_calling {A} h c (f : nat -> res A) ev : (forall r, removes (ev r) = false) -> keeps (quiet h c) (calling f ev).
Proof. intros He s Hs. unfold calling. by apply entitled_cons. Qed.

#[local] Hint Resolve quiet_step quiet_then quiet_throw quiet_ret quiet_calling : grab.
#[local] Hint Extern 1 (keeps (done_so_far _) _) => solve [auto with keeps] : grab.

(** *** Removing *)

Lemma settled_remove h c : triple (quiet h c) (_remove_torrent_if_added qbt h c) (fun _ => settled) (fun _ _ => False).
Proof.
  unfold _remove_torrent_if_added. destruct c; simpl.
  - intros s Hs. unfold try_except, calling. destruct (remove qbt (moment s) h true) as [[]|e]; simpl.
    all: split; [by apply (quiet_settled h true)|]; by split; [apply Hs | apply Hs].
  - intros s Hs. by apply (quiet_settled h false).
Qed.

Lemma remove_then_throw {A} h c e (Q : A -> session db effect -> Prop) : is_error "IntegrityError" e = false ->
  triple (quiet h c) (_remove_torrent_if_added qbt h c ;; db_throw e) Q (escaped h c).
Proof.
  intros He. eapply triple_bind.
  - eapply triple_weaken with (Q' := fun _ => settled); [apply settled_remove|done|intros x s H; exact H|done].
  - intros x. apply triple_throw. intros s. by apply settled_escaped.
Qed.

Lemma remove_if_settled h c b : triple (quiet h c) (remove_if qbt b h c) (fun _ => settled) (fun _ _ => False).
Proof. destruct b; [apply settled_remove|]. intros s Hs. by eapply quiet_settled. Qed.

(** *** The steps *)

Lemma row_of_hash h (P : session db effect -> Prop) E : keeps P (of_hash nulls_first h) -> (forall e s, P s -> E e s) ->
  triple P (of_hash nulls_first h)
    (fun r s => P s /\ forall x, r = Some x -> Download.torrent_hash (dr_row x) = h) E.
Proof.
  intros Hk He s Hs. specialize (Hk s Hs). unfold of_hash, reads in *. simpl in Hk.
  unfold get_by_hash, first_row, mbind, DBM_bind, query.
  destruct (List.find _ _) as [x|] eqn:Hx; simpl.
  - split; [done|]. intros y [= <-]. simpl. apply List.find_some in Hx as [_ Hx]. by apply bool_decide_eq_true in Hx.
  - split; [done|]. done.
Qed.

Lemma quiet_of_hash h' h c : triple (quiet h c) (of_hash nulls_first h')
  (fun r s => quiet h c s /\ forall x, r = Some x -> Download.torrent_hash (dr_row x) = h') (escaped h c).
Proof. apply row_of_hash; [auto with keeps|]. intros e s. apply quiet_escaped. Qed.

Lemma quiet_conflict {A} i l h c (f : option DownloadRecord -> Session A) Q :
  (forall x, triple (quiet h c) (f x) Q (escaped h c)) ->
  triple (quiet h c) (_active_conflict_for_targets nulls_first i l h ≫= f) Q (escaped h c).
Proof. intros H. apply quiet_then; [auto with grab keeps | done]. Qed.

Lemma quiet_lost {A} g h c (m : Session A) Q : triple (quiet h c) m Q (escaped h c) ->
  triple (quiet h c) (lost_to_another nulls_first qbt g h c m) Q (escaped h c).
Proof.
  intros H. unfold lost_to_another. apply quiet_conflict. intros [r|]; [|done].
  destruct (gs_request_id g); [|done]. by apply remove_then_throw.
Qed.

Lemma quiet_register h c d : triple (quiet h c) (calling (fun _ => Ok tt) (fun _ => RegisteredRemoval d))
  (fun _ => quiet h c) (escaped h c).
Proof. auto with grab. Qed.

Lemma settled_released d l : justified known l -> justified known (ReleasedRemoval d :: l).
Proof. by split. Qed.

(** What is left of the claim when the season moved on: the owner of the torrent. *)
Lemma quiet_resolve g i n h targets b c :
  triple (quiet h c) (_resolve_same_hash_owner nulls_first qbt g i n h targets b c) (fun _ => quiet h c) (escaped h c).
Proof.
  unfold _resolve_same_hash_owner. apply quiet_then; [auto with grab keeps|]. intros [owner|].
  2: { eapply triple_bind with (R := fun _ => settled).
       - eapply triple_weaken; [apply remove_if_settled|done|done|done].
       - intros _. apply triple_throw. intros s. by apply settled_escaped. }
  apply triple_if; [auto 10 with grab keeps|]. apply quiet_then; [apply quiet_register|]. intros _.
  apply triple_bind with (R := fun o s => settled s /\ (o <> None -> quiet h c s)).
  - apply triple_finally with (Q' := fun o s => settled s /\ (o <> None -> quiet h c s)) (E' := escaped h c).
    + apply quiet_then; [auto with grab keeps|]. intros still. apply quiet_then; [auto with grab keeps|]. intros _.
      apply quiet_then; [apply triple_if; auto with grab keeps|].
      assert (forall x : option DownloadRecord, x = None -> triple (quiet h c) (remove_if qbt b h c ;; mret x)
        (fun o s => settled s /\ (o <> None -> quiet h c s)) (escaped h c)) as Hr.
      { intros x ->. apply triple_bind with (R := fun _ => settled).
        - eapply triple_weaken; [apply remove_if_settled|done|done|done].
        - intros _. apply triple_ret. by split. }
      intros [r|]; [|by apply Hr]. apply triple_if; [|by apply Hr].
      apply quiet_then; [auto with grab keeps|]. intros r'. apply triple_ret. intros s Hs. split; [by eapply quiet_settled|done].
    + intros o s [H1 H2]. split; [by apply settled_released|]. intros H. apply entitled_cons; [done|by apply H2].
    + intros e s [H1 H2]. split; [by apply settled_released|]. intros H. apply entitled_cons; [done|by apply H2].
  - intros [r|]; [apply triple_ret; intros s [_ H]; by apply H|]. apply triple_throw. intros s [H _].
    by apply settled_escaped.
Qed.

(** *** Attaching *)

Lemma done_claims (Q : list effect -> Prop) d i l : keeps (done_so_far (DB := db) Q) (_claim_covered_seasons d i l).
Proof. induction l as [|[n|] l IH]; simpl; auto with keeps. Qed.

Lemma done_attach_targets (Q : list effect -> Prop) g i n d l : keeps (done_so_far (DB := db) Q) (attach_targets g i n d l).
Proof.
  induction l as [|m l IH]; simpl; [auto with keeps|]. apply keeps_bind; [auto with keeps|]. intros _.
  apply keeps_bind; [auto with keeps|]. intros row. apply keeps_bind; [auto with keeps|]. intros []; auto with keeps.
Qed.
#[local] Hint Resolve done_claims done_attach_targets quiet_resolve : grab keeps.

Lemma quiet_attach_or_resolve g i n r targets guards b c h : Download.torrent_hash (dr_row r) = h ->
  triple (quiet h c) (attach_or_resolve nulls_first qbt g i n r targets guards b c) (fun _ => quiet h c) (escaped h c).
Proof.
  intros <-. unfold attach_or_resolve. apply quiet_then; [auto with grab keeps|]. intros x. apply triple_if.
  - apply quiet_then; auto with grab keeps.
  - apply quiet_then; [auto with grab keeps|]. intros _. apply quiet_then; auto with grab keeps.
Qed.

Lemma quiet_attach_once g i n r targets guards b c h : Download.torrent_hash (dr_row r) = h ->
  triple (quiet h c) (attach_once nulls_first qbt g i n r targets guards b c)
    (fun x s => quiet h c s /\ forall y, x = inr y -> Download.torrent_hash (dr_row y) = h) (escaped h c).
Proof.
  intros Hr. unfold attach_once. rewrite Hr. apply triple_try with (E' := escaped h c); [|done|].
  - apply quiet_then; [by apply quiet_attach_or_resolve|]. intros x. by apply triple_ret.
  - intros e He. apply triple_weaken with (P' := quiet h c)
      (Q' := fun x s => quiet h c s /\ forall y, x = inr y -> Download.torrent_hash (dr_row y) = h) (E' := escaped h c);
      [|intros s [_ H]; by apply H|done|done].
    apply quiet_then; [auto with grab keeps|]. intros _. apply quiet_conflict. intros [x|].
    + apply triple_bind with (R := fun _ => settled); [eapply triple_weaken; [apply remove_if_settled|done|done|done]|].
      intros _. apply triple_throw. intros s. by apply settled_escaped.
    + eapply triple_bind; [apply quiet_of_hash|]. intros [x|].
      * eapply triple_bind with (R := fun _ s => quiet h c s /\ Download.torrent_hash (dr_row x) = h).
        -- intros s [Hs Hx]. specialize (Hx x eq_refl).
           pose proof (quiet_step h c _ (sober_attached nulls_first (quiet h c) g i n (dr_id x) targets) s Hs) as H.
           by destruct (_attached_target_scopes _ _ _ _ _ _ s) as [[]].
        -- intros a. destruct a; [|destruct (negb (tracked_row x))]; apply triple_ret; intros s [Hs Hx]; split; try done.
           by intros y [= <-].
      * apply triple_throw. intros s [Hs _]. by apply quiet_escaped.
Qed.

Lemma quiet_attach g i n k r b c h : Download.torrent_hash (dr_row r) = h ->
  triple (quiet h c) (attach_rounds nulls_first qbt g i n k r b c) (fun _ => quiet h c) (escaped h c).
Proof.
  revert r. induction k as [|k IH]; intros r Hr; simpl; rewrite Hr.
  all: apply triple_if; [auto with grab|]; apply quiet_conflict; intros [x|]; [auto with grab|].
  all: apply quiet_then; [auto with grab keeps|]; intros locked.
  all: apply triple_if; [apply quiet_then; auto with grab keeps|].
  all: eapply triple_bind; [by apply quiet_attach_once|]; intros [[y|]|y].
  all: intros s [Hs Hy]; revert s Hs.
  all: try (apply quiet_ret); try (apply quiet_throw); try (by apply IH, Hy).
  all: apply quiet_then; [auto with grab keeps|]; intros _; apply quiet_then; [auto with grab keeps|]; intros [z|]; auto with grab.
Qed.

(** *** A row that tracks the torrent *)

(** The claim that is left is no stronger. *)
Definition left_with (h : list N) (x : DownloadRecord + bool) (s : session db effect) : Prop :=
  match x with inl _ => quiet h false s | inr claim => quiet h claim s end.

Lemma quiet_left h c (x : DownloadRecord + bool) s : quiet h c s ->
  match x with inl _ => True | inr claim => claim = c \/ claim = false end -> left_with h x s.
Proof. destruct x as [r|claim]; simpl; intros H Hc; [by eapply quiet_none|]. destruct Hc as [-> | ->]; [done | by eapply quiet_none]. Qed.

Lemma quiet_surviving h c t k h' d n i :
  triple (quiet h c) (_surviving_claim_after_attachment_loss qbt removal_in_flight is_blocklisted scored t k h' d n i)
    (fun claim s => quiet h c s /\ claim = false) (escaped h c).
Proof.
  unfold _surviving_claim_after_attachment_loss. apply quiet_then; [auto with grab keeps|]. intros _.
  apply quiet_then; [auto with grab keeps|]. intros [st|]; [by apply triple_ret | apply quiet_throw].
Qed.

Lemma quiet_join o g h r b c : Download.torrent_hash (dr_row r) = h ->
  triple (quiet h c)
    (join_tracked nulls_first qbt removal_in_flight is_blocklisted scored rounds g_tmdb_id o g h r b c)
    (left_with h) (escaped h c).
Proof.
  intros Hr. unfold join_tracked. apply triple_if; [auto with grab|].
  assert (forall x : DownloadRecord + bool, match x with inl _ => True | inr claim => claim = c \/ claim = false end ->
    triple (quiet h c) (mret x) (left_with h) (escaped h c)) as Hret.
  { intros x Hx. apply triple_ret. intros s Hs. by eapply quiet_left. }
  destruct (gs_request_id g) as [i|] eqn:Hi; [|by apply Hret].
  destruct (gs_season g) as [n|] eqn:Hn; [|by apply Hret].
  apply quiet_then.
  { unfold _attach_target_scopes_to_existing_download. rewrite Hi, Hn. by apply quiet_attach. }
  intros [y|]; [by apply Hret|]. destruct b.
  - eapply triple_bind; [apply quiet_surviving|]. intros claim. intros s [Hs ->]. revert s Hs. apply (Hret (inr false)). by right.
  - apply quiet_then; [auto with grab keeps|]. intros _. apply Hret. by left.
Qed.

(** *** The row *)

Definition recorded (h : list N) (x : DownloadRecord * bool + DownloadRecord) (s : session db effect) : Prop :=
  match x with inl (_, claim) => quiet h claim s | inr _ => quiet h false s end.

Lemma quiet_reuse_row o g a d c : 
  triple (quiet (a_hash a) c) (_reuse_terminal_row nulls_first qbt removal_in_flight scored g_tmdb_id g_year o g a d c)
    (fun x s => quiet (a_hash a) c s /\ Download.torrent_hash (dr_row x.1) = a_hash a) (escaped (a_hash a) c).
Proof.
  unfold _reuse_terminal_row. apply quiet_then; [auto with grab keeps|]. intros [].
  - by apply remove_then_throw.
  - apply quiet_then; [auto with grab keeps|]. intros claimed.
    apply quiet_then; [destruct claimed; auto with grab keeps|]. intros _.
    eapply triple_bind; [apply quiet_of_hash|]. intros [r|].
    + apply triple_ret. intros s [Hs Hr]. split; [done|]. by apply Hr.
    + apply triple_throw. intros s [Hs _]. by apply quiet_escaped.
Qed.

Definition stepped (h : list N) (c : bool) (x : reuse_step) (s : session db effect) : Prop :=
  match x with Reused _ => quiet h c s | Returned _ => quiet h false s | Again claim => quiet h claim s end.

Lemma quiet_after_reuse o g h c x : Download.torrent_hash (dr_row x.1) = h ->
  triple (quiet h c)
    (after_reuse nulls_first qbt removal_in_flight is_blocklisted scored rounds g_tmdb_id o g h c x)
    (stepped h c) (escaped h c).
Proof.
  destruct x as [r []]; intros Hr; simpl; [by apply triple_ret|]. apply triple_if; [|apply quiet_throw].
  eapply triple_bind; [by apply quiet_join|]. intros [y|claim]; by apply triple_ret.
Qed.

Lemma quiet_refused {A} g h c (m : Session A) Q : triple (quiet h c) m Q (escaped h c) ->
  triple (quiet h c) (reuse_refused nulls_first qbt g h c m) Q (escaped h c).
Proof.
  intros H. unfold reuse_refused. apply triple_try with (E' := escaped h c); [done|done|].
  intros e He. apply triple_weaken with (P' := quiet h c) (Q' := Q) (E' := escaped h c); [|intros s [_ Hs]; by apply Hs|done|done].
  apply quiet_then; [auto with grab keeps|]. intros _. apply quiet_lost, quiet_throw.
Qed.

Lemma quiet_reuse w o g a d c k :
  triple (quiet (a_hash a) c)
    (reuse nulls_first qbt removal_in_flight is_blocklisted scored rounds g_tmdb_id g_year w o g a d c k)
    (recorded (a_hash a)) (fun _ => settled).
Proof.
  revert c. induction k as [|k IH]; intros c; simpl.
  all: eapply triple_bind with (R := stepped (a_hash a) c).
  all: try (apply triple_weaken with (P' := quiet (a_hash a) c) (Q' := stepped (a_hash a) c) (E' := escaped (a_hash a) c);
    [|done|done|by intros e s [H _]]; destruct w;
    [apply quiet_refused; eapply triple_bind; [apply quiet_reuse_row|]
    |eapply triple_bind; [apply quiet_refused, quiet_reuse_row|]];
    intros x s [Hs Hx]; by apply quiet_after_reuse).
  all: intros [r|r|claim]; try (apply triple_ret; intros s Hs; exact Hs).
  - apply triple_throw. intros s. by apply quiet_settled.
  - apply IH.
Qed.

Lemma quiet_create o g a c :
  triple (quiet (a_hash a) c)
    (create_row nulls_first qbt removal_in_flight is_blocklisted scored rounds g_tmdb_id g_year o g a c)
    (recorded (a_hash a)) (fun _ => settled).
Proof.
  unfold create_row. apply triple_try with (E' := escaped (a_hash a) c); [|by intros e s [H _]|].
  - apply quiet_then; [auto with grab keeps|]. intros r. by apply triple_ret.
  - intros e He. apply triple_weaken with (P' := quiet (a_hash a) c) (Q' := recorded (a_hash a)) (E' := fun _ => settled);
      [|intros s [_ Hs]; by apply Hs|done|done].
    apply quiet_then; [apply triple_keeps; [auto with keeps|intros; by eapply quiet_settled]|]. intros _.
    unfold lost_to_another. apply quiet_then.
    { apply triple_keeps; [auto with keeps|intros; by eapply quiet_settled]. }
    assert (triple (quiet (a_hash a) c)
      (winner ← of_hash nulls_first (a_hash a);
       match winner with
       | None => db_throw e
       | Some winner =>
           joined ← (if tracked_row winner
                     then join_tracked nulls_first qbt removal_in_flight is_blocklisted scored rounds g_tmdb_id o g (a_hash a) winner true c
                     else mret (inr c));
           match joined with
           | inl r => mret (inr r)
           | inr claim => reuse nulls_first qbt removal_in_flight is_blocklisted scored rounds g_tmdb_id g_year false o g a (dr_id winner) claim rounds
           end
       end) (recorded (a_hash a)) (fun _ => settled)) as Hw.
    { eapply triple_bind.
      - eapply triple_weaken; [apply quiet_of_hash|done| |by intros e' s [H _]]. intros x s H. exact H.
      - intros [w|]; [|apply triple_throw; intros s [H _]; by eapply quiet_settled].
        apply triple_bind with (R := left_with (a_hash a)).
        + intros s [Hs Hx]. specialize (Hx w eq_refl). destruct (tracked_row w); [|exact Hs].
          pose proof (quiet_join o g (a_hash a) w true c Hx s Hs) as H. destruct (join_tracked _ _ _ _ _ _ _ _ _ _ _ _ _ _) as [[]]; [done | by destruct H].
        + intros [r|claim]; [by apply triple_ret | apply quiet_reuse]. }
    intros [r|]; [|done]. destruct (gs_request_id g); [|done].
    eapply triple_weaken; [by apply remove_then_throw|done|intros x s H; exact H|by intros e' s [H _]].
Qed.

Lemma quiet_moved_on {A} i h c Q : triple (quiet h c) (moved_on (A := A) qbt i h c) Q (escaped h c).
Proof. unfold moved_on. apply quiet_then; [auto with grab keeps|]. intros _. by apply remove_then_throw. Qed.

Lemma quiet_move_targets g i n h d c l :
  triple (quiet h c) (move_targets qbt g i n h d c l) (fun _ => quiet h c) (escaped h c).
Proof.
  induction l as [|m l IH]; simpl; [auto with grab|]. apply triple_if; [done|].
  apply quiet_then; [auto with grab keeps|]. intros _. apply quiet_then; [auto with grab keeps|]. intros r.
  apply quiet_then; [auto with grab keeps|]. intros []; [done | apply quiet_moved_on].
Qed.

Lemma quiet_move_season g i n h d c :
  triple (quiet h c) (move_season nulls_first qbt g i n h d c) (fun _ => quiet h c) (escaped h c).
Proof.
  unfold move_season. apply quiet_then; [auto with grab keeps|]. intros r.
  apply quiet_then; [auto with grab keeps|]. intros moved. apply quiet_then; [|auto with grab].
  destruct moved; [|auto with grab]. apply quiet_refused, quiet_then; [apply quiet_move_targets | auto with grab keeps].
Qed.

Lemma quiet_move o g h d c :
  triple (quiet h c) (move_request nulls_first qbt o g h d c) (fun _ => quiet h c) (escaped h c).
Proof.
  unfold move_request. destruct (gs_request_id g) as [i|]; [|auto with grab]. apply quiet_then.
  - destruct (gs_season g); [apply quiet_move_season | auto with grab keeps].
  - intros []; [auto with grab | apply quiet_moved_on].
Qed.

(** *** The grab *)

#[local] Abbreviation nothing := (done_so_far (DB := db) untouched).

Lemma quiet_nothing h c s : quiet h c s -> nothing s.
Proof. by intros [H _]. Qed.
Lemma nothing_quiet h s : nothing s -> quiet h false s.
Proof. by split. Qed.

Lemma quiet_record o g source h answer existing tracked c :
  triple (quiet h c)
    (record_grab nulls_first qbt removal_in_flight is_blocklisted scored rounds g_tmdb_id g_year o g source h answer
       existing tracked c)
    (fun _ => nothing) (fun _ => settled).
Proof.
  unfold record_grab, lost_to_another.
  apply quiet_then; [apply triple_keeps; [auto with keeps|intros; by eapply quiet_settled]|].
  assert (forall e s, escaped h c e s -> settled s) as Hes by (by intros e s [H _]).
  intros conflict. match goal with |- triple _ (match _ with Some _ => match _ with Some _ => _ | None => ?m end | None => _ end) _ _ =>
    assert (triple (quiet h c) m (fun _ => nothing) (fun _ => settled)) as Hm end.
  { cbv zeta. apply quiet_then; [apply triple_if; [apply triple_keeps; [auto with keeps|intros; by eapply quiet_settled]|apply quiet_ret]|].
    intros intent. apply triple_bind with (R := recorded h).
    - destruct existing; [apply (quiet_reuse true _ _ {| a_hash := h |})|apply (quiet_create _ _ {| a_hash := h |})].
    - intros [[r claim]|r]; simpl; [|apply triple_ret; intros s; apply quiet_nothing].
      apply quiet_then; [apply triple_keeps; [unfold record_history; auto with keeps|intros; by eapply quiet_settled]|]. intros _.
      apply quiet_then; [eapply triple_weaken; [apply quiet_move|done|done|by intros e s [H _]]|]. intros _.
      apply quiet_then; [apply triple_keeps; [auto with keeps|intros; by eapply quiet_settled]|]. intros _.
      apply quiet_then; [apply triple_keeps; [auto with keeps|intros; by eapply quiet_settled]|]. intros f.
      apply triple_ret. intros s. apply quiet_nothing. }
  destruct conflict; [|done]. destruct (gs_request_id g); [|done].
  eapply triple_weaken; [by apply remove_then_throw|done|intros x s H; exact H|done].
Qed.

Lemma quiet_before o g hash :
  triple nothing
    (before_add nulls_first qbt removal_in_flight is_blocklisted scored rounds g_tmdb_id o g hash)
    (fun _ => nothing) (fun _ => settled).
Proof.
  assert (forall {A} (m : Session A), keeps nothing m -> triple nothing m (fun _ => nothing) (fun _ => settled)) as Hk.
  { intros A m Hm. apply triple_keeps; [done|]. intros e s. apply untouched_justified. }
  unfold before_add. destruct hash as [h|]; [|by apply triple_ret].
  eapply triple_bind; [apply row_of_hash; [auto with keeps | intros e s; apply untouched_justified]|]. intros pre.
  apply triple_bind with (R := fun _ => nothing).
  - destruct pre as [r|]; [|apply triple_ret; by intros s [Hs _]]. intros s [Hs Hr]. specialize (Hr r eq_refl).
    revert s Hs. apply triple_if.
    + eapply triple_bind; [apply Hk; auto with keeps|]. intros []; [|by apply triple_ret].
      apply triple_throw. intros s. apply untouched_justified.
    + eapply triple_bind.
      * eapply triple_weaken; [by apply (quiet_join o g h r false false)|intros s; apply nothing_quiet| |by intros e s [H _]].
        intros x s H. exact H.
      * intros [r'|claim]; apply triple_ret; intros s; apply quiet_nothing.
  - intros [r|]; [by apply triple_ret|]. eapply triple_bind; [apply Hk; auto with keeps|].
    intros [x|]; [|by apply triple_ret]. destruct (gs_request_id g); [|by apply triple_ret].
    apply triple_throw. intros s. apply untouched_justified.
Qed.

Lemma quiet_add o g source :
  triple nothing
    (add_torrent nulls_first qbt removal_in_flight is_blocklisted scored rounds g_tmdb_id g_year save_path category o g
       source known)
    (fun _ => nothing) (fun _ => settled).
Proof.
  unfold add_torrent. apply triple_bind with (R := fun a => quiet (hash_of known a) (was_created a)).
  - intros s Hs. unfold calling. destruct (add _ _ _ _ _) as [a|e] eqn:Ha.
    + split; [by apply untouched_cons|]. intros Hc. exists source, a. split; [left | done].
    + split; [by apply untouched_justified | done].
  - intros a. cbv zeta. apply triple_if; [apply triple_throw; intros s; by eapply quiet_settled|].
    eapply triple_bind; [eapply triple_weaken; [apply quiet_of_hash|done| |by intros e s [H _]]; intros x s H; exact H|].
    intros x s [Hs Hx]. revert s Hs. destruct x as [r|]; [|apply quiet_record].
    specialize (Hx r eq_refl). apply triple_if; [|apply quiet_record].
    eapply triple_bind; [eapply triple_weaken; [by apply (quiet_join o g (hash_of known a) r true (was_created a))|done| |by intros e s [H _]]; intros x s H; exact H|].
    intros [y|claim]; [apply triple_ret; intros s; apply quiet_nothing | apply quiet_record].
Qed.

(** C8: Every torrent a grab removes from the download client is one the client
    reported, in answer to this very call, as newly created, under the hash the
    answer named, and at most one torrent is removed; a grab that returns has
    removed nothing.  So a torrent that was there before is never removed,
    whatever races are lost to other processes and however the client behaves. *)
Theorem a_grab_removes_only_what_it_added request_id season episodes expected by_season s :
  trail s = [] ->
  let '(r, s') := grab nulls_first qbt removal_in_flight is_blocklisted scored rounds g_tmdb_id g_year save_path category
                    request_id season episodes expected by_season s in
  (forall later h files earlier, trail s' = later ++ Removed h files :: earlier ->
     (exists source a, Added source (Ok a) ∈ earlier /\ was_created a = true /\ hash_of (known_hash scored) a = h) /\
     forall h' files', Removed h' files' ∉ later ++ earlier) /\
  (forall record, r = Ok record -> forall h files, Removed h files ∉ trail s').
Proof.
  intros Ht. assert (nothing s) as Hs by (unfold done_so_far; rewrite Ht; by intros e ?%elem_of_nil).
  match goal with |- let '(_, _) := ?m s in _ => assert (triple nothing m (fun _ => nothing) (fun _ => settled)) as Hm end.
  { unfold grab. destruct (source_of scored); [|apply triple_throw; intros s'; apply untouched_justified].
    eapply triple_bind; [apply triple_keeps; [auto with keeps|intros e s'; apply untouched_justified]|]. intros o.
    eapply triple_bind; [apply quiet_before|]. intros [r|]; [by apply triple_ret | apply quiet_add]. }
  specialize (Hm s Hs). destruct (grab _ _ _ _ _ _ _ _ _ _ _ _ _ _ _ s) as [r s'].
  assert (settled s') as Hj by (destruct r; [by apply untouched_justified | done]). split.
  - intros later h files earlier E. unfold done_so_far in Hj. rewrite E in Hj.
    pose proof (justified_app _ _ _ _ _ Hj) as [Hu Ha]. split; [exact Ha|].
    intros h' files' [Hin|Hin]%elem_of_app; [apply justified_once in Hj; specialize (Hj _ Hin)|specialize (Hu _ Hin)]; done.
  - intros record -> h files Hin. by specialize (Hm _ Hin).
Qed.

End removals.

(** ** Rows that stay

    Of a download nothing but the request it serves is changed from outside the
    tables of downloads. *)

Section rows.
Context (R : Download.t -> Prop).

Definition has_row (d : db) : Prop := exists x, x ∈ downloads d /\ R x.

#[local] Instance row_scoped : Scoped has_row.
Proof.
  constructor; intros; intros d Hd; cbv [update_scopes insert_scope checked];
    first [exact Hd | by destruct (scopes_ok _ _)].
Qed.
#[local] Instance row_claimed : Claimed has_row.
Proof.
  constructor; intros; intros d Hd; cbv [update_claims insert_claim checked]; by destruct (claims_ok _ _).
Qed.
#[local] Instance row_collected : Collected has_row.
Proof.
  constructor; intros; intros d Hd; cbv [update_episodes insert_episode checked];
    first [exact Hd | by destruct (episodes_ok _ _)].
Qed.

Lemma row_stable : (forall x v, R x -> R (Download.assign x (Download.set_media_request_id v))) -> Stable has_row.
Proof.
  intros HR. constructor; [constructor|]; intros; intros d Hd.
  - unfold update_requests. by destruct (bool_decide _).
  - done.
  - unfold insert_request. by destruct (bool_decide _).
  - unfold insert_season. by destruct (_ && _).
  - destruct Hd as (x & Hx & Hr). eexists. split; [|by apply HR]. simpl. apply list_elem_of_fmap. by exists x.
  - unfold add_subscriber. destruct (is_subscribed _ _ _); [done|]. by destruct (mem _ _).
  - done.
Qed.

(** What no [UPDATE] changes stays for good. *)
Lemma row_tracked : (forall x values, R x -> R (Download.assign_all values x)) -> Tracked has_row.
Proof.
  intros HR. constructor; [|apply _|apply _]. constructor; intros; intros d (x & Hx & Hr).
  - unfold update_downloads, checked. destruct (downloads_ok _ _); [|by exists x].
    exists (if p x then Download.assign_all values x else x). split; [|destruct (p x); auto].
    simpl. unfold rewritten. apply list_elem_of_fmap. by exists x.
  - unfold insert_download, checked. destruct (downloads_ok _ _); [|by exists x].
    exists x. split; [|done]. simpl. apply elem_of_app. by left.
Qed.

End rows.

(** Download [i] is that of torrent [h]. *)
Definition owned (i : Z) (h : list N) : db -> Prop :=
  has_row (fun x => Download.id x = i /\ Download.torrent_hash x = h).

Lemma owned_survives {DB : UnicodeDB} nulls_first may_claim i h : survives nulls_first may_claim (owned i h).
Proof.
  assert (Stable (owned i h)) by (apply row_stable; by intros [] v).
  assert (Tracked (owned i h)).
  { apply row_tracked. intros x values. by rewrite download_assign_id, download_assign_hash. }
  apply tracked_survives; [done|done|apply row_collected|done].
Qed.

Definition live_row (i : Z) : db -> Prop := has_row (fun x => Download.id x = i /\ terminal x = false).

Lemma live_row_stable i : Stable (live_row i).
Proof. apply row_stable. by intros [] v. Qed.

(** ** The transactions of a grab *)

Section levels.
Context {DB : UnicodeDB} (nulls_first : bool) (may_claim : db -> Z -> Prop).

Lemma tx_up n d d' : tx nulls_first may_claim n d d' -> tx nulls_first may_claim (S n) d d'.
Proof.
  revert d d'. induction n as [|n IH]; intros d d' H; inversion H; subst; try by econstructor.
  econstructor; [|done]. intros d1. eapply (rtc_subrel (tx nulls_first may_claim n)); [|done]. intros x y. apply IH.
Qed.

Lemma tx_le n m d d' : (n <= m)%nat -> tx nulls_first may_claim n d d' -> tx nulls_first may_claim m d d'.
Proof. induction 1; [done|]. intros H'. by apply tx_up, IHle. Qed.

(** Whatever is reachable stays so. *)
Lemma reachable_survives_itself : survives nulls_first may_claim (reachable nulls_first may_claim).
Proof.
  intros n d d' H [m Hm]. exists (n `max` m)%nat. etrans.
  - eapply (rtc_subrel (tx nulls_first may_claim m)); [|done]. intros x y. apply tx_le. lia.
  - eapply (rtc_subrel (tx nulls_first may_claim n)); [|done]. intros x y. apply tx_le. lia.
Qed.

Lemma survives_and (P Q : db -> Prop) : survives nulls_first may_claim P -> survives nulls_first may_claim Q ->
  survives nulls_first may_claim (fun d => P d /\ Q d).
Proof. intros HP HQ n d d' H [H1 H2]. split; [by eapply HP | by eapply HQ]. Qed.

End levels.

Section transactions.
Context {DB : UnicodeDB} {W : Others db} (nulls_first : bool).
Context (others_transact : forall n d, exists k, rtc (tx nulls_first live k) d (others n d)).
Context (P : db -> Prop) (HP : survives nulls_first live P) (HR : forall d, P d -> wf_tracked d).

#[local] Instance survivor_tolerated : Tolerated P.
Proof using others_transact HP. intros n d. destruct (others_transact n d) as [k H]. by eapply HP. Qed.
#[local] Hint Resolve survivor_tolerated : keeps.
#[local] Abbreviation stays := (always (DB := db) (Ev := effect) P).

Lemma surviving_method {A} (m : DBM A) : method A m -> keeps P m.
Proof using HP. intros Hm d. eapply (HP 0%nat), rtc_once. by apply tx_request. Qed.
Lemma surviving_tracking {A} (m : DBM A) : tracking nulls_first A m -> keeps P m.
Proof using HP. intros Hm d. eapply (HP 0%nat), rtc_once. by apply tx_tracking. Qed.

(** Inside a transaction that has written, with download [i] live. *)
Definition inside (i : Z) (s : session db effect) : Prop :=
  always P s /\ live_row i (tables s) /\ saved s <> None.

Lemma inside_always i s : inside i s -> always P s.
Proof. by intros [H _]. Qed.

Lemma inside_writes {A} i (m : Z -> DBM A) : (forall now d, P d -> live_row i d -> P (m now d).2 /\ live_row i (m now d).2) ->
  keeps (inside i) (writes m).
Proof.
  intros Hm s ([Ht Hc] & Hl & Ho). destruct s as [d [d0|] n l]; [|done]. unfold writes, arrive. simpl in *.
  destruct (Hm (clock n) d Ht Hl) as [H1 H2]. destruct (m (clock n) d) as [r d']. by split_and!.
Qed.

Lemma inside_method {A} i (m : Z -> DBM A) : (forall now, method A (m now)) -> keeps (inside i) (writes m).
Proof.
  intros Hm. apply inside_writes. intros now d Hd Hl. split; [by apply surviving_method|].
  pose proof (live_row_stable i). by apply (stable_method (live_row i)).
Qed.

Lemma inside_scope i j m n e : keeps (inside i) (writes (fun _ => ensure_scope j m n e)).
Proof.
  apply inside_writes. intros _ d Hd Hl. split; [apply surviving_tracking; [constructor | done]|].
  by apply (kept_ensure_scope (live_row i) (HP := row_scoped _)).
Qed.

Lemma inside_claim i r n : keeps (inside i) (writes (fun _ => ensure_coverage_claim i r n)).
Proof.
  apply inside_writes. intros _ d Hd Hl. split; [|by apply (kept_ensure_coverage_claim (live_row i) (HP := row_claimed _))].
  eapply (HP 0%nat), Hd. apply rtc_once. by apply tx_claim.
Qed.

Lemma inside_claims i r l : keeps (inside i) (_claim_covered_seasons i r l).
Proof. induction l as [|[n|] l IH]; simpl; [auto with keeps| |done]. apply keeps_bind; [apply inside_claim | done]. Qed.

Lemma inside_reads {A} i (m : DBM A) : keeps (inside i) (reads m).
Proof. intros s (Hs & Hl & Ho). destruct s as [d [d0|] n l]; [|done]. by split_and!. Qed.

#[local] Hint Resolve inside_reads inside_scope inside_claims : keeps.

(** A write of one method. *)
Lemma always_method {A} (m : Z -> DBM A) : (forall now, method A (m now)) -> keeps stays (writes m).
Proof. intros Hm. apply keeps_writes; [apply _|]. intros now. by apply surviving_method. Qed.
Lemma always_tracking {A} (m : Z -> DBM A) : (forall now, tracking nulls_first A (m now)) -> keeps stays (writes m).
Proof. intros Hm. apply keeps_writes; [apply _|]. intros now. by apply surviving_tracking. Qed.

(** What a write establishes holds until the transaction ends. *)
Lemma writes_establish {A} (m : Z -> DBM A) (Q : A -> db -> Prop) : (forall now, keeps P (m now)) ->
  (forall now d x d', P d -> m now d = (Ok x, d') -> Q x d') ->
  triple stays (writes m) (fun x s => always P s /\ Q x (tables s) /\ saved s <> None) (fun _ => stays).
Proof.
  intros Hk Hm s Hs. pose proof (keeps_writes P m Hk s Hs) as Hs'. apply (arrive_always P) in Hs as [Ht Hc].
  unfold writes in *. destruct (m (clock (moment s)) (tables (arrive s))) as [[x|e] d] eqn:E; simpl in Hs'; [|exact Hs'].
  split; [exact Hs'|]. split.
  { eapply Hm; [exact Ht | exact E]. }
  done.
Qed.

Lemma locked_live i d : P d -> forall d', lock_if_active i d = (Ok true, d') -> live_row i d'.
Proof.
  intros Hd d' E. unfold lock_if_active, lock_if, mbind, DBM_bind in E. rewrite update_download_spec in E by auto.
  destruct (row_of d i) as [x|] eqn:Hx; [|done]. apply download_row_Some in Hx as [Hx Hi].
  destruct (negb (terminal x)) eqn:Ht; [|done]. unfold checked in E. destruct (downloads_ok _ _); [|done].
  injection E as <-. exists x. apply negb_true_iff in Ht. split; [|done].
  simpl. unfold rewritten. apply list_elem_of_fmap. exists x. split; [|done]. by destruct (has_id i x).
Qed.

Lemma always_lock_active i : triple stays (writes (fun _ => lock_if_active i))
  (fun b s => always P s /\ (b = true -> inside i s)) (fun _ => stays).
Proof.
  eapply triple_weaken; [apply (writes_establish _ (fun b d => b = true -> live_row i d))|done| |done].
  - intros now. apply surviving_tracking. constructor.
  - intros now d x d' Hd E ->. by eapply locked_live.
  - intros b s (Hs & Hl & Ho). split; [done|]. intros ->. split_and!; auto.
Qed.

Context (qbt : DownloadClientPort) (removal_in_flight : Registry) (is_blocklisted : Blocklisted).

#[local] Hint Resolve always_tracking always_method : keeps.
#[local] Hint Constructors tracking method : keeps.

Lemma stays_step {A} (m : Session A) : keeps stays m -> triple stays m (fun _ => stays) (fun _ => stays).
Proof. intros H. by apply triple_keeps. Qed.

Lemma stays_only {A} (R : session db effect -> Prop) (m : Session A) : (forall s, R s -> stays s) -> keeps stays m ->
  triple R m (fun _ => stays) (fun _ => stays).
Proof. intros HR' Hm. eapply triple_weaken; [by apply stays_step|done|done|done]. Qed.

Lemma stays_remove h c : keeps stays (_remove_torrent_if_added qbt h c).
Proof. unfold _remove_torrent_if_added. auto with keeps. Qed.
Lemma stays_remove_if b h c : keeps stays (remove_if qbt b h c).
Proof. destruct b; simpl; [apply stays_remove | auto with keeps]. Qed.
#[local] Hint Resolve stays_remove stays_remove_if : keeps.

(** Between transactions. *)
Definition between (s : session db effect) : Prop := stays s /\ closed s.

#[local] Instance between_sober : Sober between.
Proof.
  constructor; intros; intros s [H1 H2]; split.
  - by apply (sober_reads (P := stays)).
  - by apply (sober_reads (P := closed)).
  - by apply (sober_outside (P := stays)).
  - by apply (sober_outside (P := closed)).
  - by apply (sober_rollback (P := stays)).
  - by apply (sober_rollback (P := closed)).
Qed.
#[local] Hint Resolve between_sober : keeps.

Lemma between_step {A} (m : Session A) : keeps between m -> triple between m (fun _ => between) (fun _ => stays).
Proof. intros H. apply triple_keeps; [done|]. by intros e s [Hs _]. Qed.

Lemma between_then {A B} (m : Session A) (f : A -> Session B) Q : keeps between m ->
  (forall x, triple between (f x) Q (fun _ => stays)) -> triple between (m ≫= f) Q (fun _ => stays).
Proof. intros Hm Hf. eapply triple_bind; [by apply between_step | done]. Qed.

Lemma between_throw {A} e (Q : A -> session db effect -> Prop) : triple between (db_throw e) Q (fun _ => stays).
Proof. apply triple_throw. by intros s [Hs _]. Qed.

Lemma between_stays {A} (m : Session A) : keeps stays m -> triple between m (fun _ => stays) (fun _ => stays).
Proof. intros H. apply stays_only; [by intros s [Hs _] | done]. Qed.

Lemma stays_rollback {A} (f : unit -> Session A) Q : triple between (f tt) Q (fun _ => stays) ->
  triple stays (rollback ≫= f) Q (fun _ => stays).
Proof.
  intros H. apply triple_bind with (R := fun _ => between); [|by intros []].
  intros s Hs. split; [by apply keeps_rollback | done].
Qed.

Lemma between_calling {A} (f : nat -> res A) ev : keeps between (calling f ev).
Proof. by intros s [[H1 H2] H3]. Qed.
Lemma between_remove h c : keeps between (_remove_torrent_if_added qbt h c).
Proof. unfold _remove_torrent_if_added. apply keeps_if; [auto with keeps|]. apply keeps_try; auto using between_calling with keeps. Qed.
Lemma between_remove_if b h c : keeps between (remove_if qbt b h c).
Proof. destruct b; simpl; [apply between_remove | auto with keeps]. Qed.
#[local] Hint Resolve between_calling between_remove between_remove_if : keeps.

Lemma between_resolve g i n h targets b c :
  triple between (_resolve_same_hash_owner nulls_first qbt g i n h targets b c) (fun _ => between) (fun _ => stays).
Proof.
  unfold _resolve_same_hash_owner. apply between_then; [auto with keeps|]. intros [r|]; [|apply between_step; auto with keeps].
  apply triple_if; [apply between_step; auto with keeps|]. apply between_then; [auto with keeps|]. intros _.
  apply triple_bind with (R := fun _ => between); [|intros []; apply between_step; auto with keeps].
  apply triple_finally with (Q' := fun _ => between) (E' := fun _ => stays).
  - apply triple_bind with (R := fun _ => stays); [apply between_stays; auto with keeps|]. intros still.
    apply stays_rollback, between_then; [auto with keeps|].
    intros [r'|]; [apply triple_if|]; apply between_step; auto with keeps.
  - intros o. apply between_step. auto with keeps.
  - intros e. apply stays_step. auto with keeps.
Qed.

Lemma inside_attach_targets g i n d l j : keeps (inside j) (attach_targets g i n d l).
Proof.
  induction l as [|m l IH]; simpl; [auto with keeps|]. apply keeps_bind; [auto with keeps|]. intros _.
  apply keeps_bind; [apply inside_method; constructor|]. intros row. apply keeps_bind; [apply inside_method; constructor|].
  intros []; auto with keeps.
Qed.

Lemma inside_rollback {A} i (f : unit -> Session A) Q : triple between (f tt) Q (fun _ => stays) ->
  triple (inside i) (rollback ≫= f) Q (fun _ => stays).
Proof.
  intros H. eapply triple_weaken; [by apply stays_rollback|apply inside_always|intros x s Hs; exact Hs|done].
Qed.

(** Nothing is committed yet, or the transaction is over. *)
Definition resolved {A} (x : option A) (s : session db effect) : Prop :=
  match x with None => stays s | Some _ => between s end.

Lemma inside_attach_or_resolve g i n r targets guards b c :
  triple (inside (dr_id r)) (attach_or_resolve nulls_first qbt g i n r targets guards b c) resolved (fun _ => stays).
Proof.
  unfold attach_or_resolve. apply triple_bind with (R := fun _ => inside (dr_id r)).
  { apply triple_keeps; [apply inside_attach_targets|intros e s; apply inside_always]. }
  intros x. apply triple_if.
  - apply triple_bind with (R := fun _ => inside (dr_id r)).
    { apply triple_keeps; [apply inside_claims|intros e s; apply inside_always]. }
    intros u. apply triple_ret, inside_always.
  - apply inside_rollback. eapply triple_bind; [apply between_resolve|]. intros y. by apply triple_ret.
Qed.

Definition once {A} (x : option (option DownloadRecord) + A) (s : session db effect) : Prop :=
  match x with inl None => stays s | _ => between s end.

Lemma inside_attach_once g i n r targets guards b c :
  triple (inside (dr_id r)) (attach_once nulls_first qbt g i n r targets guards b c) once (fun _ => stays).
Proof.
  unfold attach_once. apply triple_try with (E' := fun _ => stays); [|done|].
  - eapply triple_bind; [apply inside_attach_or_resolve|]. intros [x|]; by apply triple_ret.
  - intros e _. apply stays_rollback, between_then; [auto with keeps|].
    intros [x|]; [eapply triple_bind; [apply between_step; auto with keeps|]; intros u; apply between_throw|].
    apply between_then; [auto with keeps|]. intros [x|]; [|apply between_throw].
    apply between_then; [auto with keeps|]. intros []; [|destruct (negb (tracked_row x))]; by apply triple_ret.
Qed.

Lemma stays_give_up {A} (x : A) : triple stays (rollback ;; mret x) (fun _ => between) (fun _ => stays).
Proof. apply stays_rollback. by apply triple_ret. Qed.

Lemma between_attach g i n k r b c :
  triple between (attach_rounds nulls_first qbt g i n k r b c) (fun _ => between) (fun _ => stays).
Proof.
  revert r. induction k as [|k IH]; intros r; simpl.
  all: apply triple_if; [by apply triple_ret|]; apply between_then; [auto with keeps|]; intros [x|]; [apply between_throw|].
  all: apply triple_bind with (R := fun (l : bool) s => stays s /\ (l = true -> inside (dr_id r) s));
    [eapply triple_weaken; [apply always_lock_active|by intros s [Hs _]|done|done]|].
  all: intros []; cbn [negb].
  all: lazymatch goal with
    | |- triple _ (rollback ≫= _) _ _ =>
        eapply triple_weaken; [apply stays_give_up|by intros s [Hs _]|done|done]
    | _ => apply triple_bind with (R := once);
        [eapply triple_weaken; [apply inside_attach_once|intros s [_ H]; by apply H|done|done]|]
    end.
  all: intros [[y|]|y]; try (by apply triple_ret); try apply between_throw; try apply IH.
  all: apply triple_bind with (R := fun _ => between); [intros s [Hs _]; split; [by split|done]|]; intros u.
  all: apply between_then; [auto with keeps|]; intros [z|]; [by apply triple_ret|apply between_throw].
Qed.

(** Recovering from a lost attachment starts by ending the transaction. *)
Lemma between_refuse scored t k h d n i :
  triple stays (_refuse_unsafe_attachment_loss_recovery removal_in_flight is_blocklisted scored t k h d n i)
    (fun _ => between) (fun _ => stays).
Proof.
  unfold _refuse_unsafe_attachment_loss_recovery. apply stays_rollback.
  apply between_then; [auto with keeps|]. intros blocked. apply between_step. apply keeps_if; [auto with keeps|].
  apply keeps_bind; [auto with keeps|]. intros grabbable. apply keeps_if; [auto with keeps|].
  apply keeps_bind; [auto with keeps|]. intros _. apply keeps_bind; [auto with keeps|]. intros []; auto with keeps.
Qed.

Context (scored : ScoredRelease) (rounds : nat) (g_tmdb_id g_year : option Z) (save_path category : list N).

Lemma between_join o g h r b c :
  triple between (join_tracked nulls_first qbt removal_in_flight is_blocklisted scored rounds g_tmdb_id o g h r b c)
    (fun _ => between) (fun _ => stays).
Proof.
  unfold join_tracked. apply triple_if; [apply between_throw|].
  assert (forall x : DownloadRecord, triple between (mret (inl x : DownloadRecord + bool)) (fun _ => between) (fun _ => stays)) as Hret.
  { intros x. by apply triple_ret. }
  destruct (gs_request_id g) as [i|] eqn:Hi; [|apply Hret].
  destruct (gs_season g) as [n|] eqn:Hn; [|apply Hret].
  eapply triple_bind.
  { unfold _attach_target_scopes_to_existing_download. rewrite Hi, Hn. apply between_attach. }
  intros [x|]; [by apply triple_ret|]. destruct b.
  - apply triple_bind with (R := fun _ => between); [|intros claim; by apply triple_ret].
    unfold _surviving_claim_after_attachment_loss.
    eapply triple_bind; [eapply triple_weaken; [apply between_refuse|by intros s [Hs _]|intros x s Hs; exact Hs|done]|]. intros x.
    apply between_then; [auto with keeps|]. intros [st|]; apply between_step; auto with keeps.
  - eapply triple_bind; [eapply triple_weaken; [apply between_refuse|by intros s [Hs _]|intros x s Hs; exact Hs|done]|].
    intros x. by apply triple_ret.
Qed.

(** The row of the torrent, between transactions. *)
Lemma between_of_hash h : triple between (of_hash nulls_first h)
  (fun r s => between s /\ forall x, r = Some x -> always (owned (dr_id x) h) s) (fun _ => stays).
Proof.
  intros s [Hs Hc]. pose proof (sober_of_hash nulls_first between h s (conj Hs Hc)) as Hk.
  unfold of_hash, reads in *. simpl in *. unfold get_by_hash, first_row, mbind, DBM_bind, query.
  destruct (List.find _ _) as [x|] eqn:Hx; simpl; [|done]. split; [done|]. intros y [= <-].
  apply List.find_some in Hx as [Hin Hh]. apply list_elem_of_In in Hin. apply bool_decide_eq_true in Hh.
  assert (owned (Download.id x) h (tables (arrive s))) as Ho by (by exists x). split; [done|].
  destruct Hk as [_ Hk]. unfold committed. unfold closed in Hk. by rewrite Hk.
Qed.

(** *** Claiming a terminal row *)

Section terminal_row.
Context (i : Z) (a : addition) (Howned : forall d, P d -> owned i (a_hash a) d).

Lemma cas_live from c now d d' : P d -> update_status_if_in i (value Downloading) from c now d = (Ok true, d') -> live_row i d'.
Proof using HR.
  intros Hd E. unfold update_status_if_in, lift_res, mbind, DBM_bind, reading in E.
  destruct (cas_values (value Downloading) c now) as [values|e] eqn:Hv; [|done].
  rewrite update_download_spec in E by auto. destruct (row_of d i) as [x|] eqn:Hx; [|done].
  destruct (cas_guard d i from c x); [|done]. unfold checked in E. destruct (downloads_ok _ _); [|done]. simpl in E.
  pose proof (after_write_downloads i (value Downloading) (shared c) now (with_row i values d)) as Hafter.
  destruct (after_write _ _ _ _ _) as [[u|e] d2]; [|done]. injection E as <-. simpl in Hafter.
  apply download_row_Some in Hx as [Hx Hi].
  exists (Download.assign_all values x). rewrite download_assign_id. split_and!; [|done|].
  - rewrite Hafter. unfold rewritten. apply list_elem_of_fmap. exists x. split; [|done].
    unfold has_id. by rewrite Hi, Z.eqb_refl.
  - unfold terminal. by rewrite (cas_values_status _ _ _ _ x Hv).
Qed.

(** The row of the torrent, in the transaction that has claimed it, is that row. *)
Lemma inside_of_hash : triple (inside i) (of_hash nulls_first (a_hash a))
  (fun r s => stays s /\ forall x, r = Some x -> inside (dr_id x) s) (fun _ => stays).
Proof using others_transact HP HR Howned.
  intros s Hs. pose proof (inside_reads i (get_by_hash nulls_first (a_hash a)) s Hs) as Hk.
  unfold of_hash, reads in *. simpl in *. destruct Hs as (_ & _ & Ho). destruct s as [d [d0|] n l]; [|done].
  unfold arrive in *. simpl in *. unfold get_by_hash, first_row, mbind, DBM_bind, query.
  destruct (List.find _ _) as [x|] eqn:Hx; simpl; (split; [by apply (inside_always i)|]); [|done]. intros y [= <-].
  apply List.find_some in Hx as [Hin Hh]. apply list_elem_of_In in Hin. apply bool_decide_eq_true in Hh.
  destruct Hk as ([Hd Hc] & Hl & Hk). simpl in *. destruct (Howned d Hd) as (z & Hz & Hzi & Hzh).
  assert (z = x) as ->; [|rewrite <- Hzi in Hl; split; [exact (conj Hd Hc)|]; split; [exact Hl|exact Hk]].
  pose proof (wf_downloads d (HR d Hd)) as [[H _]%andb_prop _]%andb_prop. apply bool_decide_eq_true in H.
  apply (NoDup_fmap_inj _ _ _ _ H); [done|done|congruence].
Qed.

Lemma between_reuse_row o g c :
  triple between (_reuse_terminal_row nulls_first qbt removal_in_flight scored g_tmdb_id g_year o g a i c)
    (fun x s => if x.2 then inside (dr_id x.1) s else between s) (fun _ => stays).
Proof using others_transact HP HR Howned.
  unfold _reuse_terminal_row. apply between_then; [auto with keeps|]. intros [].
  - eapply triple_bind; [apply between_stays, stays_remove|]. intros x. by apply triple_throw.
  - apply triple_bind with (R := fun (b : bool) s => stays s /\ (b = true -> inside i s)).
    + eapply triple_weaken; [apply (writes_establish _ (fun b d => b = true -> live_row i d))|by intros s [Hs _]| |done].
      * intros now. apply surviving_tracking. constructor.
      * intros now d x d' Hd E ->. by eapply cas_live.
      * intros b s (Hs & Hl & Ho). split; [done|]. intros ->. split_and!; auto.
    + intros []; simpl.
      * apply triple_bind with (R := fun _ => inside i); [apply triple_ret; intros s [_ H]; by apply H|]. intros _.
        eapply triple_bind; [apply inside_of_hash|].
        intros [r|]; [apply triple_ret; intros s [_ Hs]; by apply Hs | apply triple_throw; by intros s [Hs _]].
      * apply triple_bind with (R := fun _ => between); [|intros _].
        { intros s [Hs _]. split; [by apply keeps_rollback | done]. }
        apply between_then; [auto with keeps|]. intros [r|]; [by apply triple_ret | apply between_throw].
Qed.

(** What a loop over the row, or an insertion, ends with. *)
Definition recording (x : DownloadRecord * bool + DownloadRecord) (s : session db effect) : Prop :=
  match x with inl (r, _) => inside (dr_id r) s | inr _ => between s end.

Lemma between_lost {A} g h c (m : Session A) Q : triple between m Q (fun _ => stays) ->
  triple between (lost_to_another nulls_first qbt g h c m) Q (fun _ => stays).
Proof using others_transact HP.
  intros H. unfold lost_to_another. apply between_then; [auto with keeps|]. intros [r|]; [|done].
  destruct (gs_request_id g); [|done]. eapply triple_bind; [apply between_stays, stays_remove|].
  intros x. by apply triple_throw.
Qed.

Lemma stays_refused {A} (R : session db effect -> Prop) g h c (m : Session A) Q : triple R m Q (fun _ => stays) ->
  triple R (reuse_refused nulls_first qbt g h c m) Q (fun _ => stays).
Proof using others_transact HP.
  intros H. unfold reuse_refused. apply triple_try with (E' := fun _ => stays); [done|done|].
  intros e _. apply stays_rollback, between_lost, between_throw.
Qed.

Definition stepping (x : reuse_step) (s : session db effect) : Prop :=
  match x with Reused r => inside (dr_id r) s | Returned _ => between s | Again _ => between s end.

Lemma between_after_reuse o g h c x :
  triple (fun s : session db effect => if (x : DownloadRecord * bool).2 then inside (dr_id x.1) s else between s)
    (after_reuse nulls_first qbt removal_in_flight is_blocklisted scored rounds g_tmdb_id o g h c x)
    stepping (fun _ => stays).
Proof using others_transact HP HR.
  destruct x as [r []]; simpl; [by apply triple_ret|]. apply triple_if; [|apply between_throw].
  eapply triple_bind; [apply between_join|]. intros [y|claim]; by apply triple_ret.
Qed.

Lemma between_reuse w o g c k :
  triple between (reuse nulls_first qbt removal_in_flight is_blocklisted scored rounds g_tmdb_id g_year w o g a i c k)
    recording (fun _ => stays).
Proof using others_transact HP HR Howned.
  revert c. induction k as [|k IH]; intros c; simpl.
  all: eapply triple_bind with (R := stepping).
  all: try (destruct w;
    [apply stays_refused; eapply triple_bind; [apply between_reuse_row|]; intros x; apply between_after_reuse
    |eapply triple_bind; [apply stays_refused, between_reuse_row|]; intros x; apply between_after_reuse]).
  all: intros [r|r|claim]; try (apply triple_ret; intros s Hs; exact Hs).
  - apply triple_throw. by intros s [Hs _].
  - apply IH.
Qed.

End terminal_row.

End transactions.

Section grabbing.
Context {DB : UnicodeDB} {W : Others db} (nulls_first : bool).
Context (others_transact : forall n d, exists k, rtc (tx nulls_first live k) d (others n d)).
Context (P : db -> Prop) (HP : survives nulls_first live P) (HR : forall d, P d -> wf_tracked d).
Context (qbt : DownloadClientPort) (removal_in_flight : Registry) (is_blocklisted : Blocklisted).
Context (scored : ScoredRelease) (rounds : nat) (g_tmdb_id g_year : option Z) (save_path category : list N).

#[local] Abbreviation stays := (always (DB := db) (Ev := effect) P).
#[local] Hint Resolve survivor_tolerated between_sober always_tracking always_method stays_remove : keeps.
#[local] Hint Constructors tracking method : keeps.
#[local] Instance tolerated_here : Tolerated P := survivor_tolerated nulls_first others_transact P HP.
#[local] Instance between_here : Sober (between P) := between_sober nulls_first others_transact P HP.
#[local] Hint Resolve tolerated_here between_here : keeps.

(** With what is known of the row that was read. *)
Section read.
Context (i : Z) (h : list N).

Definition with_row (d : db) : Prop := P d /\ owned i h d.

Lemma with_row_survives : survives nulls_first live with_row.
Proof. apply survives_and; [done | apply owned_survives]. Qed.

Lemma with_row_stays s : always with_row s -> stays s.
Proof. intros [[H1 _] [H2 _]]. by split. Qed.

Lemma read_row (m : Session (DownloadRecord * bool + DownloadRecord)) s :
  triple (between with_row) m (recording with_row) (fun _ => always with_row) ->
  between P s -> always (owned i h) s ->
  match m s with (Ok x, s') => recording P x s' | (Raise _, s') => stays s' end.
Proof.
  intros H [[Ht Hc] Hcl] [Ho1 Ho2]. specialize (H s (conj (conj (conj Ht Ho1) (conj Hc Ho2)) Hcl)).
  destruct (m s) as [[[[x claim]|x]|e] s']; simpl in *; [| |by apply with_row_stays].
  - destruct H as (H1 & H2 & H3). split; [by apply with_row_stays|]. by split.
  - destruct H as [H1 H2]. split; [by apply with_row_stays | done].
Qed.

End read.

Lemma read_reuse w o g a d c k :
  triple (between (with_row d (a_hash a)))
    (reuse nulls_first qbt removal_in_flight is_blocklisted scored rounds g_tmdb_id g_year w o g a d c k)
    (recording (with_row d (a_hash a))) (fun _ => always (with_row d (a_hash a))).
Proof.
  apply (between_reuse nulls_first others_transact (with_row d (a_hash a)) (with_row_survives _ _)
    (fun x Hx => HR x (proj1 Hx)) qbt removal_in_flight is_blocklisted scored rounds g_tmdb_id g_year d a (fun x Hx => proj2 Hx)).
Qed.

Lemma created_live h r m t y n e k title timeout a b c now d x d' :
  create h (value Downloading) r m t y n e k title timeout a b c now d = (Ok x, d') -> live_row (dr_id x) d'.
Proof.
  unfold create, lift_res, mbind at 1, DBM_bind at 1. destruct (match k with Some _ => _ | None => _ end) as [kind|e0]; [|done].
  cbv zeta. unfold mbind at 1, DBM_bind at 1, insert_download at 1, checked. destruct (downloads_ok _ _); [|done].
  match goal with |- context [with_downloads ?l ?d0] => set (d1 := with_downloads l d0) end.
  assert (live_row (next_download_id d) d1) as Hl.
  { eexists. split; [simpl; apply elem_of_app; right; by apply list_elem_of_singleton|]. by vm_compute. }
  destruct r as [i|], n as [j|]; try (by intros [= <- <-]).
  unfold mbind, DBM_bind. pose proof (kept_ensure_scope _ (HP := row_scoped _) (next_download_id d) (Some i) (Some j) e d1 Hl) as Hs.
  destruct (ensure_scope _ _ _ _ _) as [[s|e0] d2]; [|done]. by intros [= <- <-].
Qed.

Lemma between_create o g a c :
  triple (between P)
    (create_row nulls_first qbt removal_in_flight is_blocklisted scored rounds g_tmdb_id g_year o g a c)
    (recording P) (fun _ => stays).
Proof.
  unfold create_row. apply triple_try with (E' := fun _ => stays); [|done|].
  - eapply triple_bind; [|intros r; apply triple_ret; intros s Hs; exact Hs].
    eapply triple_weaken; [apply (writes_establish nulls_first others_transact P HP _ (fun r d => live_row (dr_id r) d))|
      by intros s [Hs _]|by intros x s (H1 & H2 & H3)|done].
    + intros now. apply (surviving_tracking nulls_first P HP). constructor.
    + intros now d x d' _. apply created_live.
  - intros e _. apply stays_rollback. apply (between_lost nulls_first others_transact P HP).
    eapply triple_bind; [apply (between_of_hash nulls_first others_transact P HP)|]. intros [w|].
    + intros s [Hs Hw]. specialize (Hw w eq_refl). apply (read_row (dr_id w) (a_hash a)); [|done|done].
      apply triple_bind with (R := fun _ => between (with_row (dr_id w) (a_hash a))).
      * apply triple_if; [|by apply triple_ret].
        apply (between_join nulls_first others_transact _ (with_row_survives _ _) (fun x Hx => HR x (proj1 Hx))).
      * intros [x|claim]; [by apply triple_ret | apply read_reuse].
    + apply triple_throw. by intros s [[Hs _] _].
Qed.

#[local] Abbreviation inside := (inside P).

Lemma inside_moved_on {A} d r h c Q : triple (inside d) (moved_on (A := A) qbt r h c) Q (fun _ => stays).
Proof.
  unfold moved_on. apply triple_bind with (R := fun _ => stays).
  - intros s [Hs _]. by apply keeps_rollback.
  - intros u. apply triple_bind with (R := fun _ => stays); [apply stays_step, stays_remove|]. intros v. by apply triple_throw.
Qed.

Lemma inside_move {A B} d (m : Session A) (f : A -> Session B) Q : keeps (inside d) m ->
  (forall x, triple (inside d) (f x) Q (fun _ => stays)) -> triple (inside d) (m ≫= f) Q (fun _ => stays).
Proof.
  intros Hm Hf. apply triple_bind with (R := fun _ => inside d); [|done].
  apply triple_keeps; [done|]. intros e s. apply inside_always.
Qed.

Lemma inside_season {A} d (m : Z -> DBM A) : (forall now, method A (m now)) -> keeps (inside d) (writes m).
Proof. intros Hm. apply (inside_method nulls_first P HP d m Hm). Qed.

Lemma inside_targets g r n h d c l :
  triple (inside d) (move_targets qbt g r n h d c l) (fun _ => inside d) (fun _ => stays).
Proof.
  induction l as [|m l IH]; simpl; [by apply triple_ret|]. apply triple_if; [done|].
  apply inside_move; [apply (inside_scope nulls_first P HP)|]. intros x. apply inside_move; [apply inside_season; constructor|].
  intros row. apply inside_move; [apply inside_season; constructor|]. intros []; [done | apply inside_moved_on].
Qed.

Lemma inside_move_season g r n h d c :
  triple (inside d) (move_season nulls_first qbt g r n h d c) (fun _ => stays) (fun _ => stays).
Proof.
  unfold move_season. apply inside_move; [apply inside_season; constructor|]. intros row.
  apply inside_move; [apply inside_season; constructor|]. intros moved.
  apply triple_bind with (R := fun _ => stays); [|intros u; by apply triple_ret].
  destruct moved; [|apply triple_ret; apply inside_always].
  apply (stays_refused nulls_first others_transact P HP). eapply triple_bind; [apply inside_targets|]. intros u.
  apply triple_weaken with (P' := inside d) (Q' := fun _ => inside d) (E' := fun _ => inside d);
    [apply triple_keeps; [apply (inside_claims nulls_first P HP)|done]|done|intros x s; apply inside_always|intros e s; apply inside_always].
Qed.

Lemma inside_move_request o g h d c :
  triple (inside d) (move_request nulls_first qbt o g h d c) (fun _ => stays) (fun _ => stays).
Proof.
  unfold move_request. destruct (gs_request_id g) as [r|]; [|apply triple_ret; apply inside_always].
  apply triple_bind with (R := fun _ => stays).
  - destruct (gs_season g); [apply inside_move_season|]. apply stays_only; [apply inside_always|].
    apply (always_method nulls_first others_transact P HP). constructor.
  - intros []; [by apply triple_ret|]. unfold moved_on. apply stays_step. auto with keeps.
Qed.

Lemma inside_history h d : keeps (inside d) (record_history scored g_tmdb_id h).
Proof.
  unfold record_history. apply inside_writes. intros _ x Hx Hl. split; [|exact Hl].
  eapply (HP 0%nat); [|exact Hx]. apply rtc_once.
  exact (tx_log nulls_first live 0 x (watchlist_items x) _).
Qed.

Lemma recorded_grab o g h x :
  triple (recording P x)
    match x with
    | inr r => mret r
    | inl (record, actually_added) =>
        record_history scored g_tmdb_id h ;;
        move_request nulls_first qbt o g h (dr_id record) actually_added ;;
        commit ;;
        refreshed ← of_hash nulls_first h;
        mret (default record refreshed)
    end (fun _ => between P) (fun _ => stays).
Proof.
  destruct x as [[r claim]|r]; simpl; [|by apply triple_ret].
  apply inside_move; [apply inside_history|]. intros u. eapply triple_bind; [apply inside_move_request|]. intros v.
  apply triple_bind with (R := fun _ => between P); [intros s [Hs _]; split; [by split|done]|]. intros w.
  apply (between_then P); [auto with keeps|]. intros f. by apply triple_ret.
Qed.

Lemma between_record o g source h answer existing tracked c :
  (forall r, existing = Some r -> forall d, P d -> owned (dr_id r) h d) ->
  triple (between P)
    (record_grab nulls_first qbt removal_in_flight is_blocklisted scored rounds g_tmdb_id g_year o g source h answer
       existing tracked c) (fun _ => between P) (fun _ => stays).
Proof.
  intros Hex. unfold record_grab. apply (between_lost nulls_first others_transact P HP). cbv zeta.
  apply (between_then P); [apply keeps_if; auto with keeps|]. intros intent.
  eapply triple_bind; [|apply recorded_grab]. destruct existing as [r|]; [|apply between_create].
  apply (between_reuse nulls_first others_transact P HP HR qbt removal_in_flight is_blocklisted scored rounds g_tmdb_id
    g_year (dr_id r) {| a_hash := h |} (Hex r eq_refl)).
Qed.

(** Before the client is asked. *)
Lemma between_before o g hash :
  triple (between P)
    (before_add nulls_first qbt removal_in_flight is_blocklisted scored rounds g_tmdb_id o g hash)
    (fun _ => between P) (fun _ => stays).
Proof.
  unfold before_add. destruct hash as [h|]; [|by apply triple_ret].
  apply (between_then P); [auto with keeps|]. intros pre.
  apply triple_bind with (R := fun _ => between P).
  - destruct pre as [r|]; [|by apply triple_ret]. apply triple_if.
    + apply (between_then P); [auto with keeps|]. intros []; [apply (between_throw P) | by apply triple_ret].
    + eapply triple_bind; [apply (between_join nulls_first others_transact P HP HR)|].
      intros [x|claim]; by apply triple_ret.
  - intros [r|]; [by apply triple_ret|]. apply (between_then P); [auto with keeps|].
    intros [x|]; [|by apply triple_ret]. destruct (gs_request_id g); [apply (between_throw P) | by apply triple_ret].
Qed.

End grabbing.

Section reached.
Context {DB : UnicodeDB} {W : Others db} (nulls_first : bool).
Context (others_transact : forall n d, exists k, rtc (tx nulls_first live k) d (others n d)).
Context (qbt : DownloadClientPort) (removal_in_flight : Registry) (is_blocklisted : Blocklisted).
Context (scored : ScoredRelease) (rounds : nat) (g_tmdb_id g_year : option Z) (save_path category : list N).

#[local] Abbreviation R := (reachable nulls_first live).
#[local] Abbreviation stays := (always (DB := db) (Ev := effect) R).

Lemma reached_survives : survives nulls_first live R.
Proof. apply reachable_survives_itself. Qed.
Lemma reached_tracked d : R d -> wf_tracked d.
Proof. intros H. apply (reachable_tracked nulls_first live d H). Qed.
#[local] Instance reached_tolerated : Tolerated R := survivor_tolerated nulls_first others_transact R reached_survives.
#[local] Instance reached_between : Sober (between R) := between_sober nulls_first others_transact R reached_survives.
#[local] Hint Resolve reached_tolerated reached_between : keeps.

Lemma with_row_tracked i h d : with_row R i h d -> wf_tracked d.
Proof. intros [H _]. by apply reached_tracked. Qed.

Lemma reached_calling {A} (f : nat -> res A) ev : keeps (between R) (calling f ev).
Proof. by intros s [[H1 H2] H3]. Qed.

Lemma between_add o g source hash :
  triple (between R)
    (add_torrent nulls_first qbt removal_in_flight is_blocklisted scored rounds g_tmdb_id g_year save_path category o g
       source hash)
    (fun _ => between R) (fun _ => stays).
Proof.
  unfold add_torrent. apply (between_then R); [apply reached_calling|]. intros a. cbv zeta.
  apply triple_if; [apply (between_throw R)|].
  eapply triple_bind; [apply (between_of_hash nulls_first others_transact R reached_survives)|]. intros [r|].
  2: { apply triple_weaken with (P' := between R) (Q' := fun _ => between R) (E' := fun _ => stays); [|by intros s [Hs _]|done|done].
       by apply (between_record nulls_first others_transact R reached_survives reached_tracked). }
  set (h := hash_of hash a). set (Q := with_row R (dr_id r) h).
  assert (survives nulls_first live Q) as HQ by apply with_row_survives, reached_survives.
  assert (forall d, Q d -> wf_tracked d) as HQ' by (intros d; apply with_row_tracked).
  assert (forall t c, triple (between Q)
    (record_grab nulls_first qbt removal_in_flight is_blocklisted scored rounds g_tmdb_id g_year o g source h a (Some r) t c)
    (fun _ => between Q) (fun _ => always Q)) as Hrec.
  { intros t c. apply (between_record nulls_first others_transact Q HQ HQ'). by intros x [= <-] d [_ Hd]. }
  apply triple_weaken with (P' := between Q) (Q' := fun _ => between Q) (E' := fun _ => always Q).
  - apply triple_if; [|apply Hrec].
    eapply triple_bind; [apply (between_join nulls_first others_transact Q HQ HQ')|]. intros [y|claim]; [by apply triple_ret | apply Hrec].
  - intros s [[[Ht Hc] Hcl] Ho]. destruct (Ho r eq_refl) as [Ho1 Ho2]. by repeat split.
  - intros x s [H1 H2]. split; [by eapply with_row_stays | done].
  - intros e s. apply with_row_stays.
Qed.

(** C9: A grab is made of the transactions of the repositories, and claims
    seasons only for torrents that are live when it claims them: whatever the
    other processes commit between its statements, and however its calls and
    constraints fail, it leads from a database that can be reached to one that
    can be reached, both in what it commits and in what it leaves uncommitted
    when it raises; so every active claim of a season is there held by a torrent
    that is still tracked.  A grab that returns leaves nothing uncommitted. *)
Theorem a_grab_keeps_the_tables_reachable request_id season episodes expected by_season s :
  saved s = None -> reachable nulls_first live (tables s) ->
  let '(r, s') := grab nulls_first qbt removal_in_flight is_blocklisted scored rounds g_tmdb_id g_year save_path category
                    request_id season episodes expected by_season s in
  (forall d, d = tables s' \/ d = committed s' ->
     reachable nulls_first live d /\
     forall c, c ∈ coverage_claims d -> claim_active c = true -> live d (DownloadCoverageClaim.download_id c)) /\
  (forall record, r = Ok record -> saved s' = None).
Proof.
  intros Hc Hs. match goal with |- let '(_, _) := ?m s in _ =>
    assert (triple (between R) m (fun _ => between R) (fun _ => stays)) as Hm end.
  { unfold grab. destruct (source_of scored); [|apply (between_throw R)].
    apply (between_then R); [auto with keeps|]. intros o.
    eapply triple_bind; [apply (between_before nulls_first others_transact R reached_survives reached_tracked)|].
    intros [r|]; [by apply triple_ret | apply between_add]. }
  assert (between R s) as Hb by (split; [split; [done|unfold committed; by rewrite Hc]|done]).
  specialize (Hm s Hb). destruct (grab _ _ _ _ _ _ _ _ _ _ _ _ _ _ _ s) as [r s']. split.
  - assert (stays s') as [Ht Hcs] by (destruct r; [apply Hm | exact Hm]). intros d Hd.
    assert (reachable nulls_first live d) as Hr by (by destruct Hd as [-> | ->]). split; [done|].
    intros c Hin Ha. destruct (reachable_guarded nulls_first d Hr) as [_ Hg]. by destruct (Hg c Hin Ha).
  - intros record ->. apply Hm.
Qed.

End reached.

(** ** Concrete grabs *)

Section scenario.
#[local] Existing Instance ascii_db.

(** A pack of both seasons of the show, by magnet link. *)
Definition pack_candidate : CandidateRelease :=
  {| cr_guid := lit "g"; cr_title := lit "Show.S01-S02"; cr_size_bytes := 1; cr_download_url := None;
     cr_magnet_url := Some (lit "magnet:?xt=urn:btih:CC"); cr_info_hash := None; cr_seeders := Some 5%Z; cr_leechers := None;
     cr_indexer_id := 1; cr_indexer_name := lit "idx"; cr_indexer_priority := 25;
     cr_publish_date := 0; cr_imdb_id := 0; cr_tmdb_id := 77; cr_categories := [];
     cr_protocol := lit "torrent" |}.

Definition pack_parsed : ParsedRelease :=
  {| pr_raw_title := cr_title pack_candidate; pr_clean_title := lit "Show"; pr_year := None; pr_season := Numbers [1; 2]%Z;
     pr_episode := NoNumber; pr_source := q_source WEBDL1080P; pr_resolution := q_resolution WEBDL1080P;
     pr_modifier := q_modifier WEBDL1080P;
     pr_revision := {| rv_version := 1; rv_is_repack := false; rv_real := 0 |}; pr_release_group := None;
     pr_languages := []; pr_edition := None; pr_hardcoded_subs := None |}.

Definition pack : ScoredRelease :=
  {| sr_candidate := pack_candidate; sr_parsed := pack_parsed; sr_quality := WEBDL1080P; sr_profile_index := 0;
     sr_score := f_zero; sr_covered_seasons := [1; 2]%Z; sr_target_seasons := [1; 2]%Z; sr_upgrade_seasons := [];
     sr_waste_seasons := []; sr_ignored_seasons := []; sr_skipped_seasons := [] |}.

(** A client that creates the torrent, reporting its hash in capitals. *)
Definition fresh_client : DownloadClientPort := {|
  get_status := fun _ _ => Ok None; list_files := fun _ _ => Ok [];
  add := fun _ _ _ _ => Ok {| added_hash := lit "CC"; was_created := true; add_payload_pending := false |};
  remove := fun _ _ _ => Ok tt |}.

Definition solo : Others db := {| others := fun _ d => d; clock := fun n => Z.of_nat n |}.
#[local] Abbreviation grab_pack W :=
  (@GrabService.grab ascii_db W false fresh_client (fun _ _ => false) (fun _ _ _ _ _ _ => Ok false) pack 5 (Some 77%Z) None []
     DEFAULT_CATEGORY (Some 1%Z) (Some 1%Z) None None None).
Definition at_sample : session db effect := {| tables := sample_3; saved := None; moment := 0; trail := [] |}.

(** Another grab takes season 1 while the client is asked: its row is there when
    this grab looks for a conflict. *)
Definition rival_grab : DBM DownloadRecord :=
  create (lit "dd") (value Downloading) (Some 1%Z) None (Some 77%Z) None (Some 1%Z) None (Some (lit "tv")) None None
    false false false 4.
Definition racing : Others db :=
  {| others := fun n d => if (n =? 4)%nat then (rival_grab d).2 else d; clock := fun n => Z.of_nat n |}.

(** At the same moment a third one tracks the torrent itself, for season 2. *)
Definition twin_grab : DBM DownloadRecord :=
  create (lit "cc") (value Downloading) (Some 1%Z) None (Some 77%Z) None (Some 2%Z) None (Some (lit "tv")) None None
    false false false 4.
Definition crowded : Others db :=
  {| others := fun n d => if (n =? 4)%nat then (twin_grab (rival_grab d).2).2 else d; clock := fun n => Z.of_nat n |}.

Lemma sample_3_reachable nulls_first : reachable nulls_first live sample_3.
Proof.
  exists 0%nat.
  refine (rtc_l _ _ sample_1 _ (tx_request nulls_first live 0 _ show_request _ _) _); [apply m_create|].
  refine (rtc_l _ _ sample_2 _ (tx_request nulls_first live 0 _ (SeasonRepository.ensure 1 1 pending false) _ _) _);
    [apply m_season_ensure|].
  refine (rtc_l _ _ sample_3 _ (tx_request nulls_first live 0 _ (SeasonRepository.ensure 1 2 pending false) _ _) _);
    [apply m_season_ensure|]. apply rtc_refl.
Qed.

Lemma racing_transacts nulls_first n d : exists k, rtc (tx nulls_first live k) d (@others db racing n d).
Proof.
  exists 0%nat. simpl. destruct (n =? 4)%nat; [|apply rtc_refl].
  apply rtc_once. exact (tx_tracking nulls_first live 0 _ rival_grab d (t_create _ _ _ _ _ _ _ _ _ _ _ _ _ _ _ _)).
Qed.

(** Alone the grab succeeds and claims both seasons; against the rival it fails,
    removes what it added, and the tables are as the theorem says. *)
Lemma a_grab_keeps_the_tables_reachable_witness :
  (exists r, (grab_pack solo at_sample).1 = Ok r /\ saved (grab_pack solo at_sample).2 = None) /\
  length (coverage_claims (tables (grab_pack solo at_sample).2)) = 2%nat /\
  reachable false live (tables (grab_pack racing at_sample).2) /\
  length (downloads (tables (grab_pack racing at_sample).2)) = 1%nat.
Proof.
  split; [|split; [by vm_compute|split; [|by vm_compute]]].
  - destruct (grab_pack solo at_sample) as [[r|e] s'] eqn:E; [|vm_compute in E; discriminate].
    exists r. split; [reflexivity|].
    pose proof (@a_grab_keeps_the_tables_reachable ascii_db solo false (fun n d => ex_intro _ 0%nat (rtc_refl _ d))
      fresh_client (fun _ _ => false) (fun _ _ _ _ _ _ => Ok false) pack 5 (Some 77%Z) None [] DEFAULT_CATEGORY
      (Some 1%Z) (Some 1%Z) None None None at_sample eq_refl (sample_3_reachable false)) as H.
    rewrite E in H. exact (proj2 H r eq_refl).
  - destruct (grab_pack racing at_sample) as [r s'] eqn:E.
    pose proof (@a_grab_keeps_the_tables_reachable ascii_db racing false (racing_transacts false)
      fresh_client (fun _ _ => false) (fun _ _ _ _ _ _ => Ok false) pack 5 (Some 77%Z) None [] DEFAULT_CATEGORY
      (Some 1%Z) (Some 1%Z) None None None at_sample eq_refl (sample_3_reachable false)) as H.
    rewrite E in H. exact (proj1 (proj1 H (tables s') (or_introl eq_refl))).
Defined.

Definition racing_trail : list effect :=
  [Removed (lit "cc") true;
   Added (lit "magnet:?xt=urn:btih:CC")
     (Ok {| added_hash := lit "CC"; was_created := true; add_payload_pending := false |})].

Lemma a_grab_removes_only_what_it_added_witness :
  Removed (lit "cc") true ∈ trail (grab_pack racing at_sample).2 /\
  exists source a, Added source (Ok a) ∈ trail (grab_pack racing at_sample).2 /\ was_created a = true /\
    hash_of (known_hash pack) a = lit "cc".
Proof.
  assert (trail (grab_pack racing at_sample).2 = racing_trail) as Ht by (vm_compute; reflexivity).
  rewrite Ht. split; [left|].
  destruct (grab_pack racing at_sample) as [r s'] eqn:E. cbn [snd] in Ht.
  pose proof (@a_grab_removes_only_what_it_added ascii_db racing false
    fresh_client (fun _ _ => false) (fun _ _ _ _ _ _ => Ok false) pack 5 (Some 77%Z) None [] DEFAULT_CATEGORY
    (Some 1%Z) (Some 1%Z) None None None at_sample eq_refl) as H.
  rewrite E in H. destruct (proj1 H [] _ _ _ Ht) as [(source & a & Ha & Hc & Hh) _].
  exists source, a. split; [by right | done].
Defined.

(** The other grab's row appears between the look-up of the torrent and the look
    for conflicts: the torrent is removed, with its files, while a row tracks it. *)
Lemma a_tracked_torrent_can_be_removed :
  Removed (lit "cc") true ∈ trail (grab_pack crowded at_sample).2 /\
  existsb (fun x => bool_decide (Download.torrent_hash x = lit "cc") && negb (terminal x))
    (downloads (committed (grab_pack crowded at_sample).2)) = true.
Proof. split; [|by vm_compute]. vm_compute. left. Qed.

End scenario.
