(* ===== verification/PurgeRegistry.v ===== *)
(** * Deletes, placements and pressure leases in one process ([services/purge_service.py])

    Two reference-counted registries of paths keep an import from placing files
    where a purge is deleting, and leases over a library root tell a sweep that a
    correction has taken over.  A function here has no suspension point, so one
    call is one atomic step of the event loop; the theorems quantify over every
    interleaving of such steps.

    A lease is an object its holder and the registry share: it is named by an
    address. *)

From Stdlib Require Import ZArith Lia Bool String.
From S2P Require Import Prelude PyStr LibraryRoots PyOs.

#[local] Open Scope bool_scope.

Abbreviation registry := (list (list N * Z)) (only parsing).

Record PressureExclusionLease := {
  label : list N;
  owns_path : list N -> bool;
  revoked_reason : option (list N);
}.

Record registries := {
  purge_paths : registry;                                  (** [_ACTIVE_PURGE_PATHS] *)
  placement_paths : registry;                              (** [_ACTIVE_PLACEMENT_PATHS] *)
  leases : list (Z * PressureExclusionLease);              (** [_PRESSURE_EXCLUSION_LEASES] *)
}.

Definition empty_registries : registries := {| purge_paths := []; placement_paths := []; leases := [] |}.

Section process.
(** The working directory of the process. *)
Context (cwd : list N).

Definition _normalize_guard_path (path : list N) : list N := abspath cwd (normpath path).

(** Two normal paths, one equal to, above or below the other. *)
Definition overlap (norm other : list N) : bool :=
  bool_decide (norm = other) || prefixb (other ++ sep) norm || prefixb (norm ++ sep) other.

Definition _conflicts_with (path : list N) (r : registry) : bool :=
  let norm := _normalize_guard_path path in existsb (fun '(other, _) => overlap norm other) r.

(** [registry[norm] = count]. *)
Fixpoint put (norm : list N) (count : Z) (r : registry) : registry :=
  match r with
  | [] => [(norm, count)]
  | (k, v) :: r' => if bool_decide (k = norm) then (k, count) :: r' else (k, v) :: put norm count r'
  end.

Definition _register (path : list N) (r : registry) : registry :=
  let norm := _normalize_guard_path path in put norm (default 0 (assoc norm r) + 1)%Z r.

Definition _unregister (path : list N) (r : registry) : registry :=
  let norm := _normalize_guard_path path in
  let count := (default 0 (assoc norm r) - 1)%Z in
  if (0 <? count)%Z then put norm count r
  else List.filter (fun '(k, _) => negb (bool_decide (k = norm))) r.

Definition with_purges (r : registry) (s : registries) : registries :=
  {| purge_paths := r; placement_paths := placement_paths s; leases := leases s |}.
Definition with_placements (r : registry) (s : registries) : registries :=
  {| purge_paths := purge_paths s; placement_paths := r; leases := leases s |}.
Definition with_leases (l : list (Z * PressureExclusionLease)) (s : registries) : registries :=
  {| purge_paths := purge_paths s; placement_paths := placement_paths s; leases := l |}.

Definition begin_placement (library_path : list N) (s : registries) : bool * registries :=
  if _conflicts_with library_path (purge_paths s) then (false, s)
  else (true, with_placements (_register library_path (placement_paths s)) s).

Definition end_placement (library_path : list N) (s : registries) : registries :=
  with_placements (_unregister library_path (placement_paths s)) s.

Definition begin_purge (library_path : list N) (s : registries) : bool * registries :=
  if _conflicts_with library_path (purge_paths s) then (false, s)
  else (true, with_purges (_register library_path (purge_paths s)) s).

Definition purge_in_progress (library_path : list N) (s : registries) : bool :=
  _conflicts_with library_path (purge_paths s).

Definition end_purge (library_path : list N) (s : registries) : registries :=
  with_purges (_unregister library_path (purge_paths s)) s.

Definition active_purge_paths (s : registries) : list (list N) := (purge_paths s).*1.

(** The first statements of [purge_library_path]: deferred ([false]) when an
    import is placing there, registered otherwise. *)
Definition start_purge (library_path : list N) (s : registries) : bool * registries :=
  if _conflicts_with library_path (placement_paths s) then (false, s)
  else (true, with_purges (_register library_path (purge_paths s)) s).

(** *** Leases *)

Definition acquire_pressure_exclusion (address : Z) (label : list N) (owns_path : list N -> bool)
    (s : registries) : option Z * registries :=
  if existsb owns_path (active_purge_paths s) then (None, s)
  else (Some address,
        with_leases (leases s ++ [(address, {| label := label; owns_path := owns_path; revoked_reason := None |})]) s).

Fixpoint remove_lease (address : Z) (l : list (Z * PressureExclusionLease)) : list (Z * PressureExclusionLease) :=
  match l with
  | [] => []
  | (a, x) :: l' => if (a =? address)%Z then l' else (a, x) :: remove_lease address l'
  end.

Definition release_pressure_exclusion (address : Z) (s : registries) : registries :=
  with_leases (remove_lease address (leases s)) s.

Definition is_revocable (library_path : list N) (x : PressureExclusionLease) : bool :=
  match revoked_reason x with None => owns_path x library_path | Some _ => false end.

Definition revoke (reason : list N) (x : PressureExclusionLease) : PressureExclusionLease :=
  {| label := label x; owns_path := owns_path x; revoked_reason := Some reason |}.

Definition revoke_pressure_exclusions (library_path reason : list N) (s : registries) : list (list N) * registries :=
  (label ∘ snd <$> List.filter (fun ax => is_revocable library_path ax.2) (leases s),
   with_leases ((fun ax => if is_revocable library_path ax.2 then (ax.1, revoke reason ax.2) else ax) <$> leases s) s).

(** ** Reference counts *)

(** How often a normal path is registered. *)
Definition refs (norm : list N) (r : registry) : Z := default 0%Z (assoc norm r).

(** The keys are distinct and every count is positive. *)
Definition counted (r : registry) : Prop := NoDup r.*1 /\ Forall (fun kv => (0 < kv.2)%Z) r.

Lemma assoc_put k v norm r : assoc norm (put k v r) = if bool_decide (k = norm) then Some v else assoc norm r.
Proof.
  induction r as [|[k' v'] r IH]; simpl; [repeat case_bool_decide; congruence|].
  repeat (case_bool_decide; cbn [assoc]); rewrite ?IH; congruence.
Qed.

Lemma put_keys k v r : forall x, x ∈ (put k v r).*1 <-> x = k \/ x ∈ r.*1.
Proof.
  induction r as [|[k' v'] r IH]; intros x; simpl.
  - rewrite list_elem_of_singleton. rewrite elem_of_nil. tauto.
  - case_bool_decide; subst; simpl; rewrite !elem_of_cons; [tauto|]. rewrite IH. tauto.
Qed.

Lemma put_counted k v r : counted r -> (0 < v)%Z -> counted (put k v r).
Proof.
  intros [Hn Hp] Hv. induction r as [|[k' v'] r IH]; simpl.
  - split; [apply NoDup_singleton | by repeat constructor].
  - apply NoDup_cons in Hn as [Hk Hn]. inversion_clear Hp as [|? ? Hv' Hp']. case_bool_decide as Hkk; subst.
    + split; simpl; [by constructor | by constructor].
    + destruct (IH Hn Hp') as [Hn' Hp'']. split; simpl; [|by constructor].
      constructor; [|done]. rewrite put_keys. intros [->|]; done.
Qed.

Lemma assoc_drop k norm r :
  assoc norm (List.filter (fun '(k', _) => negb (bool_decide (k' = k))) r : registry) =
  if bool_decide (k = norm) then None else assoc norm r.
Proof.
  induction r as [|[k' v'] r IH]; [by case_bool_decide|]. cbn [List.filter].
  destruct (bool_decide (k' = k)) eqn:Hk; cbn [negb assoc]; rewrite IH;
    [apply bool_decide_eq_true in Hk as -> | apply bool_decide_eq_false in Hk];
    repeat case_bool_decide; congruence.
Qed.

Lemma drop_counted k (r : registry) : counted r -> counted (List.filter (fun '(k', _) => negb (bool_decide (k' = k))) r).
Proof.
  intros [Hn Hp]. split.
  - clear Hp. induction r as [|[k' v'] r IH]; simpl; [constructor|]. apply NoDup_cons in Hn as [Hk Hn].
    destruct (bool_decide (k' = k)); simpl; [by apply IH|]. constructor; [|by apply IH].
    intros Hin. apply Hk. apply list_elem_of_fmap in Hin as ([a b] & -> & Hin).
    apply list_elem_of_In, List.filter_In in Hin as [Hin _]. apply list_elem_of_fmap. exists (a, b).
    split; [done|]. by apply list_elem_of_In.
  - rewrite Forall_forall in *. intros x Hx. apply list_elem_of_In, List.filter_In in Hx as [Hx _].
    apply Hp. by apply list_elem_of_In.
Qed.

Lemma refs_nonneg norm r : counted r -> (0 <= refs norm r)%Z.
Proof.
  intros [_ Hp]. unfold refs. destruct (assoc norm r) as [v|] eqn:Ha; simpl; [|lia].
  apply assoc_Some_in in Ha. rewrite Forall_forall in Hp. specialize (Hp _ Ha). simpl in Hp. lia.
Qed.

Lemma register_counted p r : counted r -> counted (_register p r).
Proof.
  intros Hr. unfold _register. apply put_counted; [done|].
  pose proof (refs_nonneg (_normalize_guard_path p) r Hr). unfold refs in *. lia.
Qed.

Lemma unregister_counted p r : counted r -> counted (_unregister p r).
Proof.
  intros Hr. unfold _unregister. destruct (0 <? _)%Z eqn:Hc; [apply put_counted; [done|lia] | by apply drop_counted].
Qed.

Lemma refs_register p r norm :
  refs norm (_register p r) = (refs norm r + if bool_decide (_normalize_guard_path p = norm) then 1 else 0)%Z.
Proof.
  unfold _register, refs. rewrite assoc_put. case_bool_decide as H; [by rewrite H|]. lia.
Qed.

Lemma refs_unregister p r norm : counted r ->
  refs norm (_unregister p r) =
  if bool_decide (_normalize_guard_path p = norm) then Z.max 0 (refs norm r - 1) else refs norm r.
Proof.
  intros Hr. pose proof (refs_nonneg norm r Hr). unfold _unregister, refs in *.
  destruct (0 <? _)%Z eqn:Hc; rewrite ?assoc_put, ?assoc_drop; case_bool_decide as H'; subst; simpl; lia.
Qed.

(** A path is in conflict exactly when it overlaps a registered one. *)
Lemma conflicts_refs p r : counted r ->
  _conflicts_with p r = true <-> exists norm, (0 < refs norm r)%Z /\ overlap (_normalize_guard_path p) norm = true.
Proof.
  intros [Hn Hp]. unfold _conflicts_with. rewrite existsb_exists_iff. split.
  - intros ([k v] & Hin & Ho). exists k. split; [|done]. unfold refs.
    rewrite Forall_forall in Hp. pose proof (Hp _ Hin) as Hv. simpl in Hv.
    destruct (assoc k r) as [w|] eqn:Ha.
    + apply assoc_Some_in in Ha. pose proof (Hp _ Ha). simpl in *. lia.
    + exfalso. clear -Hin Ha. induction r as [|[k' v'] r IH]; [by apply elem_of_nil in Hin|]. simpl in Ha.
      case_bool_decide; [done|]. apply elem_of_cons in Hin as [[= -> ->]|Hin]; [done | by apply IH].
  - intros (norm & Hr & Ho). unfold refs in Hr. destruct (assoc norm r) as [v|] eqn:Ha; [|simpl in Hr; lia].
    exists (norm, v). split; [by apply assoc_Some_in | done].
Qed.

Lemma overlap_sym a b : overlap a b = overlap b a.
Proof.
  unfold overlap. rewrite <- !orb_assoc, (orb_comm (prefixb (b ++ sep) a)). f_equal.
  apply bool_decide_ext. split; by intros ->.
Qed.

(** ** Interleavings *)

(** What the coroutines of the process are doing: placements that have begun,
    claims held ([begin_purge]), those of them taken by corrections, which defeat
    the leases in the same step, and calls of [purge_library_path] between their
    start and the release of their registration. *)
Record world := {
  regs : registries;
  placing : list (list N);
  claims : list (list N);
  corrections : list (list N);
  deletes : list (list N);
}.

Definition idle : world :=
  {| regs := empty_registries; placing := []; claims := []; corrections := []; deletes := [] |}.

Inductive step (w : world) : world -> Prop :=
  | place q s : begin_placement q (regs w) = (true, s) ->
      step w {| regs := s; placing := q :: placing w; claims := claims w; corrections := corrections w;
                deletes := deletes w |}
  | placed q rest : placing w ≡ₚ q :: rest ->
      step w {| regs := end_placement q (regs w); placing := rest; claims := claims w;
                corrections := corrections w; deletes := deletes w |}
  | claim p s : begin_purge p (regs w) = (true, s) ->
      step w {| regs := s; placing := placing w; claims := p :: claims w; corrections := corrections w;
                deletes := deletes w |}
  | correct p s reason : begin_purge p (regs w) = (true, s) ->
      step w {| regs := (revoke_pressure_exclusions p reason s).2; placing := placing w; claims := p :: claims w;
                corrections := p :: corrections w; deletes := deletes w |}
  | unclaim p rest corrections' : claims w ≡ₚ p :: rest -> corrections' ⊆ corrections w ->
      corrections' ⊆ rest ->
      step w {| regs := end_purge p (regs w); placing := placing w; claims := rest;
                corrections := corrections'; deletes := deletes w |}
  | delete p s : start_purge p (regs w) = (true, s) ->
      step w {| regs := s; placing := placing w; claims := claims w; corrections := corrections w;
                deletes := p :: deletes w |}
  | deleted p rest : deletes w ≡ₚ p :: rest ->
      step w {| regs := end_purge p (regs w); placing := placing w; claims := claims w;
                corrections := corrections w; deletes := rest |}
  | lease address label owns s a :
      (** the predicate reads a path's normal form, as [_owned_by_root] does *)
      (forall p, owns (_normalize_guard_path p) = owns p) ->
      acquire_pressure_exclusion address label owns (regs w) = (Some a, s) ->
      step w {| regs := s; placing := placing w; claims := claims w; corrections := corrections w;
                deletes := deletes w |}
  | unlease address :
      step w {| regs := release_pressure_exclusion address (regs w); placing := placing w; claims := claims w;
                corrections := corrections w; deletes := deletes w |}.

(** How many of the paths have a normal form. *)
Definition count (norm : list N) (l : list (list N)) : Z :=
  Z.of_nat (length (List.filter (fun p => bool_decide (_normalize_guard_path p = norm)) l)).

Lemma count_cons norm p l :
  count norm (p :: l) = (count norm l + if bool_decide (_normalize_guard_path p = norm) then 1 else 0)%Z.
Proof. unfold count. simpl. case_bool_decide; simpl; lia. Qed.

Lemma filter_perm {A} (f : A -> bool) l l' : l ≡ₚ l' -> List.filter f l ≡ₚ List.filter f l'.
Proof.
  induction 1 as [| x l l' _ IH| x y l | l1 l2 l3 _ IH1 _ IH2]; simpl; [done| | |by etrans].
  - destruct (f x); by rewrite ?IH.
  - destruct (f x), (f y); try done. apply Permutation_swap.
Qed.

Lemma count_perm norm l l' : l ≡ₚ l' -> count norm l = count norm l'.
Proof. intros H. unfold count. by rewrite (filter_perm _ _ _ H). Qed.

Lemma count_elem norm p (l : list (list N)) : p ∈ l -> _normalize_guard_path p = norm -> (0 < count norm l)%Z.
Proof.
  intros Hp <-. unfold count. destruct (List.filter _ l) as [|x k] eqn:Hf; [|simpl; lia]. exfalso.
  assert (In p (List.filter (fun q => bool_decide (_normalize_guard_path q = _normalize_guard_path p)) l)) as Hin.
  { apply List.filter_In. split; [by apply list_elem_of_In | by apply bool_decide_eq_true]. }
  rewrite Hf in Hin. done.
Qed.

Record invariant (w : world) : Prop := {
  inv_purges : counted (purge_paths (regs w));
  inv_placements : counted (placement_paths (regs w));
  inv_purge_refs : forall norm, refs norm (purge_paths (regs w)) = (count norm (claims w) + count norm (deletes w))%Z;
  inv_placement_refs : forall norm, refs norm (placement_paths (regs w)) = count norm (placing w);
  inv_apart : forall p q, p ∈ deletes w -> q ∈ placing w ->
    overlap (_normalize_guard_path p) (_normalize_guard_path q) = false;
  inv_corrections : corrections w ⊆ claims w;
  inv_leases : forall a x p, (a, x) ∈ leases (regs w) -> revoked_reason x = None -> p ∈ corrections w ->
    owns_path x p = false;
}.

Lemma no_conflict p r (l : list (list N)) : counted r -> _conflicts_with p r = false ->
  (forall q, q ∈ l -> (0 < refs (_normalize_guard_path q) r)%Z) ->
  forall q, q ∈ l -> overlap (_normalize_guard_path p) (_normalize_guard_path q) = false.
Proof.
  intros Hr Hc Hl q Hq. destruct (overlap _ _) eqn:Ho; [|done]. exfalso.
  assert (_conflicts_with p r = true) as H; [|congruence].
  apply conflicts_refs; [done|]. exists (_normalize_guard_path q). auto.
Qed.

Lemma elem_remove_lease a (l : list (Z * PressureExclusionLease)) x : x ∈ remove_lease a l -> x ∈ l.
Proof.
  induction l as [|[a' y] l IH]; simpl; [done|]. destruct (a' =? a)%Z; rewrite ?elem_of_cons; tauto.
Qed.

Lemma invariant_step w w' : invariant w -> step w w' -> invariant w'.
Proof.
  intros [H1 H2 H3 H4 H5 H6 H7] Hs. destruct Hs as
    [q s Hb|q rest Hp|p s Hb|p s reason Hb|p rest co Hp Hc1 Hc2|p s Hb|p rest Hp|ad lb ow s a Ho Ha|ad].
  - unfold begin_placement in Hb. destruct (_conflicts_with _ _) eqn:Hc; [done|]. injection Hb as <-.
    split; simpl; auto using register_counted.
    + intros norm. by rewrite refs_register, H4, count_cons.
    + intros p q' Hp. rewrite elem_of_cons. intros [->|Hq]; [|by apply H5].
      rewrite overlap_sym. apply (no_conflict q _ (deletes w) H1 Hc); [|done].
      intros p' Hp'. rewrite H3. pose proof (count_elem _ p' (deletes w) Hp' eq_refl).
      unfold count at 1. lia.
  - split; simpl; auto using unregister_counted.
    + intros norm. rewrite refs_unregister, H4, (count_perm _ _ _ Hp), count_cons by done.
      case_bool_decide; unfold count; lia.
    + intros p q' Hd Hq. apply H5; [done|]. rewrite Hp. by right.
  - unfold begin_purge in Hb. destruct (_conflicts_with _ _) eqn:Hc; [done|]. injection Hb as <-.
    split; simpl; auto using register_counted.
    + intros norm. rewrite refs_register, H3, count_cons. lia.
    + set_solver.
  - unfold begin_purge in Hb. destruct (_conflicts_with _ _) eqn:Hc; [done|]. injection Hb as <-.
    split; simpl; auto using register_counted.
    + intros norm. rewrite refs_register, H3, count_cons. lia.
    + set_solver.
    + intros a x p' Hin Hr Hp'. apply list_elem_of_fmap in Hin as ([a' y] & Heq & Hin). simpl in Heq.
      destruct (is_revocable p y) eqn:Hrev; [injection Heq as -> ->; done|]. injection Heq as -> ->.
      apply elem_of_cons in Hp' as [->|Hp']; [|by eapply H7]. unfold is_revocable in Hrev. by rewrite Hr in Hrev.
  - split; simpl; auto using unregister_counted.
    + intros norm. rewrite refs_unregister, H3, (count_perm _ _ _ Hp), count_cons by done.
      case_bool_decide; unfold count; lia.
    + intros a x p' Hin Hr Hp'. eapply H7; eauto.
  - unfold start_purge in Hb. destruct (_conflicts_with _ _) eqn:Hc; [done|]. injection Hb as <-.
    split; simpl; auto using register_counted.
    + intros norm. rewrite refs_register, H3, count_cons. lia.
    + intros p' q. rewrite elem_of_cons. intros [->|Hp] Hq; [|by apply H5].
      apply (no_conflict p _ (placing w) H2 Hc); [|done].
      intros q' Hq'. rewrite H4. by apply (count_elem _ q').
  - split; simpl; auto using unregister_counted.
    + intros norm. rewrite refs_unregister, H3, (count_perm _ _ _ Hp), count_cons by done.
      case_bool_decide; unfold count; lia.
    + intros p' q Hd Hq. apply H5; [|done]. rewrite Hp. by right.
  - unfold acquire_pressure_exclusion in Ha. destruct (existsb _ _) eqn:He; [done|]. injection Ha as <- <-.
    split; simpl; try done. intros a' x p. rewrite elem_of_app, list_elem_of_singleton.
    intros [Hin|[= -> ->]] Hr Hp; [by eapply H7|]. simpl. destruct (ow p) eqn:Hop; [|done]. exfalso.
    assert (existsb ow (active_purge_paths (regs w)) = true) as Ht; [|congruence].
    apply existsb_exists_iff. exists (_normalize_guard_path p). split; [|by rewrite Ho].
    apply H6 in Hp. pose proof (count_elem _ p (claims w) Hp eq_refl) as Hpos.
    assert (0 < refs (_normalize_guard_path p) (purge_paths (regs w)))%Z as Href
      by (rewrite H3; unfold count in *; lia).
    unfold refs in Href. destruct (assoc _ _) as [v|] eqn:Hv; [|simpl in Href; lia].
    apply assoc_Some_in in Hv. apply list_elem_of_fmap. by exists (_normalize_guard_path p, v).
  - split; simpl; try done. intros a x p Hin. apply H7 with a. by eapply elem_remove_lease.
Qed.

Lemma reachable_invariant w : rtc step idle w -> invariant w.
Proof.
  intros H. cut (invariant idle -> invariant w).
  { intros Hi. apply Hi. assert (counted []) as Hnil by (split; [apply NoDup_nil_2 | constructor]).
    split; simpl; try done; intros *; by rewrite ?elem_of_nil. }
  induction H as [|w1 w2 w3 Hs _ IH]; [done|]. intros Hi. by eapply IH, invariant_step.
Qed.


(** While a correction holds a path, every pressure lease that covers the path
    has been revoked, whether it was acquired before the correction or not. *)
Theorem correction_defeats_every_lease w p a x : rtc step idle w -> p ∈ corrections w ->
  (a, x) ∈ leases (regs w) -> owns_path x p = true -> revoked_reason x <> None.
Proof.
  intros Hw Hp Hl Ho Hr. pose proof (inv_leases w (reachable_invariant w Hw) a x p Hl Hr Hp). congruence.
Qed.

End process.

(** ** Examples *)

(** The root of the file system has no conflict with what it contains: the
    separator appended to it makes two slashes. *)
Theorem root_conflicts_only_with_itself cwd r :
  (forall k v, (k, v) ∈ r -> exists c t, k = slash :: c :: t /\ (c =? slash)%N = false) ->
  _conflicts_with cwd sep r = false.
Proof.
  intros Hr. unfold _conflicts_with. destruct (existsb _ r) eqn:He; [|done]. exfalso.
  apply existsb_exists_iff in He as ([k v] & Hin & Ho). destruct (Hr k v Hin) as (c & t & -> & Hc).
  assert (_normalize_guard_path cwd sep = sep) as Hn by reflexivity. rewrite Hn in Ho.
  unfold overlap in Ho. rewrite bool_decide_false in Ho by done.
  assert (prefixb ((slash :: c :: t) ++ sep) sep = false) as E1 by reflexivity.
  assert (prefixb (sep ++ sep) (slash :: c :: t) = false) as E2.
  { unfold sep. cbn [app prefixb]. by rewrite (N.eqb_sym slash c), Hc, andb_false_r. }
  by rewrite E1, E2 in Ho.
Qed.

Lemma root_conflicts_only_with_itself_witness :
  _conflicts_with (lit "/app") sep [(lit "/media/Film", 1%Z)] = false.
Proof.
  apply (root_conflicts_only_with_itself (lit "/app") [(lit "/media/Film", 1%Z)]).
  intros k v [[= <- <-]|[]]%list_elem_of_In. do 2 eexists. split; reflexivity.
Defined.

Definition cwd0 : list N := lit "/app".

(** A purge of one film while another is placed. *)
Definition world_delete : world :=
  {| regs := (start_purge cwd0 (lit "/m/A") empty_registries).2; placing := []; claims := []; corrections := [];
     deletes := [lit "/m/A"] |}.
Definition world_both : world :=
  {| regs := (begin_placement cwd0 (lit "/m/B/f.mkv") (regs world_delete)).2; placing := [lit "/m/B/f.mkv"];
     claims := []; corrections := []; deletes := [lit "/m/A"] |}.


(** A sweep leases its root, then a correction claims a path below it. *)
Definition world_lease : world :=
  {| regs := (acquire_pressure_exclusion 1 (lit "/") (fun _ => true) empty_registries).2; placing := []; claims := [];
     corrections := []; deletes := [] |}.
Definition world_corrected : world :=
  {| regs := (revoke_pressure_exclusions (lit "/m/A") (lit "reported") (begin_purge cwd0 (lit "/m/A") (regs world_lease)).2).2;
     placing := []; claims := [lit "/m/A"]; corrections := [lit "/m/A"]; deletes := [] |}.

Lemma correction_defeats_every_lease_witness : exists x,
  leases (regs world_corrected) = [(1%Z, x)] /\ revoked_reason x <> None.
Proof.
  assert (rtc (step cwd0) idle world_corrected) as Hw.
  { apply rtc_l with world_lease.
    { apply (lease cwd0 idle 1 (lit "/") (fun _ => true) _ 1); [reflexivity | vm_compute; reflexivity]. }
    apply rtc_l with world_corrected; [|apply rtc_refl].
    apply (correct cwd0 world_lease (lit "/m/A") _ (lit "reported")). vm_compute. reflexivity. }
  eexists. split; [vm_compute; reflexivity|].
  apply (correction_defeats_every_lease cwd0 world_corrected (lit "/m/A") 1 _ Hw); [left| |reflexivity].
  change (leases (regs world_corrected)) with [(1%Z, snd (List.hd (1%Z, {| label := []; owns_path := fun _ => true;
    revoked_reason := None |}) (leases (regs world_corrected))))]. left.
Defined.
