(* ===== verification/Interaction.v ===== *)
(** * Programs that talk to their environment

    The updater sidecar is a sequence of calls (Docker, the coordinator, the
    state file, the clock) between which it computes.  A program is the tree of
    its calls: after each one it continues with the reply, which may be an
    exception.  Nothing is assumed of the environment beyond [fits]; a run is
    any sequence of replies, and a kill may come between any two calls or
    during one, so a property of runs is a property of all their prefixes.

    [wp] computes, for a monitor that watches the calls, the condition under
    which the monitor accepts every run and the program ends as told; [wp_sound]
    is its soundness, and each combinator has its proof rule. *)

From S2P Require Import Prelude.

Section programs.
Context {Call : Type} {Reply : Call -> Type}.

(** [Hang]: a loop that is still running when the fuel of the model is spent;
    the theorems on runs hold for every amount of fuel, hence for every finite
    run of the loop itself. *)
Inductive prog (X : Type) : Type :=
  | Return (x : X)
  | Do (c : Call) (k : res (Reply c) -> prog X)
  | Hang.
Arguments Return {X} _.
Arguments Do {X} _ _.
Arguments Hang {X}.

Fixpoint prog_bind {X Y} (p : prog X) (f : X -> prog Y) : prog Y :=
  match p with
  | Return x => f x
  | Do c k => Do c (fun r => prog_bind (k r) f)
  | Hang => Hang
  end.

(** ** Runs *)

Inductive event : Type := Ev (c : Call) (r : res (Reply c)).

Context (fits : forall c, res (Reply c) -> Prop).

(** [steps p tr p']: the calls and replies of [tr] lead from [p] to [p']. *)
Inductive steps {X} : prog X -> list event -> prog X -> Prop :=
  | steps_refl p : steps p [] p
  | steps_call c k r tr p' : fits c r -> steps (k r) tr p' -> steps (Do c k) (Ev c r :: tr) p'.

Lemma steps_inv {X} (p : prog X) tr p' : steps p tr p' ->
  match tr with
  | [] => p' = p
  | ev :: tr' =>
      match p with
      | Do c k => exists r, ev = Ev c r /\ fits c r /\ steps (k r) tr' p'
      | _ => False
      end
  end.
Proof. intros [q|c k r tr' q Hr Hs]; [done|]. by exists r. Qed.

(** ** Monitors *)

Context {G : Type} (allowed : G -> Call -> Prop) (next : G -> event -> G).

Definition observe (g : G) (tr : list event) : G := foldl next g tr.

(** Every call of the run was allowed when it was made. *)
Fixpoint accepts (g : G) (tr : list event) : Prop :=
  match tr with
  | [] => True
  | Ev c r :: tr' => allowed g c /\ accepts (next g (Ev c r)) tr'
  end.

Fixpoint wp {X} (p : prog X) (g : G) (Q : G -> X -> Prop) : Prop :=
  match p with
  | Return x => Q g x
  | Do c k => allowed g c /\ forall r, fits c r -> wp (k r) (next g (Ev c r)) Q
  | Hang => True
  end.

(** What is known of a program reached by a run: the call it is about to make,
    or has made without seeing the reply, is allowed as well. *)
Definition at_rest {X} (g : G) (p : prog X) (Q : G -> X -> Prop) : Prop :=
  match p with
  | Return x => Q g x
  | Do c _ => allowed g c
  | Hang => True
  end.

Lemma wp_at_rest {X} (p : prog X) g Q : wp p g Q -> at_rest g p Q.
Proof. destruct p; simpl; tauto. Qed.

Lemma wp_sound {X} (p p' : prog X) g Q tr : wp p g Q -> steps p tr p' ->
  accepts g tr /\ at_rest (observe g tr) p' Q.
Proof.
  intros Hwp Hs. revert g Hwp. induction Hs as [p|c k r tr p' Hr Hs IH]; intros g Hwp; simpl.
  - split; [done|]. by apply wp_at_rest.
  - destruct Hwp as [Ha Hk]. destruct (IH _ (Hk r Hr)) as [H1 H2]. by repeat split.
Qed.

Lemma wp_mono {X} (p : prog X) g (Q R : G -> X -> Prop) :
  (forall g' x, Q g' x -> R g' x) -> wp p g Q -> wp p g R.
Proof.
  intros HQ. revert g; induction p as [x|c k IH|]; intros g; simpl; [by apply HQ| |done].
  intros [Ha Hk]. split; [done|]. intros r Hr. by apply IH, Hk.
Qed.

Lemma wp_bind {X Y} (p : prog X) (f : X -> prog Y) g Q :
  wp p g (fun g' x => wp (f x) g' Q) -> wp (prog_bind p f) g Q.
Proof.
  revert g; induction p as [x|c k IH|]; intros g; simpl; [done| |done].
  intros [Ha Hk]. split; [done|]. intros r Hr. by apply IH, Hk.
Qed.

(** ** Computations on a state that may raise

    A Python exception keeps the mutations made before it. *)

Definition M (S A : Type) : Type := S -> prog (S * res A).

#[export] Instance M_ret {S} : MRet (M S) := fun A x s => Return (s, Ok x).
#[export] Instance M_bind {S} : MBind (M S) := fun A B f m s =>
  prog_bind (m s) (fun '(s', r) =>
    match r with Ok x => f x s' | Raise e => Return (s', Raise e) end).

Definition throw {S A} (e : exn) : M S A := fun s => Return (s, Raise e).
Definition of_res {S A} (r : res A) : M S A := fun s => Return (s, r).
Definition perform {S} (c : Call) : M S (Reply c) := fun s => Do c (fun r => Return (s, r)).
Definition gets {S A} (f : S -> A) : M S A := fun s => Return (s, Ok (f s)).
Definition modify {S} (f : S -> S) : M S unit := fun s => Return (f s, Ok tt).
Definition hang {S A} : M S A := fun s => Hang.

(** [try: m except ...: h]: the handler says which exceptions it catches. *)
Definition try_except {S A} (m : M S A) (h : exn -> option (M S A)) : M S A := fun s =>
  prog_bind (m s) (fun '(s', r) =>
    match r with
    | Ok x => Return (s', Ok x)
    | Raise e => match h e with Some m' => m' s' | None => Return (s', Raise e) end
    end).

(** [try: m finally: f]: an exception of [f] replaces the outcome of [m]. *)
Definition try_finally {S A} (m : M S A) (f : M S unit) : M S A := fun s =>
  prog_bind (m s) (fun '(s', r) =>
    prog_bind (f s') (fun '(s2, r') =>
      match r' with Ok _ => Return (s2, r) | Raise e => Return (s2, Raise e) end)).

(** A computation on a part of the state. *)
Definition zoom {S T A} (get : S -> T) (put : T -> S -> S) (m : M T A) : M S A := fun s =>
  prog_bind (m (get s)) (fun '(t, r) => Return (put t s, r)).

Fixpoint for_each {S A} (body : A -> M S unit) (l : list A) : M S unit :=
  match l with
  | [] => mret tt
  | x :: l' => body x ≫= fun _ => for_each body l'
  end.

(** A call for its effect. *)
Definition act {S} (c : Call) : M S unit := perform c ≫= fun _ => mret tt.

(** [try: m except BaseException: clean; raise]. *)
Definition cleanup {S A} (m : M S A) (clean : M S unit) : M S A :=
  try_except m (fun e => Some (clean ≫= fun _ => throw e)).

(** [except Exc: h]. *)
Definition catching {S A} (p : exn -> bool) (m : M S A) (h : exn -> M S A) : M S A :=
  try_except m (fun e => if p e then Some (h e) else None).

(** ** Proof rules *)

Lemma wp_M_bind {S A B} (m : M S A) (f : A -> M S B) s g Q :
  wp (m s) g (fun g' '(s', r) =>
    match r with Ok x => wp (f x s') g' Q | Raise e => Q g' (s', Raise e) end) ->
  wp ((m ≫= f) s) g Q.
Proof.
  intros H. apply wp_bind. eapply wp_mono; [|exact H]. intros g' [s' [x|e]] Hx; exact Hx.
Qed.

Lemma wp_perform {S} (c : Call) (s : S) g Q :
  allowed g c -> (forall r, fits c r -> Q (next g (Ev c r)) (s, r)) -> wp (perform c s) g Q.
Proof. intros Ha HQ. split; [done|]. intros r Hr. by apply HQ. Qed.

Lemma wp_try {S A} (m : M S A) h s g Q :
  wp (m s) g (fun g' '(s', r) =>
    match r with
    | Ok x => Q g' (s', Ok x)
    | Raise e => match h e with Some m' => wp (m' s') g' Q | None => Q g' (s', Raise e) end
    end) ->
  wp (try_except m h s) g Q.
Proof.
  intros H. apply wp_bind. eapply wp_mono; [|exact H]. intros g' [s' [x|e]] Hx; simpl; [done|].
  by destruct (h e).
Qed.

Lemma wp_finally {S A} (m : M S A) f s g Q :
  wp (m s) g (fun g' '(s', r) =>
    wp (f s') g' (fun g2 '(s2, r') => Q g2 (s2, match r' with Ok _ => r | Raise e => Raise e end))) ->
  wp (try_finally m f s) g Q.
Proof.
  intros H. apply wp_bind. eapply wp_mono; [|exact H]. intros g' [s' r] Hx. apply wp_bind.
  eapply wp_mono; [|exact Hx]. by intros g2 [s2 [[]|e]].
Qed.

Lemma wp_zoom {S T A} (get : S -> T) (put : T -> S -> S) (m : M T A) s g Q :
  wp (m (get s)) g (fun g' '(t, r) => Q g' (put t s, r)) -> wp (zoom get put m s) g Q.
Proof.
  intros H. apply wp_bind. eapply wp_mono; [|exact H]. by intros g' [t r].
Qed.

Lemma wp_catching {S A} (p : exn -> bool) (m : M S A) h s g (Q : G -> S * res A -> Prop) :
  wp (m s) g (fun g' '(s', r) =>
    match (r : res A) with
    | Ok x => Q g' (s', Ok x)
    | Raise e => if p e then wp (h e s') g' Q else Q g' (s', Raise e)
    end) ->
  wp (catching p m h s) g Q.
Proof.
  intros H. apply wp_try. eapply wp_mono; [|exact H]. intros g' [s' [x|e]] Hx; [done|]. by destruct (p e).
Qed.

Lemma wp_cleanup {S A} (m : M S A) f s g (Q : G -> S * res A -> Prop) :
  wp (m s) g (fun g' '(s', r) =>
    match (r : res A) with
    | Ok x => Q g' (s', Ok x)
    | Raise e => wp (f s') g' (fun g2 '(s2, r') =>
        Q g2 (s2, Raise (match (r' : res unit) with Ok _ => e | Raise e' => e' end)))
    end) ->
  wp (cleanup m f s) g Q.
Proof.
  intros H. apply wp_try. eapply wp_mono; [|exact H]. intros g' [s' [x|e]] Hx; [done|].
  apply wp_M_bind. eapply wp_mono; [|exact Hx]. by intros g2 [s2 [[]|e']].
Qed.

(** The call at any point of an accepted run was allowed. *)
Lemma accepts_app g tr1 tr2 : accepts g (tr1 ++ tr2) <-> accepts g tr1 /\ accepts (observe g tr1) tr2.
Proof.
  revert g; induction tr1 as [|[c r] tr1 IH]; intros g; simpl; [tauto|]. rewrite IH. tauto.
Qed.

Lemma accepts_call g pre c r post : accepts g (pre ++ Ev c r :: post) -> allowed (observe g pre) c.
Proof. rewrite accepts_app. simpl. tauto. Qed.

End programs.

Arguments prog {Call} Reply X.
Arguments Return {Call Reply X} _.
Arguments Do {Call Reply X} _ _.
Arguments Hang {Call Reply X}.
Arguments event {Call} Reply.
Arguments Ev {Call Reply} _ _.
Arguments M {Call} Reply S A.
