(* ===== verification/Histories.v ===== *)
(** * Histories

    For monitors that remember the whole run: the calls made so far, newest
    first, with their answers; which calls a program makes; and the frame rule,
    that a fact of the history survives the calls that do not touch it. *)

From S2P Require Import Prelude.
From S2P Require Export Interaction.

#[local] Open Scope bool_scope.

Section histories.
Context {Call : Type} {Reply : Call -> Type}.

Definition next (h : list (event Reply)) (ev : event Reply) : list (event Reply) := ev :: h.

Definition call_of (ev : event Reply) : Call := match ev with Ev c _ => c end.

(** [P] held at some point, and no call since satisfies [Q]. *)
Fixpoint since (P : list (event Reply) -> Prop) (Q : Call -> bool) (h : list (event Reply)) : Prop :=
  P h \/ match h with [] => False | ev :: h' => Q (call_of ev) = false /\ since P Q h' end.

(** The call [c] was answered by [r], and no call since satisfies [Q]. *)
Definition answered (c : Call) (r : res (Reply c)) (Q : Call -> bool) (h : list (event Reply)) : Prop :=
  since (fun h => exists h', h = Ev c r :: h') Q h.

(** ** Which calls a program makes *)

(** It makes only calls of [K], and never hangs. *)
Fixpoint calls {X} (K : Call -> bool) (p : prog Reply X) : Prop :=
  match p with
  | Return _ => True
  | Do c k => K c = true /\ forall r, calls K (k r)
  | Hang => False
  end.

(** [m] makes only calls of [K], in any state. *)
Definition makes {S A} (K : Call -> bool) (m : M Reply S A) : Prop := forall s, calls K (m s).

Lemma calls_bind {X Y} K (p : prog Reply X) (f : X -> prog Reply Y) :
  calls K p -> (forall x, calls K (f x)) -> calls K (prog_bind p f).
Proof.
  intros Hp Hf. induction p as [x|c k IH|]; simpl in *; [apply Hf| |done].
  destruct Hp as [Hc Hk]. split; [done|]. intros r. apply IH, Hk.
Qed.

Section makes.
Context (K : Call -> bool).

Lemma makes_ret {S A} (x : A) : makes K (mret x : M Reply S A).
Proof. by intros s. Qed.
Lemma makes_throw {S A} e : makes K (throw e : M Reply S A).
Proof. by intros s. Qed.
Lemma makes_of_res {S A} (r : res A) : makes K (of_res r : M Reply S A).
Proof. by intros s. Qed.
Lemma makes_gets {S A} (f : S -> A) : makes K (gets f : M Reply S A).
Proof. by intros s. Qed.
Lemma makes_modify {S} f : makes K (modify f : M Reply S unit).
Proof. by intros s. Qed.
Lemma makes_perform {S} c : K c = true -> makes K (perform c : M Reply S _).
Proof. intros H s. by split. Qed.
Lemma makes_bind {S A B} (m : M Reply S A) (f : A -> M Reply S B) : makes K m -> (forall x, makes K (f x)) -> makes K (m ≫= f).
Proof.
  intros Hm Hf s. apply calls_bind; [apply Hm|]. intros [s' [x|e]]; [apply Hf | done].
Qed.
Lemma makes_act {S} c : K c = true -> makes K (act c : M Reply S unit).
Proof. intros H. apply makes_bind; [by apply makes_perform | intros; apply makes_ret]. Qed.
Lemma makes_try {S A} (m : M Reply S A) h : makes K m -> (forall e m', h e = Some m' -> makes K m') -> makes K (try_except m h).
Proof.
  intros Hm Hh s. apply calls_bind; [apply Hm|]. intros [s' [x|e]]; [done|].
  destruct (h e) as [m'|] eqn:He; [by apply (Hh e) | done].
Qed.
Lemma makes_catching {S A} p (m : M Reply S A) h : makes K m -> (forall e, makes K (h e)) -> makes K (catching p m h).
Proof. intros Hm Hh. apply makes_try; [done|]. intros e m'. destruct (p e); [|done]. by intros [= <-]. Qed.
Lemma makes_cleanup {S A} (m : M Reply S A) f : makes K m -> makes K f -> makes K (cleanup m f).
Proof.
  intros Hm Hf. apply makes_try; [done|]. intros e m' [= <-].
  apply makes_bind; [done | intros; apply makes_throw].
Qed.
Lemma makes_finally {S A} (m : M Reply S A) f : makes K m -> makes K f -> makes K (try_finally m f).
Proof.
  intros Hm Hf s. apply calls_bind; [apply Hm|]. intros [s' r]. apply calls_bind; [apply Hf|]. by intros [s2 []].
Qed.
Lemma makes_for_each {S A} (body : A -> M Reply S unit) l : (forall x, makes K (body x)) -> makes K (for_each body l).
Proof. intros H. induction l as [|x l IH]; simpl; [apply makes_ret|]. apply makes_bind; [apply H | done]. Qed.

End makes.

Lemma makes_weaken {S A} (K K' : Call -> bool) (m : M Reply S A) :
  (forall c, K c = true -> K' c = true) -> makes K m -> makes K' m.
Proof.
  intros HK Hm s. specialize (Hm s). induction (m s) as [x|c k IH|]; simpl in *; [done| |done].
  destruct Hm as [Hc Hk]. split; [by apply HK|]. intros r. by apply IH.
Qed.

End histories.

(** Follows the program; what is left is a call whose kind is to be shown, or a
    part that has its own lemma. *)
Create HintDb makes.
#[export] Hint Resolve makes_ret makes_throw makes_of_res makes_gets makes_modify : makes.
#[export] Hint Extern 1 (makes _ (act _)) => apply makes_act; first [reflexivity | assumption] : makes.
#[export] Hint Extern 1 (makes ?K (@perform _ ?R ?S ?c)) =>
  refine (@makes_perform _ R K S c _); first [reflexivity | assumption] : makes.

Ltac makes_step :=
  match goal with
  | |- makes _ (act _) => apply makes_act; first [reflexivity | assumption]
  | |- makes ?K (@perform _ ?R ?S ?c) => refine (@makes_perform _ R K S c _); first [reflexivity | assumption]
  | |- makes _ (catching _ _ _) => apply makes_catching; [|intros ?]
  | |- makes _ (cleanup _ _) => apply makes_cleanup
  | |- makes _ (try_except _ _) => apply makes_try; [|intros ? ? ?]
  | |- makes _ (try_finally _ _) => apply makes_finally
  | |- makes _ (for_each _ _) => apply makes_for_each; intros ?
  | H : (if ?b then _ else _) = Some ?m |- makes _ ?m => destruct b
  | H : Some _ = Some ?m |- makes _ ?m => injection H as <-
  | H : None = Some _ |- _ => discriminate H
  | |- makes _ (match ?x with _ => _ end) => destruct x eqn:?
  | |- makes _ _ => solve [eauto with makes nocore]
  | |- makes _ (_ ≫= _) => apply makes_bind; [|intros ?]
  end.
Ltac makes_all := repeat makes_step.

(** ** The frame rule *)

Section frame.
Context {Call : Type} {Reply : Call -> Type}.

Definition extends (K : Call -> bool) (g g' : list (event Reply)) : Prop :=
  exists tr, g' = tr ++ g /\ Forall (fun ev => K (call_of ev) = true) tr.

Lemma extends_refl K g : extends K g g.
Proof. by exists []. Qed.
Lemma extends_cons (K : Call -> bool) g g' c r : K c = true -> extends K g g' -> extends K g (Ev c r :: g').
Proof. intros Hc (tr & -> & H). exists (Ev c r :: tr). split; [done|]. by constructor. Qed.
Lemma extends_trans K g1 g2 g3 : extends K g1 g2 -> extends K g2 g3 -> extends K g1 g3.
Proof.
  intros (t1 & -> & H1) (t2 & -> & H2). exists (t2 ++ t1). split; [by rewrite app_assoc|]. by apply Forall_app.
Qed.
Lemma extends_weaken (K K' : Call -> bool) g g' :
  (forall c, K c = true -> K' c = true) -> extends K g g' -> extends K' g g'.
Proof. intros HK (tr & -> & H). exists tr. split; [done|]. eapply Forall_impl; [exact H|]. simpl. auto. Qed.

Lemma since_extends P Q K g g' :
  (forall c, K c = true -> Q c = false) -> extends K g g' -> since P Q g -> since P Q g'.
Proof.
  intros HQ (tr & -> & Htr) H. induction Htr as [|ev tr Hev Htr IH]; [done|]. right. split; [by apply HQ | done].
Qed.


Context {fits : forall c, res (Reply c) -> Prop} {allowed : list (event Reply) -> Call -> Prop}.

Abbreviation WP := (wp fits allowed next).

Lemma wp_since {X} K (p : prog Reply X) g Q :
  calls K p -> WP p g Q -> forall g0, extends K g0 g -> WP p g (fun g' x => Q g' x /\ extends K g0 g').
Proof.
  revert g; induction p as [x|c k IH|]; intros g Hc Hw g0 Hg; simpl in *; [done| |done].
  destruct Hc as [Hk Hc], Hw as [Ha Hw]. split; [done|]. intros r Hr.
  apply IH; [done|by apply Hw|]. by apply extends_cons.
Qed.

(** What is proved of a run and which calls it makes are combined. *)
Lemma wp_frame {X} K (p : prog Reply X) g Q :
  calls K p -> WP p g Q -> WP p g (fun g' x => Q g' x /\ extends K g g').
Proof. intros Hc Hw. apply wp_since; [done|done|]. apply extends_refl. Qed.

Lemma wp_extends {X} (p : prog Reply X) g Q :
  WP p g Q -> WP p g (fun g' x => Q g' x /\ extends (fun _ => true) g g').
Proof.
  intros Hw. assert (H : forall g0, extends (fun _ => true) g0 g ->
    WP p g (fun g' x => Q g' x /\ extends (fun _ => true) g0 g')).
  { revert g Hw. induction p as [x|c k IH|]; intros g Hw g0 Hg; simpl in *; [done| |done].
    destruct Hw as [Ha Hw]. split; [done|]. intros r Hr. apply IH; [by apply Hw|]. by apply extends_cons. }
  apply H, extends_refl.
Qed.

(** *** One call *)

Lemma wp_call {S} c (s : S) g (Q : list (event Reply) -> S * res (Reply c) -> Prop) :
  allowed g c -> (forall r, fits c r -> Q (Ev c r :: g) (s, r)) -> WP (perform c s) g Q.
Proof. intros Ha HQ. split; [done|]. exact HQ. Qed.

Lemma wp_act {S} c (s : S) g (Q : list (event Reply) -> S * res unit -> Prop) :
  allowed g c ->
  (forall r, fits c r -> Q (Ev c r :: g) (s, match r with Ok _ => Ok tt | Raise e => Raise e end)) ->
  WP (act c s) g Q.
Proof.
  intros Ha HQ. apply wp_M_bind, wp_perform; [done|]. intros r Hr. specialize (HQ r Hr). by destruct r.
Qed.

End frame.

(** ** Runs *)

Section runs.
Context {Call : Type} {Reply : Call -> Type} (fits : forall c, res (Reply c) -> Prop).

Lemma observed (tr g : list (event Reply)) : observe next g tr = rev tr ++ g.
Proof. revert g; induction tr as [|ev tr IH]; intros g; simpl; [done|]. rewrite IH. unfold next. by rewrite <- app_assoc. Qed.

Definition next_call {X} (p : prog Reply X) : option Call := match p with Do c _ => Some c | _ => None end.

(** [m] makes the call [c] after the events [tr]. *)
Definition issues {S A} (m : M Reply S A) (tr : list (event Reply)) (c : Call) : Prop :=
  exists s p, steps fits (m s) tr p /\ next_call p = Some c.

Lemma makes_issues {S A} K (m : M Reply S A) tr c : makes K m -> issues m tr c -> K c = true.
Proof.
  intros Hm (s & p & Hs & Hc). specialize (Hm s). revert Hm. induction Hs as [p|c' k r tr p' Hr Hs IH]; simpl.
  - destruct p; try done. injection Hc as ->. by intros [H _].
  - intros [_ Hk]. by apply IH.
Qed.

(** [m] ends after the events [tr] with [r]. *)
Definition ends {S A} (m : M Reply S A) (tr : list (event Reply)) (r : res A) : Prop :=
  exists s s', steps fits (m s) tr (Return (s', r)).

(** The answers are a function of what has happened: the run of at most [n] calls
    from [h], and what is left of the program. *)
Fixpoint replay {X} (answer : list (event Reply) -> forall c, res (Reply c)) (n : nat) (h : list (event Reply))
    (p : prog Reply X) : list (event Reply) * prog Reply X :=
  match n, p with
  | S n, Do c k => let x := replay answer n (Ev c (answer h c) :: h) (k (answer h c)) in (Ev c (answer h c) :: x.1, x.2)
  | _, _ => ([], p)
  end.

Lemma replay_steps {X} answer n h (p : prog Reply X) : (forall h c, fits c (answer h c)) ->
  steps fits p (replay answer n h p).1 (replay answer n h p).2.
Proof.
  intros Hf. revert h p; induction n as [|n IH]; intros h p; [constructor|]. destruct p; try constructor; [apply Hf|apply IH].
Qed.

(** A monitor may be replaced by another that allows as much where the program
    starts and afterwards. *)
Lemma wp_monitor {X} (P : list (event Reply) -> Prop) (allowed allowed' : list (event Reply) -> Call -> Prop)
    (p : prog Reply X) g Q :
  (forall ev h, P h -> P (ev :: h)) -> (forall h c, P h -> allowed h c -> allowed' h c) -> P g ->
  wp fits allowed next p g Q -> wp fits allowed' next p g Q.
Proof.
  intros HP Ha. revert g; induction p as [x|c k IH|]; intros g Hg; simpl; [done| |done].
  intros [Hc Hk]. split; [by apply Ha|]. intros r Hr. apply IH; [by apply HP | by apply Hk].
Qed.

End runs.
