(* ===== verification/EvictionIO.v ===== *)
(** * The calls of the eviction service

    What [services/eviction_service.py] and [purge_library_path] ask of their
    environment: the repositories of [RequestRepository] and [SeasonRepository]
    over one session, the registries of [PurgeRegistry], the file system and its
    worker threads, Plex, qBittorrent and the clock.  Other coroutines run
    whenever one of these awaits, so replies are arbitrary here; what a
    compare-and-swap replies on given tables is [RequestFacts]'s subject.

    A probe on an abandonable thread is one call: its permit is taken and
    returned inside it. *)

From Stdlib Require Import ZArith Lia Bool String SpecFloat.
From S2P Require Import Prelude PyStr PyNum RequestStore Eviction.
From S2P Require Import SeasonRepository.
From S2P Require Export PyOs Interaction.

#[local] Open Scope bool_scope.

(** ** What is being evicted *)

(** [_MoviePending] and [_SeasonPending]. *)
Inductive _Pending : Type :=
  | _MoviePending (media_request_id tmdb_id : Z) (size_bytes : option Z) (correction_recovery : bool)
  | _SeasonPending (media_request_id season_request_id season_number tmdb_id : Z) (size_bytes : option Z).

#[export] Instance Pending_eq_dec : EqDecision _Pending.
Proof. solve_decision. Defined.

Definition pending_request (p : _Pending) : Z :=
  match p with _MoviePending i _ _ _ | _SeasonPending i _ _ _ _ => i end.
Definition pending_tmdb (p : _Pending) : Z :=
  match p with _MoviePending _ t _ _ | _SeasonPending _ _ _ t _ => t end.
Definition pending_type (p : _Pending) : MediaType :=
  match p with _MoviePending _ _ _ _ => movie | _SeasonPending _ _ _ _ _ => tv end.
Definition is_correction (p : _Pending) : bool :=
  match p with _MoviePending _ _ _ c => c | _ => false end.

(** ** Exceptions *)

Definition CancelledError : exn := ProgramError "CancelledError" [].
Definition _PressureLeaseDefeated (reason : list N) : exn := ProgramError "_PressureLeaseDefeated" reason.
Definition _RecoveryPurgeRevoked (reason : list N) : exn := ProgramError "_RecoveryPurgeRevoked" reason.
Definition DeleteWorkerStartError (msg : list N) : exn := ProgramError "DeleteWorkerStartError" msg.

(** [except Exception]: a cancellation is not one. *)
Definition is_exception (e : exn) : bool := negb (raises "CancelledError" e).

Definition is_partial_delete (e : exn) : bool := raises "PartialDeleteError" e.
Definition is_refusal (e : exn) : bool := raises "LocalFileSystemError" e.
(** [except (FileNotFoundError, NotADirectoryError)]. *)
Definition is_absence (e : exn) : bool :=
  match e with FileNotFoundError => true | _ => raises "NotADirectoryError" e end.
Definition is_plex_error (e : exn) : bool := raises "PlexLibraryError" e || raises "PlexAuthError" e.

(** Raised by the modelled code only. *)
Definition own_error (e : exn) : bool :=
  raises "_PressureLeaseDefeated" e || raises "_RecoveryPurgeRevoked" e || raises "DeleteWorkerStartError" e.

(** ** Calls *)

Record WatchState := { ws_watched : bool; ws_last_viewed_at : option Z }.

Record WatchStateQuery := {
  wq_tmdb_id : Z;
  wq_media_type : MediaType;
  wq_season : option Z;
  wq_library_path : option (list N);
}.

Inductive call : Type :=
  (* the session *)
  | GetRequest (request_id : Z)
  | GetSeason (season_request_id : Z)
  | ListRequests (status : RequestStatus)
  | ListSeasons (status : RequestStatus)
  | GetMany (request_ids : list Z)
  | ListForMedia (tmdb_id : Z) (media_type : MediaType) (statuses : list RequestStatus)
  | ListSiblings (tmdb_id season_number : Z) (statuses : list RequestStatus) (exclude_id : Z)
  | MoveRequest (request_id : Z) (status : RequestStatus) (allowed_from : list RequestStatus)
      (require_unpinned require_not_watchlisted : bool)
  | MoveSeason (media_request_id season_request_id : Z) (status : RequestStatus)
      (allowed_from : list RequestStatus) (require_parent_unpinned require_not_watchlisted : bool)
  | ClearRequestPath (request_id : Z) (expected_path : list N) (expected_statuses : list RequestStatus)
      (mark_removed : bool)
  | ClearSeasonPath (season_request_id : Z) (expected_path : list N) (expected_statuses : list RequestStatus)
  | SetMarker (p : _Pending) (library_path : list N)
  | ClearMarker (p : _Pending)
  | ConfirmMarker (p : _Pending) (expected_path : list N) (honor_keep_forever : bool)
  | RequestClaimsPath (library_path : list N) (exclude : option Z)
  | SeasonClaimsPath (library_path : list N) (exclude : option Z)
  | IsWatchlisted (tmdb_id : Z) (media_type : MediaType)
  | FindActive (media_request_id : Z) (season : option Z)
  | FindActiveMany (keys : list (Z * option Z))
  | CoverageTitle (tmdb_id season_number : Z)
  | CoverageTitles (keys : list (Z * Z))
  | LatestImported (media_request_id : Z)
  | AddHistory (tmdb_id : Z) (event : DownloadHistoryEvent) (source_title : option (list N)) (message : list N)
  | Commit
  | Rollback
  (* the file system and its workers *)
  | Stat (path : list N)
  | SizeOf (path : list N)
  | DeleteGuardRefuses (path : list N)
  | ReclaimableBytes (path : list N)
  | AcquirePermit
  | ReleasePermit
  | StartDelete (path : list N)
  | AwaitDelete (path : list N)
  | WorkerDone (path : list N)
  | ReadDiskUsage (root : list N)
  (* the registries of the process *)
  | PlacementConflicts (path : list N)
  | Register (path : list N)
  | Unregister (path : list N)
  | UnregisterWhenDone (path : list N)
  | BeginPurge (path : list N)
  | EndPurge (path : list N)
  | AcquireLease (root_path : list N) (scope : list (list N))
  | LeaseRevoked (lease : Z)
  | ReleaseLease (lease : Z)
  | SweepBusy
  | SetSweepBusy (busy : bool)
  | OnStoodDown (reason : list N)
  (* the other services *)
  | WatchStateOf (q : WatchStateQuery)
  | ResolveWatchStates (queries : list WatchStateQuery)
  | TriggerScan (library_path : list N) (media_type : MediaType)
  | RemoveTorrent (torrent_hash : list N)
  | UtcNow.

Definition reply (c : call) : Type :=
  match c with
  | GetRequest _ => option MediaRequest.t
  | GetSeason _ => option SeasonRequestRecord
  | ListRequests _ | GetMany _ | ListForMedia _ _ _ => list MediaRequest.t
  | ListSeasons _ | ListSiblings _ _ _ _ => list SeasonRequestRecord
  | MoveRequest _ _ _ _ _ | MoveSeason _ _ _ _ _ _ | ClearRequestPath _ _ _ _ | ClearSeasonPath _ _ _
  | ConfirmMarker _ _ _ | RequestClaimsPath _ _ | SeasonClaimsPath _ _ | IsWatchlisted _ _ => bool
  | FindActive _ _ | CoverageTitle _ _ | LatestImported _ => option (list N)
  | FindActiveMany _ => list (Z * option Z)
  | CoverageTitles _ => list (Z * Z)
  | SizeOf _ => option Z
  | DeleteGuardRefuses _ | WorkerDone _ | PlacementConflicts _ | BeginPurge _ | SweepBusy => bool
  | ReclaimableBytes _ | UtcNow => Z
  | ReadDiskUsage _ => DiskUsage
  | AcquireLease _ _ => option Z
  | LeaseRevoked _ => option (list N)
  | WatchStateOf _ => WatchState
  | ResolveWatchStates _ => list WatchState
  | RemoveTorrent _ => bool
  | _ => unit
  end.

(** The calls that run without a suspension point and do not fail. *)
Definition immediate (c : call) : bool :=
  match c with
  | AddHistory _ _ _ _ | ReleasePermit | WorkerDone _ | PlacementConflicts _ | Register _ | Unregister _
  | UnregisterWhenDone _ | BeginPurge _ | EndPurge _ | AcquireLease _ _ | LeaseRevoked _ | ReleaseLease _
  | SweepBusy | SetSweepBusy _ | UtcNow => true
  | _ => false
  end.

(** What is known of a reply: an immediate call returns, starting a thread is
    not cancelled, and only the modelled code raises its own exceptions. *)
Definition fits (c : call) (r : res (reply c)) : Prop :=
  match r with
  | Ok _ => True
  | Raise e =>
      immediate c = false /\ own_error e = false /\
      match c with StartDelete _ => is_exception e = true | _ => True end
  end.

(** ** The sweep's own variables *)

Record EvictionOutcome := {
  eo_request_id : Z;
  eo_media_type : list N;
  eo_title : list N;
  eo_season : option Z;
  eo_library_path : list N;
  eo_freed_bytes : option Z;
  eo_partial : bool;
}.

Record Local := {
  delete_marker_committed : bool;
  pressure_stale : bool;
  lease_defeat_recorded : bool;
  disk : DiskUsage;
  disk_used_pct : spec_float;
  freed_bytes_total : Z;
  outcomes : list EvictionOutcome;
}.

Abbreviation IO := (M reply Local).

Definition set_marker_committed (b : bool) (l : Local) : Local :=
  Build_Local b (pressure_stale l) (lease_defeat_recorded l) (disk l) (disk_used_pct l) (freed_bytes_total l) (outcomes l).
Definition set_pressure_stale (b : bool) (l : Local) : Local :=
  Build_Local (delete_marker_committed l) b (lease_defeat_recorded l) (disk l) (disk_used_pct l) (freed_bytes_total l) (outcomes l).
Definition set_lease_defeat_recorded (b : bool) (l : Local) : Local :=
  Build_Local (delete_marker_committed l) (pressure_stale l) b (disk l) (disk_used_pct l) (freed_bytes_total l) (outcomes l).
Definition set_disk (d : DiskUsage) (l : Local) : Local :=
  Build_Local (delete_marker_committed l) (pressure_stale l) (lease_defeat_recorded l) d (disk_used_pct l) (freed_bytes_total l) (outcomes l).
Definition set_used_pct (x : spec_float) (l : Local) : Local :=
  Build_Local (delete_marker_committed l) (pressure_stale l) (lease_defeat_recorded l) (disk l) x (freed_bytes_total l) (outcomes l).
Definition set_freed (z : Z) (l : Local) : Local :=
  Build_Local (delete_marker_committed l) (pressure_stale l) (lease_defeat_recorded l) (disk l) (disk_used_pct l) z (outcomes l).
Definition set_outcomes (o : list EvictionOutcome) (l : Local) : Local :=
  Build_Local (delete_marker_committed l) (pressure_stale l) (lease_defeat_recorded l) (disk l) (disk_used_pct l) (freed_bytes_total l) o.
