(* ===== verification/PurgeRun.v ===== *)
(** * Deleting a library path ([services/purge_service.py])

    The purge primitive, from its registration to the settlement of its worker.
    The hook a caller passes runs under the delete permit, with nothing but the
    start of the thread after it. *)

From Stdlib Require Import ZArith Lia Bool String SpecFloat.
From S2P Require Import Prelude PyStr RequestStore EvictionIO.

#[local] Open Scope bool_scope.

Inductive PurgeOutcome : Type := Deleted | Refused | Deferred | Error | Partial.

#[export] Instance PurgeOutcome_eq_dec : EqDecision PurgeOutcome.
Proof. solve_decision. Defined.

Record PurgeResult := { outcome : PurgeOutcome; freed_bytes : Z; detail : option (list N) }.

Definition purge_result (o : PurgeOutcome) (bytes : Z) (d : option (list N)) : PurgeResult :=
  {| outcome := o; freed_bytes := bytes; detail := d |}.

(** The permit, the hook under it, the thread.  [Some e] is the hook's own
    exception ([_DeleteBoundaryHookError]); the starter returns the permit of a
    thread that does not start. *)
Definition start_worker (library_path : list N) (before_delete : option (IO unit)) : IO (option exn) :=
  act AcquirePermit ;;
  failure ←
    match before_delete with
    | None => mret None
    | Some hook =>
        try_except (hook ;; mret None) (fun e => Some
          (act ReleasePermit ;; if is_exception e then mret (Some e) else throw e))
    end;
  match failure with
  | Some e => mret (Some e)
  | None =>
      catching is_exception (act (StartDelete library_path)) (fun e => throw (DeleteWorkerStartError (message e))) ;;
      mret None
  end.

(** Releasing the registration waits for a worker that is still running. *)
Definition release_registration (library_path : list N) : IO unit :=
  done ← perform (WorkerDone library_path);
  if (done : bool) then act (Unregister library_path) else act (UnregisterWhenDone library_path).

Definition _delete_to_settlement (library_path : list N) (hold_purge_registration : bool)
    (before_delete : option (IO unit)) : IO (option exn) :=
  started ← cleanup (start_worker library_path before_delete) (act (Unregister library_path));
  match started with
  | Some e => act (Unregister library_path) ;; mret (Some e)
  | None =>
      cleanup (act (AwaitDelete library_path)) (release_registration library_path) ;;
      (if hold_purge_registration then mret tt else release_registration library_path) ;;
      mret None
  end.

(** The two read-only probes: [None] when the guard refuses, otherwise the bytes
    the delete will free. *)
Definition preflight (library_path : list N) : IO (option Z) :=
  refuses ← perform (DeleteGuardRefuses library_path);
  if (refuses : bool) then mret None
  else
    bytes ← catching is_os_error (perform (ReclaimableBytes library_path)) (fun _ => mret 0%Z);
    mret (Some bytes).

Definition os_error_name (e : exn) : list N :=
  match e with
  | FileNotFoundError => lit "FileNotFoundError"
  | ProgramError c _ => lit c
  | _ => lit "OSError"
  end.

(** What the delete raised, as an outcome. *)
Definition classify (e : exn) : option PurgeResult :=
  if is_refusal e then Some (purge_result Refused 0 (Some (message e)))
  else if is_partial_delete e then Some (purge_result Partial 0 (Some (message e)))
  else if is_os_error e then Some (purge_result Error 0 (Some (os_error_name e)))
  else None.

Definition purge_library_path (library_path : list N) (hold_purge_registration : bool)
    (before_delete : option (IO unit)) : IO PurgeResult :=
  conflict ← perform (PlacementConflicts library_path);
  if (conflict : bool) then
    mret (purge_result Deferred 0 (Some (lit "deferred: an import is placing into this path")))
  else
    act (Register library_path) ;;
    measured ← cleanup (preflight library_path) (act (Unregister library_path));
    match measured with
    | None =>
        act (Unregister library_path) ;;
        mret (purge_result Refused 0 (Some (lit "path resolves outside every configured library root")))
    | Some bytes =>
        settled ← try_except
          (failure ← _delete_to_settlement library_path hold_purge_registration before_delete;
           mret match failure with Some e => inl e | None => inr (purge_result Deleted bytes None) end)
          (fun e => r ← classify e; Some (mret (inr r)));
        match settled with
        | inl e => throw e
        | inr r => mret r
        end
    end.

Definition trigger_library_scan (library_path : list N) (media_type : MediaType) : IO unit :=
  catching is_plex_error (act (TriggerScan library_path media_type)) (fun _ => mret tt).
