(* ===== verification/EvictionRun.v ===== *)
(** * The eviction service ([services/eviction_service.py])

    The sweep: recovery of interrupted evictions, candidate assembly, and for
    each selected title the claim, the guards, the delete and its outcome.  The
    policy that selects is [Eviction].  Log lines are left out. *)

From Stdlib Require Import ZArith Lia Bool String SpecFloat.
From S2P Require Import Prelude PyStr PyNum LibraryRoots RequestStore Eviction SeasonRepository.
From S2P Require Import EvictionIO PurgeRun.

#[local] Open Scope bool_scope.

(** ** Constants *)

Definition _PRE_GRAB_STATUSES : list RequestStatus := [pending; searching; no_acceptable_release].
Definition _MARKER_OWNED_ADVANCED_STATUSES : list RequestStatus := [downloading; failed].
Definition _REARMED_RECOVERY_STATUSES : list RequestStatus :=
  _PRE_GRAB_STATUSES ++ _MARKER_OWNED_ADVANCED_STATUSES ++ [cancelled].
Definition _BLOCKED_BY_REMNANTS_STATUS : RequestStatus := import_blocked.
Definition _REARMED_OR_BLOCKED_STATUSES : list RequestStatus :=
  _REARMED_RECOVERY_STATUSES ++ [_BLOCKED_BY_REMNANTS_STATUS].

(** [sorted(...)] of the values of the two sets above. *)
Definition sorted_rearmed : list RequestStatus :=
  [cancelled; downloading; failed; no_acceptable_release; pending; searching].
Definition sorted_rearmed_or_blocked : list RequestStatus :=
  [cancelled; downloading; failed; import_blocked; no_acceptable_release; pending; searching].

Definition _REMNANT_PURGE_NOTES (observed_status : RequestStatus) : list N :=
  match observed_status with
  | cancelled => lit "its re-grab was cancelled and the incomplete purge was finished here"
  | import_blocked => lit "its replacement import was blocked by the remains, so the incomplete purge was finished here"
  | _ => lit "the incomplete purge was finished here so a replacement can land"
  end.

Definition _STALE_SEASON_BREADCRUMB_CLEAR_STATUSES : list RequestStatus :=
  _REARMED_RECOVERY_STATUSES ++ [evicted; downloading; import_blocked; failed].
Definition _STALE_MOVIE_BREADCRUMB_CLEAR_STATUSES : list RequestStatus := evicted :: _REARMED_OR_BLOCKED_STATUSES.

Definition _TRANSFER_ACTIVE_DOWNLOAD_STATES : list (list N) :=
  [lit "downloading"; lit "metadata_fetching"; lit "failed_pending"; lit "client_missing"].

(** ** The incomplete-delete marker *)

Definition _partial_delete_outstanding (partial_delete_path : option (list N)) (library_path : list N) : bool :=
  bool_decide (partial_delete_path = Some library_path).

Definition _arm_partial_delete (p : _Pending) (library_path : list N) : IO unit := act (SetMarker p library_path).
Definition _disarm_partial_delete (p : _Pending) : IO unit := act (ClearMarker p).

Definition _partial_delete_still_armed (p : _Pending) (library_path : list N) : IO bool :=
  fresh ←
    match p with
    | _SeasonPending _ i _ _ _ =>
        r ← perform (GetSeason i);
        mret ((fun x => (SeasonRequest.library_path (sr_row x), SeasonRequest.partial_delete_path (sr_row x)))
                <$> (r : option SeasonRequestRecord))
    | _MoviePending i _ _ _ =>
        r ← perform (GetRequest i);
        mret ((fun x => (MediaRequest.library_path x, MediaRequest.partial_delete_path x)) <$> (r : option MediaRequest.t))
    end;
  mret match fresh with
       | Some (path, partial) =>
           bool_decide (path = Some library_path) && _partial_delete_outstanding partial library_path
       | None => false
       end.

(** ** Guards *)

Definition _coverage_claim_active (p : _Pending) : IO bool :=
  match p with
  | _MoviePending _ _ _ _ => mret false
  | _SeasonPending _ _ n t _ => title ← perform (CoverageTitle t n); mret (negb (bool_decide (title = None)))
  end.

Definition _competing_active_transfer (p : _Pending) : IO bool :=
  active ← perform (FindActive (pending_request p)
             match p with _SeasonPending _ _ n _ _ => Some n | _MoviePending _ _ _ _ => None end);
  mret match active with Some status => mem status _TRANSFER_ACTIVE_DOWNLOAD_STATES | None => false end.

Definition _path_claimed_by_another_row (library_path : list N) (p : _Pending) : IO bool :=
  match p with
  | _SeasonPending _ i _ _ _ =>
      other ← perform (SeasonClaimsPath library_path (Some i));
      if (other : bool) then mret true else perform (RequestClaimsPath library_path None)
  | _MoviePending i _ _ _ =>
      other ← perform (RequestClaimsPath library_path (Some i));
      if (other : bool) then mret true else perform (SeasonClaimsPath library_path None)
  end.

Definition vanished : list N := lit "its request row vanished".
Definition pinned_title : list N := lit "the operator pinned the title (keep_forever)".
Definition watchlisted_title : list N := lit "the title is on an active watchlist".

Definition _recovery_intent_blocked_reason (p : _Pending) : IO (option (list N)) :=
  let watchlist :=
    w ← perform (IsWatchlisted (pending_tmdb p) (pending_type p));
    mret (if (w : bool) then Some watchlisted_title else None) in
  if is_correction p then mret None
  else match p with
  | _SeasonPending i j _ _ _ =>
      parent ← perform (GetRequest i);
      season ← perform (GetSeason j);
      match (parent : option MediaRequest.t), (season : option SeasonRequestRecord) with
      | Some r, Some _ =>
          if MediaRequest.keep_forever r then mret (Some (lit "the operator pinned the show (keep_forever)"))
          else watchlist
      | _, _ => mret (Some vanished)
      end
  | _MoviePending i _ _ _ =>
      request ← perform (GetRequest i);
      match (request : option MediaRequest.t) with
      | Some r => if MediaRequest.keep_forever r then mret (Some pinned_title) else watchlist
      | None => mret (Some vanished)
      end
  end.

Definition _recovery_ownership_blocked_reason (p : _Pending) : IO (option (list N)) :=
  transfer ← _competing_active_transfer p;
  if (transfer : bool) then mret (Some (lit "a replacement download is still transferring into this scope"))
  else
    covered ← _coverage_claim_active p;
    mret (if (covered : bool) then Some (lit "a live pack holds an active ride-along coverage claim over it") else None).

Definition _recovery_purge_blocked_reason (p : _Pending) : IO (option (list N)) :=
  intent ← _recovery_intent_blocked_reason p;
  match intent with
  | Some reason => mret (Some reason)
  | None => _recovery_ownership_blocked_reason p
  end.

Definition _post_cas_intent_blocked_reason (p : _Pending) : IO (option (list N)) :=
  if is_correction p then mret None
  else
    w ← perform (IsWatchlisted (pending_tmdb p) (pending_type p));
    if (w : bool) then mret (Some watchlisted_title)
    else
      parent ← perform (GetRequest (pending_request p));
      mret match (parent : option MediaRequest.t) with
           | None => Some vanished
           | Some r => if MediaRequest.keep_forever r then Some pinned_title else None
           end.

Definition _confirm_delete_marker_cas (p : _Pending) (library_path : list N) : IO bool :=
  perform (ConfirmMarker p library_path (negb (is_correction p))).

Definition refused_restamp : list N :=
  lit "the database refused the delete-boundary re-stamp: the title was pinned, or its breadcrumb/incomplete-delete marker was retired".

(** The hook of recovery's purge. *)
Definition _recovery_delete_boundary (p : _Pending) (library_path : list N) : IO unit :=
  act Rollback ;;
  cleanup
    (confirmed ← _confirm_delete_marker_cas p library_path;
     if negb confirmed then throw (_RecoveryPurgeRevoked refused_restamp)
     else
       reason ← _recovery_ownership_blocked_reason p;
       reason ←
         match reason with
         | Some x => mret (Some x)
         | None =>
             other ← _path_claimed_by_another_row library_path p;
             mret (if (other : bool) then Some (lit "another live row now claims its path") else None)
         end;
       reason ← match reason with Some x => mret (Some x) | None => _post_cas_intent_blocked_reason p end;
       match reason with
       | Some x => throw (_RecoveryPurgeRevoked x)
       | None => act Commit
       end)
    (act Rollback).

Definition _disarm_unstarted_delete (p : _Pending) : IO unit :=
  catching is_exception (act Rollback ;; _disarm_partial_delete p ;; act Commit)
    (fun _ => catching is_exception (act Rollback) (fun _ => mret tt)).

(** ** Restoring *)

(** [season_request_service.set_status_if_in(..., tolerate_active_conflict=True)]. *)
Definition move_season (media_request_id season_request_id : Z) (status : RequestStatus)
    (allowed_from : list RequestStatus) : IO bool :=
  perform (MoveSeason media_request_id season_request_id status allowed_from false false).

Definition regrab_cancelled : list N :=
  lit "the eviction that prompted it failed and the original copy was restored to 'available' (file never left disk)".

Definition cancel_movie (p : _Pending) (row : MediaRequest.t) : IO unit :=
  if (MediaRequest.id row =? pending_request p)%Z then mret tt
  else if negb (default false (MediaRequest.eviction_regrab row)) then mret tt
  else
    cancelled_ ← perform (MoveRequest (MediaRequest.id row) cancelled _PRE_GRAB_STATUSES false false);
    if negb cancelled_ then mret tt
    else act (AddHistory (pending_tmdb p) h_cancelled (Some (MediaRequest.title row))
                         (lit "re-request cancelled: " ++ regrab_cancelled)).

Definition _cancel_redundant_movie_regrabs (p : _Pending) : IO unit :=
  rows ← perform (ListForMedia (pending_tmdb p) movie _PRE_GRAB_STATUSES);
  for_each (cancel_movie p) rows.

Definition cancel_sibling (p : _Pending) (season_number : Z) (sibling : SeasonRequestRecord) : IO unit :=
  let row := sr_row sibling in
  if negb (default false (SeasonRequest.eviction_regrab row)) then mret tt
  else
    cancelled_ ← move_season (SeasonRequest.media_request_id row) (SeasonRequest.id row) cancelled _PRE_GRAB_STATUSES;
    if negb cancelled_ then mret tt
    else
      parent ← perform (GetRequest (SeasonRequest.media_request_id row));
      act (AddHistory (pending_tmdb p) h_cancelled (MediaRequest.title <$> (parent : option MediaRequest.t))
             (lit "re-request cancelled for season " ++ str_of_int season_number ++ lit ": " ++ regrab_cancelled)).

Definition _cancel_redundant_season_regrabs (p : _Pending) (season_request_id season_number : Z) : IO unit :=
  siblings ← perform (ListSiblings (pending_tmdb p) season_number _PRE_GRAB_STATUSES season_request_id);
  for_each (cancel_sibling p season_number) siblings.

Definition _restore_after_failed_delete (p : _Pending) : IO unit :=
  _disarm_partial_delete p ;;
  match p with
  | _SeasonPending i j n _ _ =>
      restored ← move_season i j available [evicted];
      if (restored : bool) then _cancel_redundant_season_regrabs p j n
      else move_season i j available _PRE_GRAB_STATUSES ;; mret tt
  | _MoviePending i _ _ _ =>
      restored ← perform (MoveRequest i available [evicted] false false);
      if (restored : bool) then _cancel_redundant_movie_regrabs p else mret tt
  end ;;
  act Commit.

(** ** Clearing the breadcrumb *)

Definition clear_breadcrumb (p : _Pending) (library_path : list N) (statuses : list RequestStatus)
    (mark_removed : bool) : IO bool :=
  match p with
  | _SeasonPending _ j _ _ _ => perform (ClearSeasonPath j library_path statuses)
  | _MoviePending i _ _ _ => perform (ClearRequestPath i library_path statuses mark_removed)
  end.

Definition stale_clear_statuses (p : _Pending) : list RequestStatus :=
  match p with
  | _SeasonPending _ _ _ _ _ => _STALE_SEASON_BREADCRUMB_CLEAR_STATUSES
  | _MoviePending _ _ _ _ => _STALE_MOVIE_BREADCRUMB_CLEAR_STATUSES
  end.

Definition _release_stale_breadcrumb (p : _Pending) (expected_path : list N)
    (expected_statuses : list RequestStatus) : IO bool :=
  cleared ← clear_breadcrumb p expected_path expected_statuses false;
  if negb cleared then act Rollback ;; mret false
  else act Commit ;; mret true.

Definition season_note (p : _Pending) : list N :=
  match p with
  | _SeasonPending _ _ n _ _ => lit " season " ++ str_of_int n
  | _MoviePending _ _ _ _ => []
  end.

(** [os.stat]: whether the path is there; [None] when it cannot be told. *)
Definition file_present (library_path : list N) : IO (option bool) :=
  try_except (act (Stat library_path) ;; mret (Some true))
    (fun e => if is_absence e then Some (mret (Some false)) else if is_os_error e then Some (mret None) else None).

(** ** Recovery *)

Definition tolerant_flip (p : _Pending) : IO unit :=
  match p with
  | _SeasonPending i j _ _ _ => move_season i j evicted [cancelled] ;; mret tt
  | _MoviePending i _ _ _ => perform (MoveRequest i evicted [cancelled; failed] false false) ;; mret tt
  end.

Definition finalized_note (p : _Pending) (recovery_note library_path : list N) : list N :=
  lit "eviction finalized" ++ season_note p ++ lit ": recovered after an interrupted sweep, "
  ++ recovery_note ++ lit " (" ++ library_path ++ lit ")".

(** The end of a recovered eviction, in the transaction that cleared the
    breadcrumb. *)
Definition record_evicted (p : _Pending) (library_path : list N) (title : option (list N))
    (recovery_note : list N) : IO unit :=
  tolerant_flip p ;;
  act (AddHistory (pending_tmdb p) h_evicted title (finalized_note p recovery_note library_path)) ;;
  _disarm_partial_delete p ;;
  act Commit.

(** The finalize of [_resume_one_claimed]: whether the breadcrumb was cleared. *)
Definition finalize_resumed (p : _Pending) (library_path : list N) (title : option (list N))
    (recovery_note : list N) : IO bool :=
  cleared ← clear_breadcrumb p library_path (stale_clear_statuses p) (is_correction p);
  if negb cleared then act Rollback ;; mret false
  else
    record_evicted p library_path title recovery_note ;;
    mret true.

(** The torrent of a correction goes first; without it the recovery waits. *)
Definition correction_ready (p : _Pending) (library_path : list N) (qbt : bool) : IO bool :=
  if negb (is_correction p) then mret true
  else
    armed ← _partial_delete_still_armed p library_path;
    if negb armed then mret false
    else
      culprit ← perform (LatestImported (pending_request p));
      match (culprit : option (list N)) with
      | None => mret true
      | Some torrent_hash =>
          if negb qbt then mret false
          else removed ← perform (RemoveTorrent torrent_hash); mret (removed : bool)
      end.

(** A purge that recovery may make: [None] when the boundary revoked it. *)
Definition recovery_purge (p : _Pending) (library_path : list N) : IO (option PurgeResult) :=
  catching (raises "_RecoveryPurgeRevoked")
    (r ← purge_library_path library_path true (Some (_recovery_delete_boundary p library_path)); mret (Some r))
    (fun _ => mret None).

(** The retry of an incomplete purge; [finish] follows when nothing is left. *)
Definition retry_purge (p : _Pending) (media_type : MediaType) (library_path : list N) (finish : IO bool) : IO bool :=
  retry ← recovery_purge p library_path;
  match retry with
  | None => mret false
  | Some r =>
      if negb (bool_decide (outcome r = Deleted)) then
        (if negb (bool_decide (outcome r = Refused)) then trigger_library_scan library_path media_type else mret tt) ;;
        mret (bool_decide (outcome r = Partial))
      else finish
  end.

Definition finish_resumed (p : _Pending) (media_type : MediaType) (library_path : list N)
    (title : option (list N)) (purge_held : bool) (recovery_note : list N) : IO bool :=
  finalized ← try_finally (finalize_resumed p library_path title recovery_note)
                (if purge_held then act (EndPurge library_path) else mret tt);
  (if (finalized : bool) then trigger_library_scan library_path media_type else mret tt) ;;
  mret purge_held.

Definition _resume_one_claimed (p : _Pending) (media_type : MediaType) (library_path : list N)
    (title partial_delete_path : option (list N)) (qbt : bool) : IO bool :=
  ready ← correction_ready p library_path qbt;
  if negb ready then mret false
  else
    present ← file_present library_path;
    match present with
    | None => mret false
    | Some false => finish_resumed p media_type library_path title false (lit "the file was already gone")
    | Some true =>
        shared ← _path_claimed_by_another_row library_path p;
        if (shared : bool) then _release_stale_breadcrumb p library_path (stale_clear_statuses p) ;; mret false
        else if negb (_partial_delete_outstanding partial_delete_path library_path) then
          _restore_after_failed_delete p ;; mret false
        else
          blocked ← _recovery_purge_blocked_reason p;
          match blocked with
          | Some _ => mret false
          | None =>
              retry_purge p media_type library_path
                (finish_resumed p media_type library_path title true (lit "the incomplete purge was finished here"))
          end
    end.

(** The claim of the path around a recovery. *)
Definition with_purge_claim (library_path : list N) (m : IO bool) : IO bool :=
  claimed ← perform (BeginPurge library_path);
  if negb claimed then mret false else try_finally m (act (EndPurge library_path)).

Definition _resume_one (p : _Pending) (media_type : MediaType) (library_path : list N)
    (title partial_delete_path : option (list N)) (qbt : bool) : IO bool :=
  with_purge_claim library_path (_resume_one_claimed p media_type library_path title partial_delete_path qbt).

Definition _finalize_gone_rearmed_season (p : _Pending) (library_path : list N) (title : option (list N))
    (recovery_note : list N) : IO unit :=
  cleared ← clear_breadcrumb p library_path _STALE_SEASON_BREADCRUMB_CLEAR_STATUSES false;
  if negb cleared then act Rollback
  else
    record_evicted p library_path title recovery_note ;;
    trigger_library_scan library_path tv.

Definition _recover_rearmed_season_claimed (p : _Pending) (library_path : list N) (title : option (list N))
    (observed_status : RequestStatus) (partial_delete_path : option (list N)) : IO bool :=
  present ← file_present library_path;
  match present with
  | None => mret false
  | Some false =>
      _finalize_gone_rearmed_season p library_path title
        (lit "the file was already gone and the season was re-requested") ;;
      mret false
  | Some true =>
      shared ← _path_claimed_by_another_row library_path p;
      if (shared : bool) then _release_stale_breadcrumb p library_path _REARMED_OR_BLOCKED_STATUSES ;; mret false
      else if _partial_delete_outstanding partial_delete_path library_path then
        blocked ← _recovery_purge_blocked_reason p;
        match blocked with
        | Some _ => mret false
        | None =>
            armed ← _partial_delete_still_armed p library_path;
            if negb armed then mret false
            else
              retry_purge p tv library_path
                (try_finally
                   (_finalize_gone_rearmed_season p library_path title (_REMNANT_PURGE_NOTES observed_status))
                   (act (EndPurge library_path)) ;;
                 mret true)
        end
      else
        match p with
        | _SeasonPending i j _ _ _ =>
            folded ← move_season i j available [observed_status];
            (if (folded : bool) then act Commit else act Rollback) ;;
            mret false
        | _MoviePending _ _ _ _ => mret false
        end
  end.

Definition _recover_rearmed_season (p : _Pending) (library_path : list N) (title : option (list N))
    (observed_status : RequestStatus) (partial_delete_path : option (list N)) : IO bool :=
  with_purge_claim library_path
    (_recover_rearmed_season_claimed p library_path title observed_status partial_delete_path).

(** *** The interrupted evictions of a root *)

Definition _owned_by_root (library_path : option (list N)) (root_path : list N) (all_roots : list (list N)) : bool :=
  match library_path with
  | None => false
  | Some p =>
      let scope := if mem root_path all_roots then all_roots else all_roots ++ [root_path] in
      bool_decide (deepest_containing_root p scope = Some root_path)
  end.

(** One row to resume: its path, title, marker, and the status it was seen in. *)
Record interrupted := {
  in_path : list N;
  in_title : option (list N);
  in_status : RequestStatus;
  in_partial : option (list N);
  in_pending : _Pending;
}.

Definition movie_interrupted (status : RequestStatus) (correction : bool) (root_path : list N)
    (all_roots : list (list N)) (row : MediaRequest.t) : option interrupted :=
  if negb (bool_decide (MediaRequest.media_type row = movie))
     || negb (_owned_by_root (MediaRequest.library_path row) root_path all_roots) then None
  else
    path ← MediaRequest.library_path row;
    if correction && negb (_partial_delete_outstanding (MediaRequest.partial_delete_path row) path) then None
    else Some {| in_path := path; in_title := Some (MediaRequest.title row); in_status := status;
                 in_partial := MediaRequest.partial_delete_path row;
                 in_pending := _MoviePending (MediaRequest.id row) (MediaRequest.tmdb_id row) None correction |}.

Fixpoint corrections_in (statuses : list RequestStatus) (root_path : list N) (all_roots : list (list N))
    : IO (list interrupted) :=
  match statuses with
  | [] => mret []
  | status :: rest =>
      rows ← perform (ListRequests status);
      more ← corrections_in rest root_path all_roots;
      mret (omap (movie_interrupted status true root_path all_roots) rows ++ more)
  end.

Definition season_interrupted (status : RequestStatus) (title : option (list N)) (row : SeasonRequestRecord)
    (path : list N) : interrupted :=
  {| in_path := path; in_title := title; in_status := status;
     in_partial := SeasonRequest.partial_delete_path (sr_row row);
     in_pending := _SeasonPending (SeasonRequest.media_request_id (sr_row row)) (SeasonRequest.id (sr_row row))
                     (SeasonRequest.season_number (sr_row row)) (sr_tmdb_id row) None |}.

(** The seasons of one status: a status an import may have reached counts only
    with an outstanding marker. *)
Fixpoint seasons_in (status : RequestStatus) (marker_only : bool) (root_path : list N) (all_roots : list (list N))
    (rows : list SeasonRequestRecord) : IO (list interrupted) :=
  match rows with
  | [] => mret []
  | row :: rest =>
      match SeasonRequest.library_path (sr_row row) with
      | Some path =>
          if negb (_owned_by_root (Some path) root_path all_roots)
             || (marker_only && negb (_partial_delete_outstanding (SeasonRequest.partial_delete_path (sr_row row)) path))
          then seasons_in status marker_only root_path all_roots rest
          else
            parent ← perform (GetRequest (SeasonRequest.media_request_id (sr_row row)));
            more ← seasons_in status marker_only root_path all_roots rest;
            mret (season_interrupted status (MediaRequest.title <$> (parent : option MediaRequest.t)) row path :: more)
      | None => seasons_in status marker_only root_path all_roots rest
      end
  end.

Fixpoint rearmed_in (statuses : list RequestStatus) (root_path : list N) (all_roots : list (list N))
    : IO (list interrupted) :=
  match statuses with
  | [] => mret []
  | status :: rest =>
      rows ← perform (ListSeasons status);
      found ← seasons_in status (mem status (_BLOCKED_BY_REMNANTS_STATUS :: _MARKER_OWNED_ADVANCED_STATUSES))
                root_path all_roots rows;
      more ← rearmed_in rest root_path all_roots;
      mret (found ++ more)
  end.

(** Those to resume, and the re-armed seasons. *)
Definition enumerate_interrupted (media_type : MediaType) (root_path : list N) (all_roots : list (list N))
    (correction_only : bool) : IO (list interrupted * list interrupted) :=
  match media_type with
  | movie =>
      claimed ←
        (if correction_only then mret []
         else rows ← perform (ListRequests evicted);
              mret (omap (movie_interrupted evicted false root_path all_roots) rows));
      corrections ← corrections_in sorted_rearmed_or_blocked root_path all_roots;
      mret (claimed ++ corrections, [])
  | tv =>
      if correction_only then mret ([], [])
      else
        rows ← perform (ListSeasons evicted);
        claimed ← seasons_in evicted false root_path all_roots rows;
        rearmed ← rearmed_in (sorted_rearmed ++ [_BLOCKED_BY_REMNANTS_STATUS]) root_path all_roots;
        mret (claimed, rearmed)
  end.

(** Each row on its own: a failure rolls back, is counted as destructive, and
    the next row follows. *)
Fixpoint recover_each (recover : interrupted -> IO bool) (rows : list interrupted) (destroyed : bool) : IO bool :=
  match rows with
  | [] => mret destroyed
  | row :: rest =>
      d ← catching is_exception (b ← recover row; mret (destroyed || b)) (fun _ => act Rollback ;; mret true);
      recover_each recover rest d
  end.

Definition _resume_interrupted_evictions (qbt : bool) (media_type : MediaType) (root_path : list N)
    (all_roots : list (list N)) (correction_only : bool) : IO bool :=
  found ← enumerate_interrupted media_type root_path all_roots correction_only;
  destroyed ← recover_each (fun x => _resume_one (in_pending x) media_type (in_path x) (in_title x) (in_partial x) qbt)
                found.1 false;
  recover_each (fun x => _recover_rearmed_season (in_pending x) (in_path x) (in_title x) (in_status x) (in_partial x))
    found.2 destroyed.

(** ** One eviction *)

Definition _still_evictable (p : _Pending) : IO bool :=
  match p with
  | _SeasonPending i j n t _ =>
      parent ← perform (GetRequest i);
      season ← perform (GetSeason j);
      match (parent : option MediaRequest.t), (season : option SeasonRequestRecord) with
      | Some r, Some s =>
          active ← perform (FindActive i (Some n));
          covered ← perform (CoverageTitle t n);
          if MediaRequest.keep_forever r then mret false
          else
            w ← perform (IsWatchlisted t tv);
            mret (negb w && bool_decide (SeasonRequest.status (sr_row s) = available)
                  && bool_decide (active = None) && bool_decide (covered = None))
      | _, _ => mret false
      end
  | _MoviePending i t _ _ =>
      request ← perform (GetRequest i);
      match (request : option MediaRequest.t) with
      | Some r =>
          active ← perform (FindActive i None);
          if MediaRequest.keep_forever r then mret false
          else
            w ← perform (IsWatchlisted t movie);
            mret (negb w && bool_decide (MediaRequest.status r = available) && bool_decide (active = None))
      | None => mret false
      end
  end.

Definition watch_query (p : _Pending) (library_path : list N) : WatchStateQuery :=
  {| wq_tmdb_id := pending_tmdb p; wq_media_type := pending_type p;
     wq_season := match p with _SeasonPending _ _ n _ _ => Some n | _MoviePending _ _ _ _ => None end;
     wq_library_path := Some library_path |}.

(** The watch state again: [None] when Plex cannot tell. *)
Definition fresh_watch_state (p : _Pending) (library_path : list N) : IO (option WatchState) :=
  catching (fun e => is_plex_error e || raises "NotImplementedError" e)
    (w ← perform (WatchStateOf (watch_query p library_path)); mret (Some w))
    (fun _ => mret None).

Definition watched_before (w : WatchState) (grace_cutoff : Z) : bool :=
  ws_watched w && match ws_last_viewed_at w with Some t => (t <? grace_cutoff)%Z | None => false end.

(** The claim. *)
Definition claim (p : _Pending) : IO bool :=
  match p with
  | _SeasonPending i j _ _ _ => perform (MoveSeason i j evicted [available] true true)
  | _MoviePending i _ _ _ => perform (MoveRequest i evicted [available] true true)
  end.

Definition check_lease (pressure_lease : option Z) : IO unit :=
  match pressure_lease with
  | None => mret tt
  | Some a =>
      reason ← perform (LeaseRevoked a);
      match (reason : option (list N)) with Some r => throw (_PressureLeaseDefeated r) | None => mret tt end
  end.

(** The hook of the sweep's purge. *)
Definition _mark_delete_started (p : _Pending) (library_path : list N) (pressure_lease : option Z) : IO unit :=
  check_lease pressure_lease ;;
  _arm_partial_delete p library_path ;;
  act Commit ;;
  modify (set_marker_committed true) ;;
  check_lease pressure_lease.

Definition evicted_message (p : _Pending) (library_path : list N) : list N :=
  lit "evicted" ++ season_note p ++ lit ": watched, past grace period, disk-pressure relief (" ++ library_path ++ lit ")".

Definition finalize_evicted (p : _Pending) (candidate : EvictionCandidate) (library_path : list N) : IO unit :=
  act (AddHistory (pending_tmdb p) h_evicted (Some (ev_title candidate)) (evicted_message p library_path)) ;;
  clear_breadcrumb p library_path (stale_clear_statuses p) false ;;
  match p with
  | _SeasonPending i j _ _ _ => move_season i j evicted [cancelled] ;; mret tt
  | _MoviePending _ _ _ _ => mret tt
  end ;;
  _disarm_partial_delete p ;;
  act Commit.

Definition outcome_of (candidate : EvictionCandidate) (library_path : list N) (freed : option Z) (partial : bool)
    : EvictionOutcome :=
  {| eo_request_id := ev_request_id candidate; eo_media_type := ev_media_type candidate;
     eo_title := ev_title candidate; eo_season := ev_season candidate; eo_library_path := library_path;
     eo_freed_bytes := freed; eo_partial := partial |}.

Definition settle_purge (p : _Pending) (candidate : EvictionCandidate) (library_path : list N) (purge : PurgeResult)
    : IO (option EvictionOutcome) :=
  match outcome purge with
  | Deleted =>
      try_finally (finalize_evicted p candidate library_path) (act (EndPurge library_path)) ;;
      trigger_library_scan library_path (pending_type p) ;;
      mret (Some (outcome_of candidate library_path (Some (freed_bytes purge)) false))
  | Deferred => _disarm_partial_delete p ;; act Commit ;; mret None
  | Partial =>
      modify (set_pressure_stale true) ;;
      trigger_library_scan library_path (pending_type p) ;;
      mret (Some (outcome_of candidate library_path None true))
  | Refused | Error => _restore_after_failed_delete p ;; mret None
  end.

(** The delete of a claimed row: a lease that was revoked restores it, a worker
    that did not start takes the marker off again. *)
Definition purge_claimed (p : _Pending) (candidate : EvictionCandidate) (library_path : list N)
    (pressure_lease : option Z) : IO (option EvictionOutcome) :=
  modify (set_marker_committed false) ;;
  purge ← try_except
    (r ← purge_library_path library_path true (Some (_mark_delete_started p library_path pressure_lease));
     mret (Some r))
    (fun e =>
       if raises "_PressureLeaseDefeated" e then Some (_restore_after_failed_delete p ;; mret None)
       else if raises "DeleteWorkerStartError" e then Some
         (marked ← gets delete_marker_committed;
          (if (marked : bool) then _disarm_unstarted_delete p else mret tt) ;;
          throw e)
       else None);
  match purge with
  | None => mret None
  | Some r => settle_purge p candidate library_path r
  end.

(** The row is claimed and the claim committed. *)
Definition evict_claimed (p : _Pending) (candidate : EvictionCandidate) (library_path : list N)
    (pressure_lease : option Z) : IO (option EvictionOutcome) :=
  shared ← _path_claimed_by_another_row library_path p;
  if (shared : bool) then _restore_after_failed_delete p ;; mret None
  else
    covered ← _coverage_claim_active p;
    if (covered : bool) then _restore_after_failed_delete p ;; mret None
    else purge_claimed p candidate library_path pressure_lease.

Definition _evict_one (p : _Pending) (candidate : EvictionCandidate) (grace_cutoff : Z) (pressure_lease : option Z)
    : IO (option EvictionOutcome) :=
  match ev_library_path candidate with
  | None => mret None
  | Some library_path =>
      still ← _still_evictable p;
      if negb still then mret None
      else
        fresh ← fresh_watch_state p library_path;
        match fresh with
        | None => mret None
        | Some w =>
            if negb (watched_before w grace_cutoff) then mret None
            else
              claimed ← claim p;
              if negb claimed then act Rollback ;; mret None
              else
                act Commit ;;
                evict_claimed p candidate library_path pressure_lease
        end
  end.

(** ** Candidates *)

Definition _sized_path (library_path : option (list N)) (cache : list (list N * option Z))
    : IO (option Z * list (list N * option Z)) :=
  match library_path with
  | None | Some [] => mret (None, cache)
  | Some path =>
      match assoc path cache with
      | Some size => mret (size, cache)
      | None => size ← perform (SizeOf path); mret (size, (path, size) :: cache)
      end
  end.

Definition size_percent (size_bytes : option Z) (root_total_bytes : Z) : res spec_float :=
  match size_bytes with
  | Some n =>
      if (0 <? root_total_bytes)%Z then ratio ← int_div n root_total_bytes; mret (fmul ratio (float_of_int 100))
      else Ok f_zero
  | None => Ok f_zero
  end.

Definition with_size (c : EvictionCandidate) (x : option spec_float) : EvictionCandidate :=
  {| ev_request_id := ev_request_id c; ev_media_type := ev_media_type c; ev_title := ev_title c;
     ev_season := ev_season c; ev_status := ev_status c; ev_watched := ev_watched c;
     ev_last_viewed_at := ev_last_viewed_at c; ev_keep_forever := ev_keep_forever c;
     ev_in_flight := ev_in_flight c; ev_library_path := ev_library_path c; ev_size_percent := x;
     ev_watchlisted := ev_watchlisted c |}.

(** The size of a candidate, measured only when it could be evicted. *)
Definition measure (prospective : EvictionCandidate) (root_total_bytes : Z) (grace_cutoff : option Z)
    (cache : list (list N * option Z)) : IO (EvictionCandidate * option Z * list (list N * option Z)) :=
  if match grace_cutoff with Some g => negb (is_evictable prospective g) | None => false end then
    mret (with_size prospective None, None, cache)
  else
    sized ← _sized_path (ev_library_path prospective) cache;
    percent ← of_res (size_percent sized.1 root_total_bytes);
    mret (with_size prospective (Some percent), sized.1, sized.2).

Fixpoint movie_pairs (rows : list MediaRequest.t) (watch_states : list WatchState) (active_keys : list (Z * option Z))
    (root_total_bytes : Z) (grace_cutoff : option Z) (cache : list (list N * option Z))
    : IO (list (EvictionCandidate * _Pending)) :=
  match rows, watch_states with
  | [], [] => mret []
  | row :: rows, watch :: watch_states =>
      w ← perform (IsWatchlisted (MediaRequest.tmdb_id row) movie);
      m ← measure
        {| ev_request_id := MediaRequest.id row; ev_media_type := lit "movie"; ev_title := MediaRequest.title row;
           ev_season := None; ev_status := status_value (MediaRequest.status row); ev_watched := ws_watched watch;
           ev_last_viewed_at := ws_last_viewed_at watch; ev_keep_forever := MediaRequest.keep_forever row;
           ev_in_flight := mem (MediaRequest.id row, None) active_keys;
           ev_library_path := MediaRequest.library_path row; ev_size_percent := Some f_zero; ev_watchlisted := w |}
        root_total_bytes grace_cutoff cache;
      more ← movie_pairs rows watch_states active_keys root_total_bytes grace_cutoff m.2;
      mret ((m.1.1, _MoviePending (MediaRequest.id row) (MediaRequest.tmdb_id row) m.1.2 false) :: more)
  | _, _ => throw (ValueError (lit "zip() arguments differ in length"))
  end.

Definition owned_or_pathless (path : option (list N)) (root_path : list N) (all_roots : list (list N)) : bool :=
  match path with None => true | _ => _owned_by_root path root_path all_roots end.

Definition _movie_candidates (root_total_bytes : Z) (root_path : list N) (all_roots : list (list N))
    (grace_cutoff : option Z) : IO (list (EvictionCandidate * _Pending)) :=
  found ← perform (ListRequests available);
  let rows := List.filter (fun row => bool_decide (MediaRequest.media_type row = movie)
                && owned_or_pathless (MediaRequest.library_path row) root_path all_roots) found in
  watch_states ← perform (ResolveWatchStates ((fun row =>
    {| wq_tmdb_id := MediaRequest.tmdb_id row; wq_media_type := movie; wq_season := None;
       wq_library_path := MediaRequest.library_path row |}) <$> rows));
  active_keys ← perform (FindActiveMany ((fun row => (MediaRequest.id row, None)) <$> rows));
  movie_pairs rows watch_states active_keys root_total_bytes grace_cutoff [].

Fixpoint season_pairs (rows : list SeasonRequestRecord) (watch_states : list WatchState)
    (parents : list MediaRequest.t) (active_keys : list (Z * option Z)) (coverage_titles : list (Z * Z))
    (root_total_bytes : Z) (grace_cutoff : option Z) (cache : list (list N * option Z))
    : IO (list (EvictionCandidate * _Pending)) :=
  match rows, watch_states with
  | [], [] => mret []
  | row :: rows, watch :: watch_states =>
      let s := sr_row row in
      let go := season_pairs rows watch_states parents active_keys coverage_titles root_total_bytes grace_cutoff in
      match List.find (fun r => (MediaRequest.id r =? SeasonRequest.media_request_id s)%Z) parents with
      | None => go cache
      | Some parent =>
          let n := SeasonRequest.season_number s in
          w ← perform (IsWatchlisted (sr_tmdb_id row) tv);
          m ← measure
            {| ev_request_id := SeasonRequest.id s; ev_media_type := lit "tv"; ev_title := MediaRequest.title parent;
               ev_season := Some n; ev_status := status_value (SeasonRequest.status s); ev_watched := ws_watched watch;
               ev_last_viewed_at := ws_last_viewed_at watch; ev_keep_forever := MediaRequest.keep_forever parent;
               ev_in_flight := mem (SeasonRequest.media_request_id s, Some n) active_keys
                               || mem (sr_tmdb_id row, n) coverage_titles;
               ev_library_path := SeasonRequest.library_path s; ev_size_percent := Some f_zero; ev_watchlisted := w |}
            root_total_bytes grace_cutoff cache;
          more ← go m.2;
          mret ((m.1.1, _SeasonPending (SeasonRequest.media_request_id s) (SeasonRequest.id s) n (sr_tmdb_id row) m.1.2)
                :: more)
      end
  | _, _ => throw (ValueError (lit "zip() arguments differ in length"))
  end.

Definition _season_candidates (root_total_bytes : Z) (root_path : list N) (all_roots : list (list N))
    (grace_cutoff : option Z) : IO (list (EvictionCandidate * _Pending)) :=
  found ← perform (ListSeasons available);
  let rows := List.filter (fun row => owned_or_pathless (SeasonRequest.library_path (sr_row row)) root_path all_roots)
                found in
  watch_states ← perform (ResolveWatchStates ((fun row =>
    {| wq_tmdb_id := sr_tmdb_id row; wq_media_type := tv; wq_season := Some (SeasonRequest.season_number (sr_row row));
       wq_library_path := SeasonRequest.library_path (sr_row row) |}) <$> rows));
  parents ← perform (GetMany (remove_dups ((fun row => SeasonRequest.media_request_id (sr_row row)) <$> rows)));
  active_keys ← perform (FindActiveMany ((fun row => (SeasonRequest.media_request_id (sr_row row),
                                                     Some (SeasonRequest.season_number (sr_row row)))) <$> rows));
  coverage_titles ← perform (CoverageTitles ((fun row => (sr_tmdb_id row, SeasonRequest.season_number (sr_row row)))
                                               <$> rows));
  season_pairs rows watch_states parents active_keys coverage_titles root_total_bytes grace_cutoff [].

Definition candidate_pairs (media_type : MediaType) (root_total_bytes : Z) (root_path : list N)
    (all_roots : list (list N)) (grace_cutoff : option Z) : IO (list (EvictionCandidate * _Pending)) :=
  match media_type with
  | movie => _movie_candidates root_total_bytes root_path all_roots grace_cutoff
  | tv => _season_candidates root_total_bytes root_path all_roots grace_cutoff
  end.

(** [all_roots if all_roots is not None else (root_path,)]. *)
Definition root_scope (all_roots : option (list (list N))) (root_path : list N) : list (list N) :=
  default [root_path] all_roots.

Definition assemble_candidates (media_type : MediaType) (root_path : list N) (root_total_bytes : Z)
    (all_roots : option (list (list N))) (grace_cutoff : option Z) : IO (list EvictionCandidate) :=
  pairs ← candidate_pairs media_type root_total_bytes root_path (root_scope all_roots root_path) grace_cutoff;
  mret pairs.*1.

Definition day : Z := 86400000000.

Definition probe_disk (root_path : list N) : IO (option DiskUsage) :=
  catching is_os_error (u ← perform (ReadDiskUsage root_path); mret (Some u)) (fun _ => mret None).

Definition preview_candidates (media_type : MediaType) (root_path : list N) (grace_days : Z)
    (all_roots : option (list (list N))) : IO (list EvictionCandidate) :=
  usage ← probe_disk root_path;
  match usage with
  | None => mret []
  | Some u =>
      now ← perform UtcNow;
      let grace_cutoff := (now - grace_days * day)%Z in
      candidates ← assemble_candidates media_type root_path (du_total_bytes u) all_roots (Some grace_cutoff);
      mret (rank_eviction_candidates candidates grace_cutoff)
  end.

(** ** The sweep *)

Definition _reprobe_disk (root_path : list N) (fallback : DiskUsage) : IO DiskUsage :=
  usage ← probe_disk root_path;
  mret (default fallback usage).

(** [pending_by_id[id(candidate)]]: the rows of one listing have distinct keys. *)
Definition pending_of (pairs : list (EvictionCandidate * _Pending)) (candidate : EvictionCandidate) : res _Pending :=
  match List.find (fun x => (ev_request_id x.1 =? ev_request_id candidate)%Z) pairs with
  | Some x => Ok x.2
  | None => Raise KeyError
  end.

Definition note_outcome (o : option EvictionOutcome) : IO unit :=
  match o with
  | None => mret tt
  | Some x =>
      modify (fun l => set_outcomes (outcomes l ++ [x]) l) ;;
      match eo_freed_bytes x with
      | Some n => modify (fun l => set_freed (freed_bytes_total l + n)%Z l)
      | None => mret tt
      end
  end.

Definition _attempt (pairs : list (EvictionCandidate * _Pending)) (grace_cutoff : Z) (pressure_lease : option Z)
    (candidate : EvictionCandidate) : IO unit :=
  outcome ← catching is_exception
    (p ← of_res (pending_of pairs candidate); _evict_one p candidate grace_cutoff pressure_lease)
    (fun _ => act Rollback ;; mret None);
  note_outcome outcome.

(** A revoked lease ends the sweep; it is reported once. *)
Definition _lease_defeated (pressure_lease : option Z) : IO bool :=
  match pressure_lease with
  | None => mret false
  | Some a =>
      reason ← perform (LeaseRevoked a);
      match (reason : option (list N)) with
      | None => mret false
      | Some r =>
          recorded ← gets lease_defeat_recorded;
          (if (recorded : bool) then mret tt
           else modify (set_lease_defeat_recorded true) ;; act (OnStoodDown r)) ;;
          mret true
      end
  end.

Definition _rebaseline (root_path : list N) : IO bool :=
  modify (set_pressure_stale false) ;;
  before ← gets disk;
  now ← _reprobe_disk root_path before;
  modify (set_disk now) ;;
  if (du_total_bytes now <=? 0)%Z then mret false
  else
    pct ← of_res (used_percent now);
    modify (set_used_pct pct) ;;
    modify (set_freed 0) ;;
    mret true.

Definition relieved (target_pct : spec_float) : IO bool :=
  l ← gets id;
  of_res (pressure_relieved (disk_used_pct l) (freed_bytes_total l) (du_total_bytes (disk l)) target_pct).

(** Whether the first loop stops before its next title. *)
Definition stop_selected (root_path : list N) (proactive : bool) (target_pct : spec_float) : IO bool :=
  stale ← gets pressure_stale;
  usage ← gets disk;
  if stale && negb proactive && (0 <? du_total_bytes usage)%Z then
    usable ← _rebaseline root_path;
    if negb usable then mret true else relieved target_pct
  else mret false.

(** Whether the second does. *)
Definition stop_extra (root_path : list N) (target_pct : spec_float) : IO bool :=
  stale ← gets pressure_stale;
  usable ← (if (stale : bool) then _rebaseline root_path else mret true);
  if negb usable then mret true else relieved target_pct.

Fixpoint attempt_each (stop : IO bool) (attempt : EvictionCandidate -> IO unit) (pressure_lease : option Z)
    (candidates : list EvictionCandidate) : IO unit :=
  match candidates with
  | [] => mret tt
  | candidate :: rest =>
      defeated ← _lease_defeated pressure_lease;
      if (defeated : bool) then mret tt
      else
        stopped ← stop;
        if (stopped : bool) then mret tt
        else attempt candidate ;; attempt_each stop attempt pressure_lease rest
  end.

(** The titles of a sweep under pressure, or due anyway when it is proactive. *)
Definition evict_pairs (pairs : list (EvictionCandidate * _Pending)) (root_path : list N)
    (threshold_pct target_pct : spec_float) (proactive : bool) (grace_cutoff : Z) (pressure_lease : option Z)
    : IO (list EvictionOutcome) :=
  let candidates := pairs.*1 in
  let ranked_all := rank_eviction_candidates candidates grace_cutoff in
  pct ← gets disk_used_pct;
  let selected := if proactive then ranked_all
                  else select_evictions candidates pct threshold_pct target_pct grace_cutoff in
  let extra_pool := if proactive then [] else drop (length selected) ranked_all in
  let attempt := _attempt pairs grace_cutoff pressure_lease in
  attempt_each (stop_selected root_path proactive target_pct) attempt pressure_lease selected ;;
  usage ← gets disk;
  (if bool_decide (extra_pool <> []) && (0 <? du_total_bytes usage)%Z
   then attempt_each (stop_extra root_path target_pct) attempt pressure_lease extra_pool
   else mret tt) ;;
  _lease_defeated pressure_lease ;;
  gets outcomes.

Definition stood_down_at_start : list N := lit "an operator correction purge was already active under this root".

(** Why a pressure sweep does not start. *)
Definition stand_down (proactive : bool) (pressure_lease : option Z) : IO (option (list N)) :=
  if proactive then mret None
  else
    match pressure_lease with
    | None => mret (Some stood_down_at_start)
    | Some a => perform (LeaseRevoked a)
    end.

(** The part of the sweep after recovery. *)
Definition relieve_now (media_type : MediaType) (root_path : list N) (threshold_pct target_pct : spec_float)
    (proactive : bool) (scope : list (list N)) (grace_cutoff : Z) (pressure_lease : option Z)
    : IO (list EvictionOutcome) :=
  usage ← gets disk;
  pct ← of_res (used_percent usage);
  modify (set_used_pct pct) ;;
  if negb proactive && flt pct threshold_pct then mret []
  else
    pairs ← candidate_pairs media_type (du_total_bytes usage) root_path scope (Some grace_cutoff);
    match pairs with
    | [] => mret []
    | _ => evict_pairs pairs root_path threshold_pct target_pct proactive grace_cutoff pressure_lease
    end.

Definition relieve (media_type : MediaType) (root_path : list N) (threshold_pct target_pct : spec_float)
    (proactive : bool) (scope : list (list N)) (grace_cutoff : Z) (pressure_lease : option Z)
    : IO (list EvictionOutcome) :=
  reason ← stand_down proactive pressure_lease;
  match reason with
  | Some r => act (OnStoodDown r) ;; mret []
  | None => relieve_now media_type root_path threshold_pct target_pct proactive scope grace_cutoff pressure_lease
  end.

Definition _run_sweep (media_type : MediaType) (root_path : list N) (threshold_pct target_pct : spec_float)
    (grace_days : Z) (proactive : bool) (all_roots : option (list (list N))) (qbt : bool) (pressure_lease : option Z)
    : IO (list EvictionOutcome) :=
  usage ← probe_disk root_path;
  match usage with
  | None => mret []
  | Some d =>
      modify (fun _ => Build_Local false false false d f_zero 0 []) ;;
      let scope := root_scope all_roots root_path in
      now ← perform UtcNow;
      let grace_cutoff := (now - grace_days * day)%Z in
      destroyed ← _resume_interrupted_evictions qbt media_type root_path scope false;
      (if (destroyed : bool) then again ← _reprobe_disk root_path d; modify (set_disk again) else mret tt) ;;
      relieve media_type root_path threshold_pct target_pct proactive scope grace_cutoff pressure_lease
  end.

(** One sweep at a time; only a pressure sweep takes a lease on its root. *)
Definition run_eviction_sweep (media_type : MediaType) (root_path : list N) (threshold_pct target_pct : spec_float)
    (grace_days : Z) (proactive : bool) (all_roots : option (list (list N))) (qbt : bool)
    : IO (list EvictionOutcome) :=
  busy ← perform SweepBusy;
  if (busy : bool) then mret []
  else
    act (SetSweepBusy true) ;;
    lease ← (if proactive then mret None else perform (AcquireLease root_path (root_scope all_roots root_path)));
    try_finally
      (_run_sweep media_type root_path threshold_pct target_pct grace_days proactive all_roots qbt lease)
      (match lease with Some a => act (ReleaseLease a) | None => mret tt end ;; act (SetSweepBusy false)).

Definition run_correction_recovery_sweep (media_type : MediaType) (root_path : list N)
    (all_roots : option (list (list N))) (qbt : bool) : IO unit :=
  busy ← perform SweepBusy;
  if (busy : bool) then mret tt
  else
    act (SetSweepBusy true) ;;
    try_finally
      (usage ← probe_disk root_path;
       match usage with
       | None => mret tt
       | Some _ => _resume_interrupted_evictions qbt media_type root_path (root_scope all_roots root_path) true ;; mret tt
       end)
      (act (SetSweepBusy false)).
