(* ===== verification/EvictionMonitor.v ===== *)
(** * What an eviction run may do, and when

    The monitor of the eviction service: the history of its calls, newest first,
    the facts it establishes, and the calls that are allowed only on such facts.
    [EvictionSpecs] proves that every run of the sweep stays within it. *)

From Stdlib Require Import ZArith Lia Bool String SpecFloat.
From S2P Require Import Prelude PyStr PyNum RequestStore Eviction SeasonRepository.
From S2P Require Import Histories EvictionIO PurgeRun EvictionRun.

#[local] Open Scope bool_scope.

(** ** Histories *)

Abbreviation history := (list (event reply)).

(** ** Kinds of calls *)

(** A write of a status. *)
Definition writes_status (c : call) : bool :=
  match c with MoveRequest _ _ _ _ _ | MoveSeason _ _ _ _ _ _ => true | _ => false end.
(** A write of the incomplete-delete marker. *)
Definition writes_marker (c : call) : bool :=
  match c with SetMarker _ _ | ClearMarker _ => true | _ => false end.
Definition ends_transaction (c : call) : bool := match c with Commit | Rollback => true | _ => false end.
(** A change of the registry of purges. *)
Definition registers (c : call) : bool :=
  match c with
  | Register _ | Unregister _ | UnregisterWhenDone _ | BeginPurge _ | EndPurge _ => true
  | _ => false
  end.
Definition uses_permit (c : call) : bool :=
  match c with AcquirePermit | ReleasePermit | StartDelete _ => true | _ => false end.
Definition starts_delete (c : call) : bool := match c with StartDelete _ => true | _ => false end.
(** The exclusion of other sweeps and of corrections. *)
Definition excludes (c : call) : bool :=
  match c with AcquireLease _ _ | ReleaseLease _ | SetSweepBusy _ => true | _ => false end.

(** A call whose permission depends on the history. *)
Definition guarded (c : call) : bool :=
  match c with
  | StartDelete _ | ClearRequestPath _ _ _ _ | ClearSeasonPath _ _ _ => true
  | MoveRequest _ s _ _ _ | MoveSeason _ _ s _ _ _ => bool_decide (s = available)
  | AddHistory _ e _ _ => bool_decide (e = h_evicted)
  | _ => false
  end.

(** ** What is held *)

Inductive resource : Type :=
  | Registration (path : list N)
  | Permit
  | Lease (lease : Z)
  | Latch.

#[export] Instance resource_eq_dec : EqDecision resource.
Proof. solve_decision. Defined.

Definition counts (k k' : resource) : Z := if decide (k = k') then 1 else 0.

(** A permit goes to the thread that was to start, which returns it; a
    registration goes to the worker that still runs. *)
Definition change (k : resource) (ev : event reply) : Z :=
  match ev with
  | Ev (Register p) (Ok _) => counts k (Registration p)
  | Ev (BeginPurge p) (Ok b) => if (b : bool) then counts k (Registration p) else 0
  | Ev (Unregister p) _ | Ev (UnregisterWhenDone p) _ | Ev (EndPurge p) _ => - counts k (Registration p)
  | Ev AcquirePermit (Ok _) => counts k Permit
  | Ev ReleasePermit _ | Ev (StartDelete _) _ => - counts k Permit
  | Ev (AcquireLease _ _) (Ok (Some a)) => counts k (Lease a)
  | Ev (ReleaseLease a) _ => - counts k (Lease a)
  | Ev (SetSweepBusy b) _ => if b then counts k Latch else - counts k Latch
  | _ => 0
  end.

Fixpoint holding (k : resource) (h : history) : Z :=
  match h with [] => 0 | ev :: h' => change k ev + holding k h' end.

(** ** Facts *)

Definition request_claim (p : _Pending) (path : list N) : call :=
  RequestClaimsPath path match p with _MoviePending i _ _ _ => Some i | _ => None end.
Definition season_claim (p : _Pending) (path : list N) : call :=
  SeasonClaimsPath path match p with _SeasonPending _ j _ _ _ => Some j | _ => None end.

(** No other row was found to own the path. *)
Definition no_twin (p : _Pending) (path : list N) (Q : call -> bool) (h : history) : Prop :=
  answered (request_claim p path) (Ok false) Q h /\ answered (season_claim p path) (Ok false) Q h.

(** No pack was found to be fetching the season. *)
Definition uncovered (p : _Pending) (Q : call -> bool) (h : history) : Prop :=
  match p with
  | _SeasonPending _ _ n t _ => answered (CoverageTitle t n) (Ok None) Q h
  | _MoviePending _ _ _ _ => True
  end.

(** No transfer was found to be running for the title. *)
Definition no_transfer (p : _Pending) (Q : call -> bool) (h : history) : Prop :=
  exists active : option (list N),
    answered (FindActive (pending_request p) match p with _SeasonPending _ _ n _ _ => Some n | _ => None end)
             (Ok active) Q h /\
    match active with Some status => status ∉ _TRANSFER_ACTIVE_DOWNLOAD_STATES | None => True end.

Definition not_wanted (p : _Pending) (Q : call -> bool) (h : history) : Prop :=
  answered (IsWatchlisted (pending_tmdb p) (pending_type p)) (Ok false) Q h /\
  exists row, MediaRequest.keep_forever row = false /\
    answered (GetRequest (pending_request p)) (Ok (Some row)) Q h.

(** The compare-and-swap that takes an available title. *)
Definition claim_call (p : _Pending) : call :=
  match p with
  | _SeasonPending i j _ _ _ => MoveSeason i j evicted [available] true true
  | _MoviePending i _ _ _ => MoveRequest i evicted [available] true true
  end.

(** It took the row. *)
Definition won (p : _Pending) (ev : event reply) : Prop :=
  match p with
  | _SeasonPending i j _ _ _ => ev = Ev (MoveSeason i j evicted [available] true true) (Ok true)
  | _MoviePending i _ _ _ => ev = Ev (MoveRequest i evicted [available] true true) (Ok true)
  end.

Section facts.
Context (grace_days : Z) (proactive : bool).

(** The claim, committed; Plex had just said that the file was watched, and last
    before the grace period. *)
Definition claimed (p : _Pending) (path : list N) (h : history) : Prop :=
  exists ev h' w now,
    h = Ev Commit (Ok tt) :: ev :: Ev (WatchStateOf (watch_query p path)) (Ok w) :: h' /\ won p ev /\
    watched_before w (now - grace_days * day) = true /\ Ev UtcNow (Ok now) ∈ h'.

(** The marker, committed. *)
Definition armed (p : _Pending) (path : list N) (h : history) : Prop :=
  exists h', h = Ev Commit (Ok tt) :: Ev (SetMarker p path) (Ok tt) :: h'.

(** The lease was not revoked a moment ago. *)
Definition lease_stands (h : history) : Prop :=
  proactive = true \/ exists a h', h = Ev (LeaseRevoked a) (Ok None) :: h'.

(** The title was evicted by this sweep. *)
Definition swept (p : _Pending) (path : list N) (h : history) : Prop :=
  since (claimed p path) writes_status h /\ no_twin p path writes_status h /\ uncovered p writes_status h /\
  since (armed p path) writes_marker h /\ lease_stands h.

(** The title's delete was interrupted, and one transaction has confirmed the
    marker and then found nobody else interested in the path. *)
Definition recovered (p : _Pending) (path : list N) (h : history) : Prop :=
  exists h', h = Ev Commit (Ok tt) :: h' /\
    answered (ConfirmMarker p path (negb (is_correction p))) (Ok true) ends_transaction h' /\
    no_twin p path ends_transaction h' /\ uncovered p ends_transaction h' /\ no_transfer p ends_transaction h' /\
    (is_correction p = true \/ not_wanted p ends_transaction h').

Definition justified (path : list N) (h : history) : Prop := exists p, swept p path h \/ recovered p path h.

(** The path is registered, after no placement was found in it with nothing in
    between, and the guard has not refused it. *)
Definition registered (path : list N) (h : history) : Prop :=
  since (fun h => exists h', h = Ev (Register path) (Ok tt) :: Ev (PlacementConflicts path) (Ok false) :: h') registers h /\
  answered (DeleteGuardRefuses path) (Ok false) registers h.

Definition permitted (h : history) : Prop := answered AcquirePermit (Ok tt) uses_permit h.

(** The media are gone: their delete returned, or nothing was there. *)
Definition is_gone (path : list N) (h : history) : Prop :=
  (exists h', h = Ev (AwaitDelete path) (Ok tt) :: h') \/
  (exists e h', h = Ev (Stat path) (Raise e) :: h' /\ is_absence e = true).
Definition gone (path : list N) (h : history) : Prop := since (is_gone path) ends_transaction h.

(** Another row was found to own the path. *)
Definition is_shared (path : list N) (h : history) : Prop :=
  exists x h', h = Ev (RequestClaimsPath path x) (Ok true) :: h' \/ h = Ev (SeasonClaimsPath path x) (Ok true) :: h'.
Definition shared (path : list N) (h : history) : Prop := since (is_shared path) ends_transaction h.

(** The media are as they were: the title was claimed, the path was seen, or the
    last delete did nothing, and no delete was started since. *)
Definition harmless (e : exn) : bool := is_refusal e || is_os_error e && negb (is_partial_delete e).
Definition is_intact (take : call -> Prop) (h : history) : Prop :=
  match h with
  | ev :: _ => (exists p, take (claim_call p) /\ won p ev) \/ (exists path, ev = Ev (Stat path) (Ok tt)) \/
               (exists path e, ev = Ev (AwaitDelete path) (Raise e) /\ harmless e = true)
  | [] => False
  end.

Definition takes_request (i : Z) (c : call) : Prop :=
  match c with MoveRequest i' _ _ _ _ => i' = i | _ => False end.
Definition takes_season (j : Z) (c : call) : Prop :=
  match c with MoveSeason _ j' _ _ _ _ => j' = j | _ => False end.

Definition intact (take : call -> Prop) (h : history) : Prop := since (is_intact take) starts_delete h.

Definition allowed (h : history) (c : call) : Prop :=
  match c with
  | StartDelete path => registered path h /\ permitted h /\ justified path h
  | MoveRequest i available _ _ _ => intact (takes_request i) h
  | MoveSeason _ j available _ _ _ => intact (takes_season j) h
  | ClearRequestPath _ path _ _ | ClearSeasonPath _ path _ => gone path h \/ shared path h
  | AddHistory _ h_evicted _ _ => exists path, gone path h
  | _ => True
  end.

End facts.
