(* ===== verification/EvictionSpecs.v ===== *)
(** * The parts of an eviction run stay within the monitor *)

From Stdlib Require Import ZArith Lia Bool String SpecFloat.
From S2P Require Import Prelude PyStr PyNum Eviction RequestStore SeasonRepository Histories.
From S2P Require Import EvictionIO PurgeRun EvictionRun EvictionMonitor.

#[local] Open Scope bool_scope.

Section specs.
Context (grace_days : Z) (proactive : bool).

Abbreviation WP := (wp fits (allowed grace_days proactive) next).

(** A program without guarded calls. *)
Definition free (c : call) : bool := negb (guarded c).

Lemma free_allowed h c : free c = true -> allowed grace_days proactive h c.
Proof.
  unfold free. destruct c; try done; simpl; try (by destruct status).
  by destruct event.
Qed.

Lemma wp_free {X} (p : prog reply X) g : calls free p -> WP p g (fun _ _ => True).
Proof.
  revert g; induction p as [x|c k IH|]; intros g; simpl; [done| |done].
  intros [Hc Hk]. split; [by apply free_allowed|]. intros r _. by apply IH.
Qed.

Lemma wp_makes {A} K (m : IO A) s g (Q : history -> Local * res A -> Prop) :
  makes K m -> (forall c, K c = true -> free c = true) ->
  (forall g' out, extends K g g' -> Q g' out) -> WP (m s) g Q.
Proof.
  intros Hm HK HQ. eapply wp_mono; [|apply (wp_frame K); [apply Hm|]].
  - intros g' x [_ H]. by apply HQ.
  - apply wp_free. by apply (makes_weaken K).
Qed.

(** ** Rules for one call *)

(** A call that cannot fail. *)
Lemma wp_immediate c s g (Q : history -> Local * res (reply c) -> Prop) :
  immediate c = true -> allowed grace_days proactive g c ->
  (forall x, Q (Ev c (Ok x) :: g) (s, Ok x)) -> WP (perform c s) g Q.
Proof.
  intros Hi Ha HQ. apply wp_perform; [done|]. intros [x|e] Hr; [apply HQ|]. destruct Hr as [Hr _]. congruence.
Qed.

Lemma wp_act_immediate c s g (Q : history -> Local * res unit -> Prop) :
  immediate c = true -> allowed grace_days proactive g c ->
  (forall x, Q (Ev c (Ok x) :: g) (s, Ok tt)) -> WP (act c s) g Q.
Proof. intros Hi Ha HQ. apply wp_M_bind, wp_immediate; [done|done|]. intros x. apply HQ. Qed.

End specs.

(** One step of the program that the goal is about. *)
Ltac step :=
  cbn beta iota; try change (negb true) with false; try change (negb false) with true; cbn beta iota;
  lazymatch goal with
  | |- wp _ _ _ ((_ ≫= _) _) _ _ => apply wp_M_bind
  | |- wp _ _ _ (mret _ _) _ _ => cbn [wp mret M_ret]
  | |- wp _ _ _ (throw _ _) _ _ => cbn [wp throw]
  | |- wp _ _ _ (gets _ _) _ _ => cbn [wp gets]
  | |- wp _ _ _ (modify _ _) _ _ => cbn [wp modify]
  | |- wp _ _ _ (of_res _ _) _ _ => cbn [wp of_res]
  | |- wp _ _ _ (catching _ _ _ _) _ _ => apply wp_catching
  | |- wp _ _ _ (cleanup _ _ _) _ _ => apply wp_cleanup
  | |- wp _ _ _ (try_finally _ _ _) _ _ => apply wp_finally
  | |- wp _ _ _ (act ?c ?s) ?g ?Q =>
      first [refine (wp_act_immediate _ _ c s g Q eq_refl _ _); [try exact I|intros ?]
            | refine (wp_act c s g Q _ _); [try exact I|intros [?|?] ?Hfit]]
  | |- wp _ _ _ (perform ?c ?s) ?g ?Q =>
      first [refine (wp_immediate _ _ c s g Q eq_refl _ _); [try exact I|intros ?]
            | refine (wp_call c s g Q _ _); [try exact I|intros [?|?] ?Hfit]]
  | |- wp _ _ _ ((match ?x with _ => _ end) _) _ _ => first [is_var x; destruct x | lazymatch x with negb ?b => is_var b; destruct b end | destruct x eqn:?]
  end.
Ltac steps := repeat step; cbn beta iota.

(** ** The purge primitive within the monitor *)

(** Calls that only look. *)
Definition looks (c : call) : bool :=
  negb (guarded c || writes_status c || writes_marker c || ends_transaction c || registers c || uses_permit c
        || excludes c).
(** Calls of a hook: no status is written, nothing is taken or given back. *)
Definition boundary (c : call) : bool :=
  negb (guarded c || writes_status c || registers c || uses_permit c || excludes c).
(** Calls before the hook. *)
Definition preamble (c : call) : bool :=
  negb (guarded c || writes_status c || writes_marker c || ends_transaction c || excludes c).

(** Solves that a kind of calls avoids another. *)
Ltac kinds :=
  let c := fresh "c" in let H := fresh "H" in
  intros c H; unfold looks, boundary, preamble, free in *; destruct c; simpl in *; try reflexivity; try discriminate H;
  repeat match goal with H : context [bool_decide ?P] |- _ => destruct (bool_decide P) end; try done.

(** Nothing more is held. *)
Definition same (g g' : history) : Prop := forall k, holding k g' = holding k g.
(** What was intact still is. *)
Definition still (g g' : history) : Prop := forall take, intact take g -> intact take g'.

#[export] Instance same_preorder : PreOrder same.
Proof. split; [done|]. intros g1 g2 g3 H1 H2 k. by rewrite H2. Qed.
#[export] Instance still_preorder : PreOrder still.
Proof. split; [by intros g take|]. intros g1 g2 g3 H1 H2 take H. by apply H2, H1. Qed.

Definition unheld (c : call) : bool := negb (registers c || uses_permit c || excludes c).

Lemma unheld_change k ev : unheld (call_of ev) = true -> change k ev = 0%Z.
Proof. destruct ev as [c r]. destruct c; try done; by destruct r. Qed.

Lemma extends_same K g g' : (forall c, K c = true -> unheld c = true) -> extends K g g' -> same g g'.
Proof.
  intros HK (tr & -> & H) k. induction H as [|ev tr Hev Htr IH]; [done|]. simpl.
  rewrite unheld_change, IH; [lia|]. by apply HK.
Qed.

Lemma extends_still K g g' : (forall c, K c = true -> starts_delete c = false) -> extends K g g' -> still g g'.
Proof. intros HK He take. by eapply since_extends. Qed.

Lemma still_cons g g' c r : starts_delete c = false -> still g g' -> still g (Ev c r :: g').
Proof. intros Hc H take Hi. right. split; [done|]. by apply H. Qed.

(** A few calls after [g], none of which starts a delete. *)
Ltac stays := repeat (apply still_cons; [reflexivity|]); first [reflexivity | assumption | eauto].

Section purge.
Context (grace_days : Z) (proactive : bool).
Abbreviation WP := (wp fits (allowed grace_days proactive) next).

Context (path : list N) (hook : IO unit) (H : history -> Prop).
Hypothesis H_stable : forall g g', extends preamble g g' -> H g -> H g'.
Hypothesis hook_calls : makes boundary hook.
Hypothesis hook_runs : forall s g, H g ->
  WP (hook s) g (fun g' '(_, r) => match r with Ok _ => justified grace_days proactive path g' | Raise _ => True end).

(** An exception that says that no delete happened. *)
Definition telling (e : exn) : bool := raises "_PressureLeaseDefeated" e || harmless e.

(** How a purge ends. *)
Definition purged (g g' : history) (r : res PurgeResult) : Prop :=
  match r with
  | Ok x =>
      match outcome x with
      | Deleted => (forall k, holding k g' = counts k (Registration path) + holding k g)%Z /\ is_gone path g'
      | Partial => same g g'
      | _ => same g g' /\ still g g'
      end
  | Raise e => same g g' /\ (raises "_PressureLeaseDefeated" e = true -> still g g')
  end.

(** [g1] is [g] with the registration of the path, on the facts that allow it. *)
Definition entered (g g1 : history) : Prop :=
  (forall k, holding k g1 = counts k (Registration path) + holding k g)%Z /\ still g g1 /\ registered path g1 /\ H g1.

Lemma entered_cons g g1 c r : looks c = true -> entered g g1 -> entered g (Ev c r :: g1).
Proof.
  intros Hc (H1 & H2 & (H3 & H4) & H5).
  assert (He : extends looks g1 (Ev c r :: g1)) by (apply extends_cons; [done | apply extends_refl]).
  repeat split.
  - intros k. rewrite (extends_same looks g1 _ ltac:(kinds) He k). apply H1.
  - etransitivity; [exact H2|]. by eapply extends_still; [|exact He]; kinds.
  - by eapply since_extends; [|exact He|exact H3]; kinds.
  - by eapply since_extends; [|exact He|exact H4]; kinds.
  - eapply H_stable; [|exact H5]. by eapply extends_weaken; [|exact He]; kinds.
Qed.

(** The hook leaves what a purge has gathered. *)
Lemma boundary_keeps g g' : extends boundary g g' ->
  same g g' /\ still g g' /\ (registered path g -> registered path g') /\ (permitted g -> permitted g').
Proof.
  intros He. split; [by eapply extends_same; [|exact He]; kinds|]. split; [by eapply extends_still; [|exact He]; kinds|].
  split; [intros [R1 R2]; split|intros R]; (by eapply since_extends; [|exact He|eassumption]; kinds).
Qed.

Lemma start_worker_spec g g1 s : entered g g1 ->
  WP (start_worker path (Some hook) s) g1 (fun g' '(_, r) =>
    (forall k, holding k g' = counts k (Registration path) + holding k g)%Z /\
    match r with
    | Ok None => True
    | Ok (Some _) => still g g'
    | Raise e => telling e = true -> still g g'
    end).
Proof.
  intros (H1 & H2 & H3 & H5). unfold start_worker. step. step.
  2: { split; [intros k; simpl; rewrite H1; lia|]. intros _. by apply still_cons. }
  destruct x. step. apply wp_try. step.
  assert (He : extends preamble g1 (Ev AcquirePermit (Ok tt) :: g1)) by (apply extends_cons; [done | apply extends_refl]).
  assert (Hr : registered path (Ev AcquirePermit (Ok tt) :: g1)).
  { destruct H3; split; by right. }
  assert (Hp : permitted (Ev AcquirePermit (Ok tt) :: g1)) by (left; by eexists).
  assert (Hh : forall k, (holding k (Ev AcquirePermit (Ok tt) :: g1) =
                          counts k Permit + (counts k (Registration path) + holding k g))%Z)
    by (intros k; simpl; by rewrite H1).
  assert (Hs : still g (Ev AcquirePermit (Ok tt) :: g1)) by (by apply still_cons).
  eapply wp_mono; [|apply (wp_frame boundary); [apply hook_calls|apply hook_runs, (H_stable _ _ He H5)]].
  intros g2 [s2 [[]|e]] [HJ Hx]; apply boundary_keeps in Hx as (B1 & B2 & B3 & B4).
  - step. step. step. step.
    + repeat split; [by apply B3, Hr | by apply B3, Hr | by apply B4 | done].
    + split; [|done]. intros k. simpl. rewrite B1, Hh. lia.
    + destruct Hfit0 as (_ & _ & ->). split; [|done]. intros k. simpl. rewrite B1, Hh. lia.
  - step. step.
    assert (Hk : forall k, (holding k (Ev ReleasePermit (Ok x) :: g2) = counts k (Registration path) + holding k g)%Z)
      by (intros k; simpl; rewrite B1, Hh; lia).
    assert (Hst : still g (Ev ReleasePermit (Ok x) :: g2)) by (apply still_cons; [done | by etransitivity]).
    by destruct (is_exception e).
Qed.

Lemma release_spec g s : WP (release_registration path s) g (fun g' '(_, r) =>
  r = Ok tt /\ (forall k, holding k g' = holding k g - counts k (Registration path))%Z /\ still g g').
Proof.
  unfold release_registration. step. step. step; step.
  all: cbn beta iota; split; [done|]; split; [intros k; simpl; lia|]; stays.
Qed.

Lemma settlement_spec g g1 s : entered g g1 ->
  WP (_delete_to_settlement path true (Some hook) s) g1 (fun g' '(_, r) =>
    match r with
    | Ok None => (forall k, holding k g' = counts k (Registration path) + holding k g)%Z /\ is_gone path g'
    | Ok (Some _) => same g g' /\ still g g'
    | Raise e => same g g' /\ (telling e = true -> still g g')
    end).
Proof.
  intros He. unfold _delete_to_settlement. step. step. eapply wp_mono; [|by apply start_worker_spec].
  intros g2 [s2 [[e|]|e]] [Hh Hs].
  - step. step. step. split; [|by apply still_cons]. intros k. simpl. rewrite Hh. lia.
  - do 3 step.
    + do 2 step. cbn beta iota. split; [|left; by destruct x; eexists]. intros k. simpl. by rewrite Hh.
    + eapply wp_mono; [|apply release_spec]. intros g3 [s3 r] (-> & Hr & Ht). split.
      * intros k. rewrite Hr. simpl. rewrite Hh. lia.
      * intros Htell. etransitivity; [|exact Ht]. intros take _. left. right. right. exists path, e.
        split; [done|]. revert Htell. unfold telling. destruct Hfit as (_ & Ho & _). unfold own_error in Ho.
        by destruct (raises "_PressureLeaseDefeated" e).
  - step. split; [|intros Ht; apply still_cons; [done | by apply Hs]]. intros k. simpl. rewrite Hh. lia.
Qed.

(** The path is in the registry, on the check that no placement is in it. *)
Definition on_register (g g1 : history) : Prop :=
  (forall k, holding k g1 = counts k (Registration path) + holding k g)%Z /\ still g g1 /\ H g1 /\
  since (fun h => exists h', h = Ev (Register path) (Ok tt) :: Ev (PlacementConflicts path) (Ok false) :: h') registers g1.

Lemma on_register_cons g g1 c r : looks c = true -> on_register g g1 -> on_register g (Ev c r :: g1).
Proof.
  intros Hc (H1 & H2 & H3 & H4).
  assert (He : extends looks g1 (Ev c r :: g1)) by (apply extends_cons; [done | apply extends_refl]).
  split; [|split; [|split]].
  - intros k. rewrite (extends_same looks g1 _ ltac:(kinds) He k). apply H1.
  - etransitivity; [exact H2|]. by eapply extends_still; [|exact He]; kinds.
  - eapply H_stable; [|exact H3]. by eapply extends_weaken; [|exact He]; kinds.
  - by eapply since_extends; [|exact He|exact H4]; kinds.
Qed.

Lemma preflight_spec g g1 s : on_register g g1 ->
  WP (preflight path s) g1 (fun g' '(_, r) =>
    match r with Ok (Some _) => entered g g' | _ => on_register g g' end).
Proof.
  intros Hg. unfold preflight.
  assert (Hr : forall r, on_register g (Ev (DeleteGuardRefuses path) r :: g1)) by (intros r; by apply on_register_cons).
  step. step; [|apply Hr]. step; step; [apply Hr|]. step.
  assert (Hb : forall r, entered g (Ev (ReclaimableBytes path) r :: Ev (DeleteGuardRefuses path) (Ok false) :: g1)).
  { intros r. destruct (on_register_cons g _ (ReclaimableBytes path) r eq_refl (Hr (Ok false))) as (H1 & H2 & H3 & H4).
    split; [done|]. split; [done|]. split; [|done]. split; [done|]. right. split; [done|]. left. by eexists. }
  step. step; cbn beta iota.
  1: apply Hb.
  destruct (is_os_error e); [steps; apply Hb|].
  apply (on_register_cons g _ (ReclaimableBytes path) (Raise e) eq_refl (Hr (Ok false))).
Qed.

Lemma purge_spec g s : H g ->
  WP (purge_library_path path true (Some hook) s) g (fun g' '(_, r) => purged g g' r).
Proof.
  intros Hg. unfold purge_library_path. step. step. step.
  { step. split; [by intros k | by apply still_cons]. }
  step. step. destruct x.
  assert (Hon : on_register g (Ev (Register path) (Ok tt) :: Ev (PlacementConflicts path) (Ok false) :: g)).
  { split; [done|]. split; [stays|]. split; [|left; by eexists].
    eapply H_stable; [|exact Hg]. do 2 (apply extends_cons; [done|]). apply extends_refl. }
  step. step. eapply wp_mono; [|by apply preflight_spec].
  intros g1 [s1 [[bytes|]|e]] Hm; cbn beta iota.
  - step. apply wp_try. step. eapply wp_mono; [|by apply settlement_spec].
    intros g2 [s2 [[e|]|e]] Hp; cbn beta iota.
    + steps. split; [apply Hp | intros _; apply Hp].
    + steps. exact Hp.
    + destruct Hp as [Hsame Htell]. unfold classify. destruct (is_refusal e) eqn:H1; [|destruct (is_partial_delete e) eqn:H2;
        [|destruct (is_os_error e) eqn:H3]]; cbn -[raises].
      * split; [done|]. apply Htell. unfold telling, harmless. rewrite H1. by destruct (raises _ e).
      * done.
      * split; [done|]. apply Htell. unfold telling, harmless. rewrite H1, H2, H3. by destruct (raises _ e).
      * split; [done|]. intros He. apply Htell. unfold telling. by rewrite He.
  - destruct Hm as (H1 & H2 & _). steps. split; [|stays]. intros k. simpl. rewrite H1. lia.
  - destruct Hm as (H1 & H2 & _). steps. split; [|intros _; stays]. intros k. simpl. rewrite H1. lia.
Qed.

End purge.
