(* ===== verification/EvictionSafety.v ===== *)
(** * The eviction sweep within the monitor

    The parts of a sweep, from the guards to the loops.  The last section states
    what holds of every run. *)

From Stdlib Require Import ZArith Lia Bool String SpecFloat.
From S2P Require Import Prelude PyStr PyNum RequestStore Eviction SeasonRepository.
From S2P Require Import Histories EvictionIO PurgeRun EvictionRun EvictionMonitor EvictionSpecs.

#[local] Open Scope bool_scope.

(** Calls without a condition that neither take nor give back anything. *)
Definition plain (c : call) : bool := free c && unheld c.


Lemma looks_coverage p : makes looks (_coverage_claim_active p).
Proof. unfold _coverage_claim_active. makes_all. Qed.
Lemma looks_transfer p : makes looks (_competing_active_transfer p).
Proof. unfold _competing_active_transfer. makes_all. Qed.
Lemma looks_twin path p : makes looks (_path_claimed_by_another_row path p).
Proof. unfold _path_claimed_by_another_row. makes_all. Qed.
Lemma looks_armed p path : makes looks (_partial_delete_still_armed p path).
Proof. unfold _partial_delete_still_armed. makes_all. Qed.
#[export] Hint Resolve looks_coverage looks_transfer looks_twin looks_armed : makes.

Lemma looks_ownership p : makes looks (_recovery_ownership_blocked_reason p).
Proof. unfold _recovery_ownership_blocked_reason. makes_all. Qed.
Lemma looks_intent p : makes looks (_recovery_intent_blocked_reason p).
Proof. unfold _recovery_intent_blocked_reason. makes_all. Qed.
Lemma looks_post p : makes looks (_post_cas_intent_blocked_reason p).
Proof. unfold _post_cas_intent_blocked_reason. makes_all. Qed.
#[export] Hint Resolve looks_ownership looks_intent looks_post : makes.

Lemma looks_blocked p : makes looks (_recovery_purge_blocked_reason p).
Proof. unfold _recovery_purge_blocked_reason. makes_all. Qed.
Lemma looks_ready p path qbt : makes looks (correction_ready p path qbt).
Proof. unfold correction_ready. makes_all. Qed.
Lemma looks_present path : makes looks (file_present path).
Proof. unfold file_present. makes_all. Qed.
Lemma looks_watch p path : makes looks (fresh_watch_state p path).
Proof. unfold fresh_watch_state. makes_all. Qed.
Lemma looks_still p : makes looks (_still_evictable p).
Proof. unfold _still_evictable. makes_all. Qed.
Lemma looks_lease lease : makes looks (check_lease lease).
Proof. unfold check_lease. makes_all. Qed.
#[export] Hint Resolve looks_blocked looks_ready looks_present looks_watch looks_still looks_lease : makes.

Lemma plain_scan path t : makes plain (trigger_library_scan path t).
Proof. unfold trigger_library_scan. makes_all. Qed.
Lemma plain_cancel_movie p row : makes plain (cancel_movie p row).
Proof. unfold cancel_movie. makes_all. Qed.
Lemma plain_cancel_sibling p n row : makes plain (cancel_sibling p n row).
Proof. unfold cancel_sibling, move_season. makes_all. Qed.
Lemma plain_flip p : makes plain (tolerant_flip p).
Proof. unfold tolerant_flip, move_season. makes_all. Qed.
#[export] Hint Resolve plain_scan plain_cancel_movie plain_cancel_sibling plain_flip : makes.
Lemma plain_cancel_movies p : makes plain (_cancel_redundant_movie_regrabs p).
Proof. unfold _cancel_redundant_movie_regrabs. makes_all. Qed.
Lemma plain_cancel_seasons p j n : makes plain (_cancel_redundant_season_regrabs p j n).
Proof. unfold _cancel_redundant_season_regrabs. makes_all. Qed.
Lemma plain_unstarted p : makes plain (_disarm_unstarted_delete p).
Proof. unfold _disarm_unstarted_delete, _disarm_partial_delete. makes_all. Qed.
#[export] Hint Resolve plain_cancel_movies plain_cancel_seasons plain_unstarted : makes.

(** The row of a title. *)
Definition takes (p : _Pending) : call -> Prop :=
  match p with
  | _SeasonPending _ j _ _ _ => takes_season j
  | _MoviePending i _ _ _ => takes_request i
  end.

Lemma claim_takes p : takes p (claim_call p).
Proof. by destruct p. Qed.

Section safety.
Context (grace_days : Z) (proactive : bool).
Abbreviation WP := (wp fits (allowed grace_days proactive) next).

(** A part that only looks, or only writes without conditions. *)
Lemma wp_looks {A} (m : IO A) s g (Q : history -> Local * res A -> Prop) :
  makes looks m -> (forall g' out, extends looks g g' -> Q g' out) -> WP (m s) g Q.
Proof. intros Hm. apply wp_makes; [done|]. kinds. Qed.

Lemma wp_plain {A} (m : IO A) s g (Q : history -> Local * res A -> Prop) :
  makes plain m -> (forall g' out, same g g' -> Q g' out) -> WP (m s) g Q.
Proof.
  intros Hm HQ. apply (wp_makes _ _ plain); [done| |].
  - intros c Hc. by apply andb_prop in Hc as [? _].
  - intros g' out He. apply HQ. eapply extends_same; [|exact He]. intros c Hc. by apply andb_prop in Hc as [_ ?].
Qed.

Lemma looks_same g g' : extends looks g g' -> same g g'.
Proof. apply extends_same. kinds. Qed.

(** Calls that leave what is held. *)
Lemma same_cons c r g g' : unheld c = true -> same g g' -> same g (Ev c r :: g').
Proof. intros Hc H k. cbn [holding]. by rewrite unheld_change, H. Qed.

Ltac sames :=
  cbn beta in *;
  repeat (apply same_cons; [reflexivity|]);
  first [reflexivity | assumption
        | match goal with H : same _ ?g |- same _ ?g => etransitivity; [|exact H]; clear H; sames end].

(** ** Restoring *)

Lemma restore_spec p s g : intact (takes p) g ->
  WP (_restore_after_failed_delete p s) g (fun g' _ => same g g').
Proof.
  intros Hi. unfold _restore_after_failed_delete, _disarm_partial_delete, move_season. step. step; [|sames].
  assert (Hi2 : forall r, intact (takes p) (Ev (ClearMarker p) r :: g)) by (intros r; by right).
  step. destruct p as [i t sz cr|i j n t sz].
  - step. step; [by apply Hi2| |sames]. step; [|steps; sames].
    apply wp_plain; [auto with makes nocore|]. intros g' [s' [[]|e]] Hs; steps; sames.
  - step. step; [by apply Hi2| |sames]. step.
    + apply wp_plain; [auto with makes nocore|]. intros g' [s' [[]|e]] Hs; steps; sames.
    + step. step; [right; split; [done|apply Hi2]| |]; steps; sames.
Qed.

(** ** Clearing a breadcrumb *)

Lemma clear_breadcrumb_spec p path statuses removed s g : gone path g \/ shared path g ->
  WP (clear_breadcrumb p path statuses removed s) g (fun g' _ => same g g' /\ (gone path g -> gone path g')).
Proof.
  intros Hg. unfold clear_breadcrumb. destruct p; (step; [exact Hg|..]); (split; [sames | by right]).
Qed.

Lemma release_stale_spec p path statuses s g : shared path g ->
  WP (_release_stale_breadcrumb p path statuses s) g (fun g' _ => same g g').
Proof.
  intros Hg. unfold _release_stale_breadcrumb. step. eapply wp_mono; [|apply clear_breadcrumb_spec; by right].
  intros g1 [s1 [x|e]] [Hs _]; steps; sames.
Qed.
(** ** What a look establishes *)

Section looks.
Context (Q : call -> bool) (HQ : forall c, looks c = true -> Q c = false).

Lemma looks_keep (P : history -> Prop) g g' : extends looks g g' -> since P Q g -> since P Q g'.
Proof. by apply since_extends. Qed.

Ltac here := first [left; by eexists | right; split; [by apply HQ | here]].
Ltac looked := repeat (apply extends_cons; [reflexivity|]); apply extends_refl.

Lemma twin_spec p path s g :
  WP (_path_claimed_by_another_row path p s) g (fun g' '(_, r) =>
    extends looks g g' /\ (r = Ok false -> no_twin p path Q g') /\ (r = Ok true -> shared path g')).
Proof.
  unfold _path_claimed_by_another_row, no_twin, answered, shared.
  destruct p; steps; (split; [looked|]); split; intros Hx; try discriminate Hx; try injection Hx as ->.
  all: try (split; here).
  all: left; do 2 eexists; eauto.
Qed.

Lemma coverage_spec p s g :
  WP (_coverage_claim_active p s) g (fun g' '(_, r) =>
    extends looks g g' /\ (r = Ok false -> uncovered p Q g')).
Proof.
  unfold _coverage_claim_active, uncovered, answered. destruct p; steps; (split; [looked|]); try done.
  intros [= Hx%negb_false_iff]. apply bool_decide_eq_true in Hx. rewrite Hx. here.
Qed.

Lemma transfer_spec p s g :
  WP (_competing_active_transfer p s) g (fun g' '(_, r) =>
    extends looks g g' /\ (r = Ok false -> no_transfer p Q g')).
Proof.
  unfold _competing_active_transfer, no_transfer, answered. steps; (split; [looked|]); try done.
  intros [= Hx]. exists x. split; [by destruct p; here|]. destruct x as [status|]; [|done]. by apply mem_false.
Qed.

Lemma ownership_spec p s g :
  WP (_recovery_ownership_blocked_reason p s) g (fun g' '(_, r) =>
    extends looks g g' /\ (r = Ok None -> no_transfer p Q g' /\ uncovered p Q g')).
Proof.
  unfold _recovery_ownership_blocked_reason. step. eapply wp_mono; [|apply transfer_spec].
  intros g1 [s1 [[]|e]] [He Ht]; [by steps| |by steps]. step.
  eapply wp_mono; [|apply coverage_spec]. intros g2 [s2 [[]|e]] [He2 Hc]; steps; (split; [by eapply extends_trans|]); try done.
  intros _. split; [|by apply Hc]. destruct Ht as (active & Ht & Ha); [done|]. exists active. split; [|done].
  by eapply looks_keep.
Qed.

Lemma wanted_spec p s g :
  WP (_post_cas_intent_blocked_reason p s) g (fun g' '(_, r) =>
    extends looks g g' /\ (r = Ok None -> is_correction p = true \/ not_wanted p Q g')).
Proof.
  unfold _post_cas_intent_blocked_reason, not_wanted, answered. steps; (split; [looked|]); try done; try by left.
  destruct x as [row|]; [|done]. destruct (MediaRequest.keep_forever row) eqn:Hk; [done|]. intros _. right.
  split; [here|]. exists row. split; [done|here].
Qed.

End looks.
(** ** The hooks *)

Lemma boundary_calls p path : makes boundary (_recovery_delete_boundary p path).
Proof.
  unfold _recovery_delete_boundary, _confirm_delete_marker_cas. makes_all;
    (eapply makes_weaken; [|auto with makes nocore]; kinds).
Qed.

Lemma boundary_spec p path s g :
  WP (_recovery_delete_boundary p path s) g (fun g' '(_, r) =>
    match r with Ok _ => justified grace_days proactive path g' | Raise _ => True end).
Proof.
  unfold _recovery_delete_boundary, _confirm_delete_marker_cas. steps; try done.
  assert (HQ : forall c, looks c = true -> ends_transaction c = false) by kinds.
  assert (H0 : answered (ConfirmMarker p path (negb (is_correction p))) (Ok true) ends_transaction
    (Ev (ConfirmMarker p path (negb (is_correction p))) (Ok true) :: Ev Rollback (Ok x) :: g)) by (left; by eexists).
  eapply wp_mono; [|by apply ownership_spec]. intros g1 [s1 [[reason|]|e]] [He1 Ho]; [by steps| |by steps].
  destruct Ho as [Ht1 Hc1]; [done|]. steps.
  eapply wp_mono; [|by apply twin_spec]. intros g2 [s2 [[]|e]] (He2 & Ho & _); [by steps| |by steps].
  destruct Ho as [Hn2 Hm2]; [done|]. steps.
  eapply wp_mono; [|by apply wanted_spec]. intros g3 [s3 [[reason|]|e]] [He3 Hw]; [by steps| |by steps].
  assert (Hl : forall P, since P ends_transaction g2 -> since P ends_transaction g3) by (intros P; by apply since_extends with looks).
  assert (Hk : forall P, since P ends_transaction g1 -> since P ends_transaction g3)
    by (intros P HP; apply Hl; by eapply since_extends).
  steps; [|done..]. match goal with |- context [Ev Commit (Ok ?u)] => destruct u end. exists p. right. eexists. split; [done|]. split; [|split; [|split; [|split]]].
  - apply Hk. by eapply since_extends.
  - split; by apply Hl.
  - destruct p; [done | by apply Hk].
  - destruct Ht1 as (active & Ht & Ha). exists active. split; [by apply Hk | done].
  - by apply Hw.
Qed.
(** What the sweep knows of a title before it deletes it. *)
Definition chosen (p : _Pending) (path : list N) (g : history) : Prop :=
  since (claimed grace_days p path) writes_status g /\ no_twin p path writes_status g /\ uncovered p writes_status g.

Lemma chosen_extends K p path g g' : (forall c, K c = true -> writes_status c = false) -> extends K g g' ->
  chosen p path g -> chosen p path g'.
Proof.
  intros HK He (H1 & (H2 & H3) & H4). split; [|split; [split|]]; [by eapply since_extends.. |].
  destruct p; [done | by eapply since_extends].
Qed.

Lemma mark_calls p path lease : makes boundary (_mark_delete_started p path lease).
Proof.
  unfold _mark_delete_started, _arm_partial_delete. makes_all;
    (eapply makes_weaken; [|auto with makes nocore]; kinds).
Qed.

Lemma mark_spec p path lease s g : (proactive = true \/ exists a : Z, lease = Some a) -> chosen p path g ->
  WP (_mark_delete_started p path lease s) g (fun g' '(_, r) =>
    match r with Ok _ => justified grace_days proactive path g' | Raise _ => True end).
Proof.
  intros Hl Hc. unfold _mark_delete_started. step. eapply wp_mono; [|apply (wp_looks _ _ _ (fun g' _ => extends looks g g')); [auto with makes nocore | done]].
  intros g1 [s1 [[]|e]] He1; cbn beta iota; [|done].
  apply (chosen_extends looks p path g g1) in Hc; [|kinds|done].
  unfold _arm_partial_delete. step. step; [|done]. step. step; [|done]. steps. unfold check_lease.
  assert (Hc2 : chosen p path (Ev Commit (Ok x0) :: Ev (SetMarker p path) (Ok x) :: g1)).
  { eapply (chosen_extends boundary); [kinds| |exact Hc]. do 2 (apply extends_cons; [done|]). apply extends_refl. }
  destruct x, x0, Hc2 as (H1 & (H2 & H3) & H4). destruct lease as [a|]; steps; try done.
  - exists p. left. split; [by right|]. split; [split; by right|]. split; [destruct p; [done|by right]|].
    split; [right; split; [done|]; left; by eexists|]. right. by do 2 eexists.
  - exists p. left. split; [done|]. split; [done|]. split; [done|]. split; [left; by eexists|].
    destruct Hl as [Hl|[a Ha]]; [by left | done].
Qed.

(** ** Recovery *)

Lemma recovery_purge_spec p path s g :
  WP (recovery_purge p path s) g (fun g' '(_, r) =>
    match r with
    | Ok (Some x) => purged path g g' (Ok x)
    | _ => same g g'
    end).
Proof.
  unfold recovery_purge. step. step.
  eapply wp_mono; [|apply (purge_spec grace_days proactive path _ (fun _ => True)); [done|apply boundary_calls| |done]].
  - intros g1 [s1 [x|e]] Hp; cbn beta iota; [done|]. destruct (raises _ e); steps; apply Hp.
  - intros s' g' _. apply boundary_spec.
Qed.

(** A flip, a history record and the marker, in one transaction. *)
Definition staying (c : call) : bool := plain c && negb (ends_transaction c).

Lemma staying_flip p : makes staying (tolerant_flip p).
Proof. unfold tolerant_flip, move_season. makes_all. Qed.

Lemma staying_extends g g' : extends staying g g' -> same g g' /\ (forall path, gone path g -> gone path g').
Proof.
  intros He. split.
  - eapply extends_same; [|exact He]. unfold staying, plain. intros c. by destruct (unheld c), (free c).
  - intros path. eapply since_extends; [|exact He]. unfold staying. intros c. by destruct (ends_transaction c), (plain c).
Qed.

Lemma recorded_spec p path title note s g : gone path g ->
  WP (record_evicted p path title note s) g (fun g' _ => same g g').
Proof.
  intros Hg. unfold record_evicted. step.
  apply (wp_makes _ _ staying); [apply staying_flip|intros c; unfold staying, plain; by destruct (free c)|].
  intros g1 [s1 [[]|e]] [Hs Hk]%staying_extends; cbn beta iota; [|done].
  unfold _disarm_partial_delete. step. step; [exists path; by apply Hk|]. steps; sames.
Qed.
Lemma is_gone_gone path g : is_gone path g -> gone path g.
Proof. destruct g; by left. Qed.

Lemma finalize_resumed_spec p path title note s g : gone path g ->
  WP (finalize_resumed p path title note s) g (fun g' _ => same g g').
Proof.
  intros Hg. unfold finalize_resumed. step. eapply wp_mono; [|apply clear_breadcrumb_spec; by left].
  intros g1 [s1 [[]|e]] [Hs Hk]; steps; try sames.
  eapply wp_mono; [|apply (recorded_spec p path); by apply Hk]. intros g2 [s2 [[]|e]] H2; steps; sames.
Qed.

Lemma finish_resumed_spec p t path title held note s g : gone path g ->
  WP (finish_resumed p t path title held note s) g (fun g' _ =>
    forall k, holding k g' = holding k g - (if held then counts k (Registration path) else 0))%Z.
Proof.
  intros Hg. unfold finish_resumed. step. step. eapply wp_mono; [|by apply finalize_resumed_spec].
  intros g1 [s1 r] Hs; cbn beta iota.
  assert (Hend : forall g2, same (if held then Ev (EndPurge path) (Ok tt) :: g1 else g1) g2 -> forall k,
    (holding k g2 = holding k g - (if held then counts k (Registration path) else 0))%Z).
  { intros g2 H2 k. rewrite H2. destruct held; simpl; rewrite Hs; lia. }
  destruct held; steps; destruct r as [[]|e]; steps; try match goal with u : reply (EndPurge _) |- _ => destruct u end;
    try (by apply Hend).
  all: apply wp_plain; [auto with makes nocore|]; intros g2 [s2 [[]|e]] H2; steps; by apply Hend.
Qed.

(** The claim of a path around a recovery. *)
Lemma with_claim_spec path m s g :
  (forall s' g', WP (m s') g' (fun g2 _ => same g' g2)) -> WP (with_purge_claim path m s) g (fun g' _ => same g g').
Proof.
  intros Hm. unfold with_purge_claim. step. step. step; [|steps; by intros k]. step.
  eapply wp_mono; [|apply Hm]. intros g1 [s1 r] Hs; cbn beta iota. steps. intros k. simpl. rewrite Hs. simpl. lia.
Qed.

Lemma seen_intact take path g : intact take (Ev (Stat path) (Ok tt) :: g).
Proof. left. right. left. by eexists. Qed.

Lemma present_spec path s g :
  WP (file_present path s) g (fun g' '(_, r) =>
    extends looks g g' /\
    match r with
    | Ok (Some true) => forall take, intact take g'
    | Ok (Some false) => gone path g'
    | _ => True
    end).
Proof.
  unfold file_present. apply wp_try. step. step; steps.
  - split; [apply extends_cons; [done|apply extends_refl]|]. destruct x. intros take. apply seen_intact.
  - assert (He : extends looks g (Ev (Stat path) (Raise e) :: g)) by (apply extends_cons; [done|apply extends_refl]).
    destruct (is_absence e) eqn:Ha; [|destruct (is_os_error e)]; steps; try done.
    split; [done|]. left. right. by do 2 eexists.
Qed.

Lemma twin_found p path s g :
  WP (_path_claimed_by_another_row path p s) g (fun g' '(_, r) => extends looks g g' /\ (r = Ok true -> shared path g')).
Proof.
  eapply wp_mono; [|apply (twin_spec ends_transaction); kinds]. intros g' [s' r] (H1 & _ & H2). done.
Qed.

(** Recovery of one row: what follows a finished purge gives its registration
    back. *)
Definition gives_back (path : list N) (m : IO bool) : Prop :=
  forall s g, gone path g ->
    WP (m s) g (fun g' _ => forall k, holding k g' = holding k g - counts k (Registration path))%Z.

Lemma retry_spec p t path finish s g : gives_back path finish ->
  WP (retry_purge p t path finish s) g (fun g' _ => same g g').
Proof.
  intros Hf. unfold retry_purge. step. eapply wp_mono; [|apply recovery_purge_spec].
  intros g1 [s1 [[r|]|e]] Hp; steps; try done.
  - assert (Hs : same g g1) by (revert Hp Heqb; unfold purged; destruct (outcome r); tauto || done).
    apply wp_plain; [auto with makes nocore|]. intros g2 [s2 [[]|e]] H2; steps; sames.
  - revert Hp Heqb. unfold purged. destruct (outcome r); try tauto; done.
  - apply negb_false_iff, bool_decide_eq_true in Heqb. cbn in Hp. rewrite Heqb in Hp. destruct Hp as [Hh Hg].
    eapply wp_mono; [|apply Hf; by apply is_gone_gone]. intros g2 out H2 k. rewrite H2, Hh. lia.
Qed.

Lemma finish_gives_back p t path title note : gives_back path (finish_resumed p t path title true note).
Proof. intros s g Hg. by apply finish_resumed_spec. Qed.

Lemma looks_intact g g' take : extends looks g g' -> intact take g -> intact take g'.
Proof. intros He. eapply since_extends; [|exact He]. kinds. Qed.

(** The guards of a recovery: the file is looked at, then the other rows. *)
Lemma resume_claimed_spec p t path title partial qbt s g :
  WP (_resume_one_claimed p t path title partial qbt s) g (fun g' _ => same g g').
Proof.
  unfold _resume_one_claimed. step. apply wp_looks; [auto with makes nocore|].
  intros g1 [s1 [[]|e]] H1%looks_same; steps; try done.
  eapply wp_mono; [|apply present_spec]. intros g2 [s2 [[[]|]|e]] [H2 Hp]; pose proof (looks_same _ _ H2) as S2; steps; try sames.
  - eapply wp_mono; [|apply twin_found]. intros g3 [s3 [[]|e]] [H3 Hs]; pose proof (looks_same _ _ H3) as S3; steps; try sames.
    + eapply wp_mono; [|apply release_stale_spec; by apply Hs]. intros g4 [s4 [x|e]] S4; steps; sames.
    + eapply wp_mono; [|apply restore_spec; apply (looks_intact g2); [done | apply Hp]].
      intros g4 [s4 [[]|e]] S4; steps; sames.
    + apply wp_looks; [auto with makes nocore|]. intros g4 [s4 [[b|]|e]] S4%looks_same; steps; try sames.
      eapply wp_mono; [|apply retry_spec, finish_gives_back]. intros g5 out S5. sames.
  - eapply wp_mono; [|by apply finish_resumed_spec]. intros g3 out H3 k. rewrite H3, S2, H1. lia.
Qed.

Lemma resume_one_spec p t path title partial qbt s g :
  WP (_resume_one p t path title partial qbt s) g (fun g' _ => same g g').
Proof. apply with_claim_spec. intros s' g'. apply resume_claimed_spec. Qed.

Lemma finalize_gone_spec p path title note s g : gone path g ->
  WP (_finalize_gone_rearmed_season p path title note s) g (fun g' _ => same g g').
Proof.
  intros Hg. unfold _finalize_gone_rearmed_season. step. eapply wp_mono; [|apply clear_breadcrumb_spec; by left].
  intros g1 [s1 [[]|e]] [Hs Hk]; steps; try sames.
  eapply wp_mono; [|apply (recorded_spec p path); by apply Hk]. intros g2 [s2 [[]|e]] H2; steps; [|sames].
  apply wp_plain; [auto with makes nocore|]. intros g3 out H3. sames.
Qed.

Lemma finalize_gives_back p path title note :
  gives_back path (try_finally (_finalize_gone_rearmed_season p path title note) (act (EndPurge path)) ;; mret true).
Proof.
  intros s g Hg. step. step. eapply wp_mono; [|by apply finalize_gone_spec].
  intros g1 [s1 [[]|e]] H1; steps; intros k; simpl; rewrite H1; lia.
Qed.

Lemma rearmed_claimed_spec p path title status partial s g :
  WP (_recover_rearmed_season_claimed p path title status partial s) g (fun g' _ => same g g').
Proof.
  unfold _recover_rearmed_season_claimed. step.
  eapply wp_mono; [|apply present_spec]. intros g2 [s2 [[[]|]|e]] [H2 Hp]; pose proof (looks_same _ _ H2) as S2; steps; try sames.
  - eapply wp_mono; [|apply twin_found]. intros g3 [s3 [[]|e]] [H3 Hs]; pose proof (looks_same _ _ H3) as S3; steps; try sames.
    + eapply wp_mono; [|apply release_stale_spec; by apply Hs]. intros g4 [s4 [x|e]] S4; steps; sames.
    + apply wp_looks; [auto with makes nocore|]. intros g4 [s4 [[b|]|e]] S4%looks_same; steps; try sames.
      apply wp_looks; [auto with makes nocore|]. intros g5 [s5 [[]|e]] S5%looks_same; steps; try sames.
      eapply wp_mono; [|apply retry_spec, finalize_gives_back]. intros g6 out S6. sames.
    + unfold move_season. step; [apply (looks_intact g2); [done | apply Hp]|..]; steps; sames.
  - eapply wp_mono; [|by apply finalize_gone_spec]. intros g3 [s3 [[]|e]] H3; steps; sames.
Qed.

Lemma rearmed_spec p path title status partial s g :
  WP (_recover_rearmed_season p path title status partial s) g (fun g' _ => same g g').
Proof. apply with_claim_spec. intros s' g'. apply rearmed_claimed_spec. Qed.

Lemma recover_each_spec recover rows destroyed s g :
  (forall x s' g', WP (recover x s') g' (fun g2 _ => same g' g2)) ->
  WP (recover_each recover rows destroyed s) g (fun g' _ => same g g').
Proof.
  intros Hr. revert destroyed s g. induction rows as [|x rows IH]; intros destroyed s g; simpl; [done|].
  step. step. step. eapply wp_mono; [|apply Hr]. intros g1 [s1 [b|e]] H1; steps; try sames.
  - eapply wp_mono; [|apply IH]. intros g2 out H2. sames.
  - destruct (is_exception e); steps; try sames. eapply wp_mono; [|apply IH]. intros g2 out H2. sames.
Qed.

Lemma looks_corrections statuses root roots : makes looks (corrections_in statuses root roots).
Proof. induction statuses as [|status rest IH]; simpl; makes_all. Qed.
Lemma looks_seasons status only root roots rows : makes looks (seasons_in status only root roots rows).
Proof. induction rows as [|row rest IH]; simpl; makes_all. Qed.
#[local] Hint Resolve looks_corrections looks_seasons : makes.
Lemma looks_rearmed statuses root roots : makes looks (rearmed_in statuses root roots).
Proof. induction statuses as [|status rest IH]; simpl; makes_all. Qed.
#[local] Hint Resolve looks_rearmed : makes.
Lemma looks_enumerate t root roots only : makes looks (enumerate_interrupted t root roots only).
Proof. unfold enumerate_interrupted. makes_all. Qed.

Lemma resume_interrupted_spec qbt t root roots only s g :
  WP (_resume_interrupted_evictions qbt t root roots only s) g (fun g' _ => same g g').
Proof.
  unfold _resume_interrupted_evictions. step. apply wp_looks; [apply looks_enumerate|].
  intros g1 [s1 [found|e]] H1%looks_same; steps; [|done].
  eapply wp_mono; [|apply recover_each_spec; intros; apply resume_one_spec].
  intros g2 [s2 [d|e]] H2; steps; [|sames].
  eapply wp_mono; [|apply recover_each_spec; intros; apply rearmed_spec]. intros g3 out H3. sames.
Qed.
(** ** One eviction *)

Lemma finalize_evicted_spec p c path s g : gone path g ->
  WP (finalize_evicted p c path s) g (fun g' _ => same g g').
Proof.
  intros Hg. unfold finalize_evicted, _disarm_partial_delete. step. step; [by exists path|]. step.
  eapply wp_mono; [|apply clear_breadcrumb_spec; left; by right].
  intros g1 [s1 [b|e]] [H1 Hk]; steps; try sames. all: unfold move_season; steps; sames.
Qed.

Lemma settle_spec p c path r s g0 g : purged path g0 g (Ok r) -> intact (takes p) g0 ->
  WP (settle_purge p c path r s) g (fun g' _ => same g0 g').
Proof.
  intros Hp Hi. unfold settle_purge, _disarm_partial_delete. unfold purged in Hp.
  destruct (outcome r).
  - destruct Hp as [Hh Hg]. step. step. eapply wp_mono; [|apply finalize_evicted_spec; by apply is_gone_gone].
    intros g1 [s1 o] H1; steps.
    assert (H2 : same g0 (Ev (EndPurge path) (Ok x) :: g1)) by (intros k; simpl; rewrite H1, Hh; lia).
    destruct o as [[]|e]; [|done]. steps. apply wp_plain; [auto with makes nocore|]. intros g3 [s3 [[]|e]] H3; steps; sames.
  - destruct Hp as [Hs Ht]. step. eapply wp_mono; [|apply restore_spec; by apply Ht].
    intros g1 [s1 [[]|e]] H1; steps; sames.
  - destruct Hp as [Hs Ht]. steps; sames.
  - destruct Hp as [Hs Ht]. step. eapply wp_mono; [|apply restore_spec; by apply Ht].
    intros g1 [s1 [[]|e]] H1; steps; sames.
  - steps. apply wp_plain; [auto with makes nocore|]. intros g3 [s3 [[]|e]] H3; steps; sames.
Qed.

Lemma purge_claimed_spec p c path lease s g :
  (proactive = true \/ exists a : Z, lease = Some a) -> chosen p path g -> intact (takes p) g ->
  WP (purge_claimed p c path lease s) g (fun g' _ => same g g').
Proof.
  intros Hl Hc Hi. unfold purge_claimed. step. step. step. apply wp_try. step.
  eapply wp_mono; [|apply (purge_spec grace_days proactive path _ (chosen p path));
                    [|apply mark_calls|intros s' g' Hg; by apply mark_spec|exact Hc]].
  - intros g1 [s1 [r|e]] Hp; steps.
    + by eapply wp_mono; [|by eapply settle_spec].
    + destruct Hp as [Hs Ht]. destruct (raises "_PressureLeaseDefeated" e) eqn:He; [|destruct (raises "DeleteWorkerStartError" e)].
      * step. eapply wp_mono; [|apply restore_spec; by apply Ht]. intros g2 [s2 [[]|e2]] H2; steps; sames.
      * steps; [|done]. apply wp_plain; [auto with makes nocore|]. intros g2 [s2 [[]|e2]] H2; steps; sames.
      * done.
  - intros g1 g2 He. apply chosen_extends with preamble; [kinds | done].
Qed.

(** The sweep's clock. *)
Definition due (grace_cutoff : Z) (g : history) : Prop :=
  exists now, grace_cutoff = (now - grace_days * day)%Z /\ Ev UtcNow (Ok now) ∈ g.

Lemma due_extends K cutoff g g' : extends K g g' -> due cutoff g -> due cutoff g'.
Proof. intros (tr & -> & _) (now & H1 & H2). exists now. split; [done|]. apply elem_of_app. by right. Qed.

Lemma claim_spec p s g :
  WP (claim p s) g (fun g' '(_, r) => same g g' /\ (r = Ok true -> exists ev, g' = ev :: g /\ won p ev)).
Proof.
  unfold claim. destruct p; steps; (split; [sames|]); intros Hr; try discriminate Hr; injection Hr as ->; by eexists.
Qed.

(** The committed claim of a row. *)
Lemma won_intact p ev r g : won p ev -> intact (takes p) (Ev Commit r :: ev :: g).
Proof.
  intros Hw. right. split; [done|]. left. left. exists p. split; [|done]. apply claim_takes.
Qed.

(** After the claim: the twins, the claims of packs, then the delete. *)
Lemma claimed_spec p c path lease s g :
  (proactive = true \/ exists a : Z, lease = Some a) -> claimed grace_days p path g -> intact (takes p) g ->
  WP (evict_claimed p c path lease s) g (fun g' _ => same g g').
Proof.
  intros Hl Hc Hi. assert (HQ : forall c, looks c = true -> writes_status c = false) by kinds.
  assert (Hc' : since (claimed grace_days p path) writes_status g) by (destruct g; by left).
  unfold evict_claimed. step. eapply wp_mono; [|by apply twin_spec]. intros g1 [s1 [[]|e]] (He1 & Hn1 & _); pose proof (looks_same _ _ He1) as H1; steps; try sames.
  { eapply wp_mono; [|apply restore_spec; by eapply looks_intact]. intros g2 [s2 [[]|e]] H2; steps; sames. }
  eapply wp_mono; [|by apply coverage_spec]. intros g2 [s2 [[]|e]] [He2 Hn2]; pose proof (looks_same _ _ He2) as H2; steps; try sames.
  { eapply wp_mono; [|apply restore_spec; by do 2 (eapply looks_intact; [eassumption|])]. intros g3 [s3 [[]|e]] H3; steps; sames. }
  eapply wp_mono; [|apply purge_claimed_spec; [done| |by do 2 (eapply looks_intact; [eassumption|])]].
  - intros g3 out H3. sames.
  - split; [|split]; [by do 2 (eapply since_extends; [exact HQ|eassumption|]) | | by apply Hn2].
    destruct Hn1 as [Ha Hb]; [done|]. split; by eapply since_extends.
Qed.

Lemma evict_one_spec p c cutoff lease s g :
  (proactive = true \/ exists a : Z, lease = Some a) -> due cutoff g ->
  WP (_evict_one p c cutoff lease s) g (fun g' _ => same g g').
Proof.
  intros Hl Hd. unfold _evict_one. destruct (ev_library_path c) as [path|]; [|done].
  step. apply wp_looks; [auto with makes nocore|]. intros g1 [s1 [[]|e]] He1; pose proof (looks_same _ _ He1) as H1; steps; try sames.
  unfold fresh_watch_state. steps; try sames.
  2: { destruct (is_plex_error e || raises "NotImplementedError" e); steps; sames. }
  apply negb_false_iff in Heqb. eapply wp_mono; [|apply claim_spec].
  intros g2 [s2 [[]|e]] [H2 Hw]; steps; try sames.
  destruct Hw as (ev & -> & Hw); [done|]. match goal with |- context [Ev Commit (Ok ?u)] => destruct u end.
  eapply wp_mono; [|apply claimed_spec; [done| |by apply won_intact]]; [intros g3 out H3; sames|].
  destruct (due_extends _ _ _ _ He1 Hd) as (now & -> & Hn). by exists ev, g1, x, now.
Qed.

(** ** The loops *)

Lemma looks_measure c t cutoff cache : makes looks (measure c t cutoff cache).
Proof. unfold measure, _sized_path. makes_all. Qed.
#[local] Hint Resolve looks_measure : makes.
Lemma looks_movie_pairs rows ws keys t cutoff cache : makes looks (movie_pairs rows ws keys t cutoff cache).
Proof. revert ws cache; induction rows as [|row rows IH]; intros [|w ws] cache; cbn [movie_pairs]; makes_all. Qed.
Lemma looks_season_pairs rows ws ps keys cs t cutoff cache : makes looks (season_pairs rows ws ps keys cs t cutoff cache).
Proof. revert ws cache; induction rows as [|row rows IH]; intros [|w ws] cache; cbn [season_pairs]; makes_all. Qed.
#[local] Hint Resolve looks_movie_pairs looks_season_pairs : makes.
Lemma looks_candidates t total root roots cutoff : makes looks (candidate_pairs t total root roots cutoff).
Proof. unfold candidate_pairs, _movie_candidates, _season_candidates. makes_all. Qed.
Lemma looks_disk root : makes looks (probe_disk root).
Proof. unfold probe_disk. makes_all. Qed.
#[local] Hint Resolve looks_candidates looks_disk : makes.
Lemma looks_reprobe root u : makes looks (_reprobe_disk root u).
Proof. unfold _reprobe_disk. makes_all. Qed.
#[local] Hint Resolve looks_reprobe : makes.
Lemma looks_rebaseline root : makes looks (_rebaseline root).
Proof. unfold _rebaseline. makes_all. Qed.
Lemma looks_defeated lease : makes looks (_lease_defeated lease).
Proof. unfold _lease_defeated. makes_all. Qed.
Lemma looks_relieved t : makes looks (relieved t).
Proof. unfold relieved. makes_all. Qed.
#[local] Hint Resolve looks_rebaseline looks_defeated looks_relieved : makes.
Lemma looks_stop_selected root pro t : makes looks (stop_selected root pro t).
Proof. unfold stop_selected. makes_all. Qed.
Lemma looks_stop_extra root t : makes looks (stop_extra root t).
Proof. unfold stop_extra. makes_all. Qed.
#[local] Hint Resolve looks_stop_selected looks_stop_extra : makes.

(** The clock was read, whatever follows. *)
Lemma wp_due {X} cutoff (p : prog reply X) g Q : due cutoff g -> WP p g Q ->
  WP p g (fun g' x => Q g' x /\ due cutoff g').
Proof.
  intros Hd Hp. eapply wp_mono; [|apply wp_extends, Hp].
  intros g' x [HQ He]. split; [done|]. by eapply due_extends.
Qed.

Lemma attempt_spec pairs cutoff lease c s g :
  (proactive = true \/ exists a : Z, lease = Some a) -> due cutoff g ->
  WP (_attempt pairs cutoff lease c s) g (fun g' _ => same g g').
Proof.
  intros Hl Hd. unfold _attempt. steps. destruct (pending_of pairs c) as [p|e]; steps.
  - eapply wp_mono; [|by apply evict_one_spec]. intros g1 [s1 [o|e]] H1; steps; try sames.
    + apply wp_plain; [unfold note_outcome; makes_all|]. intros g2 out H2. sames.
    + destruct (is_exception e); steps; try sames.
      all: apply wp_plain; [unfold note_outcome; makes_all|]; intros g2 out H2; sames.
  - destruct (is_exception e); steps; try sames.
    all: apply wp_plain; [unfold note_outcome; makes_all|]; intros g2 out H2; sames.
Qed.

Lemma attempt_each_spec stop attempt lease cutoff cs s g :
  makes looks stop ->
  (forall c s' g', due cutoff g' -> WP (attempt c s') g' (fun g2 _ => same g' g2)) -> due cutoff g ->
  WP (attempt_each stop attempt lease cs s) g (fun g' _ => same g g' /\ due cutoff g').
Proof.
  intros Hstop Ha. revert s g. induction cs as [|c cs IH]; intros s g Hd; cbn [attempt_each]; [done|].
  step. apply wp_looks; [auto with makes nocore|].
  intros g1 [s1 [[]|e]] He1; pose proof (looks_same _ _ He1) as H1; pose proof (due_extends _ _ _ _ He1 Hd) as Hd1; steps; try done.
  apply wp_looks; [done|].
  intros g2 [s2 [[]|e]] He2; pose proof (looks_same _ _ He2) as H2; pose proof (due_extends _ _ _ _ He2 Hd1) as Hd2; steps;
    try (split; [sames|done]).
  eapply wp_mono; [|apply (wp_due cutoff); [done|by apply Ha]]. intros g3 [s3 [[]|e]] [H3 Hd3]; steps; [|split; [sames|done]].
  eapply wp_mono; [|by apply IH]. intros g4 out [H4 Hd4]. split; [sames|done].
Qed.

Lemma evict_pairs_spec pairs root th t cutoff lease s g :
  (proactive = true \/ exists a : Z, lease = Some a) -> due cutoff g ->
  WP (evict_pairs pairs root th t proactive cutoff lease s) g (fun g' _ => same g g').
Proof.
  intros Hl Hd. unfold evict_pairs. step. step. step.
  eapply wp_mono; [|apply (attempt_each_spec _ _ _ cutoff); [auto with makes nocore|by intros; apply attempt_spec|done]].
  intros g1 [s1 [[]|e]] [H1 Hd1]; steps; [..|done].
  - eapply wp_mono; [|apply (attempt_each_spec _ _ _ cutoff); [auto with makes nocore|by intros; apply attempt_spec|done]].
    intros g2 [s2 [[]|e]] [H2 Hd2]; steps; [|sames].
    apply wp_looks; [auto with makes nocore|]. intros g3 [s3 [b|e]] H3%looks_same; steps; sames.
  - apply wp_looks; [auto with makes nocore|]. intros g3 [s3 [b|e]] H3%looks_same; steps; sames.
Qed.

Lemma relieve_now_spec mt root th t scope cutoff lease s g :
  (proactive = true \/ exists a : Z, lease = Some a) -> due cutoff g ->
  WP (relieve_now mt root th t proactive scope cutoff lease s) g (fun g' _ => same g g').
Proof.
  intros Hl Hd. unfold relieve_now. steps. destruct (used_percent (disk s)) as [pct|e]; steps; try done.
  apply wp_looks; [auto with makes nocore|].
  intros g1 [s1 [pairs|e]] He1; pose proof (looks_same _ _ He1) as H1; steps; try sames.
  eapply wp_mono; [|apply evict_pairs_spec; [done|by eapply due_extends]]. intros g2 out H2. sames.
Qed.

Lemma relieve_spec mt root th t scope cutoff lease s g : due cutoff g ->
  WP (relieve mt root th t proactive scope cutoff lease s) g (fun g' _ => same g g').
Proof.
  intros Hd. unfold relieve, stand_down. step.
  destruct proactive eqn:Hpro; [|destruct lease as [a|]]; steps; try sames.
  - rewrite <- Hpro. apply relieve_now_spec; [by left | done].
  - rewrite <- Hpro. eapply wp_mono; [|apply relieve_now_spec; [right; by exists a|]].
    + intros g2 out H2. sames.
    + apply (due_extends (fun _ => true) _ g); [|done]. apply extends_cons; [done | apply extends_refl].
Qed.

Lemma run_sweep_spec mt root th t all_roots qbt lease s g :
  WP (_run_sweep mt root th t grace_days proactive all_roots qbt lease s) g (fun g' _ => same g g').
Proof.
  unfold _run_sweep. step. apply wp_looks; [auto with makes nocore|].
  intros g1 [s1 [[d|]|e]] H1%looks_same; steps; try done.
  assert (Hd : due (x - grace_days * day) (Ev UtcNow (Ok x) :: g1)) by (exists x; split; [done|left]).
  eapply wp_mono; [|apply wp_due; [exact Hd|apply resume_interrupted_spec]].
  intros g2 [s2 [[]|e]] [H2 Hd2]; steps; try sames.
  - apply wp_looks; [auto with makes nocore|].
    intros g3 [s3 [u|e]] He3; pose proof (looks_same _ _ He3) as H3; steps; [|sames].
    eapply wp_mono; [|apply relieve_spec; by eapply due_extends]. intros g4 out H4. sames.
  - eapply wp_mono; [|by apply relieve_spec]. intros g4 out H4. sames.
Qed.

Lemma run_eviction_sweep_spec mt root th t all_roots qbt s g :
  WP (run_eviction_sweep mt root th t grace_days proactive all_roots qbt s) g (fun g' _ => same g g').
Proof.
  pose proof run_sweep_spec as Hs. unfold run_eviction_sweep.
  destruct proactive; steps; try (by intros k; simpl; lia); (eapply wp_mono; [|apply Hs]);
    intros g1 [s1 r] H1; steps; intros k; simpl; rewrite H1; simpl; try destruct x0; lia.
Qed.

Lemma recovery_sweep_spec mt root all_roots qbt s g :
  WP (run_correction_recovery_sweep mt root all_roots qbt s) g (fun g' _ => same g g').
Proof.
  unfold run_correction_recovery_sweep. steps; [sames|].
  apply wp_looks; [auto with makes nocore|].
  intros g1 [s1 [[d|]|e]] H1%looks_same; steps; try (intros k; simpl; rewrite H1; simpl; lia).
  eapply wp_mono; [|apply resume_interrupted_spec].
  intros g2 [s2 [b|e]] H2; steps; intros k; simpl; rewrite H2, H1; simpl; lia.
Qed.

End safety.

#[export] Hint Resolve looks_enumerate looks_candidates looks_disk looks_reprobe looks_rebaseline looks_defeated
  looks_relieved looks_stop_selected looks_stop_extra : makes.
