(* ===== verification/EvictionHistory.v ===== *)
(** * What every eviction run keeps to

    The theorems on whole runs: any sequence of replies, with cancellation or a
    kill between any two calls.  [issued] is a call that a run makes after the
    given events, whether or not it is answered. *)

From Stdlib Require Import ZArith Lia Bool String SpecFloat.
From S2P Require Import Prelude PyStr PyNum RequestStore Eviction SeasonRepository.
From S2P Require Import Histories EvictionIO PurgeRun EvictionRun EvictionMonitor EvictionSpecs EvictionSafety.

#[local] Open Scope bool_scope.

Section runs.
Context (grace_days : Z) (proactive : bool).
Context (media_type : MediaType) (root_path : list N) (threshold_pct target_pct : spec_float)
        (all_roots : option (list (list N))) (qbt : bool).

Abbreviation sweep := (run_eviction_sweep media_type root_path threshold_pct target_pct grace_days proactive all_roots qbt).
Abbreviation recovery := (run_correction_recovery_sweep media_type root_path all_roots qbt).

Lemma issues_allowed {A} (m : IO A) tr c :
  (forall s, wp fits (allowed grace_days proactive) next (m s) [] (fun g' _ => same [] g')) ->
  issues fits m tr c -> allowed grace_days proactive (rev tr) c.
Proof.
  intros Hm (s & p & Hs & Hc). eapply wp_sound in Hs as [_ Hr]; [|apply Hm]. rewrite observed, app_nil_r in Hr.
  destruct p; try done. by injection Hc as ->.
Qed.

Lemma allowed_in_run tr c : issues fits sweep tr c \/ issues fits recovery tr c -> allowed grace_days proactive (rev tr) c.
Proof.
  intros [H|H]; (eapply issues_allowed; [|exact H]); intros s.
  - apply run_eviction_sweep_spec.
  - apply recovery_sweep_spec.
Qed.

(** C2: no media is deleted that is not chosen.  Whenever a run is about to start
    the thread that deletes a path, then: the path is in the registry of purges,
    entered with nothing between the entry and the check that no placement is in
    it, and the guard has not refused it; a thread permit is held; and for some
    title either it was claimed by the compare-and-swap (available, unpinned,
    unwanted), on a watch state that was just read and lies before the grace
    period, the claim was committed, no row's status was written since, no other
    row and no pack was then found to own the path, the marker was committed, and
    under pressure the lease was read unrevoked with nothing after it; or its
    delete had been interrupted and one transaction confirmed its marker and then
    found no other owner, no transfer, no pack, and (but for a correction) no pin
    and no watchlist. *)
Theorem delete_is_justified tr path :
  issues fits sweep tr (StartDelete path) \/ issues fits recovery tr (StartDelete path) ->
  registered path (rev tr) /\ permitted (rev tr) /\ justified grace_days proactive path (rev tr).
Proof. apply allowed_in_run. Qed.

(** An eviction is recorded only when the media are gone.  The record is
    written in the transaction in which the delete of a path returned, or the
    path was not there; and a row forgets its path only so, or when another row
    owns it. *)
Theorem eviction_is_recorded_when_gone tr c :
  issues fits sweep tr c \/ issues fits recovery tr c ->
  match c with
  | AddHistory _ h_evicted _ _ => exists path, gone path (rev tr)
  | ClearRequestPath _ path _ _ | ClearSeasonPath _ path _ => gone path (rev tr) \/ shared path (rev tr)
  | _ => True
  end.
Proof. intros H%allowed_in_run. by destruct c. Qed.


(** C11: nothing leaks.  However a sweep ends, by its result or by any exception
    of any call, a cancellation included, every registration of a path, every
    thread permit, the lease and the latch it took are given back. *)
Theorem sweep_leaks_nothing s tr l r k :
  steps fits (sweep s) tr (Return (l, r)) -> holding k (rev tr) = 0%Z.
Proof.
  intros Hs. eapply wp_sound in Hs as [_ Hr]; [|apply run_eviction_sweep_spec].
  rewrite observed, app_nil_r in Hr. apply Hr.
Qed.

End runs.

(** ** Interrupted deletes *)

(** Any call but one that makes a row available. *)
Definition no_restore (c : call) : bool :=
  match c with MoveRequest _ s _ _ _ | MoveSeason _ _ s _ _ _ => negb (bool_decide (s = available)) | _ => true end.

Lemma makes_no_restore {A} (m : IO A) : makes looks m -> makes no_restore m.
Proof. apply makes_weaken. intros c. unfold looks. destruct c; try done; simpl; by destruct status. Qed.

Lemma no_restore_purge p path t finish : makes no_restore finish -> makes no_restore (retry_purge p t path finish).
Proof.
  intros Hf. unfold retry_purge, recovery_purge, purge_library_path, _delete_to_settlement, start_worker, preflight,
    release_registration, _recovery_delete_boundary, _confirm_delete_marker_cas, trigger_library_scan.
  makes_all; try (apply makes_no_restore; auto with makes nocore).
  destruct (classify e); [|done]. injection H as <-. apply makes_ret.
Qed.

Lemma no_restore_clear p path statuses removed : makes no_restore (clear_breadcrumb p path statuses removed).
Proof. unfold clear_breadcrumb. makes_all. Qed.
Lemma no_restore_flip p : makes no_restore (tolerant_flip p).
Proof. unfold tolerant_flip, move_season. makes_all. Qed.
#[local] Hint Resolve no_restore_clear no_restore_flip : makes.
Lemma no_restore_finalize p path title note : makes no_restore (finalize_resumed p path title note).
Proof. unfold finalize_resumed, record_evicted, _disarm_partial_delete. makes_all. Qed.
Lemma no_restore_gone p path title note : makes no_restore (_finalize_gone_rearmed_season p path title note).
Proof.
  unfold _finalize_gone_rearmed_season, record_evicted, _disarm_partial_delete, trigger_library_scan. makes_all.
Qed.
#[local] Hint Resolve no_restore_finalize no_restore_gone : makes.
Lemma no_restore_finish p t path title held note : makes no_restore (finish_resumed p t path title held note).
Proof. unfold finish_resumed, trigger_library_scan. makes_all. Qed.
Lemma no_restore_release p path statuses : makes no_restore (_release_stale_breadcrumb p path statuses).
Proof. unfold _release_stale_breadcrumb. makes_all. Qed.
#[local] Hint Resolve no_restore_finish no_restore_release : makes.

Lemma outstanding path : _partial_delete_outstanding (Some path) path = true.
Proof. by apply bool_decide_eq_true. Qed.

Lemma no_restore_resume p t path title qbt : makes no_restore (_resume_one p t path title (Some path) qbt).
Proof.
  unfold _resume_one, with_purge_claim, _resume_one_claimed. rewrite outstanding. cbn [negb].
  makes_all; try (apply makes_no_restore; solve [auto with makes nocore]).
  apply no_restore_purge. auto with makes nocore.
Qed.

Lemma no_restore_rearmed p path title status :
  makes no_restore (_recover_rearmed_season p path title status (Some path)).
Proof.
  unfold _recover_rearmed_season, with_purge_claim, _recover_rearmed_season_claimed. rewrite outstanding.
  makes_all; try (apply makes_no_restore; solve [auto with makes nocore]).
  apply no_restore_purge. makes_all.
Qed.

(** An incomplete delete never becomes an available title.  Recovering a row
    whose marker says that a delete of its path was begun, whatever the replies,
    never writes the status [available]. *)
Theorem interrupted_delete_is_never_restored p t path title status qbt tr c :
  issues fits (_resume_one p t path title (Some path) qbt) tr c \/
  issues fits (_recover_rearmed_season p path title status (Some path)) tr c ->
  match c with MoveRequest _ s _ _ _ | MoveSeason _ _ s _ _ _ => s <> available | _ => True end.
Proof.
  intros H. assert (Hc : no_restore c = true).
  { destruct H as [H|H]; (eapply makes_issues; [|exact H]); [apply no_restore_resume | apply no_restore_rearmed]. }
  revert Hc. destruct c; try done; simpl; by intros Hc%negb_true_iff%bool_decide_eq_false.
Qed.

(** ** Termination *)

Definition any (c : call) : bool := true.

Lemma makes_any {A} (m : IO A) : makes looks m -> makes any m.
Proof. by apply makes_weaken. Qed.
Lemma any_plain {A} (m : IO A) : makes plain m -> makes any m.
Proof. by apply makes_weaken. Qed.

Ltac any_all :=
  makes_all; try solve [apply makes_any; auto with makes nocore | apply any_plain; auto with makes nocore].

Lemma any_purge path b hook : makes any hook -> makes any (purge_library_path path b (Some hook)).
Proof.
  intros Hh. unfold purge_library_path, _delete_to_settlement, start_worker, preflight, release_registration. any_all.
  destruct (classify e); [|done]. injection H as <-. apply makes_ret.
Qed.
Lemma any_restore p : makes any (_restore_after_failed_delete p).
Proof. unfold _restore_after_failed_delete, _disarm_partial_delete, move_season. any_all. Qed.
Lemma any_clear p path statuses removed : makes any (clear_breadcrumb p path statuses removed).
Proof. unfold clear_breadcrumb. any_all. Qed.
#[local] Hint Resolve any_restore any_clear : makes.
Lemma any_evict p c cutoff lease : makes any (_evict_one p c cutoff lease).
Proof.
  unfold _evict_one, claim, evict_claimed, purge_claimed, settle_purge, finalize_evicted, _disarm_partial_delete, move_season.
  any_all.
  apply any_purge. eapply makes_weaken; [|apply mark_calls]. done.
Qed.
Lemma any_retry p t path finish : makes any finish -> makes any (retry_purge p t path finish).
Proof.
  intros Hf. unfold retry_purge, recovery_purge. any_all. apply any_purge. by eapply makes_weaken; [|apply boundary_calls].
Qed.
Lemma any_record p path title note : makes any (record_evicted p path title note).
Proof. unfold record_evicted, _disarm_partial_delete. any_all. Qed.
#[local] Hint Resolve any_evict any_record : makes.
Lemma any_finish p t path title held note : makes any (finish_resumed p t path title held note).
Proof. unfold finish_resumed, finalize_resumed. any_all. Qed.
Lemma any_gone p path title note : makes any (_finalize_gone_rearmed_season p path title note).
Proof. unfold _finalize_gone_rearmed_season. any_all. Qed.
Lemma any_release p path statuses : makes any (_release_stale_breadcrumb p path statuses).
Proof. unfold _release_stale_breadcrumb. any_all. Qed.
#[local] Hint Resolve any_finish any_gone any_release : makes.
Lemma any_resume p t path title partial qbt : makes any (_resume_one p t path title partial qbt).
Proof.
  unfold _resume_one, with_purge_claim, _resume_one_claimed. any_all. apply any_retry. auto with makes nocore.
Qed.
Lemma any_rearmed p path title status partial : makes any (_recover_rearmed_season p path title status partial).
Proof.
  unfold _recover_rearmed_season, with_purge_claim, _recover_rearmed_season_claimed, move_season. any_all.
  apply any_retry. any_all.
Qed.
Lemma any_each recover rows destroyed : (forall x, makes any (recover x)) -> makes any (recover_each recover rows destroyed).
Proof.
  intros Hr. revert destroyed; induction rows as [|x rows IH]; intros destroyed; cbn [recover_each]; any_all; auto.
Qed.
Lemma any_interrupted qbt t root roots only : makes any (_resume_interrupted_evictions qbt t root roots only).
Proof.
  unfold _resume_interrupted_evictions. makes_all; [apply makes_any, looks_enumerate|..]; apply any_each; intros y;
    [apply any_resume | apply any_rearmed].
Qed.
#[local] Hint Resolve any_interrupted : makes.
Lemma any_attempts stop attempt lease cs :
  makes looks stop -> (forall c, makes any (attempt c)) -> makes any (attempt_each stop attempt lease cs).
Proof.
  intros Hs Ha. induction cs as [|c cs IH]; cbn [attempt_each]; makes_all; try (apply makes_any; auto with makes nocore);
    try apply Ha; try done.
Qed.
Lemma any_sweep mt root th t grace pro roots qbt : makes any (run_eviction_sweep mt root th t grace pro roots qbt).
Proof.
  unfold run_eviction_sweep, _run_sweep, relieve, stand_down, relieve_now, evict_pairs, _attempt, note_outcome. any_all.
  all: apply any_attempts; [auto with makes nocore|]; intros c; any_all.
Qed.

(** The replies come from a stream, one for each call. *)
Fixpoint run_on {X} (replies : nat -> forall c, res (reply c)) (i : nat) (p : prog reply X) : list (event reply) * option X :=
  match p with
  | Return x => ([], Some x)
  | Do c k => let r := run_on replies (S i) (k (replies i c)) in (Ev c (replies i c) :: r.1, r.2)
  | Hang => ([], None)
  end.


(** ** An eviction, replayed *)

(** The replies are a function of the call. *)
Fixpoint play {X} (answer : forall c, res (reply c)) (n : nat) (p : prog reply X) : list (event reply) * prog reply X :=
  match n, p with
  | S n, Do c k => let x := play answer n (k (answer c)) in (Ev c (answer c) :: x.1, x.2)
  | _, _ => ([], p)
  end.

Lemma play_steps {X} answer n (p : prog reply X) : (forall c, fits c (answer c)) ->
  steps fits p (play answer n p).1 (play answer n p).2.
Proof.
  intros Hf. revert p; induction n as [|n IH]; intros p; [constructor|]. destruct p; try constructor; [apply Hf|apply IH].
Qed.

Definition old_movie : MediaRequest.t := {|
  MediaRequest.id := 7; MediaRequest.user_id := None; MediaRequest.tmdb_id := 42; MediaRequest.media_type := movie;
  MediaRequest.title := lit "Old"; MediaRequest.status := available;
  MediaRequest.details := {| year := None; is_anime := None; poster_url := None; backdrop_url := None;
    tv_request_mode := None; requested_seasons_json := None; requested_episodes_json := None |};
  MediaRequest.completed_at := None; MediaRequest.completion_generation := None;
  MediaRequest.library_verified_at := None; MediaRequest.library_removed_at := None;
  MediaRequest.available_heal_verified_at := None; MediaRequest.library_path := Some (lit "/m/Old");
  MediaRequest.partial_delete_path := None; MediaRequest.keep_forever := false; MediaRequest.search_attempts := 0;
  MediaRequest.next_search_at := None; MediaRequest.eviction_regrab := None |}.

Definition long_ago : WatchState := {| ws_watched := true; ws_last_viewed_at := Some 5%Z |}.

(** One movie on a nearly full root, watched long ago; its delete meets [deleted]. *)
Definition answer (deleted : res unit) (c : call) : res (reply c) :=
  match c return res (reply c) with
  | GetRequest _ => Ok (Some old_movie)
  | GetSeason _ => Ok None
  | ListRequests s => Ok (if decide (s = available) then [old_movie] else [])
  | GetMany _ | ListForMedia _ _ _ => Ok []
  | ListSeasons _ | ListSiblings _ _ _ _ => Ok []
  | MoveRequest _ _ _ _ _ | MoveSeason _ _ _ _ _ _ | ClearRequestPath _ _ _ _ | ClearSeasonPath _ _ _
  | ConfirmMarker _ _ _ => Ok true
  | RequestClaimsPath _ _ | SeasonClaimsPath _ _ | IsWatchlisted _ _ => Ok false
  | FindActive _ _ | CoverageTitle _ _ | LatestImported _ => Ok None
  | FindActiveMany _ => Ok []
  | CoverageTitles _ => Ok []
  | SizeOf _ => Ok (Some 50%Z)
  | WorkerDone _ | BeginPurge _ | RemoveTorrent _ => Ok true
  | DeleteGuardRefuses _ | PlacementConflicts _ | SweepBusy => Ok false
  | ReclaimableBytes _ => Ok 50%Z
  | UtcNow => Ok (100 * day)%Z
  | ReadDiskUsage r => Ok {| du_root := r; du_total_bytes := 100; du_available_bytes := 5 |}
  | AcquireLease _ _ => Ok (Some 1%Z)
  | LeaseRevoked _ => Ok None
  | WatchStateOf _ => Ok long_ago
  | ResolveWatchStates l => Ok (const long_ago <$> l)
  | AwaitDelete _ => deleted
  | _ => Ok tt
  end.

Definition a_sweep : IO (list EvictionOutcome) :=
  run_eviction_sweep movie (lit "/m") (float_of_int 90) (float_of_int 80) 30 false None false.
Definition fresh : Local := Build_Local false false false {| du_root := []; du_total_bytes := 0; du_available_bytes := 0 |}
  f_zero 0 [].

Definition played (deleted : res unit) (n : nat) := play (answer deleted) n (a_sweep fresh).
Lemma reply_fits deleted c : (forall e, deleted = Raise e -> own_error e = false) -> fits c (answer deleted c).
Proof. intros Hd. destruct c; try exact I. destruct deleted as [|e]; [exact I|]. repeat split. by apply Hd. Qed.

Lemma played_issues {A} (m : IO A) deleted n s c :
  (forall e, deleted = Raise e -> own_error e = false) ->
  next_call (play (answer deleted) n (m s)).2 = Some c -> issues fits m (play (answer deleted) n (m s)).1 c.
Proof. intros Hd Hc. exists s. eexists. split; [apply play_steps; intros; by apply reply_fits|exact Hc]. Qed.

Lemma delete_is_justified_witness :
  issues fits a_sweep (played (Ok tt) 37).1 (StartDelete (lit "/m/Old")) /\
  justified 30 false (lit "/m/Old") (rev (played (Ok tt) 37).1).
Proof.
  assert (H : issues fits a_sweep (played (Ok tt) 37).1 (StartDelete (lit "/m/Old")))
    by (apply played_issues; [done | vm_compute; reflexivity]).
  split; [exact H|]. refine (proj2 (proj2 (delete_is_justified 30 false movie (lit "/m") _ _ None false _ _ (or_introl H)))).
Defined.

Definition forgets : call := ClearRequestPath 7 (lit "/m/Old")
  [evicted; pending; searching; no_acceptable_release; downloading; failed; cancelled; import_blocked] false.

Lemma eviction_is_recorded_when_gone_witness :
  issues fits a_sweep (played (Ok tt) 40).1 forgets /\
  (gone (lit "/m/Old") (rev (played (Ok tt) 40).1) \/ shared (lit "/m/Old") (rev (played (Ok tt) 40).1)).
Proof.
  assert (H : issues fits a_sweep (played (Ok tt) 40).1 forgets) by (apply played_issues; [done | vm_compute; reflexivity]).
  split; [exact H|]. exact (eviction_is_recorded_when_gone 30 false movie (lit "/m") _ _ None false _ forgets (or_introl H)).
Defined.


Lemma sweep_leaks_nothing_witness :
  exists l r, (played (Ok tt) 80).2 = Return (l, r) /\ holding Latch (rev (played (Ok tt) 80).1) = 0%Z.
Proof.
  destruct (played (Ok tt) 80).2 as [[l r]| |] eqn:Hp; [|vm_compute in Hp; discriminate Hp..].
  exists l, r. split; [reflexivity|].
  assert (Hs : steps fits (a_sweep fresh) (played (Ok tt) 80).1 (Return (l, r)))
    by (rewrite <- Hp; apply play_steps; intros; by apply reply_fits).
  exact (sweep_leaks_nothing 30 false movie (lit "/m") _ _ None false fresh _ l r Latch Hs).
Defined.

(** The recovery of that movie after an interrupted delete: its marker is
    confirmed, the delete finished, and the row stays evicted. *)
Definition a_recovery : IO bool :=
  _resume_one (_MoviePending 7 42 None false) movie (lit "/m/Old") (Some (lit "Old")) (Some (lit "/m/Old")) false.

Lemma interrupted_delete_is_never_restored_witness :
  issues fits a_recovery (play (answer (Ok tt)) 23 (a_recovery fresh)).1 (MoveRequest 7 evicted [cancelled; failed] false false) /\
  evicted <> available.
Proof.
  assert (H : issues fits a_recovery (play (answer (Ok tt)) 23 (a_recovery fresh)).1
                (MoveRequest 7 evicted [cancelled; failed] false false))
    by (apply played_issues; [done | vm_compute; reflexivity]).
  split; [exact H|].
  exact (interrupted_delete_is_never_restored _ _ _ _ evicted _ _ (MoveRequest 7 evicted [cancelled; failed] false false)
           (or_introl H)).
Defined.

