(* ===== verification/LocalIO.v ===== *)
(** * The system calls of the file system adapter

    What [adapters/filesystem/local.py] asks of the kernel.  Other processes
    rename, link and remove at any time, so replies are arbitrary; what is
    assumed of them is [fits].  A
    name is looked up in the directory that the descriptor denotes, whatever
    became of its path. *)

From Stdlib Require Import ZArith Lia Bool String SpecFloat.
From S2P Require Import Prelude PyStr PyNum PyOs.
From S2P Require Export Interaction.

#[local] Open Scope bool_scope.

Inductive file_kind : Type := Regular | Directory | Symlink | Special.

#[export] Instance file_kind_eq_dec : EqDecision file_kind.
Proof. solve_decision. Defined.

Record stat_result := {
  st_kind : file_kind;
  st_dev : Z;
  st_ino : Z;
  st_size : Z;
  st_nlink : Z;
  st_mode : Z;
  st_mtime : spec_float;
  st_atime_ns : Z;
  st_mtime_ns : Z;
}.

(** [(st_dev, st_ino)]. *)
Definition PublishedFileIdentity : Type := Z * Z.
Definition identity_of (s : stat_result) : PublishedFileIdentity := (st_dev s, st_ino s).

(** What [os.fwalk] yielded before it ended: directories with their entries,
    whether [onerror] was called, and the error it raised, if any. *)
Record walked := {
  wk_yielded : list (list N * list (list N) * list (list N));
  wk_unlisted : bool;
  wk_raised : option exn;
}.

Inductive call : Type :=
  (* descriptors; [None] stands for a path from the working directory *)
  | OpenDir (at_ : option Z) (p : list N) (nofollow : bool)   (** O_PATH, O_DIRECTORY *)
  | OpenRead (at_ : option Z) (p : list N)                    (** O_RDONLY, O_NOFOLLOW, O_NONBLOCK *)
  | OpenLock (at_ : Z) (name : list N)                        (** O_RDWR, O_NOFOLLOW, O_NONBLOCK *)
  | CreateExcl (at_ : Z) (name : list N)                      (** O_CREAT, O_EXCL, O_WRONLY, O_NOFOLLOW, 0o600 *)
  | CloseFd (fd : Z)
  | Fstat (fd : Z)
  | SeekStart (fd : Z)
  | ReadChunk (fd : Z) (size : N)
  | WriteFd (fd : Z) (text : list N)
  | FlockWait (fd : Z)
  | FlockTry (fd : Z)
  | CopyFileObj (source_fd target_fd : Z)
  | Flush (fd : Z)
  | ListXattr (fd : Z)
  | GetXattr (fd : Z) (name : list N)
  | SetXattr (fd : Z) (name value : list N)
  | Fchmod (fd mode : Z)
  | Utime (fd atime_ns mtime_ns : Z)
  (* entries of a directory held open *)
  | StatAt (dir_fd : Z) (name : list N)                       (** not following a link *)
  | MkdirAt (dir_fd : Z) (name : list N)
  | LinkPath (src : list N) (dir_fd : Z) (name : list N)
  | LinkAt (dir_fd : Z) (tmp_name name : list N)
  | RenameAt (dir_fd : Z) (tmp_name name : list N)
  | UnlinkAt (dir_fd : Z) (name : list N)
  | RmTreeAt (dir_fd : Z) (leaf : list N)
  | FwalkAt (dir_fd : Z) (leaf : list N)
  (* paths *)
  | Realpath (p : list N)
  | Exists (p : list N)
  | IsFile (p : list N)
  | IsDir (p : list N)
  | IsLink (p : list N)
  | StatPath (p : list N)
  | GetSize (p : list N)
  | SameFile (a b : list N)
  | UnlinkPath (p : list N)
  | DiskFree (p : list N)
  | Scandir (p : list N)
  (* the process *)
  | Kill (pid : Z)
  | GetPid
  | Now
  | RandomHex.

Definition reply (c : call) : Type :=
  match c with
  | OpenDir _ _ _ | OpenRead _ _ | OpenLock _ _ | CreateExcl _ _ | GetPid | GetSize _ | DiskFree _ => Z
  | Fstat _ | StatAt _ _ | StatPath _ => stat_result
  | ReadChunk _ _ | GetXattr _ _ | Realpath _ | RandomHex => list N
  | ListXattr _ => list (list N)
  | FwalkAt _ _ => walked
  | Exists _ | IsFile _ | IsDir _ | IsLink _ | SameFile _ _ => bool
  | Scandir _ => list (list N * bool)
  | Now => spec_float
  | _ => unit
  end.

(** Closing succeeds, the calls that look at or remove an entry in a directory held
    open fail only with system errors, and the errors of a walk are in its record. *)
Definition fits (c : call) (r : res (reply c)) : Prop :=
  match c, r with
  | (CloseFd _ | FwalkAt _ _), Raise _ => False
  | (Fstat _ | StatAt _ _ | UnlinkAt _ _), Raise e => is_os_error e = true
  | _, _ => True
  end.

Abbreviation IO := (M reply unit).

(** [with contextlib.suppress(Exc): m]. *)
Definition suppress (p : exn -> bool) (m : IO unit) : IO unit := catching p m (fun _ => mret tt).
