(* ===== verification/LocalFileSystem.v ===== *)
(** * The file system adapter ([adapters/filesystem/local.py])

    Publication of a file into a library, its rollback, and deletion, all through
    directory descriptors opened one component at a time without following
    links; the walks that list video files and measure what a delete frees.

    The platform's capabilities, the working directory and SHA-256 are
    parameters.  [fuel] bounds the loops whose length the file system decides:
    retries of a lock, chunks of a file, directories of a tree.  [Path] arguments
    are the texts [os.fspath] gives. *)

From Stdlib Require Import ZArith Lia Bool String SpecFloat.
From S2P Require Import Prelude PyStr PyNum PyInt PyBytes PyOs LibraryRoots PlexVideo LocalIO.

#[local] Open Scope bool_scope.

Definition LocalFileSystemError (msg : list N) : exn := ProgramError "LocalFileSystemError" msg.
Definition PartialDeleteError (msg : list N) : exn := ProgramError "PartialDeleteError" msg.
Definition FileExistsError (msg : list N) : exn := ProgramError "FileExistsError" msg.

Definition file_exists_error (e : exn) : bool := raises "FileExistsError" e.
Definition file_not_found (e : exn) : bool := match e with FileNotFoundError => true | _ => false end.

Definition _COPY_FALLBACK_ERRNOS : list errno := [EXDEV; EPERM; EMLINK; EOPNOTSUPP; EACCES].
(** ENOTSUP is EOPNOTSUPP on Linux. *)
Definition _XATTR_ENUMERATION_TOLERATED_ERRNOS : list errno := [EOPNOTSUPP; ENODATA; EINVAL].
Definition _XATTR_ATTRIBUTE_TOLERATED_ERRNOS : list errno := [EPERM; EOPNOTSUPP; ENODATA; EINVAL; EACCES].
Definition _DIGEST_CHUNK_BYTES : N := 1024 * 1024.
Definition _EMPTY_LOCK_STALE_SECONDS : spec_float := float_of_int 60.

Record FilePublication := { placed : bool; identity : PublishedFileIdentity }.

(** [repr] of a path in a message is left as the path. *)
Definition refusing (action display why : list N) : exn :=
  LocalFileSystemError (lit "refusing to " ++ action ++ lit " " ++ display ++ lit ": " ++ why).

Section adapter.
Context {DB : UnicodeDB}.
Context (cwd : list N) (publication_supported delete_supported : bool) (sha256 : list N -> list N) (fuel : nat).

(** ** Locks *)

(** [None]: the process cannot be told. *)
Definition _pid_is_running (pid : Z) : IO (option bool) :=
  if (pid <=? 0)%Z then mret None
  else
    try_except (act (Kill pid) ;; mret (Some true)) (fun e =>
      if raises "ProcessLookupError" e then Some (mret (Some false))
      else if raises "PermissionError" e then Some (mret (Some true))
      else match e with OverflowError | ValueError _ => Some (mret None) | _ => None end).

Definition _lock_path_matches_fd (dir_fd : Z) (lock_name : list N) (lock_fd : Z) : IO bool :=
  catching is_os_error
    (lock_info ← perform (Fstat lock_fd);
     path_info ← perform (StatAt dir_fd lock_name);
     mret (bool_decide (st_kind lock_info = Regular) && bool_decide (st_kind path_info = Regular)
           && bool_decide (identity_of lock_info = identity_of path_info)))
    (fun _ => mret false).

Definition _lock_is_expired (lock_fd : Z) : IO bool :=
  mtime ← catching is_os_error (s ← perform (Fstat lock_fd); mret (Some (st_mtime s))) (fun _ => mret None);
  match mtime with
  | None => mret false
  | Some t => now ← perform Now; mret (flt _EMPTY_LOCK_STALE_SECONDS (fsub now t))
  end.

(** [decode("utf-8", errors="replace")], up to what its replacements look like:
    text with one is not empty and no number. *)
Definition decode_replace (bytes : list N) : list N := default [65533%N] (utf8_decode bytes).

Definition _lock_is_stale (lock_fd : Z) : IO bool :=
  raw ← catching is_os_error
    (lock_info ← perform (Fstat lock_fd);
     if negb (bool_decide (st_kind lock_info = Regular)) then mret None
     else
       act (SeekStart lock_fd) ;;
       bytes ← perform (ReadChunk lock_fd 64);
       mret (Some (py_strip (decode_replace bytes))))
    (fun _ => mret None);
  match raw with
  | None => mret false
  | Some [] => _lock_is_expired lock_fd
  | Some text =>
      match int_of_str text with
      | None => _lock_is_expired lock_fd
      | Some pid => running ← _pid_is_running pid; mret (bool_decide (running = Some false))
      end
  end.

Definition _reclaim_lock_if_stale (dir_fd : Z) (lock_name : list N) : IO bool :=
  opened ← catching is_os_error (fd ← perform (OpenLock dir_fd lock_name); mret (Some fd)) (fun _ => mret None);
  match opened with
  | None => mret false
  | Some lock_fd =>
      try_finally
        (free ← catching (raises "BlockingIOError") (act (FlockTry lock_fd) ;; mret true) (fun _ => mret false);
         if negb free then mret false
         else
           matches ← _lock_path_matches_fd dir_fd lock_name lock_fd;
           if negb matches then mret false
           else
             stale ← _lock_is_stale lock_fd;
             if negb stale then mret false
             else
               matches ← _lock_path_matches_fd dir_fd lock_name lock_fd;
               if negb matches then mret false
               else
                 catching is_os_error (act (UnlinkAt dir_fd lock_name) ;; mret true) (fun _ => mret false))
        (act (CloseFd lock_fd))
  end.

Definition _entry_exists (dir_fd : Z) (name : list N) : IO bool :=
  catching is_os_error (act (StatAt dir_fd name) ;; mret true) (fun _ => mret false).

Definition lock_name_of (name : list N) : list N := lit "." ++ name ++ lit ".publish.lock".

Fixpoint take_lock (n : nat) (dir_fd : Z) (name display : list N) (reclaim : bool) : IO Z :=
  match n with
  | O => hang
  | S n =>
      taken ← catching file_exists_error (fd ← perform (CreateExcl dir_fd (lock_name_of name)); mret (Some fd))
        (fun e =>
           there ← _entry_exists dir_fd name;
           if (there : bool) && negb reclaim then throw (FileExistsError display)
           else
             freed ← _reclaim_lock_if_stale dir_fd (lock_name_of name);
             if (freed : bool) then mret None else throw e);
      match taken with
      | Some fd => mret fd
      | None => take_lock n dir_fd name display reclaim
      end
  end.

Definition _publish_lock {A} (dir_fd : Z) (name display : list N) (reclaim_stale_with_existing_entry : bool)
    (body : IO A) : IO A :=
  lock_fd ← take_lock fuel dir_fd name display reclaim_stale_with_existing_entry;
  try_finally
    (act (FlockWait lock_fd) ;;
     pid ← perform GetPid;
     act (WriteFd lock_fd (str_of_int pid)) ;;
     matches ← _lock_path_matches_fd dir_fd (lock_name_of name) lock_fd;
     if negb matches then throw (FileExistsError display) else body)
    (matches ← _lock_path_matches_fd dir_fd (lock_name_of name) lock_fd;
     (if (matches : bool) then suppress is_os_error (act (UnlinkAt dir_fd (lock_name_of name))) else mret tt) ;;
     act (CloseFd lock_fd)).

(** ** Publishing one entry *)

Definition _publish_temp_no_overwrite (dir_fd : Z) (tmp_name name display : list N) : IO unit :=
  _publish_lock dir_fd name display false
    (there ← _entry_exists dir_fd name;
     if (there : bool) then throw (FileExistsError display)
     else
       linked ← catching (fun e => is_os_error e)
         (act (LinkAt dir_fd tmp_name name) ;; mret true)
         (fun e => if negb (has_errno _COPY_FALLBACK_ERRNOS e) then throw e
                   else act (RenameAt dir_fd tmp_name name) ;; mret false);
       if (linked : bool) then suppress is_os_error (act (UnlinkAt dir_fd tmp_name)) else mret tt).

Definition _non_regular_source_message (src display : list N) : list N :=
  lit "refusing to publish " ++ display ++ lit ": the import source " ++ src ++
  lit " is not a regular file (a FIFO, socket, device, directory or symlink is never publishable media, and reading one can block the import worker indefinitely)".

Definition _open_regular_source (src display : list N) : IO Z :=
  source_fd ← catching is_os_error (perform (OpenRead None src)) (fun e =>
    if has_errno [ELOOP; ENXIO] e then throw (LocalFileSystemError (_non_regular_source_message src display))
    else throw e);
  source_info ← catching is_os_error (perform (Fstat source_fd)) (fun e => act (CloseFd source_fd) ;; throw e);
  if negb (bool_decide (st_kind source_info = Regular)) then
    act (CloseFd source_fd) ;; throw (LocalFileSystemError (_non_regular_source_message src display))
  else mret source_fd.

Definition _entry_identity (dir_fd : Z) (name : list N) : IO (option PublishedFileIdentity) :=
  catching is_os_error (info ← perform (StatAt dir_fd name); mret (Some (identity_of info))) (fun _ => mret None).

Definition _publish_link_no_overwrite (src : list N) (source_fd dir_fd : Z) (name display : list N)
    : IO PublishedFileIdentity :=
  source_info ← perform (Fstat source_fd);
  let source_identity := identity_of source_info in
  same ← _publish_lock dir_fd name display false
    (act (LinkPath src dir_fd name) ;;
     found ← _entry_identity dir_fd name;
     mret (bool_decide (found = Some source_identity)));
  if (same : bool) then mret source_identity
  else throw (refusing (lit "publish") display (lit "the import source changed identity between validation and the hardlink (containment could not be guaranteed); the entry was left in place rather than unlinked, as its ownership can no longer be proven")).

(** *** Copying *)

Definition copy_xattr (source_fd target_fd : Z) (name : list N) : IO unit :=
  value ← catching is_os_error (v ← perform (GetXattr source_fd name); mret (Some v))
    (fun e => if has_errno _XATTR_ATTRIBUTE_TOLERATED_ERRNOS e then mret None else throw e);
  match value with
  | None => mret tt
  | Some v =>
      catching is_os_error (act (SetXattr target_fd name v))
        (fun e => if negb (has_errno _XATTR_ATTRIBUTE_TOLERATED_ERRNOS e) then throw e else mret tt)
  end.

Definition _copy_xattrs (source_fd target_fd : Z) : IO unit :=
  names ← catching is_os_error (perform (ListXattr source_fd))
    (fun e => if has_errno _XATTR_ENUMERATION_TOLERATED_ERRNOS e then mret [] else throw e);
  for_each (copy_xattr source_fd target_fd) names.

Definition _copy_contents (source_fd target_fd : Z) : IO unit :=
  act (SeekStart source_fd) ;;
  act (CopyFileObj source_fd target_fd) ;;
  source_stat ← perform (Fstat source_fd);
  act (Flush target_fd) ;;
  _copy_xattrs source_fd target_fd ;;
  act (Fchmod target_fd (st_mode source_stat)) ;;
  act (Utime target_fd (st_atime_ns source_stat) (st_mtime_ns source_stat)).

(** The first ancestor that exists. *)
Fixpoint existing_ancestor (n : nat) (probe : list N) : IO (list N) :=
  match n with
  | O => hang
  | S n =>
      there ← perform (Exists probe);
      if (there : bool) then mret probe
      else if bool_decide (parent_of probe = probe) then mret probe
      else existing_ancestor n (parent_of probe)
  end.

(** Each step drops a component. *)
Definition available_bytes (p : list N) : IO Z :=
  probe ← existing_ancestor (S (length p)) p;
  perform (DiskFree probe).

Definition _copy_no_overwrite (src dst : list N) (source_fd parent_fd : Z) (name : list N)
    : IO (PublishedFileIdentity * Z) :=
  source_info ← perform (Fstat source_fd);
  let src_size := st_size source_info in
  free ← available_bytes (parent_of dst);
  if (free <? src_size)%Z then throw OSError
  else
    token ← perform RandomHex;
    let tmp_name := lit "." ++ name ++ lit "." ++ token ++ lit ".tmp" in
    tmp_fd ← perform (CreateExcl parent_fd tmp_name);
    cleanup
      (_copy_contents source_fd tmp_fd ;;
       temp_info ← perform (Fstat tmp_fd);
       copied ← perform (Fstat tmp_fd);
       if negb (st_size copied =? src_size)%Z then throw OSError
       else
         _publish_temp_no_overwrite parent_fd tmp_name name dst ;;
         mret (identity_of temp_info, tmp_fd))
      (act (CloseFd tmp_fd) ;; suppress is_os_error (act (UnlinkAt parent_fd tmp_name))).

(** ** Anchored publication *)

Definition _reraise_ancestor_failure {A} (component display : list N) (e : exn) (action : list N) : IO A :=
  if has_errno [ELOOP; ENOTDIR] e then
    throw (refusing action display (lit "destination ancestor " ++ component ++
      lit " is a symlink or non-directory (containment could not be guaranteed)"))
  else throw e.

Definition _open_or_create_child_dir (parent_fd : Z) (component display : list N) (create_missing : bool)
    (action : list N) : IO Z :=
  first ← catching is_os_error (fd ← perform (OpenDir (Some parent_fd) component true); mret (Some fd))
    (fun e => if file_not_found e then (if negb create_missing then throw e else mret None)
              else _reraise_ancestor_failure component display e action);
  match first with
  | Some fd => mret fd
  | None =>
      suppress file_exists_error (act (MkdirAt parent_fd component)) ;;
      catching is_os_error (perform (OpenDir (Some parent_fd) component true))
        (fun e => _reraise_ancestor_failure component display e action)
  end.

(** From the directory held open down to the parent of the last component; the
    descriptor held is closed on every way out. *)
Fixpoint descend {A} (dir_fd : Z) (components : list (list N)) (display : list N) (create_missing : bool)
    (action : list N) (body : Z -> list N -> IO A) : IO A :=
  match components with
  | [] => throw IndexError
  | [name] => try_finally (body dir_fd name) (act (CloseFd dir_fd))
  | component :: rest =>
      next_fd ← cleanup (_open_or_create_child_dir dir_fd component display create_missing action) (act (CloseFd dir_fd));
      cleanup (act (CloseFd dir_fd)) (act (CloseFd dir_fd)) ;;
      descend next_fd rest display create_missing action body
  end.

Definition _anchored_publication {A} (root dst : list N) (create_missing : bool) (action : list N)
    (body : Z -> list N -> IO A) : IO A :=
  if negb publication_supported then
    throw (refusing action dst (lit "this platform cannot guarantee fd-anchored, no-follow publication containment"))
  else
    relative ← of_res (relpath cwd dst root);
    let components := split_on slash relative in
    if mem dotdot components || bool_decide (components = [[dot]]) then
      throw (refusing action dst (lit "outside the library root " ++ root))
    else
      dir_fd ← perform (OpenDir None root false);
      descend dir_fd components dst create_missing action body.

(** ** What is already there *)

Fixpoint read_all (n : nat) (fd : Z) (acc : list N) : IO (list N) :=
  match n with
  | O => hang
  | S n =>
      chunk ← perform (ReadChunk fd _DIGEST_CHUNK_BYTES);
      if bool_decide (chunk = []) then mret acc else read_all n fd (acc ++ chunk)
  end.

Definition _fd_digest (fd : Z) : IO (list N) :=
  act (SeekStart fd) ;;
  bytes ← read_all fuel fd [];
  mret (sha256 bytes).

(** The descriptor stays open when it is returned. *)
Definition _entry_matches_source (source_fd dir_fd : Z) (name : list N) : IO (option (PublishedFileIdentity * Z)) :=
  entry ← catching is_os_error (i ← perform (StatAt dir_fd name); mret (Some i)) (fun _ => mret None);
  match entry with
  | None => mret None
  | Some entry_info =>
      if negb (bool_decide (st_kind entry_info = Regular)) then mret None
      else
        opened ← catching is_os_error (fd ← perform (OpenRead (Some dir_fd) name); mret (Some fd)) (fun _ => mret None);
        match opened with
        | None => mret None
        | Some entry_fd =>
            matched ← cleanup
              (catching is_os_error
                 (entry_stat ← perform (Fstat entry_fd);
                  source_stat ← perform (Fstat source_fd);
                  if negb (bool_decide (st_kind entry_stat = Regular)) then mret None
                  else if bool_decide (identity_of entry_stat = identity_of source_stat) then
                    mret (Some (identity_of entry_stat))
                  else if negb (st_size entry_stat =? st_size source_stat)%Z then mret None
                  else
                    entry_digest ← _fd_digest entry_fd;
                    source_digest ← _fd_digest source_fd;
                    mret (if bool_decide (entry_digest = source_digest) then Some (identity_of entry_stat) else None))
                 (fun _ => mret None))
              (act (CloseFd entry_fd));
            match matched with
            | Some identity => mret (Some (identity, entry_fd))
            | None => act (CloseFd entry_fd) ;; mret None
            end
        end
  end.

Definition _idempotent_or_conflict (source_fd dir_fd : Z) (name display : list N) : IO (PublishedFileIdentity * Z) :=
  match_ ← _entry_matches_source source_fd dir_fd name;
  match match_ with
  | Some m => mret m
  | None => throw (FileExistsError (lit "destination already exists with different content: " ++ display))
  end.

Definition _verify_lexical_publication (root dst : list N) (parent_fd : Z) (name : list N)
    (published_identity : PublishedFileIdentity) (placed : bool) : IO unit :=
  lexical_identity ← catching (fun e => is_os_error e || raises "LocalFileSystemError" e)
    (_anchored_publication root dst false (lit "publish") _entry_identity)
    (fun _ => mret None);
  if bool_decide (lexical_identity = Some published_identity) then mret tt
  else
    rolled_back ←
      (if placed then
         found ← _entry_identity parent_fd name;
         if bool_decide (found = Some published_identity) then
           catching is_os_error (act (UnlinkAt parent_fd name) ;; mret true) (fun _ => mret false)
         else mret false
       else mret false);
    throw (refusing (lit "publish") dst
      (lit "the destination directory was moved out from under the publication -- the path no longer names the file that was placed (containment could not be guaranteed)"
       ++ (if (rolled_back : bool) then lit "; the placed file was removed" else []))).

(** ** [LocalFileSystem] *)

(** The entry at the destination: its identity, a descriptor that holds it open,
    and whether this call made it. *)
Definition place (src dst : list N) (source_fd parent_fd : Z) (name : list N)
    : IO (PublishedFileIdentity * option Z * bool) :=
  try_except
    (i ← _publish_link_no_overwrite src source_fd parent_fd name dst; mret (i, None, true))
    (fun e =>
       if file_exists_error e then Some
         (m ← _idempotent_or_conflict source_fd parent_fd name dst; mret (m.1, Some m.2, false))
       else if is_os_error e then Some
         (if negb (has_errno _COPY_FALLBACK_ERRNOS e) then throw e
          else
            try_except
              (m ← _copy_no_overwrite src dst source_fd parent_fd name; mret (m.1, Some m.2, true))
              (fun e' => if file_exists_error e' then Some
                           (m ← _idempotent_or_conflict source_fd parent_fd name dst; mret (m.1, Some m.2, false))
                         else None))
       else None).

Definition close_held (published_fd : option Z) : IO unit :=
  match published_fd with Some fd => act (CloseFd fd) | None => mret tt end.

Definition hardlink_or_copy (src dst root : list N) : IO FilePublication :=
  _anchored_publication root dst true (lit "publish") (fun parent_fd name =>
    source_fd ← _open_regular_source src dst;
    try_finally
      (p ← place src dst source_fd parent_fd name;
       let '(published_identity, published_fd, placed_) := p in
       try_finally
         (_verify_lexical_publication root dst parent_fd name published_identity placed_ ;;
          mret {| placed := placed_; identity := published_identity |})
         (close_held published_fd))
      (act (CloseFd source_fd))).

Definition move (src dst root : list N) : IO unit :=
  same ← catching is_os_error (perform (SameFile src dst)) (fun _ => mret false);
  if (same : bool) then mret tt
  else
    hardlink_or_copy src dst root ;;
    act (UnlinkPath src).

Definition remove_published (dst root : list N) (identity : PublishedFileIdentity) : IO unit :=
  suppress file_not_found
    (_anchored_publication root dst false (lit "roll back") (fun parent_fd name =>
       suppress file_not_found
         (_publish_lock parent_fd name dst true
            (found ← _entry_identity parent_fd name;
             if negb (bool_decide (found = Some identity)) then mret tt
             else act (UnlinkAt parent_fd name))))).

(** *** Deleting *)

Definition _is_within (root_real candidate_real : list N) : bool :=
  bool_decide (candidate_real = root_real) || prefixb (root_real ++ sep) candidate_real.

(** [LocalFileSystem.__init__]. *)
Fixpoint library_roots_of (library_roots : list (list N)) : IO (list (list N)) :=
  match library_roots with
  | [] => mret []
  | root :: rest =>
      if bool_decide (root = []) then library_roots_of rest
      else real ← perform (Realpath root); more ← library_roots_of rest; mret (real :: more)
  end.

Context (_library_roots : list (list N)).

Definition within_roots (p : list N) : bool := existsb (fun root => _is_within root p) _library_roots.

Definition normalized_entry (p : list N) : bool :=
  let parts := split_on slash p in
  negb (mem (List.last parts []) [[]; [dot]; dotdot]) && negb (existsb (fun part => mem part [[dot]; dotdot]) parts).

Definition _guarded_resolution (p : list N) : IO (option (list N * list N)) :=
  if bool_decide (p = []) || negb (normalized_entry p) then mret None
  else
    let entry_dir := match dirname p with [] => [dot] | d => d end in
    real_dir ← perform (Realpath entry_dir);
    let entry_location := os_join real_dir (basename p) in
    if negb (within_roots entry_location) then mret None
    else
      real ← perform (Realpath p);
      mret (if within_roots real then Some (entry_location, real) else None).

Definition resolve_guarded (p : list N) : IO (option (list N)) :=
  resolution ← _guarded_resolution p;
  mret (snd <$> (resolution : option (list N * list N))).

Definition delete_guard_refuses (p : list N) : IO bool :=
  if negb delete_supported then mret true
  else real ← resolve_guarded p; mret (bool_decide (real = None)).

(** [None]: an ancestor is gone. *)
Fixpoint open_parent (dir_fd : Z) (components : list (list N)) (original_path : list N) : IO (option Z) :=
  match components with
  | [] | [_] => mret (Some dir_fd)
  | component :: rest =>
      next ← cleanup
        (catching is_os_error (fd ← perform (OpenDir (Some dir_fd) component true); mret (Some fd)) (fun e =>
           if file_not_found e then mret None
           else if has_errno [ELOOP; ENOTDIR] e then
             throw (refusing (lit "delete") original_path (lit "an ancestor changed to a symlink or non-directory during deletion (containment could not be guaranteed)"))
           else throw e))
        (act (CloseFd dir_fd));
      cleanup (act (CloseFd dir_fd)) (act (CloseFd dir_fd)) ;;
      match next with
      | None => mret None
      | Some next_fd => open_parent next_fd rest original_path
      end
  end.

Definition _open_parent_nofollow (start_dir : list N) (components : list (list N)) (original_path : list N)
    : IO (option Z) :=
  dir_fd ← perform (OpenDir None start_dir false);
  open_parent dir_fd components original_path.

Definition yielded_entries (x : list N * list (list N) * list (list N)) : list (list N) :=
  let '(dirpath, dirnames, filenames) := x in dirpath :: (os_join dirpath <$> dirnames ++ filenames).

(** The entries found under the leaf, and whether every directory was listed. *)
Definition _tree_entries (leaf : list N) (parent_fd : Z) : IO (list (list N) * bool) :=
  w ← perform (FwalkAt parent_fd leaf);
  let found := ((wk_yielded w ≫= yielded_entries, negb (wk_unlisted w) && bool_decide (wk_raised w = None))
                : list (list N) * bool) in
  match wk_raised w with
  | Some e => if is_os_error e then mret found else throw e
  | None => mret found
  end.

Definition subset_of (before after : list (list N)) : bool := forallb (fun x => mem x after) before.

Definition remove_tree (parent_fd : Z) (leaf : list N) : IO unit :=
  before ← _tree_entries leaf parent_fd;
  catching is_os_error (act (RmTreeAt parent_fd leaf)) (fun e =>
    after ← _tree_entries leaf parent_fd;
    if negb before.2 || negb (subset_of before.1 after.1) then
      throw (PartialDeleteError (lit "partially deleted before failing"))
    else throw e).

Definition delete_leaf (parent_fd : Z) (leaf : list N) : IO unit :=
  found ← catching file_not_found (s ← perform (StatAt parent_fd leaf); mret (Some s)) (fun _ => mret None);
  match found with
  | None => mret tt
  | Some leaf_stat =>
      match st_kind leaf_stat with
      | Directory => remove_tree parent_fd leaf
      | _ => act (UnlinkAt parent_fd leaf)
      end
  end.

Definition delete (p : list N) : IO unit :=
  if negb delete_supported then
    throw (LocalFileSystemError (lit "refusing to delete: this platform cannot guarantee fd-anchored, no-follow delete containment"))
  else
    resolution ← _guarded_resolution p;
    match resolution with
    | None => throw (refusing (lit "delete") p (lit "outside every configured library root (or not a normalized path)"))
    | Some (entry_location, _) =>
        relative ← of_res (relpath cwd entry_location sep);
        let components := split_on slash relative in
        parent ← _open_parent_nofollow sep components p;
        match parent with
        | None => mret tt
        | Some parent_fd => try_finally (delete_leaf parent_fd (List.last components [])) (act (CloseFd parent_fd))
        end
    end.

(** *** Walking *)

(** The subdirectories that are not links, on top of the stack. *)
Fixpoint push_dirs (dirpath : list N) (dirs_reversed stack : list (list N)) : IO (list (list N)) :=
  match dirs_reversed with
  | [] => mret stack
  | name :: rest =>
      let new_path := os_join dirpath name in
      link ← perform (IsLink new_path);
      push_dirs dirpath rest (if (link : bool) then stack else new_path :: stack)
  end.

(** [for dirpath, dirnames, filenames in os.walk(top, onerror=...)], top down, not
    following links; the body replaces [dirnames] by [prune dirnames]. *)
Fixpoint os_walk {A} (n : nat) (onerror : exn -> IO unit) (prune : list (list N) -> list (list N))
    (body : list N -> list (list N) -> A -> IO A) (stack : list (list N)) (acc : A) : IO A :=
  match stack with
  | [] => mret acc
  | top :: stack =>
      match n with
      | O => hang
      | S n =>
          listed ← catching is_os_error (l ← perform (Scandir top); mret (Some l))
            (fun e => onerror e ;; mret None);
          match (listed : option (list (list N * bool))) with
          | None => os_walk n onerror prune body stack acc
          | Some entries =>
              let dirs := prune (List.filter snd entries).*1 in
              acc ← body top (List.filter (fun x => negb x.2) entries).*1 acc;
              stack ← push_dirs top (reverse dirs) stack;
              os_walk n onerror prune body stack acc
          end
      end
  end.

Definition VideoFile : Type := list N * Z * list N.

Definition kept_dirs (dirnames : list (list N)) : list (list N) :=
  List.filter (fun name =>
    negb (mem (py_casefold name) PLEX_EXTRAS_DIR_NAMES) && negb (is_plex_disc_structure_path name)
    && negb (contains (lit "sample") (py_casefold name))) dirnames.

(** One file name of a directory. *)
Definition video_file (root root_real dirpath filename : list N) (strict : bool) (acc : list VideoFile)
    : IO (list VideoFile) :=
  let literal_path := fspath (os_join dirpath filename) in
  if contains (lit "sample") (py_lower filename) then mret acc
  else if bool_decide (plex_video_extension literal_path = None) then mret acc
  else
    candidate ← perform (Realpath literal_path);
    if negb (_is_within root_real candidate) then mret acc
    else
      size ← catching is_os_error (z ← perform (GetSize candidate); mret (Some z))
        (fun e => if strict then throw e else mret None);
      match size with
      | None => mret acc
      | Some size =>
          rel ← of_res (relpath cwd literal_path root);
          mret (acc ++ [(candidate, size, rel)])
      end.

Fixpoint video_files (root root_real dirpath : list N) (strict : bool) (filenames : list (list N))
    (acc : list VideoFile) : IO (list VideoFile) :=
  match filenames with
  | [] => mret acc
  | filename :: rest =>
      acc ← video_file root root_real dirpath filename strict acc;
      video_files root root_real dirpath strict rest acc
  end.

(** What the generator yields; its consumers make no calls of their own. *)
Definition _iter_video_files (root : list N) (strict : bool) : IO (list VideoFile) :=
  if is_plex_disc_structure_path (fspath root) then mret []
  else
    root_real ← perform (Realpath root);
    parent_real ← perform (Realpath (parent_of root));
    if negb (bool_decide (parent_real = sep)) && negb (_is_within parent_real root_real) then mret []
    else
      os_walk fuel (fun e => if strict then throw e else mret tt) kept_dirs
        (fun dirpath filenames acc => video_files root root_real dirpath strict filenames acc) [root] [].

Definition larger (best : option (list N) * Z) (x : VideoFile) : option (list N) * Z :=
  let '(candidate, size, _) := x in if (size >? best.2)%Z then (Some candidate, size) else best.

Definition largest_video_file (root : list N) : IO (option (list N)) :=
  is_file ← perform (IsFile (fspath root));
  if (is_file : bool) then
    resolved ← perform (Realpath (fspath root));
    if bool_decide (plex_video_extension (fspath root) = None) then mret None
    else
      parent ← perform (Realpath (parent_of root));
      mret (if _is_within parent resolved then Some resolved else None)
  else
    files ← _iter_video_files root false;
    mret (foldl larger (None, (-1)%Z) files).1.

Definition list_video_files (root : list N) : IO (list VideoFile) := _iter_video_files root true.

(** What one file adds to the total. *)
Definition reclaimable_file (full : list N) (total : Z) : IO Z :=
  link ← perform (IsLink full);
  if (link : bool) then mret total
  else
    catching is_os_error
      (stat ← perform (StatPath full);
       mret (if (st_nlink stat <=? 1)%Z then (total + st_size stat)%Z else total))
      (fun _ => mret total).

Fixpoint reclaimable_files (dirpath : list N) (filenames : list (list N)) (total : Z) : IO Z :=
  match filenames with
  | [] => mret total
  | filename :: rest =>
      total ← reclaimable_file (os_join dirpath filename) total;
      reclaimable_files dirpath rest total
  end.

Definition reclaimable_bytes (p : list N) : IO Z :=
  catching is_os_error
    (link ← perform (IsLink p);
     if (link : bool) then mret 0%Z
     else
       file ← perform (IsFile p);
       if (file : bool) then
         stat ← perform (StatPath p);
         mret (if (st_nlink stat <=? 1)%Z then st_size stat else 0%Z)
       else
         dir ← perform (IsDir p);
         if negb (dir : bool) then mret 0%Z
         else
           os_walk fuel (fun _ => mret tt) (fun dirnames => dirnames)
             (fun dirpath filenames total => reclaimable_files dirpath filenames total) [p] 0%Z)
    (fun _ => mret 0%Z).

End adapter.
