(* ===== verification/LocalMonitor.v ===== *)
(** * What a publication or a deletion may do, and when

    The monitor of the file system adapter: the descriptors that are open, the
    directory each one denotes, the state of the publish lock, and the calls that
    are allowed only on such facts.  The kernel hands out a descriptor only while
    it is closed ([sane]); nothing else is assumed of its answers. *)

From Stdlib Require Import ZArith Lia Bool String SpecFloat.
From S2P Require Import Prelude PyStr PyNum PyInt PyOs LibraryRoots Histories LocalIO LocalFileSystem.

#[local] Open Scope bool_scope.

Abbreviation history := (list (event reply)).

(** ** Descriptors *)

Definition opens (ev : event reply) : option Z :=
  match ev with
  | Ev (OpenDir _ _ _) (Ok fd) | Ev (OpenRead _ _) (Ok fd) | Ev (OpenLock _ _) (Ok fd) | Ev (CreateExcl _ _) (Ok fd) => Some fd
  | _ => None
  end.

Definition closes (fd : Z) (c : call) : bool := match c with CloseFd fd' => bool_decide (fd' = fd) | _ => false end.

Fixpoint held (fd : Z) (h : history) : bool :=
  match h with
  | [] => false
  | ev :: h' =>
      if closes fd (call_of ev) then false
      else if bool_decide (opens ev = Some fd) then true else held fd h'
  end.

(** Every descriptor handed out was closed. *)
Fixpoint sane (h : history) : bool :=
  match h with
  | [] => true
  | ev :: h' => match opens ev with Some fd => negb (held fd h') | None => true end && sane h'
  end.

(** The descriptors a call works on. *)
Definition uses (c : call) : list Z :=
  match c with
  | OpenDir (Some fd) _ _ | OpenRead (Some fd) _ => [fd]
  | OpenLock fd _ | CreateExcl fd _ | CloseFd fd | Fstat fd | SeekStart fd | ReadChunk fd _ | WriteFd fd _ | FlockWait fd
  | FlockTry fd | Flush fd | ListXattr fd | GetXattr fd _ | SetXattr fd _ _ | Fchmod fd _ | Utime fd _ _
  | StatAt fd _ | MkdirAt fd _ | LinkPath _ fd _ | LinkAt fd _ _ | RenameAt fd _ _ | UnlinkAt fd _ | RmTreeAt fd _
  | FwalkAt fd _ => [fd]
  | CopyFileObj a b => [a; b]
  | _ => []
  end.

(** The directory in which a call looks up a name, and the names. *)
Definition looks_up (c : call) : option (Z * list (list N)) :=
  match c with
  | OpenDir (Some fd) n _ | OpenRead (Some fd) n | OpenLock fd n | CreateExcl fd n | StatAt fd n | MkdirAt fd n
  | LinkPath _ fd n | UnlinkAt fd n | RmTreeAt fd n | FwalkAt fd n => Some (fd, [n])
  | LinkAt fd t n | RenameAt fd t n => Some (fd, [t; n])
  | _ => None
  end.

Inductive task : Type :=
  | Publish (src : list N)
  | RollBack (identity : PublishedFileIdentity)
  | Delete.

Definition occurs (ev : event reply) (h : history) : Prop := ev ∈ h.

Section guards.
Context {DB : UnicodeDB}.
(** The path [components] under [base]. *)
Context (base : list N) (components : list (list N)) (goal : task).

Definition depth : nat := length components - 1.
Definition leaf : list N := List.last components [].
Definition lock : list N := lock_name_of leaf.

(** [fd] denotes the directory reached from [base] by the first [n] components,
    each opened in the one before it without following a link. *)
Fixpoint anchored (n : nat) (fd : Z) (h : history) : Prop :=
  match n with
  | O => answered (OpenDir None base false) (Ok fd) (closes fd) h
  | S n =>
      since (fun h => exists c d h', components !! n = Some c /\
               h = Ev (OpenDir (Some d) c true) (Ok fd) :: h' /\ anchored n d h') (closes fd) h
  end.

(** *** The publish lock *)

(** The lock file of the directory [d] was just seen to be the file open as [fd]. *)
Definition matched (d fd : Z) (h : history) : Prop :=
  exists (a b : stat_result) (h' : history), h = Ev (StatAt d lock) (Ok b) :: Ev (Fstat fd) (Ok a) :: h' /\
    st_kind a = Regular /\ st_kind b = Regular /\ identity_of a = identity_of b.

(** This call created the lock file, waited for the lock, left its process id
    and saw that the file was still its own. *)
Definition locked (d : Z) (h : history) : Prop :=
  exists (a b : stat_result) (fd pid : Z) (h' : history),
    h = Ev (StatAt d lock) (Ok b) :: Ev (Fstat fd) (Ok a) :: Ev (WriteFd fd (str_of_int pid)) (Ok tt)
        :: Ev GetPid (Ok pid) :: Ev (FlockWait fd) (Ok tt) :: Ev (CreateExcl d lock) (Ok fd) :: h' /\
    st_kind a = Regular /\ st_kind b = Regular /\ identity_of a = identity_of b.

(** The process whose id the lock file holds is gone, or the file has no readable
    id and was last written more than a minute ago. *)
Definition stale (fd : Z) (h : history) : Prop :=
  (exists (bytes : list N) (pid : Z) (e : exn) (h' : history), h = Ev (Kill pid) (Raise e) :: Ev (ReadChunk fd 64) (Ok bytes) :: h' /\
     int_of_str (py_strip (decode_replace bytes)) = Some pid /\ raises "ProcessLookupError" e = true) \/
  (exists (bytes : list N) (s : stat_result) (now : spec_float) (h' : history),
     h = Ev Now (Ok now) :: Ev (Fstat fd) (Ok s) :: Ev (ReadChunk fd 64) (Ok bytes) :: h' /\
     int_of_str (py_strip (decode_replace bytes)) = None /\ flt _EMPTY_LOCK_STALE_SECONDS (fsub now (st_mtime s)) = true).

(** Nobody holds the lock and the file is stale: it was locked without waiting,
    and it is still the same file after it was judged. *)
Definition abandoned (d fd : Z) (h : history) : Prop :=
  answered (FlockTry fd) (Ok tt) (closes fd) h /\ matched d fd h /\
  exists (a b : event reply) (h' : history), h = b :: a :: h' /\ stale fd h'.

(** *** The entry *)

Definition absent (d : Z) (h : history) : Prop :=
  exists (e : exn) (h' : history), h = Ev (StatAt d leaf) (Raise e) :: h' /\ is_os_error e = true /\ locked d h'.

Definition temp_name (tmp : list N) : Prop := exists token, tmp = lit "." ++ leaf ++ lit "." ++ token ++ lit ".tmp".
Definition known (n : list N) : Prop := n = leaf \/ n = lock \/ temp_name n.
Definition own_temp (d : Z) (tmp : list N) (h : history) : Prop :=
  temp_name tmp /\ exists fd, answered (CreateExcl d tmp) (Ok fd) (closes d) h.

(** The entry was made with the identity [i]: as a link to the source, or from a
    temporary file of this call. *)
Definition linked (src : list N) (i : PublishedFileIdentity) (h : history) : Prop :=
  exists (d fd : Z) (s : stat_result), occurs (Ev (LinkPath src d leaf) (Ok tt)) h /\ occurs (Ev (OpenRead None src) (Ok fd)) h /\
    occurs (Ev (Fstat fd) (Ok s)) h /\ identity_of s = i.
Definition copied (i : PublishedFileIdentity) (h : history) : Prop :=
  exists (d : Z) (tmp : list N) (fd : Z) (s : stat_result), temp_name tmp /\ occurs (Ev (CreateExcl d tmp) (Ok fd)) h /\
    (occurs (Ev (LinkAt d tmp leaf) (Ok tt)) h \/ occurs (Ev (RenameAt d tmp leaf) (Ok tt)) h) /\
    occurs (Ev (Fstat fd) (Ok s)) h /\ identity_of s = i.
Definition made (src : list N) (i : PublishedFileIdentity) (h : history) : Prop := linked src i h \/ copied i h.

(** The bytes read from [fd] since it was last put at the start. *)
Fixpoint text_read (fd : Z) (h : history) : list N :=
  match h with
  | [] => []
  | Ev (SeekStart fd') _ :: h' => if bool_decide (fd' = fd) then [] else text_read fd h'
  | Ev (ReadChunk fd' _) (Ok bytes) :: h' => text_read fd h' ++ (if bool_decide (fd' = fd) then bytes else [])
  | _ :: h' => text_read fd h'
  end.

(** The last read of [fd] met the end of the file. *)
Definition moves (fd : Z) (c : call) : bool :=
  match c with SeekStart fd' | ReadChunk fd' _ => bool_decide (fd' = fd) | _ => false end.
Definition at_end (fd : Z) (h : history) : Prop :=
  answered (ReadChunk fd _DIGEST_CHUNK_BYTES) (Ok []) (moves fd) h.

(** The entry was there before, a regular file with the identity [i], and is the
    source itself, or was read and found to have its digest. *)
Definition same_content (sha256 : list N -> list N) (fd fd' : Z) (s s' : stat_result) (h : history) : Prop :=
  st_size s = st_size s' /\
  exists tr h', h = tr ++ h' /\ at_end fd h' /\ at_end fd' h' /\ sha256 (text_read fd h') = sha256 (text_read fd' h').
Definition was_there (sha256 : list N -> list N) (src : list N) (i : PublishedFileIdentity) (h : history) : Prop :=
  exists (d fd source_fd : Z) (s s' : stat_result),
    occurs (Ev (OpenRead (Some d) leaf) (Ok fd)) h /\ occurs (Ev (OpenRead None src) (Ok source_fd)) h /\
    occurs (Ev (Fstat fd) (Ok s)) h /\ occurs (Ev (Fstat source_fd) (Ok s')) h /\
    st_kind s = Regular /\ identity_of s = i /\
    (identity_of s = identity_of s' \/ same_content sha256 fd source_fd s s' h).

(** A walk from the base, the last thing done but for closing descriptors, found
    the identity [i] under the path. *)
Definition is_close (c : call) : bool := match c with CloseFd _ => true | _ => false end.
Definition verified (i : PublishedFileIdentity) (h : history) : Prop :=
  since (fun h => exists (d : Z) (s : stat_result) (h' : history),
           h = Ev (StatAt d leaf) (Ok s) :: h' /\ identity_of s = i /\ anchored depth d h')
        (fun c => negb (is_close c)) h.

Definition seen (d : Z) (i : PublishedFileIdentity) (h : history) : Prop :=
  exists (s : stat_result) (h' : history), h = Ev (StatAt d leaf) (Ok s) :: h' /\ identity_of s = i.
Definition seen_locked (d : Z) (i : PublishedFileIdentity) (h : history) : Prop :=
  exists (s : stat_result) (h' : history), h = Ev (StatAt d leaf) (Ok s) :: h' /\ identity_of s = i /\ locked d h'.
Definition seen_kind (d : Z) (directory : bool) (h : history) : Prop :=
  exists (s : stat_result) (h' : history), h = Ev (StatAt d leaf) (Ok s) :: h' /\ bool_decide (st_kind s = Directory) = directory.

(** The entry may be removed. *)
Definition removable (d : Z) (h : history) : Prop :=
  match goal with
  | Publish src => exists i, made src i h /\ seen d i h
  | RollBack i => seen_locked d i h
  | Delete => seen_kind d false h
  end.

(** ** The calls allowed *)

Definition step_allowed (d : Z) (c : list N) (h : history) : Prop :=
  exists n, components !! n = Some c /\ n < depth /\ anchored n d h.

Definition guard (h : history) (c : call) : Prop :=
  match c with
  | OpenDir None p _ => p = base
  | OpenDir (Some d) c nofollow => nofollow = true /\ step_allowed d c h
  | MkdirAt d c => (exists src, goal = Publish src) /\ step_allowed d c h
  | OpenRead (Some d) n | StatAt d n | OpenLock d n | FwalkAt d n => anchored depth d h /\ known n
  | CreateExcl d n => anchored depth d h /\ (n = lock \/ (exists src, goal = Publish src) /\ temp_name n)
  | LinkPath p d n => goal = Publish p /\ n = leaf /\ anchored depth d h /\ locked d h
  | LinkAt d tmp n => (exists src, goal = Publish src) /\ n = leaf /\ anchored depth d h /\ own_temp d tmp h /\ absent d h
  | RenameAt d tmp n =>
      (exists src, goal = Publish src) /\ n = leaf /\ anchored depth d h /\ own_temp d tmp h /\
      exists (e : exn) (h' : history), h = Ev (LinkAt d tmp n) (Raise e) :: h' /\ absent d h'
  | UnlinkAt d n =>
      anchored depth d h /\
      (n = leaf /\ removable d h \/ goal <> Delete /\ own_temp d n h \/
       goal <> Delete /\ n = lock /\ exists fd, matched d fd h /\ (answered (CreateExcl d lock) (Ok fd) (closes fd) h \/ abandoned d fd h))
  | RmTreeAt d n => goal = Delete /\ n = leaf /\ anchored depth d h /\
      exists w (s : stat_result) (h' : history),
        h = Ev (FwalkAt d leaf) w :: Ev (StatAt d leaf) (Ok s) :: h' /\ st_kind s = Directory
  | UnlinkPath p => goal = Publish p /\ exists i, verified i h
  | _ => True
  end.

Definition allowed (h : history) (c : call) : Prop :=
  sane h = true -> (forall fd, fd ∈ uses c -> held fd h = true) /\ guard h c.

End guards.
