(* ===== verification/LocalSpecs.v ===== *)
(** * Proof rules for the file system adapter *)

From Stdlib Require Import ZArith Lia Bool String SpecFloat.
From S2P Require Import Prelude PyStr PyNum PyInt PyOs LibraryRoots Histories LocalIO LocalFileSystem LocalMonitor.

#[local] Open Scope bool_scope.

(** ** Descriptors *)

Lemma held_closed fd r h : held fd (Ev (CloseFd fd) r :: h) = false.
Proof. simpl. by rewrite bool_decide_true. Qed.

Lemma sane_tail tr h : sane (tr ++ h) = true -> sane h = true.
Proof. induction tr as [|ev tr IH]; [done|]. simpl. intros [_ H]%andb_prop. by apply IH. Qed.

(** Between [g] and [g'] no descriptor open in [g] was closed, and [new] is what
    is open besides. *)
Definition after (new : option Z) (g g' : history) : Prop :=
  (exists tr, g' = tr ++ g /\
     forall fd, held fd g = true -> Forall (fun ev => closes fd (call_of ev) = false) tr) /\
  forall fd, held fd g' = bool_decide (new = Some fd) || held fd g.

Lemma after_refl g : after None g g.
Proof. split; [|done]. exists []. split; [done|]. by constructor. Qed.

(** A call that neither opens nor closes. *)
Definition idle (ev : event reply) : bool :=
  match ev with Ev (CloseFd _) _ => false | _ => bool_decide (opens ev = None) end.

Lemma idle_closes ev fd : idle ev = true -> closes fd (call_of ev) = false.
Proof. destruct ev as [c r]. by destruct c. Qed.
Lemma idle_held ev fd h : idle ev = true -> held fd (ev :: h) = held fd h.
Proof.
  intros Hi. simpl. rewrite (idle_closes _ fd Hi).
  assert (Ho : opens ev = None). { destruct ev as [c r]. destruct c; try done; by apply bool_decide_eq_true in Hi. }
  by rewrite Ho.
Qed.
Lemma after_idle new ev g g1 : idle ev = true -> after new g g1 -> after new g (ev :: g1).
Proof.
  intros Hi [(tr & -> & Htr) Hh]. split.
  - exists (ev :: tr). split; [done|]. intros fd Hfd. constructor; [by apply idle_closes | by apply Htr].
  - intros fd. by rewrite idle_held.
Qed.

Lemma after_open fd ev g g1 : opens ev = Some fd -> sane (ev :: g1) = true ->
  after None g g1 -> after (Some fd) g (ev :: g1) /\ held fd g = false.
Proof.
  intros Ho Hs [(tr & -> & Htr) Hh]. assert (Hn : held fd (tr ++ g) = false).
  { simpl in Hs. rewrite Ho in Hs. apply andb_prop in Hs as [Hs%negb_true_iff _]. done. }
  assert (Hc : forall fd', closes fd' (call_of ev) = false) by (intros; destruct ev as [c r]; by destruct c).
  split; [split|].
  - exists (ev :: tr). split; [done|]. intros fd' Hfd. constructor; [done | by apply Htr].
  - intros fd'. simpl. rewrite Hc, Ho, Hh. simpl. by destruct (bool_decide (Some fd = Some fd')).
  - rewrite Hh in Hn. by destruct (held fd g).
Qed.

Lemma after_trans new g g1 g2 : after None g g1 -> after new g1 g2 -> after new g g2.
Proof.
  intros [(t1 & -> & H1) Hh1] [(t2 & -> & H2) Hh2]. split.
  - exists (t2 ++ t1). split; [by rewrite app_assoc|]. intros fd Hfd. apply Forall_app. split; [|by apply H1].
    apply H2. by rewrite Hh1, Hfd, orb_true_r.
  - intros fd. rewrite Hh2, Hh1. done.
Qed.

(** Opened, used and closed. *)
Lemma after_close fd r g g1 g2 :
  after (Some fd) g g1 -> held fd g = false -> after None g1 g2 -> after None g (Ev (CloseFd fd) r :: g2).
Proof.
  intros [(t1 & -> & H1) Hh1] Hn [(t2 & -> & H2) Hh2]. split.
  - exists (Ev (CloseFd fd) r :: t2 ++ t1). split; [by rewrite app_assoc|]. intros fd' Hfd.
    assert (Hne : fd <> fd') by congruence. constructor; [simpl; by apply bool_decide_eq_false|].
    apply Forall_app. split; [|by apply H1]. apply H2. by rewrite Hh1, Hfd, orb_true_r.
  - intros fd'. cbn [held call_of closes opens]. destruct (decide (fd = fd')) as [<-|Hne].
    + by rewrite bool_decide_true.
    + rewrite (bool_decide_eq_false_2 (fd = fd')) by done. rewrite bool_decide_eq_false_2 by done.
      rewrite Hh2, Hh1. by rewrite (bool_decide_eq_false_2 (Some fd = Some fd')) by congruence.
Qed.

(** The next one was opened, the one before is closed. *)
Lemma after_swap fd next r g g1 g2 : after (Some fd) g g1 -> held fd g = false ->
  after (Some next) g1 g2 -> held next g1 = false ->
  after (Some next) g (Ev (CloseFd fd) r :: g2) /\ held next g = false /\ fd <> next.
Proof.
  intros [(t1 & -> & H1) Hh1] Hn [(t2 & -> & H2) Hh2] Hn2.
  assert (Hne : fd <> next) by (intros ->; rewrite Hh1 in Hn2; by rewrite bool_decide_true in Hn2).
  assert (Hng : held next g = false) by (rewrite Hh1 in Hn2; by apply orb_false_iff in Hn2 as [_ ?]).
  split; [split|done].
  - exists (Ev (CloseFd fd) r :: t2 ++ t1). split; [by rewrite app_assoc|]. intros fd' Hfd.
    assert (fd <> fd') by congruence. constructor; [simpl; by apply bool_decide_eq_false|].
    apply Forall_app. split; [|by apply H1]. apply H2. by rewrite Hh1, Hfd, orb_true_r.
  - intros fd'. cbn [held call_of closes opens]. destruct (decide (fd = fd')) as [<-|Hne'].
    + rewrite bool_decide_true by done. rewrite bool_decide_eq_false_2 by congruence. by rewrite Hn.
    + rewrite (bool_decide_eq_false_2 (fd = fd')) by done. rewrite bool_decide_eq_false_2 by done.
      rewrite Hh2, Hh1. by rewrite (bool_decide_eq_false_2 (Some fd = Some fd')) by congruence.
Qed.

Lemma after_then new g g1 g2 : after new g g1 -> after None g1 g2 -> after new g g2.
Proof.
  intros [(t1 & -> & H1) Hh1] [(t2 & -> & H2) Hh2]. split.
  - exists (t2 ++ t1). split; [by rewrite app_assoc|]. intros fd Hfd. apply Forall_app. split; [|by apply H1].
    apply H2. by rewrite Hh1, Hfd, orb_true_r.
  - intros fd. by rewrite Hh2, Hh1.
Qed.

Lemma after_held new fd g g' : after new g g' -> held fd g = true -> held fd g' = true.
Proof. intros [_ Hh] Hf. by rewrite Hh, Hf, orb_true_r. Qed.
Lemma not_held new fd g g' : after new g g' -> held fd g' = false -> held fd g = false.
Proof. intros Ha Hf. destruct (held fd g) eqn:Hg; [|done]. by rewrite (after_held _ _ _ _ Ha Hg) in Hf. Qed.
Lemma after_new fd g g' : after (Some fd) g g' -> held fd g' = true.
Proof. intros [_ Hh]. rewrite Hh. by rewrite bool_decide_true. Qed.

Lemma since_after P new fd g g' : after new g g' -> held fd g = true ->
  since P (closes fd) g -> since P (closes fd) g'.
Proof.
  intros [(tr & -> & Htr) _] Hf H. specialize (Htr fd Hf).
  induction Htr as [|ev tr Hev Htr IH]; [done|]. by right.
Qed.

Lemma occurs_here ev g : occurs ev (ev :: g).
Proof. apply list_elem_of_here. Qed.
Lemma occurs_further ev ev' g : occurs ev g -> occurs ev (ev' :: g).
Proof. apply list_elem_of_further. Qed.
Lemma occurs_app ev tr g : occurs ev g -> occurs ev (tr ++ g).
Proof. intros H. apply elem_of_app. by right. Qed.
Lemma occurs_after new ev g g' : after new g g' -> occurs ev g -> occurs ev g'.
Proof. intros [(tr & -> & _) _]. apply occurs_app. Qed.

Lemma since_held fd (P : history -> Prop) h :
  (forall h, P h -> held fd h = true) -> since P (closes fd) h -> held fd h = true.
Proof.
  intros HP. induction h as [|ev h IH]; (intros [H|H]; [by apply HP|]); [done|].
  destruct H as [Hc H]. cbn [held]. rewrite Hc. case_bool_decide; [done | by apply IH].
Qed.

(** ** Programs *)

Section specs.
Context {DB : UnicodeDB} (base : list N) (components : list (list N)) (goal : task).

Abbreviation WP := (wp fits (allowed base components goal) next).

(** From the history [g], every run of [m] stays within the monitor and ends with
    [Q]; nothing is claimed of runs in which the kernel reuses an open descriptor. *)
Definition spec {A} (m : IO A) (g : history) (Q : history -> res A -> Prop) : Prop :=
  sane g = true -> WP (m tt) g (fun g' '(_, r) => sane g' = true -> Q g' r).

Lemma wp_insane {X} (p : prog reply X) g Q : sane g = false ->
  (forall g' x, sane g' = false -> Q g' x) -> WP p g Q.
Proof.
  intros Hs HQ. revert g Hs. induction p as [x|c k IH|]; intros g Hs; simpl; [by apply HQ| |done].
  split; [intros Ht; congruence|]. intros r _. apply IH. simpl. by rewrite Hs, andb_false_r.
Qed.

Lemma spec_elim {A} (m : IO A) u g Q : spec m g Q -> WP (m u) g (fun g' '(_, r) => sane g' = true -> Q g' r).
Proof.
  destruct u. intros H. destruct (sane g) eqn:Hs; [by apply H|]. apply wp_insane; [done|].
  intros g' [[] r] Hg Ht. congruence.
Qed.

Lemma spec_mono {A} (m : IO A) g (Q R : history -> res A -> Prop) :
  spec m g Q -> (forall g' r, sane g' = true -> Q g' r -> R g' r) -> spec m g R.
Proof. intros H HQ Hs. eapply wp_mono; [|by apply H]. intros g' [u r] Hx Hg. auto. Qed.

Lemma spec_ret {A} (x : A) g (Q : history -> res A -> Prop) : Q g (Ok x) -> spec (mret x) g Q.
Proof. by intros H Hs Hs'. Qed.
Lemma spec_throw {A} e g (Q : history -> res A -> Prop) : Q g (Raise e) -> spec (throw e) g Q.
Proof. by intros H Hs Hs'. Qed.
Lemma spec_of_res {A} (r : res A) g (Q : history -> res A -> Prop) : Q g r -> spec (of_res r) g Q.
Proof. by intros H Hs Hs'. Qed.
Lemma spec_hang {A} g (Q : history -> res A -> Prop) : spec hang g Q.
Proof. by intros Hs. Qed.
Lemma spec_sane {A} (m : IO A) g Q : (sane g = true -> spec m g Q) -> spec m g Q.
Proof. intros H Hs. by apply H. Qed.

Lemma spec_perform c g (Q : history -> res (reply c) -> Prop) :
  (forall fd, fd ∈ uses c -> held fd g = true) -> guard base components goal g c ->
  (forall r, fits c r -> sane (Ev c r :: g) = true -> Q (Ev c r :: g) r) -> spec (perform c) g Q.
Proof. intros Hu Hg HQ Hs. apply wp_call; [by intros _|]. intros r Hr Hs'. by apply HQ. Qed.

Lemma spec_bind {A B} (m : IO A) (f : A -> IO B) g Q :
  spec m g (fun g' r => match r with Ok x => spec (f x) g' Q | Raise e => Q g' (Raise e) end) ->
  spec (m ≫= f) g Q.
Proof.
  intros H Hs. apply wp_M_bind. eapply wp_mono; [|by apply H]. intros g' [u [x|e]] Hx; [|exact Hx].
  apply spec_elim. destruct (sane g') eqn:Hg; [by apply Hx|]. intros Ht; congruence.
Qed.

Lemma spec_act c g (Q : history -> res unit -> Prop) :
  (forall fd, fd ∈ uses c -> held fd g = true) -> guard base components goal g c ->
  (forall r, fits c r -> sane (Ev c r :: g) = true ->
     Q (Ev c r :: g) match r with Ok _ => Ok tt | Raise e => Raise e end) -> spec (act c) g Q.
Proof.
  intros Hu Hg HQ. apply spec_bind, spec_perform; [done|done|]. intros [x|e] Hr Hs; [apply spec_ret|]; by apply (HQ _ Hr).
Qed.

Lemma spec_try {A} (m : IO A) h g Q :
  spec m g (fun g' r =>
    match r with
    | Ok x => Q g' (Ok x)
    | Raise e => match h e with Some m' => spec m' g' Q | None => Q g' (Raise e) end
    end) ->
  spec (try_except m h) g Q.
Proof.
  intros H Hs. apply wp_try. eapply wp_mono; [|by apply H]. intros g' [u [x|e]] Hx; [exact Hx|].
  destruct (h e); [|exact Hx]. apply spec_elim. destruct (sane g') eqn:Hg; [by apply Hx|]. intros Ht; congruence.
Qed.

Lemma spec_catching {A} (p : exn -> bool) (m : IO A) h g Q :
  spec m g (fun g' r =>
    match r with
    | Ok x => Q g' (Ok x)
    | Raise e => if p e then spec (h e) g' Q else Q g' (Raise e)
    end) ->
  spec (catching p m h) g Q.
Proof.
  intros H. apply spec_try. eapply spec_mono; [exact H|]. intros g' [x|e] Hs Hx; [done|]. by destruct (p e).
Qed.

Lemma spec_cleanup {A} (m : IO A) f g Q :
  spec m g (fun g' r =>
    match r with
    | Ok x => Q g' (Ok x)
    | Raise e => spec f g' (fun g2 r' => Q g2 (Raise (match r' with Ok _ => e | Raise e' => e' end)))
    end) ->
  spec (cleanup m f) g Q.
Proof.
  intros H. apply spec_try. eapply spec_mono; [exact H|]. intros g' [x|e] Hs Hx; [done|].
  apply spec_bind. eapply spec_mono; [exact Hx|]. intros g2 [[]|e'] Hs2 H2; [by apply spec_throw | done].
Qed.

Lemma spec_finally {A} (m : IO A) f g Q :
  spec m g (fun g' r => spec f g' (fun g2 r' => Q g2 (match r' with Ok _ => r | Raise e => Raise e end))) ->
  spec (try_finally m f) g Q.
Proof.
  intros H Hs. apply wp_finally. eapply wp_mono; [|by apply H]. intros g' [u r] Hx.
  eapply wp_mono; [|apply spec_elim; destruct (sane g') eqn:Hg; [apply Hx, eq_refl | intros Ht; congruence]].
  by intros g2 [u2 [[]|e]] H2.
Qed.

Lemma anchored_held n fd h : anchored base components n fd h -> held fd h = true.
Proof.
  intros H. destruct n; (eapply since_held; [|exact H]); cbn beta.
  - intros h' [h2 ->]. simpl. by rewrite bool_decide_true.
  - intros h' (c & d & h2 & _ & -> & _). simpl. by rewrite bool_decide_true.
Qed.

Lemma anchored_after n fd new g g' : after new g g' -> anchored base components n fd g -> anchored base components n fd g'.
Proof.
  intros Ha H. pose proof (anchored_held _ _ _ H). destruct n; by apply (since_after _ new fd g g').
Qed.

Lemma spec_suppress (p : exn -> bool) (m : IO unit) g (Q : history -> res unit -> Prop) :
  spec m g (fun g' r => Q g' match r with Ok _ => Ok tt | Raise e => if p e then Ok tt else Raise e end) ->
  spec (suppress p m) g Q.
Proof.
  intros H. apply spec_catching. eapply spec_mono; [exact H|]. intros g' [[]|e] Hs Hx; [done|].
  destruct (p e); [by apply spec_ret | done].
Qed.

(** [os.open], and the [finally] that closes what was opened. *)
Lemma spec_scoped {A} fd (body : IO A) g g1 (Q : history -> res A -> Prop) :
  after (Some fd) g g1 -> held fd g = false ->
  spec body g1 (fun g2 r => after None g1 g2 /\
    (after None g (Ev (CloseFd fd) (Ok tt) :: g2) -> Q (Ev (CloseFd fd) (Ok tt) :: g2) r)) ->
  spec (try_finally body (act (CloseFd fd))) g1 Q.
Proof.
  intros Ho Hn H. apply spec_finally. eapply spec_mono; [exact H|]. intros g2 r Hs [Ha HQ].
  apply spec_act; [|exact I|].
  - intros fd' ->%list_elem_of_singleton. apply (after_held _ _ _ _ Ha), (after_new _ _ _ Ho).
  - intros [[]|e] Hf Hs2; [|done]. by apply HQ, (after_close _ _ _ g1).
Qed.

Lemma spec_close fd g g1 g2 (Q : history -> res unit -> Prop) :
  after (Some fd) g g1 -> held fd g = false -> after None g1 g2 ->
  (after None g (Ev (CloseFd fd) (Ok tt) :: g2) -> Q (Ev (CloseFd fd) (Ok tt) :: g2) (Ok tt)) ->
  spec (act (CloseFd fd)) g2 Q.
Proof.
  intros Ho Hn Ha HQ. apply spec_act; [|exact I|].
  - intros fd' ->%list_elem_of_singleton. apply (after_held _ _ _ _ Ha), (after_new _ _ _ Ho).
  - intros [[]|e] Hf Hs2; [|done]. by apply HQ, (after_close _ _ _ g1).
Qed.

End specs.

Lemma uses_none g : forall fd, fd ∈ @nil Z -> held fd g = true.
Proof. intros fd H%elem_of_nil. done. Qed.
Lemma uses_one d g : held d g = true -> forall fd, fd ∈ [d] -> held fd g = true.
Proof. by intros H fd ->%list_elem_of_singleton. Qed.
Lemma uses_two d d' g : held d g = true -> held d' g = true -> forall fd, fd ∈ [d; d'] -> held fd g = true.
Proof. intros H H' fd [-> | ->%list_elem_of_singleton]%elem_of_cons; done. Qed.

Lemma idle_keeps ev fd h : idle ev = true -> held fd h = true -> held fd (ev :: h) = true.
Proof. intros Hi. by rewrite idle_held. Qed.

(** A descriptor is still open. *)
Ltac is_held :=
  first
    [ assumption
    | match goal with
      | H : after (Some ?fd) _ ?g |- held ?fd ?g = true => exact (after_new _ _ _ H)
      | H : after _ _ ?g |- held _ ?g = true => apply (after_held _ _ _ _ H); is_held
      end
    | apply idle_keeps; [reflexivity | is_held] ].
Ltac uses_held := first [apply uses_none | apply uses_one; is_held | apply uses_two; is_held].

(** Nothing was closed that was open, and nothing is left open. *)
Ltac grows :=
  first
    [ assumption
    | apply after_refl
    | apply after_idle; [reflexivity | grows]
    | match goal with
      | H : after None ?g1 ?g2 |- after _ ?g ?g2 => apply (after_then _ _ g1 _); [grows | exact H]
      | H : after (Some ?fd) ?g1 ?g2 |- after (Some ?fd) ?g ?g2 => apply (after_trans _ _ g1 _); [grows | exact H]
      end ].

(** A directory is still where it was. *)
Ltac anchors :=
  first [assumption | match goal with H : anchored _ _ ?n ?d ?g |- anchored _ _ ?n ?d _ => apply (anchored_after _ _ n d None g); [grows | exact H] end].

(** The condition of a call that looks at an entry. *)
Ltac guards :=
  cbn [guard];
  first [ exact I | reflexivity | split; [anchors | first [assumption | by left | by right; left | by right; right]] ].

(** One step of the program that the goal is about. *)
Ltac go :=
  cbn beta iota; try change (negb true) with false; try change (negb false) with true; cbn beta iota;
  lazymatch goal with
  | |- spec _ _ _ (_ ≫= _) _ _ => apply spec_bind
  | |- spec _ _ _ (mret _) _ _ => apply spec_ret
  | |- spec _ _ _ (throw _) _ _ => apply spec_throw
  | |- spec _ _ _ (of_res _) _ _ => apply spec_of_res
  | |- spec _ _ _ hang _ _ => apply spec_hang
  | |- spec _ _ _ (suppress _ _) _ _ => apply spec_suppress
  | |- spec _ _ _ (catching _ _ _) _ _ => apply spec_catching
  | |- spec _ _ _ (cleanup _ _) _ _ => apply spec_cleanup
  | |- spec _ _ _ (try_finally _ _) _ _ => apply spec_finally
  | |- spec _ _ _ (act (CloseFd _)) _ _ => fail
  | |- spec _ _ _ (act _) _ _ => apply spec_act; [uses_held | try guards | intros [?|?] ?Hfit ?Hsane]
  | |- spec _ _ _ (perform _) _ _ => apply spec_perform; [uses_held | try guards | intros [?|?] ?Hfit ?Hsane]
  | |- spec _ _ _ (match ?x with _ => _ end) _ _ =>
      first [is_var x; destruct x | lazymatch x with negb ?b => is_var b; destruct b end | destruct x eqn:?]
  | |- match (match ?x with _ => _ end) with _ => _ end => first [is_var x; destruct x | destruct x eqn:?]
  | |- match ?x with _ => _ end => first [is_var x; destruct x | destruct x eqn:?]
  end.
Ltac goes := repeat go; cbn beta iota.

(** A descriptor was just opened. *)
Ltac opening Ho Hn :=
  match goal with
  | Hs : sane (Ev ?c (Ok ?fd) :: ?g1) = true |- context [spec _ _ _ _ (Ev ?c (Ok ?fd) :: ?g1)] =>
      destruct (after_open fd (Ev c (Ok fd)) g1 g1 eq_refl Hs (after_refl g1)) as [Ho Hn]
  end.

Ltac units :=
  repeat match goal with
    | x : unit |- _ => destruct x
    | x : reply ?c |- _ => lazymatch eval hnf in (reply c) with unit => destruct x end
    end.
Ltac occurs_somewhere :=
  first
    [ assumption
    | apply occurs_here
    | apply occurs_further; occurs_somewhere
    | match goal with Ha : after _ ?g ?g' |- occurs _ ?g' => apply (occurs_after _ _ _ _ Ha); occurs_somewhere end ].
(** A call was made and answered. *)
Ltac occurred := units; occurs_somewhere.

(** A descriptor that was opened here is closed. *)
Ltac closing Hc :=
  match goal with
  | Ho : after (Some ?x) ?g ?g1, Hn : held ?x ?g = false |- spec _ _ _ (act (CloseFd ?x)) _ _ =>
      apply (spec_close _ _ _ x g g1); [exact Ho | exact Hn | grows | intros Hc]
  end.
