(* ===== verification/LocalLocks.v ===== *)
(** * The publish lock stays within the monitor *)

From Stdlib Require Import ZArith Lia Bool String SpecFloat.
From S2P Require Import Prelude PyStr PyNum PyInt LibraryRoots PyOs Histories LocalIO.
From S2P Require Import LocalFileSystem LocalMonitor LocalSpecs.

#[local] Open Scope bool_scope.

Section locks.
Context {DB : UnicodeDB} (base : list N) (components : list (list N)) (goal : task).
Context (fuel : nat) (Hgoal : goal <> Delete).

Abbreviation SPEC := (spec base components goal).
Abbreviation at_leaf := (anchored base components (depth components)).
Abbreviation lock := (LocalMonitor.lock components).

Definition same_file (d fd : Z) (g g' : history) : Prop :=
  exists a b : stat_result, g' = Ev (StatAt d lock) (Ok b) :: Ev (Fstat fd) (Ok a) :: g /\
    st_kind a = Regular /\ st_kind b = Regular /\ identity_of a = identity_of b.

Lemma matches_spec d fd g : at_leaf d g -> held fd g = true ->
  SPEC (_lock_path_matches_fd d lock fd) g (fun g' r => after None g g' /\
    exists m, r = Ok m /\ (m = true -> same_file d fd g g')).
Proof.
  intros Hd Hf. unfold _lock_path_matches_fd. pose proof (anchored_held _ _ _ _ _ Hd). goes; try (simpl in Hfit; congruence).
  all: try (simpl in Hfit0; congruence).
  all: (split; [grows|]); eexists; (split; [reflexivity|]); try done.
  intros Hx. exists x, x0. split; [done|]. by repeat case_bool_decide.
Qed.

Lemma expired_spec fd g : held fd g = true ->
  SPEC (_lock_is_expired fd) g (fun g' r => after None g g' /\
    (r = Ok true -> exists (s : stat_result) (now : spec_float),
       g' = Ev Now (Ok now) :: Ev (Fstat fd) (Ok s) :: g /\
       flt _EMPTY_LOCK_STALE_SECONDS (fsub now (st_mtime s)) = true)).
Proof.
  intros Hf. unfold _lock_is_expired. goes.
  all: split; [grows|]; try done.
  intros [= Hx]. by exists x, x0.
Qed.

Lemma pid_spec pid g :
  SPEC (_pid_is_running pid) g (fun g' r => after None g g' /\
    (r = Ok (Some false) -> exists e, g' = Ev (Kill pid) (Raise e) :: g /\ raises "ProcessLookupError" e = true)).
Proof.
  unfold _pid_is_running. destruct (pid <=? 0)%Z; [go; split; [grows | done]|].
  apply spec_try. goes. all: split; [grows|]; try done.
  intros _. by exists e.
Qed.

Lemma expired_stale fd bytes g h : int_of_str (py_strip (decode_replace bytes)) = None ->
  held fd (Ev (ReadChunk fd 64) (Ok bytes) :: h) = true -> after None g h ->
  SPEC (_lock_is_expired fd) (Ev (ReadChunk fd 64) (Ok bytes) :: h) (fun g' r =>
    after None g g' /\ (r = Ok true -> stale fd g')).
Proof.
  intros Ht Hf Hg. eapply spec_mono; [by apply expired_spec|]. intros g' r _ [Ha H]. split; [grows|].
  intros ->. destruct (H eq_refl) as (s & now & -> & Hx). right. by exists bytes, s, now, h.
Qed.

Lemma stale_spec fd g : held fd g = true ->
  SPEC (_lock_is_stale fd) g (fun g' r => after None g g' /\ (r = Ok true -> stale fd g')).
Proof.
  intros Hf. unfold _lock_is_stale. goes.
  all: try (split; [grows|]; done).
  - apply expired_stale; [by rewrite Heql | is_held | grows].
  - eapply spec_mono; [apply pid_spec|]. intros g' [running|e] _ [Ha H]; goes; (split; [grows|]); [|done].
    intros [= Hx%bool_decide_eq_true]. subst running. destruct (H eq_refl) as (e & -> & He). left.
    exists x1, z, e. eexists. split; [done|]. by rewrite Heql.
  - apply expired_stale; [by rewrite Heql | is_held | grows].
Qed.

Lemma unlink_lock d fd g : at_leaf d g -> matched components d fd g ->
  (answered (CreateExcl d lock) (Ok fd) (closes fd) g \/ abandoned components d fd g) ->
  guard base components goal g (UnlinkAt d lock).
Proof. intros Hd Hm Ho. split; [done|]. right. right. split; [done|]. split; [done|]. by exists fd. Qed.

Lemma reclaim_spec d g : at_leaf d g ->
  SPEC (_reclaim_lock_if_stale d lock) g (fun g' _ => after None g g').
Proof.
  intros Hd. pose proof (anchored_held _ _ _ _ _ Hd). unfold _reclaim_lock_if_stale. do 4 go; [|goes; grows].
  go. cbn beta iota. opening Ho Hn.
  apply (spec_scoped _ _ _ x _ g); [done|done|]. set (g1 := Ev (OpenLock d lock) (Ok x) :: g) in *. clearbody g1.
  assert (Hd1 : at_leaf d g1) by by apply (anchored_after _ _ _ _ _ _ _ Ho).
  goes; try (split; [grows | done]).
  eapply spec_mono; [apply matches_spec; [anchors | is_held]|]. intros g2 r2 _ [Ha2 (m1 & -> & H2)]; goes; try (split; [grows | done]).
  eapply spec_mono; [apply stale_spec; is_held|]. intros g3 [st|e] _ [Ha3 H3]; goes; try (split; [grows | done]).
  eapply spec_mono; [apply matches_spec; [anchors | is_held]|]. intros g4 r4 _ [Ha4 (m2 & -> & H4)]; goes; try (split; [grows | done]).
  destruct (H4 eq_refl) as (a & b & -> & Hk), x0. apply (unlink_lock _ x); [anchors | by exists a, b, g3|]. right.
  repeat split; [|by exists a, b, g3 | by exists (Ev (Fstat x) (Ok a)), (Ev (StatAt d lock) (Ok b)), g3; auto].
  assert (Hg : after None (Ev (FlockTry x) (Ok tt) :: g1) (Ev (StatAt d lock) (Ok b) :: Ev (Fstat x) (Ok a) :: g3)) by grows.
  apply (since_after _ _ _ _ _ Hg); [is_held|]. left. by eexists.
Qed.

Abbreviation leaf := (LocalMonitor.leaf components).

Lemma exists_spec d n g : at_leaf d g -> known components n ->
  SPEC (_entry_exists d n) g (fun g' r => after None g g' /\
    (r = Ok false -> exists e, g' = Ev (StatAt d n) (Raise e) :: g /\ is_os_error e = true)).
Proof.
  intros Hd Hk. pose proof (anchored_held _ _ _ _ _ Hd). unfold _entry_exists. goes.
  all: split; [grows|]; try done. intros _. by exists e.
Qed.

Lemma identity_spec d g : at_leaf d g ->
  SPEC (_entry_identity d leaf) g (fun g' r => after None g g' /\
    exists o, r = Ok o /\ forall i, o = Some i ->
      exists s : stat_result, g' = Ev (StatAt d leaf) (Ok s) :: g /\ identity_of s = i).
Proof.
  intros Hd. pose proof (anchored_held _ _ _ _ _ Hd). unfold _entry_identity. goes; try (simpl in Hfit; congruence).
  all: (split; [grows|]); eexists; (split; [reflexivity|]); intros i [= <-].
  by exists x.
Qed.

(** The lock file was created by the last call. *)
Lemma take_lock_spec n d display reclaim g : at_leaf d g ->
  SPEC (take_lock n d leaf display reclaim) g (fun g' r =>
    match r with
    | Ok fd => exists g1, after None g g1 /\ g' = Ev (CreateExcl d lock) (Ok fd) :: g1
    | Raise _ => after None g g'
    end).
Proof.
  revert g; induction n as [|n IH]; intros g Hd; [apply spec_hang|].
  pose proof (anchored_held _ _ _ _ _ Hd). cbn [take_lock]. change (lock_name_of leaf) with lock. goes; try grows.
  - exists g. split; [grows | done].
  - eapply spec_mono; [apply exists_spec; [anchors | by left]|]. intros g1 [there|e1] _ [Ha1 _]; goes; try grows;
      (eapply spec_mono; [apply reclaim_spec; anchors|]; intros g2 [freed|e2] _ Ha2; goes; try grows).
    all: eapply spec_mono; [apply IH; anchors|]; intros g3 [fd|e3] _ H3; [|grows].
    all: destruct H3 as (g4 & Ha4 & ->); exists g4; split; [grows | done].
Qed.

(** Giving the lock back. *)
Definition release (d fd : Z) : IO unit :=
  matches ← _lock_path_matches_fd d lock fd;
  (if (matches : bool) then suppress is_os_error (act (UnlinkAt d lock)) else mret tt) ;;
  act (CloseFd fd).

Lemma lock_release_spec d fd g g1 g2 : at_leaf d g -> after (Some fd) g g1 -> held fd g = false -> after None g1 g2 ->
  answered (CreateExcl d lock) (Ok fd) (closes fd) g1 ->
  SPEC (release d fd) g2 (fun g3 _ => after None g g3 /\ exists tr, g3 = tr ++ g2).
Proof.
  intros Hd Ho Hn Ha Hc. assert (Hd1 : at_leaf d g1) by by apply (anchored_after _ _ _ _ _ _ _ Ho).
  assert (Hd2 : at_leaf d g2) by anchors. assert (Hf2 : held fd g2 = true) by is_held.
  assert (Hc2 : answered (CreateExcl d lock) (Ok fd) (closes fd) g2) by (apply (since_after _ _ _ _ _ Ha); [is_held | done]).
  assert (Hclose : forall g3, after None g2 g3 ->
    SPEC (act (CloseFd fd)) g3 (fun g4 _ => after None g g4 /\ exists tr, g4 = tr ++ g2)).
  { intros g3 Ha3. apply (spec_close _ _ _ _ g g1); [done|done|grows|]. intros Hg. split; [done|].
    destruct Ha3 as [(tr & -> & _) _]. by exists (Ev (CloseFd fd) (Ok tt) :: tr). }
  unfold release. go. eapply spec_mono; [by apply matches_spec|]. intros g3 r Hs [Ha3 (m & -> & H3)].
  pose proof (anchored_held _ _ _ _ _ Hd2).
  destruct m; goes; try (apply Hclose; grows); [|simpl in Hfit; congruence].
  destruct (H3 eq_refl) as (a & b & -> & Hk). apply (unlink_lock _ fd); [anchors | by exists a, b, g2|]. left.
  apply (since_after _ _ _ _ _ Ha3); done.
Qed.

Lemma publish_lock_spec {A} d display reclaim (body : IO A) (B : history -> A -> Prop) g : at_leaf d g ->
  (forall g1 fd, after (Some fd) g g1 -> at_leaf d g1 -> locked components d g1 ->
     SPEC body g1 (fun g2 r => after None g1 g2 /\ forall x, r = Ok x -> B g2 x)) ->
  (forall ev h x, B h x -> B (ev :: h) x) ->
  SPEC (_publish_lock fuel d leaf display reclaim body) g (fun g' r =>
    after None g g' /\ forall x, r = Ok x -> B g' x).
Proof.
  intros Hd Hbody Hmono. unfold _publish_lock. change (lock_name_of leaf) with lock. go.
  eapply spec_mono; [by apply take_lock_spec|]. intros g1 [fd|e] Hs H1; [|done]. destruct H1 as (g0 & Ha0 & ->).
  cbn beta iota. opening Ho Hn. set (g1 := Ev (CreateExcl d lock) (Ok fd) :: g0) in *.
  assert (Ho' : after (Some fd) g g1) by by apply (after_trans _ _ g0).
  assert (Hn' : held fd g = false) by (destruct (held fd g) eqn:Hf; [by rewrite (after_held _ _ _ _ Ha0 Hf) in Hn | done]).
  assert (Hd1 : at_leaf d g1) by by apply (anchored_after _ _ _ _ _ _ _ Ho').
  assert (Hc1 : answered (CreateExcl d lock) (Ok fd) (closes fd) g1) by (left; by eexists).
  apply spec_finally. fold (release d fd).
  apply (spec_mono _ _ _ _ _ (fun g2 r => after None g1 g2 /\ forall x, r = Ok x -> B g2 x)).
  - goes; try (split; [grows | done]).
    eapply spec_mono; [apply matches_spec; [anchors | is_held]|]. intros g2 r _ [Ha2 (m & -> & H2)]; goes; try (split; [grows | done]).
    destruct (H2 eq_refl) as (a & b & -> & Hk), x, x1.
    eapply spec_mono; [apply (Hbody _ fd); [apply (after_then _ _ g1); [done | grows] | anchors | by exists a, b, fd, x0, g0]|].
    intros g3 r _ [Ha3 HB]. split; [grows | done].
  - intros g2 r _ [Ha2 HB]. eapply spec_mono; [by apply (lock_release_spec _ _ g g1)|].
    intros g3 r' _ [Ha3 (tr & ->)]. split; [done|]. intros x Hx. destruct r'; [|done].
    clear Ha3. induction tr; [by apply HB | by apply Hmono].
Qed.

End locks.

(** ** Walks from the base stay within the monitor

    One component at a time, each opened in the directory before it without
    following a link, the descriptor of the last one only held open. *)

Section walk.
Context {DB : UnicodeDB} (base : list N) (components : list (list N)) (goal : task).

Abbreviation SPEC := (spec base components goal).
Abbreviation at_depth := (anchored base components).

Lemma child_opened n d c fd g g1 : components !! n = Some c -> at_depth n d g -> after None g g1 ->
  sane (Ev (OpenDir (Some d) c true) (Ok fd) :: g1) = true ->
  after (Some fd) g (Ev (OpenDir (Some d) c true) (Ok fd) :: g1) /\ held fd g = false /\
  at_depth (S n) fd (Ev (OpenDir (Some d) c true) (Ok fd) :: g1).
Proof.
  intros Hc Hd Ha Hs. destruct (after_open fd (Ev (OpenDir (Some d) c true) (Ok fd)) g g1 eq_refl Hs Ha) as [Ho Hn]. split; [done|]. split; [done|].
  left. exists c, d, g1. split; [done|]. split; [done|]. by apply (anchored_after _ _ _ _ None g).
Qed.

Lemma child_spec n d c display create action g : components !! n = Some c -> n < depth components ->
  at_depth n d g -> (create = true -> exists src, goal = Publish src) ->
  SPEC (_open_or_create_child_dir d c display create action) g (fun g' r =>
    match r with
    | Ok fd => after (Some fd) g g' /\ held fd g = false /\ at_depth (S n) fd g'
    | Raise _ => after None g g'
    end).
Proof.
  intros Hc Hn Hd Hcr. pose proof (anchored_held _ _ _ _ _ Hd).
  assert (Hstep : forall g1, after None g g1 -> step_allowed base components d c g1).
  { intros g1 Ha. exists n. split; [done|]. split; [done|]. anchors. }
  unfold _open_or_create_child_dir, _reraise_ancestor_failure. goes; try grows.
  all: try (apply (child_opened n); done || grows).
  all: split; [auto|]; apply Hstep; grows.
Qed.

Lemma last_leaf n name : drop n components = [name] -> n = depth components /\ name = leaf components.
Proof.
  intros H. assert (Hl : length components = S n).
  { apply (f_equal length) in H. rewrite length_drop in H. simpl in H. lia. }
  split; [unfold depth; lia|]. unfold leaf. rewrite <- (take_drop n components), H. by rewrite List.last_last.
Qed.
Lemma not_last n c c' rest : drop n components = c :: c' :: rest ->
  components !! n = Some c /\ n < depth components /\ drop (S n) components = c' :: rest.
Proof.
  intros H. assert (Hc : components !! n = Some c) by (rewrite <- (Nat.add_0_r n), <- lookup_drop, H; done).
  split; [done|]. split.
  - apply (f_equal length) in H. rewrite length_drop in H. simpl in H. unfold depth. lia.
  - pose proof (drop_S _ _ _ Hc) as Hd. rewrite H in Hd. by injection Hd.
Qed.

Section descent.
Context {A : Type} (action : list N) (create : bool) (body : Z -> list N -> IO A).
Context (C : history -> A -> Prop) (g0 : history).
Context (Hcr : create = true -> exists src, goal = Publish src).
Context (Hbody : forall g1 d, after (Some d) g0 g1 -> at_depth (depth components) d g1 ->
  SPEC (body d (leaf components)) g1 (fun g2 r => after None g1 g2 /\ forall x, r = Ok x -> C g2 x)).
Context (HC : forall fd h x, C h x -> C (Ev (CloseFd fd) (Ok tt) :: h) x).

Lemma descend_spec display rest n d g : drop n components = rest -> rest <> [] ->
  after (Some d) g0 g -> held d g0 = false -> at_depth n d g ->
  SPEC (descend d rest display create action body) g (fun g' r =>
    after None g0 g' /\ forall x, r = Ok x -> C g' x).
Proof.
  revert n d g; induction rest as [|c rest IH]; intros n d g Hr Hne Ho Hn Hd; [done|].
  destruct rest as [|c' rest].
  - destruct (last_leaf _ _ Hr) as [-> ->]. cbn [descend]. apply (spec_scoped _ _ _ d _ g0); [done|done|].
    eapply spec_mono; [by apply Hbody|]. intros g2 r _ [Ha HC2]. split; [done|]. intros Hc. split; [done|]. auto.
  - destruct (not_last _ _ _ _ Hr) as (Hc & Hlt & Hr'). cbn [descend]. go. go.
    eapply spec_mono; [by apply (child_spec n)|]. intros g1 [next|e] _ H1.
    + destruct H1 as (Ho1 & Hn1 & Hd1). go. go. apply spec_act; [uses_held | exact I | intros [[]|e] Hf Hs; [|done]].
      destruct (after_swap d next (Ok tt) g0 g g1) as (Ho2 & Hn2 & Hne2); [done..|].
      apply (IH (S n)); try done. right. split; [by apply bool_decide_eq_false | done].
    + closing Hcl. split; [done|]. done.
Qed.

Lemma anchored_publication_spec cwd supported dst :
  (forall relative, relpath cwd dst base = Ok relative -> components = split_on slash relative) ->
  SPEC (_anchored_publication cwd supported base dst create action body) g0 (fun g' r =>
    after None g0 g' /\ forall x, r = Ok x -> C g' x).
Proof.
  intros Hcomp. unfold _anchored_publication.
  destruct supported, (relpath cwd dst base) as [relative|e]; goes; try (split; [grows | done]).
  rewrite <- (Hcomp relative eq_refl). opening Ho Hn. apply (descend_spec _ components 0); try done.
  - rewrite (Hcomp relative eq_refl). apply split_on_nonempty.
  - left. by eexists.
Qed.

End descent.

End walk.
