(* ===== verification/LocalPublish.v ===== *)
(** * Publication stays within the monitor *)

From Stdlib Require Import ZArith Lia Bool String SpecFloat.
From S2P Require Import Prelude PyStr PyNum PyInt PyOs LibraryRoots Histories LocalIO LocalFileSystem LocalMonitor LocalSpecs LocalLocks.

#[local] Open Scope bool_scope.

Section publish.
Context {DB : UnicodeDB} (base : list N) (components : list (list N)) (src : list N).
Context (fuel : nat) (sha256 : list N -> list N).

Abbreviation SPEC := (spec base components (Publish src)).
Abbreviation at_leaf := (anchored base components (depth components)).
Abbreviation lock := (LocalMonitor.lock components).
Abbreviation leaf := (LocalMonitor.leaf components).

Lemma own_temp_after d tmp g g' new : at_leaf d g -> after new g g' -> own_temp components d tmp g -> own_temp components d tmp g'.
Proof.
  intros Hd Ha [Ht (fd & H)]. split; [done|]. exists fd.
  apply (since_after _ _ _ _ _ Ha); [by apply (anchored_held _ _ _ _ _ Hd) | done].
Qed.

Lemma publish_temp_spec d tmp display g : at_leaf d g -> own_temp components d tmp g ->
  SPEC (_publish_temp_no_overwrite fuel d tmp leaf display) g (fun g' r => after None g g' /\
    forall x, r = Ok x -> occurs (Ev (LinkAt d tmp leaf) (Ok tt)) g' \/ occurs (Ev (RenameAt d tmp leaf) (Ok tt)) g').
Proof.
  intros Hd Ht. unfold _publish_temp_no_overwrite. apply publish_lock_spec; [done|done| |].
  - intros g1 fd Ho Hd1 Hl. pose proof (anchored_held _ _ _ _ _ Hd1). pose proof (own_temp_after _ _ _ _ _ Hd Ho Ht) as Ht1.
    go. eapply spec_mono; [apply exists_spec; [done | by left]|]. intros g2 [there|e] _ [Ha2 H2]; goes; try (split; [grows | done]).
    + destruct (H2 eq_refl) as (e2 & -> & He). repeat split; try apply Ht1; [by exists src | anchors | |by exists e2, g1].
      apply (own_temp_after _ _ g1 _ None); [done | grows | done].
    + split; [anchors|]. right; left. split; [done|]. apply (own_temp_after _ _ g1 _ None); [done | grows | done].
    + split; [grows|]. intros; left. occurred.
    + split; [grows|]. intros; left. occurred.
    + destruct (H2 eq_refl) as (e2 & -> & He). repeat split; try apply Ht1; [by exists src | anchors | |].
      * apply (own_temp_after _ _ g1 _ None); [done | grows | done].
      * exists e. eexists. split; [reflexivity|]. by exists e2, g1.
    + split; [grows|]. intros; right. occurred.
  - intros ev h x [H|H]; [left|right]; by right.
Qed.

Lemma open_source_spec display g :
  SPEC (_open_regular_source src display) g (fun g' r =>
    match r with
    | Ok fd => after (Some fd) g g' /\ held fd g = false /\ occurs (Ev (OpenRead None src) (Ok fd)) g'
    | Raise _ => after None g g'
    end).
Proof.
  unfold _open_regular_source. do 3 go; [|goes; grows].
  opening Ho Hn. goes.
  - closing Hc. goes. done.
  - split; [grows | split; [done | occurred]].
  - closing Hc. goes. done.
  - simpl in Hfit0. congruence.
Qed.

Lemma publish_link_spec d source_fd display g : at_leaf d g -> held source_fd g = true ->
  occurs (Ev (OpenRead None src) (Ok source_fd)) g ->
  SPEC (_publish_link_no_overwrite fuel src source_fd d leaf display) g (fun g' r => after None g g' /\
    forall i, r = Ok i -> linked components src i g').
Proof.
  intros Hd Hs Hopen. unfold _publish_link_no_overwrite. go. go; [|split; [grows | done]].
  set (g1 := Ev (Fstat source_fd) (Ok x) :: g) in *.
  assert (Hd1 : at_leaf d g1) by (apply (anchored_after _ _ _ _ None g); [grows | done]).
  go. eapply spec_mono; [apply (publish_lock_spec base components (Publish src) fuel ltac:(done) _ _ _ _ (fun h _ => occurs (Ev (LinkPath src d leaf) (Ok tt)) h)); [done| |]|].
  - intros g2 lfd Ho Hd2 Hl. pose proof (anchored_held _ _ _ _ _ Hd2). goes; try (split; [grows | done]).
    + repeat split; anchors || done.
    + eapply spec_mono; [apply identity_spec; anchors|]. intros g3 r _ [Ha3 (o & -> & _)]. goes.
      split; [grows|]. intros y _. occurred.
  - intros ev h y H. by right.
  - intros g2 [b|e] _ [Ha2 H2]; goes; (split; [grows|]); try done. intros i [= <-].
    exists d, source_fd, x. repeat split; [by apply (H2 true) | occurred | occurred].
Qed.

(** Copying works on two open descriptors. *)
Lemma copy_xattrs_spec source_fd target_fd g : held source_fd g = true -> held target_fd g = true ->
  SPEC (_copy_xattrs source_fd target_fd) g (fun g' _ => after None g g').
Proof.
  intros Hs Ht. unfold _copy_xattrs. goes; try grows.
  all: assert (Hl : forall l g1, after None g g1 -> SPEC (for_each (copy_xattr source_fd target_fd) l) g1 (fun g' _ => after None g g')).
  all: try (intros l; induction l as [|n l IH]; intros g1 Ha; [apply spec_ret; grows|]; cbn [for_each]; go;
    unfold copy_xattr; goes; try (apply IH); grows).
  all: apply Hl; grows.
Qed.

Lemma copy_contents_spec source_fd target_fd g : held source_fd g = true -> held target_fd g = true ->
  SPEC (_copy_contents source_fd target_fd) g (fun g' _ => after None g g').
Proof.
  intros Hs Ht. unfold _copy_contents. goes; try grows.
  eapply spec_mono; [apply copy_xattrs_spec; is_held|]. intros g1 [[]|e] _ Ha; goes; grows.
Qed.

Lemma available_spec p g : SPEC (available_bytes p) g (fun g' _ => after None g g').
Proof.
  unfold available_bytes. generalize (S (length p)) as n. intros n. go.
  assert (H : forall n p g1, after None g g1 -> SPEC (existing_ancestor n p) g1 (fun g' _ => after None g g')).
  { clear n p. intros n; induction n as [|n IH]; intros p g1 Ha; [apply spec_hang|]. cbn [existing_ancestor]. goes; try apply IH; grows. }
  eapply spec_mono; [apply H; grows|]. intros g1 [q|e] _ Ha; goes; grows.
Qed.

(** The copy, from the temporary file to the entry. *)
Lemma copy_body_spec dst d source_fd tmp_fd tmp size g : at_leaf d g -> held source_fd g = true -> held tmp_fd g = true ->
  occurs (Ev (CreateExcl d tmp) (Ok tmp_fd)) g -> own_temp components d tmp g ->
  SPEC (_copy_contents source_fd tmp_fd ;;
        temp_info ← perform (Fstat tmp_fd);
        copied ← perform (Fstat tmp_fd);
        if negb (st_size copied =? size)%Z then throw OSError
        else
          _publish_temp_no_overwrite fuel d tmp leaf dst ;;
          mret (identity_of temp_info, tmp_fd)) g (fun g' r =>
    after None g g' /\ forall i fd, r = Ok (i, fd) -> fd = tmp_fd /\ copied components i g').
Proof.
  intros Hd Hs Ht Hc Hown. pose proof (anchored_held _ _ _ _ _ Hd). go.
  eapply spec_mono; [by apply copy_contents_spec|]. intros g1 [[]|e] _ Ha1; [|split; [grows | done]].
  goes; try (split; [grows | done]).
  eapply spec_mono; [apply publish_temp_spec; [anchors|]|].
  - apply (own_temp_after _ _ g _ None); [done | grows | done].
  - intros g2 [[]|e] _ [Ha2 H2]; goes; (split; [grows|]); [|done]. intros i fd [= <- <-]. split; [done|].
    exists d, tmp, tmp_fd, x. repeat split; [apply Hown | occurred | by apply (H2 tt) | occurred].
Qed.

Lemma copy_spec dst d source_fd g : at_leaf d g -> held source_fd g = true ->
  SPEC (_copy_no_overwrite fuel src dst source_fd d leaf) g (fun g' r =>
    match r with
    | Ok (i, fd) => after (Some fd) g g' /\ held fd g = false /\ copied components i g'
    | Raise _ => after None g g'
    end).
Proof.
  intros Hd Hs. pose proof (anchored_held _ _ _ _ _ Hd). unfold _copy_no_overwrite. go. go; [|grows]. go.
  eapply spec_mono; [apply available_spec|]. intros g1 [free|e] _ Ha1; [|grows].
  go; [goes; grows|]. go. go; [|grows]. go.
  set (tmp := lit "." ++ leaf ++ lit "." ++ x0 ++ lit ".tmp") in *.
  assert (Ht : temp_name components tmp) by by exists x0. go; [| |grows].
  { split; [anchors|]. right. split; [by exists src | done]. }
  set (g2 := Ev RandomHex (Ok x0) :: g1) in *.
  assert (Ha2 : after None g g2) by grows. opening Ho Hn0.
  assert (Ho2 : after (Some x1) g (Ev (CreateExcl d tmp) (Ok x1) :: g2)) by grows.
  assert (Hn : held x1 g = false) by by apply (not_held _ _ _ _ Ha2).
  assert (Hd2 : at_leaf d (Ev (CreateExcl d tmp) (Ok x1) :: g2)) by by apply (anchored_after _ _ _ _ _ _ _ Ho2).
  assert (Hown : own_temp components d tmp (Ev (CreateExcl d tmp) (Ok x1) :: g2)) by (split; [done|]; exists x1; left; by eexists).
  go. eapply spec_mono; [apply copy_body_spec; [done | is_held | is_held | occurred | done]|].
  intros g3 [[i fd]|e] _ [Ha3 H3].
  - destruct (H3 i fd eq_refl) as [-> Hc]. split; [grows | split; done].
  - go. closing Hc. goes; try grows. split; [anchors|]. right; left. split; [done|]. split; [done|]. exists x1.
    right. split; [apply bool_decide_eq_false; intros ->; congruence|].
    apply (since_after _ None _ (Ev (CreateExcl d tmp) (Ok x1) :: g2)); [done | is_held | left; by eexists].
Qed.

(** ** What is already there *)

Lemma reads_other fd fd' g g' : fd <> fd' -> extends (moves fd) g g' ->
  text_read fd' g' = text_read fd' g /\ (at_end fd' g -> at_end fd' g').
Proof.
  intros Hne Hx. split.
  - destruct Hx as (tr & -> & Htr). induction Htr as [|[c r] tr Hc Htr IH]; [done|].
    destruct c; try discriminate Hc; simpl in Hc; apply bool_decide_eq_true in Hc as <-; simpl;
      rewrite (bool_decide_eq_false_2 (fd0 = fd')) by done; [done|]. destruct r; [by rewrite app_nil_r | done].
  - apply since_extends with (moves fd); [|done]. intros c Hc.
    destruct c; try done; simpl in *; apply bool_decide_eq_true in Hc as <-; by apply bool_decide_eq_false.
Qed.

Lemma read_all_spec n fd acc g0 g : held fd g0 = true -> after None g0 g -> text_read fd g = acc -> extends (moves fd) g0 g ->
  SPEC (read_all n fd acc) g (fun g' r => after None g0 g' /\ extends (moves fd) g0 g' /\
    forall t, r = Ok t -> text_read fd g' = t /\ at_end fd g').
Proof.
  intros Hh. revert acc g; induction n as [|n IH]; intros acc g Ha Ht Hx; [apply spec_hang|]. cbn [read_all].
  assert (Hm : forall r, extends (moves fd) g0 (Ev (ReadChunk fd _DIGEST_CHUNK_BYTES) r :: g))
    by (intros r; apply extends_cons; [by apply bool_decide_eq_true | done]).
  goes.
  - split; [grows|]. split; [done|]. intros t [= <-]. apply bool_decide_eq_true in Heqb as ->. split.
    + simpl. rewrite bool_decide_true by done. by rewrite app_nil_r.
    + left. by eexists.
  - apply IH; [grows | | done]. simpl. rewrite bool_decide_true by done. by rewrite Ht.
  - split; [grows|]. split; [done|]. done.
Qed.

Lemma digest_spec fd g : held fd g = true ->
  SPEC (_fd_digest sha256 fuel fd) g (fun g' r => after None g g' /\ extends (moves fd) g g' /\
    forall t, r = Ok t -> t = sha256 (text_read fd g') /\ at_end fd g').
Proof.
  intros Hh. unfold _fd_digest.
  assert (Hm : forall r, extends (moves fd) g (Ev (SeekStart fd) r :: g))
    by (intros r; apply extends_cons; [by apply bool_decide_eq_true | apply extends_refl]).
  goes; [|by split; [grows|]].
  eapply spec_mono; [apply (read_all_spec _ _ _ g); [done | grows | | done]|].
  - simpl. by rewrite bool_decide_true.
  - intros g1 [t|e] _ (Ha & Hx & H); goes; (split; [grows|]); (split; [done|]); intros t' [= <-]. by destruct (H t eq_refl) as [-> ?].
Qed.

(** The comparison of two open files. *)
Lemma compare_spec d fd source_fd g : fd <> source_fd -> held fd g = true -> held source_fd g = true ->
  occurs (Ev (OpenRead (Some d) leaf) (Ok fd)) g -> occurs (Ev (OpenRead None src) (Ok source_fd)) g ->
  SPEC (catching is_os_error
          (entry_stat ← perform (Fstat fd);
           source_stat ← perform (Fstat source_fd);
           if negb (bool_decide (st_kind entry_stat = Regular)) then mret None
           else if bool_decide (identity_of entry_stat = identity_of source_stat) then
             mret (Some (identity_of entry_stat))
           else if negb (st_size entry_stat =? st_size source_stat)%Z then mret None
           else
             entry_digest ← _fd_digest sha256 fuel fd;
             source_digest ← _fd_digest sha256 fuel source_fd;
             mret (if bool_decide (entry_digest = source_digest) then Some (identity_of entry_stat) else None))
          (fun _ => mret None)) g (fun g' r =>
    after None g g' /\ forall i, r = Ok (Some i) -> was_there components sha256 src i g').
Proof.
  intros Hne Hf Hs He Ho. goes; try (split; [grows | done]).
  - apply negb_false_iff, bool_decide_eq_true in Heqb. apply bool_decide_eq_true in Heqb0.
    split; [grows|]. intros i [= <-]. exists d, fd, source_fd, x, x0.
    split; [occurred|]. split; [occurred|]. split; [occurred|]. split; [occurred|]. split; [done|]. split; [done|]. by left.
  - apply negb_false_iff, bool_decide_eq_true in Heqb. apply negb_false_iff, Z.eqb_eq in Heqb1.
    eapply spec_mono; [apply digest_spec; is_held|]. intros g1 [t|e] _ (Ha1 & Hx1 & H1); goes; try (split; [grows | done]).
    eapply spec_mono; [apply digest_spec; is_held|]. intros g2 [t'|e] _ (Ha2 & Hx2 & H2); goes; try (split; [grows | done]).
    split; [grows|]. intros i Hi. destruct (H1 t eq_refl) as [-> Hend1], (H2 t' eq_refl) as [-> Hend2].
    destruct (reads_other source_fd fd g1 g2) as [Htext Hkeep]; [done|done|].
    case_bool_decide as Hdig; [|done]. injection Hi as <-. exists d, fd, source_fd, x, x0.
    split; [occurred|]. split; [occurred|]. split; [occurred|]. split; [occurred|]. split; [done|]. split; [done|].
    right. split; [done|]. exists [], g2. rewrite Htext. auto.
Qed.

Lemma entry_matches_spec d source_fd g : at_leaf d g -> held source_fd g = true ->
  occurs (Ev (OpenRead None src) (Ok source_fd)) g ->
  SPEC (_entry_matches_source sha256 fuel source_fd d leaf) g (fun g' r =>
    match r with
    | Ok (Some (i, fd)) => after (Some fd) g g' /\ held fd g = false /\ was_there components sha256 src i g'
    | _ => after None g g'
    end).
Proof.
  intros Hd Hs Hopen. pose proof (anchored_held _ _ _ _ _ Hd). unfold _entry_matches_source.
  go. go. go. go; [|simpl in Hfit; goes; grows]. go. cbn beta iota. go; [goes; grows|]. do 4 go; [|goes; grows].
  go. cbn beta iota. set (g1 := Ev (StatAt d leaf) (Ok x) :: g) in *. assert (Ha1 : after None g g1) by grows.
  opening Ho Hn0. assert (Hn : held x0 g = false) by by apply (not_held _ _ _ _ Ha1).
  set (g2 := Ev (OpenRead (Some d) leaf) (Ok x0) :: g1) in *. assert (Ho2 : after (Some x0) g g2) by grows.
  assert (He : occurs (Ev (OpenRead (Some d) leaf) (Ok x0)) g2) by occurred.
  assert (Hopen2 : occurs (Ev (OpenRead None src) (Ok source_fd)) g2) by (by apply (occurs_after _ _ _ _ Ho2)). clearbody g2.
  go. go. eapply spec_mono; [apply (compare_spec d); [intros ->; congruence | is_held | is_held | done | done]|].
  intros g3 [[i|]|e] _ [Ha3 H3].
  - go. split; [grows|]. split; [done|]. by apply H3.
  - go. closing Hc. goes. done.
  - closing Hc. done.
Qed.

Lemma conflict_spec d source_fd display g : at_leaf d g -> held source_fd g = true ->
  occurs (Ev (OpenRead None src) (Ok source_fd)) g ->
  SPEC (_idempotent_or_conflict sha256 fuel source_fd d leaf display) g (fun g' r =>
    match r with
    | Ok (i, fd) => after (Some fd) g g' /\ held fd g = false /\ was_there components sha256 src i g'
    | Raise _ => after None g g'
    end).
Proof.
  intros Hd Hs Hopen. unfold _idempotent_or_conflict. go. eapply spec_mono; [by apply entry_matches_spec|].
  intros g1 [[[i fd]|]|e] _ H1; goes; done.
Qed.

(** ** Publication *)

(** How the entry came to be. *)
Definition origin (placed : bool) (i : PublishedFileIdentity) (h : history) : Prop :=
  if placed then made components src i h else was_there components sha256 src i h.

Lemma made_app tr i g : made components src i g -> made components src i (tr ++ g).
Proof.
  intros [(d & fd & s & H1 & H2 & H3 & H4)|(d & tmp & fd & s & H1 & H2 & H3 & H4 & H5)].
  - left. exists d, fd, s. repeat split; try done; by apply occurs_app.
  - right. exists d, tmp, fd, s. repeat split; try done; try (by apply occurs_app).
    destruct H3 as [H3|H3]; [left|right]; by apply occurs_app.
Qed.
Lemma was_there_app tr i g : was_there components sha256 src i g -> was_there components sha256 src i (tr ++ g).
Proof.
  intros (d & fd & sfd & s & s' & H1 & H2 & H3 & H4 & H5 & H6 & H7). exists d, fd, sfd, s, s'.
  repeat (split; [first [done | by apply occurs_app]|]).
  destruct H7 as [H7|[Hz (tr' & h' & -> & H8)]]; [by left|]. right. split; [done|].
  exists (tr ++ tr'), h'. by rewrite <- app_assoc.
Qed.
Lemma origin_app tr placed i g : origin placed i g -> origin placed i (tr ++ g).
Proof. destruct placed; [apply made_app | apply was_there_app]. Qed.
Lemma origin_after new placed i g g' : after new g g' -> origin placed i g -> origin placed i g'.
Proof. intros [(tr & -> & _) _]. apply origin_app. Qed.
Lemma made_after new i g g' : after new g g' -> made components src i g -> made components src i g'.
Proof. apply (origin_after new true). Qed.

Section paths.
Context (cwd dst : list N) (supported : bool).
Context (Hcomp : forall relative, relpath cwd dst base = Ok relative -> components = split_on slash relative).

Lemma verified_close i fd r h : verified base components i h -> verified base components i (Ev (CloseFd fd) r :: h).
Proof. intros H. by right. Qed.

Lemma lexical_spec g :
  SPEC (_anchored_publication cwd supported base dst false (lit "publish") _entry_identity) g (fun g' r =>
    after None g g' /\ forall o, r = Ok o -> forall i, o = Some i -> verified base components i g').
Proof.
  apply (anchored_publication_spec _ _ _ _ _ _ (fun h o => forall i, o = Some i -> verified base components i h))
   ; try done.
  - intros g1 d Ho Hd. eapply spec_mono; [by apply identity_spec|]. intros g2 r _ [Ha (o & -> & H)].
    split; [done|]. intros o' [= <-] i Hi. destruct (H i Hi) as (s & -> & Hs). left. by exists d, s, g1.
  - intros fd h o H i Hi. by apply verified_close, H.
Qed.

Lemma roll_back_spec d i placed (err : bool -> exn) g : at_leaf d g -> (placed = true -> made components src i g) ->
  SPEC (rolled_back ←
          (if placed then
             found ← _entry_identity d leaf;
             if bool_decide (found = Some i) then
               catching is_os_error (act (UnlinkAt d leaf) ;; mret true) (fun _ => mret false)
             else mret false
           else mret false);
        throw (err rolled_back)) g (fun g' r => after None g g' /\ forall x : unit, r = Ok x -> verified base components i g').
Proof.
  intros Hd Hm. pose proof (anchored_held _ _ _ _ _ Hd). go. destruct placed; [|goes; by split; [grows|]].
  go. eapply spec_mono; [by apply identity_spec|]. intros g1 r _ [Ha (o & -> & H1)]. goes; try (split; [grows | done]).
  split; [anchors|]. left. split; [done|]. exists i. apply bool_decide_eq_true in Heqb as ->.
  split; [by apply (made_after _ _ _ _ Ha), Hm|]. destruct (H1 i eq_refl) as (s & -> & Hs). by exists s, g.
Qed.

Lemma verify_spec d i placed g : at_leaf d g -> (placed = true -> made components src i g) ->
  SPEC (_verify_lexical_publication cwd supported base dst d leaf i placed) g (fun g' r => after None g g' /\
    forall x, r = Ok x -> verified base components i g').
Proof.
  intros Hd Hm. unfold _verify_lexical_publication. go. go.
  assert (Hback : forall g1 err, after None g g1 -> SPEC (rolled_back ←
          (if placed then
             found ← _entry_identity d leaf;
             if bool_decide (found = Some i) then
               catching is_os_error (act (UnlinkAt d leaf) ;; mret true) (fun _ => mret false)
             else mret false
           else mret false);
        throw (err rolled_back)) g1 (fun g' r => after None g g' /\ forall x : unit, r = Ok x -> verified base components i g')).
  { intros g1 err Ha. eapply spec_mono; [apply roll_back_spec; [anchors|]|].
    - intros Hp. by apply (made_after _ _ _ _ Ha), Hm.
    - intros g2 r _ [Ha2 H2]. split; [grows | done]. }
  eapply spec_mono; [apply lexical_spec|]. intros g1 [o|e] _ [Ha1 H1].
  - case_bool_decide as Ho; [|by apply Hback]. go. split; [done|]. intros _ _. by apply (H1 _ eq_refl).
  - cbn beta. destruct (is_os_error e || raises "LocalFileSystemError" e); [|by split]. go. by apply Hback.
Qed.

(** An entry, perhaps held open. *)
Definition entry_at (g g' : history) (r : res (PublishedFileIdentity * option Z * bool)) : Prop :=
  match r with
  | Ok (i, None, placed) => after None g g' /\ origin placed i g'
  | Ok (i, Some fd, placed) => after (Some fd) g g' /\ held fd g = false /\ origin placed i g'
  | Raise _ => after None g g'
  end.

Lemma accept_spec d source_fd g g1 : at_leaf d g -> held source_fd g = true ->
  occurs (Ev (OpenRead None src) (Ok source_fd)) g -> after None g g1 ->
  SPEC (m ← _idempotent_or_conflict sha256 fuel source_fd d leaf dst; mret (m.1, Some m.2, false)) g1 (entry_at g).
Proof.
  intros Hd Hs Hopen Ha. go. eapply spec_mono; [apply conflict_spec; [anchors | is_held | occurred]|].
  intros g2 [[i fd]|e] _ H2; [|unfold entry_at; grows]. destruct H2 as (Ho & Hn & Hw). go.
  split; [grows|]. split; [by apply (not_held _ _ _ _ Ha) | done].
Qed.

Lemma place_spec d source_fd g : at_leaf d g -> held source_fd g = true ->
  occurs (Ev (OpenRead None src) (Ok source_fd)) g ->
  SPEC (place sha256 fuel src dst source_fd d leaf) g (entry_at g).
Proof.
  intros Hd Hs Hopen. unfold place. apply spec_try. go. eapply spec_mono; [by apply publish_link_spec|].
  intros g1 [i|e] _ [Ha1 H1]; [go; split; [done|]; left; by apply H1|]. cbn beta.
  destruct (file_exists_error e); [by apply (accept_spec d)|]. destruct (is_os_error e); [|done].
  destruct (has_errno _ e); [|by apply spec_throw]. apply spec_try. go.
  eapply spec_mono; [apply copy_spec; [anchors | is_held]|]. intros g2 [[i fd]|e2] _ H2.
  - destruct H2 as (Ho & Hn & Hc). go. split; [grows|]. split; [by apply (not_held _ _ _ _ Ha1) | by right].
  - cbn beta. destruct (file_exists_error e2); [|unfold entry_at; grows]. apply (accept_spec d); done || grows.
Qed.

(** What [hardlink_or_copy] promises of its result. *)
Definition published (p : FilePublication) (h : history) : Prop :=
  verified base components (identity p) h /\ origin (placed p) (identity p) h.

Lemma published_close p fd r h : published p h -> published p (Ev (CloseFd fd) r :: h).
Proof. intros [H1 H2]. split; [by apply verified_close | by apply (origin_app [Ev (CloseFd fd) r])]. Qed.

(** Verified while the entry is held open, if it is. *)
Lemma confirm_spec d i published_fd placed g g1 : at_leaf d g -> entry_at g g1 (Ok (i, published_fd, placed)) ->
  SPEC (try_finally
          (_verify_lexical_publication cwd supported base dst d leaf i placed ;;
           mret {| placed := placed; identity := i |})
          (close_held published_fd)) g1 (fun g' r => after None g g' /\ forall p, r = Ok p -> published p g').
Proof.
  intros Hd He. assert (Ho : origin placed i g1) by (destruct published_fd; apply He).
  assert (Hd1 : at_leaf d g1) by (destruct published_fd; apply (anchored_after _ _ _ _ _ _ _ (proj1 He) Hd)).
  assert (Hv : SPEC (_verify_lexical_publication cwd supported base dst d leaf i placed ;;
                     mret {| placed := placed; identity := i |}) g1 (fun g' r =>
                 after None g1 g' /\ forall p, r = Ok p -> published p g')).
  { go. eapply spec_mono; [apply verify_spec; [done|]|].
    - intros ->. exact Ho.
    - intros g2 [[]|e] _ [Ha2 H2]; [go|by split]. split; [done|]. intros p [= <-].
      split; [by apply (H2 tt) | by apply (origin_after None placed _ g1)]. }
  destruct published_fd as [fd|].
  - destruct He as (Ho1 & Hn & _). apply (spec_scoped _ _ _ fd _ g); [done|done|].
    eapply spec_mono; [exact Hv|]. intros g2 r _ [Ha2 H2]. split; [done|]. intros Hc. split; [done|].
    intros p Hp. by apply published_close, H2.
  - destruct He as [Ha1 _]. apply spec_finally. eapply spec_mono; [exact Hv|]. intros g2 r _ [Ha2 H2]. apply spec_ret.
    split; [grows | done].
Qed.

Lemma hardlink_body_spec d g : at_leaf d g ->
  SPEC (source_fd ← _open_regular_source src dst;
        try_finally
          (p ← place sha256 fuel src dst source_fd d leaf;
           let '(published_identity, published_fd, placed_) := p in
           try_finally
             (_verify_lexical_publication cwd supported base dst d leaf published_identity placed_ ;;
              mret {| placed := placed_; identity := published_identity |})
             (close_held published_fd))
          (act (CloseFd source_fd))) g (fun g' r => after None g g' /\ forall p, r = Ok p -> published p g').
Proof.
  intros Hd. go. eapply spec_mono; [apply open_source_spec|]. intros g1 [source_fd|e] _ H1; [|by split].
  destruct H1 as (Ho & Hn & Hopen). apply (spec_scoped _ _ _ source_fd _ g); [done|done|].
  assert (Hd1 : at_leaf d g1) by (apply (anchored_after _ _ _ _ _ _ _ Ho Hd)).
  apply (spec_mono _ _ _ _ _ (fun g2 r => after None g1 g2 /\ forall p, r = Ok p -> published p g2)).
  - go. eapply spec_mono; [apply place_spec; [done | is_held | done]|]. intros g2 [[[i fd] placed]|e] _ H2; [|by split].
    by apply confirm_spec.
  - intros g2 r _ [Ha2 H2]. split; [done|]. intros Hc. split; [done|]. intros p Hp. by apply published_close, H2.
Qed.

Lemma hardlink_or_copy_spec g :
  SPEC (hardlink_or_copy cwd supported sha256 fuel src dst base) g (fun g' r =>
    after None g g' /\ forall p, r = Ok p -> published p g').
Proof.
  unfold hardlink_or_copy.
  apply (anchored_publication_spec base components (Publish src) _ _ _ (fun h p => published p h)); try done.
  - by exists src.
  - intros g1 d Ho Hd. by apply hardlink_body_spec.
  - intros fd h p. apply published_close.
Qed.

Lemma move_spec g :
  SPEC (move cwd supported sha256 fuel src dst base) g (fun g' _ => after None g g').
Proof.
  unfold move. goes; try grows.
  all: eapply spec_mono; [apply hardlink_or_copy_spec|]; intros g1 [p|e0] _ [Ha1 Hp]; goes; try grows.
  all: split; [done|]; exists (identity p); by apply (Hp p).
Qed.

End paths.

End publish.
