(* ===== verification/LocalRemove.v ===== *)
(** * Rollback and deletion stay within the monitor *)

From Stdlib Require Import ZArith Lia Bool String SpecFloat.
From S2P Require Import Prelude PyStr PyNum PyInt PyOs LibraryRoots Histories LocalIO LocalFileSystem LocalMonitor LocalSpecs LocalLocks.

#[local] Open Scope bool_scope.

(** ** Rolling back *)

Section roll_back.
Context {DB : UnicodeDB} (base : list N) (components : list (list N)) (i : PublishedFileIdentity) (fuel : nat).
Context (cwd dst : list N) (supported : bool).
Context (Hcomp : forall relative, relpath cwd dst base = Ok relative -> components = split_on slash relative).

Lemma remove_published_spec g :
  spec base components (RollBack i) (remove_published cwd supported fuel dst base i) g (fun g' _ => after None g g').
Proof.
  unfold remove_published. go.
  eapply spec_mono; [apply (anchored_publication_spec base components (RollBack i) _ _ _ (fun _ _ => True)); try done|].
  - intros g1 d Ho Hd. go. eapply spec_mono; [apply (publish_lock_spec base components (RollBack i) fuel ltac:(done) _ _ _ _ (fun _ _ => True)); try done|].
    + intros g2 fd Ho2 Hd2 Hl. pose proof (anchored_held _ _ _ _ _ Hd2). go.
      eapply spec_mono; [by apply identity_spec|]. intros g3 r _ [Ha3 (o & -> & H3)].
      goes; try (split; [grows | done]). split; [anchors|]. left. split; [done|].
      apply negb_false_iff, bool_decide_eq_true in Heqb as ->. destruct (H3 i eq_refl) as (s & -> & Hs). by exists s, g2.
    + intros g2 r _ [Ha2 _]. split; [done|]. done.
  - intros g1 r _ [Ha1 _]. done.
Qed.

End roll_back.

(** ** Deleting *)

Section deleting.
Context {DB : UnicodeDB} (components : list (list N)).

Abbreviation SPEC := (spec sep components Delete).
Abbreviation at_depth := (anchored sep components).
Abbreviation at_leaf := (anchored sep components (depth components)).
Abbreviation leaf := (LocalMonitor.leaf components).

(** The entry is not there: an ancestor or the leaf was not found, or it was removed. *)
Definition missing (h : history) : Prop :=
  exists d c, occurs (Ev (OpenDir (Some d) c true) (Raise FileNotFoundError)) h.
Definition removed (h : history) : Prop :=
  missing h \/ exists d, occurs (Ev (StatAt d leaf) (Raise FileNotFoundError)) h \/
    occurs (Ev (UnlinkAt d leaf) (Ok tt)) h \/ occurs (Ev (RmTreeAt d leaf) (Ok tt)) h.

Definition tried (h : history) : Prop := exists d l e, occurs (Ev (RmTreeAt d l) (Raise e)) h.

Lemma tried_cons ev h : match call_of ev with RmTreeAt _ _ => false | _ => true end = true -> tried (ev :: h) -> tried h.
Proof.
  intros Hc (d & l & e & H). apply elem_of_cons in H as [H|H]; [by subst ev|]. by exists d, l, e.
Qed.
Ltac untried :=
  let H := fresh in intros H; repeat (apply tried_cons in H; [|reflexivity]); auto.

Lemma open_parent_spec display rest n d g0 g : drop n components = rest -> rest <> [] ->
  after (Some d) g0 g -> held d g0 = false -> at_depth n d g ->
  SPEC (open_parent d rest display) g (fun g' r =>
    (tried g' -> tried g) /\
    match r with
    | Ok (Some fd) => after (Some fd) g0 g' /\ held fd g0 = false /\ at_leaf fd g'
    | Ok None => after None g0 g' /\ missing g'
    | Raise _ => after None g0 g'
    end).
Proof.
  revert n d g; induction rest as [|c rest IH]; intros n d g Hr Hne Ho Hn Hd; [done|].
  destruct rest as [|c' rest].
  - destruct (last_leaf _ _ _ Hr) as [-> ->]. apply spec_ret. by split.
  - destruct (not_last _ _ _ _ _ Hr) as (Hc & Hlt & Hr'). pose proof (anchored_held _ _ _ _ _ Hd). cbn [open_parent].
    do 5 go.
    + split; [done|]. exists n. split; [done|]. by split.
    + destruct (child_opened sep components n d c x g g) as (Ho1 & Hn1 & Hd1); [done|done|grows|done|].
      do 3 go. apply spec_act; [uses_held | exact I | intros [[]|e] Hf Hs; [|done]].
      destruct (after_swap d x (Ok tt) g0 g (Ev (OpenDir (Some d) c true) (Ok x) :: g)) as (Ho2 & Hn2 & Hne2); [done..|].
      eapply spec_mono; [apply (IH (S n)); try done|].
      * right. split; [by apply bool_decide_eq_false | done].
      * intros g' r _ [Ht H']. split; [|done]. intros Ht'. apply Ht in Ht'. revert Ht'. untried.
    + set (g1 := Ev (OpenDir (Some d) c true) (Raise e) :: g) in *. assert (Ha1 : after None g g1) by grows.
      destruct (is_os_error e); [|by closing Hcl; split; [untried|]].
      destruct (file_not_found e) eqn:He; [|goes; by closing Hcl; split; [untried|]].
      do 3 go. closing Hcl. go. split; [untried|]. split; [done|].
      exists d, c. apply occurs_further. destruct e; try done. apply occurs_here.
Qed.

(** A directory that was listed in full, and of which every entry seen before is
    seen still. *)
Definition unharmed (h : history) : Prop :=
  exists d (w w' : walked), occurs (Ev (FwalkAt d leaf) (Ok w)) h /\ occurs (Ev (FwalkAt d leaf) (Ok w')) h /\
    wk_unlisted w = false /\ wk_raised w = None /\
    forall entry, entry ∈ wk_yielded w ≫= yielded_entries -> entry ∈ wk_yielded w' ≫= yielded_entries.

Lemma tree_entries_spec d g : at_leaf d g ->
  SPEC (_tree_entries leaf d) g (fun g' r => after None g g' /\ exists w, g' = Ev (FwalkAt d leaf) (Ok w) :: g /\
    match r with
    | Ok x => x.1 = wk_yielded w ≫= yielded_entries /\ (x.2 = true -> wk_unlisted w = false /\ wk_raised w = None)
    | Raise e => is_os_error e = false
    end).
Proof.
  intros Hd. pose proof (anchored_held _ _ _ _ _ Hd). unfold _tree_entries. goes; try done.
  all: (split; [grows|]); exists x; (split; [done|]); try done.
  all: simpl; split; [done|]; intros Hx; apply andb_prop in Hx as [H1%negb_true_iff H2]; try discriminate H2;
    try apply bool_decide_eq_true in H2; auto.
Qed.

(** How a deletion may end. *)
Definition deleted (h : history) (r : res unit) : Prop :=
  match r with
  | Ok _ => removed h
  | Raise e => tried h -> is_os_error e = true -> raises "PartialDeleteError" e = true \/ unharmed h
  end.

Lemma deleted_close fd r h x : deleted h x -> deleted (Ev (CloseFd fd) r :: h) x.
Proof.
  destruct x as [u|e]; simpl.
  - intros [(d & c & H)|(d & [H|[H|H]])]; [left; exists d, c|right; exists d..]; auto using occurs_further.
  - intros H Ht He. apply tried_cons in Ht; [|done]. destruct (H Ht He) as [H1|(d & w & w' & H1 & H2 & H3)]; [by left|].
    right. exists d, w, w'. auto using occurs_further.
Qed.

Lemma remove_tree_spec d g (s : stat_result) g0 : at_leaf d g -> g = Ev (StatAt d leaf) (Ok s) :: g0 -> st_kind s = Directory ->
  ~ tried g ->
  SPEC (remove_tree d leaf) g (fun g' r => after None g g' /\ deleted g' r).
Proof.
  intros Hd Hg Hk Hno. pose proof (anchored_held _ _ _ _ _ Hd). unfold remove_tree. go.
  eapply spec_mono; [by apply tree_entries_spec|]. intros g1 [[before complete]|e] _ (Ha1 & w & Hg1 & H1).
  2: { split; [done|]. intros _ He. congruence. }
  destruct H1 as [Hb Hcomplete]. go. subst g1. go.
  { split; [done|]. split; [done|]. split; [anchors|]. exists (Ok w), s, g0. by rewrite Hg. }
  { split; [grows|]. right. exists d. right; right. units. apply occurs_here. }
  destruct (is_os_error e) eqn:Hos.
  2: { split; [grows|]. intros _ He. congruence. }
  go. eapply spec_mono; [apply tree_entries_spec; anchors|]. intros g2 [[now complete']|e'] _ (Ha2 & w' & -> & H2).
  2: { split; [grows|]. intros _ He. congruence. }
  destruct H2 as [Hn _]. simpl in Hb, Hn, Hcomplete. cbn [fst snd].
  destruct complete; cbn [negb orb]; [|go; split; [grows|]; by left].
  destruct (subset_of before now) eqn:Hsub; cbn [negb]; [|go; split; [grows|]; by left].
  go. split; [grows|]. intros _ _. right. exists d, w, w'. destruct (Hcomplete eq_refl) as [Hu Hr].
  split; [occurred|]. split; [occurred|]. split; [done|]. split; [done|]. rewrite <- Hb, <- Hn. intros entry He.
  unfold subset_of in Hsub. rewrite List.forallb_forall in Hsub. apply mem_true, Hsub. by apply list_elem_of_In.
Qed.

Lemma delete_leaf_spec d g : at_leaf d g -> ~ tried g ->
  SPEC (delete_leaf d leaf) g (fun g' r => after None g g' /\ deleted g' r).
Proof.
  intros Hd Hno. pose proof (anchored_held _ _ _ _ _ Hd). unfold delete_leaf. do 4 go.
  - assert (Hno1 : ~ tried (Ev (StatAt d leaf) (Ok x) :: g)) by untried.
    assert (Hun : st_kind x <> Directory -> SPEC (act (UnlinkAt d leaf)) (Ev (StatAt d leaf) (Ok x) :: g) (fun g' r => after None g g' /\ deleted g' r)).
    { intros Hk. go.
      - split; [anchors|]. left. split; [done|]. exists x, g. split; [done|]. by apply bool_decide_eq_false.
      - split; [grows|]. right. exists d. right; left. units. apply occurs_here.
      - split; [grows|]. intros Ht. exfalso. revert Ht. untried. }
    go. cbn beta iota. destruct (st_kind x) eqn:Hk; try (by apply Hun).
    eapply spec_mono; [apply (remove_tree_spec _ _ x g); [anchors | done..]|]. intros g' r _ [Ha H']. split; [grows | done].
  - destruct (file_not_found e) eqn:He; [|split; [grows|]; intros Ht; exfalso; revert Ht; untried].
    do 2 go. split; [grows|]. right. exists d. left. destruct e; try done. apply occurs_here.
Qed.

(** The deletion of an entry whose location is known. *)
Lemma delete_entry_spec cwd display entry relative g :
  relpath cwd entry sep = Ok relative -> components = split_on slash relative -> ~ tried g ->
  SPEC (relative ← of_res (relpath cwd entry sep);
        let components := split_on slash relative in
        parent ← _open_parent_nofollow sep components display;
        match parent with
        | None => mret tt
        | Some parent_fd => try_finally (delete_leaf parent_fd (List.last components [])) (act (CloseFd parent_fd))
        end) g (fun g' r => after None g g' /\ deleted g' r).
Proof.
  intros Hrel Hcomp Hno. rewrite Hrel. do 2 go. cbn zeta. rewrite <- Hcomp. go. unfold _open_parent_nofollow. go. go.
  - opening Ho Hn. eapply spec_mono; [apply (open_parent_spec _ components 0 x g); try done|].
    + rewrite Hcomp. apply split_on_nonempty.
    + left. by eexists.
    + intros g1 r _ [Ht H1]. assert (Hno1 : ~ tried g1) by (intros H; apply Ht in H; revert H; untried).
      destruct r as [[fd|]|e].
      * destruct H1 as (Ho1 & Hn1 & Hd1). apply (spec_scoped _ _ _ fd _ g); [done|done|].
        eapply spec_mono; [by apply delete_leaf_spec|]. intros g2 r _ [Ha2 H2]. split; [done|]. intros Hc. split; [done|].
        by apply deleted_close.
      * apply spec_ret. split; [apply H1|]. left. apply H1.
      * split; [done|]. intros H. by destruct Hno1.
  - split; [grows|]. intros Ht. exfalso. revert Ht. untried.
Qed.

End deleting.
