(* ===== verification/LocalHistory.v ===== *)
(** * What the runs of the file system adapter show

    The theorems on every run of a publication, a rollback and a deletion, and
    runs against a small file system that show them at work. *)

From Stdlib Require Import ZArith Lia Bool String SpecFloat.
From S2P Require Import Prelude PyStr PyNum PyInt PlexVideo LibraryRoots PyOs Histories LocalIO.
From S2P Require Import LocalFileSystem LocalMonitor LocalSpecs LocalLocks LocalPublish.
From S2P Require Import LocalRemove.

#[local] Open Scope bool_scope.

Section runs.
Context {DB : UnicodeDB}.

(** The components of a path under a root. *)
Definition components_of (cwd root dst : list N) : list (list N) :=
  match relpath cwd dst root with Ok relative => split_on slash relative | Raise _ => [] end.

Lemma components_of_ok cwd root dst relative :
  relpath cwd dst root = Ok relative -> components_of cwd root dst = split_on slash relative.
Proof. unfold components_of. by intros ->. Qed.

(** Every run of [m] from the start stays within the monitor. *)
Definition guarded {A} (base : list N) (components : list (list N)) (goal : task) (m : IO A) : Prop :=
  forall tr c, issues fits m tr c -> sane (rev tr) = true ->
    (forall fd, fd ∈ uses c -> held fd (rev tr) = true) /\ guard base components goal (rev tr) c.

Lemma issues_wp {A} allowed (m : IO A) Q tr c : wp fits allowed next (m tt) [] Q -> issues fits m tr c -> allowed (rev tr) c.
Proof.
  intros Hw ([] & p & Hs & Hc). eapply wp_sound in Hs as [_ Hr]; [|exact Hw]. rewrite observed, app_nil_r in Hr.
  destruct p; try done. by injection Hc as ->.
Qed.
Lemma ends_wp {A} allowed (m : IO A) (Q : history -> res A -> Prop) tr r :
  wp fits allowed next (m tt) [] (fun g '(_, r) => sane g = true -> Q g r) -> ends fits m tr r ->
  sane (rev tr) = true -> Q (rev tr) r.
Proof.
  intros Hw ([] & [] & Hs) Hg. eapply wp_sound in Hs as [_ Hr]; [|exact Hw]. rewrite observed, app_nil_r in Hr. by apply Hr.
Qed.

Lemma spec_guarded {A} base components goal (m : IO A) Q : spec base components goal m [] Q -> guarded base components goal m.
Proof. intros H tr c Hi. by apply (issues_wp _ _ _ _ _ (H eq_refl) Hi). Qed.
Lemma spec_ends {A} base components goal (m : IO A) Q tr r :
  spec base components goal m [] Q -> ends fits m tr r -> sane (rev tr) = true -> Q (rev tr) r.
Proof. intros H. by apply (ends_wp _ _ _ _ _ (H eq_refl)). Qed.

(** ** Publications *)

Section publications.
Context (cwd : list N) (supported : bool) (sha256 : list N -> list N) (fuel : nat).
Context (src dst root : list N) (i : PublishedFileIdentity).

Abbreviation components := (components_of cwd root dst).

Lemma hardlink_guarded : guarded root components (Publish src) (hardlink_or_copy cwd supported sha256 fuel src dst root).
Proof. eapply spec_guarded, hardlink_or_copy_spec. apply components_of_ok. Qed.
Lemma move_guarded : guarded root components (Publish src) (move cwd supported sha256 fuel src dst root).
Proof. eapply spec_guarded, move_spec. apply components_of_ok. Qed.
Lemma remove_guarded : guarded root components (RollBack i) (remove_published cwd supported fuel dst root i).
Proof. eapply spec_guarded, remove_published_spec. apply components_of_ok. Qed.

End publications.

(** ** Deletions *)

Section deletions.
Context (cwd : list N) (supported : bool) (roots : list (list N)) (p : list N).

(** The location and the target of the entry, as the kernel resolved them. *)
Definition resolved (entry real : list N) (h : history) : Prop :=
  p <> [] /\ normalized_entry p = true /\
  exists dir, occurs (Ev (Realpath match dirname p with [] => [dot] | d => d end) (Ok dir)) h /\
    entry = os_join dir (basename p) /\ within_roots roots entry = true /\
    occurs (Ev (Realpath p) (Ok real)) h /\ within_roots roots real = true.

Definition delete_guard (h : history) (c : call) : Prop :=
  match c with
  | Realpath _ => True
  | _ => exists entry real relative, resolved entry real h /\ relpath cwd entry sep = Ok relative /\
           guard sep (split_on slash relative) Delete h c
  end.
Definition delete_allowed (h : history) (c : call) : Prop :=
  sane h = true -> (forall fd, fd ∈ uses c -> held fd h = true) /\ delete_guard h c.

Lemma resolved_cons entry real ev h : resolved entry real h -> resolved entry real (ev :: h).
Proof. intros (Hp & Hn & dir & H1 & H2 & H3 & H4 & H5). repeat split; try done. exists dir. auto 7 using occurs_further. Qed.

(** How a deletion ends. *)
Definition delete_outcome (h : history) (r : res unit) : Prop :=
  (forall fd, held fd h = false) /\
  match r with
  | Ok _ => exists entry real relative, resolved entry real h /\ relpath cwd entry sep = Ok relative /\
              removed (split_on slash relative) h
  | Raise e =>
      (exists fd leaf e', occurs (Ev (RmTreeAt fd leaf) (Raise e')) h) -> is_os_error e = true ->
      raises "PartialDeleteError" e = true \/
      exists entry real relative, resolved entry real h /\ relpath cwd entry sep = Ok relative /\
        unharmed (split_on slash relative) h
  end.

Ltac realpath :=
  match goal with
  | |- wp _ _ _ (perform ?c ?s) ?g ?Q =>
      refine (wp_call c s g Q _ _); [by intros _; split; [apply uses_none|] | intros [?|?] _]
  end.
Ltac early :=
  intros _; split; [done|];
  intros (fd & l & e' & H); exfalso; repeat (apply elem_of_cons in H as [H|H]; [discriminate H|]); by apply elem_of_nil in H.

Lemma delete_wp :
  wp fits delete_allowed next (delete cwd supported roots p tt) [] (fun g '(_, r) =>
    sane g = true -> delete_outcome g r).
Proof.
  unfold delete. destruct supported; cbn [negb]; [|early].
  apply wp_M_bind. unfold _guarded_resolution.
  destruct (bool_decide (p = []) || negb (normalized_entry p)) eqn:Hp; [early|].
  apply orb_false_iff in Hp as [Hp%bool_decide_eq_false Hn%negb_false_iff].
  apply wp_M_bind. realpath; [|early].
  destruct (within_roots roots (os_join x (basename p))) eqn:Hw; cbn [negb]; [|early].
  apply wp_M_bind. realpath; [|early]. destruct (within_roots roots x0) eqn:Hw0; [|early].
  match goal with |- wp _ _ _ _ ?h _ => set (g := h) in * end. cbn beta iota delta [mret M_ret wp].
  set (entry := os_join x (basename p)) in *.
  assert (Hres : resolved entry x0 g).
  { split; [done|]. split; [done|]. exists x. split; [apply occurs_further, occurs_here|]. repeat split; try done. apply occurs_here. }
  destruct (relpath cwd entry sep) as [relative|e] eqn:Hrel.
  - apply (wp_monitor _ (resolved entry x0) (allowed sep (split_on slash relative) Delete)); [| |done|].
    + intros ev h. apply resolved_cons.
    + intros h c H Ha Hs. destruct (Ha Hs) as [Hu Hg]. split; [done|].
      assert (Hall : exists entry real relative, resolved entry real h /\ relpath cwd entry sep = Ok relative /\
                guard sep (split_on slash relative) Delete h c) by by exists entry, x0, relative.
      by destruct c.
    + rewrite <- Hrel.
      assert (Hno : ~ tried g) by (intros (fd & l & e' & H); repeat (apply elem_of_cons in H as [H|H]; [discriminate H|]); by apply elem_of_nil in H).
      eapply wp_mono; [|apply wp_extends, (delete_entry_spec (split_on slash relative) cwd p entry relative g Hrel eq_refl Hno); done].
      intros g' [u r] [H (tr & -> & _)] Hs. destruct (H Hs) as [Ha Hd].
      assert (Hres' : resolved entry x0 (tr ++ g)) by (clear -Hres; induction tr; [done | by apply resolved_cons]).
      split; [intros fd; by rewrite (proj2 Ha)|]. destruct r as [v|e]; [by exists entry, x0, relative|].
      intros Ht He. destruct (Hd Ht He) as [H1|H1]; [by left|]. right. by exists entry, x0, relative.
  - early.
Qed.

End deletions.

(** ** The theorems *)

(** Every descriptor a run works on is open at that moment, and none is left open. *)
Definition balanced {A} (m : IO A) : Prop :=
  (forall tr c, issues fits m tr c -> sane (rev tr) = true -> forall fd, fd ∈ uses c -> held fd (rev tr) = true) /\
  (forall tr r, ends fits m tr r -> sane (rev tr) = true -> forall fd, held fd (rev tr) = false).

Lemma spec_balanced {A} base components goal (m : IO A) (Q : history -> res A -> Prop) :
  spec base components goal m [] (fun g r => after None [] g /\ Q g r) -> balanced m.
Proof.
  intros H. split.
  - intros tr c Hi Hs. by apply (spec_guarded _ _ _ _ _ H tr c Hi Hs).
  - intros tr r He Hs fd. pose proof (spec_ends _ _ _ _ _ _ _ H He Hs) as [[_ Ha] _]. by rewrite Ha.
Qed.

Section theorems.
Context (cwd : list N) (publication_supported delete_supported : bool) (sha256 : list N -> list N) (fuel : nat).
Context (src dst root : list N) (i : PublishedFileIdentity) (roots : list (list N)) (p : list N).

Abbreviation components := (components_of cwd root dst).
Abbreviation publish := (hardlink_or_copy cwd publication_supported sha256 fuel src dst root).
Abbreviation move_in := (move cwd publication_supported sha256 fuel src dst root).
Abbreviation roll_back := (remove_published cwd publication_supported fuel dst root i).
Abbreviation delete_it := (delete cwd delete_supported roots p).

(** Descriptors are opened and closed in balance.  In every run of a
    publication, a move, a rollback and a deletion, each call on a descriptor finds
    it open (none is used after it was closed, and none is closed twice), and
    when the operation returns or raises, everything it opened is closed. *)
Theorem descriptors_are_balanced : balanced publish /\ balanced move_in /\ balanced roll_back /\ balanced delete_it.
Proof.
  split; [|split; [|split]].
  - eapply spec_balanced, hardlink_or_copy_spec, components_of_ok.
  - eapply (spec_balanced _ _ _ _ (fun _ _ => True)), spec_mono; [apply move_spec, components_of_ok|]. by intros g r _ H.
  - eapply (spec_balanced _ _ _ _ (fun _ _ => True)), spec_mono; [apply remove_published_spec, components_of_ok|]. by intros g r _ H.
  - split.
    + intros tr c Hi Hs. by apply (issues_wp _ _ _ _ _ (delete_wp cwd delete_supported roots p) Hi).
    + intros tr r He Hs. by apply (ends_wp _ _ _ _ _ (delete_wp cwd delete_supported roots p) He Hs).
Qed.

Definition looks_nothing (c : call) : bool := match looks_up c with Some _ => false | None => true end.

Lemma upward_publication {A} create action (body : Z -> list N -> IO A) :
  dotdot ∈ components -> makes looks_nothing (_anchored_publication cwd publication_supported root dst create action body).
Proof.
  unfold components_of, _anchored_publication. intros H. destruct publication_supported; [|apply makes_throw].
  destruct (relpath cwd dst root) as [relative|e]; [|by apply elem_of_nil in H].
  apply mem_true in H. intros s. unfold of_res, mbind, M_bind. cbn [prog_bind negb]. by rewrite H.
Qed.

Lemma upward_looks_nothing tr c d names :
  issues fits publish tr c \/ issues fits move_in tr c \/ issues fits roll_back tr c ->
  looks_up c = Some (d, names) -> dotdot ∉ components.
Proof.
  intros H Hc Hin. assert (Hk : looks_nothing c = true).
  { destruct H as [H|[H|H]]; (eapply makes_issues; [|exact H]).
    - by apply upward_publication.
    - unfold move. makes_all. all: by apply upward_publication.
    - unfold remove_published, suppress. makes_all. by apply upward_publication. }
  unfold looks_nothing in Hk. by rewrite Hc in Hk.
Qed.

Lemma guard_looks goal c h d names : goal <> Delete -> guard root components goal h c -> looks_up c = Some (d, names) ->
  exists n, n <= depth components /\ anchored root components n d h /\
    forall name, name ∈ names ->
      n < depth components /\ components !! n = Some name \/ n = depth components /\ known components name.
Proof.
  intros Hgoal Hg Hc.
  assert (Hlast : forall l : list (list N), anchored root components (depth components) d h -> (forall name, name ∈ l -> known components name) ->
    exists n, n <= depth components /\ anchored root components n d h /\ forall name, name ∈ l ->
      n < depth components /\ components !! n = Some name \/ n = depth components /\ known components name).
  { intros l Ha Hk. exists (depth components). split; [done|]. split; [done|]. right. auto. }
  assert (Hstep : forall n : list N, step_allowed root components d n h -> exists m, m <= depth components /\ anchored root components m d h /\
    forall name, name ∈ [n] -> m < depth components /\ components !! m = Some name \/ m = depth components /\ known components name).
  { intros n (m & Hm & Hlt & Ha). exists m. split; [lia|]. split; [done|]. intros nm ->%list_elem_of_singleton. by left. }
  destruct c; try discriminate Hc; try (destruct at_ as [?|]; [|discriminate Hc]); injection Hc as <- <-; cbn [guard] in Hg.
  all: try (apply Hstep, Hg).
  all: try (apply Hlast; [apply Hg | intros nm ->%list_elem_of_singleton; apply Hg]).
  - destruct Hg as [Ha Hk]. apply Hlast; [done|]. intros nm ->%list_elem_of_singleton. unfold known. tauto.
  - destruct Hg as (_ & -> & Ha & _). apply Hlast; [done|]. intros nm ->%list_elem_of_singleton. by left.
  - destruct Hg as (_ & -> & Ha & [Ht _] & _). apply Hlast; [done|].
    intros nm [-> | ->%list_elem_of_singleton]%elem_of_cons; [by right; right | by left].
  - destruct Hg as (_ & -> & Ha & [Ht _] & _). apply Hlast; [done|].
    intros nm [-> | ->%list_elem_of_singleton]%elem_of_cons; [by right; right | by left].
  - destruct Hg as (Ha & Hk). apply Hlast; [done|]. intros nm ->%list_elem_of_singleton.
    destruct Hk as [[-> _]|[[_ [Ht _]]|(_ & -> & _)]]; [by left | by right; right | by right; left].
  - by destruct Hg as [-> _].
Qed.


(** C3: a publication removes and replaces only what is its own.  An entry is renamed
    onto the file name only from the temporary file of this call, right after a
    link to it was refused and the name was seen to be free under the lock; the
    file name is unlinked only when the entry there has the identity this call
    gave it; the lock file is unlinked only while it is the file this call holds
    open, having created it or having found its owner gone; the source of a move
    is removed only once a walk from the root has found the file in place. *)
Theorem publication_removes_only_its_own tr c :
  issues fits publish tr c \/ issues fits move_in tr c -> sane (rev tr) = true ->
  match c with
  | RenameAt d tmp n =>
      n = leaf components /\ own_temp components d tmp (rev tr) /\
      exists e h', rev tr = Ev (LinkAt d tmp n) (Raise e) :: h' /\ absent components d h'
  | UnlinkAt d n =>
      n = leaf components /\ (exists j, made components src j (rev tr) /\ seen components d j (rev tr)) \/
      own_temp components d n (rev tr) \/
      n = lock components /\ exists fd, matched components d fd (rev tr) /\
        (answered (CreateExcl d (lock components)) (Ok fd) (closes fd) (rev tr) \/ abandoned components d fd (rev tr))
  | UnlinkPath q => q = src /\ exists j, verified root components j (rev tr)
  | RmTreeAt _ _ => False
  | _ => True
  end.
Proof.
  intros H Hs. assert (Hg : guard root components (Publish src) (rev tr) c).
  { destruct H as [H|H]; [by apply (hardlink_guarded _ _ _ _ _ _ _ _ _ H) | by apply (move_guarded _ _ _ _ _ _ _ _ _ H)]. }
  destruct c; try exact I; cbn [guard] in Hg.
  - destruct Hg as (_ & -> & _ & Ho & Hr). by split.
  - destruct Hg as (_ & [[-> Hr]|[[_ Ho]|(_ & -> & Hl)]]); [by left | by right; left | by right; right].
  - by destruct Hg.
  - by destruct Hg as [[= ->] Hv].
Qed.

Lemma lock_not_leaf : lock components <> leaf components.
Proof. unfold lock, lock_name_of. intros H%(f_equal length). rewrite !length_app in H. simpl in H. lia. Qed.
Lemma temp_not_leaf : ~ temp_name components (leaf components).
Proof. intros [token H%(f_equal length)]. rewrite !length_app in H. simpl in H. lia. Qed.


(** C10: a publication vouches for what it returns.  When it returns, a fresh walk
    from the root, the last thing it did but for closing descriptors, found the
    returned identity under the destination; if it says that it placed the file,
    it did, as a link to the source or from a complete copy in its own temporary
    file; if it says that the file was there, it opened it and found it to be the
    source itself, or read both to the end and found the same size and digest. *)
Theorem publication_is_verified tr publication :
  ends fits publish tr (Ok publication) -> sane (rev tr) = true ->
  verified root components (identity publication) (rev tr) /\
  if placed publication then made components src (identity publication) (rev tr)
  else was_there components sha256 src (identity publication) (rev tr).
Proof.
  intros He Hs. eapply spec_ends in He; [|apply (hardlink_or_copy_spec root components), components_of_ok|done].
  by apply He.
Qed.

(** C5: a deletion stays in the library.  Apart from resolving the path, each of its
    calls comes after the kernel resolved the parent of the entry and its target
    to lie within a library root, and walks from [/] down the components of that
    location without following a link; what it unlinks or removes is that entry,
    right after it was seen there to be of the right kind. *)
Theorem delete_stays_in_the_library tr c :
  issues fits delete_it tr c -> sane (rev tr) = true ->
  match c with
  | Realpath _ => True
  | _ =>
      exists entry real relative, resolved roots p entry real (rev tr) /\ relpath cwd entry sep = Ok relative /\
        guard sep (split_on slash relative) Delete (rev tr) c
  end.
Proof. intros Hi Hs. by apply (issues_wp _ _ _ _ _ (delete_wp cwd delete_supported roots p) Hi). Qed.


End theorems.

End runs.

(** ** A small file system *)

#[local] Existing Instance ascii_db.

(** The call that opened a descriptor. *)
Fixpoint opener (fd : Z) (h : history) : option call :=
  match h with
  | [] => None
  | ev :: h' => if bool_decide (opens ev = Some fd) then Some (call_of ev) else opener fd h'
  end.
(** The source is the file 7, a temporary file 50, the lock file 99. *)
Definition inode (fd : Z) (h : history) : Z :=
  match opener fd h with
  | Some (OpenRead _ _) => 7
  | Some (CreateExcl _ n) => if prefixb (reverse (lit ".tmp")) (reverse n) then 50 else 99
  | _ => 99
  end.
Definition a_stat (k : file_kind) (n : Z) : stat_result :=
  {| st_kind := k; st_dev := 1; st_ino := n; st_size := 10; st_nlink := 1; st_mode := 0;
     st_mtime := f_zero; st_atime_ns := 0; st_mtime_ns := 0 |}.

(** What is under the file name: nothing until something was put there. *)
Fixpoint entry_inode (h : history) : option Z :=
  match h with
  | [] => None
  | Ev (LinkPath _ _ _) (Ok _) :: _ => Some 7%Z
  | Ev (RenameAt _ _ _) (Ok _) :: _ => Some 50%Z
  | _ :: h' => entry_inode h'
  end.

(** A descriptor is numbered by the calls before it.  [linking]: whether the library
    is on the file system of the source; [there]: the file that is under the name
    from the start; [gone]: how a removal ends. *)
Definition world (linking : bool) (there : option stat_result) (gone : res unit) (h : history) (c : call) : res (reply c) :=
  match c with
  | OpenDir _ _ _ | OpenRead _ _ | OpenLock _ _ | CreateExcl _ _ => Ok (Z.of_nat (length h))
  | Fstat fd => Ok (a_stat Regular (inode fd h))
  | StatAt _ n =>
      if prefixb (lit ".") n then Ok (a_stat Regular 99)
      else match there, entry_inode h with
           | Some s, _ => Ok s
           | _, Some m => Ok (a_stat Regular m)
           | _, None => Raise FileNotFoundError
           end
  | LinkPath _ _ _ => if linking then Ok tt else Raise (os_error EXDEV)
  | LinkAt _ _ _ => Raise (os_error EPERM)
  | RmTreeAt _ _ => gone
  | FwalkAt _ leaf => Ok {| wk_yielded := [(leaf, [], [lit "a.mkv"])]; wk_unlisted := false; wk_raised := None |}
  | Realpath q => Ok q
  | Exists _ => Ok true
  | IsFile _ | IsDir _ | IsLink _ | SameFile _ _ => Ok false
  | DiskFree _ | GetSize _ => Ok 1000%Z
  | StatPath _ => Ok (a_stat Regular 7)
  | ListXattr _ | Scandir _ => Ok []
  | ReadChunk _ _ | GetXattr _ _ => Ok []
  | RandomHex => Ok (lit "ab")
  | GetPid => Ok 4%Z
  | Now => Ok f_zero
  | _ => Ok tt
  end.

Lemma world_fits linking there gone h c : fits c (world linking there gone h c).
Proof.
  destruct c; try exact I. cbn [world fits]. by destruct (prefixb (lit ".") name), there, (entry_inode h).
Qed.

Definition a_publication : IO FilePublication :=
  hardlink_or_copy (lit "/app") true (fun x => x) 5 (lit "/d/f.mkv") (lit "/m/Film/Film.mkv") (lit "/m").
Definition a_rollback : IO unit := remove_published (lit "/app") true 5 (lit "/m/Film/Film.mkv") (lit "/m") (1, 7)%Z.
Definition a_deletion : IO unit := delete (lit "/app") true [lit "/m"] (lit "/m/Old").

Definition run_of {A} (m : IO A) linking there gone n := replay (world linking there gone) n [] (m tt).

Lemma run_issues {A} (m : IO A) linking there gone n c :
  next_call (run_of m linking there gone n).2 = Some c -> issues fits m (run_of m linking there gone n).1 c.
Proof. intros Hc. exists tt. eexists. split; [apply replay_steps, world_fits | exact Hc]. Qed.
Lemma run_ends {A} (m : IO A) linking there gone n r :
  (run_of m linking there gone n).2 = Return (tt, r) -> ends fits m (run_of m linking there gone n).1 r.
Proof. intros Hr. exists tt, tt. rewrite <- Hr. apply replay_steps, world_fits. Qed.

Abbreviation film := (lit "Film.mkv").
Abbreviation film_path := (components_of (lit "/app") (lit "/m") (lit "/m/Film/Film.mkv")).
Definition film_temp : list N := lit ".Film.mkv.ab.tmp".

(** To another file system: the copy is about to be renamed. *)
Abbreviation copying := (run_of a_publication false None (Ok tt) 39).1.


Lemma publication_removes_only_its_own_witness :
  issues fits a_publication copying (RenameAt 1 film_temp film) /\
  film = leaf film_path /\ own_temp film_path 1 film_temp (rev copying) /\
  exists e h', rev copying = Ev (LinkAt 1 film_temp film) (Raise e) :: h' /\ absent film_path 1 h'.
Proof.
  assert (H : issues fits a_publication copying (RenameAt 1 film_temp film)) by (apply run_issues; vm_compute; reflexivity).
  split; [exact H|].
  apply (publication_removes_only_its_own (lit "/app") true (fun x => x) 5 (lit "/d/f.mkv") (lit "/m/Film/Film.mkv") (lit "/m")
    copying (RenameAt 1 film_temp film)); [left; exact H | vm_compute; reflexivity].
Defined.


Lemma publication_is_verified_witness :
  let tr := (run_of a_publication true None (Ok tt) 25).1 in
  ends fits a_publication tr (Ok {| placed := true; identity := (1, 7)%Z |}) /\
  verified (lit "/m") film_path (1, 7)%Z (rev tr) /\ made film_path (lit "/d/f.mkv") (1, 7)%Z (rev tr).
Proof.
  intros tr. assert (H : ends fits a_publication tr (Ok {| placed := true; identity := (1, 7)%Z |}))
    by (apply run_ends; vm_compute; reflexivity).
  split; [exact H|].
  apply (publication_is_verified (lit "/app") true (fun x => x) 5 (lit "/d/f.mkv") (lit "/m/Film/Film.mkv") (lit "/m")
    tr {| placed := true; identity := (1, 7)%Z |}); [exact H | vm_compute; reflexivity].
Defined.

Abbreviation failed_deletion := (run_of a_deletion true (Some (a_stat Directory 7)) (Raise (os_error EACCES)) 20).1.

Lemma delete_stays_in_the_library_witness :
  let tr := (run_of a_deletion true (Some (a_stat Directory 7)) (Ok tt) 7).1 in
  issues fits a_deletion tr (RmTreeAt 3 (lit "Old")) /\
  exists entry real relative, resolved [lit "/m"] (lit "/m/Old") entry real (rev tr) /\
    relpath (lit "/app") entry sep = Ok relative /\
    guard sep (split_on slash relative) Delete (rev tr) (RmTreeAt 3 (lit "Old")).
Proof.
  intros tr. assert (H : issues fits a_deletion tr (RmTreeAt 3 (lit "Old"))) by (apply run_issues; vm_compute; reflexivity).
  split; [exact H|].
  apply (delete_stays_in_the_library (lit "/app") true [lit "/m"] (lit "/m/Old") tr (RmTreeAt 3 (lit "Old")));
    [exact H | vm_compute; reflexivity].
Defined.


(** ** Listing the video files of a download

    What [list_video_files] returns lies in the tree it was given, and it returns
    only when it has seen all of it. *)

Section videos.
Context {DB : UnicodeDB} (cwd : list N) (fuel : nat) (root : list N).

(** The calls here have no condition. *)
Abbreviation SPEC := (spec root [] Delete).

(** A file of the list: it was found as a video that is no sample, resolves into
    the tree, and is listed with the size it had. *)
Definition contained (root_real : list N) (h : history) (x : VideoFile) : Prop :=
  let '(candidate, size, rel) := x in
  _is_within root_real candidate = true /\ occurs (Ev (GetSize candidate) (Ok size)) h /\
  exists dirpath filename, let literal_path := fspath (os_join dirpath filename) in
    occurs (Ev (Realpath literal_path) (Ok candidate)) h /\ relpath cwd literal_path root = Ok rel /\
    is_Some (plex_video_extension literal_path) /\ contains (lit "sample") (py_lower filename) = false.

(** A directory that was not listed, or a file whose size was not read. *)
Definition scan_error (ev : event reply) : Prop :=
  match ev with Ev (Scandir _) (Raise _) | Ev (GetSize _) (Raise _) => True | _ => False end.
Definition scanned (h : history) : Prop := forall ev, occurs ev h -> ~ scan_error ev.

Definition listing (root_real : list N) (h : history) (l : list VideoFile) : Prop :=
  occurs (Ev (Realpath root) (Ok root_real)) h /\ scanned h /\ Forall (contained root_real h) l.

Lemma contained_cons root_real ev h x : contained root_real h x -> contained root_real (ev :: h) x.
Proof.
  destruct x as [[c s] rel]. intros (H1 & H2 & d & f & H3 & H4). split; [done|]. split; [by apply occurs_further|].
  exists d, f. split; [by apply occurs_further | done].
Qed.
Lemma listing_cons root_real ev h l : ~ scan_error ev -> listing root_real h l -> listing root_real (ev :: h) l.
Proof.
  intros He (H1 & H2 & H3). split; [by apply occurs_further|]. split.
  - intros ev' [->|H]%elem_of_cons; [done | by apply H2].
  - eapply Forall_impl; [exact H3|]. intros x. apply contained_cons.
Qed.

Lemma video_file_spec root_real dirpath filename acc g : listing root_real g acc ->
  SPEC (video_file cwd root root_real dirpath filename true acc) g (fun g' r =>
    forall l, r = Ok l -> listing root_real g' l).
Proof.
  intros Hl. unfold video_file. goes; try done.
  all: try (intros l [= <-]; repeat (apply listing_cons; [by intros []|]); exact Hl).
  intros l [= <-].
  assert (Hl' : listing root_real (Ev (GetSize x) (Ok x0) :: Ev (Realpath (fspath (os_join dirpath filename))) (Ok x) :: g) acc)
    by (repeat (apply listing_cons; [by intros []|]); exact Hl).
  destruct Hl' as (H1 & H2 & H3). split; [done|]. split; [done|]. apply Forall_app. split; [done|]. constructor; [|constructor].
  split; [by apply negb_false_iff in Heqb1|]. split; [apply occurs_here|]. exists dirpath, filename.
  split; [apply occurs_further, occurs_here|]. split; [done|]. split; [|done].
  apply bool_decide_eq_false in Heqb0. by apply not_eq_None_Some.
Qed.

Lemma video_files_spec root_real dirpath filenames acc g : listing root_real g acc ->
  SPEC (video_files cwd root root_real dirpath true filenames acc) g (fun g' r =>
    forall l, r = Ok l -> listing root_real g' l).
Proof.
  revert acc g; induction filenames as [|f rest IH]; intros acc g Hl; cbn [video_files]; [go; by intros l [= <-]|].
  go. eapply spec_mono; [by apply video_file_spec|]. intros g1 [acc1|e] _ H1; [|done]. apply IH. by apply H1.
Qed.

Section walking.
Context {A : Type} (I : history -> A -> Prop) (prune : list (list N) -> list (list N)).
Context (body : list N -> list (list N) -> A -> IO A).
Context (Hcons : forall ev h a, ~ scan_error ev -> I h a -> I (ev :: h) a).
Context (Hbody : forall dirpath filenames a g, I g a ->
  SPEC (body dirpath filenames a) g (fun g' r => forall a', r = Ok a' -> I g' a')).

Lemma push_dirs_spec dirpath dirs stack a g : I g a ->
  SPEC (push_dirs dirpath dirs stack) g (fun g' r => forall s, r = Ok s -> I g' a).
Proof.
  revert stack g; induction dirs as [|d dirs IH]; intros stack g Hi; cbn [push_dirs]; goes; try done.
  apply IH. by apply Hcons; [intros []|].
Qed.

(** A walk that raises the error of a directory it cannot list. *)
Lemma os_walk_spec n stack a g : I g a ->
  SPEC (os_walk n (fun e => throw e) prune body stack a) g (fun g' r => forall a', r = Ok a' -> I g' a').
Proof.
  revert stack a g; induction n as [|n IH]; intros [|top stack] a g Hi; cbn [os_walk]; goes; try done.
  all: try (by intros a' [= <-]).
  eapply spec_mono; [apply Hbody, Hcons; [by intros []|exact Hi]|]. intros g1 [a1|e] _ H1; [|done].
  go. eapply spec_mono; [apply push_dirs_spec, (H1 a1 eq_refl)|]. intros g2 [s|e] _ H2; [|done]. apply IH. by apply (H2 s).
Qed.

End walking.

Definition listed (h : history) (files : list VideoFile) : Prop :=
  scanned h /\
  (files = [] \/ exists root_real, occurs (Ev (Realpath root) (Ok root_real)) h /\ Forall (contained root_real h) files).

Lemma list_spec :
  SPEC (list_video_files cwd fuel root) [] (fun g' r => forall l, r = Ok l -> listed g' l).
Proof.
  assert (H0 : scanned []) by (intros ev H; by apply elem_of_nil in H).
  unfold list_video_files, _iter_video_files. goes; try done.
  1, 2: intros l [= <-]; (split; [|by left]); first [exact H0 | intros ev H; repeat (apply elem_of_cons in H as [->|H]; [by intros []|]); by apply H0].
  eapply spec_mono; [apply (os_walk_spec (listing x))|].
  - intros ev h a. apply listing_cons.
  - intros dirpath filenames a g. apply video_files_spec.
  - split; [apply occurs_further, occurs_here|]. split; [|constructor].
    intros ev H. repeat (apply elem_of_cons in H as [->|H]; [by intros []|]). by apply H0.
  - intros g r _ H l Hl. destruct (H l Hl) as (H1 & H2 & H3). split; [done|]. right. by exists x.
Qed.

(** A listing of videos is complete and stays inside.  When [list_video_files]
    returns, no directory had failed to be listed and no size to be read; each
    file resolves into the resolved root, was found there under the relative path
    it is listed with as a video that is no sample, and has the size that was
    read. *)
Theorem video_listing_is_sound tr files :
  ends fits (list_video_files cwd fuel root) tr (Ok files) -> sane (rev tr) = true ->
  scanned (rev tr) /\
  (files = [] \/ exists root_real, occurs (Ev (Realpath root) (Ok root_real)) (rev tr) /\
     Forall (contained root_real (rev tr)) files).
Proof. intros He Hs. by apply (spec_ends _ _ _ _ _ _ _ list_spec He Hs). Qed.

End videos.

(** A directory with one film. *)
#[local] Existing Instance ascii_db.
Definition a_tree (h : history) (c : call) : res (reply c) :=
  match c with
  | Realpath q => Ok q
  | Scandir _ => Ok [(lit "Film.mkv", false); (lit "sample.mkv", false)]
  | c => world true None (Ok tt) h c
  end.

Lemma video_listing_is_sound_witness :
  let tr := (replay a_tree 10 [] (list_video_files (lit "/app") 5 (lit "/d/Film") tt)).1 in
  let files := [(lit "/d/Film/Film.mkv", 1000%Z, lit "Film.mkv")] in
  ends fits (list_video_files (lit "/app") 5 (lit "/d/Film")) tr (Ok files) /\ scanned (rev tr) /\
  (files = [] \/ exists root_real, occurs (Ev (Realpath (lit "/d/Film")) (Ok root_real)) (rev tr) /\
     Forall (contained (lit "/app") (lit "/d/Film") root_real (rev tr)) files).
Proof.
  intros tr files. assert (H : ends fits (list_video_files (lit "/app") 5 (lit "/d/Film")) tr (Ok files)).
  { exists tt, tt. replace (Return (tt, Ok files)) with (replay a_tree 10 [] (list_video_files (lit "/app") 5 (lit "/d/Film") tt)).2
      by (vm_compute; reflexivity).
    apply replay_steps. intros h c. destruct c; try exact I; apply world_fits. }
  split; [exact H|]. apply (video_listing_is_sound (lit "/app") 5 (lit "/d/Film")); [exact H | vm_compute; reflexivity].
Defined.
