(* ===== verification/SidecarIO.v ===== *)
(** * The calls of the updater sidecar

    Everything the sidecar ([updater/]) asks of its environment: requests to the
    Docker Engine, requests to the coordinator, the state file, the clock, and
    the two background tasks that keep its lease and its heartbeat alive (the
    lease keeper's own steps wait for the stop event, read the shared
    [UpdateState] and report the lease lost).  The
    replies are arbitrary: any status and any document, any exception at any
    [await] (a cancellation by the lease keeper among them); the keepers' own
    requests only renew, and appear here through what the code reads of them.

    [Local] is what the sidecar's objects keep between iterations: the Engine
    API version negotiated by [DockerEngine], and whether [_lease_task] is set. *)

From Stdlib Require Import ZArith Lia Bool String SpecFloat.
From S2P Require Import Prelude PyStr PyNum Json PyDict UpdaterState.
From S2P Require Export Interaction.

#[local] Open Scope bool_scope.

(** ** Exceptions *)

Definition error_of (cls : string) (e : exn) : option (list N) :=
  match e with
  | ProgramError c msg => if String.eqb c cls then Some msg else None
  | _ => None
  end.

(** The codes an [except] clause reads; [DockerNotFound] is a [DockerError]. *)
Definition docker_error (e : exn) : option (list N) :=
  match error_of "DockerError" e with
  | Some code => Some code
  | None => error_of "DockerNotFound" e
  end.
Definition coordinator_error : exn -> option (list N) := error_of "CoordinatorError".
Definition updater_error : exn -> option (list N) := error_of "UpdaterError".
Definition not_found (e : exn) : bool := negb (bool_decide (error_of "DockerNotFound" e = None)).

(** Errors of the standard library and of httpx. *)
Definition CancelledError : exn := ProgramError "CancelledError" [].
Definition TimeoutError : exn := ProgramError "TimeoutError" [].
Definition StopAsyncIteration : exn := ProgramError "StopAsyncIteration" [].
Definition is_cancelled (e : exn) : bool := negb (bool_decide (error_of "CancelledError" e = None)).
Definition is_timeout (e : exn) : bool := negb (bool_decide (error_of "TimeoutError" e = None)).
Definition http_timeout (e : exn) : bool := negb (bool_decide (error_of "TimeoutException" e = None)).
Definition http_error (e : exn) : bool :=
  negb (bool_decide (error_of "HTTPError" e = None)) || http_timeout e.

(** ** Calls *)

Inductive docker_request : Type :=
  | Version
  | ContainerJson (identifier : list N)
  | ImageJson (identifier : list N)
  | ContainersJson (labels : list (list N * list N))
  | ContainersCreate (name : list N) (spec : list (list N * json))
  | ContainerStop (identifier : list N) (request_timeout : option spec_float)
  | ContainerStart (identifier : list N)
  | ContainerDelete (identifier : list N) (force v : bool)
  | ContainerRename (identifier name : list N)
  | NetworkDisconnect (network container : list N)
  | NetworkConnect (network container : list N) (endpoint : json).

(** A response: its status, the length of its body and the document it holds,
    if it is JSON. *)
Record response := { status_code : Z; content_length : nat; document : option json }.

Inductive call : Type :=
  | Docker (prefix : list N) (r : docker_request)
  | PullOpen (prefix repository tag : list N)
  | PullLine
  | Post (path : string) (body : option (list (list N * json)))
  | LoadState | SaveState (st : UpdateState) | ClearState
  | NewOperationId
  | Now | Sleep (seconds : spec_float)
  | StartKeeper (lease_seconds : Z) | JoinKeeper | KeeperLost
  | KeeperWait (delay : spec_float) | SharedState | LoseLease
  | StartHeartbeat (action_generation : Z) | JoinHeartbeat | HeartbeatLost.

Definition reply (c : call) : Type :=
  match c with
  | Docker _ _ | Post _ _ => response
  | PullOpen _ _ _ => Z
  | PullLine => list N
  | LoadState => list N
  | NewOperationId => list N
  | Now => spec_float
  | KeeperLost | KeeperWait _ => bool
  | SharedState => UpdateState
  | HeartbeatLost => option (list N)
  | _ => unit
  end.

(** An exception of one of the program's own classes. *)
Definition own_error (e : exn) : bool :=
  match docker_error e, coordinator_error e, updater_error e with
  | None, None, None => false
  | _, _, _ => true
  end.

(** What is known of the replies: only the program raises its own exceptions,
    the state file fails with an [OSError], and [uuid4().hex] is 32 hexadecimal
    digits. *)
Definition fits (c : call) (r : res (reply c)) : Prop :=
  match r with Ok _ => True | Raise e => own_error e = false end /\
  match c return res (reply c) -> Prop with
  | SaveState _ | ClearState => fun r =>
      match r with Ok _ => True | Raise e => e = OSError \/ e = FileNotFoundError end
  | NewOperationId => fun r =>
      match r with
      | Ok s => length s = 32%nat /\ forallb (fun c => between 48 57 c || between 97 102 c) s = true
      | Raise _ => False
      end
  | _ => fun _ => True
  end r.

Record Local := { api_version_ : option (list Z); lease_task : bool }.

(** Computations on the sidecar's own state, and those that also hold the
    [UpdateState] object of the operation. *)
Abbreviation IO := (M reply Local).
Abbreviation OP := (M reply (UpdateState * Local)).

Definition lift {A} (m : IO A) : OP A := zoom snd (fun l s => (s.1, l)) m.
Definition with_state {A} (st : UpdateState) (m : OP A) : IO A := fun l =>
  prog_bind (m (st, l)) (fun '((_, l'), r) => Return (l', r)).
