(* ===== verification/DockerEngine.v ===== *)
(** * The Docker Engine client ([updater/engine.py])

    Each method as the requests it makes and what it makes of the replies.  The
    rendering of a path (version prefix, percent-encoding) and the transport are
    httpx's: a request is symbolic, with the prefix it is sent under.  The two
    loops, over a pull's progress lines and over health inspections, take fuel;
    [wait_healthy_returns] says when it is enough. *)

From Stdlib Require Import ZArith Lia Bool String SpecFloat.
From S2P Require Import Prelude PyStr PyNum PyInt Json PyDict UpdaterState Recreation SidecarIO.

#[local] Open Scope bool_scope.

Definition DockerNotFound {A} : res A :=
  Raise (ProgramError "DockerNotFound" (lit "docker_object_not_found")).

Definition _json_object (r : response) : res (list (list N * json)) :=
  match document r with
  | None => DockerError "docker_invalid_json"
  | Some (JObj d) => Ok d
  | Some _ => DockerError "docker_invalid_response"
  end.

Definition _PULL_PROGRESS_IDLE_TIMEOUT_SECONDS : spec_float := float_of_int 300.

(** Python's comparison of tuples. *)
Fixpoint tuple_ltb (xs ys : list Z) : bool :=
  match xs, ys with
  | _, [] => false
  | [], _ :: _ => true
  | x :: xs', y :: ys' => if (x =? y)%Z then tuple_ltb xs' ys' else (x <? y)%Z
  end.

(** [split_tag]: [rfind] answers -1 for an absent character. *)
Definition rfind_int (c : N) (s : list N) : Z :=
  match rfind c s with Some i => Z.of_nat i | None => -1 end.

Definition split_tag (image_ref : list N) : res (list N * list N) :=
  let colon := rfind_int 58 image_ref in
  if (colon <=? rfind_int 47 image_ref)%Z then DockerError "configured_image_requires_tag"
  else Ok (take (Z.to_nat colon) image_ref, drop (S (Z.to_nat colon)) image_ref).

Definition image_digest (image : list (list N * json)) (image_ref : list N) : res (list N) :=
  '(repository, _) ← split_tag image_ref;
  let wanted value :=
    match value with
    | JStr s => if prefixb (repository ++ lit "@sha256:") s then Some s else None
    | _ => None
    end in
  match omap wanted (items_of (key "RepoDigests" image)) with
  | value :: _ => Ok value
  | [] => image_id image
  end.

(** [value[:255] if value else None] for the first such variable. *)
Definition image_build (image : list (list N * json)) : option (list N) :=
  let prefix := lit "PLEX_MANAGER_BUILD_ID=" in
  let wanted item :=
    match item with
    | JStr s => if prefixb prefix s then Some (drop (length prefix) s) else None
    | _ => None
    end in
  match omap wanted (items_of (key "Env" (members_of (key "Config" image)))) with
  | [] | [] :: _ => None
  | value :: _ => Some (take 255 value)
  end.

Section engine.
Context {DB : UnicodeDB}.

(** ** Requests *)

(** What [_request] does once it has its path. *)
Definition send (prefix : list N) (r : docker_request) (expected : list Z) : IO response :=
  response ← try_except (perform (Docker prefix r)) (fun e =>
    if http_error e then Some (of_res (DockerError "docker_unavailable")) else None);
  if (status_code response =? 404)%Z then of_res DockerNotFound
  else if mem (status_code response) expected then mret response
  else of_res (DockerError "docker_api_error").

Definition default_expected : list Z := [200; 201; 204; 304]%Z.

(** [tuple(int(part) for part in version.split("."))]. *)
Definition version_parts (version : list N) : res (list Z) :=
  match mapM int_of_str (split_on 46%N version) with
  | Some parts => Ok parts
  | None => DockerError "docker_invalid_version"
  end.

(** The negotiated version and the oldest the server still serves. *)
Definition negotiate (data : list (list N * json)) : res (list Z) :=
  match key "ApiVersion" data, default (JStr (lit "1.24")) (assoc (lit "MinAPIVersion") data) with
  | JStr version, JStr minimum =>
      server_parts ← version_parts version;
      minimum_parts ← version_parts minimum;
      let chosen := if tuple_ltb [1; 47]%Z server_parts then [1; 47]%Z else server_parts in
      if tuple_ltb chosen [1; 41]%Z || tuple_ltb [1; 47]%Z minimum_parts
      then DockerError "docker_api_unsupported" else Ok chosen
  | _, _ => DockerError "docker_invalid_version"
  end.

(** [f"/v{chosen[0]}.{chosen[1]}"]. *)
Definition render_prefix (chosen : list Z) : res (list N) :=
  match chosen with
  | major :: minor :: _ => Ok (lit "/v" ++ str_of_int major ++ lit "." ++ str_of_int minor)
  | _ => Raise IndexError
  end.

Definition _prefix : IO (list N) :=
  cached ← gets api_version_;
  match cached with
  | Some chosen => of_res (render_prefix chosen)
  | None =>
      response ← send [] Version default_expected;
      data ← of_res (_json_object response);
      chosen ← of_res (negotiate data);
      prefix ← of_res (render_prefix chosen);
      _ ← modify (fun l => {| api_version_ := Some chosen; lease_task := lease_task l |});
      mret prefix
  end.

Definition api_version : IO (list Z) :=
  _ ← _prefix;
  version ← gets api_version_;
  match version with
  | Some v => mret v
  | None => of_res (DockerError "docker_invalid_version")
  end.

Definition _request (r : docker_request) (expected : list Z) : IO response :=
  prefix ← _prefix; send prefix r expected.

(** ** Methods *)

Definition inspect_container (identifier : list N) : IO (list (list N * json)) :=
  response ← _request (ContainerJson identifier) [200%Z];
  of_res (_json_object response).

Definition inspect_image (identifier : list N) : IO (list (list N * json)) :=
  response ← _request (ImageJson identifier) [200%Z];
  of_res (_json_object response).

Definition containers_by_labels (labels : list (list N * list N)) : IO (list (list (list N * json))) :=
  response ← _request (ContainersJson labels) [200%Z];
  match document response with
  | None => of_res (DockerError "docker_invalid_json")
  | Some (JArr items) =>
      if forallb is_jobj items then mret (members_of <$> items)
      else of_res (DockerError "docker_invalid_response")
  | Some _ => of_res (DockerError "docker_invalid_response")
  end.

Definition create_container (name : list N) (spec : list (list N * json)) : IO (list N) :=
  response ← _request (ContainersCreate name spec) [201%Z];
  data ← of_res (_json_object response);
  match key "Id" data with
  | JStr ((_ :: _) as identifier) => mret identifier
  | _ => of_res (DockerError "docker_create_invalid_response")
  end.

Definition discard {A} (m : IO A) : IO unit := _ ← m; mret tt.

Definition stop_container (identifier : list N) (request_timeout : option spec_float) : IO unit :=
  discard (_request (ContainerStop identifier request_timeout) [204; 304]%Z).

Definition start_container (identifier : list N) : IO unit :=
  discard (_request (ContainerStart identifier) [204; 304]%Z).

Definition remove_container (identifier : list N) (force : bool) : IO unit :=
  discard (_request (ContainerDelete identifier force false) [204%Z]).

Definition rename_container (identifier name : list N) : IO unit :=
  discard (_request (ContainerRename identifier name) [204%Z]).

Definition disconnect_network (network container : list N) : IO unit :=
  discard (_request (NetworkDisconnect network container) [200%Z]).

Definition connect_network (network container : list N) (endpoint : json) : IO unit :=
  discard (_request (NetworkConnect network container endpoint) [200%Z]).

Definition exists_ (identifier : option (list N)) : IO bool :=
  match identifier with
  | None => mret false
  | Some identifier =>
      try_except (_ ← inspect_container identifier; mret true)
        (fun e => if not_found e then Some (mret false) else None)
  end.

(** ** Waiting for a healthy container *)

(** One inspection's verdict: healthy, still starting, or an error. *)
Definition health_verdict (container : list (list N * json)) : res bool :=
  match key "State" container with
  | JObj state_data =>
      match key "Health" state_data with
      | JObj health =>
          let health_status := key "Status" health in
          if json_eq health_status (JStr (lit "healthy")) then Ok true
          else
            stopped ← in_str_set [lit "dead"; lit "exited"; lit "removing"] false (key "Status" state_data);
            if (stopped : bool) || json_eq health_status (JStr (lit "unhealthy"))
            then DockerError "replacement_unhealthy" else Ok false
      | _ => DockerError "target_healthcheck_missing"
      end
  | _ => DockerError "docker_invalid_container_state"
  end.

Fixpoint wait_healthy_until (fuel : nat) (identifier : list N) (deadline : spec_float) : IO unit :=
  match fuel with
  | O => hang
  | S fuel =>
      now ← perform Now;
      if fle (fsub deadline now) f_zero then of_res (DockerError "replacement_health_timeout")
      else
        container ← try_except (inspect_container identifier) (fun e =>
          if is_timeout e then Some (of_res (DockerError "replacement_health_timeout")) else None);
        healthy ← of_res (health_verdict container);
        if (healthy : bool) then mret tt
        else
          now ← perform Now;
          if fle deadline now then of_res (DockerError "replacement_health_timeout")
          else
            _ ← perform (Sleep (float_of_int 1));
            wait_healthy_until fuel identifier deadline
  end.

Definition wait_healthy (fuel : nat) (identifier : list N) (timeout : spec_float) : IO unit :=
  now ← perform Now;
  wait_healthy_until fuel identifier (fadd now timeout).

(** ** Pulling an image *)

Definition pull_error (item : json) : bool :=
  match item with
  | JObj d => has_key (lit "error") d || has_key (lit "errorDetail") d
  | _ => false
  end.

Definition pull_line (line : list N) : res unit :=
  match loads line with
  | JErr _ => DockerError "docker_pull_invalid_response"
  | JOk item => if pull_error item then DockerError "docker_pull_failed" else Ok tt
  end.

Fixpoint pull_lines (fuel : nat) : IO unit :=
  match fuel with
  | O => hang
  | S fuel =>
      line ← try_except (l ← perform PullLine; mret (Some l)) (fun e =>
        if negb (bool_decide (error_of "StopAsyncIteration" e = None)) then Some (mret None)
        else if is_timeout e then Some (of_res (DockerError "docker_pull_timeout")) else None);
      match line with
      | None => mret tt
      | Some line => _ ← of_res (pull_line line); pull_lines fuel
      end
  end.

Definition pull (fuel : nat) (image_ref : list N) : IO (list (list N * json)) :=
  '(repository, tag) ← of_res (split_tag image_ref);
  prefix ← _prefix;
  _ ← try_except
    (status ← perform (PullOpen prefix repository tag);
     if (status =? 200)%Z then pull_lines fuel else of_res (DockerError "docker_api_error"))
    (fun e =>
      if http_timeout e then Some (of_res (DockerError "docker_pull_timeout"))
      else if http_error e then Some (of_res (DockerError "docker_unavailable")) else None);
  inspect_image image_ref.

(** ** The negotiated version *)

(** The client speaks a version it was written for: what [negotiate] returns
    lies between 1.41 and 1.47 and has a minor number, so its prefix can be
    written; and a server whose oldest version is newer is refused. *)
Theorem negotiated_version_is_supported data chosen : negotiate data = Ok chosen ->
  tuple_ltb chosen [1; 41]%Z = false /\ tuple_ltb [1; 47]%Z chosen = false /\
  exists minor rest, chosen = 1%Z :: minor :: rest /\ (41 <= minor <= 47)%Z /\
    render_prefix chosen = Ok (lit "/v1." ++ str_of_int minor).
Proof.
  unfold negotiate. destruct (key "ApiVersion" data) as [| | | |version| |]; try done.
  destruct (default _ _) as [| | | |minimum| |]; try done.
  intros H. apply bind_Ok in H as (server & _ & H). apply bind_Ok in H as (oldest & _ & H). cbv zeta in H.
  set (c := if tuple_ltb [1; 47]%Z server then [1; 47]%Z else server) in *.
  assert (tuple_ltb [1; 47]%Z c = false) as Hhi by (subst c; by destruct (tuple_ltb [1; 47]%Z server) eqn:E).
  destruct (tuple_ltb c [1; 41]%Z) eqn:Hlo; [done|]. destruct (tuple_ltb [1; 47]%Z oldest); [done|].
  injection H as <-. split; [done|]. split; [done|]. clearbody c. clear -Hhi Hlo.
  destruct c as [|major c]; [done|]. cbn [tuple_ltb] in Hhi, Hlo. rewrite (Z.eqb_sym 1 major) in Hhi.
  destruct (Z.eqb_spec major 1) as [->|Hne].
  - destruct c as [|minor rest]; [done|]. exists minor, rest. split; [done|]. split; [|reflexivity].
    cbn -[Z.eqb Z.ltb] in Hhi, Hlo. destruct (Z.eqb_spec minor 41), (Z.eqb_spec 47 minor);
      try (apply Z.ltb_ge in Hlo); try (apply Z.ltb_ge in Hhi); lia.
  - rewrite Z.ltb_ge in Hlo. rewrite Z.ltb_ge in Hhi. lia.
Qed.

Example negotiates : negotiate [(lit "ApiVersion", JStr (lit "1.51"))] = Ok [1; 47]%Z.
Proof. vm_compute. reflexivity. Qed.

End engine.
