(* ===== verification/CoordinatorClient.v ===== *)
(** * The coordinator's client ([updater/coordinator.py])

    The authenticated requests to the application's update coordinator and the
    validation of every reply: a [LeaseStatus] or an [Eligibility] the runner
    sees has a checked shape whatever the server answered.  What is logged of a
    failing reply is modelled as far as it chooses text: the detail code and the
    media type come from closed lists. *)

From Stdlib Require Import ZArith Lia Bool String SpecFloat.
From S2P Require Import Prelude PyStr PyNum Json PyDict UpdaterState Recreation SidecarIO.

#[local] Open Scope bool_scope.

Definition CoordinatorError {A} (code : string) : res A := Raise (ProgramError "CoordinatorError" (lit code)).

Definition _KNOWN_COORDINATOR_DETAIL_CODES : list (list N) :=
  [lit "invalid_host"; lit "updater_coordinator_unavailable"; lit "invalid_updater_credential";
   lit "coordinator_state_unknown"; lit "update_action_generation_mismatch";
   lit "update_recovery_generation_mismatch"; lit "update_not_eligible"; lit "update_lease_expired";
   lit "missing_update_lease"; lit "setup_required"].

Definition _KNOWN_MEDIA_TYPES : list (list N) :=
  [lit "application/json"; lit "application/problem+json"; lit "text/plain"; lit "text/html"].

Definition _MAX_JSON_BODY_BYTES : nat := N.to_nat (16 * 1024).

Record Eligibility := { action : list N; e_generation : Z; e_blocker : option (list N) }.

Record LeaseStatus := {
  lease : option (list N);
  ready : bool;
  lease_seconds : Z;
  blocker : option (list N);
  l_generation : option Z;
}.

Definition _body (response : response) : res (list (list N * json)) :=
  if (_MAX_JSON_BODY_BYTES <? content_length response)%nat then CoordinatorError "coordinator_invalid_response"
  else
    match document response with
    | None => CoordinatorError "coordinator_invalid_json"
    | Some (JObj d) => Ok d
    | Some _ => CoordinatorError "coordinator_invalid_response"
    end.

Definition _optional_string (value : json) : res (option (list N)) :=
  match value with
  | JNull => Ok None
  | JStr s => if (128 <? length s)%nat then CoordinatorError "coordinator_invalid_response" else Ok (Some s)
  | _ => CoordinatorError "coordinator_invalid_response"
  end.

(** ** What may be logged of a failing reply *)

Definition _extract_safe_detail_code (response : response) : option (list N) :=
  if (_MAX_JSON_BODY_BYTES <? content_length response)%nat then None
  else
    match document response with
    | Some (JObj parsed) =>
        match key "detail" parsed with
        | JStr detail => if mem detail _KNOWN_COORDINATOR_DETAIL_CODES then Some detail else None
        | _ => None
        end
    | _ => None
    end.

Definition _safe_media_type {DB : UnicodeDB} (content_type_header : list N) : list N :=
  let media_type := py_lower (py_strip (default [] (head (split_on 59 content_type_header)))) in
  if mem media_type _KNOWN_MEDIA_TYPES then media_type else lit "other".

(** ** Requests *)

Definition _post (path : string) (body : option (list (list N * json))) : IO (list (list N * json)) :=
  response ← try_except (perform (Post path body)) (fun e =>
    if http_error e then Some (of_res (CoordinatorError "coordinator_unavailable")) else None);
  if (status_code response =? 409)%Z then of_res (CoordinatorError "coordinator_conflict")
  else if negb ((200 <=? status_code response) && (status_code response <=? 299))%Z
  then of_res (CoordinatorError "coordinator_unavailable")
  else of_res (_body response).

(** A generation: an [int], not a [bool], not negative. *)
Definition generation_of (data : list (list N * json)) : res Z :=
  match int_where (fun g => 0 <=? g)%Z (key "action_generation" data) with
  | Some g => Ok g
  | None => CoordinatorError "coordinator_invalid_response"
  end.

Definition parse_eligibility (data : list (list N * json)) : res Eligibility :=
  known ← in_str_set [lit "none"; lit "check"; lit "install"] false (key "action" data);
  if negb (known : bool) then CoordinatorError "coordinator_invalid_response"
  else
    generation ← generation_of data;
    blocker ← _optional_string (key "blocker" data);
    Ok {| action := as_str (key "action" data); e_generation := generation; e_blocker := blocker |}.

Definition eligibility : IO Eligibility :=
  data ← _post "eligibility" None; of_res (parse_eligibility data).

Definition _lease_values (data : list (list N * json)) : res (bool * Z * option (list N)) :=
  match key "ready" data, int_where (fun n => (1 <=? n) && (n <=? 3600))%Z (key "lease_seconds" data) with
  | JBool ready, Some seconds =>
      blocker ← _optional_string (key "blocker" data); Ok (ready, seconds, blocker)
  | _, _ => CoordinatorError "coordinator_invalid_response"
  end.

Definition parse_claim (data : list (list N * json)) : res LeaseStatus :=
  '(ready, seconds, blocker) ← _lease_values data;
  token ←
    match key "lease_token" data with
    | JNull => Ok None
    | JStr t =>
        if (32 <=? length t)%nat && (length t <=? 256)%nat then Ok (Some t)
        else CoordinatorError "coordinator_invalid_response"
    | _ => CoordinatorError "coordinator_invalid_response"
    end;
  if bool_decide (token = None) && (ready : bool) then CoordinatorError "coordinator_invalid_response"
  else
    generation ← generation_of data;
    Ok {| lease := token; ready := ready; lease_seconds := seconds; blocker := blocker;
          l_generation := Some generation |}.

Definition claim (recovery : bool) (expected_generation : option Z) : IO LeaseStatus :=
  body ← of_res
    (if recovery then
       match expected_generation with
       | None => CoordinatorError "coordinator_invalid_recovery_generation"
       | Some g => Ok (Some [(lit "recovery", JBool true); (lit "expected_generation", JInt g)])
       end
     else Ok (match expected_generation with
              | Some g => Some [(lit "expected_generation", JInt g)]
              | None => None
              end));
  data ← _post "claim" body; of_res (parse_claim data).

Definition renew (lease_token : list N) (phase : option (list N)) : IO LeaseStatus :=
  data ← _post "renew" (Some ((lit "lease_token", JStr lease_token) ::
    match phase with Some p => [(lit "phase", JStr p)] | None => [] end));
  of_res ('(ready, seconds, blocker) ← _lease_values data;
          Ok {| lease := Some lease_token; ready := ready; lease_seconds := seconds;
                blocker := blocker; l_generation := None |}).

Definition heartbeat (action_generation : Z) : IO unit :=
  _ ← _post "heartbeat" (Some [(lit "phase", JStr (lit "checking"));
                               (lit "action_generation", JInt action_generation)]);
  mret tt.

Definition release (lease_token : list N) : IO unit :=
  _ ← _post "release" (Some [(lit "lease_token", JStr lease_token)]); mret tt.

(** The keyword arguments of [outcome]. *)
Record OutcomeReport := {
  o_operation : string;
  o_outcome : string;
  o_generation : Z;
  o_lease_token : option (list N);
  o_current_digest : option (list N);
  o_available_digest : option (list N);
  o_current_build : option (list N);
  o_available_build : option (list N);
  o_from_build : option (list N);
  o_to_build : option (list N);
  o_detail_code : option (list N);
}.

Definition outcome_body (o : OutcomeReport) : list (list N * json) :=
  [(lit "operation", JStr (lit (o_operation o))); (lit "outcome", JStr (lit (o_outcome o)));
   (lit "action_generation", JInt (o_generation o))] ++
  omap (fun kv => match kv.2 with Some v => Some (kv.1, JStr v) | None => None end)
    [(lit "lease_token", o_lease_token o); (lit "current_digest", o_current_digest o);
     (lit "available_digest", o_available_digest o); (lit "current_build", o_current_build o);
     (lit "available_build", o_available_build o); (lit "from_build", o_from_build o);
     (lit "to_build", o_to_build o); (lit "detail_code", o_detail_code o)].

Definition outcome (o : OutcomeReport) : IO unit :=
  _ ← _post "outcome" (Some (outcome_body o)); mret tt.
