(* ===== verification/Runner.v ===== *)
(** * The update runner ([updater/runner.py])

    The sidecar's one privileged state machine: an iteration ([run_once])
    resumes the operation recorded in the state file, or asks the coordinator
    for work, checks it, claims the maintenance drain and installs: stop the old
    container, create and start the candidate, wait for its health check, swap
    the names, report the outcome, remove the old container; or roll back to a
    clone of the old one.  Every step is recorded before the next begins.

    A method with an [UpdateState] argument is an [OP], on the object it
    mutates; the others are [IO].  [fuel] bounds the iterations of the loops. *)

From Stdlib Require Import ZArith Lia Bool String SpecFloat.
From S2P Require Import Prelude PyStr PyNum Json PyDict UpdaterState Recreation.
From S2P Require Import UpdateRecovery SidecarIO DockerEngine CoordinatorClient.

#[local] Open Scope bool_scope.

Definition UpdaterError {A} (code : list N) : res A := Raise (ProgramError "UpdaterError" code).

(** The fields of [UpdaterConfig] the runner reads. *)
Record UpdaterConfig := {
  image_ref : list N;
  container_name : list N;
  poll_seconds : spec_float;
  health_timeout_seconds : spec_float;
  drain_timeout_seconds : spec_float;
}.

Definition _PROGRESS_INTERVAL_SECONDS : spec_float := float_of_int 15.
Definition _MAX_STOP_TIMEOUT_SECONDS : Z := 300.

Definition _OFFLINE_ROLLBACK_STAGES : list UpdateStage :=
  [stop_requested; old_stopped; old_disconnected; candidate_created; candidate_started;
   rollback_requested; rollback_created; rollback_networked; rollback_started].

(** ** Reading an inspect document *)

Definition _container_name (container : list (list N * json)) : res (list N) :=
  match key "Name" container with
  | JStr (47%N :: name) => Ok name
  | _ => UpdaterError (lit "target_name_missing")
  end.

Definition _container_image_id (container : list (list N * json)) : res (list N) :=
  match key "Image" container with
  | JStr value => if prefixb (lit "sha256:") value then Ok value else UpdaterError (lit "target_image_id_missing")
  | _ => UpdaterError (lit "target_image_id_missing")
  end.

Definition _config_labels (container : list (list N * json)) : res (list (list N * json)) :=
  match key "Config" container with
  | JObj config =>
      match key "Labels" config with
      | JObj labels =>
          if forallb (fun kv => is_jstr kv.2) labels then Ok labels
          else UpdaterError (lit "target_labels_invalid")
      | _ => UpdaterError (lit "target_labels_missing")
      end
  | _ => UpdaterError (lit "target_labels_missing")
  end.

Definition _stop_timeout (container : list (list N * json)) : res Z :=
  match key "Config" container with
  | JObj config =>
      match default (JInt 10) (assoc (lit "StopTimeout") config) with
      | JNull => Ok 10%Z
      | JInt value =>
          if (0 <=? value)%Z && (value <=? _MAX_STOP_TIMEOUT_SECONDS)%Z then Ok value
          else UpdaterError (lit "target_stop_timeout_unsupported")
      | _ => UpdaterError (lit "target_stop_timeout_unsupported")
      end
  | _ => UpdaterError (lit "target_stop_timeout_invalid")
  end.

(** [labels.get(key) == value] for every pair. *)
Definition labels_match (labels : list (list N * json)) (required : list (list N * list N)) : bool :=
  forallb (fun kv => json_eq (dget kv.1 labels) (JStr kv.2)) required.

(** ** The state object *)

Definition set_stage (stage' : UpdateStage) (st : UpdateState) : UpdateState := {|
  operation_id := operation_id st; stage := stage'; lease_token := lease_token st;
  action_generation := action_generation st; target_id := target_id st;
  old_image_id := old_image_id st; old_digest := old_digest st; old_build := old_build st;
  desired_image_id := desired_image_id st; desired_digest := desired_digest st;
  desired_build := desired_build st; networks := networks st; port_bindings := port_bindings st;
  stop_timeout_seconds := stop_timeout_seconds st; candidate_id := candidate_id st;
  rollback_id := rollback_id st; detail_code := detail_code st |}.

Definition set_lease_token (token : list N) (st : UpdateState) : UpdateState := {|
  operation_id := operation_id st; stage := stage st; lease_token := token;
  action_generation := action_generation st; target_id := target_id st;
  old_image_id := old_image_id st; old_digest := old_digest st; old_build := old_build st;
  desired_image_id := desired_image_id st; desired_digest := desired_digest st;
  desired_build := desired_build st; networks := networks st; port_bindings := port_bindings st;
  stop_timeout_seconds := stop_timeout_seconds st; candidate_id := candidate_id st;
  rollback_id := rollback_id st; detail_code := detail_code st |}.

(** The three optional fields the runner fills in. *)
Definition set_ids (candidate rollback detail : option (list N)) (st : UpdateState) : UpdateState := {|
  operation_id := operation_id st; stage := stage st; lease_token := lease_token st;
  action_generation := action_generation st; target_id := target_id st;
  old_image_id := old_image_id st; old_digest := old_digest st; old_build := old_build st;
  desired_image_id := desired_image_id st; desired_digest := desired_digest st;
  desired_build := desired_build st; networks := networks st; port_bindings := port_bindings st;
  stop_timeout_seconds := stop_timeout_seconds st; candidate_id := candidate;
  rollback_id := rollback; detail_code := detail |}.

Definition set_candidate (c : option (list N)) st := set_ids c (rollback_id st) (detail_code st) st.
Definition set_rollback (r : option (list N)) st := set_ids (candidate_id st) r (detail_code st) st.
Definition set_detail (d : option (list N)) st := set_ids (candidate_id st) (rollback_id st) d st.

Definition state : OP UpdateState := gets fst.
Definition update (f : UpdateState -> UpdateState) : OP unit := modify (fun s => (f s.1, s.2)).
Definition save : OP unit := st ← state; perform (SaveState st).

Definition _stage (stage' : UpdateStage) : OP unit := _ ← update (set_stage stage'); save.

(** [state.stage.startswith("rollback_")]. *)
Definition is_rollback (s : UpdateStage) : bool := prefixb (lit "rollback_") (stage_str s).

Definition _progress_phase (st : UpdateState) : list N :=
  if is_rollback (stage st) then lit "rollback" else lit "installing".

(** [x is None: raise UpdaterError(code)]. *)
Definition need {A} (x : option A) (code : string) : OP A :=
  match x with Some x => mret x | None => of_res (UpdaterError (lit code)) end.

(** [with suppress(DockerError): m]. *)
Definition suppress {S} (m : M reply S unit) : M reply S unit :=
  try_except m (fun e => match docker_error e with Some _ => Some (mret tt) | None => None end).

Section runner.
Context {DB : UnicodeDB} (config : UpdaterConfig) (fuel : nat).

(** ** Names *)

Definition candidate_name (st : UpdateState) : list N :=
  container_name config ++ lit "-candidate-" ++ take 12 (operation_id st).
Definition previous_name (st : UpdateState) : list N :=
  container_name config ++ lit "-previous-" ++ take 12 (operation_id st).

(** [state.stop_timeout_seconds + 10.0]. *)
Definition stop_request_timeout (st : UpdateState) : option spec_float :=
  Some (fadd (float_of_int (stop_timeout_seconds st)) (float_of_int 10)).

Definition healthy (identifier : list N) : OP unit :=
  lift (wait_healthy fuel identifier (health_timeout_seconds config)).

Definition _multi_network_create : IO bool :=
  v ← api_version; mret (negb (tuple_ltb v [1; 44]%Z)).

(** ** Validation of the containers of an operation *)

Definition inspect_or (identifier : list N) (code : list N) : IO (list (list N * json)) :=
  try_except (inspect_container identifier)
    (fun e => if not_found e then Some (of_res (UpdaterError code)) else None).

Definition check_operation_container (st : UpdateState) (identifier : list N) (role : string)
    (expected_image : list N) (allowed_names : list (list N)) (container : list (list N * json))
    : res unit :=
  if negb (json_eq (key "Id" container) (JStr identifier))
  then UpdaterError (lit role ++ lit "_identity_mismatch")
  else
    image ← _container_image_id container;
    if negb (bool_decide (image = expected_image)) then UpdaterError (lit role ++ lit "_identity_mismatch")
    else
      name ← _container_name container;
      if negb (mem name allowed_names) then UpdaterError (lit role ++ lit "_name_mismatch")
      else
        labels ← _config_labels container;
        if labels_match labels [(TARGET_LABEL, lit "true"); (IMAGE_REF_LABEL, image_ref config);
                                (OPERATION_LABEL, operation_id st); (ROLE_LABEL, lit role)]
        then Ok tt else UpdaterError (lit role ++ lit "_label_mismatch").

Definition _validate_operation_container (identifier : list N) (role : string)
    (expected_image : list N) (allowed_names : list (list N)) : OP (list (list N * json)) :=
  st ← state;
  container ← lift (inspect_or identifier (lit role ++ lit "_missing_during_recovery"));
  _ ← of_res (check_operation_container st identifier role expected_image allowed_names container);
  mret container.

Definition candidate_names (st : UpdateState) : list (list N) :=
  container_name config ::
  (if mem (stage st) [candidate_renamed; outcome_acknowledged] then [] else [candidate_name st]).

Definition _validate_candidate : OP (list N) :=
  st ← state;
  candidate ← need (candidate_id st) "candidate_missing_during_recovery";
  _ ← _validate_operation_container candidate "candidate" (desired_image_id st) (candidate_names st);
  mret candidate.

(** Also the identifier, which the callers read again. *)
Definition _validate_rollback : OP (list N * list (list N * json)) :=
  st ← state;
  rollback ← need (rollback_id st) "rollback_missing_during_recovery";
  container ← _validate_operation_container rollback "rollback" (old_image_id st) [container_name config];
  mret (rollback, container).

Definition check_previous (st : UpdateState) (names : list (list N)) (container : list (list N * json))
    : res unit :=
  if negb (json_eq (key "Id" container) (JStr (target_id st)))
  then UpdaterError (lit "previous_container_identity_mismatch")
  else
    image ← _container_image_id container;
    if negb (bool_decide (image = old_image_id st))
    then UpdaterError (lit "previous_container_identity_mismatch")
    else
      name ← _container_name container;
      if negb (mem name names) then UpdaterError (lit "previous_container_name_mismatch")
      else
        labels ← _config_labels container;
        if labels_match labels [(TARGET_LABEL, lit "true"); (IMAGE_REF_LABEL, image_ref config)]
        then Ok tt else UpdaterError (lit "previous_container_label_mismatch").

Definition _validate_previous (allowed_names : option (list (list N))) : OP (list (list N * json)) :=
  st ← state;
  container ← lift (inspect_or (target_id st) (lit "previous_container_missing"));
  _ ← of_res (check_previous st
    (default [container_name config; previous_name st] allowed_names) container);
  mret container.

Definition _find_operation_container (role : string) : OP (option (list N)) :=
  st ← state;
  matches ← lift (containers_by_labels [(OPERATION_LABEL, operation_id st); (ROLE_LABEL, lit role)]);
  match matches with
  | [] => mret None
  | [container] =>
      match key "Id" container with
      | JStr ((_ :: _) as identifier) => mret (Some identifier)
      | _ => of_res (UpdaterError (lit "operation_container_id_missing"))
      end
  | _ => of_res (UpdaterError (lit "ambiguous_operation_containers"))
  end.

(** ** Networks of the rollback container *)

Definition network_map (container : list (list N * json)) : res (list (list N * json)) :=
  match key "NetworkSettings" container with
  | JObj settings =>
      match key "Networks" settings with
      | JObj current => Ok current
      | _ => UpdaterError (lit "rollback_networks_missing")
      end
  | _ => UpdaterError (lit "rollback_networks_missing")
  end.

Definition _ensure_rollback_networks : OP unit :=
  '(rollback_id, rollback) ← _validate_rollback;
  current ← of_res (network_map rollback);
  st ← state;
  if existsb (fun name => negb (mem name (networks st).*1)) current.*1
  then of_res (UpdaterError (lit "rollback_network_mismatch"))
  else for_each (fun kv =>
    if mem kv.1 current.*1 then mret tt else lift (connect_network kv.1 rollback_id kv.2)) (networks st).

Definition mac_restored (current : list (list N * json)) (_ : unit) (kv : list N * json) : res unit :=
  match kv.2 with
  | JObj expected =>
      let expected_mac := key "MacAddress" expected in
      if is_null expected_mac then Ok tt
      else if json_eq (key "MacAddress" (members_of (dget kv.1 current))) expected_mac then Ok tt
      else UpdaterError (lit "rollback_network_mac_mismatch")
  | _ => Raise (ProgramError "AttributeError" [])
  end.

Definition _validate_network_fidelity (container : list (list N * json)) (st : UpdateState) : res unit :=
  current ← network_map container;
  if negb (forallb (fun kv => is_jobj kv.2) current)
  then UpdaterError (lit "rollback_networks_invalid")
  else if negb (forallb (fun name => mem name (networks st).*1) current.*1
                && forallb (fun name => mem name current.*1) (networks st).*1)
  then UpdaterError (lit "rollback_network_mismatch")
  else res_foldl (mac_restored current) tt (networks st).

(** ** Completion *)

Definition _ensure_name (identifier expected allowed_current : list N) : OP unit :=
  container ← lift (inspect_container identifier);
  current ← of_res (_container_name container);
  if bool_decide (current = expected) then mret tt
  else if negb (bool_decide (current = allowed_current))
  then of_res (UpdaterError (lit "operation_container_name_mismatch"))
  else lift (rename_container identifier expected).

Definition _stop_lease_keeper : OP unit :=
  running ← gets (fun s => lease_task s.2);
  if (running : bool) then perform JoinKeeper else mret tt.

(** Both cleanups: the old container goes if it still exists. *)
Definition remove_previous : OP unit :=
  st ← state;
  present ← lift (exists_ (Some (target_id st)));
  if (present : bool) then
    _ ← _validate_previous (Some [previous_name st]);
    lift (remove_container (target_id st) false)
  else mret tt.

Definition _cleanup_success : OP unit :=
  candidate ← _validate_candidate;
  _ ← healthy candidate;
  _ ← remove_previous;
  perform ClearState.

Definition _cleanup_rollback : OP unit :=
  '(rollback_id, rollback) ← _validate_rollback;
  st ← state;
  _ ← of_res (_validate_network_fidelity rollback st);
  _ ← healthy rollback_id;
  _ ← remove_previous;
  perform ClearState.

(** An [install] outcome of the operation. *)
Definition install_report (st : UpdateState) (o : string) (current_digest current_build detail : option (list N))
    : OutcomeReport := {|
  o_operation := "install"; o_outcome := o; o_generation := action_generation st;
  o_lease_token := Some (lease_token st); o_current_digest := current_digest;
  o_available_digest := Some (desired_digest st); o_current_build := current_build;
  o_available_build := desired_build st; o_from_build := old_build st; o_to_build := desired_build st;
  o_detail_code := detail |}.

Definition _finish_success : OP unit :=
  candidate ← _validate_candidate;
  _ ← healthy candidate;
  st ← state;
  _ ← (if mem (stage st) [old_renamed; candidate_renamed; outcome_acknowledged] then mret tt
       else _ ← _ensure_name (target_id st) (previous_name st) (container_name config);
            _stage old_renamed);
  st ← state;
  _ ← (if bool_decide (stage st = old_renamed) then
         _ ← _ensure_name candidate (container_name config) (candidate_name st);
         _stage candidate_renamed
       else mret tt);
  st ← state;
  _ ← (if bool_decide (stage st = candidate_renamed) then
         _ ← _stop_lease_keeper;
         _ ← lift (outcome (install_report st "succeeded" (Some (desired_digest st)) (desired_build st) None));
         _stage outcome_acknowledged
       else mret tt);
  _cleanup_success.

(** [x or default] on an optional string: the empty string is falsy. *)
Definition or_code (x : option (list N)) (code : list N) : list N :=
  match x with Some ((_ :: _) as s) => s | _ => code end.

Definition _finish_rollback_outcome : OP unit :=
  '(rollback_id, rollback) ← _validate_rollback;
  st ← state;
  _ ← of_res (_validate_network_fidelity rollback st);
  _ ← healthy rollback_id;
  _ ← _stop_lease_keeper;
  _ ← lift (outcome (install_report st "rolled_back" (old_digest st) (old_build st)
    (Some (or_code (detail_code st) (lit "update_interrupted")))));
  _ ← _stage rollback_acknowledged;
  _cleanup_rollback.

(** [if state.detail_code is None: state.detail_code = code; self.state.save(state)]. *)
Definition ensure_detail (code : list N) : OP unit :=
  st ← state;
  match detail_code st with
  | None => _ ← update (set_detail (Some code)); save
  | Some _ => mret tt
  end.

Definition _ack_pre_cutover_failure (code : list N) : OP unit :=
  _ ← ensure_detail code;
  _ ← _stop_lease_keeper;
  st ← state;
  _ ← lift (outcome (install_report st "failed" (old_digest st) (old_build st) (detail_code st)));
  perform ClearState.

(** ** Installing *)

Definition _install (target old_image desired : list (list N * json)) : OP unit :=
  _ ← _stage stop_requested;
  st ← state;
  _ ← lift (stop_container (target_id st) (stop_request_timeout st));
  _ ← _stage old_stopped;
  _ ← for_each (fun kv => lift (disconnect_network kv.1 (target_id st))) (networks st);
  _ ← _stage old_disconnected;
  multi ← lift _multi_network_create;
  '(spec, created) ← of_res (build_candidate_spec target old_image desired (image_ref config)
      (operation_id st) (networks st) (Some (port_bindings st)) multi);
  candidate ← lift (create_container (candidate_name st) spec);
  _ ← update (set_candidate (Some candidate));
  _ ← _stage candidate_created;
  _ ← for_each (fun kv => lift (connect_network kv.1 candidate kv.2))
        (remaining_networks (networks st) created);
  _ ← lift (start_container candidate);
  _ ← _stage candidate_started;
  _ ← healthy candidate;
  _ ← _stage candidate_healthy;
  _finish_success.

(** ** Rolling back *)

(** The candidate, known or found by its labels, is removed if it exists. *)
Definition discard_candidate : OP unit :=
  st ← state;
  _ ← (match candidate_id st with
       | Some _ => mret tt
       | None =>
           found ← _find_operation_container "candidate";
           _ ← update (set_candidate found);
           match found with Some _ => save | None => mret tt end
       end);
  st ← state;
  match candidate_id st with
  | None => mret tt
  | Some candidate =>
      present ← lift (exists_ (Some candidate));
      if negb (present : bool) then mret tt
      else
        _ ← _validate_operation_container candidate "candidate" (desired_image_id st)
              [container_name config; candidate_name st];
        _ ← suppress (lift (stop_container candidate (stop_request_timeout st)));
        lift (remove_container candidate true)
  end.

(** The old container is stopped, renamed and disconnected, but kept. *)
Definition retire_previous : OP (list (list N * json)) :=
  _ ← _validate_previous None;
  st ← state;
  _ ← suppress (lift (stop_container (target_id st) (stop_request_timeout st)));
  _ ← _ensure_name (target_id st) (previous_name st) (container_name config);
  previous ← _validate_previous (Some [previous_name st]);
  _ ← for_each (fun kv => suppress (lift (disconnect_network kv.1 (target_id st)))) (networks st);
  mret previous.

(** A rollback container of an earlier attempt, unless it is gone or was
    acknowledged as healthy and no longer is. *)
Definition reuse_rollback : OP unit :=
  st ← state;
  _ ← (match rollback_id st with
       | Some _ => mret tt
       | None =>
           found ← _find_operation_container "rollback";
           _ ← update (set_rollback found);
           match found with Some _ => _stage rollback_created | None => mret tt end
       end);
  st ← state;
  _ ← (match rollback_id st with
       | None => mret tt
       | Some rollback =>
           present ← lift (exists_ (Some rollback));
           if (present : bool) then mret tt
           else _ ← update (set_rollback None); _stage rollback_requested
       end);
  st ← state;
  match rollback_id st with
  | None => mret tt
  | Some rollback =>
      _ ← _validate_rollback;
      if negb (bool_decide (stage st = rollback_healthy)) then mret tt
      else
        try_except (healthy rollback) (fun e =>
          match docker_error e with
          | None => None
          | Some _ => Some (
              _ ← suppress (lift (stop_container rollback (stop_request_timeout st)));
              _ ← lift (remove_container rollback true);
              _ ← update (set_rollback None);
              _stage rollback_requested)
          end)
  end.

Definition create_rollback (previous : list (list N * json)) : OP unit :=
  st ← state;
  match rollback_id st with
  | Some _ => mret tt
  | None =>
      old_image ← lift (inspect_image (old_image_id st));
      multi ← lift _multi_network_create;
      '(spec, _) ← of_res (build_rollback_spec previous old_image (image_ref config) (operation_id st)
          (networks st) (Some (port_bindings st)) multi);
      rollback ← lift (create_container (container_name config) spec);
      _ ← update (set_rollback (Some rollback));
      _stage rollback_created
  end.

(** [state.rollback_id] where it has just been set. *)
Definition rollback_container : OP (list N) :=
  st ← state; need (rollback_id st) "rollback_missing_during_recovery".

Definition start_rollback : OP unit :=
  st ← state;
  _ ← (if bool_decide (stage st = rollback_created) then
         _ ← _ensure_rollback_networks; _stage rollback_networked
       else mret tt);
  st ← state;
  if bool_decide (stage st = rollback_networked) then
    rollback ← rollback_container;
    _ ← lift (start_container rollback);
    _stage rollback_started
  else mret tt.

Definition _rollback (code : list N) (acknowledge : bool) : OP unit :=
  _ ← ensure_detail code;
  st ← state;
  _ ← (if is_rollback (stage st) then mret tt else _stage rollback_requested);
  st ← state;
  progress ← try_except (p ← lift (renew (lease_token st) (Some (lit "rollback"))); mret (Some p))
    (fun e => match coordinator_error e with
              | Some code => if bool_decide (code = lit "coordinator_unavailable")
                             then Some (mret None) else None
              | None => None
              end);
  _ ← (match progress with
       | Some p => if ready p then mret tt else of_res (UpdaterError (lit "maintenance_drain_lost"))
       | None => mret tt
       end);
  _ ← discard_candidate;
  previous ← retire_previous;
  _ ← reuse_rollback;
  _ ← create_rollback previous;
  _ ← start_rollback;
  rollback ← rollback_container;
  _ ← healthy rollback;
  _ ← _stage rollback_healthy;
  if acknowledge then _finish_rollback_outcome else mret tt.

(** The code of an exception the runner's [except] clauses catch. *)
Definition known_error (e : exn) : option (list N) :=
  match coordinator_error e with
  | Some code => Some code
  | None => match docker_error e with Some code => Some code | None => updater_error e end
  end.

Definition _execute_install (target old_image desired : list (list N * json)) : OP unit :=
  try_except (_install target old_image desired) (fun e =>
    match known_error e with
    | None => None
    | Some code => Some (
        st ← state;
        if bool_decide (stage st = prepared) then _ack_pre_cutover_failure code
        else if mem (stage st) [candidate_healthy; old_renamed; candidate_renamed; outcome_acknowledged]
        then throw e
        else _rollback code true)
    end).

(** ** The lease *)

(** [stop.set(); await task], and the task is forgotten. *)
Definition join_keeper : OP unit :=
  _ ← perform JoinKeeper;
  modify (fun s => (s.1, {| api_version_ := api_version_ s.2; lease_task := false |})).

Definition _run_with_lease_keeper (seconds : Z) (work : OP unit) : OP unit :=
  _ ← perform (StartKeeper seconds);
  _ ← modify (fun s => (s.1, {| api_version_ := api_version_ s.2; lease_task := true |}));
  try_finally
    (try_except work (fun e =>
       if is_cancelled e then Some (
         lost ← perform KeeperLost;
         if (lost : bool) then of_res (UpdaterError (lit "maintenance_drain_lost")) else throw e)
       else None))
    join_keeper.

(** [max(low, min(high, seconds / 3))]. *)
Definition third_between (low high : spec_float) (seconds : Z) : res spec_float :=
  third ← int_div seconds 3;
  let least := if flt third high then third else high in
  Ok (if flt low least then least else low).

(** One tenth, a half and one second as floats. *)
Definition tenth : spec_float := S754_finite false 7205759403792794 (-56).
Definition half : spec_float := S754_finite false 4503599627370496 (-53).

(** The keeper task: it renews, or reports the lease lost after a conflict, a
    renewal that is not ready, or a failure past the deadline. *)
Fixpoint keep_lease_loop (n : nat) (deadline delay : spec_float) : IO unit :=
  match n with
  | O => hang
  | S n =>
      stopped ← perform (KeeperWait delay);
      if (stopped : bool) then mret tt
      else
        st ← perform SharedState;
        renewed ← try_except (r ← renew (lease_token st) (Some (_progress_phase st)); mret (inl r))
          (fun e => match coordinator_error e with Some code => Some (mret (inr code)) | None => None end);
        match renewed with
        | inr code =>
            now ← (if bool_decide (code = lit "coordinator_conflict") then mret None
                   else t ← perform Now; mret (Some t));
            if match now with None => true | Some t => fle deadline t end
            then perform LoseLease
            else keep_lease_loop n deadline (float_of_int 1)
        | inl renewed =>
            if negb (ready renewed) then perform LoseLease
            else
              now ← perform Now;
              delay ← of_res (third_between tenth _PROGRESS_INTERVAL_SECONDS (lease_seconds renewed));
              keep_lease_loop n (fadd now (float_of_int (lease_seconds renewed))) delay
        end
  end.

Definition _keep_lease (seconds : Z) : IO unit :=
  now ← perform Now;
  delay ← of_res (third_between tenth _PROGRESS_INTERVAL_SECONDS seconds);
  keep_lease_loop fuel (fadd now (float_of_int seconds)) delay.

Fixpoint wait_ready (n : nat) (deadline : spec_float) (l : LeaseStatus) : IO LeaseStatus :=
  match n with
  | O => hang
  | S n =>
      if ready l then mret l
      else
        now ← perform Now;
        token ← (match lease l with
                 | Some t => mret t
                 | None => of_res (UpdaterError (lit "maintenance_drain_lost"))
                 end);
        if fle deadline now then
          _ ← release token; of_res (UpdaterError (lit "maintenance_drain_timeout"))
        else
          delay ← of_res (third_between half (float_of_int 5) (lease_seconds l));
          _ ← perform (Sleep delay);
          l' ← renew token None;
          match lease l' with
          | None => of_res (UpdaterError (lit "maintenance_drain_lost"))
          | Some _ => wait_ready n deadline l'
          end
  end.

Definition _claim_ready (recovery : bool) (expected_generation : option Z) : IO (option LeaseStatus) :=
  l ← claim recovery expected_generation;
  match lease l with
  | None => mret None
  | Some _ =>
      now ← perform Now;
      l ← wait_ready fuel (fadd now (drain_timeout_seconds config)) l;
      mret (Some l)
  end.

Fixpoint await_drain (n : nat) (deadline : spec_float) (renewed : LeaseStatus) : OP (option LeaseStatus) :=
  match n with
  | O => hang
  | S n =>
      if ready renewed then mret (Some renewed)
      else
        now ← perform Now;
        if fle deadline now then mret None
        else
          delay ← of_res (third_between half (float_of_int 5) (lease_seconds renewed));
          _ ← perform (Sleep delay);
          st ← state;
          renewed ← lift (renew (lease_token st) (Some (_progress_phase st)));
          await_drain n deadline renewed
  end.

Definition _ensure_recovery_lease : OP (option LeaseStatus) :=
  st ← state;
  renewed ← try_except
    (r ← lift (renew (lease_token st) (Some (_progress_phase st))); mret (Some r))
    (fun e => match coordinator_error e with
              | Some code => if bool_decide (code = lit "coordinator_conflict")
                             then Some (mret None) else None
              | None => None
              end);
  match renewed with
  | Some renewed =>
      if ready renewed then mret (Some renewed)
      else now ← perform Now; await_drain fuel (fadd now (drain_timeout_seconds config)) renewed
  | None =>
      replacement ← lift (_claim_ready true (Some (action_generation st)));
      match replacement with
      | None => mret None
      | Some l =>
          match lease l with
          | None => mret None
          | Some token => _ ← update (set_lease_token token); _ ← save; mret (Some l)
          end
      end
  end.

(** ** Recovery *)

Definition _recover : OP unit :=
  st ← state;
  if bool_decide (stage st = outcome_acknowledged) then _cleanup_success
  else if bool_decide (stage st = rollback_acknowledged) then _cleanup_rollback
  else if is_rollback (stage st) then _rollback (lit "update_interrupted") true
  else
    present ← lift (exists_ (candidate_id st));
    if (present : bool) then
      candidate ← _validate_candidate;
      unhealthy ← try_except (_ ← healthy candidate; mret None)
        (fun e => match docker_error e with Some code => Some (mret (Some code)) | None => None end);
      match unhealthy with
      | Some code => _rollback code true
      | None => _finish_success
      end
    else if bool_decide (stage st = prepared)
    then _ack_pre_cutover_failure (lit "update_interrupted")
    else _rollback (lit "update_interrupted") true.

(** [try: m; return] of a resumed operation, [except] a conflict (or the other
    codes of the clause): [true] when the iteration is over. *)
Definition returned (m : OP unit) (passes : exn -> bool) : OP bool :=
  try_except (_ ← m; mret true) (fun e => if passes e then Some (mret false) else None).

Definition conflict (e : exn) : bool :=
  bool_decide (coordinator_error e = Some (lit "coordinator_conflict")).
Definition updater_code (code : string) (e : exn) : bool :=
  bool_decide (updater_error e = Some (lit code)).
Definition is_docker_error (e : exn) : bool := negb (bool_decide (docker_error e = None)).

(** The three stages that first retry their own completion. *)
Definition retry_prepared : OP bool :=
  st ← state;
  if bool_decide (stage st = prepared) then
    _ ← ensure_detail (lit "update_interrupted");
    st ← state;
    returned (_ack_pre_cutover_failure (default [] (detail_code st))) conflict
  else mret false.

Definition retry_success : OP bool :=
  st ← state;
  if bool_decide (stage st = candidate_renamed) then
    returned _finish_success (fun e =>
      conflict e || updater_code "candidate_missing_during_recovery" e || is_docker_error e)
  else mret false.

Definition retry_rollback : OP bool :=
  st ← state;
  if bool_decide (stage st = rollback_healthy) then
    returned _finish_rollback_outcome (fun e =>
      conflict e || updater_code "rollback_missing_during_recovery" e || is_docker_error e)
  else mret false.

(** The lease, or [None] when the iteration is over: nothing to do without it,
    or an offline rollback has just been made. *)
Definition recovery_lease : OP (option LeaseStatus) :=
  try_except _ensure_recovery_lease (fun e =>
    match coordinator_error e with
    | None => None
    | Some code => Some (
        st ← state;
        if negb (bool_decide (code = lit "coordinator_unavailable"))
           || negb (mem (stage st) _OFFLINE_ROLLBACK_STAGES) then throw e
        else
          _ ← _rollback (or_code (detail_code st) (lit "coordinator_unavailable")) false;
          mret None)
    end).

Definition resume : OP unit :=
  st ← state;
  if mem (stage st) [outcome_acknowledged; rollback_acknowledged] then _recover
  else
    over ← retry_prepared;
    if (over : bool) then mret tt
    else
      over ← retry_success;
      if (over : bool) then mret tt
      else
        over ← retry_rollback;
        if (over : bool) then mret tt
        else
          l ← recovery_lease;
          match l with
          | None => mret tt
          | Some l => _run_with_lease_keeper (lease_seconds l) _recover
          end.

(** ** Looking for work *)

Definition _target : IO (list (list N * json) * list (list N * json)) :=
  container ← inspect_or (container_name config) (lit "configured_target_missing");
  name ← of_res (_container_name container);
  if negb (bool_decide (name = container_name config))
  then of_res (UpdaterError (lit "configured_target_mismatch"))
  else
    labels ← of_res (_config_labels container);
    if negb (json_eq (dget TARGET_LABEL labels) (JStr (lit "true")))
    then of_res (UpdaterError (lit "configured_target_label_missing"))
    else if negb (json_eq (dget IMAGE_REF_LABEL labels) (JStr (image_ref config)))
    then of_res (UpdaterError (lit "configured_image_label_mismatch"))
    else
      image ← of_res (_container_image_id container);
      old_image ← inspect_image image;
      checked ← of_res (match key "Config" container with
                        | JObj c => enabled_healthcheck (key "Healthcheck" c)
                        | _ => Ok false
                        end);
      if negb (checked : bool) then of_res (UpdaterError (lit "target_healthcheck_missing"))
      else if negb (nonempty_str (key "Id" container)) then of_res (UpdaterError (lit "target_id_missing"))
      else mret (container, old_image).

Definition _preflight : IO (list (list N * json) * list (list N * json) * list (list N * json)) :=
  '(target, old_image) ← _target;
  desired ← pull fuel (image_ref config);
  mret (target, old_image, desired).

Definition _run_with_check_heartbeat (generation : Z)
    : IO (list (list N * json) * list (list N * json) * list (list N * json)) :=
  _ ← heartbeat generation;
  _ ← perform (StartHeartbeat generation);
  try_finally
    (try_except _preflight (fun e =>
       if is_cancelled e then Some (
         lost ← perform HeartbeatLost;
         match lost with
         | Some code => throw (ProgramError "CoordinatorError" code)
         | None => throw e
         end)
       else None))
    (perform JoinHeartbeat).

(** A [check] outcome. *)
Definition check_report (generation : Z) (o : string)
    (current_digest available_digest current_build available_build detail : option (list N))
    : OutcomeReport := {|
  o_operation := "check"; o_outcome := o; o_generation := generation; o_lease_token := None;
  o_current_digest := current_digest; o_available_digest := available_digest;
  o_current_build := current_build; o_available_build := available_build;
  o_from_build := None; o_to_build := None; o_detail_code := detail |}.

(** [except (DockerError, UpdaterError) as exc]: the work, or the code. *)
Definition or_local_code {A} (m : IO A) : IO (A + list N) :=
  try_except (x ← m; mret (inl x)) (fun e =>
    match docker_error e with
    | Some code => Some (mret (inr code))
    | None => match updater_error e with Some code => Some (mret (inr code)) | None => None end
    end).

(** What the second [try] of [run_once] computes before the claim. *)
Definition plan_install (target old_image desired : list (list N * json))
    : IO (list (list N * json) * list (list N * json) * Z) :=
  networks ← of_res (capture_networks target);
  port_bindings ← of_res (capture_port_bindings target);
  timeout ← of_res (_stop_timeout target);
  multi ← _multi_network_create;
  _ ← of_res (build_candidate_spec target old_image desired (image_ref config) (lit "preflight")
        networks (Some port_bindings) multi);
  mret (networks, port_bindings, Z.max timeout MINIMUM_STOP_TIMEOUT).

(** From the claim on: the record is made, saved and executed. *)
Definition start_install (generation : Z) (target old_image desired : list (list N * json))
    (old_id desired_id old_digest desired_digest : list N) (old_build desired_build : option (list N))
    (plan : list (list N * json) * list (list N * json) * Z) : IO unit :=
  let '(networks, port_bindings, timeout) := plan in
  claimed ← _claim_ready false (Some generation);
  match claimed with
  | None => mret tt
  | Some l =>
      match lease l, l_generation l with
      | None, _ => of_res (UpdaterError (lit "maintenance_claim_missing"))
      | Some _, None => of_res (UpdaterError (lit "maintenance_generation_missing"))
      | Some token, Some lease_generation =>
          operation ← perform NewOperationId;
          with_state {|
              operation_id := operation; stage := prepared; lease_token := token;
              action_generation := lease_generation; target_id := as_str (key "Id" target);
              old_image_id := old_id; old_digest := Some old_digest; old_build := old_build;
              desired_image_id := desired_id; desired_digest := desired_digest;
              desired_build := desired_build; networks := networks; port_bindings := port_bindings;
              stop_timeout_seconds := timeout; candidate_id := None; rollback_id := None;
              detail_code := None |}
            (_ ← save;
             renewed ← lift (renew token (Some (lit "installing")));
             if negb (ready renewed) then of_res (UpdaterError (lit "maintenance_drain_lost"))
             else _run_with_lease_keeper (lease_seconds renewed)
                    (_execute_install target old_image desired))
      end
  end.

Definition fresh : IO unit :=
  e ← eligibility;
  if negb (dispatch_starts_work (action e) (e_blocker e)) then mret tt
  else
    let generation := e_generation e in
    preflight ← or_local_code (_run_with_check_heartbeat generation);
    match preflight with
    | inr code => outcome (check_report generation "failed" None None None None (Some code))
    | inl (target, old_image, desired) =>
        old_id ← of_res (_container_image_id target);
        desired_id ← of_res (image_id desired);
        old_digest ← of_res (image_digest old_image (image_ref config));
        desired_digest ← of_res (image_digest desired (image_ref config));
        let old_build := image_build old_image in
        let desired_build := image_build desired in
        if bool_decide (old_id = desired_id)
        then outcome (check_report generation "no_update" (Some old_digest) None old_build None None)
        else
          _ ← outcome (check_report generation "update_available" (Some old_digest)
                (Some desired_digest) old_build desired_build None);
          if bool_decide (action e = lit "check") then mret tt
          else
            plan ← or_local_code (plan_install target old_image desired);
            match plan with
            | inr code =>
                outcome (check_report generation "failed" (Some old_digest) None old_build None (Some code))
            | inl plan =>
                start_install generation target old_image desired old_id desired_id old_digest
                  desired_digest old_build desired_build plan
            end
    end.

(** [self.state.load()]. *)
Definition load_state : IO (option UpdateState) := fun l =>
  Do (Call := call) (Reply := reply) LoadState (fun r => Return (l, load r)).

Definition run_once : IO unit :=
  pending ← load_state;
  match pending with
  | Some pending => with_state pending resume
  | None => fresh
  end.

(** [n] iterations of [run_forever]: every [Exception] is logged; a
    cancellation is not one. *)
Fixpoint run_forever (n : nat) : IO unit :=
  match n with
  | O => hang
  | S n =>
      _ ← try_except run_once (fun e => if is_cancelled e then None else Some (mret tt));
      _ ← perform (Sleep (poll_seconds config));
      run_forever n
  end.

End runner.
