(* ===== verification/RunnerMonitor.v ===== *)
(** * What the update runner may do, and when

    A monitor of the runner's calls.  It remembers what the run has shown so
    far ([ghost]): the record in the state file, the inspect documents Docker
    returned, the containers it said are gone, the outcomes the coordinator
    acknowledged.  [allowed] is the safety specification: which Docker mutation,
    report, or write of the state file is legitimate on that evidence. *)

From Stdlib Require Import ZArith Lia Bool String SpecFloat.
From S2P Require Import Prelude PyStr PyNum Json PyDict UpdaterState Recreation.
From S2P Require Import SidecarIO DockerEngine CoordinatorClient Runner.

#[local] Open Scope bool_scope.

(** ** Evidence

    An iteration starts by loading the file, which makes all evidence begin
    anew. *)

Record ghost := {
  saved : option UpdateState;                       (** the record in the state file *)
  seen : list (list N * list (list N * json));      (** inspect documents of this iteration *)
  gone : list (list N);                             (** containers reported absent or removed *)
  acked : list (list N);                            (** install outcomes acknowledged *)
}.

Definition ghost0 : ghost := {| saved := None; seen := []; gone := []; acked := [] |}.

Definition set_saved (st : option UpdateState) (g : ghost) : ghost :=
  {| saved := st; seen := seen g; gone := gone g; acked := acked g |}.
Definition starts (st : option UpdateState) : ghost :=
  {| saved := st; seen := []; gone := []; acked := [] |}.
Definition saw (id : list N) (d : list (list N * json)) (g : ghost) : ghost :=
  {| saved := saved g; seen := (id, d) :: seen g; gone := gone g; acked := acked g |}.
Definition lost (id : list N) (g : ghost) : ghost :=
  {| saved := saved g; seen := seen g; gone := id :: gone g; acked := acked g |}.
Definition acknowledged (o : list N) (g : ghost) : ghost :=
  {| saved := saved g; seen := seen g; gone := gone g; acked := o :: acked g |}.

Definition next_docker (r : docker_request) (x : response) (g : ghost) : ghost :=
  match r with
  | ContainerJson id =>
      if (status_code x =? 404)%Z then lost id g
      else match document x with Some (JObj d) => saw id d g | _ => g end
  | ContainerDelete id _ _ => if (status_code x =? 204)%Z then lost id g else g
  | _ => g
  end.

Definition is_success (x : response) : bool := (200 <=? status_code x)%Z && (status_code x <=? 299)%Z.

Definition next_post (path : string) (body : option (list (list N * json))) (x : response) (g : ghost) : ghost :=
  match body with
  | Some b =>
      if String.eqb path "outcome" && is_success x && json_eq (key "operation" b) (JStr (lit "install"))
      then acknowledged (as_str (key "outcome" b)) g else g
  | None => g
  end.

(** An unanswered or failed call shows nothing; a failed write of the file may
    or may not have happened, and the run makes no further call after it. *)
Definition next (g : ghost) (ev : event reply) : ghost :=
  match ev with
  | Ev c r =>
      match c return res (reply c) -> ghost with
      | Docker _ q => fun r => match r with Ok x => next_docker q x g | Raise _ => g end
      | Post path body => fun r => match r with Ok x => next_post path body x g | Raise _ => g end
      | LoadState => fun r => match load r with Ok st => starts st | Raise _ => g end
      | SaveState st => fun r => match r with Ok _ => set_saved (Some st) g | Raise _ => g end
      | ClearState => fun r => match r with Ok _ => starts None | Raise _ => g end
      | _ => fun _ => g
      end r
  end.

(** ** What an inspect document shows *)

(** The document is of container [id], running [image], called [name], and
    carries the labels. *)
Definition shows (id image name : list N) (required : list (list N * list N)) (d : list (list N * json)) : Prop :=
  key "Id" d = JStr id /\ key "Image" d = JStr image /\ key "Name" d = JStr (47%N :: name) /\
  exists c labels, key "Config" d = JObj c /\ key "Labels" c = JObj labels /\
    Forall (fun kv => dget kv.1 labels = JStr kv.2) required.

(** Its health check passes. *)
Definition shows_healthy (d : list (list N * json)) : Prop :=
  exists st h, key "State" d = JObj st /\ key "Health" st = JObj h /\ key "Status" h = JStr (lit "healthy").

Section monitor.
Context (config : UpdaterConfig).

(** The labels of a container of the operation in a role. *)
Definition role_labels (st : UpdateState) (role : string) : list (list N * list N) :=
  [(TARGET_LABEL, lit "true"); (IMAGE_REF_LABEL, image_ref config);
   (OPERATION_LABEL, operation_id st); (ROLE_LABEL, lit role)].
Definition previous_labels : list (list N * list N) :=
  [(TARGET_LABEL, lit "true"); (IMAGE_REF_LABEL, image_ref config)].

(** Docker has shown, in this iteration, the container [id] in its role under one of
    the names, ... *)
Definition identified (g : ghost) (st : UpdateState) (id image : list N) (role : string)
    (names : list (list N)) : Prop :=
  exists d name, (id, d) ∈ seen g /\ name ∈ names /\ shows id image name (role_labels st role) d.

(** ... healthy, ... *)
Definition seen_healthy (g : ghost) (id : list N) : Prop :=
  exists d, (id, d) ∈ seen g /\ shows_healthy d.

(** ... and, for the rollback, on its networks with its addresses. *)
Definition connected (g : ghost) (st : UpdateState) (id : list N) : Prop :=
  exists d, (id, d) ∈ seen g /\ _validate_network_fidelity d st = Ok tt.

(** The old container under the name it was given. *)
Definition previous_identified (g : ghost) (st : UpdateState) (names : list (list N)) : Prop :=
  exists d name, (target_id st, d) ∈ seen g /\ name ∈ names /\
    shows (target_id st) (old_image_id st) name previous_labels d.

(** The replacement has taken over: the candidate of an acknowledged success,
    or the clone of an acknowledged rollback. *)
Definition replaced (g : ghost) (st : UpdateState) : Prop :=
  (stage st = outcome_acknowledged /\ exists c, candidate_id st = Some c /\
     identified g st c (desired_image_id st) "candidate" [container_name config] /\ seen_healthy g c) \/
  (stage st = rollback_acknowledged /\ exists c, rollback_id st = Some c /\
     identified g st c (old_image_id st) "rollback" [container_name config] /\
     connected g st c /\ seen_healthy g c).

(** ** The stages *)

(** Before the candidate's health check has passed. *)
Definition early_stages : list UpdateStage :=
  [prepared; stop_requested; old_stopped; old_disconnected; candidate_created; candidate_started;
   candidate_healthy].

Definition stage_step (s s' : UpdateStage) : bool :=
  bool_decide (s = s') ||
  match s, s' with
  | prepared, stop_requested | stop_requested, old_stopped | old_stopped, old_disconnected
  | old_disconnected, candidate_created | candidate_created, candidate_started
  | candidate_started, candidate_healthy
  | old_renamed, candidate_renamed | candidate_renamed, outcome_acknowledged
  | rollback_requested, rollback_created | rollback_created, rollback_networked
  | rollback_networked, rollback_started | rollback_started, rollback_healthy
  | rollback_requested, rollback_healthy | rollback_healthy, rollback_acknowledged => true
  | s, old_renamed => mem s early_stages
  | s, rollback_requested => negb (mem s [outcome_acknowledged; rollback_acknowledged])
  | _, _ => false
  end.

(** The fields an operation never changes. *)
Definition same_operation (st st' : UpdateState) : Prop :=
  operation_id st' = operation_id st /\ action_generation st' = action_generation st /\
  target_id st' = target_id st /\ old_image_id st' = old_image_id st /\
  old_digest st' = old_digest st /\ old_build st' = old_build st /\
  desired_image_id st' = desired_image_id st /\ desired_digest st' = desired_digest st /\
  desired_build st' = desired_build st /\ networks st' = networks st /\
  port_bindings st' = port_bindings st /\ stop_timeout_seconds st' = stop_timeout_seconds st.

Definition advances (g : ghost) (st' : UpdateState) : Prop :=
  match saved g with
  | None => stage st' = prepared /\ candidate_id st' = None /\ rollback_id st' = None
  | Some st =>
      same_operation st st' /\ stage_step (stage st) (stage st') = true /\
      (stage st <> outcome_acknowledged -> stage st' = outcome_acknowledged -> lit "succeeded" ∈ acked g) /\
      (stage st <> rollback_acknowledged -> stage st' = rollback_acknowledged -> lit "rolled_back" ∈ acked g)
  end.

(** ** The specification *)

Definition recorded (g : ghost) (P : UpdateState -> Prop) : Prop := exists st, saved g = Some st /\ P st.

Definition allowed_docker (g : ghost) (r : docker_request) : Prop :=
  match r with
  | ContainerStop id _ => recorded g (fun st =>
      (stage st = stop_requested /\ id = target_id st) \/
      (is_rollback (stage st) = true /\
       (id = target_id st \/ candidate_id st = Some id \/ rollback_id st = Some id)))
  | NetworkDisconnect network id => recorded g (fun st =>
      id = target_id st /\ network ∈ (networks st).*1 /\
      (stage st = old_stopped \/ is_rollback (stage st) = true))
  | ContainersCreate name _ => recorded g (fun st =>
      (stage st = old_disconnected /\ name = candidate_name config st) \/
      (stage st = rollback_requested /\ rollback_id st = None /\ name = container_name config /\
       previous_identified g st [previous_name config st]))
  | NetworkConnect network id endpoint => recorded g (fun st =>
      (network, endpoint) ∈ networks st /\
      ((stage st = candidate_created /\ candidate_id st = Some id) \/
       (stage st = rollback_created /\ rollback_id st = Some id)))
  | ContainerStart id => recorded g (fun st =>
      (stage st = candidate_created /\ candidate_id st = Some id) \/
      (stage st = rollback_networked /\ rollback_id st = Some id))
  | ContainerRename id name => recorded g (fun st =>
      (id = target_id st /\ name = previous_name config st) \/
      (stage st = old_renamed /\ candidate_id st = Some id /\ name = container_name config /\
       seen_healthy g id))
  | ContainerDelete id force v =>
      v = false /\ recorded g (fun st =>
        if force then
          is_rollback (stage st) = true /\
          ((candidate_id st = Some id /\
            identified g st id (desired_image_id st) "candidate" [container_name config; candidate_name config st]) \/
           (rollback_id st = Some id /\
            identified g st id (old_image_id st) "rollback" [container_name config]))
        else
          id = target_id st /\ replaced g st /\ previous_identified g st [previous_name config st])
  | _ => True
  end.

(** A report on an install: of a success, a rollback or a failure before the
    cutover. *)
Definition allowed_report (g : ghost) (st : UpdateState) (o : list N) : Prop :=
  (o = lit "succeeded" /\ stage st = candidate_renamed /\ exists c, candidate_id st = Some c /\
     identified g st c (desired_image_id st) "candidate" [container_name config; candidate_name config st] /\
     seen_healthy g c) \/
  (o = lit "rolled_back" /\ stage st = rollback_healthy /\ exists c, rollback_id st = Some c /\
     identified g st c (old_image_id st) "rollback" [container_name config] /\
     connected g st c /\ seen_healthy g c) \/
  (o = lit "failed" /\ stage st = prepared).

Definition allowed_post (g : ghost) (path : string) (body : option (list (list N * json))) : Prop :=
  path = "outcome"%string ->
  exists b, body = Some b /\
    ((key "operation" b = JStr (lit "check") /\ saved g = None) \/
     (key "operation" b = JStr (lit "install") /\ recorded g (fun st =>
        key "lease_token" b = JStr (lease_token st) /\
        key "action_generation" b = JInt (action_generation st) /\
        exists o, key "outcome" b = JStr o /\ allowed_report g st o))).

Definition allowed (g : ghost) (c : call) : Prop :=
  match c with
  | Docker _ r => allowed_docker g r
  | Post path body => allowed_post g path body
  | SaveState st => state_ok st = true /\ advances g st
  | ClearState => recorded g (fun st =>
      (replaced g st /\ target_id st ∈ gone g) \/ (stage st = prepared /\ lit "failed" ∈ acked g))
  | _ => True
  end.

(** ** More evidence never hurts *)

(** [g'] knows at least as much as [g] about the same record. *)
Record extends (g g' : ghost) : Prop := {
  ext_saved : saved g' = saved g;
  ext_seen : seen g ⊆ seen g';
  ext_gone : gone g ⊆ gone g';
  ext_acked : acked g ⊆ acked g';
}.

#[export] Instance extends_preorder : PreOrder extends.
Proof.
  split; [by intros g|]. intros g1 g2 g3 [a1 b1 c1 d1] [a2 b2 c2 d2].
  split; [congruence| etrans; eauto..].
Qed.

Lemma identified_mono g g' st id image role names : extends g g' ->
  identified g st id image role names -> identified g' st id image role names.
Proof. intros [] (d & name & ? & ? & ?). exists d, name. split; auto. Qed.

Lemma seen_healthy_mono g g' id : extends g g' -> seen_healthy g id -> seen_healthy g' id.
Proof. intros [] (d & ? & ?). exists d. auto. Qed.

Lemma connected_mono g g' st id : extends g g' -> connected g st id -> connected g' st id.
Proof. intros [] (d & ? & ?). exists d. auto. Qed.

Lemma previous_mono g g' st names : extends g g' ->
  previous_identified g st names -> previous_identified g' st names.
Proof. intros [] (d & name & ? & ? & ?). exists d, name. split; auto. Qed.

Lemma replaced_mono g g' st : extends g g' -> replaced g st -> replaced g' st.
Proof.
  intros He [(Hs & c & Hc & Hi & Hh)|(Hs & c & Hc & Hi & Hn & Hh)]; [left|right]; split; auto;
    exists c; eauto 10 using identified_mono, seen_healthy_mono, connected_mono.
Qed.

#[local] Hint Resolve identified_mono seen_healthy_mono connected_mono previous_mono replaced_mono : core.

Lemma recorded_mono g g' (P P' : UpdateState -> Prop) : extends g g' ->
  (forall st, P st -> P' st) -> recorded g P -> recorded g' P'.
Proof. intros [Hs _ _ _] HP (st & ? & ?). exists st. split; [congruence | auto]. Qed.

Lemma allowed_docker_mono g g' r : extends g g' -> allowed_docker g r -> allowed_docker g' r.
Proof.
  intros He. destruct r; cbn [allowed_docker]; try done; try (apply recorded_mono; [done|]; naive_solver eauto).
  intros [-> H]. split; [done|]. revert H. apply recorded_mono; [done|].
  intros st. destruct force; naive_solver eauto.
Qed.

Lemma extends_saw g id d : extends g (saw id d g).
Proof. split; try done. by intros x; right. Qed.
Lemma extends_lost g id : extends g (lost id g).
Proof. split; try done. by intros x; right. Qed.
Lemma extends_acknowledged g o : extends g (acknowledged o g).
Proof. split; try done. by intros x; right. Qed.

Lemma extends_docker g r x : extends g (next_docker r x g).
Proof.
  destruct r; cbn [next_docker]; try done.
  - destruct (_ =? _)%Z; [apply extends_lost|]. destruct (document x) as [[]|]; try done. apply extends_saw.
  - destruct (_ =? _)%Z; [apply extends_lost | done].
Qed.

Lemma extends_post g path body x : extends g (next_post path body x g).
Proof. destruct body; [|done]. cbn [next_post]. destruct (_ && _); [apply extends_acknowledged | done]. Qed.

End monitor.
