(* ===== verification/RunnerSpecs.v ===== *)
(** * The clients' calls under the monitor

    What each method of the Engine and coordinator clients leaves known: a
    request that is allowed is accepted, evidence only grows, and a normal
    return brings the evidence the runner relies on. *)

From Stdlib Require Import ZArith Lia Bool String SpecFloat.
From S2P Require Import Prelude PyStr PyNum PyInt Json PyDict UpdaterState Recreation.
From S2P Require Import SidecarIO DockerEngine CoordinatorClient Runner RunnerMonitor.

#[local] Open Scope bool_scope.

Definition cached (l : Local) : Prop := api_version_ l <> None.

(** The evidence has grown, and a negotiated version is kept. *)
Definition grows (g : ghost) (l : Local) (g' : ghost) (l' : Local) : Prop :=
  extends g g' /\ (cached l -> cached l').

#[export] Instance extends_refl : Reflexive extends := extends_preorder.(PreOrder_Reflexive).

Lemma grows_refl g l : grows g l g l.
Proof. by split. Qed.

Lemma grows_trans g1 l1 g2 l2 g3 l3 : grows g1 l1 g2 l2 -> grows g2 l2 g3 l3 -> grows g1 l1 g3 l3.
Proof. intros [H1 C1] [H2 C2]. split; [by transitivity g2 | auto]. Qed.

(** Only the program raises its own errors. *)
Lemma fits_foreign c e : fits c (Raise e) -> own_error e = false.
Proof. by intros [H _]. Qed.

Lemma foreign_not_found e : own_error e = false -> not_found e = false.
Proof.
  unfold own_error, not_found, docker_error. destruct (error_of "DockerError" e); [done|].
  by destruct (error_of "DockerNotFound" e).
Qed.

Section specs.
Context {DB : UnicodeDB} (config : UpdaterConfig) (fuel : nat).

Abbreviation WP := (wp fits (allowed config) next).

(** A normal return of an [IO] brings [R]; an exception, nothing more. *)
Definition brings {A} (g : ghost) (l : Local) (R : A -> ghost -> Local -> Prop)
    (g' : ghost) (out : Local * res A) : Prop :=
  grows g l g' out.1 /\ match out.2 with Ok x => R x g' out.1 | Raise _ => True end.

Lemma brings_weaken {A} g l (R R' : A -> ghost -> Local -> Prop) g' out :
  (forall x g' l', grows g l g' l' -> R x g' l' -> R' x g' l') ->
  brings g l R g' out -> brings g l R' g' out.
Proof. intros H [Hg Hr]. split; [done|]. destruct out as [l' [x|e]]; simpl in *; auto. Qed.

(** Sequencing of [IO]s. *)
Lemma io_bind {A B} (m : IO A) (f : A -> IO B) g l R Q :
  WP (m l) g (brings g l R) ->
  (forall x g' l', grows g l g' l' -> R x g' l' -> WP (f x l') g' (brings g' l' Q)) ->
  WP ((m ≫= f) l) g (brings g l Q).
Proof.
  intros Hm Hf. apply wp_M_bind. eapply wp_mono; [|exact Hm].
  intros g' [l' [x|e]] [Hg Hr]; simpl in *; [|by split].
  eapply wp_mono; [|by apply Hf]. intros g2 [l2 r] [Hg2 Hr2]. split; [|done]. simpl in *.
  by eapply grows_trans.
Qed.

Lemma io_ret {A} (x : A) g l (Q : A -> ghost -> Local -> Prop) : Q x g l -> WP (mret (M := IO) x l) g (brings g l Q).
Proof. intros H. split; [apply grows_refl | exact H]. Qed.

Lemma io_res {A} (r : res A) g l (Q : A -> ghost -> Local -> Prop) :
  (forall x, r = Ok x -> Q x g l) -> WP (of_res r l) g (brings g l Q).
Proof. intros H. split; [apply grows_refl|]. destruct r; simpl; auto. Qed.

Lemma io_gets {A} (f : Local -> A) g l (Q : A -> ghost -> Local -> Prop) :
  Q (f l) g l -> WP (gets f l) g (brings g l Q).
Proof. intros H. split; [apply grows_refl | exact H]. Qed.

(** A call that neither needs nor brings evidence. *)
Lemma io_call (c : call) g l : allowed config g c -> (forall r, next g (Ev c r) = g) ->
  WP (perform c l) g (brings g l (fun _ _ _ => True)).
Proof.
  intros Ha Hn. apply wp_perform; [done|]. intros r _. rewrite Hn. split; [apply grows_refl|].
  by destruct r.
Qed.

Lemma io_mono {A} (m : IO A) g l (R R' : A -> ghost -> Local -> Prop) :
  WP (m l) g (brings g l R) -> (forall x g' l', grows g l g' l' -> R x g' l' -> R' x g' l') ->
  WP (m l) g (brings g l R').
Proof. intros Hm H. eapply wp_mono; [|exact Hm]. intros g' out. by apply brings_weaken. Qed.

(** [try: m except: h] where the handlers of [h] do the same kind of work. *)
Lemma io_try {A} (m : IO A) h g l (Q : A -> ghost -> Local -> Prop) :
  WP (m l) g (brings g l Q) ->
  (forall e m' g' l', h e = Some m' -> grows g l g' l' -> WP (m' l') g' (brings g' l' Q)) ->
  WP (try_except m h l) g (brings g l Q).
Proof.
  intros Hm Hh. apply wp_try. eapply wp_mono; [|exact Hm].
  intros g' [l' [x|e]] [Hg Hr]; simpl in *; [by split|].
  destruct (h e) as [m'|] eqn:He; [|by split].
  eapply wp_mono; [|by eapply Hh]. intros g2 [l2 r] [Hg2 Hr2]. split; [|done]. simpl in *.
  by eapply grows_trans.
Qed.

Lemma io_discard {A} (m : IO A) g l (R : A -> ghost -> Local -> Prop) (Q : unit -> ghost -> Local -> Prop) :
  WP (m l) g (brings g l R) -> (forall x g' l', R x g' l' -> Q tt g' l') ->
  WP (discard m l) g (brings g l Q).
Proof.
  intros Hm H. eapply io_bind; [exact Hm|]. intros x g' l' _ Hr. apply io_ret. by eapply H.
Qed.

(** ** Docker *)

(** What a reply to [r] leaves: its evidence, with a status the caller expects. *)
Definition replied (r : docker_request) (expected : list Z) (g : ghost) (x : response) (g' : ghost) : Prop :=
  exists g1, extends g g1 /\ g' = next_docker r x g1 /\ status_code x ∈ expected /\ status_code x <> 404%Z.

(** A container reported not found, by a request other than the negotiation. *)
Definition missing (r : docker_request) (g g' : ghost) : Prop :=
  exists g1 x, extends g g1 /\ g' = next_docker r x g1 /\ status_code x = 404%Z.

Lemma send_spec prefix r expected l g : allowed_docker config g r ->
  WP (send prefix r expected l) g (fun g' out =>
    out.1 = l /\ extends g g' /\
    match out.2 with
    | Ok x => replied r expected g x g'
    | Raise e => not_found e = true -> missing r g g'
    end).
Proof.
  intros Ha. unfold send. apply wp_M_bind, wp_try. apply wp_perform; [exact Ha|].
  intros [x|e] Hfit; cbn [next].
  - destruct (Z.eqb_spec (status_code x) 404) as [H4|H4].
    + split; [done|]. split; [apply extends_docker|]. intros _. exists g, x. by split.
    + destruct (mem (status_code x) expected) eqn:Hm.
      * split; [done|]. split; [apply extends_docker|]. apply mem_true in Hm. exists g. by split.
      * split; [done|]. split; [apply extends_docker|]. done.
  - apply fits_foreign in Hfit. destruct (http_error e).
    + split; [done|]. by split.
    + split; [done|]. split; [done|]. intros Hn. by rewrite (foreign_not_found e Hfit) in Hn.
Qed.

Lemma negotiation_free g : allowed_docker config g Version.
Proof. done. Qed.

Lemma prefix_spec l g :
  WP (_prefix l) g (fun g' out =>
    grows g l g' out.1 /\ (cached l -> forall e, out.2 = Raise e -> e = IndexError) /\
    match out.2 with Ok _ => cached out.1 | Raise _ => True end).
Proof.
  unfold _prefix. apply wp_M_bind. cbn.
  destruct (api_version_ l) as [chosen|] eqn:Hv.
  - assert (cached l) by (unfold cached; by rewrite Hv).
    destruct chosen as [|? [|? ?]]; cbn; (split; [apply grows_refl|]; split; [intros _ e He; congruence|done]).
  - assert (~ cached l) as Hc by (intros Hc; by apply Hc).
    apply wp_M_bind. eapply wp_mono; [|apply send_spec; done].
    intros g' [l' [x|e]] (Hl & He & Hr); simpl in *; subst l'.
    + assert (grows g l g' l) by (by split).
      apply wp_M_bind. cbn. destruct (_json_object x) as [d|e]; cbn; [|done].
      apply wp_M_bind. cbn. destruct (negotiate d) as [chosen|e]; cbn; [|done].
      apply wp_M_bind. cbn. destruct (render_prefix chosen) as [p|e]; cbn; [|done].
      split; [by split|]. by split.
    + by split.
Qed.

Lemma request_spec r expected l g : allowed_docker config g r ->
  WP (_request r expected l) g (fun g' out =>
    grows g l g' out.1 /\
    match out.2 with
    | Ok x => replied r expected g x g' /\ cached out.1
    | Raise e => cached l -> not_found e = true -> missing r g g'
    end).
Proof.
  intros Ha. unfold _request. apply wp_M_bind. eapply wp_mono; [|apply prefix_spec].
  intros g' [l' [p|e]] (Hg & He & Hc); cbn [fst snd] in *.
  - eapply wp_mono; [|apply send_spec; eapply allowed_docker_mono; [apply Hg|exact Ha]].
    intros g2 [l2 [x|e]] (Hl & Hx & Hr); cbn [fst snd] in *; subst l2.
    + split; [eapply grows_trans; [exact Hg|by split]|]. split; [|done].
      destruct Hr as (g1 & H1 & Hr). exists g1. split; [|done]. etrans; [apply Hg | done].
    + split; [eapply grows_trans; [exact Hg|by split]|]. intros _ Hn.
      destruct (Hr Hn) as (g1 & x & H1 & Hr'). exists g1, x. split; [|done]. etrans; [apply Hg | done].
  - split; [done|]. intros Hcl Hn. rewrite (He Hcl e eq_refl) in Hn. done.
Qed.

(** For a request, as [brings]. *)
Lemma request_brings r expected l g : allowed_docker config g r ->
  WP (_request r expected l) g (brings g l (fun x g' l' => replied r expected g x g' /\ cached l')).
Proof.
  intros Ha. eapply wp_mono; [|by apply request_spec]. intros g' [l' [x|e]] [Hg Hr]; by split.
Qed.

(** ** The Engine's methods *)

Ltac by_request :=
  match goal with |- context [ _request ?r ?e ] =>
    eapply (io_bind (_request r e)); [apply request_brings; try done|] end.

Lemma json_object_Ok r d : _json_object r = Ok d -> document r = Some (JObj d).
Proof. unfold _json_object. destruct (document r) as [[]|]; simpl; try done. by intros [= ->]. Qed.

Lemma inspect_spec id l g :
  WP (inspect_container id l) g (fun g' out =>
    grows g l g' out.1 /\
    match out.2 with
    | Ok d => (id, d) ∈ seen g' /\ cached out.1
    | Raise e => cached l -> not_found e = true -> id ∈ gone g'
    end).
Proof.
  unfold inspect_container. apply wp_M_bind. eapply wp_mono; [|by apply request_spec].
  intros g' [l' [x|e]] [Hg Hr]; simpl in *.
  - destruct Hr as [(g1 & He & -> & Hs & H4) Hc]. cbn.
    destruct (_json_object x) as [d|e] eqn:Hd; cbn; [|split; [done|]].
    + apply json_object_Ok in Hd. split; [done|]. split; [|done].
      cbn [next_docker]. destruct (Z.eqb_spec (status_code x) 404); [done|]. rewrite Hd. left.
    + intros _ Hn. exfalso. revert Hd Hn. unfold _json_object.
      destruct (document x) as [[]|]; try done; by intros [= <-].
  - split; [done|]. intros Hc Hn. destruct (Hr Hc Hn) as (g1 & x & He & -> & H4).
    cbn [next_docker]. rewrite H4. left.
Qed.

Lemma inspect_brings id l g :
  WP (inspect_container id l) g (brings g l (fun d g' l' => (id, d) ∈ seen g' /\ cached l')).
Proof.
  eapply wp_mono; [|apply inspect_spec]. intros g' [l' [x|e]] [Hg Hr]; by split.
Qed.

Lemma inspect_image_brings id l g :
  WP (inspect_image id l) g (brings g l (fun _ _ l' => cached l')).
Proof.
  unfold inspect_image. by_request. intros x g' l' _ [_ Hc].
  apply io_res. done.
Qed.

Lemma containers_by_labels_brings labels l g :
  WP (containers_by_labels labels l) g (brings g l (fun _ _ _ => True)).
Proof.
  unfold containers_by_labels. by_request. intros x g' l' _ _.
  destruct (document x) as [[]|]; try by apply io_res.
  destruct (forallb _ _); [by apply io_ret | by apply io_res].
Qed.

Lemma create_brings name spec l g : allowed_docker config g (ContainersCreate name spec) ->
  WP (create_container name spec l) g (brings g l (fun id _ _ => id <> [])).
Proof.
  intros Ha. unfold create_container. by_request. intros x g' l' _ _.
  eapply io_bind; [by apply io_res with (Q := fun _ _ _ => True)|]. intros d g2 l2 _ _.
  destruct (key "Id" d) as [| | | |[|c s]| |]; try (by apply io_res).
  apply io_ret. cbv beta. discriminate.
Qed.

(** A request whose reply is not read. *)
Lemma mutation_brings r expected l g : allowed_docker config g r ->
  WP (discard (_request r expected) l) g (brings g l (fun _ _ _ => True)).
Proof. intros Ha. eapply io_discard; [by apply request_brings | done]. Qed.

Lemma remove_brings id force l g : allowed_docker config g (ContainerDelete id force false) ->
  WP (remove_container id force l) g (brings g l (fun _ g' _ => id ∈ gone g')).
Proof.
  intros Ha. eapply io_discard; [by apply request_brings|].
  intros x g' l' [(g1 & _ & -> & Hs & _) _]. apply list_elem_of_singleton in Hs.
  cbn [next_docker]. rewrite Hs. left.
Qed.

Lemma exists_brings id l g :
  WP (exists_ (Some id) l) g (brings g l (fun b g' _ => b = false -> cached l -> id ∈ gone g')).
Proof.
  unfold exists_. apply wp_try. apply wp_M_bind. eapply wp_mono; [|apply inspect_spec].
  intros g' [l' [d|e]] [Hg Hr]; simpl in *.
  - by split.
  - destruct (not_found e) eqn:Hn; [|by split]. split; [done|]. simpl. intros _ Hc. by apply Hr.
Qed.

Lemma json_eq_str v s : json_eq v (JStr s) = true -> v = JStr s.
Proof. destruct v; simpl; try done. intros H%bool_decide_eq_true. by subst. Qed.

Lemma health_verdict_Ok d : health_verdict d = Ok true -> shows_healthy d.
Proof.
  unfold health_verdict, shows_healthy. destruct (key "State" d) as [| | | | | |s]; try done.
  destruct (key "Health" s) as [| | | | | |h] eqn:Eh; try done.
  destruct (json_eq (key "Status" h) (JStr (lit "healthy"))) eqn:E.
  - intros _. exists s, h. split; [done|]. split; [done|]. by apply json_eq_str.
  - intros H. apply bind_Ok in H as (b & _ & H). by destruct (_ || _).
Qed.

Lemma wait_healthy_until_brings n id deadline l g :
  WP (wait_healthy_until n id deadline l) g (brings g l (fun _ g' l' => seen_healthy g' id /\ cached l')).
Proof.
  revert l g; induction n as [|n IH]; intros l g; cbn [wait_healthy_until]; [done|].
  eapply io_bind; [by apply io_call|]. intros now g1 l1 _ _.
  destruct (fle _ _); [by apply io_res|].
  eapply io_bind; [apply io_try; [apply inspect_brings|]|].
  { intros e m' g2 l2 He _. destruct (is_timeout e); [|done]. injection He as <-. by apply io_res. }
  intros d g2 l2 _ [Hd Hc]. apply (io_bind (of_res _) _ _ _ (fun b g l => g = g2 /\ l = l2 /\ health_verdict d = Ok b)).
  { by apply io_res. }
  intros healthy g3 l3 _ (-> & -> & Hv). destruct healthy.
  - apply io_ret. split; [|done]. exists d. split; [done|]. by apply health_verdict_Ok.
  - eapply io_bind; [by apply io_call|]. intros t g4 l4 _ _. destruct (fle _ _); [by apply io_res|].
    eapply io_bind; [by apply io_call|]. intros u g5 l5 _ _. apply IH.
Qed.

Lemma wait_healthy_brings n id timeout l g :
  WP (wait_healthy n id timeout l) g (brings g l (fun _ g' l' => seen_healthy g' id /\ cached l')).
Proof.
  unfold wait_healthy. eapply io_bind; [by apply io_call|]. intros now g1 l1 _ _.
  apply wait_healthy_until_brings.
Qed.

Lemma pull_lines_brings n l g : WP (pull_lines n l) g (brings g l (fun _ _ _ => True)).
Proof.
  revert l g; induction n as [|n IH]; intros l g; cbn [pull_lines]; [done|].
  eapply io_bind; [apply io_try|].
  - eapply io_bind; [by apply io_call|]. intros line g1 l1 _ _. by apply io_ret with (Q := fun _ _ _ => True).
  - intros e m' g1 l1 He _. destruct (negb _); [injection He as <-; by apply io_ret|].
    destruct (is_timeout e); [|done]. injection He as <-. by apply io_res.
  - intros [line|] g1 l1 _ _; [|by apply io_ret].
    eapply io_bind; [by apply io_res with (Q := fun _ _ _ => True)|]. intros u g2 l2 _ _. apply IH.
Qed.

Lemma prefix_brings l g : WP (_prefix l) g (brings g l (fun _ _ l' => cached l')).
Proof. eapply wp_mono; [|apply prefix_spec]. intros g' [l' [x|e]] (Hg & _ & Hr); by split. Qed.

Lemma pull_brings n ref l g : WP (pull n ref l) g (brings g l (fun _ _ _ => True)).
Proof.
  unfold pull. eapply io_bind; [by apply io_res with (Q := fun _ _ _ => True)|].
  intros [repository tag] g1 l1 _ _. eapply io_bind; [apply prefix_brings|]. intros p g2 l2 _ _.
  eapply io_bind; [apply io_try|].
  - eapply io_bind; [by apply io_call|]. intros status g3 l3 _ _.
    destruct (_ =? _)%Z; [apply pull_lines_brings | by apply io_res].
  - intros e m' g3 l3 He _. destruct (http_timeout e); [injection He as <-; by apply io_res|].
    destruct (http_error e); [|done]. injection He as <-. by apply io_res.
  - intros u g3 l3 _ _. eapply io_mono; [apply inspect_image_brings | done].
Qed.

Lemma api_version_brings l g : WP (api_version l) g (brings g l (fun _ _ _ => True)).
Proof.
  unfold api_version. eapply io_bind; [apply prefix_brings|]. intros p g1 l1 _ _.
  eapply io_bind; [by apply io_gets with (Q := fun _ _ _ => True)|]. intros [v|] g2 l2 _ _;
    [by apply io_ret | by apply io_res].
Qed.

Lemma multi_network_brings l g : WP (_multi_network_create l) g (brings g l (fun _ _ _ => True)).
Proof.
  unfold _multi_network_create. eapply io_bind; [apply api_version_brings|]. intros v g1 l1 _ _.
  by apply io_ret.
Qed.

(** ** The coordinator's methods *)

Lemma post_brings path body l g : allowed_post config g path body ->
  WP (_post path body l) g (brings g l (fun _ g' _ =>
    exists x, is_success x = true /\ extends (next_post path body x g) g')).
Proof.
  intros Ha. unfold _post. apply wp_M_bind, wp_try. apply wp_perform; [exact Ha|].
  intros [x|e] Hfit; cbn [next].
  - assert (grows g l (next_post path body x g) l) as Hg by (split; [apply extends_post|done]).
    destruct (status_code x =? 409)%Z; [by split|].
    destruct ((200 <=? status_code x) && (status_code x <=? 299))%Z eqn:Hs; cbn [negb]; [|by split].
    cbn. destruct (_body x) as [d|e]; [|by split]. split; [done|]. cbn. exists x. by split.
  - destruct (http_error e); by split; [apply grows_refl|].
Qed.

Lemma other_post path body g : path <> "outcome"%string -> allowed_post config g path body.
Proof. by intros H ?. Qed.

Lemma eligibility_brings l g : WP (eligibility l) g (brings g l (fun _ _ _ => True)).
Proof.
  unfold eligibility. eapply io_bind; [by apply post_brings, other_post|]. intros d g1 l1 _ _.
  by apply io_res.
Qed.

Lemma heartbeat_brings generation l g : WP (heartbeat generation l) g (brings g l (fun _ _ _ => True)).
Proof.
  unfold heartbeat. eapply io_bind; [by apply post_brings, other_post|]. intros d g1 l1 _ _.
  by apply io_ret.
Qed.

Lemma release_brings token l g : WP (release token l) g (brings g l (fun _ _ _ => True)).
Proof.
  unfold release. eapply io_bind; [by apply post_brings, other_post|]. intros d g1 l1 _ _.
  by apply io_ret.
Qed.

(** A token a claim or a renewal brings is not empty. *)
Definition lease_ok (l : LeaseStatus) : Prop :=
  (forall t, lease l = Some t -> t <> []) /\ (forall z, l_generation l = Some z -> (0 <= z)%Z).

Lemma parse_claim_ok d l : parse_claim d = Ok l -> lease_ok l.
Proof.
  unfold parse_claim. intros H. apply bind_Ok in H as ([[rd secs] blk] & _ & H). cbv beta iota zeta in H.
  apply bind_Ok in H as (token & Ht & H). cbv beta in H.
  destruct (_ && _); [done|]. apply bind_Ok in H as (z & Hz & H). injection H as <-. split; simpl.
  - intros t ->. destruct (key "lease_token" d) as [| | | |s| |]; try done.
    destruct (_ && _) eqn:Hl; [|done]. injection Ht as ->. intros ->. by simpl in Hl.
  - intros z' [= <-]. revert Hz. unfold generation_of, int_where.
    destruct (key "action_generation" d) as [| |n| | | |]; try done.
    destruct (Z.leb_spec 0 n); [|done]. by intros [= <-].
Qed.

Lemma claim_brings recovery expected l g :
  WP (claim recovery expected l) g (brings g l (fun x _ _ => lease_ok x)).
Proof.
  unfold claim. eapply io_bind; [by apply io_res with (Q := fun _ _ _ => True)|]. intros body g1 l1 _ _.
  eapply io_bind; [by apply post_brings, other_post|]. intros d g2 l2 _ _.
  apply io_res. intros x. apply parse_claim_ok.
Qed.

Lemma renew_brings token phase l g :
  WP (renew token phase l) g (brings g l (fun x _ _ => lease x = Some token /\ l_generation x = None)).
Proof.
  unfold renew. eapply io_bind; [by apply post_brings, other_post|]. intros d g2 l2 _ _.
  apply io_res. intros x Hx. apply bind_Ok in Hx as ([[rd secs] blk] & _ & [= <-]). done.
Qed.

Lemma outcome_operation o : key "operation" (outcome_body o) = JStr (lit (o_operation o)).
Proof. reflexivity. Qed.
Lemma outcome_outcome o : key "outcome" (outcome_body o) = JStr (lit (o_outcome o)).
Proof. reflexivity. Qed.
Lemma outcome_generation o : key "action_generation" (outcome_body o) = JInt (o_generation o).
Proof. reflexivity. Qed.
Lemma outcome_token o token : o_lease_token o = Some token ->
  key "lease_token" (outcome_body o) = JStr token.
Proof. destruct o as [? ? ? [] ? ? ? ? ? ? ?]; simpl; [|done]. by intros [= ->]. Qed.

(** An acknowledged install report is remembered. *)
Lemma outcome_brings o l g : allowed_post config g "outcome" (Some (outcome_body o)) ->
  WP (outcome o l) g (brings g l (fun _ g' _ =>
    o_operation o = "install"%string -> lit (o_outcome o) ∈ acked g')).
Proof.
  intros Ha. unfold outcome. eapply io_bind; [by apply post_brings|].
  intros d g' l' _ (x & Hx & He). apply io_ret. intros Hop. apply He.
  cbn [next_post]. rewrite String.eqb_refl, Hx, outcome_operation, Hop.
  cbn -[outcome_body lit]. left.
Qed.

End specs.
