(* ===== verification/RunnerSteps.v ===== *)
(** * The runner's steps under the monitor

    For each step of [Runner] on an operation: it is accepted from a state the
    file records ([live]), it stays in one whenever it raises an error the
    runner may catch ([ends]), and a normal return brings what the next step
    needs. *)

From Stdlib Require Import ZArith Lia Bool String SpecFloat.
From S2P Require Import Prelude PyStr PyNum PyInt Json PyDict UpdaterState Recreation.
From S2P Require Import SidecarIO DockerEngine CoordinatorClient Runner RunnerMonitor RunnerSpecs.

#[local] Open Scope bool_scope.

(** The object is the record of the file, and well formed. *)
Definition live (g : ghost) (st : UpdateState) : Prop := saved g = Some st /\ state_ok st = true.

(** The exceptions the runner's clauses may catch. *)
Definition caught (e : exn) : bool := own_error e || is_cancelled e.

Lemma live_extends g g' st : extends g g' -> live g st -> live g' st.
Proof. intros [Hs _ _ _] [Hl Ho]. split; congruence. Qed.

Lemma live_grows g l g' l' st : grows g l g' l' -> live g st -> live g' st.
Proof. intros [He _]. by apply live_extends. Qed.

(** *** Well-formed records *)

Lemma state_ok_iff st : state_ok st = true <->
  (operation_id st <> [] /\ lease_token st <> [] /\ target_id st <> [] /\ old_image_id st <> [] /\
   desired_image_id st <> [] /\ desired_digest st <> []) /\
  (0 <= action_generation st)%Z /\ (0 <= stop_timeout_seconds st <= 300)%Z /\
  (stage st ∈ _CANDIDATE_STAGES -> is_Some (candidate_id st)) /\
  (stage st ∈ _ROLLBACK_STAGES -> is_Some (rollback_id st)).
Proof.
  unfold state_ok. cbn [forallb]. rewrite !andb_true_iff, !negb_true_iff, !orb_true_iff, !negb_true_iff.
  rewrite !bool_decide_eq_false, !bool_decide_eq_true, !mem_false, !Z.leb_le.
  assert (forall (P Q : Prop), Decision P -> (~ P \/ Q) <-> (P -> Q)) as Himp.
  { intros P Q [HP|HP]; tauto. }
  rewrite !Himp by apply _. tauto.
Qed.

Lemma state_ok_set_stage s st : state_ok st = true ->
  (s ∈ _CANDIDATE_STAGES -> is_Some (candidate_id st)) ->
  (s ∈ _ROLLBACK_STAGES -> is_Some (rollback_id st)) -> state_ok (set_stage s st) = true.
Proof. rewrite !state_ok_iff. simpl. tauto. Qed.

Lemma state_ok_set_detail d st : state_ok st = true -> state_ok (set_detail d st) = true.
Proof. rewrite !state_ok_iff. simpl. tauto. Qed.

Lemma same_operation_refl st : same_operation st st.
Proof. by repeat split. Qed.

Section steps.
Context {DB : UnicodeDB} (config : UpdaterConfig) (fuel : nat).

Abbreviation WP := (wp fits (allowed config) next).

(** How a step of an operation ends: a normal return with [Q]; an error the
    runner may catch leaves the object as the file has it, with [E]. *)
Definition ends {A} (E : UpdateState -> Prop) (Q : A -> ghost -> UpdateState -> Local -> Prop)
    (g' : ghost) (out : (UpdateState * Local) * res A) : Prop :=
  match out.2 with
  | Ok x => Q x g' out.1.1 out.1.2
  | Raise e => caught e = true -> live g' out.1.1 /\ E out.1.1
  end.

(** The object is unchanged and the evidence has grown. *)
Definition keeps {A} (st : UpdateState) (g : ghost) (l : Local) (R : A -> ghost -> Local -> Prop)
    (x : A) (g' : ghost) (st' : UpdateState) (l' : Local) : Prop :=
  st' = st /\ grows g l g' l' /\ R x g' l'.

Lemma op_mono {A} (m : OP A) s g (E E' : UpdateState -> Prop) Q Q' :
  WP (m s) g (ends E Q) -> (forall st, E st -> E' st) ->
  (forall x g' st' l', Q x g' st' l' -> Q' x g' st' l') -> WP (m s) g (ends E' Q').
Proof.
  intros Hm HE HQ. eapply wp_mono; [|exact Hm]. intros g' [[st' l'] [x|e]] H; [by apply HQ|].
  intros Hc. destruct (H Hc). auto.
Qed.

Lemma op_seq {A B} (m : OP A) (f : A -> OP B) s g E R Q :
  WP (m s) g (ends E R) ->
  (forall x g' st' l', R x g' st' l' -> WP (f x (st', l')) g' (ends E Q)) ->
  WP ((m ≫= f) s) g (ends E Q).
Proof.
  intros Hm Hf. apply wp_M_bind. eapply wp_mono; [|exact Hm].
  intros g' [[st' l'] [x|e]] H; [by apply Hf | exact H].
Qed.

Lemma op_ret {A} (x : A) st l g E (Q : A -> ghost -> UpdateState -> Local -> Prop) :
  Q x g st l -> WP (mret (M := OP) x (st, l)) g (ends E Q).
Proof. done. Qed.

Lemma op_state {B} (f : UpdateState -> OP B) st l g Q :
  WP (f st (st, l)) g Q -> WP ((state ≫= f) (st, l)) g Q.
Proof. done. Qed.

Lemma op_update {B} (h : UpdateState -> UpdateState) (f : unit -> OP B) st l g Q :
  WP (f tt (h st, l)) g Q -> WP ((update h ≫= f) (st, l)) g Q.
Proof. done. Qed.

Lemma op_res {A} (r : res A) st l g (E : UpdateState -> Prop) :
  live g st -> E st ->
  WP (of_res r (st, l)) g (ends E (keeps st g l (fun x _ l' => r = Ok x /\ l' = l))).
Proof.
  intros Hl HE. destruct r as [x|e]; [|by intros Hc]. split; [done|]. split; [apply grows_refl|done].
Qed.

Lemma op_need {A} (x : option A) code st l g (E : UpdateState -> Prop) :
  live g st -> E st ->
  WP (need x code (st, l)) g (ends E (keeps st g l (fun y _ l' => x = Some y /\ l' = l))).
Proof.
  intros Hl HE. destruct x as [y|]; [|by intros Hc]. split; [done|]. split; [apply grows_refl|done].
Qed.

Lemma op_lift {A} (m : IO A) st l g (E : UpdateState -> Prop) R :
  live g st -> E st -> WP (m l) g (brings g l R) ->
  WP (lift m (st, l)) g (ends E (keeps st g l R)).
Proof.
  intros Hl HE Hm. apply wp_zoom. eapply wp_mono; [|exact Hm].
  intros g' [l' [x|e]] [Hg Hr]; [split; [done|]; split; [exact Hg | exact Hr]|]. intros _.
  split; [|done]. eapply live_grows; [exact Hg | exact Hl].
Qed.

(** The calls of the keeper tasks and of the clock need and bring nothing. *)
Lemma op_call (c : call) st l g (E : UpdateState -> Prop) :
  live g st -> E st -> allowed config g c -> (forall r, next g (Ev c r) = g) ->
  WP (perform c (st, l)) g (ends E (keeps st g l (fun _ _ _ => True))).
Proof.
  intros Hl HE Ha Hn. apply wp_perform; [done|]. intros [x|e] _; rewrite Hn; [|done].
  split; [done|]. by split; [apply grows_refl|].
Qed.

(** A record is saved when it is well formed and continues the operation. *)
Lemma op_save st l g (E : UpdateState -> Prop) : state_ok st = true -> advances g st ->
  WP (save (st, l)) g (ends E (fun _ g' st' l' => st' = st /\ l' = l /\ g' = set_saved (Some st) g)).
Proof.
  intros Ho Ha. unfold save. apply op_state, wp_perform; [by split|].
  intros [x|e] [_ Hf]; [done|]. intros Hc. exfalso. by destruct Hf as [-> | ->].
Qed.

Lemma op_stage s st l g (E : UpdateState -> Prop) :
  state_ok (set_stage s st) = true -> advances g (set_stage s st) ->
  WP (_stage s (st, l)) g (ends E (fun _ g' st' l' =>
    st' = set_stage s st /\ l' = l /\ g' = set_saved (Some (set_stage s st)) g)).
Proof. intros Ho Ha. unfold _stage. apply op_update. by apply op_save. Qed.

(** [advances] within an operation that acknowledges nothing. *)
Lemma advances_live g st st' : live g st -> same_operation st st' ->
  stage_step (stage st) (stage st') = true ->
  (stage st' = stage st \/ ~ stage st' ∈ [outcome_acknowledged; rollback_acknowledged]) ->
  advances g st'.
Proof.
  intros [Hs _] Hop Hst Hn. unfold advances. rewrite Hs. split; [done|]. split; [done|].
  rewrite !elem_of_cons in Hn. split; intros H1 H2; exfalso; destruct Hn as [Hn|Hn]; (congruence || tauto).
Qed.

(** [with suppress(DockerError)] around a request of the Engine. *)
Lemma op_suppress (m : IO unit) st l g (E : UpdateState -> Prop) (R : unit -> ghost -> Local -> Prop) :
  live g st -> E st -> WP (m l) g (brings g l R) ->
  WP (suppress (lift m) (st, l)) g (ends E (keeps st g l (fun _ _ _ => True))).
Proof.
  intros Hl HE Hm. unfold suppress. apply wp_try, wp_zoom. eapply wp_mono; [|exact Hm].
  intros g' [l' [x|e]] [Hg Hr]; cbn [fst snd] in *; [split; [done|]; by split|].
  destruct (docker_error e); [split; [done|]; by split|].
  intros _. split; [|done]. by eapply live_grows.
Qed.

(** ** What validation establishes *)

Lemma container_image_Ok d image : _container_image_id d = Ok image -> key "Image" d = JStr image.
Proof.
  unfold _container_image_id. destruct (key "Image" d); try done.
  destruct (prefixb _ _); [|done]. by intros [= ->].
Qed.

Lemma container_name_Ok d name : _container_name d = Ok name -> key "Name" d = JStr (47%N :: name).
Proof.
  unfold _container_name. destruct (key "Name" d) as [| | | |[|c s]| |]; try done.
  - destruct (N.eq_dec c 47%N) as [->|Hc]; [by intros [= ->]|]. intros H. exfalso. revert H.
    destruct c as [|p]; [done|]. repeat (destruct p as [p|p|]; try done).
Qed.

Lemma config_labels_Ok d labels : _config_labels d = Ok labels ->
  exists c, key "Config" d = JObj c /\ key "Labels" c = JObj labels.
Proof.
  unfold _config_labels. destruct (key "Config" d) as [| | | | | |c]; try done.
  destruct (key "Labels" c) as [| | | | | |ls] eqn:E; try done.
  destruct (forallb _ _); [|done]. intros [= ->]. by exists c.
Qed.

Lemma labels_match_Forall labels required : labels_match labels required = true ->
  Forall (fun kv => dget kv.1 labels = JStr kv.2) required.
Proof.
  unfold labels_match. rewrite forallb_forall_iff, Forall_forall. intros H kv Hkv.
  by apply json_eq_str, H.
Qed.

(** Both checks have the same shape. *)
Ltac by_checks H :=
  destruct (json_eq _ _) eqn:?Hid in H; [|done]; cbn [negb] in H;
  apply bind_Ok in H as (image' & ?Himage & H); cbv beta in H;
  destruct (bool_decide _) eqn:?Heq in H; [|done]; cbn [negb] in H;
  apply bind_Ok in H as (name & ?Hname & H); cbv beta in H;
  destruct (mem _ _) eqn:?Hmem in H; [|done]; cbn [negb] in H;
  apply bind_Ok in H as (labels & ?Hlabels & H); cbv beta in H;
  destruct (labels_match _ _) eqn:?Hmatch in H; [|done].

Lemma check_operation_shows st id role image names d :
  check_operation_container config st id role image names d = Ok tt ->
  exists name, name ∈ names /\ shows id image name (role_labels config st role) d.
Proof.
  unfold check_operation_container. intros H. by_checks H.
  apply bool_decide_eq_true in Heq as ->. apply mem_true in Hmem. exists name. split; [done|].
  split; [by apply json_eq_str|]. split; [by apply container_image_Ok|].
  split; [by apply container_name_Ok|]. apply config_labels_Ok in Hlabels as (c & ? & ?).
  exists c, labels. split; [done|]. split; [done|]. by apply labels_match_Forall.
Qed.

Lemma check_previous_shows st names d : check_previous config st names d = Ok tt ->
  exists name, name ∈ names /\ shows (target_id st) (old_image_id st) name (previous_labels config) d.
Proof.
  unfold check_previous. intros H. by_checks H.
  apply bool_decide_eq_true in Heq as ->. apply mem_true in Hmem. exists name. split; [done|].
  split; [by apply json_eq_str|]. split; [by apply container_image_Ok|].
  split; [by apply container_name_Ok|]. apply config_labels_Ok in Hlabels as (c & ? & ?).
  exists c, labels. split; [done|]. split; [done|]. by apply labels_match_Forall.
Qed.

Lemma inspect_or_brings id code l g :
  WP (inspect_or id code l) g (brings g l (fun d g' l' => (id, d) ∈ seen g' /\ cached l')).
Proof.
  unfold inspect_or. apply io_try; [apply inspect_brings|].
  intros e m' g' l' He _. destruct (not_found e); [|done]. injection He as <-. by apply io_res.
Qed.

(** Weakening of [keeps] along growing evidence. *)
Lemma keeps_mono {A} st g l g1 l1 (R R' : A -> ghost -> Local -> Prop) x g' st' l' :
  grows g l g1 l1 -> (forall x g' l', R x g' l' -> R' x g' l') ->
  keeps st g1 l1 R x g' st' l' -> keeps st g l R' x g' st' l'.
Proof. intros Hg HR (-> & Hg' & Hr). split; [done|]. split; [by eapply grows_trans | auto]. Qed.

(** Sequencing steps that keep the object. *)
Lemma op_then {A B} (m : OP A) (f : A -> OP B) st l g E R Q :
  live g st ->
  WP (m (st, l)) g (ends E (keeps st g l R)) ->
  (forall x g' l', grows g l g' l' -> live g' st -> R x g' l' ->
     WP (f x (st, l')) g' (ends E (keeps st g' l' Q))) ->
  WP ((m ≫= f) (st, l)) g (ends E (keeps st g l Q)).
Proof.
  intros Hl Hm Hf. eapply op_seq; [exact Hm|]. intros x g' st' l' (-> & Hg & Hr).
  eapply op_mono; [apply Hf; [done| by eapply live_grows |done] | done |].
  intros y g2 st2 l2 H. eapply keeps_mono; [exact Hg| |exact H]. done.
Qed.

(** ... and a final step that may change it. *)
Lemma op_finally {A B} (m : OP A) (f : A -> OP B) st l g E R Q :
  live g st ->
  WP (m (st, l)) g (ends E (keeps st g l R)) ->
  (forall x g' l', grows g l g' l' -> live g' st -> R x g' l' -> WP (f x (st, l')) g' (ends E Q)) ->
  WP ((m ≫= f) (st, l)) g (ends E Q).
Proof.
  intros Hl Hm Hf. eapply op_seq; [exact Hm|]. intros x g' st' l' (-> & Hg & Hr).
  apply Hf; [done| by eapply live_grows |done].
Qed.

Lemma op_ret_keeps {A} (x : A) st l g E (R : A -> ghost -> Local -> Prop) : R x g l ->
  WP (mret (M := OP) x (st, l)) g (ends E (keeps st g l R)).
Proof. intros H. split; [done|]. split; [apply grows_refl | exact H]. Qed.

Lemma validate_container_spec id role image names st l g (E : UpdateState -> Prop) :
  live g st -> E st ->
  WP (_validate_operation_container config id role image names (st, l)) g
    (ends E (keeps st g l (fun d g' l' =>
       (id, d) ∈ seen g' /\ identified config g' st id image role names /\ cached l'))).
Proof.
  intros Hl HE. unfold _validate_operation_container. apply op_state.
  eapply op_then; [done|by apply op_lift, inspect_or_brings|].
  intros d g1 l1 _ Hl1 [Hd Hc]. eapply op_then; [done|by apply op_res|].
  intros [] g2 l2 [He _] _ [Hok ->]. apply op_ret_keeps.
  apply check_operation_shows in Hok as (name & ? & ?). apply (ext_seen _ _ He) in Hd.
  split; [done|]. split; [|done]. by exists d, name.
Qed.

Lemma validate_candidate_spec st l g (E : UpdateState -> Prop) : live g st -> E st ->
  WP (_validate_candidate config (st, l)) g (ends E (keeps st g l (fun c g' l' =>
    candidate_id st = Some c /\
    identified config g' st c (desired_image_id st) "candidate" (candidate_names config st) /\ cached l'))).
Proof.
  intros Hl HE. unfold _validate_candidate. apply op_state.
  eapply op_then; [done|by apply op_need|]. intros c g1 l1 _ Hl1 [Hc ->].
  eapply op_then; [done|by apply validate_container_spec|]. intros d g2 l2 _ _ (_ & Hi & Hca).
  by apply op_ret_keeps.
Qed.

Lemma validate_rollback_spec st l g (E : UpdateState -> Prop) : live g st -> E st ->
  WP (_validate_rollback config (st, l)) g (ends E (keeps st g l (fun '(c, d) g' l' =>
    rollback_id st = Some c /\ (c, d) ∈ seen g' /\
    identified config g' st c (old_image_id st) "rollback" [container_name config] /\ cached l'))).
Proof.
  intros Hl HE. unfold _validate_rollback. apply op_state.
  eapply op_then; [done|by apply op_need|]. intros c g1 l1 _ Hl1 [Hc ->].
  eapply op_then; [done|by apply validate_container_spec|]. intros d g2 l2 _ _ (Hd & Hi & Hca).
  by apply op_ret_keeps.
Qed.

Lemma validate_previous_spec names st l g (E : UpdateState -> Prop) : live g st -> E st ->
  WP (_validate_previous config names (st, l)) g (ends E (keeps st g l (fun _ g' _ =>
    previous_identified config g' st (default [container_name config; previous_name config st] names)))).
Proof.
  intros Hl HE. unfold _validate_previous. apply op_state.
  eapply op_then; [done|by apply op_lift, inspect_or_brings|].
  intros d g1 l1 _ Hl1 [Hd Hc]. eapply op_then; [done|by apply op_res|].
  intros [] g2 l2 [He _] _ [Hok ->]. apply op_ret_keeps.
  apply check_previous_shows in Hok as (name & ? & ?). apply (ext_seen _ _ He) in Hd.
  by exists d, name.
Qed.

Lemma healthy_spec id st l g (E : UpdateState -> Prop) : live g st -> E st ->
  WP (healthy config fuel id (st, l)) g (ends E (keeps st g l (fun _ g' l' => seen_healthy g' id /\ cached l'))).
Proof. intros Hl HE. by apply op_lift, wait_healthy_brings. Qed.

Lemma find_spec role st l g (E : UpdateState -> Prop) : live g st -> E st ->
  WP (_find_operation_container role (st, l)) g (ends E (keeps st g l (fun _ _ _ => True))).
Proof.
  intros Hl HE. unfold _find_operation_container. apply op_state.
  eapply op_then; [done|by apply op_lift, containers_by_labels_brings|].
  intros matches g1 l1 _ Hl1 _.
  assert (forall code, WP (of_res (UpdaterError (A := option (list N)) code) (st, l1)) g1
    (ends E (keeps st g1 l1 (fun _ _ _ => True)))) as Herr by (by intros code Hc).
  destruct matches as [|d [|? ?]]; [by apply op_ret_keeps | | apply Herr].
  destruct (key "Id" d) as [| | | |[|c s]| |]; try apply Herr. by apply op_ret_keeps.
Qed.

Lemma ensure_name_spec id expected allowed_current st l g (E : UpdateState -> Prop) :
  live g st -> E st -> allowed_docker config g (ContainerRename id expected) ->
  WP (_ensure_name id expected allowed_current (st, l)) g (ends E (keeps st g l (fun _ _ _ => True))).
Proof.
  intros Hl HE Ha. unfold _ensure_name.
  eapply op_then; [done|by apply op_lift, inspect_brings|]. intros d g1 l1 [He1 _] Hl1 _.
  eapply op_then; [done|by apply op_res|]. intros current g2 l2 [He2 _] Hl2 _.
  destruct (bool_decide (current = expected)); [by apply op_ret_keeps|].
  destruct (bool_decide (current = allowed_current)); cbn [negb]; [|by intros Hc].
  apply op_lift; [done|done|]. apply mutation_brings.
  eapply allowed_docker_mono; [|exact Ha]. by etrans.
Qed.

Lemma stop_keeper_spec st l g (E : UpdateState -> Prop) : live g st -> E st ->
  WP (_stop_lease_keeper (st, l)) g (ends E (keeps st g l (fun _ _ _ => True))).
Proof.
  intros Hl HE. unfold _stop_lease_keeper. apply wp_M_bind. cbn. destruct (lease_task l).
  - by apply op_call.
  - by apply op_ret_keeps.
Qed.

(** ** Removing the old container *)

Lemma remove_previous_spec st l g (E : UpdateState -> Prop) :
  live g st -> E st -> replaced config g st -> cached l ->
  WP (remove_previous config (st, l)) g (ends E (keeps st g l (fun _ g' _ => target_id st ∈ gone g'))).
Proof.
  intros Hl HE Hr Hc. unfold remove_previous. apply op_state.
  eapply op_then; [done|by apply op_lift, exists_brings|].
  intros present g1 l1 [He1 Hc1] Hl1 Hg. destruct present; [|by apply op_ret_keeps, Hg].
  eapply op_then; [done|by apply validate_previous_spec|].
  intros d g2 l2 [He2 _] Hl2 Hp. apply op_lift; [done|done|].
  apply remove_brings. split; [done|]. exists st. split; [apply Hl2|]. split; [done|]. split; [|done].
  eapply replaced_mono; [|exact Hr]. by etrans.
Qed.

(** Clearing the file ends the operation. *)
Lemma clear_spec st l g (E : UpdateState -> Prop) :
  allowed config g ClearState -> WP (perform ClearState (st, l)) g (ends E (fun _ _ _ _ => True)).
Proof.
  intros Ha. apply wp_perform; [done|]. intros [x|e] [_ Hf]; [done|].
  intros Hc. exfalso. by destruct Hf as [-> | ->].
Qed.

Lemma cleanup_success_spec st l g (E : UpdateState -> Prop) :
  live g st -> E st -> stage st = outcome_acknowledged ->
  WP (_cleanup_success config fuel (st, l)) g (ends E (fun _ _ _ _ => True)).
Proof.
  intros Hl HE Hst. unfold _cleanup_success.
  eapply op_finally; [done|by apply validate_candidate_spec|]. intros c g1 l1 _ Hl1 (Hc & Hi & Hca).
  eapply op_finally; [done|by apply healthy_spec|]. intros u g2 l2 [He2 Hca2] Hl2 [Hh Hca'].
  assert (replaced config g2 st) as Hr.
  { left. split; [done|]. exists c. split; [done|]. split; [|done]. eapply identified_mono; [exact He2|].
    unfold candidate_names in Hi. rewrite Hst in Hi. exact Hi. }
  eapply op_finally; [done|by apply remove_previous_spec|]. intros u' g3 l3 [He3 _] Hl3 Hg.
  apply clear_spec. exists st. split; [apply Hl3|]. left. split; [|done]. by eapply replaced_mono.
Qed.

Lemma cleanup_rollback_spec st l g (E : UpdateState -> Prop) :
  live g st -> E st -> stage st = rollback_acknowledged ->
  WP (_cleanup_rollback config fuel (st, l)) g (ends E (fun _ _ _ _ => True)).
Proof.
  intros Hl HE Hst. unfold _cleanup_rollback.
  eapply op_finally; [done|by apply validate_rollback_spec|]. intros [c d] g1 l1 _ Hl1 (Hc & Hd & Hi & Hca).
  apply op_state. eapply op_finally; [done|by apply op_res|]. intros [] g1' l1' [He1 _] Hl1' [Hf ->].
  eapply op_finally; [done|by apply healthy_spec|]. intros u g2 l2 [He2 Hca2] Hl2 [Hh Hca'].
  assert (extends g1 g2) as He by (by etrans).
  assert (replaced config g2 st) as Hr.
  { right. split; [done|]. exists c. split; [done|]. split; [by eapply identified_mono|].
    split; [|done]. exists d. split; [by apply (ext_seen _ _ He) | done]. }
  eapply op_finally; [done|by apply remove_previous_spec|]. intros u' g3 l3 [He3 _] Hl3 Hg.
  apply clear_spec. exists st. split; [apply Hl3|]. left. split; [|done]. by eapply replaced_mono.
Qed.

End steps.
