(* ===== verification/RunnerSafety.v ===== *)
(** * The update runner is safe

    Every run of [run_forever], whatever Docker, the coordinator, the file and
    the clock answer, and wherever it is killed, is accepted by the monitor of
    [RunnerMonitor]; [RunnerHistory] reads the theorems off. *)

From Stdlib Require Import ZArith Lia Bool String SpecFloat.
From S2P Require Import Prelude PyStr PyNum PyInt Json PyDict UpdaterState Recreation.
From S2P Require Import UpdateRecovery SidecarIO DockerEngine CoordinatorClient Runner.
From S2P Require Import RunnerMonitor RunnerSpecs RunnerSteps.

#[local] Open Scope bool_scope.

(** Membership of a constant stage in a constant list. *)
Ltac not_in := solve [intros ?Hin; exfalso; revert Hin; apply mem_false; reflexivity | apply mem_false; reflexivity].
Ltac is_in := solve [apply mem_true; reflexivity].

Section safety.
Context {DB : UnicodeDB} (config : UpdaterConfig) (fuel : nat).

Abbreviation WP := (wp fits (allowed config) next).

(** An operation that ends or goes on, with nothing to add. *)
Definition done_ {A} (_ : A) (_ : ghost) (_ : UpdateState) (_ : Local) : Prop := True.

(** ** Reports *)

Lemma report_allowed st o cd cb detail g : live g st -> allowed_report config g st (lit o) ->
  allowed_post config g "outcome" (Some (outcome_body (install_report st o cd cb detail))).
Proof.
  intros [Hs _] Hr _. eexists. split; [reflexivity|]. right. split; [apply outcome_operation|].
  exists st. split; [done|]. split; [by apply outcome_token|]. split; [apply outcome_generation|].
  exists (lit o). split; [apply outcome_outcome | done].
Qed.

Lemma report_spec st o cd cb detail l g (E : UpdateState -> Prop) :
  live g st -> E st -> allowed_report config g st (lit o) ->
  WP (lift (outcome (install_report st o cd cb detail)) (st, l)) g
    (ends E (keeps st g l (fun _ g' _ => lit o ∈ acked g'))).
Proof.
  intros Hl HE Hr. apply op_lift; [done|done|].
  eapply io_mono; [by apply outcome_brings, report_allowed|]. intros x g' l' _ H. by apply H.
Qed.

Definition any (_ : UpdateState) : Prop := True.

Lemma set_detail_same st : set_detail (detail_code st) st = st.
Proof. by destruct st. Qed.

Lemma live_save st st' g : live g st -> state_ok st' = true -> live (set_saved (Some st') g) st'.
Proof. by split. Qed.

Lemma ensure_detail_spec code st l g : live g st ->
  WP (ensure_detail code (st, l)) g (ends any (fun _ g' st' _ => exists d, st' = set_detail d st /\ live g' st')).
Proof.
  intros Hl. unfold ensure_detail. apply op_state.
  destruct (detail_code st) as [d|] eqn:Hd.
  - apply op_ret. exists (detail_code st). by rewrite set_detail_same.
  - apply op_update. assert (state_ok (set_detail (Some code) st) = true) as Ho
      by (apply state_ok_set_detail, Hl).
    eapply op_mono; [apply op_save with (E := any); [done|] | done |].
    + eapply advances_live; [done|by repeat split| |by left].
      unfold stage_step. by rewrite bool_decide_true.
    + intros u g' st' l' (-> & -> & ->). exists (Some code). split; [done|]. by apply (live_save st).
Qed.

Lemma ack_failure_spec code st l g : live g st -> stage st = prepared ->
  WP (_ack_pre_cutover_failure code (st, l)) g (ends any done_).
Proof.
  intros Hl Hst. unfold _ack_pre_cutover_failure.
  eapply op_seq; [by apply ensure_detail_spec|]. intros u g1 st1 l1 (d & -> & Hl1).
  eapply op_finally; [done|by apply stop_keeper_spec|]. intros u' g2 l2 _ Hl2 _.
  apply op_state. eapply op_finally; [done|apply report_spec; [done|done|]|].
  { right; right. by split. }
  intros u2 g3 l3 _ Hl3 Hack. eapply op_mono; [apply clear_spec with (E := any)|done|done].
  exists (set_detail d st). split; [apply Hl3|]. right. by split.
Qed.

(** ** Completing a success *)

Definition forward (st : UpdateState) : Prop := is_rollback (stage st) = false.

(** Renaming the old container. *)
Lemma rename_previous_spec st l g (E : UpdateState -> Prop) : live g st -> E st ->
  WP (_ensure_name (target_id st) (previous_name config st) (container_name config) (st, l)) g
    (ends E (keeps st g l (fun _ _ _ => True))).
Proof.
  intros Hl HE. apply ensure_name_spec; [done|done|]. exists st. split; [apply Hl|]. by left.
Qed.

(** A step of the candidate's way to completion: the object is the same up to
    its stage, the file has it, and the evidence is kept. *)
Definition moved (st : UpdateState) (s : UpdateStage -> Prop) (P : ghost -> Prop) {A} (_ : A)
    (g' : ghost) (st' : UpdateState) (_ : Local) : Prop :=
  exists s', s s' /\ st' = set_stage s' st /\ live g' st' /\ P g'.

Lemma set_stage_same st : set_stage (stage st) st = st.
Proof. by destruct st. Qed.
Lemma set_stage_twice s s' st : set_stage s (set_stage s' st) = set_stage s st.
Proof. done. Qed.

Lemma candidate_names_sub st : candidate_names config st ⊆ [container_name config; candidate_name config st].
Proof.
  unfold candidate_names. destruct (mem _ _); intros x; rewrite !elem_of_cons; tauto.
Qed.

Lemma identified_names g st id image role names names' : names ⊆ names' ->
  identified config g st id image role names -> identified config g st id image role names'.
Proof. intros Hs (d & name & ? & ? & ?). exists d, name. split; auto. Qed.

(** What the completion needs to know of the candidate; it does not depend on
    the stage. *)
Definition candidate_shown (st : UpdateState) (c : list N) (g : ghost) : Prop :=
  identified config g st c (desired_image_id st) "candidate"
    [container_name config; candidate_name config st] /\ seen_healthy g c.

Lemma candidate_shown_mono st c g g' : extends g g' -> candidate_shown st c g -> candidate_shown st c g'.
Proof. intros He [? ?]. split; [by eapply identified_mono | by eapply seen_healthy_mono]. Qed.

(** Recording the next stage of a live operation. *)
Lemma op_move s st l g (E : UpdateState -> Prop) (P : ghost -> Prop) :
  live g st -> stage_step (stage st) s = true ->
  (s ∈ _CANDIDATE_STAGES -> is_Some (candidate_id st)) ->
  (s ∈ _ROLLBACK_STAGES -> is_Some (rollback_id st)) ->
  (s = stage st \/ ~ s ∈ [outcome_acknowledged; rollback_acknowledged]) ->
  P (set_saved (Some (set_stage s st)) g) ->
  WP (_stage s (st, l)) g (ends E (fun _ g' st' _ => st' = set_stage s st /\ live g' st' /\ P g')).
Proof.
  intros Hl Hst Hc Hr Hs HP.
  assert (state_ok (set_stage s st) = true) as Ho by (apply state_ok_set_stage; [apply Hl|done|done]).
  eapply op_mono; [apply op_stage with (E := E); [done|]|done|].
  - by eapply advances_live; [exact Hl|by repeat split| |].
  - intros u g' st' l' (-> & -> & ->). split; [done|]. split; [by apply (live_save st) | done].
Qed.

Lemma rename_old_spec st l g c : live g st -> forward st -> candidate_id st = Some c ->
  candidate_shown st c g ->
  WP ((if mem (stage st) [old_renamed; candidate_renamed; outcome_acknowledged] then mret tt
       else _ ← _ensure_name (target_id st) (previous_name config st) (container_name config);
            _stage old_renamed) (st, l)) g
    (ends forward (moved st (fun s => s ∈ [old_renamed; candidate_renamed; outcome_acknowledged])
      (candidate_shown st c))).
Proof.
  intros Hl Hf Hc Hsh. destruct (mem _ _) eqn:Hm.
  - apply op_ret. exists (stage st). rewrite set_stage_same. apply mem_true in Hm. by split.
  - eapply op_finally; [done|by apply rename_previous_spec|]. intros u g1 l1 [He _] Hl1 _.
    eapply op_mono; [apply op_move with (E := forward) (P := candidate_shown st c); [done| | | | |]|done|].
    + unfold forward in Hf. destruct (stage st); try done.
    + intros _. by rewrite Hc.
    + not_in.
    + right. not_in.
    + exact (candidate_shown_mono _ _ _ _ He Hsh).
    + intros u2 g2 st2 l2 (-> & ? & ?). exists old_renamed. split; [left|]. by split.
Qed.

Lemma rename_candidate_spec st l g c : live g st -> forward st -> candidate_id st = Some c ->
  stage st ∈ [old_renamed; candidate_renamed; outcome_acknowledged] -> candidate_shown st c g ->
  WP ((if bool_decide (stage st = old_renamed) then
         _ ← _ensure_name c (container_name config) (candidate_name config st);
         _stage candidate_renamed
       else mret tt) (st, l)) g
    (ends forward (moved st (fun s => s ∈ [candidate_renamed; outcome_acknowledged]) (candidate_shown st c))).
Proof.
  intros Hl Hf Hc Hst Hsh. destruct (bool_decide (stage st = old_renamed)) eqn:Hb.
  - apply bool_decide_eq_true in Hb.
    eapply op_finally; [done|apply ensure_name_spec; [done|done|]|].
    { exists st. split; [apply Hl|]. right. repeat split; [done..|apply Hsh]. }
    intros u g1 l1 [He _] Hl1 _.
    eapply op_mono; [apply op_move with (E := forward) (P := candidate_shown st c); [done| | | | |]|done|].
    + by rewrite Hb.
    + intros _. by rewrite Hc.
    + not_in.
    + right. not_in.
    + exact (candidate_shown_mono _ _ _ _ He Hsh).
    + intros u2 g2 st2 l2 (-> & ? & ?). exists candidate_renamed. split; [left|]. by split.
  - apply bool_decide_eq_false in Hb. apply op_ret. exists (stage st). rewrite set_stage_same.
    apply elem_of_cons in Hst as [|]; [done|]. by split.
Qed.

Lemma report_success_spec st l g c : live g st -> forward st -> candidate_id st = Some c ->
  stage st ∈ [candidate_renamed; outcome_acknowledged] -> candidate_shown st c g ->
  WP ((if bool_decide (stage st = candidate_renamed) then
         _ ← _stop_lease_keeper;
         _ ← lift (outcome (install_report st "succeeded" (Some (desired_digest st)) (desired_build st) None));
         _stage outcome_acknowledged
       else mret tt) (st, l)) g
    (ends forward (moved st (fun s => s = outcome_acknowledged) (fun _ => True))).
Proof.
  intros Hl Hf Hc Hst Hsh. destruct (bool_decide (stage st = candidate_renamed)) eqn:Hb.
  - apply bool_decide_eq_true in Hb.
    eapply op_finally; [done|by apply stop_keeper_spec|]. intros u g1 l1 [He1 _] Hl1 _.
    eapply op_finally; [done|apply report_spec; [done|done|]|].
    { left. split; [done|]. split; [done|]. exists c. split; [done|].
      by apply (candidate_shown_mono _ _ g). }
    intros u' g2 l2 _ Hl2 Hack.
    assert (state_ok (set_stage outcome_acknowledged st) = true) as Ho.
    { apply state_ok_set_stage; [apply Hl|intros _; by rewrite Hc|not_in]. }
    eapply op_mono; [apply op_stage with (E := forward); [done|]|done|].
    + unfold advances. destruct Hl2 as [-> _]. split; [by repeat split|]. rewrite Hb. split; [done|].
      split; [done|]. by intros _ ?.
    + intros u2 g3 st3 l3 (-> & -> & ->). exists outcome_acknowledged. split; [done|].
      split; [done|]. split; [|done]. by apply (live_save st).
  - apply bool_decide_eq_false in Hb. apply op_ret. exists (stage st). rewrite set_stage_same.
    apply elem_of_cons in Hst as [|Hst]; [done|]. apply list_elem_of_singleton in Hst. by split.
Qed.

Lemma finish_success_spec st l g : live g st -> forward st ->
  WP (_finish_success config fuel (st, l)) g (ends forward done_).
Proof.
  intros Hl Hf. unfold _finish_success.
  eapply op_finally; [done|by apply validate_candidate_spec|]. intros c g1 l1 _ Hl1 (Hc & Hi & _).
  eapply op_finally; [done|by apply healthy_spec|]. intros u g2 l2 [He2 _] Hl2 [Hh _].
  assert (candidate_shown st c g2) as Hsh.
  { split; [|done]. eapply identified_mono; [exact He2|]. eapply identified_names; [|exact Hi].
    apply candidate_names_sub. }
  apply op_state. eapply op_seq; [by apply rename_old_spec|].
  intros u3 g3 st3 l3 (s3 & Hs3 & -> & Hl3 & Hsh3).
  assert (forall s, s ∈ [old_renamed; candidate_renamed; outcome_acknowledged] ->
    forward (set_stage s st)) as Hfw.
  { intros s. rewrite !elem_of_cons. intros [-> |[-> |[-> |Hs]]]; try done. by apply not_elem_of_nil in Hs. }
  apply op_state. eapply op_seq; [apply rename_candidate_spec; [done|by apply Hfw|done|done|done]|].
  intros u4 g4 st4 l4 (s4 & Hs4 & -> & Hl4 & Hsh4). rewrite set_stage_twice in *.
  apply op_state. eapply op_seq; [apply (report_success_spec _ _ _ c); [done|apply Hfw; by right|done|done|done]|].
  intros u5 g5 st5 l5 (s5 & -> & -> & Hl5 & _).
  by apply cleanup_success_spec.
Qed.

(** ** Completing a rollback *)

Lemma finish_rollback_spec st l g : live g st -> stage st = rollback_healthy ->
  WP (_finish_rollback_outcome config fuel (st, l)) g (ends any done_).
Proof.
  intros Hl Hst. unfold _finish_rollback_outcome.
  eapply op_finally; [done|by apply validate_rollback_spec|]. intros [c d] g1 l1 _ Hl1 (Hc & Hd & Hi & _).
  apply op_state. eapply op_finally; [done|by apply op_res|]. intros [] g1' l1' [He1 _] Hl1' [Hf ->].
  eapply op_finally; [done|by apply healthy_spec|]. intros u g2 l2 [He2 _] Hl2 [Hh _].
  eapply op_finally; [done|by apply stop_keeper_spec|]. intros u' g3 l3 [He3 _] Hl3 _.
  eapply op_finally; [done|apply report_spec; [done|done|]|].
  { right; left. split; [done|]. split; [done|]. exists c. split; [done|].
    assert (extends g1 g3) as He by (etrans; [exact He1|by etrans]).
    split; [exact (identified_mono _ _ _ _ _ _ _ _ He Hi)|]. split; [|exact (seen_healthy_mono _ _ _ He3 Hh)].
    exists d. split; [by apply (ext_seen _ _ He) | done]. }
  intros u4 g4 l4 _ Hl4 Hack.
  assert (state_ok (set_stage rollback_acknowledged st) = true) as Ho.
  { apply state_ok_set_stage; [apply Hl|not_in|intros _; by rewrite Hc]. }
  eapply op_seq; [apply op_stage with (E := any); [done|]|].
  - unfold advances. destruct Hl4 as [-> _]. split; [by repeat split|]. rewrite Hst. split; [done|].
    split; [done|]. by intros _ ?.
  - intros u5 g5 st5 l5 (-> & -> & ->). apply cleanup_rollback_spec; [by apply (live_save st)|done|done].
Qed.

(** ** Installing *)

(** A plain step forward of the installation. *)
Lemma op_forward s st l g : live g st -> stage_step (stage st) s = true ->
  (s ∈ _CANDIDATE_STAGES -> is_Some (candidate_id st)) -> is_rollback s = false ->
  s <> outcome_acknowledged ->
  WP (_stage s (st, l)) g (ends forward (fun _ g' st' l' => st' = set_stage s st /\ live g' st')).
Proof.
  intros Hl Hst Hc Hr Hs. eapply op_mono; [apply op_move with (E := forward) (P := fun _ => True); try done| done|].
  - destruct s; try (vm_compute in Hr; discriminate Hr); not_in.
  - right. rewrite !elem_of_cons. intros [->|[->|H]]; [done|done|by apply not_elem_of_nil in H].
  - intros u g' st' l' (? & ? & _). by split.
Qed.

(** A loop over the networks. *)
Lemma op_for_each {X} (body : X -> OP unit) xs st l g (E : UpdateState -> Prop) :
  live g st ->
  (forall x g' l', x ∈ xs -> live g' st ->
     WP (body x (st, l')) g' (ends E (keeps st g' l' (fun _ _ _ => True)))) ->
  WP (for_each body xs (st, l)) g (ends E (keeps st g l (fun _ _ _ => True))).
Proof.
  intros Hl. revert l g Hl. induction xs as [|x xs IH]; intros l g Hl Hb; cbn [for_each].
  { by apply op_ret_keeps. }
  eapply op_then; [done|by apply Hb; [left|]|].
  intros u g1 l1 _ Hl1 _. apply IH; [done|]. intros y g' l' Hy. apply Hb. by right.
Qed.

Lemma install_spec target old_image desired st l g : live g st -> stage st = prepared ->
  WP (_install config fuel target old_image desired (st, l)) g (ends forward done_).
Proof.
  intros Hl Hst. unfold _install.
  assert (forward st) as Hfw by (unfold forward; by rewrite Hst).
  eapply op_seq; [apply op_forward; [done|by rewrite Hst|not_in|done|done]|].
  intros u1 g1 st1 l1 [-> Hl1]. apply op_state.
  eapply op_finally; [done|apply op_lift; [done|done|apply mutation_brings]|].
  { eexists. split; [apply Hl1|]. by left. }
  intros u2 g2 l2 _ Hl2 _.
  eapply op_seq; [apply op_forward; [done|done|not_in|done|done]|].
  intros u3 g3 st3 l3 [-> Hl3].
  eapply op_finally; [done|apply op_for_each; [done|]|].
  { intros [n ep] g' l' Hin Hlive. apply op_lift; [done|done|]. apply mutation_brings. eexists. split; [apply Hlive|].
    split; [done|]. split; [|by left]. apply list_elem_of_fmap. by exists (n, ep). }
  intros u4 g4 l4 _ Hl4 _.
  eapply op_seq; [apply op_forward; [done|done|not_in|done|done]|].
  intros u5 g5 st5 l5 [-> Hl5].
  eapply op_finally; [done|by apply op_lift; [done|done|apply multi_network_brings]|].
  intros multi g6 l6 _ Hl6 _. eapply op_finally; [done|by apply op_res|].
  intros [spec created] g7 l7 _ Hl7 [Hspec ->].
  eapply op_finally; [done|apply op_lift; [done|done|apply create_brings]|].
  { eexists. split; [apply Hl7|]. by left. }
  intros candidate g8 l8 _ Hl8 _. apply op_update.
  eapply op_seq.
  { unfold _stage. apply op_update, op_save with (E := forward).
    - apply state_ok_set_stage; [|by eexists|not_in].
      destruct Hl8 as [_ Hok]. revert Hok. rewrite !state_ok_iff. simpl.
      intros (? & ? & ? & _ & _). split; [done|]. split; [done|]. split; [done|].
      split; [by eexists|]. not_in.
    - destruct Hl8 as [Hs _]. unfold advances. rewrite Hs. split; [by repeat split|].
      split; [done|]. by split. }
  intros u9 g9 st9 l9 (-> & -> & ->). rewrite set_stage_twice.
  match goal with |- wp _ _ _ (_ (?s, _)) _ _ => set (st9 := s) end.
  assert (live (set_saved (Some st9) g8) st9) as Hl9.
  { split; [done|]. destruct Hl as [_ Hok]. revert Hok. rewrite !state_ok_iff. simpl.
    intros (? & ? & ? & _ & _). split; [done|]. split; [done|]. split; [done|].
    split; [by eexists|]. not_in. }
  eapply op_finally; [done|apply op_for_each; [done|]|].
  { intros [n ep] g' l' Hin Hlive. apply op_lift; [done|done|]. apply mutation_brings. eexists. split; [apply Hlive|].
    split; [|by left]. unfold remaining_networks in Hin. apply list_elem_of_In, filter_In in Hin as [Hin _].
    by apply list_elem_of_In. }
  intros u10 g10 l10 _ Hl10 _.
  eapply op_finally; [done|apply op_lift; [done|done|apply mutation_brings]|].
  { eexists. split; [apply Hl10|]. by left. }
  intros u11 g11 l11 _ Hl11 _.
  eapply op_seq; [apply op_forward; [done|done|by eexists|done|done]|].
  intros u12 g12 st12 l12 [-> Hl12].
  eapply op_finally; [done|by apply healthy_spec|]. intros u13 g13 l13 _ Hl13 _.
  eapply op_seq; [apply op_forward; [done|done|by eexists|done|done]|].
  intros u14 g14 st14 l14 [-> Hl14]. by apply finish_success_spec.
Qed.

(** ** Rolling back *)

Definition open_rollback (st : UpdateState) : Prop :=
  is_rollback (stage st) = true /\ stage st <> rollback_acknowledged.

(** A record is well formed whatever its optional containers, as its stage
    needs them. *)
Lemma state_ok_set_ids c r d s st : state_ok st = true ->
  (s ∈ _CANDIDATE_STAGES -> is_Some c) -> (s ∈ _ROLLBACK_STAGES -> is_Some r) ->
  state_ok (set_stage s (set_ids c r d st)) = true.
Proof. rewrite !state_ok_iff. simpl. tauto. Qed.

Lemma rollback_stages s : is_rollback s = true -> s <> rollback_requested -> s ∈ _ROLLBACK_STAGES.
Proof. destruct s; intros H Hne; try (vm_compute in H; discriminate H); try done; is_in. Qed.

Lemma no_rollback_requested st : state_ok st = true -> is_rollback (stage st) = true ->
  rollback_id st = None -> stage st = rollback_requested.
Proof.
  intros Hok Hr Hn. destruct (decide (stage st = rollback_requested)) as [|Hne]; [done|].
  apply state_ok_iff in Hok as (_ & _ & _ & _ & Hrb). destruct (Hrb (rollback_stages _ Hr Hne)). congruence.
Qed.

Lemma not_candidate_stage s : is_rollback s = true -> s ∉ _CANDIDATE_STAGES.
Proof. destruct s; intros H; try (vm_compute in H; discriminate H); not_in. Qed.

(** Saving the object with new optional containers. *)
Lemma op_save_ids c r s st l g (E : UpdateState -> Prop) :
  live g st -> open_rollback st -> is_rollback s = true -> s <> rollback_acknowledged ->
  stage_step (stage st) s = true -> (s ∈ _ROLLBACK_STAGES -> is_Some r) ->
  WP (save (set_stage s (set_ids c r (detail_code st) st), l)) g (ends E (fun _ g' st' _ =>
    st' = set_stage s (set_ids c r (detail_code st) st) /\ live g' st' /\ g' = set_saved (Some st') g)).
Proof.
  intros Hl [Hr Hna] Hs Hsa Hstep Hrb.
  assert (state_ok (set_stage s (set_ids c r (detail_code st) st)) = true) as Ho.
  { apply state_ok_set_ids; [apply Hl| |done]. intros Hc. by destruct (not_candidate_stage _ Hs). }
  eapply op_mono; [apply op_save with (E := E); [done|]|done|].
  - eapply advances_live; [exact Hl|by repeat split|done|]. right. simpl. rewrite !elem_of_cons.
    intros [->|[->|H]]; [done|done|by apply not_elem_of_nil in H].
  - intros u g' st' l' (-> & -> & ->). split; [done|]. split; [by apply (live_save st) | done].
Qed.

Lemma stage_step_refl s : stage_step s s = true.
Proof. unfold stage_step. by rewrite bool_decide_true. Qed.

Lemma set_candidate_same st : set_candidate (candidate_id st) st = st.
Proof. by destruct st. Qed.

Lemma discard_candidate_spec st l g : live g st -> open_rollback st ->
  WP (discard_candidate config (st, l)) g (ends any (fun _ g' st' _ => live g' st' /\ open_rollback st')).
Proof.
  intros Hl Ho. unfold discard_candidate. apply op_state.
  eapply op_seq with (E := any) (R := fun _ g' st' _ => live g' st' /\ open_rollback st').
  - destruct (candidate_id st) as [c|] eqn:Hc; [by apply op_ret|].
    eapply op_finally; [done|by apply find_spec|]. intros found g1 l1 _ Hl1 _. apply op_update.
    destruct found as [c|].
    + assert (set_candidate (Some c) st =
        set_stage (stage st) (set_ids (Some c) (rollback_id st) (detail_code st) st)) as -> by (by destruct st).
      eapply op_mono; [apply op_save_ids with (E := any); [done|done|apply Ho|apply Ho|apply stage_step_refl|]|done|].
      * intros Hs. apply Hl1 || (destruct Hl1 as [_ Hok]; apply state_ok_iff in Hok; by apply Hok).
      * intros u g2 st2 l2 (-> & ? & _). by split.
    + apply op_ret. rewrite <- Hc, set_candidate_same. by split.
  - intros u g1 st1 l1 [Hl1 Ho1]. apply op_state.
    destruct (candidate_id st1) as [c|] eqn:Hc; [|by apply op_ret].
    eapply op_finally; [done|by apply op_lift; [done|done|apply exists_brings]|].
    intros present g2 l2 _ Hl2 _. destruct present; cbn [negb]; [|by apply op_ret].
    eapply op_finally; [done|by apply validate_container_spec|]. intros d g3 l3 _ Hl3 (_ & Hi & _).
    eapply op_finally; [done|eapply op_suppress; [done|done|apply mutation_brings]|].
    { exists st1. split; [apply Hl3|]. right. split; [apply Ho1|]. tauto. }
    intros u4 g4 l4 [He4 _] Hl4 _.
    eapply op_mono; [apply op_lift with (E := any); [done|done|apply remove_brings]|done|].
    + split; [done|]. exists st1. split; [apply Hl4|]. split; [apply Ho1|]. left. split; [done|].
      by eapply identified_mono.
    + intros u5 g5 st5 l5 (-> & Hg5 & _). split; [by eapply live_grows | done].
Qed.

(** What the rollback has established once the old container is retired. *)
Definition retired (g : ghost) (st : UpdateState) : Prop :=
  live g st /\ open_rollback st /\ previous_identified config g st [previous_name config st].

Lemma retire_previous_spec st l g : live g st -> open_rollback st ->
  WP (retire_previous config (st, l)) g (ends any (fun _ g' st' _ => retired g' st')).
Proof.
  intros Hl Ho. unfold retire_previous.
  eapply op_finally; [done|by apply validate_previous_spec|]. intros d g1 l1 _ Hl1 _. apply op_state.
  eapply op_finally; [done|eapply op_suppress; [done|done|apply mutation_brings]|].
  { exists st. split; [apply Hl1|]. right. split; [apply Ho|]. by left. }
  intros u2 g2 l2 _ Hl2 _.
  eapply op_finally; [done|by apply rename_previous_spec|]. intros u3 g3 l3 _ Hl3 _.
  eapply op_finally; [done|by apply validate_previous_spec|]. intros d4 g4 l4 _ Hl4 Hp.
  eapply op_finally; [done|apply op_for_each; [done|]|].
  { intros [n ep] g' l' Hin Hlive. eapply op_suppress; [done|done|apply mutation_brings].
    exists st. split; [apply Hlive|]. split; [done|].
    split; [apply list_elem_of_fmap; by exists (n, ep) | right; apply Ho]. }
  intros u5 g5 l5 [He5 _] Hl5 _. apply op_ret. split; [done|]. split; [done|]. by eapply previous_mono.
Qed.

(** Evidence on the old container survives a save. *)
Lemma retired_save st g s c r : retired g st -> is_rollback s = true -> s <> rollback_acknowledged ->
  live (set_saved (Some (set_stage s (set_ids c r (detail_code st) st))) g)
    (set_stage s (set_ids c r (detail_code st) st)) ->
  retired (set_saved (Some (set_stage s (set_ids c r (detail_code st) st))) g)
    (set_stage s (set_ids c r (detail_code st) st)).
Proof. intros (_ & _ & Hp) Hs Ha Hl. split; [done|]. split; [by split|exact Hp]. Qed.

Lemma retired_grows g l g' l' st : grows g l g' l' -> retired g st -> retired g' st.
Proof.
  intros Hg (Hl & Ho & Hp). split; [by eapply live_grows|]. split; [done|].
  destruct Hg. by eapply previous_mono.
Qed.

(** A step of the rollback that changes the containers or the stage. *)
Lemma op_rollback_ids c r s st l g : retired g st -> is_rollback s = true -> s <> rollback_acknowledged ->
  stage_step (stage st) s = true -> (s ∈ _ROLLBACK_STAGES -> is_Some r) ->
  WP (save (set_stage s (set_ids c r (detail_code st) st), l)) g (ends any (fun _ g' st' _ =>
    st' = set_stage s (set_ids c r (detail_code st) st) /\ retired g' st')).
Proof.
  intros Hr Hs Ha Hstep Hrb. eapply op_mono; [apply op_save_ids with (E := any); try done; apply Hr|done|].
  intros u g' st' l' (-> & Hl & ->). split; [done|]. by apply retired_save.
Qed.

Lemma set_ids_same st : set_stage (stage st) (set_ids (candidate_id st) (rollback_id st) (detail_code st) st) = st.
Proof. by destruct st. Qed.

(** The rollback container goes back to none. *)
Lemma drop_rollback_spec st l g : retired g st ->
  WP ((_ ← update (set_rollback None); _stage rollback_requested) (st, l)) g
    (ends any (fun _ g' st' _ => retired g' st')).
Proof.
  intros Hr. apply op_update. unfold _stage. apply op_update.
  eapply op_mono; [apply (op_rollback_ids (candidate_id st) None rollback_requested st); try done|done|].
  - destruct Hr as (_ & [Hs Hna] & _). destruct (stage st); try (vm_compute in Hs; discriminate Hs); done.
  - not_in.
  - by intros u g' st' l' [-> ?].
Qed.

Lemma reuse_rollback_spec st l g : retired g st ->
  WP (reuse_rollback config fuel (st, l)) g (ends any (fun _ g' st' _ => retired g' st')).
Proof.
  intros Hr. unfold reuse_rollback. apply op_state.
  eapply op_seq with (E := any) (R := fun _ g' st' _ => retired g' st').
  { destruct (rollback_id st) as [r|] eqn:Hid; [by apply op_ret|].
    eapply op_finally; [apply Hr|apply find_spec; [apply Hr|done]|]. intros found g1 l1 Hg1 _ _.
    apply (retired_grows _ _ _ _ _ Hg1) in Hr. apply op_update. destruct found as [r|].
    - unfold _stage. apply op_update.
      eapply op_mono; [apply (op_rollback_ids (candidate_id st) (Some r) rollback_created st); try done|done|].
      + destruct Hr as ([_ Hok] & [Hs _] & _). by rewrite (no_rollback_requested _ Hok Hs Hid).
      + by intros u g' st' l' [-> ?].
    - apply op_ret. assert (set_rollback None st = st) as -> by (rewrite <- Hid; by destruct st). done. }
  intros u1 g1 st1 l1 Hr1. apply op_state.
  eapply op_seq with (E := any) (R := fun _ g' st' _ => retired g' st').
  { destruct (rollback_id st1) as [r|]; [|by apply op_ret].
    eapply op_finally; [apply Hr1|apply op_lift; [apply Hr1|done|apply exists_brings]|].
    intros present g2 l2 Hg2 _ _. apply (retired_grows _ _ _ _ _ Hg2) in Hr1.
    destruct present; [by apply op_ret | by apply drop_rollback_spec]. }
  intros u2 g2 st2 l2 Hr2. apply op_state.
  destruct (rollback_id st2) as [r|] eqn:Hid; [|by apply op_ret].
  eapply op_finally; [apply Hr2|apply validate_rollback_spec; [apply Hr2|done]|].
  intros [c d] g3 l3 Hg3 _ (Hc & _ & Hi & _). rewrite Hid in Hc. injection Hc as <-.
  apply (retired_grows _ _ _ _ _ Hg3) in Hr2. destruct (negb _); [by apply op_ret|].
  apply wp_try. unfold healthy. apply wp_zoom. eapply wp_mono; [|apply wait_healthy_brings].
  intros g4 [l4 [u|e]] [Hg4 _]; cbn [fst snd] in *; apply (retired_grows _ _ _ _ _ Hg4) in Hr2; [done|].
  destruct (docker_error e); [|intros _; split; [apply Hr2|done]].
  eapply op_finally; [apply Hr2|eapply op_suppress; [apply Hr2|done|apply mutation_brings]|].
  { exists st2. split; [apply Hr2|]. right. split; [apply Hr2|]. tauto. }
  intros u5 g5 l5 Hg5 _ _. apply (retired_grows _ _ _ _ _ Hg5) in Hr2.
  eapply op_finally; [apply Hr2|apply op_lift with (E := any); [apply Hr2|done|apply remove_brings]|].
  { split; [done|]. exists st2. split; [apply Hr2|]. split; [apply Hr2|]. right. split; [done|].
    eapply identified_mono; [|exact Hi]. etrans; [apply Hg4|apply Hg5]. }
  intros u6 g6 l6 Hg6 _ _. apply (retired_grows _ _ _ _ _ Hg6) in Hr2. by apply drop_rollback_spec.
Qed.

Lemma create_rollback_spec previous st l g : retired g st ->
  WP (create_rollback config previous (st, l)) g
    (ends any (fun _ g' st' _ => retired g' st' /\ is_Some (rollback_id st'))).
Proof.
  intros Hr. unfold create_rollback. apply op_state.
  destruct (rollback_id st) as [r|] eqn:Hid; [apply op_ret; rewrite Hid; by eauto|].
  assert (stage st = rollback_requested) as Hst.
  { destruct Hr as ([_ Hok] & [Hs _] & _). by apply no_rollback_requested. }
  eapply op_finally; [apply Hr|apply op_lift with (E := any); [apply Hr|done|apply inspect_image_brings]|].
  intros old g1 l1 Hg1 _ _. apply (retired_grows _ _ _ _ _ Hg1) in Hr.
  eapply op_finally; [apply Hr|apply op_lift with (E := any); [apply Hr|done|apply multi_network_brings]|].
  intros multi g2 l2 Hg2 _ _. apply (retired_grows _ _ _ _ _ Hg2) in Hr.
  eapply op_finally; [apply Hr|by apply op_res; [apply Hr|]|]. intros [spec created] g3 l3 Hg3 _ _.
  apply (retired_grows _ _ _ _ _ Hg3) in Hr.
  eapply op_finally; [apply Hr|apply op_lift with (E := any); [apply Hr|done|apply create_brings]|].
  { exists st. split; [apply Hr|]. right. split; [done|]. split; [done|]. split; [done|]. apply Hr. }
  intros rollback g4 l4 Hg4 _ _. apply (retired_grows _ _ _ _ _ Hg4) in Hr.
  apply op_update. unfold _stage. apply op_update.
  eapply op_mono; [apply (op_rollback_ids (candidate_id st) (Some rollback) rollback_created st); try done|done|].
  - by rewrite Hst.
  - intros u g' st' l' [-> ?]. split; [done|]. by eexists.
Qed.

Lemma op_rollback_stage s st l g : retired g st -> is_Some (rollback_id st) -> is_rollback s = true ->
  s <> rollback_acknowledged -> stage_step (stage st) s = true ->
  WP (_stage s (st, l)) g (ends any (fun _ g' st' _ => st' = set_stage s st /\ retired g' st')).
Proof.
  intros Hr Hid Hs Ha Hstep. unfold _stage. apply op_update.
  assert (set_stage s st = set_stage s (set_ids (candidate_id st) (rollback_id st) (detail_code st) st)) as ->
    by (by destruct st).
  by apply op_rollback_ids.
Qed.

Lemma ensure_networks_spec st l g : retired g st -> stage st = rollback_created ->
  WP (_ensure_rollback_networks config (st, l)) g (ends any (keeps st g l (fun _ _ _ => True))).
Proof.
  intros (Hl & _ & _) Hst. unfold _ensure_rollback_networks.
  eapply op_then; [done|by apply validate_rollback_spec|]. intros [r d] g1 l1 _ Hl1 (Hid & _).
  eapply op_then; [done|by apply op_res|]. intros current g2 l2 _ Hl2 _.
  apply op_state. destruct (existsb _ _); [by intros Hc|]. apply op_for_each; [done|].
  intros [n ep] g' l' Hin Hlive. cbn [fst snd]. destruct (mem n current.*1); [by apply op_ret_keeps|].
  apply op_lift; [done|done|]. apply mutation_brings. exists st. split; [apply Hlive|].
  split; [done|]. right. by split.
Qed.

Lemma start_rollback_spec st l g : retired g st -> is_Some (rollback_id st) ->
  WP (start_rollback config (st, l)) g (ends any (fun _ g' st' _ =>
    retired g' st' /\ is_Some (rollback_id st') /\ stage_step (stage st') rollback_healthy = true)).
Proof.
  intros Hr Hid. unfold start_rollback. apply op_state.
  eapply op_seq with (E := any) (R := fun _ g' st' _ => retired g' st' /\ is_Some (rollback_id st') /\
    stage st' <> rollback_created).
  { destruct (bool_decide (stage st = rollback_created)) eqn:Hb.
    - apply bool_decide_eq_true in Hb.
      eapply op_finally; [apply Hr|by apply ensure_networks_spec|]. intros u g1 l1 Hg1 _ _.
      apply (retired_grows _ _ _ _ _ Hg1) in Hr.
      eapply op_mono; [apply op_rollback_stage; try done; by rewrite Hb|done|].
      by intros u2 g2 st2 l2 [-> ?].
    - apply bool_decide_eq_false in Hb. by apply op_ret. }
  intros u1 g1 st1 l1 (Hr1 & Hid1 & Hne). apply op_state.
  destruct (bool_decide (stage st1 = rollback_networked)) eqn:Hb.
  - apply bool_decide_eq_true in Hb. unfold rollback_container.
    eapply op_finally; [apply Hr1|apply op_state, op_need; [apply Hr1|done]|].
    intros r g2 l2 Hg2 _ [Hrid _]. apply (retired_grows _ _ _ _ _ Hg2) in Hr1.
    eapply op_finally; [apply Hr1|apply op_lift with (E := any); [apply Hr1|done|apply mutation_brings]|].
    { exists st1. split; [apply Hr1|]. right. by split. }
    intros u3 g3 l3 Hg3 _ _. apply (retired_grows _ _ _ _ _ Hg3) in Hr1.
    eapply op_mono; [apply op_rollback_stage; try done; by rewrite Hb|done|].
    by intros u2 g4 st2 l2' [-> ?].
  - apply bool_decide_eq_false in Hb. apply op_ret. split; [done|]. split; [done|].
    destruct Hr1 as (_ & [Hs Hna] & _). destruct (stage st1); try (vm_compute in Hs; discriminate Hs); done.
Qed.

Lemma rollback_spec code acknowledge st l g : live g st ->
  stage st ∉ [outcome_acknowledged; rollback_acknowledged] ->
  WP (_rollback config fuel code acknowledge (st, l)) g (ends any done_).
Proof.
  intros Hl Hst. unfold _rollback.
  eapply op_seq; [by apply ensure_detail_spec|]. intros u1 g1 st1 l1 (d & -> & Hl1). apply op_state.
  eapply op_seq with (E := any) (R := fun _ g' st' _ => live g' st' /\ open_rollback st').
  { destruct (is_rollback _) eqn:Hr.
    - apply op_ret. split; [done|]. split; [done|]. simpl. intros Heq. apply Hst. rewrite Heq. is_in.
    - eapply op_mono; [apply op_move with (E := any) (P := fun _ => True); [done| | | | |done]|done|].
      + simpl in *. destruct (stage st); try done; exfalso; apply Hst; is_in.
      + not_in.
      + not_in.
      + right. not_in.
      + intros u g' st' l' (-> & ? & _). by split. }
  intros u2 g2 st2 l2 [Hl2 Ho2]. apply op_state.
  eapply op_finally with (R := fun _ _ _ => True); [done| |].
  { apply wp_try, wp_M_bind, wp_zoom. eapply wp_mono; [|apply renew_brings].
    intros g' [l' [p|e]] [Hg _]; cbn [fst snd] in *; [by split|].
    assert (live g' st2) by (by eapply live_grows).
    destruct (coordinator_error e) as [code'|]; [|done].
    destruct (bool_decide _); [|done]. by split. }
  intros progress g3 l3 _ Hl3 _.
  eapply op_finally with (R := fun _ _ _ => True); [done| |].
  { destruct progress as [p|]; [|by apply op_ret_keeps]. destruct (ready p); [by apply op_ret_keeps|].
    by intros Hc. }
  intros u4 g4 l4 _ Hl4 _.
  eapply op_seq; [by apply discard_candidate_spec|]. intros u5 g5 st5 l5 [Hl5 Ho5].
  eapply op_seq; [by apply retire_previous_spec|]. intros previous g6 st6 l6 Hr6.
  eapply op_seq; [by apply reuse_rollback_spec|]. intros u7 g7 st7 l7 Hr7.
  eapply op_seq; [by apply create_rollback_spec|]. intros u8 g8 st8 l8 [Hr8 Hid8].
  eapply op_seq; [by apply start_rollback_spec|]. intros u9 g9 st9 l9 (Hr9 & Hid9 & Hs9).
  unfold rollback_container.
  eapply op_finally; [apply Hr9|apply op_state, op_need; [apply Hr9|done]|].
  intros r g10 l10 Hg10 _ [Hrid _]. apply (retired_grows _ _ _ _ _ Hg10) in Hr9.
  eapply op_finally; [apply Hr9|apply healthy_spec; [apply Hr9|done]|].
  intros u11 g11 l11 Hg11 _ _. apply (retired_grows _ _ _ _ _ Hg11) in Hr9.
  eapply op_seq; [by apply op_rollback_stage|]. intros u12 g12 st12 l12 [-> Hr12].
  destruct acknowledge; [|done]. apply finish_rollback_spec; [apply Hr12|done].
Qed.

(** ** Executing, keeping the lease, recovering *)

Lemma own_coordinator e code : coordinator_error e = Some code -> caught e = true.
Proof. intros H. unfold caught, own_error. rewrite H. by destruct (docker_error e). Qed.
Lemma own_docker e code : docker_error e = Some code -> caught e = true.
Proof. intros H. unfold caught, own_error. by rewrite H. Qed.
Lemma own_updater e code : updater_error e = Some code -> caught e = true.
Proof. intros H. unfold caught, own_error. rewrite H. by destruct (docker_error e), (coordinator_error e). Qed.

Lemma known_caught e code : known_error e = Some code -> caught e = true.
Proof.
  unfold known_error. destruct (coordinator_error e) eqn:E1; [intros _; by eapply own_coordinator|].
  destruct (docker_error e) eqn:E2; [intros _; by eapply own_docker|]. apply own_updater.
Qed.

Lemma execute_spec target old_image desired st l g : live g st -> stage st = prepared ->
  WP (_execute_install config fuel target old_image desired (st, l)) g (ends any done_).
Proof.
  intros Hl Hst. apply wp_try. eapply wp_mono; [|by apply install_spec].
  intros g' [[st' l'] [x|e]] H; [done|]. destruct (known_error e) as [code|] eqn:He.
  - destruct (H (known_caught _ _ He)) as [Hl' Hf]. cbn [fst snd] in *. apply op_state.
    destruct (bool_decide (stage st' = prepared)) eqn:Hp.
    + apply bool_decide_eq_true in Hp. by apply ack_failure_spec.
    + destruct (mem (stage st') _) eqn:Hm; [by split|]. apply mem_false in Hm.
      apply rollback_spec; [done|]. intros Hin. apply Hm. unfold forward in Hf.
      rewrite !elem_of_cons in *. destruct Hin as [Hin|[Hin|Hin]]; [tauto| |by apply not_elem_of_nil in Hin].
      by rewrite Hin in Hf.
  - intros Hc. destruct (H Hc). by split.
Qed.

Lemma keeper_spec seconds (work : OP unit) st l g : live g st ->
  (forall l, WP (work (st, l)) g (ends any done_)) ->
  WP (_run_with_lease_keeper seconds work (st, l)) g (fun _ _ => True).
Proof.
  intros Hl Hw. unfold _run_with_lease_keeper. apply wp_M_bind, wp_perform; [done|].
  intros [u|e] _; [|done]. cbn [next]. apply wp_M_bind. cbn [wp modify].
  apply wp_finally, wp_try. eapply wp_mono; [|apply Hw].
  assert (forall g s, WP (join_keeper s) g (fun _ '(_, _) => True)) as Hjoin.
  { intros g1 s1. apply wp_M_bind, wp_perform; [done|]. by intros [v|e] _. }
  intros g' [s' [x|e]] H; [eapply wp_mono; [|by apply Hjoin]; by intros ? []|].
  destruct (is_cancelled e); [|eapply wp_mono; [|by apply Hjoin]; by intros ? []].
  apply wp_M_bind, (wp_perform fits (allowed config) next KeeperLost); [done|].
  intros [[]|e'] _; (split; [done|]; intros [v|e2] _; done).
Qed.

Lemma wait_ready_brings n deadline x l g : lease_ok x ->
  WP (wait_ready n deadline x l) g (brings g l (fun y _ _ => lease_ok y)).
Proof.
  revert x l g. induction n as [|n IH]; intros x l g Hx; cbn [wait_ready]; [done|].
  destruct (ready x); [by apply io_ret|].
  eapply io_bind; [by apply io_call|]. intros now g1 l1 _ _.
  eapply io_bind with (R := fun t _ _ => lease x = Some t).
  { destruct (lease x) as [t|]; [by apply io_ret | by apply io_res]. }
  intros token g2 l2 _ Ht. destruct (fle _ _).
  { eapply io_bind; [apply release_brings|]. intros. by apply io_res. }
  eapply io_bind; [by apply io_res with (Q := fun _ _ _ => True)|]. intros delay g3 l3 _ _.
  eapply io_bind; [by apply io_call|]. intros u g4 l4 _ _.
  eapply io_bind; [apply renew_brings|]. intros y g5 l5 _ [Hy Hz]. rewrite Hy.
  apply IH. split.
  - rewrite Hy. intros t [= <-]. by apply Hx.
  - by rewrite Hz.
Qed.

Lemma claim_ready_brings recovery expected l g :
  WP (_claim_ready config fuel recovery expected l) g
    (brings g l (fun x _ _ => forall y, x = Some y -> lease_ok y)).
Proof.
  unfold _claim_ready. eapply io_bind; [apply claim_brings|]. intros x g1 l1 _ Hx.
  destruct (lease x); [|by apply io_ret].
  eapply io_bind; [by apply io_call|]. intros now g2 l2 _ _.
  eapply io_bind; [by apply wait_ready_brings|]. intros y g3 l3 _ Hy. apply io_ret. by intros z [= <-].
Qed.

Lemma await_drain_spec n deadline x st l g : live g st ->
  WP (await_drain n deadline x (st, l)) g (ends any (keeps st g l (fun _ _ _ => True))).
Proof.
  revert x l g. induction n as [|n IH]; intros x l g Hl; cbn [await_drain]; [done|].
  destruct (ready x); [by apply op_ret_keeps|].
  eapply op_then; [done|by apply op_call|]. intros now g1 l1 _ Hl1 _.
  destruct (fle _ _); [by apply op_ret_keeps|].
  eapply op_then; [done|by apply op_res|]. intros delay g2 l2 _ Hl2 _.
  eapply op_then; [done|by apply op_call|]. intros u g3 l3 _ Hl3 _. apply op_state.
  eapply op_then; [done|by apply op_lift; [done|done|apply renew_brings]|]. intros y g4 l4 _ Hl4 _.
  by apply IH.
Qed.

Lemma ensure_lease_spec st l g : live g st ->
  WP (_ensure_recovery_lease config fuel (st, l)) g (ends any (fun _ g' st' _ =>
    live g' st')).
Proof.
  intros Hl. unfold _ensure_recovery_lease. apply op_state.
  eapply op_finally with (R := fun _ _ _ => True); [done| |].
  { apply wp_try, wp_M_bind, wp_zoom. eapply wp_mono; [|apply renew_brings].
    intros g' [l' [p|e]] [Hg _]; cbn [fst snd] in *; [by split|].
    assert (live g' st) by (by eapply live_grows).
    destruct (coordinator_error e); [|done]. destruct (bool_decide _); [|done]. by split. }
  intros [x|] g1 l1 _ Hl1 _.
  - destruct (ready x); [by apply op_ret|].
    eapply op_finally; [done|by apply op_call|]. intros now g2 l2 _ Hl2 _.
    eapply op_mono; [by apply await_drain_spec|done|]. intros y g3 st3 l3 (-> & Hg & _).
    by eapply live_grows.
  - eapply op_finally; [done|by apply op_lift; [done|done|apply claim_ready_brings]|].
    intros [x|] g2 l2 _ Hl2 Hx; [|by apply op_ret].
    destruct (lease x) as [token|] eqn:Ht; [|by apply op_ret].
    assert (state_ok (set_lease_token token st) = true) as Ho.
    { destruct Hl2 as [_ Hok]. revert Hok. rewrite !state_ok_iff. simpl.
      destruct (Hx x eq_refl) as [Hne _]. specialize (Hne token Ht). tauto. }
    apply op_update. eapply op_seq; [apply op_save with (E := any); [done|]|].
    + eapply advances_live; [exact Hl2|by repeat split|apply stage_step_refl|by left].
    + intros u g3 st3 l3 (-> & -> & ->). apply op_ret. by apply (live_save st).
Qed.

Lemma recover_spec st l g : live g st -> WP (_recover config fuel (st, l)) g (ends any done_).
Proof.
  intros Hl. unfold _recover. apply op_state.
  destruct (bool_decide (stage st = outcome_acknowledged)) eqn:H1.
  { apply bool_decide_eq_true in H1. by apply cleanup_success_spec. }
  destruct (bool_decide (stage st = rollback_acknowledged)) eqn:H2.
  { apply bool_decide_eq_true in H2. by apply cleanup_rollback_spec. }
  apply bool_decide_eq_false in H1, H2.
  assert (stage st ∉ [outcome_acknowledged; rollback_acknowledged]) as Hst.
  { rewrite !elem_of_cons. intros [?|[?|H]]; [done|done|by apply not_elem_of_nil in H]. }
  destruct (is_rollback (stage st)) eqn:Hr; [by apply rollback_spec|].
  eapply op_finally with (R := fun _ _ _ => True); [done| |].
  { destruct (candidate_id st) as [c|].
    - eapply op_mono; [by apply op_lift; [done|done|apply exists_brings]|done|].
      intros x g' st' l' (-> & ? & _). by split.
    - apply wp_zoom. split; [done|]. by split; [apply grows_refl|]. }
  intros present g1 l1 _ Hl1 _. destruct present.
  - eapply op_finally; [done|by apply validate_candidate_spec|]. intros c g2 l2 _ Hl2 _.
    eapply op_finally with (R := fun _ _ _ => True); [done| |].
    { apply wp_try, wp_M_bind, wp_zoom. eapply wp_mono; [|apply wait_healthy_brings].
      intros g' [l' [p|e]] [Hg _]; cbn [fst snd] in *; [by split|].
      assert (live g' st) by (by eapply live_grows). destruct (docker_error e); [by split|done]. }
    intros [code|] g3 l3 _ Hl3 _; [by apply rollback_spec|].
    eapply op_mono; [by apply finish_success_spec|done|done].
  - destruct (bool_decide (stage st = prepared)) eqn:Hp.
    + apply bool_decide_eq_true in Hp. by apply ack_failure_spec.
    + by apply rollback_spec.
Qed.

Lemma returned_spec m passes st l g : (forall e, passes e = true -> caught e = true) ->
  WP (m (st, l)) g (ends any done_) ->
  WP (returned m passes (st, l)) g (ends any (fun b g' st' _ => b = false -> live g' st')).
Proof.
  intros Hp Hm. apply wp_try, wp_M_bind. eapply wp_mono; [|exact Hm].
  intros g' [[st' l'] [x|e]] H; [done|]. cbn. destruct (passes e) eqn:He; [|exact H].
  intros _. apply H. by apply Hp.
Qed.

Lemma conflict_caught e : conflict e = true -> caught e = true.
Proof. intros H%bool_decide_eq_true. by eapply own_coordinator. Qed.

Lemma passes_caught code e :
  conflict e || updater_code code e || is_docker_error e = true -> caught e = true.
Proof.
  rewrite !orb_true_iff. intros [[H|H]|H].
  - by apply conflict_caught.
  - apply bool_decide_eq_true in H. by eapply own_updater.
  - unfold is_docker_error in H. destruct (docker_error e) eqn:E; [by eapply own_docker|done].
Qed.

(** Each retry leaves a live record when the iteration goes on. *)
Definition goes_on (b : bool) (g' : ghost) (st' : UpdateState) (_ : Local) : Prop := b = false -> live g' st'.

Lemma retry_prepared_spec st l g : live g st -> WP (retry_prepared (st, l)) g (ends any goes_on).
Proof.
  intros Hl. unfold retry_prepared. apply op_state.
  destruct (bool_decide (stage st = prepared)) eqn:Hp; [|by apply op_ret; intros _].
  apply bool_decide_eq_true in Hp.
  eapply op_seq; [by apply ensure_detail_spec|]. intros u g1 st1 l1 (d & -> & Hl1). apply op_state.
  apply returned_spec; [apply conflict_caught|]. by apply ack_failure_spec.
Qed.

Lemma retry_success_spec st l g : live g st -> WP (retry_success config fuel (st, l)) g (ends any goes_on).
Proof.
  intros Hl. unfold retry_success. apply op_state.
  destruct (bool_decide (stage st = candidate_renamed)) eqn:Hp; [|by apply op_ret; intros _].
  apply bool_decide_eq_true in Hp. apply returned_spec; [apply passes_caught|].
  eapply op_mono; [apply finish_success_spec; [done|unfold forward; by rewrite Hp]|done|done].
Qed.

Lemma retry_rollback_spec st l g : live g st -> WP (retry_rollback config fuel (st, l)) g (ends any goes_on).
Proof.
  intros Hl. unfold retry_rollback. apply op_state.
  destruct (bool_decide (stage st = rollback_healthy)) eqn:Hp; [|by apply op_ret; intros _].
  apply bool_decide_eq_true in Hp. apply returned_spec; [apply passes_caught|].
  by apply finish_rollback_spec.
Qed.

Lemma recovery_lease_spec st l g : live g st ->
  WP (recovery_lease config fuel (st, l)) g
    (ends any (fun x g' st' _ => forall y, x = Some y -> live g' st')).
Proof.
  intros Hl. unfold recovery_lease. apply wp_try. eapply wp_mono; [|by apply ensure_lease_spec].
  intros g' [[st' l'] [x|e]] H; [intros y _; exact H|].
  destruct (coordinator_error e) as [code|] eqn:He; [|exact H].
  destruct (H (own_coordinator _ _ He)) as [Hl' _]. cbn [fst snd] in *. apply op_state.
  destruct (_ || _) eqn:Hcond; [by intros _|]. apply orb_false_iff in Hcond as [_ Hm].
  apply negb_false_iff in Hm.
  eapply op_seq; [apply rollback_spec; [done|]|by intros u g2 st2 l2 _; apply op_ret].
  intros Hin. rewrite !elem_of_cons in Hin.
  destruct Hin as [Hin|[Hin|Hin]]; [| |by apply not_elem_of_nil in Hin]; rewrite Hin in Hm;
    vm_compute in Hm; discriminate Hm.
Qed.

(** Once the outcome of an operation does not matter. *)
Definition anywhere {X} (_ : ghost) (_ : X) : Prop := True.

Lemma op_last {A} (m : OP A) s g E Q : WP (m s) g (ends E Q) -> WP (m s) g anywhere.
Proof. intros H. eapply wp_mono; [|exact H]. done. Qed.

Lemma op_seq_last {A B} (m : OP A) (f : A -> OP B) s g E R :
  WP (m s) g (ends E R) ->
  (forall x g' st' l', R x g' st' l' -> WP (f x (st', l')) g' anywhere) ->
  WP ((m ≫= f) s) g anywhere.
Proof.
  intros Hm Hf. apply wp_M_bind. eapply wp_mono; [|exact Hm].
  intros g' [[st' l'] [x|e]] H; [by apply Hf | done].
Qed.

Lemma resume_spec st l g : live g st -> WP (resume config fuel (st, l)) g anywhere.
Proof.
  intros Hl. unfold resume. apply op_state. destruct (mem (stage st) _).
  { eapply op_last. by apply recover_spec. }
  eapply op_seq_last; [by apply retry_prepared_spec|]. intros over g1 st1 l1 H1.
  destruct over; [done|]. specialize (H1 eq_refl).
  eapply op_seq_last; [by apply retry_success_spec|]. intros over g2 st2 l2 H2.
  destruct over; [done|]. specialize (H2 eq_refl).
  eapply op_seq_last; [by apply retry_rollback_spec|]. intros over g3 st3 l3 H3.
  destruct over; [done|]. specialize (H3 eq_refl).
  eapply op_seq_last; [by apply recovery_lease_spec|]. intros [x|] g4 st4 l4 H4; [|done].
  specialize (H4 x eq_refl). eapply wp_mono; [|apply keeper_spec; [exact H4|]]; [done|].
  intros l'. by apply recover_spec.
Qed.

(** ** Looking for work *)

Lemma io_finally {A} (m : IO A) f l g (R : A -> ghost -> Local -> Prop) :
  WP (m l) g (brings g l (fun x _ _ => R x g l)) ->
  (forall l g, WP (f l) g (brings g l (fun _ _ _ => True))) ->
  WP (try_finally m f l) g (brings g l (fun x _ _ => R x g l)).
Proof.
  intros Hm Hf. apply wp_finally. eapply wp_mono; [|exact Hm].
  intros g' [l' r] [Hg Hr]; cbn [fst snd] in *. eapply wp_mono; [|apply Hf].
  intros g2 [l2 [u|e]] [Hg2 _]; cbn [fst snd] in *; (split; [by eapply grows_trans|]); [|done].
  by destruct r.
Qed.

Definition target_ok (d : list (list N * json)) : Prop := as_str (key "Id" d) <> [].

Lemma target_brings l g :
  WP (_target config l) g (brings g l (fun x _ _ => target_ok x.1)).
Proof.
  unfold _target. eapply io_bind; [apply inspect_or_brings|]. intros d g1 l1 _ _.
  eapply io_bind; [by apply io_res with (Q := fun _ _ _ => True)|]. intros name g2 l2 _ _.
  destruct (negb _); [by apply io_res|].
  eapply io_bind; [by apply io_res with (Q := fun _ _ _ => True)|]. intros labels g3 l3 _ _.
  destruct (negb _); [by apply io_res|]. destruct (negb _); [by apply io_res|].
  eapply io_bind; [by apply io_res with (Q := fun _ _ _ => True)|]. intros image g4 l4 _ _.
  eapply io_bind; [apply inspect_image_brings|]. intros old g5 l5 _ _.
  eapply io_bind; [by apply io_res with (Q := fun _ _ _ => True)|]. intros checked g6 l6 _ _.
  destruct (negb _); [by apply io_res|].
  destruct (nonempty_str (key "Id" d)) eqn:Hid; [|by apply io_res].
  apply io_ret. unfold target_ok. cbn [fst]. unfold nonempty_str in Hid.
  destruct (key "Id" d) as [| | | |s| |]; try done. simpl. by apply negb_true_iff, bool_decide_eq_false in Hid.
Qed.

Lemma preflight_brings l g :
  WP (_preflight config fuel l) g (brings g l (fun x _ _ => target_ok x.1.1)).
Proof.
  unfold _preflight. eapply io_bind; [apply target_brings|]. intros [target old] g1 l1 _ Ht.
  eapply io_bind; [apply pull_brings|]. intros desired g2 l2 _ _. by apply io_ret.
Qed.

Lemma heartbeat_check_brings generation l g :
  WP (_run_with_check_heartbeat config fuel generation l) g (brings g l (fun x _ _ => target_ok x.1.1)).
Proof.
  unfold _run_with_check_heartbeat. eapply io_bind; [apply heartbeat_brings|]. intros u g1 l1 _ _.
  eapply io_bind; [by apply io_call|]. intros u2 g2 l2 _ _.
  apply (io_finally _ _ _ _ (fun x _ _ => target_ok x.1.1)); [|intros; by apply io_call].
  apply io_try; [apply preflight_brings|].
  intros e m' g3 l3 He _. destruct (is_cancelled e); [|done]. injection He as <-.
  eapply io_bind; [by apply io_call|]. intros [code|] g4 l4 _ _; (split; [apply grows_refl|done]).
Qed.

Lemma or_local_brings {A} (m : IO A) l g R : WP (m l) g (brings g l R) ->
  WP (or_local_code m l) g (brings g l (fun x g' l' => match x with inl y => R y g' l' | inr _ => True end)).
Proof.
  intros Hm. apply io_try.
  - eapply io_bind; [exact Hm|]. intros x g1 l1 _ Hr. by apply io_ret.
  - intros e m' g1 l1 He _. destruct (docker_error e); [injection He as <-; by apply io_ret|].
    destruct (updater_error e); [injection He as <-; by apply io_ret|done].
Qed.

Lemma stop_timeout_bounds d z : _stop_timeout d = Ok z -> (0 <= z <= 300)%Z.
Proof.
  unfold _stop_timeout, _MAX_STOP_TIMEOUT_SECONDS. destruct (key "Config" d); try done.
  destruct (default _ _) as [| |n| | | |]; try done.
  - intros [= <-]. lia.
  - destruct (Z.leb_spec 0 n), (Z.leb_spec n 300); simpl; try done. intros [= <-]. lia.
Qed.

Lemma plan_brings target old desired l g :
  WP (plan_install config target old desired l) g (brings g l (fun x _ _ => (0 <= x.2 <= 300)%Z)).
Proof.
  unfold plan_install.
  eapply io_bind; [by apply io_res with (Q := fun _ _ _ => True)|]. intros networks g1 l1 _ _.
  eapply io_bind; [by apply io_res with (Q := fun _ _ _ => True)|]. intros ports g2 l2 _ _.
  eapply io_bind; [by apply io_res with (Q := fun t _ _ => (0 <= t <= 300)%Z); apply stop_timeout_bounds|].
  intros timeout g3 l3 _ Ht.
  eapply io_bind; [apply multi_network_brings|]. intros multi g4 l4 _ _.
  eapply io_bind; [by apply io_res with (Q := fun _ _ _ => True)|]. intros spec g5 l5 _ _.
  apply io_ret. cbn [snd]. unfold MINIMUM_STOP_TIMEOUT. cbv beta in Ht. lia.
Qed.

Lemma io_seq_last {A B} (m : IO A) (f : A -> IO B) l g R :
  WP (m l) g (brings g l R) ->
  (forall x g' l', grows g l g' l' -> R x g' l' -> WP (f x l') g' anywhere) -> WP ((m ≫= f) l) g anywhere.
Proof.
  intros Hm Hf. apply wp_M_bind. eapply wp_mono; [|exact Hm].
  intros g' [l' [x|e]] [Hg Hr]; [by apply Hf | done].
Qed.

Lemma io_last {A} (m : IO A) l g R : WP (m l) g (brings g l R) -> WP (m l) g anywhere.
Proof. intros H. eapply wp_mono; [|exact H]. done. Qed.

Lemma with_state_last (m : OP unit) st l g : WP (m (st, l)) g anywhere -> WP (with_state st m l) g anywhere.
Proof. intros H. apply wp_bind. eapply wp_mono; [|exact H]. by intros g' [[st' l'] r] _. Qed.

Lemma saved_grows g l g' l' : grows g l g' l' -> saved g = None -> saved g' = None.
Proof. intros [[-> _ _ _] _]. done. Qed.

Lemma start_install_spec generation target old desired old_id desired_id old_digest desired_digest
    old_build desired_build plan l g :
  saved g = None -> target_ok target -> old_id <> [] -> desired_id <> [] -> desired_digest <> [] ->
  (0 <= plan.2 <= 300)%Z ->
  WP (start_install config fuel generation target old desired old_id desired_id old_digest desired_digest
        old_build desired_build plan l) g anywhere.
Proof.
  intros Hs Ht Ho Hd Hdd Hplan. unfold start_install. destruct plan as [[networks ports] timeout].
  eapply io_seq_last; [apply claim_ready_brings|]. intros claimed g1 l1 Hg1 Hc.
  apply (saved_grows _ _ _ _ Hg1) in Hs. destruct claimed as [x|]; [|done].
  destruct (Hc x eq_refl) as [Htok Hgen].
  destruct (lease x) as [token|]; [|done]. destruct (l_generation x) as [z|]; [|done].
  specialize (Htok token eq_refl). specialize (Hgen z eq_refl).
  apply wp_M_bind, (wp_perform fits (allowed config) next NewOperationId); [done|].
  intros [operation|e] [_ Hop]; [|done]. cbn [next].
  apply with_state_last. match goal with |- wp _ _ _ (_ (?s, _)) _ _ => set (st := s) end.
  assert (state_ok st = true) as Hok.
  { apply state_ok_iff. subst st; simpl. split; [|split; [done|split; [done|split; not_in]]].
    split; [by destruct operation; destruct Hop|]. done. }
  eapply op_seq_last; [apply op_save with (E := any); [done|]|].
  { unfold advances. by rewrite Hs. }
  intros u g2 st2 l2 (-> & -> & ->).
  assert (live (set_saved (Some st) g1) st) as Hl by done.
  eapply op_seq_last; [apply op_lift with (E := any); [done|done|apply renew_brings]|].
  intros renewed g3 st3 l3 (-> & Hg3 & _). destruct (negb _); [done|].
  apply keeper_spec; [by eapply live_grows|]. intros l4. apply execute_spec; [by eapply live_grows|done].
Qed.

Lemma check_spec generation o cd ad cb ab detail l g : saved g = None ->
  WP (outcome (check_report generation o cd ad cb ab detail) l) g (brings g l (fun _ _ _ => True)).
Proof.
  intros Hs. eapply io_mono; [apply outcome_brings|done].
  intros _. eexists. split; [reflexivity|]. left. split; [apply outcome_operation | done].
Qed.

Lemma prefixed_not_nil p s : prefixb p s = true -> p <> [] -> s <> [].
Proof. destruct p, s; try done. Qed.

Lemma container_image_ne d image : _container_image_id d = Ok image -> image <> [].
Proof.
  unfold _container_image_id. destruct (key "Image" d) as [| | | |s| |]; try done.
  destruct (prefixb _ _) eqn:Hp; [|done]. intros [= <-]. by eapply prefixed_not_nil.
Qed.

Lemma image_id_ne d image : image_id d = Ok image -> image <> [].
Proof.
  unfold image_id. destruct (key "Id" d) as [| | | |s| |]; try done.
  destruct (prefixb _ _) eqn:Hp; [|done]. intros [= <-]. by eapply prefixed_not_nil.
Qed.

Lemma image_digest_ne d ref digest : image_digest d ref = Ok digest -> digest <> [].
Proof.
  unfold image_digest. intros H. apply bind_Ok in H as ([repository tag] & _ & H). cbv beta iota in H.
  match type of H with match omap ?f ?l with _ => _ end = _ => destruct (omap f l) as [|v vs] eqn:E end.
  - by eapply image_id_ne.
  - injection H as <-. assert (v ∈ v :: vs) as Hin by left. rewrite <- E in Hin.
    apply list_elem_of_omap in Hin as (x & _ & Hx). destruct x as [| | | |s| |]; try done.
    destruct (prefixb _ _) eqn:Hp; [|done]. injection Hx as ->. eapply prefixed_not_nil; [exact Hp|].
    by destruct repository.
Qed.

Lemma fresh_spec l g : saved g = None -> WP (fresh config fuel l) g anywhere.
Proof.
  intros Hs. unfold fresh. eapply io_seq_last; [apply eligibility_brings|]. intros e g1 l1 Hg1 _.
  apply (saved_grows _ _ _ _ Hg1) in Hs. destruct (negb _); [done|].
  eapply io_seq_last; [apply or_local_brings, heartbeat_check_brings|]. intros preflight g2 l2 Hg2 Hpre.
  apply (saved_grows _ _ _ _ Hg2) in Hs.
  destruct preflight as [[[target old] desired]|code]; [|eapply io_last; by apply check_spec].
  eapply io_seq_last; [apply io_res with (Q := fun x _ _ => x <> []); apply container_image_ne|].
  intros old_id g3 l3 Hg3 Hold. apply (saved_grows _ _ _ _ Hg3) in Hs.
  eapply io_seq_last; [apply io_res with (Q := fun x _ _ => x <> []); apply image_id_ne|].
  intros desired_id g4 l4 Hg4 Hdes. apply (saved_grows _ _ _ _ Hg4) in Hs.
  eapply io_seq_last; [by apply io_res with (Q := fun _ _ _ => True)|].
  intros old_digest g5 l5 Hg5 _. apply (saved_grows _ _ _ _ Hg5) in Hs.
  eapply io_seq_last; [apply io_res with (Q := fun x _ _ => x <> []); apply image_digest_ne|].
  intros desired_digest g6 l6 Hg6 Hdig. apply (saved_grows _ _ _ _ Hg6) in Hs. cbv zeta.
  destruct (bool_decide (old_id = desired_id)); [eapply io_last; by apply check_spec|].
  eapply io_seq_last; [by apply check_spec|]. intros u g7 l7 Hg7 _. apply (saved_grows _ _ _ _ Hg7) in Hs.
  destruct (bool_decide _); [done|].
  eapply io_seq_last; [apply or_local_brings, plan_brings|]. intros [plan|code] g8 l8 Hg8 Hplan;
    apply (saved_grows _ _ _ _ Hg8) in Hs; [|eapply io_last; by apply check_spec].
  by apply start_install_spec.
Qed.

(** ** An iteration, and the loop *)

Lemma run_once_spec l g : WP (run_once config fuel l) g anywhere.
Proof.
  unfold run_once. apply wp_M_bind. split; [done|]. intros r _.
  cbn [next wp]. pose proof (load_outcomes r) as Hload.
  destruct (load r) as [[st|]|e]; [| |done].
  - apply with_state_last, resume_spec. by split.
  - by apply fresh_spec.
Qed.

Lemma run_forever_spec n l g : WP (run_forever config fuel n l) g anywhere.
Proof.
  revert l g. induction n as [|n IH]; intros l g; cbn [run_forever]; [done|].
  apply wp_M_bind, wp_try. eapply wp_mono; [|apply run_once_spec].
  assert (forall l g, WP ((_ ← perform (Sleep (poll_seconds config)); run_forever config fuel n) l) g anywhere)
    as Hrest.
  { intros l' g'. apply wp_M_bind, wp_perform; [done|]. intros [u|e] _; [apply IH|done]. }
  intros g' [l' [u|e]] _; [apply Hrest|]. destruct (is_cancelled e); [done|]. apply Hrest.
Qed.

End safety.
