(* ===== verification/RunnerHistory.v ===== *)
(** * The update across iterations, crashes and restarts

    The theorems on the runner.  [issues] is about one process: every call it
    can ever make, after any sequence of replies.  [world] is about all of
    them: processes are started, killed between any two calls or during one,
    and started again, and only the state file survives, with the old or the
    new record when a write was cut short ([StateStore]'s
    [state_file_is_never_torn]) and read back as it was written
    ([UpdaterState]'s [load_save_roundtrip]). *)

From Stdlib Require Import ZArith Lia Bool String SpecFloat.
From S2P Require Import Prelude PyStr PyNum PyInt Json PyDict Recreation UpdaterState.
From S2P Require Import UpdateRecovery SidecarIO DockerEngine CoordinatorClient Runner.
From S2P Require Import RunnerMonitor RunnerSpecs RunnerSteps RunnerSafety.

#[local] Open Scope bool_scope.

(** ** A complete update, replayed

    [feed] runs a program on a list of scripted replies and returns the trace
    and what is left of the program: an executable environment.  The script
    below is one update of a small container, from an empty state file to the
    removal of the old container; the theorems on runs are applied to it. *)


(** ** Scripted replies *)

Inductive answer : Type :=
  | Reply (status : Z) (doc : list (list N * json))
  | Status (status : Z)
  | Text (s : list N)
  | Float (f : spec_float)
  | Flag (b : bool)
  | Done
  | Fails (e : exn).

(** The reply of a call, where the answer has its type and may be given. *)
Definition answer_for (c : call) (a : answer) : option (res (reply c)) :=
  match c return option (res (reply c)) with
  | Docker _ _ | Post _ _ =>
      match a with
      | Reply s d => Some (Ok {| status_code := s; content_length := 100; document := Some (JObj d) |})
      | Status s => Some (Ok {| status_code := s; content_length := 0; document := None |})
      | _ => None
      end
  | PullOpen _ _ _ => match a with Status s => Some (Ok s) | _ => None end
  | PullLine =>
      match a with
      | Text s => Some (Ok s)
      | Fails e => if own_error e then None else Some (Raise e)
      | _ => None
      end
  | LoadState =>
      match a with
      | Text s => Some (Ok s)
      | Fails e => if own_error e then None else Some (Raise e)
      | _ => None
      end
  | NewOperationId =>
      match a with
      | Text s =>
          if (length s =? 32)%nat && forallb (fun c => between 48 57 c || between 97 102 c) s
          then Some (Ok s) else None
      | _ => None
      end
  | Now => match a with Float f => Some (Ok f) | _ => None end
  | KeeperLost | KeeperWait _ => match a with Flag b => Some (Ok b) | _ => None end
  | HeartbeatLost | SharedState => None
  | SaveState _ | ClearState | Sleep _ | StartKeeper _ | JoinKeeper | LoseLease | StartHeartbeat _
  | JoinHeartbeat => match a with Done => Some (Ok tt) | _ => None end
  end.

Lemma answer_fits c a r : answer_for c a = Some r -> fits c r.
Proof.
  unfold answer_for, fits. destruct c; destruct a; try done; try (by intros [= <-]).
  - destruct (own_error e) eqn:He; [done|]. by intros [= <-].
  - destruct (own_error e) eqn:He; [done|]. by intros [= <-].
  - destruct (_ && _) eqn:H; [|done]. intros [= <-]. apply andb_true_iff in H as [H1 H2].
    apply Nat.eqb_eq in H1. done.
Qed.

Fixpoint feed {X} (answers : list answer) (p : prog reply X) : option (list (event reply) * prog reply X) :=
  match answers with
  | [] => Some ([], p)
  | a :: rest =>
      match p with
      | Do c k =>
          match answer_for c a with
          | Some r => '(tr, p') ← feed rest (k r); Some (Ev c r :: tr, p')
          | None => None
          end
      | _ => None
      end
  end.

Lemma feed_steps {X} answers (p p' : prog reply X) tr : feed answers p = Some (tr, p') -> steps fits p tr p'.
Proof.
  revert p tr. induction answers as [|a rest IH]; intros p tr; simpl.
  - intros [= <- <-]. constructor.
  - destruct p as [x|c k|]; try done. destruct (answer_for c a) as [r|] eqn:Ha; [|done].
    destruct (feed rest (k r)) as [[tr' p2]|] eqn:Hf; simpl; [|done]. intros [= <- <-].
    constructor; [by eapply answer_fits | by apply IH].
Qed.

Definition head_call {X} (p : prog reply X) : option call :=
  match p with Do c _ => Some c | _ => None end.

Lemma head_call_Do {X} (p : prog reply X) c : head_call p = Some c -> exists k, p = Do c k.
Proof. destruct p as [x|c' k|]; simpl; try done. intros [= ->]. eauto. Qed.

(** ** The script *)

Definition sample_config : UpdaterConfig := {|
  image_ref := lit "ghcr.io/acme/pm:stable"; container_name := lit "pm";
  poll_seconds := float_of_int 30; health_timeout_seconds := float_of_int 240;
  drain_timeout_seconds := float_of_int 300 |}.

Definition str (s : string) : json := JStr (lit s).
Definition health_check : json := JObj [(lit "Test", JArr [str "CMD"; str "true"])].

Definition old_labels : json :=
  JObj [(TARGET_LABEL, str "true"); (IMAGE_REF_LABEL, str "ghcr.io/acme/pm:stable")].

Definition operation : list N := lit "0123456789abcdef0123456789abcdef".

Definition new_labels : json :=
  JObj [(TARGET_LABEL, str "true"); (IMAGE_REF_LABEL, str "ghcr.io/acme/pm:stable");
        (OPERATION_LABEL, JStr operation); (ROLE_LABEL, str "candidate")].

(** The old container and the candidate, under a name. *)
Definition old_container (name : string) : list (list N * json) :=
  [(lit "Id", str "old"); (lit "Name", str name); (lit "Image", str "sha256:aa");
   (lit "Config", JObj [(lit "Labels", old_labels); (lit "Healthcheck", health_check)]);
   (lit "HostConfig", JObj [(lit "NetworkMode", str "bridge")]);
   (lit "NetworkSettings", JObj [(lit "Networks", JObj [(lit "bridge", JObj [])])])].

Definition candidate (name : string) : list (list N * json) :=
  [(lit "Id", str "new"); (lit "Name", str name); (lit "Image", str "sha256:bb");
   (lit "Config", JObj [(lit "Labels", new_labels)]);
   (lit "State", JObj [(lit "Status", str "running"); (lit "Health", JObj [(lit "Status", str "healthy")])])].

Definition image (digest : string) : list (list N * json) :=
  [(lit "Id", str digest); (lit "Config", JObj [(lit "Healthcheck", health_check)])].

Definition eligible : answer :=
  Reply 200 [(lit "action", str "install"); (lit "action_generation", JInt 7)].
Definition leased : answer :=
  Reply 200 [(lit "ready", JBool true); (lit "lease_seconds", JInt 120); (lit "action_generation", JInt 7);
             (lit "lease_token", JStr (operation ++ operation))].
Definition accepted : answer := Reply 200 [].
Definition at_time (t : Z) : answer := Float (float_of_int t).

(** Up to the record of the operation, ... *)
Definition script_check : list answer :=
  [Fails FileNotFoundError; eligible; accepted; Done;
   Reply 200 [(lit "ApiVersion", str "1.47")]; Reply 200 (old_container "/pm"); Reply 200 (image "sha256:aa");
   Status 200; Fails StopAsyncIteration; Reply 200 (image "sha256:bb"); Done; accepted;
   leased; at_time 0; Text operation].

(** ... from its first save to the healthy candidate, ... *)
Definition script_install : list answer :=
  [Done; leased; Done; Done; Status 204; Done; Status 200; Done;
   Reply 201 [(lit "Id", str "new")]; Done; Status 204; Done;
   at_time 1; at_time 1; Reply 200 (candidate "/pm-candidate-0123456789ab"); Done].

(** ... through the exchange of the names up to the report, ... *)
Definition script_swap : list answer :=
  [Reply 200 (candidate "/pm-candidate-0123456789ab");
   at_time 2; at_time 2; Reply 200 (candidate "/pm-candidate-0123456789ab");
   Reply 200 (old_container "/pm"); Status 204; Done;
   Reply 200 (candidate "/pm-candidate-0123456789ab"); Status 204; Done; Done].

(** ... and from the acknowledgement to the removal. *)
Definition script_finish : list answer :=
  [accepted; Done; Reply 200 (candidate "/pm"); at_time 3; at_time 3; Reply 200 (candidate "/pm");
   Reply 200 (old_container "/pm-previous-0123456789ab"); Reply 200 (old_container "/pm-previous-0123456789ab")].

Definition sample_run (answers : list answer) : option (list (event reply) * prog reply (Local * res unit)) :=
  feed answers (run_forever (DB := ascii_db) sample_config 5 1 {| api_version_ := None; lease_task := false |}).

Definition sample_call (answers : list answer) : option call :=
  '(_, p) ← sample_run answers; head_call p.

Definition sample_trace (answers : list answer) : list (event reply) :=
  match sample_run answers with Some (tr, _) => tr | None => [] end.

Definition script_report : list answer := script_check ++ script_install ++ script_swap.
Definition script_removal : list answer := script_report ++ script_finish.

(** The record of the sample, as first saved. *)
Definition sample_state : UpdateState := {|
  operation_id := operation; stage := prepared; lease_token := operation ++ operation;
  action_generation := 7; target_id := lit "old"; old_image_id := lit "sha256:aa";
  old_digest := Some (lit "sha256:aa"); old_build := None; desired_image_id := lit "sha256:bb";
  desired_digest := lit "sha256:bb"; desired_build := None; networks := [(lit "bridge", JObj [])];
  port_bindings := []; stop_timeout_seconds := 75; candidate_id := None; rollback_id := None;
  detail_code := None |}.

(** The report of its success. *)
Definition sample_report : list (list N * json) :=
  outcome_body (install_report sample_state "succeeded" (Some (lit "sha256:bb")) None None).

Example sample_first_save : sample_call script_check = Some (SaveState sample_state).
Proof. vm_compute. reflexivity. Qed.
Example sample_last_report : sample_call script_report = Some (Post "outcome" (Some sample_report)).
Proof. vm_compute. reflexivity. Qed.
Example sample_last_removal :
  sample_call script_removal = Some (Docker (lit "/v1.47") (ContainerDelete (lit "old") false false)).
Proof. vm_compute. reflexivity. Qed.

(** A claim that has to wait for the drain, which then becomes ready. *)
Definition waiting : response := {|
  status_code := 200; content_length := 100;
  document := Some (JObj [(lit "ready", JBool false); (lit "lease_seconds", JInt 120);
    (lit "action_generation", JInt 7); (lit "lease_token", JStr (operation ++ operation))]) |}.

Definition sample_start : prog reply (Local * res unit) :=
  start_install (DB := ascii_db) sample_config 5 7 (old_container "/pm") (image "sha256:aa") (image "sha256:bb")
    (lit "sha256:aa") (lit "sha256:bb") (lit "sha256:aa") (lit "sha256:bb") None None
    ([(lit "bridge", JObj [])], [], 75%Z) {| api_version_ := None; lease_task := false |}.

Definition script_wait : list answer :=
  [Reply 200 (members_of (default JNull (document waiting))); at_time 0; at_time 1; Done; leased].

(** It ends there, with an error. *)
Example sample_wait : exists tr l, feed script_wait sample_start =
  Some (Ev (Post "claim" (Some [(lit "expected_generation", JInt 7)])) (Ok waiting) :: tr,
        Return (l, UpdaterError (lit "maintenance_generation_missing"))).
Proof. eexists _, _. vm_compute. reflexivity. Qed.

Section history.
Context {DB : UnicodeDB} (config : UpdaterConfig).

(** ** One process *)

Abbreviation run tr p := (exists fuel n l, steps fits (run_forever config fuel n l) tr p).

(** The process makes the call after the trace; whether it is answered, or the
    process killed before, is left open. *)
Definition issues (tr : list (event reply)) (c : call) : Prop := exists k, run tr (Do c k).

Abbreviation knowledge tr := (observe next ghost0 tr).

Lemma issued_allowed tr c : issues tr c -> allowed config (knowledge tr) c.
Proof.
  intros (k & fuel & n & l & Hs). eapply wp_sound in Hs as [_ Hr]; [|apply run_forever_spec]. exact Hr.
Qed.

(** No container is removed too early.  Whatever call history led to it, a
    removal never deletes anonymous volumes, and is one of two: the old
    container, once its replacement has taken over (the record says the success
    or the rollback was acknowledged, and in this very iteration Docker showed
    the replacement under the application's name, with the operation's labels
    and the expected image, healthy, and the old container set aside under its
    own new name); or a container of this operation that is shown to be the
    candidate or the rollback clone, while rolling back. *)
Theorem removal_is_justified tr prefix id force v :
  issues tr (Docker prefix (ContainerDelete id force v)) ->
  v = false /\ exists st, saved (knowledge tr) = Some st /\
    if force then
      is_rollback (stage st) = true /\
      ((candidate_id st = Some id /\
        identified config (knowledge tr) st id (desired_image_id st) "candidate"
          [container_name config; candidate_name config st]) \/
       (rollback_id st = Some id /\
        identified config (knowledge tr) st id (old_image_id st) "rollback" [container_name config]))
    else
      id = target_id st /\ replaced config (knowledge tr) st /\
      previous_identified config (knowledge tr) st [previous_name config st].
Proof. intros H. apply (issued_allowed _ _ H). Qed.

(** A request that changes a container or a network. *)
Definition mutates (r : docker_request) : bool :=
  match r with
  | Version | ContainerJson _ | ImageJson _ | ContainersJson _ => false
  | _ => true
  end.

(** It is about a container of the operation, or makes one under its names. *)
Definition concerns (st : UpdateState) (r : docker_request) : Prop :=
  match r with
  | ContainerStop id _ | ContainerStart id | ContainerDelete id _ _ | ContainerRename id _
  | NetworkDisconnect _ id | NetworkConnect _ id _ =>
      id = target_id st \/ candidate_id st = Some id \/ rollback_id st = Some id
  | ContainersCreate name _ => name ∈ [container_name config; candidate_name config st]
  | _ => False
  end.

(** Write-ahead.  Nothing of Docker is changed unless a record of the
    operation is in the state file, and then only the containers the record
    names, or one made under the operation's names: a crash at any moment finds
    a record that says what may have been touched. *)
Theorem mutation_is_recorded_first tr prefix r : issues tr (Docker prefix r) -> mutates r = true ->
  exists st, saved (knowledge tr) = Some st /\ concerns st r.
Proof.
  intros H Hm. apply issued_allowed in H. destruct r; try done; cbn [allowed allowed_docker] in H.
  - destruct H as (st & Hs & H). exists st. split; [done|]. simpl. rewrite !elem_of_cons. naive_solver.
  - destruct H as (st & Hs & H). exists st. split; [done|]. simpl. naive_solver.
  - destruct H as (st & Hs & H). exists st. split; [done|]. simpl. naive_solver.
  - destruct H as (_ & st & Hs & H). exists st. split; [done|]. simpl. destruct force; naive_solver.
  - destruct H as (st & Hs & H). exists st. split; [done|]. simpl. naive_solver.
  - destruct H as (st & Hs & H). exists st. split; [done|]. simpl. naive_solver.
  - destruct H as (st & Hs & H). exists st. split; [done|]. simpl. naive_solver.
Qed.

(** The record advances along the stages of the installation or of the
    rollback, its first stage starts with no container made, it never changes
    which operation it is about, and a stage that says an outcome was
    acknowledged is only written once the coordinator acknowledged it in this
    iteration; what is written is always well formed. *)
Theorem records_advance tr st : issues tr (SaveState st) ->
  state_ok st = true /\ advances (knowledge tr) st.
Proof. apply issued_allowed. Qed.

(** C32: an outcome reported for an installation is the record's (its lease, its
    generation), and true: a success needs the candidate shown and healthy
    under the recorded stage, a rollback the clone shown, healthy and on all
    its networks, a failure that nothing was started. *)
Theorem reports_are_honest tr b : issues tr (Post "outcome" (Some b)) ->
  key "operation" b = JStr (lit "install") ->
  exists st, saved (knowledge tr) = Some st /\ key "lease_token" b = JStr (lease_token st) /\
    key "action_generation" b = JInt (action_generation st) /\
    exists o, key "outcome" b = JStr o /\ allowed_report config (knowledge tr) st o.
Proof.
  intros H Hop. destruct (issued_allowed _ _ H eq_refl) as (b' & [= <-] & [[Hop' _]|[_ (st & Hs & Ht & Hg & o & Ho)]]).
  - rewrite Hop in Hop'. vm_compute in Hop'. discriminate Hop'.
  - exists st. repeat (split; [done|]). by exists o.
Qed.

(** The record is dropped only when the operation is over: the replacement
    has taken over and the old container is gone, or it failed before anything
    was started and the failure is acknowledged. *)
Theorem record_is_kept_until_settled tr : issues tr ClearState ->
  exists st, saved (knowledge tr) = Some st /\
    ((replaced config (knowledge tr) st /\ target_id st ∈ gone (knowledge tr)) \/
     (stage st = prepared /\ lit "failed" ∈ acked (knowledge tr))).
Proof. apply issued_allowed. Qed.

(** ** All processes *)

(** The file as a process reads it: a saved record comes back with its nested
    keys sorted. *)
Definition reads (file : option UpdateState) (r : res (list N)) : Prop :=
  match load r with
  | Ok None => file = None
  | Ok (Some st) => exists st0, file = Some st0 /\ st = sort_state st0
  | Raise _ => True
  end.

(** The file after an answered call: a failing write may have happened. *)
Definition file_step (file : option UpdateState) (c : call) (r : res (reply c)) (file' : option UpdateState) : Prop :=
  match c return res (reply c) -> Prop with
  | LoadState => fun r => reads file r /\ file' = file
  | SaveState st => fun r =>
      match r with Ok _ => file' = Some st | Raise _ => file' = file \/ file' = Some st end
  | ClearState => fun r => match r with Ok _ => file' = None | Raise _ => file' = file \/ file' = None end
  | _ => fun _ => file' = file
  end r.

(** ... and after a kill during the call. *)
Definition file_killed (file : option UpdateState) (c : call) (file' : option UpdateState) : Prop :=
  file' = file \/
  match c with SaveState st => file' = Some st | ClearState => file' = None | _ => False end.

(** [past]: the calls of all processes; [current]: those of this one. *)
Record world := {
  past : list (event reply);
  file : option UpdateState;
  current : list (event reply);
  running : prog reply (Local * res unit);
}.

Definition boot (fuel n : nat) : prog reply (Local * res unit) :=
  run_forever config fuel n {| api_version_ := None; lease_task := false |}.

Inductive reachable : world -> Prop :=
  | first_boot fuel n :
      reachable {| past := []; file := None; current := []; running := boot fuel n |}
  | answered w c k r file' :
      reachable w -> running w = Do c k -> fits c r -> file_step (file w) c r file' ->
      reachable {| past := past w ++ [Ev c r]; file := file'; current := current w ++ [Ev c r];
                   running := k r |}
  | killed_between w fuel n :
      reachable w ->
      reachable {| past := past w; file := file w; current := []; running := boot fuel n |}
  | killed_during w c k file' fuel n :
      reachable w -> running w = Do c k -> file_killed (file w) c file' ->
      reachable {| past := past w; file := file'; current := []; running := boot fuel n |}.

(** The coordinator acknowledged this outcome for this generation. *)
Definition settles (generation : Z) (o : list N) (ev : event reply) : Prop :=
  match ev with
  | Ev c r =>
      match c return res (reply c) -> Prop with
      | Post path (Some b) => fun r =>
          path = "outcome"%string /\ key "operation" b = JStr (lit "install") /\
          key "outcome" b = JStr o /\ key "action_generation" b = JInt generation /\
          exists x, r = Ok x /\ is_success x = true
      | _ => fun _ => False
      end r
  end.

(** What a stage that claims an acknowledgement owes to the past. *)
Definition settled (st : UpdateState) (events : list (event reply)) : Prop :=
  (stage st = outcome_acknowledged -> exists ev, ev ∈ events /\ settles (action_generation st) (lit "succeeded") ev) /\
  (stage st = rollback_acknowledged -> exists ev, ev ∈ events /\ settles (action_generation st) (lit "rolled_back") ev).

(** The invariant of the worlds: the running process is still accepted; what the
    file holds, and what the process knows, is backed by the past. *)
Record backed (w : world) : Prop := {
  b_runs : wp fits (allowed config) next (running w) (knowledge (current w)) anywhere;
  b_file : forall st, file w = Some st -> settled st (past w);
  b_saved : forall st, saved (knowledge (current w)) = Some st -> settled st (past w);
  b_acked : forall o, o ∈ acked (knowledge (current w)) -> exists st ev,
    saved (knowledge (current w)) = Some st /\ ev ∈ past w /\ settles (action_generation st) o ev;
}.

Lemma settled_more st events ev : settled st events -> settled st (events ++ [ev]).
Proof.
  intros [H1 H2]. split; intros H; [destruct (H1 H) as (e & ? & ?) | destruct (H2 H) as (e & ? & ?)];
    exists e; (split; [apply elem_of_app; by left | done]).
Qed.

(** A save that is allowed is backed. *)
Lemma save_settled g st (events : list (event reply)) : advances g st ->
  (forall st0, saved g = Some st0 -> settled st0 events) ->
  (forall o, o ∈ acked g -> exists st0 ev, saved g = Some st0 /\ ev ∈ events /\ settles (action_generation st0) o ev) ->
  settled st events /\ forall st0, saved g = Some st0 -> action_generation st = action_generation st0.
Proof.
  unfold advances. intros Ha Hs Hk. destruct (saved g) as [st0|] eqn:Hg.
  - destruct Ha as (Hop & _ & H1 & H2). assert (action_generation st = action_generation st0) as Hgen by apply Hop.
    split; [|by intros st1 [= <-]]. destruct (Hs st0 eq_refl) as [S1 S2].
    split; intros H; rewrite Hgen.
    + destruct (decide (stage st0 = outcome_acknowledged)) as [Hd|Hd]; [by apply S1|].
      destruct (Hk _ (H1 Hd H)) as (st1 & ev & [= <-] & ? & Hev). eauto.
    + destruct (decide (stage st0 = rollback_acknowledged)) as [Hd|Hd]; [by apply S2|].
      destruct (Hk _ (H2 Hd H)) as (st1 & ev & [= <-] & ? & Hev). eauto.
  - destruct Ha as (Hst & _). split; [|done]. by split; intros H; rewrite Hst in H.
Qed.

Lemma boot_backed events f fuel n : (forall st, f = Some st -> settled st events) ->
  backed {| past := events; file := f; current := []; running := boot fuel n |}.
Proof.
  intros Hf. split; cbn [running file past current observe foldl].
  - exact (run_forever_spec config fuel n {| api_version_ := None; lease_task := false |} ghost0).
  - exact Hf.
  - done.
  - by intros o ?%not_elem_of_nil.
Qed.

Lemma settled_sort st events : settled (sort_state st) events <-> settled st events.
Proof. done. Qed.

(** Calls that leave the record, and what is acknowledged, as they were. *)
Lemma next_docker_saved q x g : saved (next_docker q x g) = saved g /\ acked (next_docker q x g) = acked g.
Proof.
  destruct q; cbn [next_docker]; try done.
  - destruct (_ =? _)%Z; [done|]. by destruct (document x) as [[]|].
  - by destruct (_ =? _)%Z.
Qed.

Lemma next_post_saved path body x g : saved (next_post path body x g) = saved g.
Proof. destruct body; cbn [next_post]; [|done]. by destruct (_ && _). Qed.

(** A new acknowledgement is an outcome reported for the record. *)
Lemma next_post_acked path body x g o : allowed_post config g path body ->
  o ∈ acked (next_post path body x g) ->
  o ∈ acked g \/ exists st, saved g = Some st /\ settles (action_generation st) o (Ev (Post path body) (Ok x)).
Proof.
  intros Ha. destruct body as [b|]; cbn [next_post]; [|by left].
  destruct (String.eqb path "outcome") eqn:Hp; [|by left]. destruct (is_success x) eqn:Hx; [|by left].
  destruct (json_eq _ _) eqn:Hop; [|by left]. cbn [andb acknowledged acked].
  apply String.eqb_eq in Hp. apply json_eq_str in Hop.
  intros H. apply elem_of_cons in H as [->|H]; [right|by left].
  destruct (Ha Hp) as (b' & [= <-] & [[Hop' _]|[_ (st & Hs & _ & Hg & o & Ho & _)]]).
  - rewrite Hop in Hop'. vm_compute in Hop'. discriminate Hop'.
  - exists st. split; [done|]. cbn [settles]. rewrite Ho. cbn [as_str].
    split; [done|]. split; [done|]. split; [done|]. split; [done|]. by exists x.
Qed.

(** One answered call keeps what the process knows backed. *)
Lemma known_step g c r events : allowed config g c ->
  (forall st, saved g = Some st -> settled st events) ->
  (forall o, o ∈ acked g -> exists st ev, saved g = Some st /\ ev ∈ events /\ settles (action_generation st) o ev) ->
  (forall st, c = LoadState -> saved (next g (Ev c r)) = Some st -> settled st events) ->
  (forall st, saved (next g (Ev c r)) = Some st -> settled st (events ++ [Ev c r])) /\
  (forall o, o ∈ acked (next g (Ev c r)) -> exists st ev,
     saved (next g (Ev c r)) = Some st /\ ev ∈ events ++ [Ev c r] /\ settles (action_generation st) o ev).
Proof.
  intros Ha Hs Hk Hload.
  assert (forall o, o ∈ acked g -> exists st ev,
    saved g = Some st /\ ev ∈ events ++ [Ev c r] /\ settles (action_generation st) o ev) as Hk'.
  { intros o Ho. destruct (Hk o Ho) as (st & ev & ? & ? & ?). exists st, ev.
    split; [done|]. split; [apply elem_of_app; by left | done]. }
  assert (forall st, saved g = Some st -> settled st (events ++ [Ev c r])) as Hs'
    by (intros st H; by apply settled_more, Hs).
  destruct c; try (by split).
  - destruct r as [x|e]; [|by split]. cbn [next].
    match goal with |- context [next_docker ?q x g] => destruct (next_docker_saved q x g) as [-> ->] end. by split.
  - destruct r as [x|e]; [|by split]. cbn [next]. rewrite next_post_saved. split; [done|].
    intros o Ho. apply next_post_acked in Ho as [Ho|(st & Hst & Hev)]; [by apply Hk'| |done].
    eexists st, _. split; [done|]. split; [apply elem_of_app; right; by apply list_elem_of_singleton|done].
  - split; [intros st H; by apply settled_more, Hload|]. cbn [next].
    destruct (load r) as [f|e]; [|done]. by intros o ?%not_elem_of_nil.
  - destruct r as [x|e]; [|by split]. destruct Ha as [_ Ha].
    destruct (save_settled _ _ _ Ha Hs Hk) as [H1 H2]. cbn [next set_saved saved acked]. split.
    + intros st' [= <-]. by apply settled_more.
    + intros o Ho. destruct (Hk' o Ho) as (st0 & ev & Hst0 & ? & ?). rewrite <- (H2 st0 Hst0) in *. eauto.
  - destruct r as [x|e]; [|by split]. cbn [next starts saved acked]. split; [done|].
    by intros o ?%not_elem_of_nil.
Qed.

(** A written file is backed when the write was allowed. *)
Lemma file_written g f events c f' : allowed config g c ->
  (forall st, saved g = Some st -> settled st events) ->
  (forall o, o ∈ acked g -> exists st ev, saved g = Some st /\ ev ∈ events /\ settles (action_generation st) o ev) ->
  (forall st, f = Some st -> settled st events) -> file_killed f c f' ->
  forall st, f' = Some st -> settled st events.
Proof.
  intros Ha Hs Hk Hf [->|H]; [done|]. destruct c; try done; subst f'; [|done].
  intros st' [= <-]. destruct Ha as [_ Ha]. by destruct (save_settled _ _ _ Ha Hs Hk).
Qed.

Lemma step_killed f c r f' : file_step f c r f' -> file_killed f c f'.
Proof.
  unfold file_step, file_killed. destruct c; try (by left); destruct r; tauto.
Qed.

Lemma reachable_backed w : reachable w -> backed w.
Proof.
  induction 1 as [fuel n|w c k r file' _ [Hruns Hfile Hsaved Hacked] Hrun Hfit Hstep
                 |w fuel n _ [_ Hfile _ _]|w c k file' fuel n _ [Hruns Hfile Hsaved Hacked] Hrun Hkill].
  - by apply boot_backed.
  - rewrite Hrun in Hruns. destruct Hruns as [Ha Hk].
    assert (knowledge (current w ++ [Ev c r]) = next (knowledge (current w)) (Ev c r)) as Hnext
      by (unfold observe; by rewrite foldl_app).
    destruct (known_step _ c r _ Ha Hsaved Hacked) as [H1 H2].
    { intros st -> Hst. cbn [next] in Hst. destruct Hstep as [Hr _]. unfold reads in Hr.
      destruct (load r) as [[st'|]|e]; cbn [starts saved] in Hst; [|done|by apply Hsaved].
      injection Hst as ->. destruct Hr as (st0 & Hf & ->). apply settled_sort. by apply Hfile. }
    split; cbn [running file past current]; rewrite ?Hnext; [by apply Hk| |done|done].
    intros st Hst. apply settled_more. revert st Hst.
    eapply file_written; [exact Ha|exact Hsaved|exact Hacked|exact Hfile|by eapply step_killed].
  - by apply boot_backed.
  - apply boot_backed. rewrite Hrun in Hruns. destruct Hruns as [Ha _].
    eapply file_written; [exact Ha|exact Hsaved|exact Hacked|exact Hfile|exact Hkill].
Qed.


End history.

(** ** A claim that has to wait *)

Section waiting.
Context {DB : UnicodeDB} (config : UpdaterConfig) (fuel : nat).

(** What the runner does while it waits for the drain. *)
Definition waits (c : call) : Prop :=
  match c with Post _ _ | Now | Sleep _ => True | _ => False end.

Abbreviation WAIT := (wp fits (fun (_ : unit) c => waits c) (fun g _ => g)).

Lemma post_waits path body l Q :
  (forall r, Q tt (l, r)) -> WAIT (_post path body l) tt Q.
Proof.
  intros HQ. unfold _post. apply wp_M_bind, wp_try. apply wp_perform; [done|].
  intros [x|e] _; [|destruct (http_error e); apply HQ].
  destruct (_ =? _)%Z; [apply HQ|]. destruct (negb _); apply HQ.
Qed.

Lemma wait_ready_waits n deadline x l : ready x = false ->
  WAIT (wait_ready n deadline x l) tt (fun _ out =>
    match out.2 with Ok y => l_generation y = None | Raise _ => True end).
Proof.
  intros Hx. assert (forall y l, l_generation y = None ->
    WAIT (wait_ready n deadline y l) tt (fun _ out =>
      match out.2 with Ok y => l_generation y = None | Raise _ => True end) /\
    (ready x = false -> WAIT (wait_ready n deadline x l) tt (fun _ out =>
      match out.2 with Ok y => l_generation y = None | Raise _ => True end))) as H.
  { clear Hx l. revert x. induction n as [|n IH]; intros x y l Hy; [done|].
    assert (forall z l, (ready z = true -> l_generation z = None) ->
      WAIT (wait_ready (S n) deadline z l) tt (fun _ out =>
        match out.2 with Ok y => l_generation y = None | Raise _ => True end)) as Hstep.
    { clear x y l Hy. intros z l Hz. cbn [wait_ready]. destruct (ready z) eqn:Hr; [by apply Hz|].
      apply wp_M_bind, (wp_perform fits _ _ Now); [done|]. intros [t|e] _; [|done].
      apply wp_M_bind. destruct (lease z) as [token|]; [|done]. cbn [wp].
      destruct (fle _ _).
      - apply wp_M_bind, wp_M_bind, post_waits. by intros [d|e].
      - apply wp_M_bind. destruct (third_between _ _ _) as [delay|e]; [|done]. cbn [of_res wp].
        apply wp_M_bind, (wp_perform fits _ _ (Sleep delay)); [done|]. intros [u|e] _; [|done].
        apply wp_M_bind, wp_M_bind, post_waits. intros [d|e]; [|done].
        destruct (_lease_values d) as [[[rd secs] blk]|e]; [|done].
        cbn. eapply wp_mono; [|apply (IH z)]; [done|done]. }
    split; [by apply Hstep|]. intros Hx. apply Hstep. by rewrite Hx. }
  by apply (H {| lease := None; ready := true; lease_seconds := 0; blocker := None; l_generation := None |} l eq_refl).
Qed.

(** A claim that is not ready at once never installs: [renew] brings no
    generation, so whatever the coordinator answers afterwards, the runner only
    waits, makes no record and touches nothing of Docker, and ends with an
    error even when the drain becomes ready. *)
Theorem waiting_claim_never_installs generation target old desired old_id desired_id old_digest
    desired_digest old_build desired_build plan l body x d l0 tr p :
  is_success x = true -> _body x = Ok d -> parse_claim d = Ok l0 -> ready l0 = false -> lease l0 <> None ->
  steps fits (start_install config fuel generation target old desired old_id desired_id old_digest
    desired_digest old_build desired_build plan l) (Ev (Post "claim" body) (Ok x) :: tr) p ->
  (forall c r, Ev c r ∈ tr -> waits c) /\ (forall l' r, p = Return (l', r) -> is_ok r = false).
Proof.
  intros Hx Hd Hl0 Hr Hle Hs. unfold start_install in Hs. destruct plan as [[networks ports] timeout].
  apply steps_inv in Hs as (r & Hev & _ & Hs).
  assert (r = Ok x) as ->.
  { pose (f := fun ev : event reply => match ev with Ev c r => match c return res (reply c) -> option (res response)
      with Post _ _ => fun r => Some r | _ => fun _ => None end r end).
    apply (f_equal f) in Hev. by injection Hev as <-. }
  clear Hev. match type of Hs with steps _ ?q _ _ => assert (WAIT q tt (fun _ out => is_ok out.2 = false)) as Hw end.
  { apply wp_bind, wp_bind, wp_bind. cbn [prog_bind].
    assert ((status_code x =? 409)%Z = false /\ (200 <=? status_code x) && (status_code x <=? 299) = true)%Z as [H1 H2].
    { split; [|exact Hx]. unfold is_success in Hx. lia. }
    rewrite H1, H2. cbn [negb]. rewrite Hd. cbn. rewrite Hl0. cbn. destruct (lease l0); [|done]. cbn.
    split; [done|]. intros [now|e] _; [|done]. cbn.
    apply wp_M_bind. eapply wp_mono; [|by apply wait_ready_waits].
    intros [] [l' [y|e]] Hy; [|done]. cbn in Hy |- *. destruct (lease y); [|done]. by rewrite Hy. }
  destruct (wp_sound _ _ _ _ _ _ _ _ Hw Hs) as [Hacc Hrest]. split.
  - clear -Hacc. revert Hacc. generalize tt. induction tr as [|[c r] tr IH]; intros u Hacc c' r' Hin.
    + by apply not_elem_of_nil in Hin.
    + destruct Hacc as [Hc Hacc]. apply elem_of_cons in Hin as [Hin|Hin]; [|by eapply IH].
      by apply (f_equal (fun ev : event reply => match ev with Ev c _ => c end)) in Hin as ->.
  - intros l' r ->. exact Hrest.
Qed.

End waiting.

(** ** The theorems on the sample update *)

Abbreviation sample_knows tr := (observe next ghost0 (sample_trace tr)).

Lemma sample_issues answers c : sample_call answers = Some c ->
  issues (DB := ascii_db) sample_config (sample_trace answers) c.
Proof.
  unfold sample_call, sample_trace. destruct (sample_run answers) as [[tr p]|] eqn:Hrun; simpl; [|done].
  intros Hc. apply head_call_Do in Hc as [k ->]. apply feed_steps in Hrun. eexists k, 5%nat, 1%nat, _. exact Hrun.
Qed.

Lemma removal_is_justified_witness :
  false = false /\ exists st, saved (sample_knows script_removal) = Some st /\
    lit "old" = target_id st /\ replaced sample_config (sample_knows script_removal) st /\
    previous_identified sample_config (sample_knows script_removal) st [previous_name sample_config st].
Proof.
  apply (removal_is_justified (DB := ascii_db) sample_config (sample_trace script_removal)
    (lit "/v1.47") (lit "old") false false).
  apply sample_issues. vm_compute. reflexivity.
Defined.

Lemma mutation_is_recorded_first_witness :
  exists st, saved (sample_knows script_removal) = Some st /\
    concerns sample_config st (ContainerDelete (lit "old") false false).
Proof.
  apply (mutation_is_recorded_first (DB := ascii_db) sample_config (sample_trace script_removal) (lit "/v1.47")).
  - apply sample_issues. vm_compute. reflexivity.
  - reflexivity.
Defined.

Lemma records_advance_witness :
  state_ok sample_state = true /\ advances (sample_knows script_check) sample_state.
Proof.
  apply (records_advance (DB := ascii_db) sample_config (sample_trace script_check)).
  apply sample_issues. vm_compute. reflexivity.
Defined.

Lemma reports_are_honest_witness :
  exists st, saved (sample_knows script_report) = Some st /\
    key "lease_token" sample_report = JStr (lease_token st) /\
    key "action_generation" sample_report = JInt (action_generation st) /\
    exists o, key "outcome" sample_report = JStr o /\
      allowed_report sample_config (sample_knows script_report) st o.
Proof.
  apply (reports_are_honest (DB := ascii_db) sample_config (sample_trace script_report)).
  - apply sample_issues. vm_compute. reflexivity.
  - reflexivity.
Defined.

Lemma record_is_kept_until_settled_witness :
  exists st, saved (sample_knows (script_removal ++ [Status 204])) = Some st /\
    ((replaced sample_config (sample_knows (script_removal ++ [Status 204])) st /\
      target_id st ∈ gone (sample_knows (script_removal ++ [Status 204]))) \/
     (stage st = prepared /\ lit "failed" ∈ acked (sample_knows (script_removal ++ [Status 204])))).
Proof.
  apply (record_is_kept_until_settled (DB := ascii_db) sample_config
    (sample_trace (script_removal ++ [Status 204]))).
  apply sample_issues. vm_compute. reflexivity.
Defined.

(** The same run, in the worlds. *)
Definition file_after (f : option UpdateState) (c : call) (r : res (reply c)) : option (option UpdateState) :=
  match c return res (reply c) -> option (option UpdateState) with
  | LoadState => fun r =>
      match load r, f with Ok None, None => Some f | _, _ => None end
  | SaveState st => fun r => match r with Ok _ => Some (Some st) | Raise _ => None end
  | ClearState => fun r => match r with Ok _ => Some None | Raise _ => None end
  | _ => fun _ => Some f
  end r.

Lemma file_after_step f c r f' : file_after f c r = Some f' -> file_step f c r f'.
Proof.
  unfold file_after, file_step. destruct c; try (by intros [= <-]).
  - unfold reads. destruct (load r) as [[st|]|e]; try done. destruct f; [done|]. by intros [= <-].
  - destruct r; [|done]. by intros [= <-].
  - destruct r; [|done]. by intros [= <-].
Qed.

Fixpoint drive (answers : list answer) (w : world) : option world :=
  match answers with
  | [] => Some w
  | a :: rest =>
      match running w with
      | Do c k =>
          r ← answer_for c a;
          f ← file_after (file w) c r;
          drive rest {| past := past w ++ [Ev c r]; file := f; current := current w ++ [Ev c r]; running := k r |}
      | _ => None
      end
  end.

Lemma drive_reachable {DB : UnicodeDB} config answers w w' :
  reachable config w -> drive answers w = Some w' -> reachable config w'.
Proof.
  revert w. induction answers as [|a rest IH]; intros w Hw; simpl; [by intros [= <-]|].
  destruct (running w) as [x|c k|] eqn:Hr; try done.
  destruct (answer_for c a) as [r|] eqn:Ha; simpl; [|done].
  destruct (file_after (file w) c r) as [f|] eqn:Hf; simpl; [|done].
  apply IH. eapply answered; [exact Hw|exact Hr|by eapply answer_fits|by apply file_after_step].
Qed.

Definition sample_boot : world :=
  {| past := []; file := None; current := []; running := boot (DB := ascii_db) sample_config 5 1 |}.
Definition sample_world : world := default sample_boot (drive script_removal sample_boot).


Lemma waiting_claim_never_installs_witness : exists (tr : list (event reply)) (l : Local),
  (forall c r, Ev c r ∈ tr -> waits c) /\
  (forall l' r, Return (Reply := reply) (l, UpdaterError (A := unit) (lit "maintenance_generation_missing")) =
     Return (l', r) -> is_ok r = false).
Proof.
  destruct sample_wait as (tr & l & Hrun). exists tr, l.
  eapply (waiting_claim_never_installs (DB := ascii_db) sample_config 5 7 (old_container "/pm") (image "sha256:aa")
    (image "sha256:bb") (lit "sha256:aa") (lit "sha256:bb") (lit "sha256:aa") (lit "sha256:bb") None None
    ([(lit "bridge", JObj [])], [], 75%Z) {| api_version_ := None; lease_task := false |} _ waiting).
  - reflexivity.
  - reflexivity.
  - vm_compute. reflexivity.
  - reflexivity.
  - discriminate.
  - apply (feed_steps script_wait). exact Hrun.
Defined.
